(* ===== verification/_CoqProject ===== *)
-Q . S2P
Prelude.v
Sshbuf.v
SshbufGetput.v
SshbufThms.v
SshbufShare.v
SshbufRead.v
SshbufMisc.v
Bitmap.v
RbTree.v
Krl.v
KrlThms.v
Nchan.v
NchanThms.v
Match.v
Poly1305.v
Chacha.v
Chachapoly.v
Rijndael.v
AesCtr.v
Cipher.v
Digest.v
Mac.v
KrlFormat.v
KrlWrite.v
KrlRead.v
KrlFile.v
PacketState.v
Packet.v
PacketBuf.v
PacketSend.v
PacketRecv.v
PacketRead.v
PacketThms.v
PacketFrame.v
PacketMem.v
PacketAuth.v
PacketAccept.v
PacketPoll.v
PacketAcceptThms.v
KexNames.v
Kex.v
KexThms.v
KexKeys.v
KexAgree.v
HashBlocks.v
Sha2.v
Sha2Thms.v
Sha1.v
Sha1Thms.v
Md5.v
Md5Thms.v
DigestImpl.v
DigestTypes.v
Umac.v
UmacSpec.v
UmacNh.v
UmacPoly.v
UmacUhash.v
UmacThms.v
UmacImpl.v
MacImpl.v
