(* ===== verification/Prelude.v ===== *)
(** A verified model of the core of OpenSSH 9.6p1.

    The sources are under src/5g/group_key_mgmt/openssh-9.6p1 (in short: the
    names of files below).  The development models the parts of the program
    that carry its data, its packets and the keys of its packets, and proves
    what they promise.  Where the code has variants it is the build without
    OpenSSL, zlib, security keys and XMSS, which uses the program's own ciphers.

    * The parts and their files

    Foundations.
    - Prelude.v: machine integers, the allocator, error codes, [recallocarray]
      and [timingsafe_bcmp] (openbsd-compat), the shared tactics and lemmas.
    - Sshbuf.v: the octet buffers of sshbuf.c.  [sshbuf] is the C structure
      with its members; the block of memory is a list of octets.  [wf] is the
      representation invariant and [contents] what a buffer holds.
    - SshbufGetput.v: the wire encoding of sshbuf-getput-basic.c.
    - SshbufThms.v: buffers refine a bounded queue of octets; round trips of
      messages; parsing does not look outside the buffer.
    - SshbufShare.v: parent and child buffers that share a block
      ([sshbuf_fromb], [sshbuf_froms], [sshbuf_free]) and their lifetimes.
    - SshbufRead.v: reading through a buffer and its children, C strings.
    - SshbufMisc.v: helpers of sshbuf-misc.c.
    - Bitmap.v: bitmap.c, refined by sets of numbers.
    - RbTree.v: the searches of the red-black trees of sys-tree.h, over trees
      of every shape (class [TreeShape]), so that what is proved does not
      depend on how the trees are balanced.
    - Match.v: patterns and name lists (match.c).

    Revocation lists and channels.
    - Krl.v, KrlThms.v: key revocation lists in memory (krl.c), over keys that
      are given by the class [SshKey] with the laws [SshKeyLaws].
    - KrlFormat.v, KrlWrite.v, KrlRead.v, KrlFile.v: revocation lists as files
      (the rest of krl.c): the model of the writer and the reader, which octets
      are written, what they are read as, and the round trip.
    - Nchan.v, NchanThms.v: the protocol that closes a channel (nchan.c).  Each
      handler is a function on the members of [Channel] it touches; packets
      and system calls go to a trace; events interleave freely.

    Cryptography.
    - Poly1305.v, Chacha.v, Chachapoly.v: poly1305.c, chacha.c and the packet
      cipher cipher-chachapoly.c that is built from them.
    - Rijndael.v, AesCtr.v: AES (rijndael.c) against FIPS 197, and its counter
      mode (cipher-aesctr.c).
    - Cipher.v: the table of ciphers and contexts (cipher.c).  [has_state]
      relates a context to the abstract state of its key stream.
    - Digest.v: digests and HMAC (digest-libc.c, hmac.c); the hash functions
      are the class [MD] with the laws [MDLaws].
    - HashBlocks.v, Sha2.v, Sha2Thms.v, Sha1.v, Sha1Thms.v, Md5.v, Md5Thms.v: the
      hash functions (sha2.c, sha1.c and md5.c of openbsd-compat) against FIPS
      180-4 and RFC 1321, by what a context with a partly filled block has
      [taken] in.  DigestImpl.v makes them an instance of [MD] and discharges
      [MDLaws]; DigestTypes.v shows that the contexts keep their types.
    - Mac.v: message authentication (mac.c) over the classes [MD] and [Umac].
    - Umac.v: umac.c, and with a wider tag umac128.c (the argument [b] is
      true).  UmacSpec.v states RFC 4418; UmacNh.v, UmacPoly.v, UmacUhash.v and
      UmacThms.v follow its layers up, by what a context has taken in;
      UmacImpl.v puts them together, and MacImpl.v makes umac.c an instance of
      [Umac], discharges [UmacLaws] and composes mac.c with all it calls.

    The packet layer (packet.c).
    - PacketState.v: struct session_state, struct kex and their parts as
      records, and the monad of the packet layer: a computation returns a value,
      returns early from the C function, or ends the process.
    - Packet.v: every function that sends and receives.  What the outside does
      (octets from the network, time, random octets) are members of the state.
    - PacketBuf.v, PacketFrame.v, PacketMem.v: running the monad; what
      operations leave alone; memory that lasts.
    - PacketSend.v, PacketRecv.v, PacketRead.v, PacketThms.v: the wire form of
      packets under the keys of a direction ([dir]), sending and receiving one
      packet and a stream of them.
    - PacketAuth.v, PacketAccept.v, PacketPoll.v, PacketAcceptThms.v: what any
      octets at all can make the receiving end do.

    Key exchange (kex.c).
    - KexNames.v: the table of methods, name lists from configurations, the
      proposal that is sent.
    - Kex.v: proposals in buffers, the choice of algorithms, the derivation of
      keys, on the state of the packet layer.
    - KexThms.v, KexKeys.v: what is chosen, by the two proposals alone; keys as
      RFC 4253 defines them.
    - KexAgree.v: two ends of one exchange.

    The parts interact as in the code: the list files are written and read
    with the buffers and the bitmaps; the packet layer works on buffers with
    the ciphers and macs that the key exchange has chosen and keyed, and the key
    exchange reads its proposals with the buffers and chooses with the name
    lists.  A direction [dir] is the interface between key exchange and packets:
    the theorems of the packet layer start from two ends of one direction, and
    KexAgree.v shows that an exchange makes two ends of one direction.

    * Modelling

    A C function is a Rocq function.  The objects it changes are arguments and
    results; its [int] result is a [Z] with the codes of ssherr.h.  Unsigned
    arithmetic wraps where the code's does ([u8], [u32], [u64]).  Allocation
    asks a [world], a list that says which of the coming allocations succeed;
    theorems quantify over all of them, or say that memory lasts ([[]]).
    Uninitialised memory is an argument.  Pointers into buffers are the octets
    they point at, followed by whatever lies behind; theorems show that this rest
    does not matter.

    Loops are recursion on their data or have fuel.  Fuel is computed from the
    input, and enough: [match_pattern] gets the product bound of its two
    strings and is shown to decide its language; the loops over a buffer get
    one more than the octets it holds, every round taking at least one; the
    block loops of the ciphers and hash functions get at least the number of
    octets, each round taking a block (so does the key derivation of UMAC); the
    rounds of a transform and the padding have their fixed numbers; the loop over
    packets gets [poll_fuel], which [poll_terminates] shows to be enough;
    the extension of a key gets the number of octets needed, each round adding
    at least one.

    * What is shown

    - Safety and refinement of the buffers: whatever sequence of operations
      and allocation failures, a buffer stays sane and behaves as a bounded
      queue; children never see memory that changed or was freed.
    - The ciphers: AES, counter mode, ChaCha20, Poly1305, the hash functions,
      HMAC and UMAC (up to the 2^24 octets it is made for) are those of their
      standards; two contexts with the same keys understand each other; exactly the packets with the right tag are accepted.
    - Packets: what is sent is received, in order, in whatever pieces it
      arrives; whatever arrives, only what carries the right tags is delivered;
      the loop that looks for packets ends; padding is within its bounds.
    - Key exchange: a proposal is read back as it was written; two ends choose
      the same algorithms or both fail; keys are those of RFC 4253; after the
      exchange the two ends are connected in both directions.
    - Revocation lists: a list revokes exactly what was asked for, also after
      it was stored and loaded.
    - Channels: message order, states that only move towards closed, and
      completion of the close.
    - Patterns and lists: equivalence with declarative definitions.

    The theorems also show where the code falls short: [sshbuf_reset] on a
    buffer with a small limit, [match_list] after forty items, revocation lists
    with bitmaps that are too long to be read back, a success without a
    result when memory runs out in [ssh_krl_from_blob], and [cipher_set_keyiv],
    which does not set the counter of AES.

    * Not modelled

    Keys, certificates and signatures (sshkey.c and the code around OpenSSL)
    are used through classes with laws.  Of the packet layer, sockets and moving
    the state between processes; of the key exchange, the methods themselves, which are curve
    arithmetic, and the messages about extensions.  The multiplexing of channels
    is a candidate for later work.  The programs (sshd.c, ssh.c, ssh-agent.c and
    the tools) are dominated by process control, terminals, files and
    configuration.  The printing of revocation lists and the functions that only
    free memory have no model.  The Python services of the 5G simulation are a
    different program. *)

From stdpp Require Import base list numbers tactics.
From Stdlib Require Import ZArith Lia ZifyBool.
From Stdlib Require Ascii.
From Stdlib Require Export (notations) String.

#[global] Open Scope Z_scope.

(** ** Machine integers

    A w-bit unsigned C integer is a [Z]; [u8], [u16], [u32] and [u64] are the
    conversions C performs on assignment to such a type.  [size_t] is 64 bits
    wide. *)

Definition u8 (x : Z) : Z := x mod 2 ^ 8.
Definition u16 (x : Z) : Z := x mod 2 ^ 16.
Definition u32 (x : Z) : Z := x mod 2 ^ 32.
Definition u64 (x : Z) : Z := x mod 2 ^ 64.

Definition SIZE_MAX : Z := 2 ^ 64 - 1.
Definition INT_MAX : Z := 2 ^ 31 - 1.

(** An octet, and a string of octets. *)
Definition is_byte (b : Z) : Prop := 0 <= b < 256.
Abbreviation bytes_ok l := (Forall is_byte l).

#[global] Instance is_byte_dec b : Decision (is_byte b).
Proof. unfold is_byte. apply _. Defined.

(** A C string literal as the list of its characters. *)
Definition chars (s : String.string) : list Z :=
  map (fun a => Z.of_N (Ascii.N_of_ascii a)) (String.list_ascii_of_string s).
Arguments chars s%_string_scope.

(** ** The heap allocator

    The C library's allocator is an oracle: a [world] lists, for the
    allocations still to come, whether each one succeeds; past the end of the
    list allocations succeed.  Quantifying over worlds covers every pattern of
    allocation failures. *)

Definition world := list bool.

Definition malloc (w : world) : bool * world :=
  match w with
  | [] => (true, [])
  | b :: w' => (b, w')
  end.

(** ** Error codes (ssherr.h) *)

Definition SSH_ERR_SUCCESS := 0.
Definition SSH_ERR_INTERNAL_ERROR := -1.
Definition SSH_ERR_ALLOC_FAIL := -2.
Definition SSH_ERR_MESSAGE_INCOMPLETE := -3.
Definition SSH_ERR_INVALID_FORMAT := -4.
Definition SSH_ERR_BIGNUM_IS_NEGATIVE := -5.
Definition SSH_ERR_STRING_TOO_LARGE := -6.
Definition SSH_ERR_BIGNUM_TOO_LARGE := -7.
Definition SSH_ERR_NO_BUFFER_SPACE := -9.
Definition SSH_ERR_INVALID_ARGUMENT := -10.
Definition SSH_ERR_SYSTEM_ERROR := -24.
Definition SSH_ERR_LIBCRYPTO_ERROR := -22.
Definition SSH_ERR_MAC_INVALID := -30.
Definition SSH_ERR_BUFFER_READ_ONLY := -49.
Definition SSH_ERR_KEY_REVOKED := -51.
Definition SSH_ERR_KRL_BAD_MAGIC := -50.
Definition SSH_ERR_FEATURE_UNSUPPORTED := -59.

(** ** Digest algorithms (digest.h) *)

Definition SSH_DIGEST_MAX_LENGTH : Z := 64.
Definition SSH_DIGEST_MD5 : Z := 0.
Definition SSH_DIGEST_SHA1 : Z := 1.
Definition SSH_DIGEST_SHA256 : Z := 2.
Definition SSH_DIGEST_SHA384 : Z := 3.
Definition SSH_DIGEST_SHA512 : Z := 4.
Definition SSH_DIGEST_MAX : Z := 5.

(** The C library's reallocation of an array of [oldnmemb] objects of [size]
    bytes each (openbsd-compat/recallocarray.c): the objects that fit are kept,
    the objects that are added are zero.  [ptr] lists the objects.  The short
    cut that shrinks in place keeps the same objects as the general path and is
    the case where the oracle answers [true]. *)
Definition MUL_NO_OVERFLOW : Z := 2 ^ 32.

Definition mul_overflows (nmemb size : Z) : bool :=
  ((MUL_NO_OVERFLOW <=? nmemb) || (MUL_NO_OVERFLOW <=? size)) &&
  (0 <? nmemb) && (SIZE_MAX / nmemb <? size).

Definition recallocarray (w : world) (ptr : list Z) (oldnmemb newnmemb size : Z)
  : option (list Z) * world :=
  if mul_overflows newnmemb size then (None, w)
  else if mul_overflows oldnmemb size then (None, w)
  else
    let '(ok, w') := malloc w in
    if negb ok then (None, w')
    else if newnmemb * size >? oldnmemb * size then
      (Some (take (Z.to_nat oldnmemb) ptr ++
             replicate (Z.to_nat (newnmemb - oldnmemb)) 0), w')
    else (Some (take (Z.to_nat newnmemb) ptr), w').

(** [memcpy] of the octets [v] over position [i] of the block [l]. *)
Definition splice (l : list Z) (i : nat) (v : list Z) : list Z :=
  take i l ++ v ++ drop (i + length v) l.

(** [p[i]] *)
Definition byte_at (p : list Z) (i : nat) : Z := default 0 (p !! i).

(** ** Comparison of octets without early exit
    (openbsd-compat/timingsafe_bcmp.c) *)

(** [ret |= *p1++ ^ *p2++], [n] times. *)
Fixpoint bcmp_loop (n : nat) (p1 p2 : list Z) (ret : Z) : Z :=
  match n with
  | O => ret
  | S n => bcmp_loop n (drop 1 p1) (drop 1 p2) (Z.lor ret (Z.lxor (byte_at p1 0) (byte_at p2 0)))
  end.

Definition timingsafe_bcmp (b1 b2 : list Z) (n : nat) : Z :=
  if bcmp_loop n b1 b2 0 =? 0 then 0 else 1.

(** ** Sequencing

    [r = f(...)) != 0 || (r = g(...)) != 0]: a step returns a status, the new
    state and the allocator; a status other than 0 ends the sequence. *)
Definition and_then {S : Type} (x : Z * S * world) (k : S -> world -> Z * S * world)
  : Z * S * world :=
  let '(r, s, w) := x in if negb (r =? 0) then (r, s, w) else k s w.

(** ** Automation *)

(** Split on every [if] of the goal, then of the hypotheses. *)
Ltac case_if :=
  match goal with
  | |- context [if ?b then _ else _] => destruct b eqn:?
  | H : context [if ?b then _ else _] |- _ => destruct b eqn:?
  end.

Ltac case_ifs := repeat case_if.

(** Turn [let '(x, y) := e in ...] into an equation. *)
Ltac case_let :=
  match goal with
  | |- context [let '(_, _) := ?e in _] => destruct e eqn:?
  | H : context [let '(_, _) := ?e in _] |- _ => destruct e eqn:?
  end.

(** [lia] on goals with division and remainder by constants. *)
Ltac dm_lia := Z.to_euclidean_division_equations; lia.

Create HintDb sshdb.

(** Values in range are not changed. *)
Lemma u32_id x : 0 <= x < 2 ^ 32 -> u32 x = x.
Proof. apply Z.mod_small. Qed.

Lemma u64_id x : 0 <= x < 2 ^ 64 -> u64 x = x.
Proof. apply Z.mod_small. Qed.

(** ** Lemmas on octet strings *)

Lemma length_splice l i v :
  (i + length v <= length l)%nat -> length (splice l i v) = length l.
Proof.
  intros. unfold splice. rewrite !length_app, length_take, length_drop. lia.
Qed.

Lemma bytes_ok_app l k : bytes_ok (l ++ k) <-> bytes_ok l /\ bytes_ok k.
Proof. apply Forall_app. Qed.

Lemma bytes_ok_take n l : bytes_ok l -> bytes_ok (take n l).
Proof. apply Forall_take. Qed.

Lemma bytes_ok_drop n l : bytes_ok l -> bytes_ok (drop n l).
Proof. apply Forall_drop. Qed.

Lemma bytes_ok_zeros n : bytes_ok (replicate n 0).
Proof. apply Forall_replicate. unfold is_byte. lia. Qed.

Lemma bytes_ok_splice l i v : bytes_ok l -> bytes_ok v -> bytes_ok (splice l i v).
Proof.
  intros. unfold splice. rewrite !bytes_ok_app.
  auto using bytes_ok_take, bytes_ok_drop.
Qed.

#[export] Hint Resolve bytes_ok_take bytes_ok_drop bytes_ok_zeros bytes_ok_splice : sshdb.

(** The window of [splice] that starts before the write and ends with it. *)
Lemma window_splice l o i v :
  (o <= i)%nat -> (i + length v <= length l)%nat ->
  take (i + length v - o) (drop o (splice l i v)) = take (i - o) (drop o l) ++ v.
Proof.
  intros Ho Hi. unfold splice.
  rewrite drop_app_le by (rewrite length_take; lia).
  rewrite take_app_ge by (rewrite length_drop, length_take; lia).
  rewrite length_drop, length_take, Nat.min_l by lia.
  replace (i + length v - o - (i - o))%nat with (length v) by lia.
  rewrite take_app_length. f_equal.
  rewrite take_drop_commute. f_equal. f_equal. lia.
Qed.

Lemma lookup_splice l i v k :
  (i + length v <= length l)%nat ->
  splice l i v !! k =
    if decide (i <= k < i + length v)%nat then v !! (k - i)%nat else l !! k.
Proof.
  intros Hi. unfold splice. case_decide.
  - rewrite lookup_app_r by (rewrite length_take; lia).
    rewrite length_take, Nat.min_l by lia. by rewrite lookup_app_l by lia.
  - destruct (decide (k < i)%nat).
    + rewrite lookup_app_l by (rewrite length_take; lia). by rewrite lookup_take_lt.
    + rewrite lookup_app_r by (rewrite length_take; lia).
      rewrite length_take, Nat.min_l by lia. rewrite lookup_app_r by lia.
      rewrite lookup_drop. f_equal. lia.
Qed.

(** Overwriting inside a window, seen through the window. *)
Lemma splice_window l o n i v :
  (o + i + length v <= n)%nat -> (n <= length l)%nat ->
  take (n - o) (drop o (splice l (o + i) v)) = splice (take (n - o) (drop o l)) i v.
Proof.
  intros Hi Hn. apply list_eq. intros k.
  rewrite lookup_splice by (rewrite length_take, length_drop; lia).
  destruct (decide (k < n - o)%nat).
  - rewrite lookup_take_lt, lookup_drop, lookup_splice by lia.
    case_decide; case_decide; try lia; [f_equal; lia|].
    by rewrite lookup_take_lt, lookup_drop by lia.
  - rewrite lookup_take_ge by lia. case_decide; [lia|].
    by rewrite lookup_take_ge by lia.
Qed.

(** What [malloc] cannot do to the state is change it. *)
Lemma recallocarray_Some w l o n s l' w' :
  recallocarray w l o n s = (Some l', w') ->
  Z.of_nat (length l) = o -> 0 <= n -> 0 < s ->
  Z.of_nat (length l') = n /\
  (forall k, (k <= Z.to_nat o)%nat -> (k <= Z.to_nat n)%nat -> take k l' = take k l) /\
  (bytes_ok l -> bytes_ok l').
Proof.
  unfold recallocarray. intros H <- Hn Hs.
  destruct (mul_overflows n s); [done|].
  destruct (mul_overflows _ s); [done|].
  destruct (malloc w) as [[] w1]; cbn in H; [|done].
  destruct (_ >? _) eqn:E; injection H as <- <-.
  - assert (Z.of_nat (length l) < n) by nia.
    split; [|split].
    + rewrite length_app, length_take, length_replicate. lia.
    + intros k ??. rewrite take_app_le by (rewrite length_take; lia).
      rewrite take_take. f_equal. lia.
    + intros. rewrite bytes_ok_app. auto with sshdb.
  - assert (n <= Z.of_nat (length l)) by nia.
    split; [|split].
    + rewrite length_take. lia.
    + intros k ??. rewrite take_take. f_equal. lia.
    + auto with sshdb.
Qed.

(** ** Lemmas on shifts and masks *)

Lemma lor_shiftl_add a b n :
  0 <= n -> 0 <= a < 2 ^ n -> Z.lor (Z.shiftl b n) a = b * 2 ^ n + a.
Proof.
  intros Hn Ha.
  assert (Hl : Z.land (Z.shiftl b n) a = 0).
  { apply Z.bits_inj'. intros i Hi. rewrite Z.land_spec, Z.bits_0.
    destruct (Z.lt_ge_cases i n).
    - rewrite Z.shiftl_spec_low by lia. done.
    - replace (Z.testbit a i) with false; [by rewrite andb_false_r|].
      symmetry. destruct (decide (a = 0)) as [->|]; [apply Z.bits_0|].
      apply Z.bits_above_log2; [lia|].
      apply Z.log2_lt_pow2; [lia|].
      apply Z.lt_le_trans with (2 ^ n); [lia|]. apply Z.pow_le_mono_r; lia. }
  rewrite <- Z.lxor_lor by done. rewrite <- Z.add_nocarry_lxor by done.
  rewrite Z.shiftl_mul_pow2 by lia. done.
Qed.

(** Joining two numbers whose bits do not overlap is addition. *)
Lemma lor_add a b n :
  0 <= n -> a mod 2 ^ n = 0 -> 0 <= b < 2 ^ n -> Z.lor a b = a + b.
Proof.
  intros Hn Ha Hb. rewrite (Z.div_mod a (2 ^ n)) by lia.
  rewrite Ha, Z.add_0_r, Z.mul_comm, <- Z.shiftl_mul_pow2 by lia.
  rewrite lor_shiftl_add by lia. rewrite Z.shiftl_mul_pow2 by lia. lia.
Qed.

Lemma land_255 x : Z.land x 255 = x mod 256.
Proof. change 255 with (Z.ones 8). apply Z.land_ones. lia. Qed.

Lemma u8_lxor a b : u8 (Z.lxor a b) = Z.lxor (u8 a) (u8 b).
Proof.
  unfold u8. rewrite <- !Z.land_ones by done. apply Z.bits_inj'. intros i Hi.
  rewrite !Z.lxor_spec, !Z.land_spec, Z.lxor_spec. by destruct (Z.testbit a i), (Z.testbit b i), (Z.testbit _ i).
Qed.

Lemma shiftr_div x n : 0 <= n -> Z.shiftr x n = x / 2 ^ n.
Proof. apply Z.shiftr_div_pow2. Qed.

(** ** Lemmas on comparisons *)

Lemma byte_at_range p i : bytes_ok p -> 0 <= byte_at p i < 256.
Proof.
  intros H. unfold byte_at. destruct (p !! i) eqn:E; cbn; [|lia].
  rewrite Forall_lookup in H. by apply H in E.
Qed.

Lemma bcmp_loop_0 n p1 p2 ret :
  bcmp_loop n p1 p2 ret = 0 <-> ret = 0 /\ forall i, (i < n)%nat -> byte_at p1 i = byte_at p2 i.
Proof.
  revert p1 p2 ret. induction n as [|n IH]; intros p1 p2 ret; cbn [bcmp_loop].
  - split; [intros ->; split; [done|lia]|by intros [-> _]].
  - rewrite IH, Z.lor_eq_0_iff, Z.lxor_eq_0_iff. unfold byte_at.
    split.
    + intros [[-> H0] H]. split; [done|]. intros [|i] Hi; [done|].
      specialize (H i ltac:(lia)). by rewrite !lookup_drop in H.
    + intros [-> H]. split; [split; [done|apply (H 0%nat); lia]|].
      intros i Hi. rewrite !lookup_drop. apply (H (S i)). lia.
Qed.

Lemma timingsafe_bcmp_spec n b1 b2 :
  length b1 = n -> (n <= length b2)%nat ->
  timingsafe_bcmp b1 b2 n = if decide (b1 = take n b2) then 0 else 1.
Proof.
  intros H1 H2. unfold timingsafe_bcmp.
  assert (H : bcmp_loop n b1 b2 0 = 0 <-> b1 = take n b2).
  { rewrite bcmp_loop_0. split.
    - intros [_ H]. apply list_eq_same_length with n; [by rewrite length_take; lia|done|].
      intros i x y Hi Hx Hy. specialize (H i Hi). rewrite lookup_take_lt in Hy by done.
      unfold byte_at in H. by rewrite Hx, Hy in H.
    - intros E. split; [done|]. intros i Hi. rewrite E. unfold byte_at.
      by rewrite lookup_take_lt. }
  case_decide as E; destruct (Z.eqb_spec (bcmp_loop n b1 b2 0) 0); tauto.
Qed.

(** ** Big-endian numbers *)

(** The big-endian octet string of a number. *)
Fixpoint be_bytes (n : nat) (v : Z) : list Z :=
  match n with
  | O => []
  | S n' => (v / 2 ^ (8 * Z.of_nat n')) mod 256 :: be_bytes n' v
  end.

Fixpoint be_value (acc : Z) (s : list Z) : Z :=
  match s with
  | [] => acc
  | c :: s => be_value (256 * acc + c) s
  end.

Lemma length_be_bytes n v : length (be_bytes n v) = n.
Proof. induction n; cbn; congruence. Qed.

Lemma bytes_ok_be_bytes n v : bytes_ok (be_bytes n v).
Proof. induction n; cbn; constructor; [unfold is_byte; dm_lia|done]. Qed.

Lemma be_value_acc acc s :
  be_value acc s = acc * 2 ^ (8 * Z.of_nat (length s)) + be_value 0 s.
Proof.
  revert acc. induction s as [|c s IH]; intros acc; cbn [be_value length]; [cbn; lia|].
  rewrite IH, (IH (256 * 0 + c)).
  replace (8 * Z.of_nat (S (length s))) with (8 + 8 * Z.of_nat (length s)) by lia.
  rewrite Z.pow_add_r by lia. change (2 ^ 8) with 256. ring.
Qed.

Lemma be_value_cons c s :
  be_value 0 (c :: s) = c * 2 ^ (8 * Z.of_nat (length s)) + be_value 0 s.
Proof. cbn [be_value]. rewrite be_value_acc. f_equal. Qed.

Lemma be_value_range s : bytes_ok s -> 0 <= be_value 0 s < 2 ^ (8 * Z.of_nat (length s)).
Proof.
  induction 1 as [|c s Hc _ IH]; [done|]. rewrite be_value_cons. unfold is_byte in Hc.
  cbn [length]. replace (8 * Z.of_nat (S (length s))) with (8 + 8 * Z.of_nat (length s)) by lia.
  rewrite Z.pow_add_r by lia. change (2 ^ 8) with 256. nia.
Qed.

Lemma be_value_app p s :
  be_value 0 (p ++ s) = be_value 0 p * 2 ^ (8 * Z.of_nat (length s)) + be_value 0 s.
Proof.
  induction p as [|c p IH]; [cbn [app be_value]; lia|]. cbn [app]. rewrite !be_value_cons, IH, length_app.
  replace (8 * Z.of_nat (length p + length s)) with (8 * Z.of_nat (length p) + 8 * Z.of_nat (length s)) by lia.
  rewrite Z.pow_add_r by lia. ring.
Qed.

Lemma be_value_be_bytes_mod n v : be_value 0 (be_bytes n v) = v mod 2 ^ (8 * Z.of_nat n).
Proof.
  induction n as [|n IH]; [cbn; by rewrite Z.mod_1_r|].
  cbn [be_bytes]. rewrite be_value_cons, length_be_bytes, IH.
  replace (8 * Z.of_nat (S n)) with (8 * Z.of_nat n + 8) by lia.
  rewrite Z.pow_add_r, Z.rem_mul_r by lia. change (2 ^ 8) with 256. lia.
Qed.

Lemma be_value_be_bytes n v : 0 <= v < 2 ^ (8 * Z.of_nat n) -> be_value 0 (be_bytes n v) = v.
Proof. intros Hv. rewrite be_value_be_bytes_mod. by apply Z.mod_small. Qed.

Lemma be_bytes_add_multiple n v k : be_bytes n (v + k * 2 ^ (8 * Z.of_nat n)) = be_bytes n v.
Proof.
  revert v k. induction n as [|n IH]; intros v k; [done|]. cbn [be_bytes].
  replace (8 * Z.of_nat (S n)) with (8 + 8 * Z.of_nat n) by lia. rewrite Z.pow_add_r, Z.mul_assoc by lia.
  rewrite IH. f_equal. rewrite Z.div_add by lia. apply Z.mod_add. lia.
Qed.

Lemma be_bytes_mod n v : be_bytes n (v mod 2 ^ (8 * Z.of_nat n)) = be_bytes n v.
Proof.
  rewrite Z.mod_eq by lia. rewrite <- (be_bytes_add_multiple n v (- (v / 2 ^ (8 * Z.of_nat n)))).
  f_equal. lia.
Qed.

Lemma be_bytes_be_value s : bytes_ok s -> be_bytes (length s) (be_value 0 s) = s.
Proof.
  induction 1 as [|c s Hc Hs IH]; [done|]. cbn [length be_bytes]. rewrite be_value_cons.
  pose proof (be_value_range s Hs). unfold is_byte in Hc. f_equal.
  - rewrite Z.div_add_l, Z.div_small, Z.add_0_r by lia. apply Z.mod_small. lia.
  - rewrite Z.add_comm, be_bytes_add_multiple. done.
Qed.
