(* ===== verification/Sshbuf.v ===== *)
(** The growable byte buffer of sshbuf.c.

    Every message, key blob and revocation list of the program is built in and
    parsed from a [struct sshbuf]: a block of [alloc] octets of which the
    window [off, size) holds the data.  The file models each function of
    sshbuf.c on the struct, states the representation invariant [wf], and shows
    that the buffer implements a bounded octet queue. *)

From stdpp Require Import base list numbers tactics.
From Stdlib Require Import ZArith Lia ZifyBool.
From S2P Require Import Prelude.

(** ** Constants (sshbuf.h) *)

Definition SSHBUF_SIZE_MAX : Z := 0x8000000.
Definition SSHBUF_REFS_MAX : Z := 0x100000.
Definition SSHBUF_MAX_BIGNUM : Z := 16384 / 8.
Definition SSHBUF_SIZE_INIT : Z := 256.
Definition SSHBUF_SIZE_INC : Z := 256.
Definition SSHBUF_PACK_MIN : Z := 8192.

(** misc.h *)
Definition ROUNDUP (x y : Z) : Z := u64 ((u64 (x + (y - 1)) / y) * y).

(** ** The struct

    The two pointers [d] and [cd] of the struct are [NULL], or point at the
    same block ([sb_d_is_cd]), or [d] is [NULL] and [cd] points at a block the
    buffer does not own.  [sb_cd] is the block that [cd] points at, as the list
    of its [alloc] octets.  [sb_parent] names the parent buffer, if any. *)
Record sshbuf := mk_sshbuf {
  sb_cd : option (list Z);
  sb_d_is_cd : bool;
  sb_off : Z;
  sb_size : Z;
  sb_max_size : Z;
  sb_alloc : Z;
  sb_readonly : bool;
  sb_refcount : Z;
  sb_parent : option nat
}.

Definition block (b : sshbuf) : list Z := default [] (sb_cd b).

(** Assignments to members.  [set_d] is [buf->cd = buf->d = dp] followed by the
    update of [alloc]. *)
Definition set_window (b : sshbuf) (off size : Z) : sshbuf :=
  mk_sshbuf (sb_cd b) (sb_d_is_cd b) off size (sb_max_size b) (sb_alloc b)
    (sb_readonly b) (sb_refcount b) (sb_parent b).

Definition set_block (b : sshbuf) (l : list Z) : sshbuf :=
  mk_sshbuf (Some l) (sb_d_is_cd b) (sb_off b) (sb_size b) (sb_max_size b)
    (sb_alloc b) (sb_readonly b) (sb_refcount b) (sb_parent b).

Definition set_d (b : sshbuf) (dp : list Z) (alloc : Z) : sshbuf :=
  mk_sshbuf (Some dp) true (sb_off b) (sb_size b) (sb_max_size b)
    alloc (sb_readonly b) (sb_refcount b) (sb_parent b).

Definition set_max (b : sshbuf) (m : Z) : sshbuf :=
  mk_sshbuf (sb_cd b) (sb_d_is_cd b) (sb_off b) (sb_size b) m
    (sb_alloc b) (sb_readonly b) (sb_refcount b) (sb_parent b).

Definition set_refcount (b : sshbuf) (n : Z) : sshbuf :=
  mk_sshbuf (sb_cd b) (sb_d_is_cd b) (sb_off b) (sb_size b) (sb_max_size b)
    (sb_alloc b) (sb_readonly b) n (sb_parent b).

Definition set_parent (b : sshbuf) (p : option nat) : sshbuf :=
  mk_sshbuf (sb_cd b) (sb_d_is_cd b) (sb_off b) (sb_size b) (sb_max_size b)
    (sb_alloc b) (sb_readonly b) (sb_refcount b) p.

(** ** Operations *)

Definition sshbuf_check_sanity (buf : sshbuf) : Z :=
  if (negb (sb_readonly buf) && negb (sb_d_is_cd buf)) ||
     (sb_refcount buf <? 1) || (sb_refcount buf >? SSHBUF_REFS_MAX) ||
     bool_decide (sb_cd buf = None) ||
     (sb_max_size buf >? SSHBUF_SIZE_MAX) ||
     (sb_alloc buf >? sb_max_size buf) ||
     (sb_size buf >? sb_alloc buf) ||
     (sb_off buf >? sb_size buf)
  then SSH_ERR_INTERNAL_ERROR
  else 0.

Definition sshbuf_maybe_pack (buf : sshbuf) (force : bool) : sshbuf :=
  if (sb_off buf =? 0) || sb_readonly buf || (sb_refcount buf >? 1) then buf
  else if force ||
    ((sb_off buf >=? SSHBUF_PACK_MIN) && (sb_off buf >=? sb_size buf / 2))
  then
    let moved := take (Z.to_nat (sb_size buf - sb_off buf))
                      (drop (Z.to_nat (sb_off buf)) (block buf)) in
    set_window (set_block buf (splice (block buf) 0 moved))
      0 (sb_size buf - sb_off buf)
  else buf.

Definition sshbuf_new (w : world) : option sshbuf * world :=
  let '(ok, w) := malloc w in
  if negb ok then (None, w)
  else
    let '(ok, w) := malloc w in
    if negb ok then (None, w)
    else (Some (mk_sshbuf (Some (replicate (Z.to_nat SSHBUF_SIZE_INIT) 0)) true
                  0 0 SSHBUF_SIZE_MAX SSHBUF_SIZE_INIT false 1 None), w).

Definition sshbuf_from (w : world) (blob : option (list Z)) (len : Z)
  : option sshbuf * world :=
  match blob with
  | None => (None, w)
  | Some blob =>
      if len >? SSHBUF_SIZE_MAX then (None, w)
      else
        let '(ok, w) := malloc w in
        if negb ok then (None, w)
        else (Some (mk_sshbuf (Some (take (Z.to_nat len) blob)) false
                      0 len len len true 1 None), w)
  end.

Definition sshbuf_reset (w : world) (buf : sshbuf) : sshbuf * world :=
  if sb_readonly buf || (sb_refcount buf >? 1)
  then (set_window buf (sb_size buf) (sb_size buf), w)
  else if negb (sshbuf_check_sanity buf =? 0) then (buf, w)
  else
    let buf := set_window buf 0 0 in
    let '(buf, w) :=
      if negb (sb_alloc buf =? SSHBUF_SIZE_INIT) then
        match recallocarray w (block buf) (sb_alloc buf) SSHBUF_SIZE_INIT 1 with
        | (Some d, w) => (set_d buf d SSHBUF_SIZE_INIT, w)
        | (None, w) => (buf, w)
        end
      else (buf, w) in
    (set_block buf (splice (block buf) 0 (replicate (Z.to_nat (sb_alloc buf)) 0)), w).

Definition sshbuf_max_size (buf : sshbuf) : Z := sb_max_size buf.
Definition sshbuf_alloc (buf : sshbuf) : Z := sb_alloc buf.
Definition sshbuf_parent (buf : sshbuf) : option nat := sb_parent buf.
Definition sshbuf_refcount (buf : sshbuf) : Z := sb_refcount buf.

Definition sshbuf_set_max_size (w : world) (buf : sshbuf) (max_size : Z)
  : Z * sshbuf * world :=
  let r := sshbuf_check_sanity buf in
  if negb (r =? 0) then (r, buf, w)
  else if max_size =? sb_max_size buf then (0, buf, w)
  else if sb_readonly buf || (sb_refcount buf >? 1)
  then (SSH_ERR_BUFFER_READ_ONLY, buf, w)
  else if max_size >? SSHBUF_SIZE_MAX then (SSH_ERR_NO_BUFFER_SPACE, buf, w)
  else
    (* pack and realloc if necessary *)
    let buf := sshbuf_maybe_pack buf (max_size <? sb_size buf) in
    let '(r, buf, w) :=
      if (max_size <? sb_alloc buf) && (max_size >? sb_size buf) then
        let rlen := if sb_size buf <? SSHBUF_SIZE_INIT then SSHBUF_SIZE_INIT
                    else ROUNDUP (sb_size buf) SSHBUF_SIZE_INC in
        let rlen := if rlen >? max_size then max_size else rlen in
        match recallocarray w (block buf) (sb_alloc buf) rlen 1 with
        | (None, w) => (SSH_ERR_ALLOC_FAIL, buf, w)
        | (Some dp, w) => (0, set_d buf dp rlen, w)
        end
      else (0, buf, w) in
    if negb (r =? 0) then (r, buf, w)
    else if max_size <? sb_alloc buf then (SSH_ERR_NO_BUFFER_SPACE, buf, w)
    else (0, set_max buf max_size, w).

Definition sshbuf_len (buf : sshbuf) : Z :=
  if negb (sshbuf_check_sanity buf =? 0) then 0
  else sb_size buf - sb_off buf.

Definition sshbuf_avail (buf : sshbuf) : Z :=
  if negb (sshbuf_check_sanity buf =? 0) || sb_readonly buf ||
     (sb_refcount buf >? 1) then 0
  else sb_max_size buf - (sb_size buf - sb_off buf).

(** A pointer into the block is the list of the octets from it to the end of
    the block; [None] is [NULL]. *)
Definition sshbuf_ptr (buf : sshbuf) : option (list Z) :=
  if negb (sshbuf_check_sanity buf =? 0) then None
  else Some (drop (Z.to_nat (sb_off buf)) (block buf)).

(** A pointer that is written through is an offset into the block. *)
Definition sshbuf_mutable_ptr (buf : sshbuf) : option Z :=
  if negb (sshbuf_check_sanity buf =? 0) || sb_readonly buf ||
     (sb_refcount buf >? 1) then None
  else Some (sb_off buf).

Definition sshbuf_check_reserve (buf : sshbuf) (len : Z) : Z :=
  let r := sshbuf_check_sanity buf in
  if negb (r =? 0) then r
  else if sb_readonly buf || (sb_refcount buf >? 1)
  then SSH_ERR_BUFFER_READ_ONLY
  else if (len >? sb_max_size buf) ||
          (sb_max_size buf - len <? sb_size buf - sb_off buf)
  then SSH_ERR_NO_BUFFER_SPACE
  else 0.

Definition sshbuf_allocate (w : world) (buf : sshbuf) (len : Z)
  : Z * sshbuf * world :=
  let r := sshbuf_check_reserve buf len in
  if negb (r =? 0) then (r, buf, w)
  else
    let buf := sshbuf_maybe_pack buf (u64 (sb_size buf + len) >? sb_max_size buf) in
    if u64 (len + sb_size buf) <=? sb_alloc buf
    then (0, buf, w) (* already have it. *)
    else
      let need := u64 (len + sb_size buf - sb_alloc buf) in
      let rlen := ROUNDUP (u64 (sb_alloc buf + need)) SSHBUF_SIZE_INC in
      let rlen := if rlen >? sb_max_size buf then u64 (sb_alloc buf + need) else rlen in
      match recallocarray w (block buf) (sb_alloc buf) rlen 1 with
      | (None, w) => (SSH_ERR_ALLOC_FAIL, buf, w)
      | (Some dp, w) =>
          let buf := set_d buf dp rlen in
          let r := sshbuf_check_reserve buf len in
          if r <? 0 then (r, buf, w) else (0, buf, w)
      end.

(** On success the last component is the offset of [*dpp] in the block. *)
Definition sshbuf_reserve (w : world) (buf : sshbuf) (len : Z)
  : Z * sshbuf * option Z * world :=
  let '(r, buf, w) := sshbuf_allocate w buf len in
  if negb (r =? 0) then (r, buf, None, w)
  else
    let dp := sb_size buf in
    (0, set_window buf (sb_off buf) (u64 (sb_size buf + len)), Some dp, w).

Definition sshbuf_consume (buf : sshbuf) (len : Z) : Z * sshbuf :=
  let r := sshbuf_check_sanity buf in
  if negb (r =? 0) then (r, buf)
  else if len =? 0 then (0, buf)
  else if len >? sshbuf_len buf then (SSH_ERR_MESSAGE_INCOMPLETE, buf)
  else
    let buf := set_window buf (sb_off buf + len) (sb_size buf) in
    (* deal with empty buffer *)
    if sb_off buf =? sb_size buf then (0, set_window buf 0 0) else (0, buf).

Definition sshbuf_consume_end (buf : sshbuf) (len : Z) : Z * sshbuf :=
  let r := sshbuf_check_sanity buf in
  if negb (r =? 0) then (r, buf)
  else if len =? 0 then (0, buf)
  else if len >? sshbuf_len buf then (SSH_ERR_MESSAGE_INCOMPLETE, buf)
  else (0, set_window buf (sb_off buf) (sb_size buf - len)).

(** ** The representation invariant *)

(** The octets a reader of the buffer sees. *)
Definition contents (b : sshbuf) : list Z :=
  take (Z.to_nat (sb_size b - sb_off b)) (drop (Z.to_nat (sb_off b)) (block b)).

Record wf (b : sshbuf) : Prop := {
  wf_sane : sshbuf_check_sanity b = 0;
  wf_off : 0 <= sb_off b;
  wf_len : Z.of_nat (length (block b)) = sb_alloc b;
  wf_bytes : bytes_ok (block b)
}.

(** The buffer may be modified: it owns its block and no child refers to it. *)
Definition writable (b : sshbuf) : bool :=
  negb (sb_readonly b || (sb_refcount b >? 1)).

(** What never changes while data is put in and taken out. *)
Definition same_frame (b b' : sshbuf) : Prop :=
  sb_max_size b' = sb_max_size b /\ sb_readonly b' = sb_readonly b /\
  sb_refcount b' = sb_refcount b /\ sb_parent b' = sb_parent b.

Lemma same_frame_refl b : same_frame b b.
Proof. by repeat split. Qed.

Lemma same_frame_trans a b c : same_frame a b -> same_frame b c -> same_frame a c.
Proof. intros (?&?&?&?) (?&?&?&?). repeat split; congruence. Qed.

Lemma same_frame_writable b b' : same_frame b b' -> writable b' = writable b.
Proof. intros (?&Hr&Hc&?). unfold writable. by rewrite Hr, Hc. Qed.

#[export] Hint Resolve same_frame_refl same_frame_trans : sshdb.

Lemma check_sanity_0 b :
  sshbuf_check_sanity b = 0 <->
  (sb_readonly b = true \/ sb_d_is_cd b = true) /\
  1 <= sb_refcount b <= SSHBUF_REFS_MAX /\ sb_cd b <> None /\
  sb_max_size b <= SSHBUF_SIZE_MAX /\ sb_alloc b <= sb_max_size b /\
  sb_size b <= sb_alloc b /\ sb_off b <= sb_size b.
Proof.
  unfold sshbuf_check_sanity, SSH_ERR_INTERNAL_ERROR.
  case_bool_decide; case_if; split; intros; try lia;
    destruct (sb_readonly b), (sb_d_is_cd b); cbn in *; destruct_and?;
    try lia; try done; split_and?; auto; lia.
Qed.

(** The order of the members that the sanity check guarantees. *)
Lemma wf_bounds b :
  wf b -> 0 <= sb_off b <= sb_size b /\ sb_size b <= sb_alloc b <= sb_max_size b /\
          sb_max_size b <= SSHBUF_SIZE_MAX.
Proof. intros [H ? ? ?]. rewrite check_sanity_0 in H. lia. Qed.

Ltac wf_lia :=
  repeat match goal with H : wf ?b |- _ => learn_hyp (wf_bounds b H); clear H end;
  unfold SSHBUF_SIZE_MAX in *; lia.

Lemma length_contents b : wf b -> Z.of_nat (length (contents b)) = sb_size b - sb_off b.
Proof.
  intros Hwf. pose proof (wf_bounds b Hwf). destruct Hwf as [? ? Hl ?].
  unfold contents. rewrite length_take, length_drop. lia.
Qed.

Lemma sshbuf_len_contents b : wf b -> sshbuf_len b = Z.of_nat (length (contents b)).
Proof.
  intros Hwf. rewrite length_contents by done. unfold sshbuf_len.
  by rewrite (wf_sane b Hwf).
Qed.

Lemma bytes_ok_contents b : wf b -> bytes_ok (contents b).
Proof. intros [? ? ? ?]. unfold contents. auto with sshdb. Qed.

Lemma contents_bound b :
  wf b -> Z.of_nat (length (contents b)) <= sb_max_size b <= SSHBUF_SIZE_MAX.
Proof. intros Hwf. rewrite length_contents by done. wf_lia. Qed.

#[export] Hint Resolve bytes_ok_contents : sshdb.

(** Rebuilding the invariant after an update of the window or of the block. *)
Lemma wf_set_window b o s :
  wf b -> 0 <= o <= s -> s <= sb_alloc b -> wf (set_window b o s).
Proof.
  intros [H ? ? ?] ??. split; cbn; [|lia|done|done].
  rewrite check_sanity_0 in H. apply check_sanity_0. cbn. destruct_and?.
  split_and?; auto; lia.
Qed.

Lemma wf_set_block b l :
  wf b -> length l = length (block b) -> bytes_ok l -> wf (set_block b l).
Proof.
  intros [H ? ? ?] ??. split; cbn; [|lia|cbn;lia|done].
  rewrite check_sanity_0 in H. apply check_sanity_0. cbn. destruct_and?.
  split_and?; auto; lia.
Qed.

Lemma wf_set_d b l n :
  wf b -> Z.of_nat (length l) = n -> bytes_ok l ->
  sb_size b <= n <= sb_max_size b -> wf (set_d b l n).
Proof.
  intros [H ? ? ?] ???. split; cbn; [|lia|cbn;lia|done].
  rewrite check_sanity_0 in H. apply check_sanity_0. cbn. destruct_and?.
  split_and?; auto; lia.
Qed.

#[export] Hint Resolve wf_set_window wf_set_block wf_set_d : sshdb.

(** ** Packing *)

Lemma maybe_pack_spec b force :
  wf b ->
  wf (sshbuf_maybe_pack b force) /\
  contents (sshbuf_maybe_pack b force) = contents b /\
  same_frame b (sshbuf_maybe_pack b force) /\
  sb_alloc (sshbuf_maybe_pack b force) = sb_alloc b /\
  sb_size (sshbuf_maybe_pack b force) <= sb_size b.
Proof.
  intros Hwf. pose proof (wf_bounds b Hwf) as Hb. pose proof (wf_len b Hwf) as Hl.
  unfold sshbuf_maybe_pack. case_if; [by auto with sshdb lia|].
  case_if; [|by auto with sshdb lia].
  set (m := take _ (drop _ (block b))).
  assert (Hm : length m = Z.to_nat (sb_size b - sb_off b)).
  { subst m. rewrite length_take, length_drop. lia. }
  split; [|split; [|split; [by repeat split|cbn; lia]]].
  - apply wf_set_window; cbn; [|lia..]. apply wf_set_block; [done| |].
    + apply length_splice. lia.
    + apply bytes_ok_splice; [apply Hwf|]. subst m.
      destruct Hwf. auto with sshdb.
  - unfold contents. cbn - [take drop]. rewrite Z.sub_0_r.
    change (Z.to_nat 0) with 0%nat. rewrite drop_0. unfold splice.
    rewrite take_0, app_nil_l. by apply take_app_length'.
Qed.

(** When packing is forced the window starts at the head of the block. *)
Lemma maybe_pack_forced b :
  wf b -> writable b = true ->
  sb_size (sshbuf_maybe_pack b true) = sb_size b - sb_off b.
Proof.
  unfold writable, sshbuf_maybe_pack. intros Hwf Hw.
  destruct (sb_off b =? 0) eqn:E; cbn; [lia|].
  destruct (sb_readonly b || _); [done|]. done.
Qed.

(** ** Reserving space *)

Lemma contents_alt b :
  wf b -> contents b = drop (Z.to_nat (sb_off b)) (take (Z.to_nat (sb_size b)) (block b)).
Proof.
  intros Hwf. pose proof (wf_bounds b Hwf). unfold contents.
  rewrite take_drop_commute. f_equal. f_equal. lia.
Qed.

Lemma check_reserve_spec b len :
  wf b ->
  sshbuf_check_reserve b len =
    if negb (writable b) then SSH_ERR_BUFFER_READ_ONLY
    else if Z.of_nat (length (contents b)) + len >? sb_max_size b
    then SSH_ERR_NO_BUFFER_SPACE else 0.
Proof.
  intros Hwf. pose proof (wf_bounds b Hwf).
  unfold sshbuf_check_reserve, writable. rewrite (wf_sane b Hwf). cbn.
  rewrite negb_involutive, length_contents by done.
  destruct (sb_readonly b || _); [done|]. repeat case_if; lia.
Qed.

Lemma set_d_contents b l n :
  wf b -> wf (set_d b l n) ->
  take (Z.to_nat (sb_size b)) l = take (Z.to_nat (sb_size b)) (block b) ->
  contents (set_d b l n) = contents b.
Proof. intros Hwf Hwf' E. rewrite !contents_alt by done. cbn. by rewrite E. Qed.

Lemma ROUNDUP_bounds x : 0 <= x <= 2 ^ 40 -> x <= ROUNDUP x 256 < x + 256.
Proof.
  intros. unfold ROUNDUP, u64.
  rewrite (Z.mod_small (x + (256 - 1))) by lia.
  rewrite Z.mod_small; dm_lia.
Qed.

(** Moving the block to a new allocation of [n] octets. *)
Lemma recalloc_d_spec w b n dp w' :
  wf b -> sb_size b <= n <= sb_max_size b ->
  recallocarray w (block b) (sb_alloc b) n 1 = (Some dp, w') ->
  wf (set_d b dp n) /\ contents (set_d b dp n) = contents b.
Proof.
  intros Hwf Hn Hr. pose proof (wf_bounds b Hwf) as Hb.
  apply recallocarray_Some in Hr as (Hl & Hk & Hok); [|apply Hwf|lia..].
  assert (wf (set_d b dp n)) by (apply wf_set_d; auto; apply Hok, Hwf).
  split; [done|]. apply set_d_contents; [done..|]. apply Hk; lia.
Qed.

(** The allocator refuses nothing but memory. *)
Lemma recallocarray_small w l o n :
  0 <= o <= SSHBUF_SIZE_MAX -> 0 <= n <= SSHBUF_SIZE_MAX ->
  recallocarray w l o n 1 =
    (if (malloc w).1 then Some (if n >? o then take (Z.to_nat o) l ++ replicate (Z.to_nat (n - o)) 0
                               else take (Z.to_nat n) l)
     else None, (malloc w).2).
Proof.
  unfold SSHBUF_SIZE_MAX, recallocarray, mul_overflows, MUL_NO_OVERFLOW. intros.
  repeat (rewrite (proj2 (Z.leb_gt _ _)) by lia). cbn - [Z.gtb Z.mul].
  destruct (malloc w) as [[] w1]; cbn - [Z.gtb Z.mul]; [|done].
  rewrite !Z.mul_1_r. by case_if.
Qed.

Lemma allocate_spec w b len r b' w' :
  wf b -> 0 <= len ->
  sshbuf_allocate w b len = (r, b', w') ->
  wf b' /\ contents b' = contents b /\ same_frame b b' /\
  (sshbuf_check_reserve b len <> 0 -> r = sshbuf_check_reserve b len) /\
  (sshbuf_check_reserve b len = 0 ->
     (r = 0 /\ sb_size b' + len <= sb_alloc b') \/
     (r = SSH_ERR_ALLOC_FAIL /\ (malloc w).1 = false)).
Proof.
  intros Hwf Hlen. unfold sshbuf_allocate.
  destruct (sshbuf_check_reserve b len =? 0) eqn:Er; cbn - [Z.leb Z.gtb]; cycle 1.
  { intros [= <- <- <-]. split_and!; auto with sshdb; lia. }
  pose proof (check_reserve_spec b len Hwf) as Hres.
  destruct (writable b) eqn:Hw; cbn in Hres; [|rewrite Hres in Er; done].
  destruct (_ >? _) eqn:Hsp in Hres; [rewrite Hres in Er; done|].
  rewrite length_contents in Hsp by done. pose proof (wf_bounds b Hwf) as Hb.
  unfold SSHBUF_SIZE_MAX in *.
  replace (u64 (sb_size b + len)) with (sb_size b + len)
    by (symmetry; apply Z.mod_small; lia).
  set (force := sb_size b + len >? sb_max_size b).
  pose proof (maybe_pack_spec b force Hwf) as (Hwf1 & Hc1 & Hf1 & Ha1 & Hs1).
  assert (Hfit : sb_size (sshbuf_maybe_pack b force) + len <= sb_max_size b).
  { destruct force eqn:Ef; subst force; [|lia].
    rewrite maybe_pack_forced by done. lia. }
  set (b1 := sshbuf_maybe_pack b force) in *.
  pose proof (wf_bounds b1 Hwf1) as Hb1. destruct Hf1 as (Hm1 & Hrest).
  replace (u64 (len + sb_size b1)) with (len + sb_size b1)
    by (symmetry; apply Z.mod_small; lia).
  destruct (len + sb_size b1 <=? sb_alloc b1) eqn:Ehave.
  { intros [= <- <- <-]. split_and!; [done..|lia|left; lia]. }
  replace (u64 (len + sb_size b1 - sb_alloc b1)) with (len + sb_size b1 - sb_alloc b1)
    by (symmetry; apply Z.mod_small; lia).
  replace (u64 (sb_alloc b1 + (len + sb_size b1 - sb_alloc b1))) with (len + sb_size b1)
    by (unfold u64; rewrite Z.mod_small; lia).
  unfold SSHBUF_SIZE_INC. pose proof (ROUNDUP_bounds (len + sb_size b1)).
  set (rlen := if _ >? _ then _ else _).
  assert (Hrl : len + sb_size b1 <= rlen <= sb_max_size b1) by (subst rlen; case_if; lia).
  destruct (recallocarray w (block b1) (sb_alloc b1) rlen 1) as [[dp|] w1] eqn:Era; cycle 1.
  { intros [= <- <- <-]. split_and!; [done..|lia|].
    intros _. right. split; [done|].
    rewrite recallocarray_small in Era by (unfold SSHBUF_SIZE_MAX; lia).
    by destruct (malloc w) as [[] ?]. }
  apply recalloc_d_spec in Era as (Hwf2 & Hc2); [|done|lia].
  assert (Hres2 : sshbuf_check_reserve (set_d b1 dp rlen) len = 0).
  { rewrite check_reserve_spec by done.
    rewrite (same_frame_writable b) by (split; [cbn; lia|done]).
    rewrite Hw, length_contents by done. cbn.
    assert (sb_size b1 - sb_off b1 = sb_size b - sb_off b).
    { rewrite <- !length_contents by done. by rewrite Hc1. }
    case_if; lia. }
  rewrite Hres2. cbn. intros [= <- <- <-].
  split_and!; [done|congruence|done..|lia|left; cbn; lia].
Qed.

(** [memcpy] through a pointer obtained from the buffer. *)
Definition mem_write (b : sshbuf) (dp : Z) (v : list Z) : sshbuf :=
  set_block b (splice (block b) (Z.to_nat dp) v).

(** Reserve space, then fill all of it: the only way data enters a buffer. *)
Lemma reserve_write_spec w b v r b' p w' :
  wf b -> bytes_ok v ->
  sshbuf_reserve w b (Z.of_nat (length v)) = (r, b', p, w') ->
  let code := sshbuf_check_reserve b (Z.of_nat (length v)) in
  (r = 0 /\ code = 0 /\
   exists dp, p = Some dp /\ wf (mem_write b' dp v) /\
     contents (mem_write b' dp v) = contents b ++ v /\ same_frame b (mem_write b' dp v)) \/
  (r < 0 /\ p = None /\ wf b' /\ contents b' = contents b /\ same_frame b b' /\
   (r = code \/ code = 0 /\ r = SSH_ERR_ALLOC_FAIL /\ (malloc w).1 = false)).
Proof.
  intros Hwf Hv. unfold sshbuf_reserve.
  destruct (sshbuf_allocate w b _) as [[r1 b1] w1] eqn:Ea.
  apply allocate_spec in Ea as (Hwf1 & Hc1 & Hf1 & Hne & Hz); [|done|lia].
  pose proof (check_reserve_spec b (Z.of_nat (length v)) Hwf) as Hcode.
  unfold SSH_ERR_ALLOC_FAIL, SSH_ERR_BUFFER_READ_ONLY, SSH_ERR_NO_BUFFER_SPACE in *.
  destruct (r1 =? 0) eqn:E1; cbn; intros [= <- <- <- <-]; cycle 1.
  { right. assert (sshbuf_check_reserve b (Z.of_nat (length v)) <= 0)
      by (rewrite Hcode; repeat case_if; lia).
    destruct (Z.eq_dec (sshbuf_check_reserve b (Z.of_nat (length v))) 0) as [E0|E0].
    - destruct (Hz E0) as [?|[-> ?]]; [lia|]. split_and!; try done; auto; apply Hf1.
    - rewrite (Hne E0) in *. split_and!; try done; auto; try apply Hf1. lia. }
  left. assert (E0 : sshbuf_check_reserve b (Z.of_nat (length v)) = 0) by lia.
  destruct (Hz E0) as [[_ Hroom]|[-> ?]]; [|done].
  pose proof (wf_bounds b1 Hwf1) as Hb1. pose proof (wf_len b1 Hwf1) as Hl1.
  split; [done|]. split; [done|]. exists (sb_size b1). split; [done|].
  unfold SSHBUF_SIZE_MAX in *.
  unfold u64. rewrite (Z.mod_small (sb_size b1 + Z.of_nat (length v))) by lia.
  split; [|split; [|by destruct Hf1 as (?&?&?&?)]].
  - apply wf_set_block; [apply wf_set_window; [done|lia..]| |].
    + apply length_splice. unfold block in *. cbn. lia.
    + apply bytes_ok_splice; [apply Hwf1|done].
  - rewrite <- Hc1. unfold contents, mem_write. cbn - [splice].
    replace (Z.to_nat (sb_size b1 - sb_off b1))
      with (Z.to_nat (sb_size b1) - Z.to_nat (sb_off b1))%nat by lia.
    rewrite <- window_splice by lia. f_equal. lia.
Qed.

(** ** Consuming data *)

Lemma consume_spec b len r b' :
  wf b -> 0 <= len -> sshbuf_consume b len = (r, b') ->
  wf b' /\ same_frame b b' /\
  if len <=? Z.of_nat (length (contents b))
  then r = 0 /\ contents b' = drop (Z.to_nat len) (contents b)
  else r = SSH_ERR_MESSAGE_INCOMPLETE /\ b' = b.
Proof.
  intros Hwf Hlen. unfold sshbuf_consume. rewrite (wf_sane b Hwf). cbn - [Z.leb].
  rewrite sshbuf_len_contents, length_contents by done.
  pose proof (wf_bounds b Hwf) as Hb.
  destruct (len =? 0) eqn:E0.
  { intros [= <- <-]. rewrite (proj2 (Z.leb_le _ _)) by lia.
    replace (Z.to_nat len) with 0%nat by lia. rewrite drop_0. auto with sshdb. }
  destruct (len >? _) eqn:E1.
  { intros [= <- <-]. rewrite (proj2 (Z.leb_gt _ _)) by lia. auto with sshdb. }
  rewrite (proj2 (Z.leb_le _ _)) by lia.
  assert (Hw1 : wf (set_window b (sb_off b + len) (sb_size b)))
    by (apply wf_set_window; [done|lia..]).
  assert (Hd : contents (set_window b (sb_off b + len) (sb_size b)) =
               drop (Z.to_nat len) (contents b)).
  { rewrite (contents_alt b) by done. rewrite drop_drop, contents_alt by done.
    cbn. f_equal. lia. }
  destruct (_ =? sb_size b) eqn:E2; intros [= <- <-].
  - split; [apply wf_set_window; [done|lia|cbn; lia]|].
    split; [by repeat split|]. split; [done|]. rewrite <- Hd. unfold contents. cbn.
    by replace (Z.to_nat (sb_size b - (sb_off b + len))) with 0%nat by lia.
  - split; [done|]. by split; [repeat split|].
Qed.

Lemma consume_end_spec b len r b' :
  wf b -> 0 <= len -> sshbuf_consume_end b len = (r, b') ->
  wf b' /\ same_frame b b' /\
  if len <=? Z.of_nat (length (contents b))
  then r = 0 /\ contents b' = take (length (contents b) - Z.to_nat len) (contents b)
  else r = SSH_ERR_MESSAGE_INCOMPLETE /\ b' = b.
Proof.
  intros Hwf Hlen. unfold sshbuf_consume_end. rewrite (wf_sane b Hwf). cbn - [Z.leb].
  rewrite sshbuf_len_contents by done. pose proof (length_contents b Hwf) as Hlc.
  pose proof (wf_bounds b Hwf) as Hb.
  destruct (len =? 0) eqn:E0.
  { intros [= <- <-]. rewrite (proj2 (Z.leb_le _ _)) by lia.
    split_and!; auto with sshdb. rewrite take_ge by lia. done. }
  destruct (len >? _) eqn:E1.
  { intros [= <- <-]. rewrite (proj2 (Z.leb_gt _ _)) by lia. auto with sshdb. }
  rewrite (proj2 (Z.leb_le _ _)) by lia. intros [= <- <-].
  split; [by apply wf_set_window; [|lia..]|]. split; [by repeat split|].
  split; [done|]. unfold contents at 3. rewrite take_take. unfold contents. cbn.
  f_equal. fold (contents b). lia.
Qed.

(** ** Creation, reset and limits *)

Lemma sshbuf_new_spec w b w' :
  sshbuf_new w = (Some b, w') ->
  wf b /\ contents b = [] /\ writable b = true /\ sb_max_size b = SSHBUF_SIZE_MAX.
Proof.
  unfold sshbuf_new. repeat (case_let; destruct b0; [|done]). intros [= <- <-].
  split_and!; [|done..]. split; cbn; [done|lia|done|].
  apply (bytes_ok_zeros 256).
Qed.

Lemma sshbuf_from_spec w blob len b w' :
  sshbuf_from w (Some blob) len = (Some b, w') ->
  0 <= len <= Z.of_nat (length blob) -> bytes_ok blob ->
  wf b /\ contents b = take (Z.to_nat len) blob /\ writable b = false /\
  sb_refcount b = 1 /\ sb_parent b = None.
Proof.
  unfold sshbuf_from. case_if; [done|]. case_let. destruct b0; [|done].
  intros [= <- <-] ??. split_and!; try done.
  - split; cbn; [|lia|rewrite length_take; lia|by apply bytes_ok_take].
    apply check_sanity_0. cbn. unfold SSHBUF_REFS_MAX.
    split_and!; auto; try done; lia.
  - unfold contents. cbn. rewrite Z.sub_0_r, drop_0, take_take. f_equal. lia.
Qed.

(** A buffer that is reset is empty, keeps its limit, and, when it owns its
    block, has every octet of the block erased.  The buffer must be allowed to
    hold the [SSHBUF_SIZE_INIT] octets that the reset allocates. *)
Lemma sshbuf_reset_spec w b b' w' :
  wf b -> SSHBUF_SIZE_INIT <= sb_max_size b ->
  sshbuf_reset w b = (b', w') ->
  wf b' /\ contents b' = [] /\ same_frame b b' /\
  (writable b = true -> block b' = replicate (Z.to_nat (sb_alloc b')) 0).
Proof.
  intros Hwf Hmax. pose proof (wf_bounds b Hwf) as Hb. unfold sshbuf_reset.
  destruct (sb_readonly b || (sb_refcount b >? 1)) eqn:Erw.
  { intros [= <- <-]. split; [by apply wf_set_window; [|lia..]|].
    split; [|split; [by repeat split|unfold writable; rewrite Erw; done]].
    unfold contents. cbn. rewrite Z.sub_diag. done. }
  rewrite (wf_sane b Hwf). cbn - [Z.eqb splice].
  assert (Hz : forall c, wf c -> sb_off c = 0 -> sb_size c = 0 ->
     let c' := set_block c (splice (block c) 0 (replicate (Z.to_nat (sb_alloc c)) 0)) in
     wf c' /\ contents c' = [] /\ block c' = replicate (Z.to_nat (sb_alloc c')) 0).
  { intros c Hc Ho Hs c'. pose proof (wf_len c Hc). split; [|split].
    - apply wf_set_block; [done| |].
      + apply length_splice. rewrite length_replicate. lia.
      + apply bytes_ok_splice; [apply Hc|apply bytes_ok_zeros].
    - unfold contents, c'. cbn. rewrite Ho, Hs. done.
    - unfold c', splice. cbn. rewrite drop_ge by (rewrite length_replicate; lia).
      by rewrite app_nil_r. }
  assert (Hw0 : wf (set_window b 0 0)) by (apply wf_set_window; [done|lia..]).
  destruct (sb_alloc b =? SSHBUF_SIZE_INIT) eqn:Ea; cbn - [splice].
  - intros [= <- <-]. destruct (Hz _ Hw0) as (?&?&?); [done..|].
    split_and!; done.
  - destruct (recallocarray w _ _ _ _) as [[dp|] w1] eqn:Er.
    + intros [= <- <-]. apply (recalloc_d_spec w (set_window b 0 0)) in Er as [Hw2 _];
        [|done|cbn; unfold SSHBUF_SIZE_INIT in *; lia].
      destruct (Hz _ Hw2) as (?&?&?); [done..|]. split_and!; done.
    + intros [= <- <-]. destruct (Hz _ Hw0) as (?&?&?); [done..|]. split_and!; done.
Qed.

Lemma sshbuf_set_max_size_spec w b m r b' w' :
  wf b -> 0 <= m -> sshbuf_set_max_size w b m = (r, b', w') ->
  wf b' /\ contents b' = contents b /\ writable b' = writable b /\
  sb_max_size b' = (if r =? 0 then m else sb_max_size b) /\
  sb_parent b' = sb_parent b /\
  (r = 0 -> Z.of_nat (length (contents b)) <= m).
Proof.
  intros Hwf Hm. unfold sshbuf_set_max_size. rewrite (wf_sane b Hwf). cbn - [Z.ltb Z.gtb].
  unfold SSH_ERR_BUFFER_READ_ONLY, SSH_ERR_NO_BUFFER_SPACE, SSH_ERR_ALLOC_FAIL.
  pose proof (contents_bound b Hwf) as Hcb.
  destruct (m =? sb_max_size b) eqn:E0.
  { intros [= <- <- <-]. split_and!; try done; cbn; lia. }
  destruct (sb_readonly b || _) eqn:E1.
  { intros [= <- <- <-]. split_and!; done. }
  destruct (m >? SSHBUF_SIZE_MAX) eqn:E2.
  { intros [= <- <- <-]. split_and!; done. }
  pose proof (maybe_pack_spec b (m <? sb_size b) Hwf) as (Hw1 & Hc1 & Hf1 & Ha1 & Hs1).
  set (b1 := sshbuf_maybe_pack b (m <? sb_size b)) in *.
  rewrite <- Hc1 in *. pose proof (same_frame_writable _ _ Hf1) as Hwr.
  destruct Hf1 as (Hm1 & _ & _ & Hp1). pose proof (wf_bounds b1 Hw1) as Hb1.
  assert (Hfin : forall c, wf c -> contents c = contents b1 -> writable c = writable b1 ->
    sb_max_size c = sb_max_size b1 -> sb_parent c = sb_parent b1 ->
    forall w1, (if m <? sb_alloc c then (-9, c, w1) else (0, set_max c m, w1)) = (r, b', w') ->
    wf b' /\ contents b' = contents b1 /\ writable b' = writable b /\
    sb_max_size b' = (if r =? 0 then m else sb_max_size b) /\
    sb_parent b' = sb_parent b /\ (r = 0 -> Z.of_nat (length (contents b1)) <= m)).
  { intros c Hc Hcc Hcw Hcm Hcp w1. pose proof (wf_bounds c Hc).
    rewrite <- Hcc. rewrite length_contents by done.
    destruct (m <? sb_alloc c) eqn:E3; intros [= <- <- <-]; split_and!; cbn; try done;
      try congruence; try lia; [|by rewrite <- Hwr, <- Hcw].
    destruct Hc as [Hs ? ? ?]. split; [|done..].
    rewrite check_sanity_0 in Hs |- *. cbn. destruct_and?. split_and?; auto; lia. }
  destruct ((m <? sb_alloc b1) && (m >? sb_size b1)) eqn:E3; cycle 1.
  { cbn - [Z.ltb]. by apply Hfin. }
  set (rlen := if _ >? m then m else _).
  assert (Hrl : sb_size b1 <= rlen <= m).
  { unfold SSHBUF_SIZE_MAX in *.
    pose proof (ROUNDUP_bounds (sb_size b1)). subst rlen.
    unfold SSHBUF_SIZE_INIT, SSHBUF_SIZE_INC. repeat case_if; lia. }
  destruct (recallocarray w (block b1) (sb_alloc b1) rlen 1) as [[dp|] w1] eqn:Er; cbn - [Z.ltb].
  - apply recalloc_d_spec in Er as [Hw2 Hc2]; [|done|lia].
    by apply (Hfin (set_d b1 dp rlen)).
  - intros [= <- <- <-]. split_and!; try done.
Qed.
