(* ===== verification/SshbufGetput.v ===== *)
(** Typed access to buffers: sshbuf-getput-basic.c, the [PEEK_] and [POKE_]
    macros of sshbuf.h, and the sharing of a block between a parent buffer and
    its read-only children (the rest of sshbuf.c).

    An output parameter of the C function is a component of the result: [None]
    when the function returns without storing to it. *)

From stdpp Require Import base list numbers tactics.
From Stdlib Require Import ZArith Lia ZifyBool.
From S2P Require Import Prelude Sshbuf.

(** ** Big-endian integers (sshbuf.h) *)

(** [((const u_char * )(p))[i]] *)
Definition at_ (p : list Z) (i : nat) : Z := default 0 (p !! i).

Definition PEEK_U64 (p : list Z) : Z :=
  Z.lor (Z.lor (Z.lor (Z.lor (Z.lor (Z.lor (Z.lor
    (Z.shiftl (at_ p 0) 56) (Z.shiftl (at_ p 1) 48)) (Z.shiftl (at_ p 2) 40))
    (Z.shiftl (at_ p 3) 32)) (Z.shiftl (at_ p 4) 24)) (Z.shiftl (at_ p 5) 16))
    (Z.shiftl (at_ p 6) 8)) (at_ p 7).

Definition PEEK_U32 (p : list Z) : Z :=
  Z.lor (Z.lor (Z.lor
    (Z.shiftl (at_ p 0) 24) (Z.shiftl (at_ p 1) 16)) (Z.shiftl (at_ p 2) 8)) (at_ p 3).

Definition PEEK_U16 (p : list Z) : Z :=
  Z.lor (Z.shiftl (at_ p 0) 8) (at_ p 1).

Definition POKE_U64 (v : Z) : list Z :=
  [Z.land (Z.shiftr v 56) 0xff; Z.land (Z.shiftr v 48) 0xff;
   Z.land (Z.shiftr v 40) 0xff; Z.land (Z.shiftr v 32) 0xff;
   Z.land (Z.shiftr v 24) 0xff; Z.land (Z.shiftr v 16) 0xff;
   Z.land (Z.shiftr v 8) 0xff; Z.land v 0xff].

Definition POKE_U32 (v : Z) : list Z :=
  [Z.land (Z.shiftr v 24) 0xff; Z.land (Z.shiftr v 16) 0xff;
   Z.land (Z.shiftr v 8) 0xff; Z.land v 0xff].

Definition POKE_U16 (v : Z) : list Z :=
  [Z.land (Z.shiftr v 8) 0xff; Z.land v 0xff].

(** ** Reading *)

Definition sshbuf_get (buf : sshbuf) (len : Z) : Z * option (list Z) * sshbuf :=
  let p := default [] (sshbuf_ptr buf) in
  let '(r, buf) := sshbuf_consume buf len in
  if r <? 0 then (r, None, buf)
  else (0, Some (take (Z.to_nat len) p), buf).

Definition sshbuf_get_u64 (buf : sshbuf) : Z * option Z * sshbuf :=
  let p := default [] (sshbuf_ptr buf) in
  let '(r, buf) := sshbuf_consume buf 8 in
  if r <? 0 then (r, None, buf) else (0, Some (PEEK_U64 p), buf).

Definition sshbuf_get_u32 (buf : sshbuf) : Z * option Z * sshbuf :=
  let p := default [] (sshbuf_ptr buf) in
  let '(r, buf) := sshbuf_consume buf 4 in
  if r <? 0 then (r, None, buf) else (0, Some (PEEK_U32 p), buf).

Definition sshbuf_get_u16 (buf : sshbuf) : Z * option Z * sshbuf :=
  let p := default [] (sshbuf_ptr buf) in
  let '(r, buf) := sshbuf_consume buf 2 in
  if r <? 0 then (r, None, buf) else (0, Some (PEEK_U16 p), buf).

Definition sshbuf_get_u8 (buf : sshbuf) : Z * option Z * sshbuf :=
  let p := default [] (sshbuf_ptr buf) in
  let '(r, buf) := sshbuf_consume buf 1 in
  if r <? 0 then (r, None, buf) else (0, Some (at_ p 0), buf).

Definition check_offset (buf : sshbuf) (wr : bool) (offset len : Z) : Z :=
  if bool_decide (sshbuf_ptr buf = None) then SSH_ERR_INTERNAL_ERROR
  else if offset >=? u64 (SIZE_MAX - len) then SSH_ERR_INVALID_ARGUMENT
  else if u64 (offset + len) >? sshbuf_len buf
  then (if wr then SSH_ERR_NO_BUFFER_SPACE else SSH_ERR_MESSAGE_INCOMPLETE)
  else 0.

Definition check_roffset (buf : sshbuf) (offset len : Z) : Z * option (list Z) :=
  let r := check_offset buf false offset len in
  if negb (r =? 0) then (r, None)
  else (0, drop (Z.to_nat offset) <$> sshbuf_ptr buf).

(** The [peek] functions store 0 to [*valp] before anything can fail. *)
Definition sshbuf_peek_u64 (buf : sshbuf) (offset : Z) : Z * Z :=
  let '(r, p) := check_roffset buf offset 8 in
  if negb (r =? 0) then (r, 0) else (0, PEEK_U64 (default [] p)).

Definition sshbuf_peek_u32 (buf : sshbuf) (offset : Z) : Z * Z :=
  let '(r, p) := check_roffset buf offset 4 in
  if negb (r =? 0) then (r, 0) else (0, PEEK_U32 (default [] p)).

Definition sshbuf_peek_u16 (buf : sshbuf) (offset : Z) : Z * Z :=
  let '(r, p) := check_roffset buf offset 2 in
  if negb (r =? 0) then (r, 0) else (0, PEEK_U16 (default [] p)).

Definition sshbuf_peek_u8 (buf : sshbuf) (offset : Z) : Z * Z :=
  let '(r, p) := check_roffset buf offset 1 in
  if negb (r =? 0) then (r, 0) else (0, at_ (default [] p) 0).

(** [*valp] is a pointer into the block, [*lenp] the length of the string. *)
Definition sshbuf_peek_string_direct (buf : sshbuf) : Z * option (list Z) * Z :=
  let p := default [] (sshbuf_ptr buf) in
  if sshbuf_len buf <? 4 then (SSH_ERR_MESSAGE_INCOMPLETE, None, 0)
  else
    let len := PEEK_U32 p in
    if len >? SSHBUF_SIZE_MAX - 4 then (SSH_ERR_STRING_TOO_LARGE, None, 0)
    else if sshbuf_len buf - 4 <? len then (SSH_ERR_MESSAGE_INCOMPLETE, None, 0)
    else (0, Some (drop 4 p), len).

Definition sshbuf_get_string_direct (buf : sshbuf)
  : Z * option (list Z) * Z * sshbuf :=
  let '(r, p, len) := sshbuf_peek_string_direct buf in
  if r <? 0 then (r, None, 0, buf)
  else
    let '(r, buf) := sshbuf_consume buf (u64 (len + 4)) in
    if negb (r =? 0) then (SSH_ERR_INTERNAL_ERROR, p, len, buf) (* Shouldn't happen *)
    else (0, p, len, buf).

(** [#define sshbuf_skip_string(buf) sshbuf_get_string_direct(buf, NULL, NULL)] *)
Definition sshbuf_skip_string (buf : sshbuf) : Z * sshbuf :=
  let '(r, _, _, buf) := sshbuf_get_string_direct buf in (r, buf).

(** [*valp] is a fresh copy with a NUL appended. *)
Definition sshbuf_get_string (w : world) (buf : sshbuf)
  : Z * option (list Z) * Z * sshbuf * world :=
  let '(r, val, len, buf) := sshbuf_get_string_direct buf in
  if r <? 0 then (r, None, 0, buf, w)
  else
    let '(ok, w) := malloc w in
    if negb ok then (SSH_ERR_ALLOC_FAIL, None, 0, buf, w)
    else (0, Some (take (Z.to_nat len) (default [] val) ++ [0]), len, buf, w).

(** [memchr(p, c, len)]: the index of the first occurrence. *)
Definition memchr (p : list Z) (c : Z) (len : Z) : option Z :=
  (fun '(i, _) => Z.of_nat i) <$> list_find (fun x => x = c) (take (Z.to_nat len) p).

Definition sshbuf_get_cstring (w : world) (buf : sshbuf)
  : Z * option (list Z) * Z * sshbuf * world :=
  let '(r, p, len) := sshbuf_peek_string_direct buf in
  if negb (r =? 0) then (r, None, 0, buf, w)
  else
    let p := default [] p in
    (* Allow a \0 only at the end of the string *)
    if (len >? 0) &&
       match memchr p 0 len with Some z => z <? len - 1 | None => false end
    then (SSH_ERR_INVALID_FORMAT, None, 0, buf, w)
    else
      let '(r, buf) := sshbuf_skip_string buf in
      if negb (r =? 0) then (-1, None, 0, buf, w)
      else
        let '(ok, w) := malloc w in
        if negb ok then (SSH_ERR_ALLOC_FAIL, None, 0, buf, w)
        else (0, Some (take (Z.to_nat len) p ++ [0]), len, buf, w).

(** ** Writing *)

Definition sshbuf_put (w : world) (buf : sshbuf) (v : list Z) (len : Z)
  : Z * sshbuf * world :=
  let '(r, buf, p, w) := sshbuf_reserve w buf len in
  if r <? 0 then (r, buf, w)
  else if negb (len =? 0)
  then (0, mem_write buf (default 0 p) (take (Z.to_nat len) v), w)
  else (0, buf, w).

Definition sshbuf_putb (w : world) (buf : sshbuf) (v : option sshbuf)
  : Z * sshbuf * world :=
  match v with
  | None => (0, buf, w)
  | Some v => sshbuf_put w buf (default [] (sshbuf_ptr v)) (sshbuf_len v)
  end.

(** The C library's formatter is a parameter: [out] is the text [vsnprintf]
    produces for the format and the arguments, [None] when it fails. *)
Definition sshbuf_putfv (w : world) (buf : sshbuf) (out : option (list Z))
  : Z * sshbuf * world :=
  match out with
  | None => (SSH_ERR_INVALID_ARGUMENT, buf, w)
  | Some text =>
      let len := Z.of_nat (length text) in
      if len =? 0 then (0, buf, w) (* Nothing to do *)
      else
        let '(r, buf, p, w) := sshbuf_reserve w buf (len + 1) in
        if r <? 0 then (r, buf, w)
        else
          let buf := mem_write buf (default 0 p) (text ++ [0]) in
          (* Consume terminating \0 *)
          let '(r, buf) := sshbuf_consume_end buf 1 in
          if negb (r =? 0) then (r, buf, w) else (0, buf, w)
  end.

Definition sshbuf_put_u64 (w : world) (buf : sshbuf) (val : Z) : Z * sshbuf * world :=
  let '(r, buf, p, w) := sshbuf_reserve w buf 8 in
  if r <? 0 then (r, buf, w)
  else (0, mem_write buf (default 0 p) (POKE_U64 (u64 val)), w).

Definition sshbuf_put_u32 (w : world) (buf : sshbuf) (val : Z) : Z * sshbuf * world :=
  let '(r, buf, p, w) := sshbuf_reserve w buf 4 in
  if r <? 0 then (r, buf, w)
  else (0, mem_write buf (default 0 p) (POKE_U32 (u32 val)), w).

Definition sshbuf_put_u16 (w : world) (buf : sshbuf) (val : Z) : Z * sshbuf * world :=
  let '(r, buf, p, w) := sshbuf_reserve w buf 2 in
  if r <? 0 then (r, buf, w)
  else (0, mem_write buf (default 0 p) (POKE_U16 (u16 val)), w).

Definition sshbuf_put_u8 (w : world) (buf : sshbuf) (val : Z) : Z * sshbuf * world :=
  let '(r, buf, p, w) := sshbuf_reserve w buf 1 in
  if r <? 0 then (r, buf, w)
  else (0, mem_write buf (default 0 p) [u8 val], w).

(** Copies a string from [buf] to [v]; both change. *)
Definition sshbuf_get_stringb (w : world) (buf v : sshbuf)
  : Z * sshbuf * sshbuf * world :=
  let '(r, _, _) := sshbuf_peek_string_direct buf in
  if negb (r =? 0) then (r, buf, v, w)
  else
    let '(r, len, buf) := sshbuf_get_u32 buf in
    if negb (r =? 0) then (r, buf, v, w)
    else
      let len := default 0 len in
      let '(r, v, p, w) := sshbuf_reserve w v len in
      if negb (r =? 0) then (r, buf, v, w)
      else
        let '(r, bytes, buf) := sshbuf_get buf len in
        if negb (r =? 0) then (r, buf, v, w)
        else (0, buf, mem_write v (default 0 p) (default [] bytes), w).

Definition check_woffset (buf : sshbuf) (offset len : Z) : Z * option Z :=
  let r := check_offset buf true offset len in
  if negb (r =? 0) then (r, None)
  else match sshbuf_mutable_ptr buf with
       | None => (SSH_ERR_BUFFER_READ_ONLY, None)
       | Some p => (0, Some (p + offset))
       end.

Definition sshbuf_poke_u64 (buf : sshbuf) (offset val : Z) : Z * sshbuf :=
  let '(r, p) := check_woffset buf offset 8 in
  if negb (r =? 0) then (r, buf)
  else (0, mem_write buf (default 0 p) (POKE_U64 (u64 val))).

Definition sshbuf_poke_u32 (buf : sshbuf) (offset val : Z) : Z * sshbuf :=
  let '(r, p) := check_woffset buf offset 4 in
  if negb (r =? 0) then (r, buf)
  else (0, mem_write buf (default 0 p) (POKE_U32 (u32 val))).

Definition sshbuf_poke_u16 (buf : sshbuf) (offset val : Z) : Z * sshbuf :=
  let '(r, p) := check_woffset buf offset 2 in
  if negb (r =? 0) then (r, buf)
  else (0, mem_write buf (default 0 p) (POKE_U16 (u16 val))).

Definition sshbuf_poke_u8 (buf : sshbuf) (offset val : Z) : Z * sshbuf :=
  let '(r, p) := check_woffset buf offset 1 in
  if negb (r =? 0) then (r, buf)
  else (0, mem_write buf (default 0 p) [u8 val]).

Definition sshbuf_poke (buf : sshbuf) (offset : Z) (v : list Z) (len : Z) : Z * sshbuf :=
  let '(r, p) := check_woffset buf offset len in
  if negb (r =? 0) then (r, buf)
  else (0, mem_write buf (default 0 p) (take (Z.to_nat len) v)).

Definition sshbuf_put_string (w : world) (buf : sshbuf) (v : list Z) (len : Z)
  : Z * sshbuf * world :=
  if len >? SSHBUF_SIZE_MAX - 4 then (SSH_ERR_NO_BUFFER_SPACE, buf, w)
  else
    let '(r, buf, d, w) := sshbuf_reserve w buf (len + 4) in
    if r <? 0 then (r, buf, w)
    else
      let d := default 0 d in
      let buf := mem_write buf d (POKE_U32 (u32 len)) in
      if negb (len =? 0)
      then (0, mem_write buf (d + 4) (take (Z.to_nat len) v), w)
      else (0, buf, w).

(** A C string is the list of its characters before the NUL; [None] is [NULL]. *)
Definition sshbuf_put_cstring (w : world) (buf : sshbuf) (v : option (list Z))
  : Z * sshbuf * world :=
  sshbuf_put_string w buf (default [] v) (Z.of_nat (length (default [] v))).

Definition sshbuf_put_stringb (w : world) (buf : sshbuf) (v : option sshbuf)
  : Z * sshbuf * world :=
  match v with
  | None => sshbuf_put_string w buf [] 0
  | Some v => sshbuf_put_string w buf (default [] (sshbuf_ptr v)) (sshbuf_len v)
  end.

(** [for (; len > 0 && *s == 0; len--, s++) ;] *)
Fixpoint skip_zeros (s : list Z) : list Z :=
  match s with
  | 0 :: s' => skip_zeros s'
  | _ => s
  end.

Definition sshbuf_put_bignum2_bytes (w : world) (buf : sshbuf) (v : list Z) (len : Z)
  : Z * sshbuf * world :=
  if len >? SSHBUF_SIZE_MAX - 5 then (SSH_ERR_NO_BUFFER_SPACE, buf, w)
  else
    (* Skip leading zero bytes *)
    let s := skip_zeros (take (Z.to_nat len) v) in
    let len := Z.of_nat (length s) in
    (* avoid interpretation as a negative number *)
    let prepend := if (len >? 0) && negb (Z.land (at_ s 0) 0x80 =? 0) then 1 else 0 in
    let '(r, buf, d, w) := sshbuf_reserve w buf (len + 4 + prepend) in
    if r <? 0 then (r, buf, w)
    else
      let d := default 0 d in
      let buf := mem_write buf d (POKE_U32 (u32 (len + prepend))) in
      let buf := if negb (prepend =? 0) then mem_write buf (d + 4) [0] else buf in
      if negb (len =? 0)
      then (0, mem_write buf (d + 4 + prepend) s, w)
      else (0, buf, w).

Definition sshbuf_get_bignum2_bytes_direct (buf : sshbuf)
  : Z * option (list Z) * sshbuf :=
  let '(r, d, olen) := sshbuf_peek_string_direct buf in
  if r <? 0 then (r, None, buf)
  else
    let d := take (Z.to_nat olen) (default [] d) in
    (* Refuse negative (MSB set) bignums *)
    if negb (olen =? 0) && negb (Z.land (at_ d 0) 0x80 =? 0)
    then (SSH_ERR_BIGNUM_IS_NEGATIVE, None, buf)
    (* Refuse overlong bignums, allow prepended \0 to avoid MSB set *)
    else if (olen >? SSHBUF_MAX_BIGNUM + 1) ||
            ((olen =? SSHBUF_MAX_BIGNUM + 1) && negb (at_ d 0 =? 0))
    then (SSH_ERR_BIGNUM_TOO_LARGE, None, buf)
    else
      (* Trim leading zeros *)
      let val := skip_zeros d in
      let '(r, buf) := sshbuf_consume buf (u64 (olen + 4)) in
      if negb (r =? 0) then (SSH_ERR_INTERNAL_ERROR, Some val, buf) (* Shouldn't happen *)
      else (0, Some val, buf).

(** ** Integers survive the encoding *)

Ltac be_start :=
  unfold PEEK_U16, PEEK_U32, PEEK_U64, POKE_U16, POKE_U32, POKE_U64, at_;
  cbn - [Z.land Z.shiftl Z.shiftr Z.lor];
  rewrite ?land_255, ?Z.shiftr_div_pow2, ?Z.shiftl_mul_pow2 by lia.

Lemma PEEK_POKE_U16 v rest : 0 <= v < 2 ^ 16 -> PEEK_U16 (POKE_U16 v ++ rest) = v.
Proof. intros. be_start. rewrite (lor_add _ _ 8) by dm_lia. dm_lia. Qed.

Lemma PEEK_POKE_U32 v rest : 0 <= v < 2 ^ 32 -> PEEK_U32 (POKE_U32 v ++ rest) = v.
Proof.
  intros. be_start.
  rewrite (lor_add (_ * 2 ^ 24) _ 24) by dm_lia.
  rewrite (lor_add _ (_ * 2 ^ 8) 16) by dm_lia.
  rewrite (lor_add _ _ 8) by dm_lia. dm_lia.
Qed.

Lemma PEEK_POKE_U64 v rest : 0 <= v < 2 ^ 64 -> PEEK_U64 (POKE_U64 v ++ rest) = v.
Proof.
  intros. be_start.
  rewrite (lor_add (_ * 2 ^ 56) _ 56) by dm_lia.
  rewrite (lor_add _ (_ * 2 ^ 40) 48) by dm_lia.
  rewrite (lor_add _ (_ * 2 ^ 32) 40) by dm_lia.
  rewrite (lor_add _ (_ * 2 ^ 24) 32) by dm_lia.
  rewrite (lor_add _ (_ * 2 ^ 16) 24) by dm_lia.
  rewrite (lor_add _ (_ * 2 ^ 8) 16) by dm_lia.
  rewrite (lor_add _ _ 8) by dm_lia. dm_lia.
Qed.

Lemma bytes_ok_POKE_U16 v : bytes_ok (POKE_U16 v).
Proof. unfold POKE_U16. repeat constructor; rewrite land_255; unfold is_byte; dm_lia. Qed.
Lemma bytes_ok_POKE_U32 v : bytes_ok (POKE_U32 v).
Proof. unfold POKE_U32. repeat constructor; rewrite land_255; unfold is_byte; dm_lia. Qed.
Lemma bytes_ok_POKE_U64 v : bytes_ok (POKE_U64 v).
Proof. unfold POKE_U64. repeat constructor; rewrite land_255; unfold is_byte; dm_lia. Qed.

#[export] Hint Resolve bytes_ok_POKE_U16 bytes_ok_POKE_U32 bytes_ok_POKE_U64 : sshdb.

Lemma at_app_l p q i : (i < length p)%nat -> at_ (p ++ q) i = at_ p i.
Proof. intros. unfold at_. by rewrite lookup_app_l. Qed.

(** [PEEK_U32] looks at four octets only. *)
Lemma PEEK_U32_app p q : (4 <= length p)%nat -> PEEK_U32 (p ++ q) = PEEK_U32 p.
Proof. intros. unfold PEEK_U32. by rewrite !at_app_l by lia. Qed.

Lemma PEEK_U64_app p q : (8 <= length p)%nat -> PEEK_U64 (p ++ q) = PEEK_U64 p.
Proof. intros. unfold PEEK_U64. by rewrite !at_app_l by lia. Qed.

Lemma at_byte p i : bytes_ok p -> 0 <= at_ p i < 256.
Proof.
  intros Hp. unfold at_. destruct (p !! i) eqn:E; cbn; [|lia].
  exact (Forall_lookup_1 _ _ _ _ Hp E).
Qed.

Lemma PEEK_U32_range p : bytes_ok p -> 0 <= PEEK_U32 p < 2 ^ 32.
Proof.
  intros Hp. unfold PEEK_U32. rewrite !Z.shiftl_mul_pow2 by lia.
  pose proof (at_byte p 0 Hp). pose proof (at_byte p 1 Hp).
  pose proof (at_byte p 2 Hp). pose proof (at_byte p 3 Hp).
  rewrite (lor_add (_ * 2 ^ 24) _ 24) by dm_lia.
  rewrite (lor_add _ (_ * 2 ^ 8) 16) by dm_lia.
  rewrite (lor_add _ _ 8) by dm_lia. lia.
Qed.

(** ** The abstract buffer: a bounded queue of octets *)

Record queue := mk_queue { q_data : list Z; q_max : Z; q_rw : bool }.

Definition q_put (q : queue) (v : list Z) : Z * queue :=
  if negb (q_rw q) then (SSH_ERR_BUFFER_READ_ONLY, q)
  else if Z.of_nat (length (q_data q)) + Z.of_nat (length v) >? q_max q
  then (SSH_ERR_NO_BUFFER_SPACE, q)
  else (0, mk_queue (q_data q ++ v) (q_max q) (q_rw q)).

Definition q_get (q : queue) (n : Z) : Z * option (list Z) * queue :=
  if n <=? Z.of_nat (length (q_data q))
  then (0, Some (take (Z.to_nat n) (q_data q)),
        mk_queue (drop (Z.to_nat n) (q_data q)) (q_max q) (q_rw q))
  else (SSH_ERR_MESSAGE_INCOMPLETE, None, q).

(** The abstraction function. *)
Definition abs (b : sshbuf) : queue := mk_queue (contents b) (sb_max_size b) (writable b).

Lemma abs_frame b b' : same_frame b b' -> contents b' = contents b -> abs b' = abs b.
Proof.
  intros Hf Hc. unfold abs. rewrite Hc, (same_frame_writable _ _ Hf).
  by destruct Hf as (-> & _).
Qed.

(** Every function that adds data reserves room for it and fills it. *)
Definition reserve_fill (w : world) (b : sshbuf) (v : list Z) : Z * sshbuf * world :=
  let '(r, b, p, w) := sshbuf_reserve w b (Z.of_nat (length v)) in
  if r <? 0 then (r, b, w) else (0, mem_write b (default 0 p) v, w).

(** What a successful or failed write does to the buffer. *)
Definition put_result (w : world) (b : sshbuf) (v : list Z) (r : Z) (b' : sshbuf) : Prop :=
  wf b' /\ same_frame b b' /\
  ((r, abs b') = q_put (abs b) v \/
   (r = SSH_ERR_ALLOC_FAIL /\ abs b' = abs b /\ (malloc w).1 = false)).

Lemma reserve_fill_spec w b v r b' w' :
  wf b -> bytes_ok v -> reserve_fill w b v = (r, b', w') -> put_result w b v r b'.
Proof.
  intros Hwf Hv. unfold reserve_fill, put_result.
  destruct (sshbuf_reserve w b _) as [[[r1 b1] p] w1] eqn:Er.
  apply reserve_write_spec in Er; [|done..]. rewrite check_reserve_spec in Er by done.
  unfold q_put. cbn - [Z.gtb].
  destruct Er as [(-> & Hcode & dp & -> & Hwf' & Hc & Hf)|(Hr & -> & Hwf' & Hc & Hf & Hcode)].
  - cbn. intros [= <- <- <-]. split; [done|]. split; [done|]. left.
    destruct (writable b) eqn:Hw; [|done]. cbn - [Z.gtb] in *.
    destruct (_ >? _); [done|].
    unfold abs. rewrite Hc, (same_frame_writable _ _ Hf), Hw. by destruct Hf as (-> & _).
  - rewrite (proj2 (Z.ltb_lt _ _)) by done. intros [= <- <- <-].
    split; [done|]. split; [done|].
    rewrite (abs_frame _ _ Hf Hc).
    destruct Hcode as [->|(? & -> & ?)]; [left|by right].
    destruct (writable b); cbn - [Z.gtb]; [|done]. by destruct (_ >? _).
Qed.

Lemma put_result_ok w b v b' :
  put_result w b v 0 b' -> wf b' /\ same_frame b b' /\ contents b' = contents b ++ v.
Proof.
  intros (? & ? & [H|H]); [|by destruct H]. split_and!; [done..|].
  unfold q_put, abs in H. cbn - [Z.gtb] in H.
  destruct (negb _); [done|]. destruct (_ >? _); [done|]. by injection H.
Qed.

Lemma put_result_err w b v r b' :
  put_result w b v r b' -> r <> 0 -> wf b' /\ same_frame b b' /\ contents b' = contents b.
Proof.
  intros (? & ? & [H|H]) Hr; split_and!; try done.
  - unfold q_put, abs in H. cbn - [Z.gtb] in H.
    destruct (negb _); [by injection H|]. destruct (_ >? _); by injection H.
  - destruct H as (_ & H & _). by injection H.
Qed.

(** ** Every writer is [reserve_fill] of the octets it encodes *)

Lemma splice_splice l i x y :
  (i <= length l)%nat -> splice (splice l i x) (i + length x) y = splice l i (x ++ y).
Proof.
  intros Hi. unfold splice.
  rewrite (app_assoc (take i l) x).
  rewrite take_app_length' by (rewrite length_app, length_take; lia).
  rewrite drop_app_ge by (rewrite length_app, length_take; lia).
  rewrite !length_app, length_take, Nat.min_l, drop_drop by lia.
  rewrite <- !app_assoc. do 3 f_equal. f_equal. lia.
Qed.

Lemma mem_write_join b d x y :
  0 <= d <= Z.of_nat (length (block b)) ->
  mem_write (mem_write b d x) (d + Z.of_nat (length x)) y = mem_write b d (x ++ y).
Proof.
  intros Hd. unfold mem_write, set_block. cbn. f_equal. f_equal.
  rewrite <- splice_splice by lia. f_equal. lia.
Qed.

Lemma mem_write_nil b d : sb_cd b <> None -> mem_write b d [] = b.
Proof.
  intros Hn. unfold mem_write, set_block, splice, block. destruct b as [[l|] ? ? ? ? ? ? ? ?]; [|done].
  cbn - [take drop]. rewrite Nat.add_0_r, take_drop. done.
Qed.

(** Where the reserved room lies. *)
Lemma reserve_room w b len b' p w' :
  wf b -> 0 <= len -> sshbuf_reserve w b len = (0, b', p, w') ->
  sb_cd b' <> None /\ exists dp, p = Some dp /\ 0 <= dp /\ dp + len <= Z.of_nat (length (block b')).
Proof.
  intros Hwf Hlen. unfold sshbuf_reserve.
  destruct (sshbuf_allocate w b len) as [[r1 b1] w1] eqn:Ea.
  apply allocate_spec in Ea as (Hwf1 & _ & _ & Hne & Hz); [|done|lia].
  destruct (r1 =? 0) eqn:E1; cbn; [|intros [= -> _]; done].
  intros [= <- <- <-]. pose proof (wf_bounds _ Hwf1). pose proof (wf_len _ Hwf1).
  pose proof (wf_sane _ Hwf1) as Hs. rewrite check_sanity_0 in Hs.
  destruct Hs as (_ & _ & Hcd & _). split; [done|]. exists (sb_size b1).
  destruct (Z.eq_dec (sshbuf_check_reserve b len) 0) as [E|E].
  - destruct (Hz E) as [?|[-> ?]]; [|done]. unfold block in *. cbn. split_and!; [done|lia..].
  - specialize (Hne E). lia.
Qed.

Lemma reserve_sign w b len r b' p w' :
  wf b -> sshbuf_reserve w b len = (r, b', p, w') -> 0 <= len -> r = 0 \/ r < 0.
Proof.
  intros Hwf Er Hlen. revert Er. unfold sshbuf_reserve.
  destruct (sshbuf_allocate w b len) as [[r1 b1] w1] eqn:Ea.
  apply allocate_spec in Ea as (_ & _ & _ & Hne & Hz); [|done|lia].
  pose proof (check_reserve_spec b len Hwf) as Hc.
  unfold SSH_ERR_BUFFER_READ_ONLY, SSH_ERR_NO_BUFFER_SPACE, SSH_ERR_ALLOC_FAIL in *.
  assert (r1 = 0 \/ r1 < 0).
  { destruct (Z.eq_dec (sshbuf_check_reserve b len) 0) as [E|E].
    - destruct (Hz E) as [?|[-> ?]]; lia.
    - rewrite (Hne E), Hc. repeat case_if; lia. }
  destruct (r1 =? 0); cbn; intros [= <- _ _ _]; lia.
Qed.

Lemma sshbuf_put_fill w b v :
  wf b -> sshbuf_put w b v (Z.of_nat (length v)) = reserve_fill w b v.
Proof.
  intros Hwf. unfold sshbuf_put, reserve_fill.
  destruct (sshbuf_reserve w b _) as [[[r1 b1] p] w1] eqn:Er.
  pose proof (reserve_sign _ _ _ _ _ _ _ Hwf Er ltac:(lia)) as Hsg.
  destruct (r1 <? 0) eqn:E1; [done|]. assert (r1 = 0) as -> by lia.
  apply reserve_room in Er as (Hn & ?); [|done|lia].
  destruct v as [|x v]; [by rewrite !mem_write_nil|].
  rewrite (proj2 (Z.eqb_neq _ 0)) by (cbn [length]; lia). cbn [negb].
  rewrite take_ge by lia. done.
Qed.

Lemma sshbuf_put_u64_fill w b v :
  sshbuf_put_u64 w b v = reserve_fill w b (POKE_U64 (u64 v)).
Proof. reflexivity. Qed.
Lemma sshbuf_put_u32_fill w b v :
  sshbuf_put_u32 w b v = reserve_fill w b (POKE_U32 (u32 v)).
Proof. reflexivity. Qed.
Lemma sshbuf_put_u16_fill w b v :
  sshbuf_put_u16 w b v = reserve_fill w b (POKE_U16 (u16 v)).
Proof. reflexivity. Qed.
Lemma sshbuf_put_u8_fill w b v :
  sshbuf_put_u8 w b v = reserve_fill w b [u8 v].
Proof. reflexivity. Qed.

(** The wire form of a string. *)
Definition enc_string (v : list Z) : list Z := POKE_U32 (Z.of_nat (length v)) ++ v.

Lemma length_enc_string v : length (enc_string v) = (4 + length v)%nat.
Proof. done. Qed.

Lemma bytes_ok_enc_string v : bytes_ok v -> bytes_ok (enc_string v).
Proof. intros. apply bytes_ok_app. auto with sshdb. Qed.

#[export] Hint Resolve bytes_ok_enc_string : sshdb.

Lemma sshbuf_put_string_fill w b v :
  wf b -> Z.of_nat (length v) <= SSHBUF_SIZE_MAX - 4 ->
  sshbuf_put_string w b v (Z.of_nat (length v)) = reserve_fill w b (enc_string v).
Proof.
  intros Hwf Hl. unfold sshbuf_put_string, reserve_fill, SSHBUF_SIZE_MAX in *.
  destruct (_ >? _) eqn:E; [lia|]. rewrite length_enc_string.
  replace (Z.of_nat (4 + length v)) with (Z.of_nat (length v) + 4) by lia.
  destruct (sshbuf_reserve w b _) as [[[r1 b1] p] w1] eqn:Er.
  pose proof (reserve_sign _ _ _ _ _ _ _ Hwf Er ltac:(lia)) as Hsg.
  destruct (r1 <? 0) eqn:E1; [done|]. assert (r1 = 0) as -> by lia.
  apply reserve_room in Er as (Hn & dp & -> & Hdp); [|done|lia]. cbn [default id].
  unfold u32. rewrite Z.mod_small by lia.
  destruct v as [|x v]; [done|].
  rewrite (proj2 (Z.eqb_neq _ 0)) by (cbn [length]; lia). cbn [negb].
  rewrite take_ge by lia.
  by rewrite (mem_write_join b1 dp (POKE_U32 _)) by lia.
Qed.

(** The canonical wire form of an unsigned big number. *)
Definition enc_bignum (v : list Z) : list Z :=
  let s := skip_zeros v in
  enc_string (if (0 <? Z.of_nat (length s)) && negb (Z.land (at_ s 0) 0x80 =? 0)
              then 0 :: s else s).

Lemma length_skip_zeros v : (length (skip_zeros v) <= length v)%nat.
Proof.
  induction v as [|x v IH]; cbn; [lia|]. destruct x; cbn; lia.
Qed.

Lemma sshbuf_put_bignum2_bytes_fill w b v :
  wf b -> Z.of_nat (length v) <= SSHBUF_SIZE_MAX - 5 ->
  sshbuf_put_bignum2_bytes w b v (Z.of_nat (length v)) = reserve_fill w b (enc_bignum v).
Proof.
  intros Hwf Hl. unfold sshbuf_put_bignum2_bytes, reserve_fill, enc_bignum.
  unfold SSHBUF_SIZE_MAX in *. destruct (_ >? _) eqn:E; [lia|]. clear E.
  rewrite take_ge by lia. pose proof (length_skip_zeros v) as Hs.
  set (s := skip_zeros v) in *.
  rewrite Z.gtb_ltb. destruct ((0 <? _) && _) eqn:Ep.
  - rewrite length_enc_string. cbn [length].
    replace (Z.of_nat (4 + S (length s))) with (Z.of_nat (length s) + 4 + 1) by lia.
    destruct (sshbuf_reserve w b _) as [[[r1 b1] p] w1] eqn:Er.
    pose proof (reserve_sign _ _ _ _ _ _ _ Hwf Er ltac:(lia)) as Hsg.
    destruct (r1 <? 0) eqn:E1; [done|]. assert (r1 = 0) as -> by lia.
    apply reserve_room in Er as (Hn & dp & -> & Hdp); [|done|lia]. cbn [default id Z.eqb negb].
    unfold u32. rewrite Z.mod_small by lia.
    destruct (Z.of_nat (length s) =? 0) eqn:E0; [lia|]. cbn [negb].
    rewrite (mem_write_join b1 dp (POKE_U32 _)) by lia.
    replace (dp + 4 + 1) with (dp + Z.of_nat (length (POKE_U32 (Z.of_nat (length s) + 1) ++ [0])))
      by (cbn; lia).
    rewrite mem_write_join by lia. unfold enc_string. rewrite <- app_assoc. cbn [length app].
    by replace (Z.of_nat (S (length s))) with (Z.of_nat (length s) + 1) by lia.
  - rewrite length_enc_string.
    replace (Z.of_nat (4 + length s)) with (Z.of_nat (length s) + 4 + 0) by lia.
    destruct (sshbuf_reserve w b _) as [[[r1 b1] p] w1] eqn:Er.
    pose proof (reserve_sign _ _ _ _ _ _ _ Hwf Er ltac:(lia)) as Hsg.
    destruct (r1 <? 0) eqn:E1; [done|]. assert (r1 = 0) as -> by lia.
    apply reserve_room in Er as (Hn & dp & -> & Hdp); [|done|lia]. cbn [default id Z.eqb negb].
    rewrite Z.add_0_r. unfold u32. rewrite Z.mod_small by lia.
    destruct s as [|x s']; [done|].
    rewrite (proj2 (Z.eqb_neq _ 0)) by (cbn [length]; lia). cbn [negb].
    rewrite Z.add_0_r. by rewrite (mem_write_join b1 dp (POKE_U32 _)) by lia.
Qed.

(** ** Readers *)

(** What a reader that took [x] off the front leaves behind. *)
Definition took (b : sshbuf) (x : list Z) (b' : sshbuf) : Prop :=
  wf b' /\ contents b = x ++ contents b' /\ same_frame b b'.

(** The pointer to the data sees the contents, then the unused room. *)
Lemma sshbuf_ptr_spec b :
  wf b -> exists slack, sshbuf_ptr b = Some (contents b ++ slack).
Proof.
  intros Hwf. exists (drop (Z.to_nat (sb_size b - sb_off b)) (drop (Z.to_nat (sb_off b)) (block b))).
  unfold sshbuf_ptr. rewrite (wf_sane b Hwf). cbn. f_equal. unfold contents.
  by rewrite take_drop.
Qed.

Lemma consume_took b n :
  wf b -> (n <= length (contents b))%nat ->
  exists b', sshbuf_consume b (Z.of_nat n) = (0, b') /\ took b (take n (contents b)) b'.
Proof.
  intros Hwf Hn. destruct (sshbuf_consume b (Z.of_nat n)) as [r b'] eqn:E.
  apply consume_spec in E as (Hwf' & Hf & E); [|done|lia].
  rewrite (proj2 (Z.leb_le _ _)) in E by lia. destruct E as [-> Hc].
  exists b'. rewrite Nat2Z.id in Hc. split; [done|]. split; [done|]. split; [|done].
  rewrite Hc. by rewrite take_drop.
Qed.

Lemma consume_short b n :
  wf b -> Z.of_nat (length (contents b)) < n ->
  sshbuf_consume b n = (SSH_ERR_MESSAGE_INCOMPLETE, b).
Proof.
  intros Hwf Hn. destruct (sshbuf_consume b n) as [r b'] eqn:E.
  apply consume_spec in E as (_ & _ & E); [|done|lia].
  rewrite (proj2 (Z.leb_gt _ _)) in E by lia. by destruct E as [-> ->].
Qed.

(** All fixed-width readers have the same shape. *)
Definition get_fixed {A} (f : list Z -> A) (n : nat) (b : sshbuf) : Z * option A * sshbuf :=
  let p := default [] (sshbuf_ptr b) in
  let '(r, b) := sshbuf_consume b (Z.of_nat n) in
  if r <? 0 then (r, None, b) else (0, Some (f p), b).

Lemma get_fixed_spec {A} (f : list Z -> A) n b :
  wf b -> (forall p q, (n <= length p)%nat -> f (p ++ q) = f p) ->
  if (n <=? length (contents b))%nat
  then exists b', get_fixed f n b = (0, Some (f (contents b)), b') /\
                  took b (take n (contents b)) b'
  else get_fixed f n b = (SSH_ERR_MESSAGE_INCOMPLETE, None, b).
Proof.
  intros Hwf Hf. destruct (sshbuf_ptr_spec b Hwf) as [slack Hp].
  unfold get_fixed. rewrite Hp. cbn [default id].
  destruct (Nat.leb_spec n (length (contents b))) as [Hn|Hn].
  - destruct (consume_took b n Hwf Hn) as (b' & -> & Ht). exists b'.
    cbn. rewrite Hf by done. done.
  - by rewrite consume_short by (auto; lia).
Qed.

Lemma at_0_app p q : (1 <= length p)%nat -> at_ (p ++ q) 0 = at_ p 0.
Proof. intros. apply at_app_l. lia. Qed.

Lemma PEEK_U16_app p q : (2 <= length p)%nat -> PEEK_U16 (p ++ q) = PEEK_U16 p.
Proof. intros. unfold PEEK_U16. by rewrite !at_app_l by lia. Qed.

(** Reading back what a writer appended, when more data may follow. *)
Lemma get_fixed_read {A} (f : list Z -> A) (x rest : list Z) b :
  wf b -> (forall p q, (length x <= length p)%nat -> f (p ++ q) = f p) ->
  contents b = x ++ rest ->
  exists b', get_fixed f (length x) b = (0, Some (f x), b') /\
             wf b' /\ contents b' = rest /\ same_frame b b'.
Proof.
  intros Hwf Hf Hc. pose proof (get_fixed_spec f (length x) b Hwf Hf) as H.
  rewrite Hc, length_app in H. rewrite (proj2 (Nat.leb_le _ _)) in H by lia.
  destruct H as (b' & -> & Hw & Hc' & Hfr). exists b'.
  rewrite Hf, take_app_length in * by lia. rewrite Hc in Hc'.
  apply app_inv_head in Hc'. done.
Qed.

Lemma get_u8_read b v rest :
  wf b -> contents b = [v] ++ rest ->
  exists b', sshbuf_get_u8 b = (0, Some v, b') /\ wf b' /\ contents b' = rest /\ same_frame b b'.
Proof. intros Hwf Hc. exact (get_fixed_read (fun p => at_ p 0) [v] rest b Hwf at_0_app Hc). Qed.

Lemma get_u16_read b v rest :
  wf b -> 0 <= v < 2 ^ 16 -> contents b = POKE_U16 v ++ rest ->
  exists b', sshbuf_get_u16 b = (0, Some v, b') /\ wf b' /\ contents b' = rest /\ same_frame b b'.
Proof.
  intros Hwf Hv Hc.
  pose proof (get_fixed_read PEEK_U16 (POKE_U16 v) rest b Hwf PEEK_U16_app Hc) as H.
  rewrite <- (PEEK_U16_app _ []), PEEK_POKE_U16 in H by (done || cbn; lia). exact H.
Qed.

Lemma get_u32_read b v rest :
  wf b -> 0 <= v < 2 ^ 32 -> contents b = POKE_U32 v ++ rest ->
  exists b', sshbuf_get_u32 b = (0, Some v, b') /\ wf b' /\ contents b' = rest /\ same_frame b b'.
Proof.
  intros Hwf Hv Hc.
  pose proof (get_fixed_read PEEK_U32 (POKE_U32 v) rest b Hwf PEEK_U32_app Hc) as H.
  rewrite <- (PEEK_U32_app _ []), PEEK_POKE_U32 in H by (done || cbn; lia). exact H.
Qed.

Lemma get_u64_read b v rest :
  wf b -> 0 <= v < 2 ^ 64 -> contents b = POKE_U64 v ++ rest ->
  exists b', sshbuf_get_u64 b = (0, Some v, b') /\ wf b' /\ contents b' = rest /\ same_frame b b'.
Proof.
  intros Hwf Hv Hc.
  pose proof (get_fixed_read PEEK_U64 (POKE_U64 v) rest b Hwf PEEK_U64_app Hc) as H.
  rewrite <- (PEEK_U64_app _ []), PEEK_POKE_U64 in H by (done || cbn; lia). exact H.
Qed.

(** ** Strings *)

(** What [sshbuf_peek_string_direct] answers, by the contents alone. *)
Lemma peek_string_spec b :
  wf b ->
  let c := contents b in
  let len := PEEK_U32 c in
  if (length c <? 4)%nat then
    sshbuf_peek_string_direct b = (SSH_ERR_MESSAGE_INCOMPLETE, None, 0)
  else if len >? SSHBUF_SIZE_MAX - 4 then
    sshbuf_peek_string_direct b = (SSH_ERR_STRING_TOO_LARGE, None, 0)
  else if Z.of_nat (length c) - 4 <? len then
    sshbuf_peek_string_direct b = (SSH_ERR_MESSAGE_INCOMPLETE, None, 0)
  else exists slack,
    sshbuf_peek_string_direct b = (0, Some (drop 4 c ++ slack), len) /\
    0 <= len <= Z.of_nat (length c) - 4.
Proof.
  intros Hwf c len. unfold sshbuf_peek_string_direct.
  destruct (sshbuf_ptr_spec b Hwf) as [slack Hp]. rewrite Hp. cbn [default id].
  rewrite sshbuf_len_contents by done. fold c.
  destruct (Nat.ltb_spec (length c) 4) as [Hl|Hl].
  { by rewrite (proj2 (Z.ltb_lt _ _)) by lia. }
  rewrite (proj2 (Z.ltb_ge _ 4)) by lia. rewrite PEEK_U32_app by done. fold len.
  destruct (len >? _); [done|]. destruct (_ <? len) eqn:E; [done|].
  exists slack. rewrite drop_app_le by done. split; [done|].
  pose proof (PEEK_U32_range c (bytes_ok_contents b Hwf)) as Hr. fold len in Hr. lia.
Qed.

Lemma peek_string_read b s rest :
  wf b -> contents b = enc_string s ++ rest ->
  exists slack, sshbuf_peek_string_direct b = (0, Some (s ++ rest ++ slack), Z.of_nat (length s)).
Proof.
  intros Hwf Hc. pose proof (peek_string_spec b Hwf) as H. cbn zeta in H. rewrite Hc in H.
  pose proof (contents_bound b Hwf) as Hb. rewrite Hc, length_app, length_enc_string in Hb.
  rewrite length_app, length_enc_string in H. unfold enc_string, SSHBUF_SIZE_MAX in *.
  rewrite <- app_assoc, PEEK_POKE_U32 in H by lia.
  rewrite (proj2 (Nat.ltb_ge _ 4)) in H by lia.
  destruct (_ >? _) eqn:E1 in H; [lia|]. destruct (_ <? _) eqn:E2 in H; [lia|].
  destruct H as (slack & -> & _). exists slack.
  rewrite (drop_app_length' (POKE_U32 _)) by done. by rewrite <- app_assoc.
Qed.

Lemma get_string_direct_read b s rest :
  wf b -> contents b = enc_string s ++ rest ->
  exists slack b',
    sshbuf_get_string_direct b = (0, Some (s ++ slack), Z.of_nat (length s), b') /\
    wf b' /\ contents b' = rest /\ same_frame b b'.
Proof.
  intros Hwf Hc. destruct (peek_string_read b s rest Hwf Hc) as [slack Hp].
  unfold sshbuf_get_string_direct. rewrite Hp. cbn - [sshbuf_consume].
  pose proof (contents_bound b Hwf) as Hb. rewrite Hc, length_app, length_enc_string in Hb.
  unfold SSHBUF_SIZE_MAX in Hb. unfold u64. rewrite Z.mod_small by lia.
  destruct (consume_took b (length (enc_string s)) Hwf) as (b' & Hcon & Hw & Hc' & Hf).
  { rewrite Hc, length_app. lia. }
  rewrite length_enc_string in Hcon.
  replace (Z.of_nat (length s) + 4) with (Z.of_nat (4 + length s)) by lia.
  rewrite Hcon. cbn. exists (rest ++ slack), b'. split; [done|].
  rewrite Hc, take_app_length in Hc'. apply app_inv_head in Hc'. done.
Qed.

Lemma skip_string_read b s rest :
  wf b -> contents b = enc_string s ++ rest ->
  exists b', sshbuf_skip_string b = (0, b') /\ wf b' /\ contents b' = rest /\ same_frame b b'.
Proof.
  intros Hwf Hc. destruct (get_string_direct_read b s rest Hwf Hc) as (sl & b' & H & ?).
  exists b'. unfold sshbuf_skip_string. rewrite H. done.
Qed.

Lemma get_string_read w b s rest :
  wf b -> contents b = enc_string s ++ rest -> (malloc w).1 = true ->
  exists b', sshbuf_get_string w b = (0, Some (s ++ [0]), Z.of_nat (length s), b', (malloc w).2) /\
    wf b' /\ contents b' = rest /\ same_frame b b'.
Proof.
  intros Hwf Hc Hm. destruct (get_string_direct_read b s rest Hwf Hc) as (sl & b' & H & ?).
  exists b'. unfold sshbuf_get_string. rewrite H. destruct (malloc w) as [ok w1].
  cbn in Hm. subst ok. cbn - [take]. rewrite Nat2Z.id, take_app_length. done.
Qed.

(** A string without NUL is returned as a C string; a NUL anywhere but at the
    end is refused. *)
Lemma memchr_None p c len : memchr p c len = None <-> c ∉ take (Z.to_nat len) p.
Proof.
  unfold memchr. rewrite fmap_None, list_find_None, Forall_forall, list_elem_of_In. split.
  - intros H Hin. by apply (H c Hin).
  - intros H x Hx ->. done.
Qed.

Lemma get_cstring_read w b s rest :
  wf b -> contents b = enc_string s ++ rest -> 0 ∉ s -> (malloc w).1 = true ->
  exists b', sshbuf_get_cstring w b = (0, Some (s ++ [0]), Z.of_nat (length s), b', (malloc w).2) /\
    wf b' /\ contents b' = rest /\ same_frame b b'.
Proof.
  intros Hwf Hc Hs Hm. destruct (peek_string_read b s rest Hwf Hc) as [slack Hp].
  destruct (skip_string_read b s rest Hwf Hc) as (b' & Hsk & Hr).
  exists b'. unfold sshbuf_get_cstring. rewrite Hp. cbn [Z.eqb negb default id].
  replace (memchr _ _ _) with (@None Z).
  2:{ symmetry. apply memchr_None. by rewrite Nat2Z.id, take_app_length. }
  rewrite andb_false_r, Hsk. destruct (malloc w) as [ok w1]. cbn in Hm. subst ok.
  cbn - [take]. rewrite Nat2Z.id, take_app_length. done.
Qed.

(** ** Big numbers *)

Lemma skip_zeros_idem v : skip_zeros (skip_zeros v) = skip_zeros v.
Proof. induction v as [|x v IH]; [done|]. by destruct x; cbn. Qed.

Lemma bytes_ok_skip_zeros v : bytes_ok v -> bytes_ok (skip_zeros v).
Proof.
  induction 1 as [|x v Hx Hv IH]; cbn; [constructor|]. destruct x; [done|by constructor..].
Qed.

Lemma bytes_ok_enc_bignum v : bytes_ok v -> bytes_ok (enc_bignum v).
Proof.
  intros Hv. apply bytes_ok_enc_string. apply bytes_ok_skip_zeros in Hv.
  case_if; [constructor; [unfold is_byte; lia|done]|done].
Qed.

#[export] Hint Resolve bytes_ok_skip_zeros bytes_ok_enc_bignum : sshdb.

Lemma get_bignum2_read b v rest :
  wf b -> contents b = enc_bignum v ++ rest ->
  Z.of_nat (length (skip_zeros v)) <= SSHBUF_MAX_BIGNUM ->
  exists b', sshbuf_get_bignum2_bytes_direct b = (0, Some (skip_zeros v), b') /\
    wf b' /\ contents b' = rest /\ same_frame b b'.
Proof.
  unfold enc_bignum, SSHBUF_MAX_BIGNUM. set (s := skip_zeros v).
  set (msb := (0 <? _) && _). set (pl := if msb then 0 :: s else s).
  intros Hwf Hc Hs. change (16384 / 8) with 2048 in Hs.
  destruct (peek_string_read b pl rest Hwf Hc) as [slack Hp].
  unfold sshbuf_get_bignum2_bytes_direct. rewrite Hp. cbn [Z.ltb Z.compare default id].
  rewrite Nat2Z.id, take_app_length.
  assert (Hneg : negb (Z.of_nat (length pl) =? 0) && negb (Z.land (at_ pl 0) 128 =? 0) = false).
  { subst pl. destruct msb eqn:Em; [done|]. subst msb.
    destruct s; [done|]. cbn [length] in *.
    destruct (negb (Z.land _ _ =? 0)); [|by rewrite andb_false_r]. lia. }
  rewrite Hneg. cbn [SSHBUF_MAX_BIGNUM].
  assert (Hlong : (Z.of_nat (length pl) >? SSHBUF_MAX_BIGNUM + 1) ||
    (Z.of_nat (length pl) =? SSHBUF_MAX_BIGNUM + 1) && negb (at_ pl 0 =? 0) = false).
  { unfold SSHBUF_MAX_BIGNUM. change (16384 / 8) with 2048.
    subst pl. destruct msb; cbn [length at_ lookup list_lookup default]; [|lia].
    change (at_ (0 :: s) 0) with 0. cbn. rewrite andb_false_r. lia. }
  rewrite Hlong.
  destruct (skip_string_read b pl rest Hwf Hc) as (b' & Hsk & Hr).
  exists b'. unfold sshbuf_skip_string, sshbuf_get_string_direct in Hsk. rewrite Hp in Hsk.
  cbn - [sshbuf_consume] in Hsk.
  destruct (sshbuf_consume b _) as [r1 b1] eqn:Econ. destruct (r1 =? 0) eqn:Er; [|done].
  cbn in Hsk. simplify_eq. cbn. split; [|done]. do 3 f_equal.
  subst pl. destruct msb; [cbn|]; apply skip_zeros_idem.
Qed.
