(* ===== verification/SshbufThms.v ===== *)
(** What sequences of buffer operations do.

    [bufop] names the public operations that change one buffer; [run_op] runs
    one.  A buffer built by [sshbuf_new] stays well formed under any sequence
    of them, and each operation is a step of the abstract bounded queue of
    SshbufGetput.v.  The second part is the round trip of typed messages. *)

From stdpp Require Import base list numbers tactics.
From Stdlib Require Import ZArith Lia ZifyBool.
From S2P Require Import Prelude Sshbuf SshbufGetput.

Inductive bufop :=
| OpPut (v : list Z)
| OpPutU8 (v : Z)
| OpPutU16 (v : Z)
| OpPutU32 (v : Z)
| OpPutU64 (v : Z)
| OpPutString (v : list Z)
| OpPutBignum (v : list Z)
| OpPoke (offset : Z) (v : list Z)
| OpConsume (len : Z)
| OpConsumeEnd (len : Z)
| OpReset
| OpSetMax (m : Z).

Definition run_op (w : world) (b : sshbuf) (op : bufop) : Z * sshbuf * world :=
  match op with
  | OpPut v => sshbuf_put w b v (Z.of_nat (length v))
  | OpPutU8 v => sshbuf_put_u8 w b v
  | OpPutU16 v => sshbuf_put_u16 w b v
  | OpPutU32 v => sshbuf_put_u32 w b v
  | OpPutU64 v => sshbuf_put_u64 w b v
  | OpPutString v => sshbuf_put_string w b v (Z.of_nat (length v))
  | OpPutBignum v => sshbuf_put_bignum2_bytes w b v (Z.of_nat (length v))
  | OpPoke o v => let '(r, b) := sshbuf_poke b o v (Z.of_nat (length v)) in (r, b, w)
  | OpConsume n => let '(r, b) := sshbuf_consume b n in (r, b, w)
  | OpConsumeEnd n => let '(r, b) := sshbuf_consume_end b n in (r, b, w)
  | OpReset => let '(b, w) := sshbuf_reset w b in (0, b, w)
  | OpSetMax m => sshbuf_set_max_size w b m
  end.

(** The arguments a caller may pass: octets, sizes that fit a [size_t], and a
    limit that leaves room for the initial allocation. *)
Definition op_ok (op : bufop) : Prop :=
  match op with
  | OpPut v | OpPutString v | OpPutBignum v => bytes_ok v
  | OpPoke o v => bytes_ok v /\ 0 <= o <= SIZE_MAX /\ Z.of_nat (length v) <= SIZE_MAX
  | OpConsume n | OpConsumeEnd n => 0 <= n <= SIZE_MAX
  | OpSetMax m => SSHBUF_SIZE_INIT <= m <= SIZE_MAX
  | _ => True
  end.

(** The step of the abstract queue. *)
Definition q_step (op : bufop) (q : queue) (r : Z) (q' : queue) : Prop :=
  match op with
  | OpPut v => (r, q') = q_put q v
  | OpPutU8 v => (r, q') = q_put q [u8 v]
  | OpPutU16 v => (r, q') = q_put q (POKE_U16 (u16 v))
  | OpPutU32 v => (r, q') = q_put q (POKE_U32 (u32 v))
  | OpPutU64 v => (r, q') = q_put q (POKE_U64 (u64 v))
  | OpPutString v =>
      if Z.of_nat (length v) >? SSHBUF_SIZE_MAX - 4
      then r = SSH_ERR_NO_BUFFER_SPACE /\ q' = q
      else (r, q') = q_put q (enc_string v)
  | OpPutBignum v =>
      if Z.of_nat (length v) >? SSHBUF_SIZE_MAX - 5
      then r = SSH_ERR_NO_BUFFER_SPACE /\ q' = q
      else (r, q') = q_put q (enc_bignum v)
  | OpPoke o v =>
      if o >=? SIZE_MAX - Z.of_nat (length v)
      then r = SSH_ERR_INVALID_ARGUMENT /\ q' = q
      else if o + Z.of_nat (length v) >? Z.of_nat (length (q_data q))
      then r = SSH_ERR_NO_BUFFER_SPACE /\ q' = q
      else if q_rw q
      then r = 0 /\ q' = mk_queue (splice (q_data q) (Z.to_nat o) v) (q_max q) (q_rw q)
      else r = SSH_ERR_BUFFER_READ_ONLY /\ q' = q
  | OpConsume n =>
      if n <=? Z.of_nat (length (q_data q))
      then r = 0 /\ q' = mk_queue (drop (Z.to_nat n) (q_data q)) (q_max q) (q_rw q)
      else r = SSH_ERR_MESSAGE_INCOMPLETE /\ q' = q
  | OpConsumeEnd n =>
      if n <=? Z.of_nat (length (q_data q))
      then r = 0 /\ q' = mk_queue (take (length (q_data q) - Z.to_nat n) (q_data q))
                           (q_max q) (q_rw q)
      else r = SSH_ERR_MESSAGE_INCOMPLETE /\ q' = q
  | OpReset => r = 0 /\ q' = mk_queue [] (q_max q) (q_rw q)
  | OpSetMax m =>
      (r = 0 /\ Z.of_nat (length (q_data q)) <= m /\
       q' = mk_queue (q_data q) m (q_rw q)) \/ (r <> 0 /\ q' = q)
  end.

(** ** Overwriting *)

Lemma check_offset_spec b wr o n :
  wf b -> 0 <= o <= SIZE_MAX -> 0 <= n <= SIZE_MAX ->
  check_offset b wr o n =
    if o >=? SIZE_MAX - n then SSH_ERR_INVALID_ARGUMENT
    else if o + n >? Z.of_nat (length (contents b))
    then (if wr then SSH_ERR_NO_BUFFER_SPACE else SSH_ERR_MESSAGE_INCOMPLETE)
    else 0.
Proof.
  intros Hwf Ho Hn. destruct (sshbuf_ptr_spec b Hwf) as [sl Hp]. unfold check_offset, SIZE_MAX in *.
  rewrite Hp, sshbuf_len_contents by done. rewrite bool_decide_eq_false_2 by done.
  unfold u64. rewrite Z.mod_small by lia.
  destruct (o >=? _) eqn:E; [done|]. rewrite Z.mod_small by lia. done.
Qed.

Lemma poke_spec b o v r b' :
  wf b -> bytes_ok v -> 0 <= o <= SIZE_MAX -> Z.of_nat (length v) <= SIZE_MAX ->
  sshbuf_poke b o v (Z.of_nat (length v)) = (r, b') ->
  wf b' /\ same_frame b b' /\ q_step (OpPoke o v) (abs b) r (abs b').
Proof.
  intros Hwf Hv Ho Hn. unfold sshbuf_poke, check_woffset.
  rewrite check_offset_spec by (auto; lia). cbn - [Z.gtb Z.geb SIZE_MAX].
  destruct (o >=? _) eqn:E1; [by intros [= <- <-]; auto with sshdb|].
  destruct (_ >? _) eqn:E2; [by intros [= <- <-]; auto with sshdb|].
  unfold sshbuf_mutable_ptr, writable. rewrite (wf_sane b Hwf). cbn.
  destruct (sb_readonly b || _) eqn:Erw; cbn; [by intros [= <- <-]; auto with sshdb|].
  rewrite Nat2Z.id, take_ge by lia. intros [= <- <-].
  pose proof (wf_bounds b Hwf) as Hb. pose proof (wf_len b Hwf) as Hl.
  rewrite length_contents in E2 by done.
  assert (Hfit : (Z.to_nat (sb_off b) + Z.to_nat o + length v <= Z.to_nat (sb_size b))%nat) by lia.
  split; [|split; [by repeat split|split; [done|]]].
  - apply wf_set_block; [done| |apply bytes_ok_splice; [apply Hwf|done]].
    apply length_splice. lia.
  - unfold abs, mem_write, contents, writable. cbn - [splice]. rewrite Erw. f_equal.
    replace (Z.to_nat (sb_off b + o)) with (Z.to_nat (sb_off b) + Z.to_nat o)%nat by lia.
    replace (Z.to_nat (sb_size b - sb_off b))
      with (Z.to_nat (sb_size b) - Z.to_nat (sb_off b))%nat by lia.
    apply splice_window; lia.
Qed.

(** ** One operation is one abstract step *)

Lemma put_step w b v r b' :
  put_result w b v r b' -> SSHBUF_SIZE_INIT <= sb_max_size b ->
  wf b' /\ SSHBUF_SIZE_INIT <= sb_max_size b' /\
  ((r, abs b') = q_put (abs b) v \/
   (r = SSH_ERR_ALLOC_FAIL /\ abs b' = abs b /\ (malloc w).1 = false)).
Proof. intros (? & (Hm & _) & ?) ?. rewrite Hm. done. Qed.

Ltac fill_step := intros Hrun; eapply put_step; [eapply reserve_fill_spec; [done| |exact Hrun]|done].

Lemma run_op_spec w b op r b' w' :
  wf b -> SSHBUF_SIZE_INIT <= sb_max_size b -> op_ok op ->
  run_op w b op = (r, b', w') ->
  wf b' /\ SSHBUF_SIZE_INIT <= sb_max_size b' /\
  (q_step op (abs b) r (abs b') \/
   (r = SSH_ERR_ALLOC_FAIL /\ abs b' = abs b /\ (malloc w).1 = false)).
Proof.
  intros Hwf Hmax Hok.
  destruct op as [v|v|v|v|v|v|v|o v|n|n| |m]; cbn [run_op op_ok q_step] in *.
  - rewrite sshbuf_put_fill by done. by fill_step.
  - rewrite sshbuf_put_u8_fill. fill_step.
    constructor; [unfold u8, is_byte; dm_lia|done].
  - rewrite sshbuf_put_u16_fill. fill_step. auto with sshdb.
  - rewrite sshbuf_put_u32_fill. fill_step. auto with sshdb.
  - rewrite sshbuf_put_u64_fill. fill_step. auto with sshdb.
  - destruct (_ >? _) eqn:E.
    + unfold sshbuf_put_string. rewrite E. intros [= <- <- <-]. auto.
    + rewrite sshbuf_put_string_fill by (auto; lia). fill_step. auto with sshdb.
  - destruct (_ >? _) eqn:E.
    + unfold sshbuf_put_bignum2_bytes. rewrite E. intros [= <- <- <-]. auto.
    + rewrite sshbuf_put_bignum2_bytes_fill by (auto; lia). fill_step. auto with sshdb.
  - destruct (sshbuf_poke b o v _) as [r1 b1] eqn:E. intros [= <- <- <-].
    apply poke_spec in E as (? & (Hm & _) & ?); [|tauto..]. rewrite Hm. auto.
  - destruct (sshbuf_consume b n) as [r1 b1] eqn:E. intros [= <- <- <-].
    apply consume_spec in E as (? & Hf & E); [|done|lia].
    pose proof (same_frame_writable _ _ Hf). destruct Hf as (Hm & _). rewrite Hm.
    split_and!; [done..|left]. unfold abs. cbn [q_data q_max q_rw].
    destruct (_ <=? _); destruct E as [-> E]; split; [done|f_equal; congruence|done|by rewrite E].
  - destruct (sshbuf_consume_end b n) as [r1 b1] eqn:E. intros [= <- <- <-].
    apply consume_end_spec in E as (? & Hf & E); [|done|lia].
    pose proof (same_frame_writable _ _ Hf). destruct Hf as (Hm & _). rewrite Hm.
    split_and!; [done..|left]. unfold abs. cbn [q_data q_max q_rw].
    destruct (_ <=? _); destruct E as [-> E]; split; [done|f_equal; congruence|done|by rewrite E].
  - destruct (sshbuf_reset w b) as [b1 w1] eqn:E. intros [= <- <- <-].
    apply sshbuf_reset_spec in E as (? & Hc & Hf & _); [|done..].
    pose proof (same_frame_writable _ _ Hf). destruct Hf as (Hm & _). rewrite Hm.
    split_and!; [done..|left]. unfold abs. cbn. split; [done|f_equal; congruence].
  - intros E. apply sshbuf_set_max_size_spec in E as (? & Hc & Hw & Hm & _ & Hl);
      [|done|unfold SSHBUF_SIZE_INIT in *; lia].
    split; [done|]. rewrite Hm. unfold abs. cbn [q_data q_max q_rw]. rewrite Hm, Hw, Hc.
    destruct (r =? 0) eqn:Er; (split; [lia|left]); [left|right]; split_and!; auto; lia.
Qed.

(** ** Sequences of operations *)

Fixpoint run_ops (w : world) (b : sshbuf) (ops : list bufop)
  : list (bufop * Z) * sshbuf * world :=
  match ops with
  | [] => ([], b, w)
  | op :: ops =>
      let '(r, b, w) := run_op w b op in
      let '(tr, b, w) := run_ops w b ops in
      ((op, r) :: tr, b, w)
  end.

(** Traces of the abstract queue; [oom] allows an operation to fail for lack of
    memory, without effect. *)
Inductive q_trace (oom : bool) : queue -> list (bufop * Z) -> queue -> Prop :=
| qt_nil q : q_trace oom q [] q
| qt_step q op r q1 tr q2 :
    q_step op q r q1 -> q_trace oom q1 tr q2 -> q_trace oom q ((op, r) :: tr) q2
| qt_oom q op tr q2 :
    oom = true -> q_trace oom q tr q2 ->
    q_trace oom q ((op, SSH_ERR_ALLOC_FAIL) :: tr) q2.

Lemma q_trace_oom oom q tr q' : q_trace oom q tr q' -> q_trace true q tr q'.
Proof. induction 1; [constructor|by eapply qt_step|by apply qt_oom]. Qed.

Definition no_failures (w : world) : Prop := Forall (fun b => b = true) w.

#[global] Instance no_failures_dec w : Decision (no_failures w).
Proof. unfold no_failures. apply _. Defined.

(** An operation allocates at most once. *)
Definition allocs_once (w w' : world) : Prop := w' = w \/ w' = (malloc w).2.

Lemma no_failures_step w w' : allocs_once w w' -> no_failures w -> no_failures w'.
Proof. intros [->| ->] H; [done|]. destruct H; cbn; [constructor|done]. Qed.

Lemma malloc_no_failures w : no_failures w -> (malloc w).1 = true.
Proof. by destruct 1. Qed.

Lemma recallocarray_once w l o n s r w' :
  recallocarray w l o n s = (r, w') -> allocs_once w w'.
Proof.
  unfold recallocarray, allocs_once. destruct (malloc w) as [ok w1]; cbn.
  destruct (mul_overflows n s); [intros [= <- <-]; auto|].
  destruct (mul_overflows o s); [intros [= <- <-]; auto|].
  destruct ok; cbn; [|intros [= <- <-]; auto]. destruct (_ >? _); intros [= <- <-]; auto.
Qed.

Lemma allocate_once w b len r b' w' :
  sshbuf_allocate w b len = (r, b', w') -> allocs_once w w'.
Proof.
  unfold sshbuf_allocate. destruct (negb _); [intros [= <- <- <-]; by left|].
  destruct (_ <=? _); [intros [= <- <- <-]; by left|].
  destruct (recallocarray _ _ _ _ _) as [[dp|] w1] eqn:E; apply recallocarray_once in E.
  - destruct (_ <? 0); intros [= <- <- <-]; done.
  - intros [= <- <- <-]; done.
Qed.

Lemma reserve_fill_once w b v r b' w' :
  reserve_fill w b v = (r, b', w') -> allocs_once w w'.
Proof.
  unfold reserve_fill, sshbuf_reserve.
  destruct (sshbuf_allocate _ _ _) as [[r1 b1] w1] eqn:E. apply allocate_once in E.
  destruct (negb _); cbn; [destruct (_ <? 0)|]; intros [= <- <- <-]; done.
Qed.

Lemma run_op_once w b op r b' w' :
  wf b -> run_op w b op = (r, b', w') -> allocs_once w w'.
Proof.
  intros Hwf. destruct op as [v|v|v|v|v|v|v|o v|n|n| |m]; cbn [run_op].
  - rewrite sshbuf_put_fill by done. apply reserve_fill_once.
  - rewrite sshbuf_put_u8_fill. apply reserve_fill_once.
  - rewrite sshbuf_put_u16_fill. apply reserve_fill_once.
  - rewrite sshbuf_put_u32_fill. apply reserve_fill_once.
  - rewrite sshbuf_put_u64_fill. apply reserve_fill_once.
  - destruct (Z.of_nat (length v) >? SSHBUF_SIZE_MAX - 4) eqn:E.
    + unfold sshbuf_put_string. rewrite E. intros [= <- <- <-]. by left.
    + rewrite sshbuf_put_string_fill by (auto; lia). apply reserve_fill_once.
  - destruct (Z.of_nat (length v) >? SSHBUF_SIZE_MAX - 5) eqn:E.
    + unfold sshbuf_put_bignum2_bytes. rewrite E. intros [= <- <- <-]. by left.
    + rewrite sshbuf_put_bignum2_bytes_fill by (auto; lia). apply reserve_fill_once.
  - destruct (sshbuf_poke _ _ _ _). intros [= <- <- <-]. by left.
  - destruct (sshbuf_consume _ _). intros [= <- <- <-]. by left.
  - destruct (sshbuf_consume_end _ _). intros [= <- <- <-]. by left.
  - unfold sshbuf_reset. destruct (_ || _); [intros [= <- <- <-]; by left|].
    destruct (negb _); [intros [= <- <- <-]; by left|].
    destruct (negb _); cbn; [|intros [= <- <- <-]; by left].
    destruct (recallocarray _ _ _ _ _) as [[dp|] w1] eqn:E; apply recallocarray_once in E;
      intros [= <- <- <-]; done.
  - unfold sshbuf_set_max_size. destruct (negb _); [intros [= <- <- <-]; by left|].
    destruct (m =? _); [intros [= <- <- <-]; by left|].
    destruct (_ || _); [intros [= <- <- <-]; by left|].
    destruct (m >? _); [intros [= <- <- <-]; by left|].
    destruct (_ && _); cbn - [Z.ltb]; [|destruct (m <? _); intros [= <- <- <-]; by left].
    destruct (recallocarray _ _ _ _ _) as [[dp|] w1] eqn:E; apply recallocarray_once in E;
      cbn - [Z.ltb]; [destruct (m <? _)|]; intros [= <- <- <-]; done.
Qed.

Lemma run_ops_spec ops : forall w b tr b' w',
  wf b -> SSHBUF_SIZE_INIT <= sb_max_size b -> Forall op_ok ops ->
  run_ops w b ops = (tr, b', w') ->
  wf b' /\ tr.*1 = ops /\ q_trace (negb (bool_decide (no_failures w))) (abs b) tr (abs b').
Proof.
  induction ops as [|op ops IH]; intros w b tr b' w' Hwf Hmax Hok; cbn [run_ops].
  { intros [= <- <- <-]. split_and!; [done..|constructor]. }
  inversion_clear Hok as [|? ? Hop Hops].
  destruct (run_op w b op) as [[r b1] w1] eqn:E1.
  destruct (run_ops w1 b1 ops) as [[tr1 b2] w2] eqn:E2. intros [= <- <- <-].
  pose proof (run_op_once _ _ _ _ _ _ Hwf E1) as Honce.
  apply run_op_spec in E1 as (Hwf1 & Hmax1 & Hst); [|done..].
  apply IH in E2 as (Hwf2 & Htr & Hq); [|done..].
  split; [done|]. split; [cbn; by rewrite Htr|].
  assert (Hq' : q_trace (negb (bool_decide (no_failures w))) (abs b1) tr1 (abs b2)).
  { destruct (decide (no_failures w)) as [Hw|Hw].
    - rewrite bool_decide_eq_true_2 by done.
      by rewrite bool_decide_eq_true_2 in Hq by (by apply no_failures_step with w).
    - rewrite bool_decide_eq_false_2 by done. by apply q_trace_oom in Hq. }
  destruct Hst as [Hst|(-> & Ha & Hf)]; [by eapply qt_step|].
  apply qt_oom; [|by rewrite <- Ha].
  case_bool_decide as Hw; [|done]. apply malloc_no_failures in Hw. congruence.
Qed.



(** C38: The limit must leave room for the initial allocation.  [sshbuf_reset]
    grows the block to [SSHBUF_SIZE_INIT] octets without looking at [max_size];
    a sane, writable buffer whose limit is below that size is corrupt
    afterwards and the next operation on it stops the program. *)
Theorem sshbuf_reset_small_limit (w : world) (b : sshbuf) :
  wf b -> writable b = true -> sb_max_size b < SSHBUF_SIZE_INIT -> (malloc w).1 = true ->
  sshbuf_check_sanity (sshbuf_reset w b).1 = SSH_ERR_INTERNAL_ERROR.
Proof.
  intros Hwf Hw Hm Hok. pose proof (wf_bounds b Hwf) as Hb. unfold writable in Hw.
  unfold sshbuf_reset, SSHBUF_SIZE_INIT in *.
  destruct (sb_readonly b || _) eqn:Erw; [done|].
  rewrite (wf_sane b Hwf). cbn - [splice recallocarray Z.eqb].
  rewrite (proj2 (Z.eqb_neq (sb_alloc b) 256)) by lia. cbn - [splice recallocarray].
  rewrite recallocarray_small by (unfold SSHBUF_SIZE_MAX in *; lia). rewrite Hok.
  unfold sshbuf_check_sanity. cbn - [splice Z.gtb].
  destruct (256 >? sb_max_size b) eqn:E; [|lia]. by rewrite !orb_true_r.
Qed.

Lemma sshbuf_reset_small_limit_witness :
  exists b0 w0 b1 w1,
    sshbuf_new [] = (Some b0, w0) /\ sshbuf_set_max_size w0 b0 100 = (0, b1, w1) /\
    sshbuf_check_sanity b1 = 0 /\
    sshbuf_check_sanity (sshbuf_reset w1 b1).1 = SSH_ERR_INTERNAL_ERROR.
Proof.
  destruct (sshbuf_new []) as [[b0|] w0] eqn:E; [|done].
  destruct (sshbuf_set_max_size w0 b0 100) as [[r b1] w1] eqn:R.
  assert (Hr : r = 0) by (injection E as <- <-; vm_compute in R; by injection R).
  subst r. pose proof (sshbuf_new_spec _ _ _ E) as (Hwf & _ & Hw & _).
  pose proof (sshbuf_set_max_size_spec _ _ 100 _ _ _ Hwf ltac:(lia) R)
    as (Hwf1 & _ & Hw1 & Hm1 & _).
  exists b0, w0, b1, w1. split; [done|]. split; [done|]. split; [apply Hwf1|].
  apply (sshbuf_reset_small_limit w1 b1 Hwf1).
  - congruence.
  - rewrite Hm1. reflexivity.
  - injection E as <- <-. vm_compute in R. by injection R as _ <-.
Defined.

(** ** Typed messages

    A message is written by a chain of [sshbuf_put_*] calls that stops at the
    first error, and read by the matching chain of [sshbuf_get_*] calls. *)

Inductive field :=
| F_u8 (v : Z)
| F_u16 (v : Z)
| F_u32 (v : Z)
| F_u64 (v : Z)
| F_string (s : list Z)
| F_cstring (s : list Z)
| F_bignum (s : list Z).

Inductive kind := K_u8 | K_u16 | K_u32 | K_u64 | K_string | K_cstring | K_bignum.

Definition kind_of (f : field) : kind :=
  match f with
  | F_u8 _ => K_u8 | F_u16 _ => K_u16 | F_u32 _ => K_u32 | F_u64 _ => K_u64
  | F_string _ => K_string | F_cstring _ => K_cstring | F_bignum _ => K_bignum
  end.

(** The values a field can hold; a number is given by its octets, most
    significant first, without leading zeros. *)
Definition field_ok (f : field) : Prop :=
  match f with
  | F_u8 v => 0 <= v < 2 ^ 8
  | F_u16 v => 0 <= v < 2 ^ 16
  | F_u32 v => 0 <= v < 2 ^ 32
  | F_u64 v => 0 <= v < 2 ^ 64
  | F_string s => bytes_ok s
  | F_cstring s => bytes_ok s /\ 0 ∉ s
  | F_bignum s => bytes_ok s /\ Z.of_nat (length s) <= SSHBUF_MAX_BIGNUM /\
                  (forall s', s <> 0 :: s')
  end.

Definition put_field (w : world) (b : sshbuf) (f : field) : Z * sshbuf * world :=
  match f with
  | F_u8 v => sshbuf_put_u8 w b v
  | F_u16 v => sshbuf_put_u16 w b v
  | F_u32 v => sshbuf_put_u32 w b v
  | F_u64 v => sshbuf_put_u64 w b v
  | F_string s => sshbuf_put_string w b s (Z.of_nat (length s))
  | F_cstring s => sshbuf_put_cstring w b (Some s)
  | F_bignum s => sshbuf_put_bignum2_bytes w b s (Z.of_nat (length s))
  end.

Definition get_field (w : world) (b : sshbuf) (k : kind) : Z * option field * sshbuf * world :=
  match k with
  | K_u8 => let '(r, v, b) := sshbuf_get_u8 b in (r, F_u8 <$> v, b, w)
  | K_u16 => let '(r, v, b) := sshbuf_get_u16 b in (r, F_u16 <$> v, b, w)
  | K_u32 => let '(r, v, b) := sshbuf_get_u32 b in (r, F_u32 <$> v, b, w)
  | K_u64 => let '(r, v, b) := sshbuf_get_u64 b in (r, F_u64 <$> v, b, w)
  | K_string =>
      let '(r, s, len, b, w) := sshbuf_get_string w b in
      (r, (fun s => F_string (take (Z.to_nat len) s)) <$> s, b, w)
  | K_cstring =>
      let '(r, s, len, b, w) := sshbuf_get_cstring w b in
      (r, (fun s => F_cstring (take (Z.to_nat len) s)) <$> s, b, w)
  | K_bignum =>
      let '(r, s, b) := sshbuf_get_bignum2_bytes_direct b in (r, F_bignum <$> s, b, w)
  end.

Fixpoint put_fields (w : world) (b : sshbuf) (fs : list field) : Z * sshbuf * world :=
  match fs with
  | [] => (0, b, w)
  | f :: fs =>
      let '(r, b, w) := put_field w b f in
      if negb (r =? 0) then (r, b, w) else put_fields w b fs
  end.

Fixpoint get_fields (w : world) (b : sshbuf) (ks : list kind)
  : Z * list field * sshbuf * world :=
  match ks with
  | [] => (0, [], b, w)
  | k :: ks =>
      let '(r, f, b, w) := get_field w b k in
      match f with
      | Some f =>
          if negb (r =? 0) then (r, [], b, w)
          else let '(r, fs, b, w) := get_fields w b ks in (r, f :: fs, b, w)
      | None => (r, [], b, w)
      end
  end.

(** The octets of a field. *)
Definition enc_field (f : field) : list Z :=
  match f with
  | F_u8 v => [v]
  | F_u16 v => POKE_U16 v
  | F_u32 v => POKE_U32 v
  | F_u64 v => POKE_U64 v
  | F_string s | F_cstring s => enc_string s
  | F_bignum s => enc_bignum s
  end.

Lemma put_field_spec w b f b' w' :
  wf b -> field_ok f -> put_field w b f = (0, b', w') ->
  wf b' /\ same_frame b b' /\ contents b' = contents b ++ enc_field f.
Proof.
  intros Hwf Hok.
  assert (Hfill : forall v, bytes_ok v -> reserve_fill w b v = (0, b', w') ->
    wf b' /\ same_frame b b' /\ contents b' = contents b ++ v).
  { intros v Hv H. eapply put_result_ok, reserve_fill_spec; done. }
  destruct f as [v|v|v|v|s|s|s]; cbn [put_field field_ok enc_field] in *.
  - rewrite sshbuf_put_u8_fill. unfold u8. rewrite Z.mod_small by done.
    apply Hfill. constructor; [exact Hok|done].
  - rewrite sshbuf_put_u16_fill. unfold u16. rewrite Z.mod_small by done. auto with sshdb.
  - rewrite sshbuf_put_u32_fill. unfold u32. rewrite Z.mod_small by done. auto with sshdb.
  - rewrite sshbuf_put_u64_fill. unfold u64. rewrite Z.mod_small by done. auto with sshdb.
  - destruct (Z.of_nat (length s) >? SSHBUF_SIZE_MAX - 4) eqn:E.
    + unfold sshbuf_put_string. by rewrite E.
    + rewrite sshbuf_put_string_fill by (auto; lia). auto with sshdb.
  - unfold sshbuf_put_cstring. cbn [default id]. destruct Hok as [Hok _].
    destruct (Z.of_nat (length s) >? SSHBUF_SIZE_MAX - 4) eqn:E.
    + unfold sshbuf_put_string. by rewrite E.
    + rewrite sshbuf_put_string_fill by (auto; lia). auto with sshdb.
  - destruct Hok as [Hok _]. destruct (Z.of_nat (length s) >? SSHBUF_SIZE_MAX - 5) eqn:E.
    + unfold sshbuf_put_bignum2_bytes. by rewrite E.
    + rewrite sshbuf_put_bignum2_bytes_fill by (auto; lia). auto with sshdb.
Qed.

Lemma skip_zeros_canonical s : (forall s', s <> 0 :: s') -> skip_zeros s = s.
Proof. destruct s as [|[| |] s]; try done. intros H. by destruct (H s). Qed.

Lemma get_field_spec w b f rest :
  wf b -> field_ok f -> no_failures w -> contents b = enc_field f ++ rest ->
  exists b' w', get_field w b (kind_of f) = (0, Some f, b', w') /\
    wf b' /\ contents b' = rest /\ no_failures w'.
Proof.
  intros Hwf Hok Hw Hc. pose proof (malloc_no_failures w Hw) as Hm.
  assert (Hw' : no_failures (malloc w).2) by (apply no_failures_step with w; [by right|done]).
  destruct f as [v|v|v|v|s|s|s]; cbn [get_field kind_of field_ok enc_field] in *.
  - destruct (get_u8_read b v rest Hwf Hc) as (b' & -> & ? & ? & ?). by exists b', w.
  - destruct (get_u16_read b v rest Hwf Hok Hc) as (b' & -> & ? & ? & ?). by exists b', w.
  - destruct (get_u32_read b v rest Hwf Hok Hc) as (b' & -> & ? & ? & ?). by exists b', w.
  - destruct (get_u64_read b v rest Hwf Hok Hc) as (b' & -> & ? & ? & ?). by exists b', w.
  - destruct (get_string_read w b s rest Hwf Hc Hm) as (b' & -> & ? & ? & ?).
    exists b', (malloc w).2. cbn - [take]. by rewrite Nat2Z.id, take_app_length.
  - destruct (get_cstring_read w b s rest Hwf Hc (proj2 Hok) Hm) as (b' & -> & ? & ? & ?).
    exists b', (malloc w).2. cbn - [take]. by rewrite Nat2Z.id, take_app_length.
  - destruct Hok as (? & Hl & Hcan). pose proof (skip_zeros_canonical s Hcan) as Hs.
    destruct (get_bignum2_read b s rest Hwf Hc) as (b' & -> & ? & ? & ?); [by rewrite Hs|].
    rewrite Hs. by exists b', w.
Qed.

Lemma put_fields_spec fs : forall w b b' w',
  wf b -> Forall field_ok fs -> put_fields w b fs = (0, b', w') ->
  wf b' /\ contents b' = contents b ++ concat (map enc_field fs).
Proof.
  induction fs as [|f fs IH]; intros w b b' w' Hwf Hok; cbn [put_fields map concat].
  { intros [= <- <-]. by rewrite app_nil_r. }
  inversion_clear Hok as [|? ? Hf Hfs]. destruct (put_field w b f) as [[r b1] w1] eqn:E.
  destruct (r =? 0) eqn:Er; cbn; [|intros [= -> _ _]; done].
  assert (r = 0) as -> by lia. apply put_field_spec in E as (Hwf1 & _ & Hc1); [|done..].
  intros H. apply IH in H as (? & Hc); [|done..]. split; [done|].
  by rewrite Hc, Hc1, <- app_assoc.
Qed.

Lemma get_fields_spec fs : forall w b rest,
  wf b -> Forall field_ok fs -> no_failures w ->
  contents b = concat (map enc_field fs) ++ rest ->
  exists b' w', get_fields w b (map kind_of fs) = (0, fs, b', w') /\ wf b' /\ contents b' = rest.
Proof.
  induction fs as [|f fs IH]; intros w b rest Hwf Hok Hw Hc; cbn [get_fields map concat].
  { exists b, w. auto. }
  inversion_clear Hok as [|? ? Hf Hfs]. cbn in Hc. rewrite <- app_assoc in Hc.
  destruct (get_field_spec w b f _ Hwf Hf Hw Hc) as (b1 & w1 & -> & Hwf1 & Hc1 & Hw1).
  destruct (IH w1 b1 rest Hwf1 Hfs Hw1 Hc1) as (b' & w' & H & ?).
  cbn. rewrite H. by exists b', w'.
Qed.



(** ** Readers see the contents only *)

(** The string at the head of an octet string: return code, octets, length. *)
Definition dec_string (c : list Z) : Z * list Z * Z :=
  let len := PEEK_U32 c in
  if (length c <? 4)%nat then (SSH_ERR_MESSAGE_INCOMPLETE, [], 0)
  else if len >? SSHBUF_SIZE_MAX - 4 then (SSH_ERR_STRING_TOO_LARGE, [], 0)
  else if Z.of_nat (length c) - 4 <? len then (SSH_ERR_MESSAGE_INCOMPLETE, [], 0)
  else (0, take (Z.to_nat len) (drop 4 c), len).

Lemma peek_string_dec b :
  wf b ->
  exists p, sshbuf_peek_string_direct b =
      ((dec_string (contents b)).1.1, p, (dec_string (contents b)).2) /\
    take (Z.to_nat (dec_string (contents b)).2) (default [] p) = (dec_string (contents b)).1.2.
Proof.
  intros Hwf. pose proof (peek_string_spec b Hwf) as H. unfold dec_string. cbn zeta in H.
  destruct (_ <? 4)%nat; [by eexists|]. destruct (_ >? _); [by eexists|].
  destruct (_ <? _); [by eexists|]. destruct H as (sl & -> & Hl). eexists. split; [done|].
  cbn - [take drop]. rewrite take_app_le; [done|]. rewrite length_drop. lia.
Qed.

(** Consuming depends on the contents only. *)
Lemma consume_eq b1 b2 n :
  wf b1 -> wf b2 -> contents b1 = contents b2 -> 0 <= n ->
  (sshbuf_consume b1 n).1 = (sshbuf_consume b2 n).1 /\
  contents (sshbuf_consume b1 n).2 = contents (sshbuf_consume b2 n).2 /\
  wf (sshbuf_consume b1 n).2 /\ wf (sshbuf_consume b2 n).2.
Proof.
  intros H1 H2 Hc Hn.
  destruct (sshbuf_consume b1 n) as [r1 b1'] eqn:E1, (sshbuf_consume b2 n) as [r2 b2'] eqn:E2.
  apply consume_spec in E1 as (? & _ & E1); [|done..].
  apply consume_spec in E2 as (? & _ & E2); [|done..]. rewrite Hc in E1.
  destruct (_ <=? _); destruct E1 as [-> E1], E2 as [-> E2]; cbn; split_and!; congruence.
Qed.

(** Two buffers no reader can tell apart. *)
Definition same_data (b1 b2 : sshbuf) : Prop := wf b1 /\ wf b2 /\ contents b1 = contents b2.

Lemma get_fixed_eq {A} (f : list Z -> A) n b1 b2 :
  same_data b1 b2 -> (forall p q, (n <= length p)%nat -> f (p ++ q) = f p) ->
  (get_fixed f n b1).1 = (get_fixed f n b2).1 /\
  same_data (get_fixed f n b1).2 (get_fixed f n b2).2.
Proof.
  intros (H1 & H2 & Hc) Hf.
  pose proof (get_fixed_spec f n b1 H1 Hf) as E1. pose proof (get_fixed_spec f n b2 H2 Hf) as E2.
  rewrite <- Hc in E2. destruct (n <=? _)%nat; [|by rewrite E1, E2].
  destruct E1 as (b1' & -> & ? & Hc1 & _), E2 as (b2' & -> & ? & Hc2 & _). cbn.
  split; [done|]. split; [done|]. split; [done|].
  apply (app_inv_head (take n (contents b1))). congruence.
Qed.

Lemma get_string_direct_eq b1 b2 :
  same_data b1 b2 ->
  exists r p1 p2 len b1' b2',
    sshbuf_get_string_direct b1 = (r, p1, len, b1') /\
    sshbuf_get_string_direct b2 = (r, p2, len, b2') /\
    take (Z.to_nat len) (default [] p1) = take (Z.to_nat len) (default [] p2) /\
    same_data b1' b2'.
Proof.
  intros (H1 & H2 & Hc). unfold sshbuf_get_string_direct.
  destruct (peek_string_dec b1 H1) as (p1 & -> & Hp1).
  destruct (peek_string_dec b2 H2) as (p2 & -> & Hp2). rewrite <- Hc in Hp2 |- *.
  destruct (dec_string (contents b1)) as [[r s] len]. cbn in *.
  destruct (r <? 0); [do 6 eexists; done|].
  pose proof (consume_eq b1 b2 (u64 (len + 4)) H1 H2 Hc) as He.
  destruct (sshbuf_consume b1 _) as [r1 b1'], (sshbuf_consume b2 _) as [r2 b2'].
  destruct He as (Hr & Hc' & ? & ?); [apply Z.mod_pos_bound; lia|]. cbn in *. subst r2.
  destruct (negb (r1 =? 0)); do 6 eexists; (split; [done|split; [done|]]);
    (split; [congruence|done]).
Qed.

Lemma get_field_eq w b1 b2 k :
  same_data b1 b2 ->
  exists r f b1' b2' w',
    get_field w b1 k = (r, f, b1', w') /\ get_field w b2 k = (r, f, b2', w') /\
    same_data b1' b2'.
Proof.
  intros Hd.
  assert (Hfix : forall (f : list Z -> Z) n (g : Z -> field),
    (forall p q, (n <= length p)%nat -> f (p ++ q) = f p) ->
    exists r v b1' b2' w',
      (let '(r, v, b) := get_fixed f n b1 in (r, g <$> v, b, w)) = (r, v, b1', w') /\
      (let '(r, v, b) := get_fixed f n b2 in (r, g <$> v, b, w)) = (r, v, b2', w') /\
      same_data b1' b2').
  { intros f n g Hf. pose proof (get_fixed_eq f n b1 b2 Hd Hf) as [He Hs].
    destruct (get_fixed f n b1) as [[r1 v1] b1'], (get_fixed f n b2) as [[r2 v2] b2'].
    cbn in *. simplify_eq. do 5 eexists; done. }
  pose proof Hd as (H1 & H2 & Hc).
  destruct k; cbn [get_field].
  - apply (Hfix (fun p => at_ p 0) 1%nat F_u8), at_0_app.
  - apply (Hfix PEEK_U16 2%nat F_u16), PEEK_U16_app.
  - apply (Hfix PEEK_U32 4%nat F_u32), PEEK_U32_app.
  - apply (Hfix PEEK_U64 8%nat F_u64), PEEK_U64_app.
  - unfold sshbuf_get_string.
    destruct (get_string_direct_eq b1 b2 Hd) as (r & p1 & p2 & len & b1' & b2' & -> & -> & Hp & Hs).
    rewrite Hp. destruct (r <? 0); [do 5 eexists; done|].
    destruct (malloc w) as [[] w1]; do 5 eexists; done.
  - unfold sshbuf_get_cstring, memchr.
    destruct (peek_string_dec b1 H1) as (p1 & -> & Hp1).
    destruct (peek_string_dec b2 H2) as (p2 & -> & Hp2). rewrite <- Hc in Hp2 |- *.
    destruct (dec_string (contents b1)) as [[r s] len]. cbn [fst snd] in *.
    rewrite Hp1, Hp2. destruct (negb (r =? 0)); [do 5 eexists; done|].
    destruct (_ && _); [do 5 eexists; done|]. unfold sshbuf_skip_string.
    destruct (get_string_direct_eq b1 b2 Hd) as (r' & q1 & q2 & len' & b1' & b2' & -> & -> & Hq & Hs).
    destruct (negb (r' =? 0)); [do 5 eexists; done|].
    destruct (malloc w) as [[] w1]; do 5 eexists; done.
  - unfold sshbuf_get_bignum2_bytes_direct.
    destruct (peek_string_dec b1 H1) as (p1 & -> & Hp1).
    destruct (peek_string_dec b2 H2) as (p2 & -> & Hp2). rewrite <- Hc in Hp2 |- *.
    destruct (dec_string (contents b1)) as [[r s] len]. cbn [fst snd] in *.
    rewrite Hp1, Hp2. destruct (r <? 0); [do 5 eexists; done|].
    destruct (_ && _); [do 5 eexists; done|]. destruct (_ || _); [do 5 eexists; done|].
    pose proof (consume_eq b1 b2 (u64 (len + 4)) H1 H2 Hc) as He.
    destruct (sshbuf_consume b1 _) as [r1 b1'], (sshbuf_consume b2 _) as [r2 b2'].
    destruct He as (Hr & Hc' & ? & ?); [apply Z.mod_pos_bound; lia|]. cbn in *. subst r2.
    destruct (negb (r1 =? 0)); do 5 eexists; done.
Qed.

(** C30: No over-read.  Parsing a message, well formed or hostile, never depends
    on octets outside the window of the buffer: two buffers with the same
    contents and different unused room give the same codes and the same values,
    field by field, and leave the same contents. *)
Theorem sshbuf_no_overread (w : world) (b1 b2 : sshbuf) (ks : list kind) :
  wf b1 -> wf b2 -> contents b1 = contents b2 ->
  exists r fs b1' b2' w',
    get_fields w b1 ks = (r, fs, b1', w') /\ get_fields w b2 ks = (r, fs, b2', w') /\
    wf b1' /\ wf b2' /\ contents b1' = contents b2'.
Proof.
  intros H1 H2 Hc. assert (Hd : same_data b1 b2) by done. clear H1 H2 Hc.
  revert w b1 b2 Hd. induction ks as [|k ks IH]; intros w b1 b2 Hd; cbn [get_fields].
  { do 5 eexists. split; [done|]. split; [done|]. apply Hd. }
  destruct (get_field_eq w b1 b2 k Hd) as (r & f & b1' & b2' & w' & -> & -> & Hd').
  destruct f as [f|]; [|do 5 eexists; split; [done|]; split; [done|]; apply Hd'].
  destruct (negb (r =? 0)); [do 5 eexists; split; [done|]; split; [done|]; apply Hd'|].
  destruct (IH w' b1' b2' Hd') as (r1 & fs & c1 & c2 & w1 & -> & -> & Hd1).
  do 5 eexists. split; [done|]. split; [done|]. apply Hd1.
Qed.

Lemma sshbuf_no_overread_witness :
  exists b1 b2 r fs b1' b2' w',
    block b1 <> block b2 /\
    get_fields [] b1 [K_u8; K_string] = (r, fs, b1', w') /\
    get_fields [] b2 [K_u8; K_string] = (r, fs, b2', w') /\
    r = SSH_ERR_MESSAGE_INCOMPLETE.
Proof.
  set (mk slack := mk_sshbuf (Some ([9; 0; 0; 0; 3; 65; 66] ++ slack)) true 0 7 SSHBUF_SIZE_MAX 9
                     false 1 None).
  assert (H1 : wf (mk [1; 2])).
  { split; [done..|]. apply (bool_decide_unpack (Forall is_byte _)). reflexivity. }
  assert (H2 : wf (mk [3; 4])).
  { split; [done..|]. apply (bool_decide_unpack (Forall is_byte _)). reflexivity. }
  destruct (sshbuf_no_overread [] (mk [1; 2]) (mk [3; 4]) [K_u8; K_string] H1 H2 eq_refl)
    as (r & fs & b1' & b2' & w' & E1 & E2 & _).
  exists (mk [1; 2]), (mk [3; 4]), r, fs, b1', b2', w'. split; [done|].
  split; [done|]. split; [done|]. vm_compute in E1. by injection E1.
Defined.
