(* ===== verification/SshbufShare.v ===== *)
(** Sharing of a block between buffers: the parent and child buffers of
    sshbuf.c and [sshbuf_froms].

    A child made by [sshbuf_fromb] or [sshbuf_froms] is read-only and points
    into the block of its parent; the parent counts its children.  The model of
    a child carries the octets it points at; the last part of the file proves
    that this is right: as long as a child lives, nothing that can be done to
    its parent changes or frees those octets. *)

From stdpp Require Import base list numbers tactics.
From Stdlib Require Import ZArith Lia ZifyBool.
From S2P Require Import Prelude Sshbuf SshbufGetput SshbufThms.

(** [pid] names the parent. *)
Definition sshbuf_set_parent (child parent : sshbuf) (pid : nat) : Z * sshbuf * sshbuf :=
  let r := sshbuf_check_sanity child in
  if negb (r =? 0) then (r, child, parent)
  else
    let r := sshbuf_check_sanity parent in
    if negb (r =? 0) then (r, child, parent)
    else if match sb_parent child with Some p => negb (p =? pid)%nat | None => false end
    then (SSH_ERR_INTERNAL_ERROR, child, parent)
    else (0, set_parent child (Some pid),
          set_refcount parent (u32 (sb_refcount parent + 1))).

(** Free the first buffer of a chain [buf, buf->parent, buf->parent->parent,
    ...]; the result is the chain of the buffers that are still allocated.  The
    empty chain is the null pointer. *)
Fixpoint sshbuf_free (chain : list sshbuf) : list sshbuf :=
  match chain with
  | [] => []
  | buf :: parents =>
      (* leak on insane buffers *)
      if negb (sshbuf_check_sanity buf =? 0) then chain
      else
        let buf := set_refcount buf (sb_refcount buf - 1) in
        if sb_refcount buf >? 0 then buf :: parents
        else sshbuf_free parents
  end.

Definition sshbuf_fromb (w : world) (buf : sshbuf) (pid : nat)
  : option sshbuf * sshbuf * world :=
  if negb (sshbuf_check_sanity buf =? 0) then (None, buf, w)
  else
    match sshbuf_from w (sshbuf_ptr buf) (sshbuf_len buf) with
    | (None, w) => (None, buf, w)
    | (Some ret, w) =>
        let '(r, ret, buf) := sshbuf_set_parent ret buf pid in
        if negb (r =? 0) then (None, buf, w) else (Some ret, buf, w)
    end.

Definition sshbuf_froms (w : world) (buf : sshbuf) (pid : nat)
  : Z * option sshbuf * sshbuf * world :=
  let '(r, p, len) := sshbuf_peek_string_direct buf in
  if negb (r =? 0) then (r, None, buf, w)
  else
    match sshbuf_from w p len with
    | (None, w) => (SSH_ERR_ALLOC_FAIL, None, buf, w)
    | (Some ret, w) =>
        let '(r, buf) := sshbuf_consume buf (u64 (len + 4)) in
        if negb (r =? 0) then (r, None, buf, w) (* Shouldn't happen *)
        else
          let '(r, ret, buf) := sshbuf_set_parent ret buf pid in
          if negb (r =? 0) then (r, None, buf, w) else (0, Some ret, buf, w)
    end.

(** ** The block of a buffer with children never changes *)

Lemma maybe_pack_shared b force : writable b = false -> sshbuf_maybe_pack b force = b.
Proof.
  unfold writable, sshbuf_maybe_pack. intros H.
  destruct (sb_off b =? 0); [done|]. by destruct (sb_readonly b), (sb_refcount b >? 1).
Qed.

Lemma reserve_shared w b len r b' p w' :
  writable b = false -> sshbuf_reserve w b len = (r, b', p, w') -> r <> 0 /\ b' = b.
Proof.
  unfold writable, sshbuf_reserve, sshbuf_allocate, sshbuf_check_reserve. intros H.
  destruct (sb_readonly b || _); [|done].
  destruct (sshbuf_check_sanity b =? 0) eqn:E; cbn; [by intros [= <- <- <- <-]|].
  rewrite E. cbn. rewrite E. cbn. intros [= <- <- <- <-]. split; [lia|done].
Qed.

Lemma reserve_fill_shared w b v r b' w' :
  wf b -> writable b = false -> reserve_fill w b v = (r, b', w') -> b' = b.
Proof.
  unfold reserve_fill. intros Hwf H.
  destruct (sshbuf_reserve w b _) as [[[r1 b1] p] w1] eqn:E.
  pose proof (reserve_sign _ _ _ _ _ _ _ Hwf E ltac:(lia)).
  apply reserve_shared in E as [? ->]; [|done].
  rewrite (proj2 (Z.ltb_lt r1 0)) by lia. by intros [= <- <- <-].
Qed.

(** No operation writes, moves or frees the block of a buffer that has children
    or does not own its block. *)
Lemma run_op_shared w b op r b' w' :
  wf b -> writable b = false -> run_op w b op = (r, b', w') ->
  block b' = block b /\ sb_refcount b' = sb_refcount b /\ sb_readonly b' = sb_readonly b.
Proof.
  intros Hwf H.
  assert (Hfill : forall v, reserve_fill w b v = (r, b', w') -> 
    block b' = block b /\ sb_refcount b' = sb_refcount b /\ sb_readonly b' = sb_readonly b).
  { intros v Hr. by apply reserve_fill_shared in Hr as ->. }
  destruct op as [v|v|v|v|v|v|v|o v|n|n| |m]; cbn [run_op].
  - rewrite sshbuf_put_fill by done. apply Hfill.
  - rewrite sshbuf_put_u8_fill. apply Hfill.
  - rewrite sshbuf_put_u16_fill. apply Hfill.
  - rewrite sshbuf_put_u32_fill. apply Hfill.
  - rewrite sshbuf_put_u64_fill. apply Hfill.
  - destruct (Z.of_nat (length v) >? SSHBUF_SIZE_MAX - 4) eqn:E.
    + unfold sshbuf_put_string. rewrite E. by intros [= <- <- <-].
    + rewrite sshbuf_put_string_fill by (auto; lia). apply Hfill.
  - destruct (Z.of_nat (length v) >? SSHBUF_SIZE_MAX - 5) eqn:E.
    + unfold sshbuf_put_bignum2_bytes. rewrite E. by intros [= <- <- <-].
    + rewrite sshbuf_put_bignum2_bytes_fill by (auto; lia). apply Hfill.
  - unfold sshbuf_poke, check_woffset.
    assert (sshbuf_mutable_ptr b = None) as ->.
    { unfold sshbuf_mutable_ptr. unfold writable in H.
      destruct (sb_readonly b), (sb_refcount b >? 1); rewrite ?orb_true_r; done. }
    destruct (check_offset b true o _ =? 0) eqn:Ec; cbn; [by intros [= <- <- <-]|].
    rewrite Ec. cbn. by intros [= <- <- <-].
  - unfold sshbuf_consume. repeat case_if; cbn; by intros [= <- <- <-].
  - unfold sshbuf_consume_end. repeat case_if; cbn; by intros [= <- <- <-].
  - unfold sshbuf_reset. unfold writable in H. destruct (sb_readonly b || _); [|done].
    cbn. by intros [= <- <- <-].
  - unfold sshbuf_set_max_size. unfold writable in H.
    rewrite (wf_sane b Hwf). cbn - [Z.ltb Z.gtb].
    destruct (m =? _); [by intros [= <- <- <-]|].
    destruct (sb_readonly b || _); [|done]. cbn. by intros [= <- <- <-].
Qed.

(** ** A parent, its children and their lifetimes *)

(** A child and the offset in the block of the parent that its [cd] points at. *)
Record child := mk_child { c_at : Z; c_buf : sshbuf }.

(** [f_parent] is [None] once the parent's memory is freed; [f_held] says
    whether the caller still owns its pointer to the parent. *)
Record family := mk_family {
  f_parent : option sshbuf; f_held : bool; f_children : list child }.

(** Everything that can happen to the family: the owner of the parent makes a
    child, operates on the parent or releases it; the owner of a child reads
    from it or releases it. *)
Inductive family_step : family -> family -> Prop :=
| fs_fromb w p c p' w' cs :
    sb_refcount p < SSHBUF_REFS_MAX ->
    sshbuf_fromb w p 0 = (Some c, p', w') ->
    family_step (mk_family (Some p) true cs)
      (mk_family (Some p') true (mk_child (sb_off p) c :: cs))
| fs_froms w p c p' w' cs :
    sb_refcount p < SSHBUF_REFS_MAX ->
    sshbuf_froms w p 0 = (0, Some c, p', w') ->
    family_step (mk_family (Some p) true cs)
      (mk_family (Some p') true (mk_child (sb_off p + 4) c :: cs))
| fs_op w p op r p' w' cs :
    op_ok op -> run_op w p op = (r, p', w') ->
    family_step (mk_family (Some p) true cs) (mk_family (Some p') true cs)
| fs_child_consume p held cs1 c cs2 n r b :
    0 <= n -> sshbuf_consume (c_buf c) n = (r, b) ->
    family_step (mk_family (Some p) held (cs1 ++ c :: cs2))
      (mk_family (Some p) held (cs1 ++ mk_child (c_at c) b :: cs2))
| fs_free_parent p cs :
    family_step (mk_family (Some p) true cs) (mk_family (head (sshbuf_free [p])) false cs)
| fs_free_child p held cs1 c cs2 :
    family_step (mk_family (Some p) held (cs1 ++ c :: cs2))
      (mk_family (head (sshbuf_free [c_buf c; p])) held (cs1 ++ cs2)).

Inductive family_steps : family -> family -> Prop :=
| fss_refl f : family_steps f f
| fss_step f g h : family_steps f g -> family_step g h -> family_steps f h.

(** The child reads octets of the parent's current block. *)
Definition child_ok (p : sshbuf) (c : child) : Prop :=
  wf (c_buf c) /\ sb_readonly (c_buf c) = true /\ sb_refcount (c_buf c) = 1 /\ 0 <= c_at c /\
  block (c_buf c) =
    take (Z.to_nat (sb_alloc (c_buf c))) (drop (Z.to_nat (c_at c)) (block p)).

Definition family_ok (f : family) : Prop :=
  match f_parent f with
  | Some p =>
      wf p /\ SSHBUF_SIZE_INIT <= sb_max_size p /\
      sb_refcount p = Z.of_nat (length (f_children f)) + (if f_held f then 1 else 0) /\
      Forall (child_ok p) (f_children f)
  | None => f_held f = false /\ f_children f = []
  end.

Lemma wf_set_refcount b n : wf b -> 1 <= n <= SSHBUF_REFS_MAX -> wf (set_refcount b n).
Proof.
  intros [H ? ? ?] ?. split; [|done..].
  rewrite check_sanity_0 in H |- *. cbn. destruct_and?. split_and?; auto; lia.
Qed.

Lemma wf_set_parent b p : wf b -> wf (set_parent b p).
Proof. intros [H ? ? ?]. by split. Qed.

Lemma child_ok_block p p' c : block p' = block p -> child_ok p c -> child_ok p' c.
Proof. unfold child_ok. by intros ->. Qed.

(** A fresh child shows the octets from offset [o] of the parent. *)
Lemma from_child_ok w p len o c w1 :
  0 <= o -> 0 <= len -> (Z.to_nat o + Z.to_nat len <= length (block p))%nat -> bytes_ok (block p) ->
  sshbuf_from w (Some (drop (Z.to_nat o) (block p))) len = (Some c, w1) ->
  child_ok p (mk_child o (set_parent c (Some 0%nat))) /\ sshbuf_check_sanity c = 0 /\
  sb_parent c = None.
Proof.
  intros Ho Hl Hr Hb E. pose proof E as E0.
  apply sshbuf_from_spec in E0 as (Hwf & _ & _ & Href & Hp);
    [|rewrite length_drop; lia|by apply bytes_ok_drop].
  split; [|split; [apply Hwf|done]].
  unfold sshbuf_from in E. destruct (len >? _); [done|]. destruct (malloc w) as [[] ?]; [|done].
  cbn in E. injection E as <- <-. split; [by apply wf_set_parent|]. done.
Qed.

Lemma fromb_spec w p c p' w' :
  wf p -> sb_refcount p < SSHBUF_REFS_MAX -> sshbuf_fromb w p 0 = (Some c, p', w') ->
  p' = set_refcount p (sb_refcount p + 1) /\ child_ok p (mk_child (sb_off p) c).
Proof.
  intros Hwf Href. unfold sshbuf_fromb. rewrite (wf_sane p Hwf). cbn [Z.eqb negb].
  pose proof (wf_bounds p Hwf) as Hb. pose proof (wf_len p Hwf) as Hl.
  unfold sshbuf_ptr, sshbuf_len. rewrite (wf_sane p Hwf). cbn [Z.eqb negb].
  destruct (sshbuf_from w _ _) as [[c0|] w1] eqn:E; [|done].
  apply (from_child_ok w p) in E as (Hok & Hs & Hp); [|lia..|apply Hwf].
  unfold sshbuf_set_parent. rewrite Hs, (wf_sane p Hwf), Hp. cbn. intros [= <- <- <-].
  split; [|done]. unfold u32. rewrite Z.mod_small; [done|].
  pose proof (wf_sane p Hwf) as H. rewrite check_sanity_0 in H. unfold SSHBUF_REFS_MAX in *. lia.
Qed.

Lemma froms_spec w p c p' w' :
  wf p -> sb_refcount p < SSHBUF_REFS_MAX -> sshbuf_froms w p 0 = (0, Some c, p', w') ->
  (exists p1, wf p1 /\ same_frame p p1 /\ block p1 = block p /\
     p' = set_refcount p1 (sb_refcount p + 1)) /\
  child_ok p (mk_child (sb_off p + 4) c).
Proof.
  intros Hwf Href. unfold sshbuf_froms.
  pose proof (peek_string_spec p Hwf) as Hpk. cbn zeta in Hpk.
  pose proof (wf_bounds p Hwf) as Hb. pose proof (wf_len p Hwf) as Hl.
  pose proof (length_contents p Hwf) as Hlc. pose proof (contents_bound p Hwf) as Hcb.
  destruct (length (contents p) <? 4)%nat eqn:E4; [by rewrite Hpk|].
  destruct (_ >? _); [by rewrite Hpk|]. destruct (_ <? _); [by rewrite Hpk|].
  destruct Hpk as (sl & Hpk & Hlen). pose proof Hpk as Hpk2.
  unfold sshbuf_peek_string_direct, sshbuf_ptr in Hpk2. rewrite (wf_sane p Hwf) in Hpk2.
  cbn [Z.eqb negb default id] in Hpk2.
  destruct (_ <? 4); [done|]. destruct (_ >? _); [done|]. destruct (_ <? _); [done|].
  injection Hpk2 as Hptr _. rewrite Hpk, <- Hptr. cbn [Z.eqb negb]. set (len := PEEK_U32 _) in *.
  rewrite drop_drop. replace (Z.to_nat (sb_off p) + 4)%nat with (Z.to_nat (sb_off p + 4)) by lia.
  destruct (sshbuf_from w _ _) as [[c0|] w1] eqn:E; [|done].
  apply (from_child_ok w p) in E as (Hok & Hs & Hp); [|lia..|apply Hwf].
  destruct (sshbuf_consume p _) as [r1 p1] eqn:Ec. pose proof Ec as Ec0.
  apply consume_spec in Ec as (Hwf1 & Hf & _); [|done|apply Z.mod_pos_bound; lia].
  destruct (negb (r1 =? 0)); [by intros [= -> ? ?]|].
  unfold sshbuf_set_parent. rewrite Hs, (wf_sane p1 Hwf1), Hp. cbn. intros [= <- <- <-].
  split; [|done]. exists p1. split; [done|]. split; [done|]. split.
  - unfold sshbuf_consume in Ec0. repeat case_if; by injection Ec0 as <- <-.
  - destruct Hf as (_ & _ & -> & _). unfold u32. rewrite Z.mod_small; [done|].
    pose proof (wf_sane p Hwf) as H. rewrite check_sanity_0 in H. unfold SSHBUF_REFS_MAX in *. lia.
Qed.

(** Dropping one reference. *)
Lemma free_one p :
  wf p ->
  sshbuf_free [p] =
    if sb_refcount p >? 1 then [set_refcount p (sb_refcount p - 1)] else [].
Proof.
  intros Hwf. cbn. rewrite (wf_sane p Hwf). cbn - [Z.gtb]. repeat case_if; try done; lia.
Qed.

Lemma free_child p c :
  child_ok p c -> sshbuf_free [c_buf c; p] = sshbuf_free [p].
Proof.
  intros (Hwf & _ & Hr & _). cbn [sshbuf_free]. rewrite (wf_sane _ Hwf).
  cbn - [sshbuf_check_sanity]. by rewrite Hr.
Qed.

Lemma family_ok_drop_ref p (held : bool) cs :
  wf p -> SSHBUF_SIZE_INIT <= sb_max_size p -> Forall (child_ok p) cs ->
  sb_refcount p = Z.of_nat (length cs) + (if held then 1 else 0) + 1 ->
  family_ok (mk_family (head (sshbuf_free [p])) held cs).
Proof.
  intros Hwf Hmax Hcs Hr. rewrite free_one by done.
  pose proof (wf_sane p Hwf) as H. rewrite check_sanity_0 in H.
  destruct (sb_refcount p >? 1) eqn:E; cbn.
  - split; [apply wf_set_refcount; [done|]|]; [lia|]. split; [done|]. split; [lia|].
    eapply Forall_impl; [|exact Hcs]. intros c. by apply child_ok_block.
  - destruct held, cs; cbn in Hr; try lia. done.
Qed.

(** No operation on one buffer touches the reference count. *)
Lemma run_op_refcount w b op r b' w' :
  wf b -> SSHBUF_SIZE_INIT <= sb_max_size b -> op_ok op ->
  run_op w b op = (r, b', w') -> sb_refcount b' = sb_refcount b.
Proof.
  intros Hwf Hmax Hok.
  assert (Hfill : forall v, bytes_ok v -> reserve_fill w b v = (r, b', w') ->
    sb_refcount b' = sb_refcount b).
  { intros v Hv E. apply reserve_fill_spec in E as (_ & (_ & _ & ? & _) & _); done. }
  destruct op as [v|v|v|v|v|v|v|o v|n|n| |m]; cbn [run_op op_ok] in *.
  - rewrite sshbuf_put_fill by done. by apply Hfill.
  - rewrite sshbuf_put_u8_fill. apply Hfill. constructor; [unfold u8, is_byte; dm_lia|done].
  - rewrite sshbuf_put_u16_fill. apply Hfill. auto with sshdb.
  - rewrite sshbuf_put_u32_fill. apply Hfill. auto with sshdb.
  - rewrite sshbuf_put_u64_fill. apply Hfill. auto with sshdb.
  - destruct (Z.of_nat (length v) >? SSHBUF_SIZE_MAX - 4) eqn:E.
    + unfold sshbuf_put_string. rewrite E. by intros [= <- <- <-].
    + rewrite sshbuf_put_string_fill by (auto; lia). apply Hfill. auto with sshdb.
  - destruct (Z.of_nat (length v) >? SSHBUF_SIZE_MAX - 5) eqn:E.
    + unfold sshbuf_put_bignum2_bytes. rewrite E. by intros [= <- <- <-].
    + rewrite sshbuf_put_bignum2_bytes_fill by (auto; lia). apply Hfill. auto with sshdb.
  - destruct (sshbuf_poke b o v _) as [r1 b1] eqn:E. intros [= <- <- <-].
    apply poke_spec in E as (_ & (_ & _ & ? & _) & _); tauto.
  - destruct (sshbuf_consume b n) as [r1 b1] eqn:E. intros [= <- <- <-].
    apply consume_spec in E as (_ & (_ & _ & ? & _) & _); [done..|lia].
  - destruct (sshbuf_consume_end b n) as [r1 b1] eqn:E. intros [= <- <- <-].
    apply consume_end_spec in E as (_ & (_ & _ & ? & _) & _); [done..|lia].
  - destruct (sshbuf_reset w b) as [b1 w1] eqn:E. intros [= <- <- <-].
    by apply sshbuf_reset_spec in E as (_ & _ & (_ & _ & ? & _) & _).
  - unfold sshbuf_set_max_size. rewrite (wf_sane b Hwf). cbn - [Z.ltb Z.gtb].
    pose proof (maybe_pack_spec b (m <? sb_size b) Hwf) as (_ & _ & (_ & _ & Hr & _) & _).
    destruct (m =? _); [by intros [= <- <- <-]|].
    destruct (sb_readonly b || _); [by intros [= <- <- <-]|].
    destruct (m >? _); [by intros [= <- <- <-]|].
    revert Hr. generalize (sshbuf_maybe_pack b (m <? sb_size b)). intros b1 Hr.
    destruct ((m <? sb_alloc b1) && _); cbn - [Z.ltb];
      [|destruct (m <? sb_alloc b1); by intros [= <- <- <-]].
    destruct (recallocarray _ _ _ _ _) as [[dp|] w1]; cbn - [Z.ltb];
      [destruct (m <? _)|]; by intros [= <- <- <-].
Qed.

Lemma Forall_replace {A} (P : A -> Prop) l1 x y l2 :
  P y -> Forall P (l1 ++ x :: l2) -> Forall P (l1 ++ y :: l2).
Proof. rewrite !Forall_app. intros ? [? H]. inversion H. auto. Qed.

Lemma family_step_ok f g : family_step f g -> family_ok f -> family_ok g.
Proof.
  intros Hst Hok. destruct Hst as
    [w p c p' w' cs Href E|w p c p' w' cs Href E|w p op r p' w' cs Hop E
    |p held cs1 c cs2 n r b Hn E|p cs|p held cs1 c cs2];
    destruct Hok as (Hwf & Hmax & Hrc & Hcs); cbn [f_children f_held] in Hrc, Hcs.
  - apply fromb_spec in E as (-> & Hc); [|done..].
    pose proof (wf_sane p Hwf) as Hs. rewrite check_sanity_0 in Hs.
    split; [apply wf_set_refcount; [done|lia]|]. cbn. split; [done|]. split; [lia|].
    constructor; [done|]. eapply Forall_impl; [|exact Hcs]. intros d. by apply child_ok_block.
  - apply froms_spec in E as ((p1 & Hwf1 & Hf & Hb & ->) & Hc); [|done..].
    pose proof (wf_sane p Hwf) as Hs. rewrite check_sanity_0 in Hs.
    split; [apply wf_set_refcount; [done|lia]|]. cbn. destruct Hf as (Hm & _).
    split; [by rewrite Hm|]. split; [lia|].
    constructor; [|eapply Forall_impl; [|exact Hcs]; intros d];
      apply (child_ok_block p); done.
  - pose proof E as E0. apply run_op_spec in E0 as (Hwf' & Hmax' & _); [|done..].
    split; [done|]. split; [done|].
    rewrite (run_op_refcount _ _ _ _ _ _ Hwf Hmax Hop E). split; [done|]. cbn.
    destruct cs as [|c cs]; [constructor|].
    apply run_op_shared in E as (Hb & _); [|done|].
    + eapply Forall_impl; [|exact Hcs]. intros d. by apply child_ok_block.
    + unfold writable. cbn [length] in Hrc. destruct (sb_readonly p); [done|]. cbn. lia.
  - split; [done|]. split; [done|]. split; [cbn; rewrite length_app in *; exact Hrc|]. cbn.
    apply (Forall_replace _ _ c); [|done].
    apply Forall_app in Hcs as [_ Hcs]. inversion Hcs as [|? ? Hc _]; subst.
    destruct Hc as (Hwfc & Hro & Href & Hat & Hbl). pose proof E as E0.
    apply consume_spec in E as (Hwfb & (_ & Hro' & Href' & _) & _); [|done..].
    split; [done|]. cbn. split; [congruence|]. split; [congruence|]. split; [done|].
    unfold sshbuf_consume in E0. repeat case_if; injection E0 as <- <-; done.
  - apply family_ok_drop_ref; [done..|]. lia.
  - pose proof Hcs as Hcs0. apply Forall_app in Hcs as [Hcs1 Hcs].
    inversion Hcs as [|? ? Hc Hcs2]; subst. rewrite free_child by done.
    apply family_ok_drop_ref; [done..|by apply Forall_app|].
    rewrite length_app in *. cbn [length] in Hrc. lia.
Qed.


