(* ===== verification/SshbufRead.v ===== *)
(** Reading through a buffer, with memory that lasts: each function of
    sshbuf-getput-basic.c on the octets of the value it is to read, the children
    that share a buffer's memory while they are read, and C strings. *)

From stdpp Require Import base list numbers tactics.
From Stdlib Require Import ZArith Lia ZifyBool.
From S2P Require Import Prelude Sshbuf SshbufGetput SshbufShare.

(** The characters of a C string. *)
Fixpoint c_string (p : list Z) : list Z :=
  match p with
  | [] => []
  | c :: p => if c =? 0 then [] else c :: c_string p
  end.

(** Frees a child buffer, which releases its parent. *)
Definition release (child parent : sshbuf) : sshbuf :=
  match sshbuf_free [child; parent] with
  | p :: _ => p
  | [] => parent
  end.

Definition release_opt (child : option sshbuf) (parent : sshbuf) : sshbuf :=
  match child with Some c => release c parent | None => parent end.

(** ** Buffers being read *)

(** [b] has [n] references and still holds [rest]. *)
Definition reading (n : Z) (b : sshbuf) (rest : list Z) : Prop :=
  wf b /\ contents b = rest /\ sb_refcount b = n.

Lemma reading_took n b rest b' rest' :
  reading n b rest -> wf b' /\ contents b' = rest' /\ same_frame b b' -> reading n b' rest'.
Proof. intros (_ & _ & Hr) (? & ? & (_ & _ & E & _)). split_and!; [done..|congruence]. Qed.

Lemma read_u8 n b v rest :
  reading n b ([v] ++ rest) -> exists b', sshbuf_get_u8 b = (0, Some v, b') /\ reading n b' rest.
Proof.
  intros H. destruct (get_u8_read b v rest) as (b' & E & ?); [apply H..|].
  exists b'. split; [done|]. by eapply reading_took.
Qed.

Lemma read_u32 n b v rest :
  reading n b (POKE_U32 v ++ rest) -> 0 <= v < 2 ^ 32 ->
  exists b', sshbuf_get_u32 b = (0, Some v, b') /\ reading n b' rest.
Proof.
  intros H Hv. destruct (get_u32_read b v rest) as (b' & E & ?); [apply H|done|apply H|].
  exists b'. split; [done|]. by eapply reading_took.
Qed.

Lemma read_u64 n b v rest :
  reading n b (POKE_U64 v ++ rest) -> 0 <= v < 2 ^ 64 ->
  exists b', sshbuf_get_u64 b = (0, Some v, b') /\ reading n b' rest.
Proof.
  intros H Hv. destruct (get_u64_read b v rest) as (b' & E & ?); [apply H|done|apply H|].
  exists b'. split; [done|]. by eapply reading_took.
Qed.

Lemma read_skip n b s rest :
  reading n b (enc_string s ++ rest) ->
  exists b', sshbuf_skip_string b = (0, b') /\ reading n b' rest.
Proof.
  intros H. destruct (skip_string_read b s rest) as (b' & E & ?); [apply H..|].
  exists b'. split; [done|]. by eapply reading_took.
Qed.

Lemma read_direct n b s rest :
  reading n b (enc_string s ++ rest) ->
  exists slack b', sshbuf_get_string_direct b = (0, Some (s ++ slack), Z.of_nat (length s), b') /\
    reading n b' rest.
Proof.
  intros H. destruct (get_string_direct_read b s rest) as (sl & b' & E & ?); [apply H..|].
  exists sl, b'. split; [done|]. by eapply reading_took.
Qed.

Lemma read_string n b s rest :
  reading n b (enc_string s ++ rest) ->
  exists b', sshbuf_get_string [] b = (0, Some (s ++ [0]), Z.of_nat (length s), b', []) /\
    reading n b' rest.
Proof.
  intros H. destruct (get_string_read [] b s rest) as (b' & E & ?); [apply H..|done|].
  exists b'. split; [done|]. by eapply reading_took.
Qed.

Lemma read_cstring n b s rest :
  reading n b (enc_string s ++ rest) -> 0 ∉ s ->
  exists b', sshbuf_get_cstring [] b = (0, Some (s ++ [0]), Z.of_nat (length s), b', []) /\
    reading n b' rest.
Proof.
  intros H Hs. destruct (get_cstring_read [] b s rest) as (b' & E & ?); [apply H..|done|done|].
  exists b'. split; [done|]. by eapply reading_took.
Qed.

Lemma read_len n b rest : reading n b rest -> sshbuf_len b = Z.of_nat (length rest).
Proof. intros (Hwf & <- & _). by apply sshbuf_len_contents. Qed.

Lemma c_string_text s : 0 ∉ s -> c_string (s ++ [0]) = s.
Proof.
  induction s as [|x s IH]; intros H; [done|]. cbn. destruct (Z.eqb_spec x 0) as [->|].
  - destruct H. left.
  - f_equal. apply IH. intros ?. apply H. by right.
Qed.

(** A new child of [b] shows [s]; [b] gains a reference. *)
Lemma child_of b s slack pid rest :
  bytes_ok s -> Z.of_nat (length s) <= SSHBUF_SIZE_MAX -> reading 1 b rest ->
  exists c0 c b', sshbuf_from [] (Some (s ++ slack)) (Z.of_nat (length s)) = (Some c0, []) /\
    sshbuf_set_parent c0 b pid = (0, c, b') /\ reading 1 c s /\ reading 2 b' rest.
Proof.
  intros Hs Hl (Hwf & Hc & Hr).
  destruct (sshbuf_from [] (Some s) (Z.of_nat (length s))) as [[c0|] w] eqn:E.
  2:{ unfold sshbuf_from in E. destruct (_ >? _) eqn:El; [lia|done]. }
  assert (w = []) as -> by (unfold sshbuf_from in E; destruct (_ >? _); [done|]; by injection E).
  exists c0, (set_parent c0 (Some pid)), (set_refcount b 2).
  split.
  { etransitivity; [|exact E]. unfold sshbuf_from. by rewrite Nat2Z.id, take_app_length, firstn_all. }
  apply sshbuf_from_spec in E as (Hwc & Hcc & _ & Href & Hp); [|lia|done].
  rewrite Nat2Z.id, firstn_all in Hcc. split.
  { unfold sshbuf_set_parent. by rewrite (wf_sane _ Hwc), (wf_sane _ Hwf), Hp, Hr. }
  split; [|by split_and!; [apply wf_set_refcount| |]].
  split_and!; [by apply wf_set_parent|done..].
Qed.

(** A string becomes a child buffer. *)
Lemma read_froms b s rest pid :
  reading 1 b (enc_string s ++ rest) ->
  exists c b', sshbuf_froms [] b pid = (0, Some c, b', []) /\ reading 1 c s /\ reading 2 b' rest.
Proof.
  intros H. pose proof H as (Hwf & Hc & Hr). unfold sshbuf_froms.
  destruct (peek_string_read b s rest Hwf Hc) as [slack ->]. cbn [Z.eqb negb].
  pose proof (contents_bound b Hwf) as Hb. rewrite Hc, length_app, length_enc_string in Hb.
  pose proof (bytes_ok_contents b Hwf) as Hcb.
  rewrite Hc in Hcb. apply bytes_ok_app in Hcb as [Hes Hrest]. apply bytes_ok_app in Hes as [_ Hs].
  destruct (consume_took b (4 + length s) Hwf) as (b1 & E1 & Hw1 & Hc1 & Hf1).
  { rewrite Hc, length_app, length_enc_string. lia. }
  assert (H1 : reading 1 b1 rest).
  { eapply reading_took; [exact H|]. split_and!; [done| |done].
    rewrite Hc, <- (length_enc_string s), take_app_length in Hc1. by apply app_inv_head in Hc1. }
  destruct (child_of b1 s (rest ++ slack) pid rest) as (c0 & c & b' & -> & E3 & ?); [done|lia|done|].
  unfold u64. rewrite Z.mod_small by (unfold SSHBUF_SIZE_MAX in *; lia).
  replace (Z.of_nat (length s) + 4) with (Z.of_nat (4 + length s)) by lia.
  rewrite E1. cbn [Z.eqb negb]. rewrite E3. cbn [Z.eqb negb]. by exists c, b'.
Qed.

Lemma release_reading c s b rest :
  reading 1 c s -> reading 2 b rest -> reading 1 (release c b) rest.
Proof.
  intros (Hc & _ & Hrc) (Hb & Hcb & Hrb). unfold release. cbn [sshbuf_free].
  rewrite (wf_sane _ Hc). cbn [Z.eqb negb]. cbn [sb_refcount set_refcount]. rewrite Hrc.
  cbn [Z.sub Z.add Z.opp Z.pos_sub Z.gtb Z.compare]. rewrite (wf_sane _ Hb). cbn [Z.eqb negb].
  cbn [sb_refcount set_refcount]. rewrite Hrb. split_and!; [by apply wf_set_refcount|done..].
Qed.

(** A whole buffer becomes the child's. *)
Lemma read_fromb b rest pid :
  reading 1 b rest ->
  exists c b', sshbuf_fromb [] b pid = (Some c, b', []) /\ reading 1 c rest /\ reading 2 b' rest.
Proof.
  intros H. pose proof H as (Hwf & Hc & Hr). unfold sshbuf_fromb. rewrite (wf_sane _ Hwf).
  cbn [Z.eqb negb]. destruct (sshbuf_ptr_spec b Hwf) as [slack ->]. rewrite Hc, (read_len _ _ _ H).
  pose proof (contents_bound b Hwf) as Hb. rewrite Hc in Hb.
  destruct (child_of b rest slack pid rest) as (c0 & c & b' & -> & E & ?).
  - rewrite <- Hc. by apply bytes_ok_contents.
  - lia.
  - done.
  - rewrite E. cbn [Z.eqb negb]. by exists c, b'.
Qed.
