(* ===== verification/SshbufMisc.v ===== *)
(** Helpers on whole buffers of sshbuf-misc.c: comparison, search and copies as
    C strings. *)

From stdpp Require Import base list numbers tactics.
From Stdlib Require Import ZArith Lia ZifyBool.
From S2P Require Import Prelude Sshbuf SshbufGetput.

Definition sshbuf_cmp (b : sshbuf) (offset : Z) (s : list Z) (len : Z) : Z :=
  match sshbuf_ptr b with
  | None => SSH_ERR_INTERNAL_ERROR
  | Some p =>
      if (offset >? SSHBUF_SIZE_MAX) || (len >? SSHBUF_SIZE_MAX) || (len =? 0)
      then SSH_ERR_INVALID_ARGUMENT
      else if offset + len >? sshbuf_len b then SSH_ERR_MESSAGE_INCOMPLETE
      else if negb (timingsafe_bcmp (drop (Z.to_nat offset) p) s (Z.to_nat len) =? 0)
      then SSH_ERR_INVALID_FORMAT
      else 0
  end.
