(* ===== verification/Bitmap.v ===== *)
(** The growable bit set of bitmap.c.

    A [struct bitmap] is an array of 32-bit words, least significant word
    first, with the index [top] of the highest word that may be non-zero.  The
    file models every function of bitmap.c, gives a bitmap its meaning as the
    natural number [bm_value] whose binary digits are the members of the set,
    and shows that each operation does to that number what its name says. *)

From stdpp Require Import base list numbers tactics gmap.
From Stdlib Require Import ZArith Lia ZifyBool.
From S2P Require Import Prelude.

Definition BITMAP_MAX : Z := Z.shiftl 1 24.
Definition BITMAP_BYTES : Z := 4.
Definition BITMAP_BITS : Z := BITMAP_BYTES * 8.
Definition BITMAP_WMASK : Z := BITMAP_BITS - 1.

Record bitmap := mk_bitmap { bm_d : list Z; bm_len : Z; bm_top : Z }.

(** [b->d[i]] *)
Definition word (d : list Z) (i : Z) : Z := default 0 (d !! Z.to_nat i).

Definition set_word (d : list Z) (i w : Z) : list Z := <[Z.to_nat i := w]> d.

(** ** Operations *)

Definition bitmap_new (w : world) : option bitmap * world :=
  let '(ok, w) := malloc w in
  if negb ok then (None, w)
  else
    let '(ok, w) := malloc w in
    if negb ok then (None, w)
    else (Some (mk_bitmap [0] 1 0), w).

Definition bitmap_zero (b : bitmap) : bitmap :=
  mk_bitmap (replicate (Z.to_nat (bm_len b)) 0) (bm_len b) 0.

Definition bitmap_test_bit (b : bitmap) (n : Z) : Z :=
  if bm_top b >=? bm_len b then 0 (* invalid *)
  else if (bm_len b =? 0) || (n / BITMAP_BITS >? bm_top b) then 0
  else Z.land (Z.shiftr (word (bm_d b) (n / BITMAP_BITS)) (Z.land n BITMAP_WMASK)) 1.

Definition reserve (w : world) (b : bitmap) (n : Z) : Z * bitmap * world :=
  if (bm_top b >=? bm_len b) || (n >? BITMAP_MAX) then (-1, b, w) (* invalid *)
  else
    let nlen := n / BITMAP_BITS + 1 in
    if bm_len b <? nlen then
      match recallocarray w (bm_d b) (bm_len b) nlen BITMAP_BYTES with
      | (None, w) => (-1, b, w)
      | (Some tmp, w) => (0, mk_bitmap tmp nlen (bm_top b), w)
      end
    else (0, b, w).

Definition bitmap_set_bit (w : world) (b : bitmap) (n : Z) : Z * bitmap * world :=
  let '(r, b, w) := reserve w b n in
  if negb (r =? 0) then (r, b, w)
  else
    let offset := n / BITMAP_BITS in
    let top := if offset >? bm_top b then offset else bm_top b in
    let d := set_word (bm_d b) offset
               (Z.lor (word (bm_d b) offset) (u32 (Z.shiftl 1 (Z.land n BITMAP_WMASK)))) in
    (0, mk_bitmap d (bm_len b) top, w).

(** The [while] of [retop] counts [top] down to zero at most. *)
Fixpoint retop_loop (d : list Z) (top : nat) : nat :=
  match top with
  | O => O
  | S top' => if word d (Z.of_nat top) =? 0 then retop_loop d top' else top
  end.

Definition retop (b : bitmap) : bitmap :=
  if bm_top b >=? bm_len b then b
  else mk_bitmap (bm_d b) (bm_len b) (Z.of_nat (retop_loop (bm_d b) (Z.to_nat (bm_top b)))).

Definition bitmap_clear_bit (b : bitmap) (n : Z) : bitmap :=
  if (bm_top b >=? bm_len b) || (n >? BITMAP_MAX) then b (* invalid *)
  else
    let offset := n / BITMAP_BITS in
    if offset >? bm_top b then b
    else
      let d := set_word (bm_d b) offset
                 (Z.land (word (bm_d b) offset)
                    (u32 (Z.lnot (u32 (Z.shiftl 1 (Z.land n BITMAP_WMASK)))))) in
      (* The top may have changed as a result of the clear *)
      retop (mk_bitmap d (bm_len b) (bm_top b)).

(** The [while] of [bitmap_nbits] shifts a 32-bit word left until its top bit
    is set; [fuel] counts the shifts, 32 being more than a non-zero word needs. *)
Fixpoint msb_loop (fuel : nat) (w bits : Z) : Z :=
  match fuel with
  | O => bits
  | S fuel' =>
      if Z.land w (u32 (Z.shiftl 1 (BITMAP_BITS - 1))) =? 0
      then msb_loop fuel' (u32 (Z.shiftl w 1)) (bits - 1)
      else bits
  end.

Definition bitmap_nbits (b : bitmap) : Z * bitmap :=
  let b := retop b in
  if bm_top b >=? bm_len b then (0, b) (* invalid *)
  else if (bm_len b =? 0) || ((bm_top b =? 0) && (word (bm_d b) 0 =? 0)) then (0, b)
  else
    (* Find MSB set *)
    let w := word (bm_d b) (bm_top b) in
    let bits := (bm_top b + 1) * BITMAP_BITS in
    (msb_loop 32 w bits, b).

Definition bitmap_nbytes (b : bitmap) : Z * bitmap :=
  let '(n, b) := bitmap_nbits b in ((n + 7) / 8, b).

(** The inner loop of [bitmap_to_string] over [j], and the outer one over the
    words [d[0] .. d[top]].  [s] is the output buffer. *)
Fixpoint put_word (w : Z) (js : list Z) (k l need : Z) (s : list Z) : Z * list Z :=
  match js with
  | [] => (k, s)
  | j :: js =>
      if k >=? l then (k, s)
      else put_word w js (k + 1) l need
             (<[Z.to_nat (need - 1 - k) := Z.land (Z.shiftr w (j * 8)) 0xff]> s)
  end.

Fixpoint put_words (ws : list Z) (k l need : Z) (s : list Z) : Z * list Z :=
  match ws with
  | [] => (k, s)
  | w :: ws =>
      let '(k, s) := put_word w [0; 1; 2; 3] k l need s in put_words ws k l need s
  end.

Definition bitmap_to_string (b : bitmap) (p : list Z) (l : Z) : Z * list Z * bitmap :=
  let '(need, b) := bitmap_nbytes b in
  if (l <? need) || (bm_top b >=? bm_len b) then (-1, p, b)
  else
    let l := if l >? need then need else l in
    (* Put the bytes from LSB backwards *)
    let '(_, s) := put_words (take (Z.to_nat (bm_top b + 1)) (bm_d b)) 0 l need p in
    (0, s, b).

(** The loop of [bitmap_from_string] over the octets of [s]. *)
Fixpoint or_octets (d : list Z) (s : list Z) (offset shift : Z) : list Z :=
  match s with
  | [] => d
  | c :: s =>
      let d := set_word d offset (Z.lor (word d offset) (u32 (Z.shiftl c shift))) in
      if shift =? 0 then or_octets d s (u64 (offset - 1)) (BITMAP_BITS - 8)
      else or_octets d s offset (shift - 8)
  end.

Definition bitmap_from_string (w : world) (b : bitmap) (p : list Z) (l : Z)
  : Z * bitmap * world :=
  if l >? BITMAP_MAX / 8 then (-1, b, w)
  else
    let '(r, b, w) := reserve w b (l * 8) in
    if negb (r =? 0) then (r, b, w)
    else
      let b := bitmap_zero b in
      if l =? 0 then (0, b, w)
      else
        let top := (l + (BITMAP_BYTES - 1)) / BITMAP_BYTES - 1 in
        let shift := ((l + (BITMAP_BYTES - 1)) mod BITMAP_BYTES) * 8 in
        let d := or_octets (bm_d b) (take (Z.to_nat l) p) top shift in
        (0, retop (mk_bitmap d (bm_len b) top), w).

(** ** The number a bitmap stands for *)

Fixpoint value (d : list Z) : Z :=
  match d with
  | [] => 0
  | w :: d => w + 2 ^ 32 * value d
  end.

Definition bm_value (b : bitmap) : Z := value (bm_d b).

Abbreviation words_ok d := (Forall (fun w => 0 <= w < 2 ^ 32) d).

(** The representation invariant: [len] counts the words, [top] indexes one of
    them and the words above it are zero. *)
Record bm_wf (b : bitmap) : Prop := {
  bmwf_len : Z.of_nat (length (bm_d b)) = bm_len b;
  bmwf_top : 0 <= bm_top b < bm_len b;
  bmwf_words : words_ok (bm_d b);
  bmwf_max : bm_len b <= BITMAP_MAX / BITMAP_BITS + 1;
  bmwf_above : forall i, bm_top b < i -> word (bm_d b) i = 0
}.

(** ** Words, bits and octets of the number *)

Lemma word_range d i : words_ok d -> 0 <= word d i < 2 ^ 32.
Proof.
  intros H. unfold word. destruct (d !! Z.to_nat i) eqn:E; cbn; [|lia].
  rewrite Forall_lookup in H. by apply H in E.
Qed.

Lemma value_range d : words_ok d -> 0 <= value d < 2 ^ (32 * Z.of_nat (length d)).
Proof.
  induction 1 as [|w d Hw _ IH]; cbn [value length]; [done|].
  rewrite Nat2Z.inj_succ.
  replace (32 * Z.succ (Z.of_nat (length d))) with (32 + 32 * Z.of_nat (length d)) by lia.
  rewrite Z.pow_add_r by lia. nia.
Qed.

(** Cutting the number at a word boundary. *)
Lemma value_split d i :
  words_ok d ->
  value d mod 2 ^ (32 * Z.of_nat i) = value (take i d) /\
  value d / 2 ^ (32 * Z.of_nat i) = value (drop i d).
Proof.
  revert d. induction i as [|i IH]; intros d H.
  - cbn. rewrite Z.mod_1_r, Z.div_1_r, drop_0. done.
  - destruct H as [|w d Hw H]; [cbn [take drop value]; by rewrite Zmod_0_l, Zdiv_0_l|].
    cbn [take drop value].
    destruct (IH d H) as [<- <-].
    replace (32 * Z.of_nat (S i)) with (32 + 32 * Z.of_nat i) by lia.
    rewrite Z.pow_add_r by lia.
    rewrite Z.rem_mul_r, <- Z.div_div by lia.
    replace ((w + 2 ^ 32 * value d) / 2 ^ 32) with (value d) by dm_lia.
    replace ((w + 2 ^ 32 * value d) mod 2 ^ 32) with w by dm_lia. done.
Qed.

Lemma word_value d i :
  words_ok d -> 0 <= i -> word d i = (value d / 2 ^ (32 * i)) mod 2 ^ 32.
Proof.
  intros H Hi. pose proof (value_split d (Z.to_nat i) H) as [_ E].
  rewrite Z2Nat.id in E by done. rewrite E. unfold word. clear E.
  rewrite <- (Nat.add_0_r (Z.to_nat i)) at 1. rewrite <- lookup_drop.
  assert (Hd : words_ok (drop (Z.to_nat i) d)) by by apply Forall_drop.
  destruct Hd; cbn; [done|]. dm_lia.
Qed.

Lemma testbit_word d i n :
  words_ok d -> 0 <= i -> 0 <= n < 32 ->
  Z.testbit (word d i) n = Z.testbit (value d) (32 * i + n).
Proof.
  intros H Hi Hn. rewrite word_value by done.
  rewrite Z.mod_pow2_bits_low, Z.div_pow2_bits by lia. f_equal. lia.
Qed.

Lemma value_set_word d i w :
  0 <= i < Z.of_nat (length d) ->
  value (set_word d i w) = value d + (w - word d i) * 2 ^ (32 * i).
Proof.
  unfold set_word, word. intros Hi. remember (Z.to_nat i) as k eqn:Ek.
  replace i with (Z.of_nat k) by lia. assert (Hk : (k < length d)%nat) by lia. clear Ek Hi.
  revert k Hk. induction d as [|x d IH]; cbn; intros k Hk; [lia|].
  destruct k as [|k]; cbn [value list_insert insert].
  - cbn. lia.
  - change (value (x :: <[k:=w]> d)) with (x + 2 ^ 32 * value (<[k:=w]> d)).
    rewrite IH by lia. change ((x :: d) !! S k) with (d !! k).
    replace (32 * Z.of_nat (S k)) with (32 + 32 * Z.of_nat k) by lia.
    rewrite Z.pow_add_r by lia.
    ring.
Qed.

Lemma words_ok_set_word d i w : words_ok d -> 0 <= w < 2 ^ 32 -> words_ok (set_word d i w).
Proof. intros. by apply Forall_insert. Qed.

Lemma length_set_word d i w : length (set_word d i w) = length d.
Proof. apply length_insert. Qed.

Lemma word_set_word d i j w :
  0 <= i < Z.of_nat (length d) -> 0 <= j ->
  word (set_word d i w) j = if i =? j then w else word d j.
Proof.
  intros Hi Hj. unfold word, set_word. destruct (i =? j) eqn:E.
  - replace j with i by lia. by rewrite list_lookup_insert_eq by lia.
  - by rewrite list_lookup_insert_ne by lia.
Qed.

Lemma value_words d1 d2 :
  words_ok d1 -> words_ok d2 -> (forall i, 0 <= i -> word d1 i = word d2 i) ->
  value d1 = value d2.
Proof.
  intros H1 H2 H. apply Z.bits_inj'. intros n Hn.
  replace n with (32 * (n / 32) + n mod 32) by (rewrite <- Z.div_mod; lia).
  assert (0 <= n / 32) by dm_lia. assert (0 <= n mod 32 < 32) by dm_lia.
  rewrite <- !testbit_word by done. f_equal. by apply H.
Qed.

Lemma WMASK_mod n : Z.land n BITMAP_WMASK = n mod 32.
Proof. change BITMAP_WMASK with (Z.ones 5). by rewrite Z.land_ones. Qed.

(** ** What the operations do to the number *)

Lemma bm_wf_new w b w' : bitmap_new w = (Some b, w') -> bm_wf b /\ bm_value b = 0.
Proof.
  unfold bitmap_new. repeat case_let. repeat case_if; intros [= <- <-].
  split; [|done]. split; cbn; [done|lia|by repeat constructor|done|].
  intros i Hi. unfold word. rewrite lookup_ge_None_2; [done|]. cbn. lia.
Qed.

Lemma test_bit_value b n :
  bm_wf b -> 0 <= n -> bitmap_test_bit b n = Z.b2z (Z.testbit (bm_value b) n).
Proof.
  intros [Hl Ht Hw Hm Ha] Hn. unfold bitmap_test_bit, BITMAP_BITS, BITMAP_BYTES.
  change (4 * 8) with 32. rewrite WMASK_mod.
  assert (0 <= n / 32) by dm_lia. assert (0 <= n mod 32 < 32) by dm_lia.
  assert (E : Z.testbit (bm_value b) n = Z.testbit (word (bm_d b) (n / 32)) (n mod 32)).
  { rewrite testbit_word by done. f_equal. rewrite <- Z.div_mod; lia. }
  rewrite E. destruct (bm_top b >=? bm_len b) eqn:E1; [lia|].
  replace (bm_len b =? 0) with false by lia. cbn [orb].
  destruct (_ >? _) eqn:E2.
  - rewrite Ha by lia. by rewrite Z.bits_0.
  - change 1 with (Z.ones 1). rewrite Z.land_ones by done.
    rewrite Z.testbit_spec' by lia. by rewrite shiftr_div by lia.
Qed.

(** Growing the array adds zero words. *)
Lemma word_recallocarray w d o n l' w' :
  recallocarray w d o n 4 = (Some l', w') -> Z.of_nat (length d) = o -> o <= n ->
  forall i, word l' i = word d i.
Proof.
  unfold recallocarray. intros H <- Hn i.
  destruct (mul_overflows n 4); [done|]. destruct (mul_overflows _ 4); [done|].
  destruct (malloc w) as [[] w1]; cbn in H; [|done].
  unfold word. destruct (_ >? _) eqn:E; injection H as <- <-.
  - rewrite Nat2Z.id, firstn_all. rewrite lookup_app.
    destruct (d !! Z.to_nat i) eqn:Ei; [done|].
    destruct (replicate _ 0 !! _) eqn:R; [|done]. by apply lookup_replicate in R as [-> _].
  - rewrite take_ge by lia. done.
Qed.

Lemma reserve_spec w b n r b' w' :
  bm_wf b -> 0 <= n -> reserve w b n = (r, b', w') ->
  bm_wf b' /\ bm_value b' = bm_value b /\
  (r = 0 -> n / 32 < bm_len b' /\ n <= BITMAP_MAX).
Proof.
  intros Hwf Hn. pose proof Hwf as [Hl Ht Hw Hm Ha]. unfold reserve.
  change BITMAP_BITS with 32. change BITMAP_BYTES with 4.
  destruct (bm_top b >=? bm_len b) eqn:E1; [lia|]. cbn [orb].
  destruct (n >? BITMAP_MAX) eqn:E2; [intros [= <- <- <-]; done|].
  destruct (bm_len b <? n / 32 + 1) eqn:E3; [|intros [= <- <- <-]; split_and!; auto; lia].
  destruct (recallocarray _ _ _ _ _) as [[l'|] w1] eqn:E; intros [= <- <- <-];
    [|split_and!; auto; done].
  pose proof (word_recallocarray _ _ _ _ _ _ E Hl ltac:(lia)) as Hwd.
  apply recallocarray_Some in E as (Hlen & _ & _); [|lia..].
  assert (Hw' : words_ok l').
  { apply Forall_lookup. intros i x Hx. specialize (Hwd (Z.of_nat i)). unfold word in Hwd.
    rewrite Nat2Z.id, Hx in Hwd. cbn [default id] in Hwd. subst x.
    pose proof (word_range (bm_d b) (Z.of_nat i) Hw) as H.
    unfold word in H. by rewrite Nat2Z.id in H. }
  split; [split; cbn|split; cbn].
  - done.
  - lia.
  - done.
  - change BITMAP_BITS with 32. unfold BITMAP_MAX in *. dm_lia.
  - intros i Hi. rewrite Hwd. by apply Ha.
  - apply value_words; auto.
  - intros _. lia.
Qed.

Lemma testbit_pow2 m k : 0 <= k -> Z.testbit (2 ^ k) m = (m =? k).
Proof. intros. rewrite Z.pow2_bits_eqb by done. apply Z.eqb_sym. Qed.

Lemma bit_mask n : 0 <= n < 32 -> u32 (Z.shiftl 1 n) = 2 ^ n.
Proof.
  intros. rewrite Z.shiftl_1_l. unfold u32. apply Z.mod_small.
  split; [lia|]. apply Z.pow_lt_mono_r; lia.
Qed.

(** Rewriting one word rewrites 32 bits of the number. *)
Lemma testbit_set_word d i w m :
  words_ok d -> 0 <= w < 2 ^ 32 -> 0 <= i < Z.of_nat (length d) -> 0 <= m ->
  Z.testbit (value (set_word d i w)) m =
    if m / 32 =? i then Z.testbit w (m mod 32) else Z.testbit (value d) m.
Proof.
  intros Hd Hw Hi Hm. assert (0 <= m / 32) by dm_lia. assert (0 <= m mod 32 < 32) by dm_lia.
  assert (Em : m = 32 * (m / 32) + m mod 32) by (rewrite <- Z.div_mod; lia).
  rewrite Em at 1 4. rewrite <- !testbit_word by auto using words_ok_set_word.
  rewrite word_set_word by done. rewrite (Z.eqb_sym i). by destruct (_ =? _).
Qed.

Lemma lor_range a b : 0 <= a < 2 ^ 32 -> 0 <= b < 2 ^ 32 -> 0 <= Z.lor a b < 2 ^ 32.
Proof.
  intros. assert (0 <= Z.lor a b) by (apply Z.lor_nonneg; lia). split; [done|].
  destruct (Z.eq_dec (Z.lor a b) 0) as [->|]; [done|].
  apply Z.log2_lt_pow2; [lia|]. rewrite Z.log2_lor by lia.
  apply Z.max_lub_lt;
    [destruct (Z.eq_dec a 0) as [->|]|destruct (Z.eq_dec b 0) as [->|]];
    (done || (apply Z.log2_lt_pow2; lia)).
Qed.

Lemma land_range a b : 0 <= a < 2 ^ 32 -> 0 <= b -> 0 <= Z.land a b < 2 ^ 32.
Proof.
  intros. assert (0 <= Z.land a b) by (apply Z.land_nonneg; lia). split; [done|].
  destruct (Z.eq_dec (Z.land a b) 0) as [->|]; [done|].
  destruct (Z.eq_dec a 0) as [->|]; [by rewrite Z.land_0_l|].
  apply Z.log2_lt_pow2; [lia|]. eapply Z.le_lt_trans; [apply Z.log2_land; lia|].
  apply Z.min_lt_iff. left. apply Z.log2_lt_pow2; lia.
Qed.

Lemma mod_eqb m n : m / 32 = n / 32 -> (m mod 32 =? n mod 32) = (n =? m).
Proof. intros. apply eq_true_iff_eq. rewrite !Z.eqb_eq. dm_lia. Qed.

Lemma set_bit_spec w b n r b' w' :
  bm_wf b -> 0 <= n -> bitmap_set_bit w b n = (r, b', w') ->
  bm_wf b' /\
  (r = 0 -> n <= BITMAP_MAX /\ bm_value b' = Z.setbit (bm_value b) n) /\
  (r <> 0 -> bm_value b' = bm_value b).
Proof.
  intros Hwf Hn. unfold bitmap_set_bit. destruct (reserve w b n) as [[r1 b1] w1] eqn:E.
  apply reserve_spec in E as (Hwf1 & Hv & Hr); [|done..].
  destruct (r1 =? 0) eqn:E1; cbn [negb]; intros [= <- <- <-]; [|split_and!; auto; lia].
  assert (r1 = 0) as -> by lia. destruct (Hr eq_refl) as [Hlt Hmax].
  pose proof Hwf1 as [Hl Ht Hw Hm Ha]. change BITMAP_BITS with 32.
  rewrite WMASK_mod. assert (0 <= n / 32) by dm_lia. assert (0 <= n mod 32 < 32) by dm_lia.
  rewrite bit_mask by done.
  assert (Hwd : 0 <= Z.lor (word (bm_d b1) (n / 32)) (2 ^ (n mod 32)) < 2 ^ 32).
  { apply lor_range; [by apply word_range|]. split; [lia|]. apply Z.pow_lt_mono_r; lia. }
  split; [split; cbn|split; [|done]].
  - by rewrite length_set_word.
  - destruct (n / 32 >? bm_top b1); lia.
  - by apply words_ok_set_word.
  - done.
  - intros i Hi. rewrite word_set_word by (destruct (n / 32 >? bm_top b1) eqn:?; lia).
    destruct (n / 32 >? bm_top b1) eqn:E2; destruct (n / 32 =? i) eqn:E3; try lia;
      apply Ha; lia.
  - intros _. split; [done|]. apply Z.bits_inj'. intros m Hm'. unfold bm_value in *. cbn.
    rewrite testbit_set_word by (done || lia).
    rewrite Z.setbit_eqb, <- Hv by done. destruct (m / 32 =? n / 32) eqn:E2.
    + rewrite Z.lor_spec, testbit_pow2 by lia.
      assert (0 <= m mod 32 < 32) by dm_lia. rewrite testbit_word by done.
      replace (32 * (n / 32) + m mod 32) with m
        by (replace (n / 32) with (m / 32) by lia; rewrite <- Z.div_mod; lia).
      rewrite orb_comm. f_equal. apply mod_eqb. lia.
    + replace (n =? m) with false; [done|]. symmetry. apply Z.eqb_neq. intros ->. lia.
Qed.

(** The only way [bitmap_set_bit] fails in range is for lack of memory. *)
Lemma set_bit_ok b n :
  bm_wf b -> 0 <= n <= BITMAP_MAX -> exists b', bitmap_set_bit [] b n = (0, b', []).
Proof.
  intros Hwf Hn. pose proof Hwf as [Hl Ht Hw Hm Ha]. unfold bitmap_set_bit, reserve.
  destruct (bm_top b >=? bm_len b) eqn:E1; [lia|]. cbn [orb].
  destruct (n >? BITMAP_MAX) eqn:E2; [lia|]. change BITMAP_BITS with 32 in *.
  destruct (bm_len b <? _) eqn:E3; [|eexists; reflexivity].
  unfold recallocarray. change BITMAP_BYTES with 4.
  assert (n / 32 <= 2 ^ 20) by (change BITMAP_MAX with (2 ^ 24) in *; dm_lia).
  assert (forall k, 0 <= k <= 2 ^ 24 -> mul_overflows k 4 = false) as Hno.
  { intros k Hk. unfold mul_overflows. change MUL_NO_OVERFLOW with (2 ^ 32). lia. }
  rewrite !Hno by lia. cbn. destruct (_ * 4 >? _); eexists; reflexivity.
Qed.

Lemma retop_loop_spec d t :
  (retop_loop d t <= t)%nat /\
  (forall i, (retop_loop d t < i <= t)%nat -> word d (Z.of_nat i) = 0) /\
  (retop_loop d t = O \/ word d (Z.of_nat (retop_loop d t)) <> 0).
Proof.
  induction t as [|t (IH1 & IH2 & IH3)]; cbn [retop_loop]; [split_and!; auto; lia|].
  destruct (word d (Z.of_nat (S t)) =? 0) eqn:E; [|split_and!; [lia|lia|right; lia]].
  split_and!; [lia| |done]. intros i Hi.
  destruct (decide (i = S t)) as [->|]; [lia|]. apply IH2. lia.
Qed.

Lemma retop_spec b :
  0 <= bm_top b < bm_len b -> Z.of_nat (length (bm_d b)) = bm_len b ->
  words_ok (bm_d b) -> bm_len b <= BITMAP_MAX / BITMAP_BITS + 1 ->
  (forall i, bm_top b < i -> word (bm_d b) i = 0) ->
  bm_wf (retop b) /\ bm_d (retop b) = bm_d b /\
  (bm_top (retop b) = 0 \/ word (bm_d b) (bm_top (retop b)) <> 0).
Proof.
  intros Ht Hl Hw Hm Ha. unfold retop. replace (bm_top b >=? bm_len b) with false by lia.
  pose proof (retop_loop_spec (bm_d b) (Z.to_nat (bm_top b))) as (H1 & H2 & H3).
  split; [split; cbn|split; [done|cbn; lia]]; try done; [lia|].
  intros i Hi. destruct (decide (bm_top b < i)); [by apply Ha|].
  rewrite <- (Z2Nat.id i) by lia. apply H2. lia.
Qed.

Lemma clear_bit_spec b n :
  bm_wf b -> 0 <= n <= BITMAP_MAX ->
  bm_wf (bitmap_clear_bit b n) /\ bm_value (bitmap_clear_bit b n) = Z.clearbit (bm_value b) n.
Proof.
  intros Hwf Hn. pose proof Hwf as [Hl Ht Hw Hm Ha]. unfold bitmap_clear_bit.
  replace (bm_top b >=? bm_len b) with false by lia. replace (n >? BITMAP_MAX) with false by lia.
  cbn [orb]. change BITMAP_BITS with 32. rewrite WMASK_mod.
  assert (0 <= n / 32) by dm_lia. assert (0 <= n mod 32 < 32) by dm_lia.
  destruct (n / 32 >? bm_top b) eqn:E.
  { split; [done|]. apply Z.bits_inj'. intros m Hm'. rewrite Z.clearbit_eqb.
    destruct (n =? m) eqn:E1; [|by rewrite andb_true_r]. assert (m = n) as -> by lia.
    replace n with (32 * (n / 32) + n mod 32) at 1 by (rewrite <- Z.div_mod; lia).
    unfold bm_value. rewrite <- testbit_word by done. rewrite Ha by lia.
    by rewrite Z.bits_0, andb_false_r. }
  rewrite bit_mask by done.
  set (x := Z.land (word (bm_d b) (n / 32)) (u32 (Z.lnot (2 ^ (n mod 32))))).
  pose proof (word_range (bm_d b) (n / 32) Hw) as Hr.
  assert (Hx : 0 <= x < 2 ^ 32).
  { apply land_range; [done|]. unfold u32. apply Z.mod_pos_bound. lia. }
  assert (Hbit : forall m, 0 <= m < 32 ->
    Z.testbit x m = Z.testbit (word (bm_d b) (n / 32)) m && negb (m =? n mod 32)).
  { intros m Hm'. unfold x, u32. rewrite Z.land_spec, Z.mod_pow2_bits_low by lia.
    by rewrite Z.lnot_spec, testbit_pow2 by lia. }
  destruct (retop_spec (mk_bitmap (set_word (bm_d b) (n / 32) x) (bm_len b) (bm_top b)))
    as (Hwf' & Hd & _); cbn [bm_d bm_top bm_len];
    [lia|by rewrite length_set_word|by apply words_ok_set_word|done| |].
  { intros i Hi. rewrite word_set_word by lia. destruct (n / 32 =? i) eqn:?; [lia|by apply Ha]. }
  split; [done|]. unfold bm_value. rewrite Hd. cbn [bm_d].
  apply Z.bits_inj'. intros m Hm'. rewrite testbit_set_word by (done || lia).
  rewrite Z.clearbit_eqb. destruct (m / 32 =? n / 32) eqn:E2.
  - rewrite Hbit by dm_lia. rewrite testbit_word by (done || dm_lia).
    replace (32 * (n / 32) + m mod 32) with m
      by (replace (n / 32) with (m / 32) by lia; rewrite <- Z.div_mod; lia).
    f_equal. f_equal. apply mod_eqb. lia.
  - replace (n =? m) with false; [by rewrite andb_true_r|].
    symmetry. apply Z.eqb_neq. intros ->. lia.
Qed.

(** ** Length in bits, and the two conversions *)

Lemma msb_loop_spec fuel w bits :
  0 < w < 2 ^ 32 -> 31 - Z.log2 w < Z.of_nat fuel ->
  msb_loop fuel w bits = bits - (31 - Z.log2 w).
Proof.
  revert w bits. induction fuel as [|fuel IH]; intros w bits Hw Hf;
    pose proof (Z.log2_nonneg w);
    assert (Hlog : Z.log2 w < 32) by (apply Z.log2_lt_pow2; lia); [lia|].
  cbn [msb_loop]. change (u32 (Z.shiftl 1 (BITMAP_BITS - 1))) with (2 ^ 31).
  assert (Hbit : Z.land w (2 ^ 31) = if Z.testbit w 31 then 2 ^ 31 else 0).
  { apply Z.bits_inj'. intros m Hm. rewrite Z.land_spec, testbit_pow2 by lia.
    destruct (Z.testbit w 31) eqn:E; [rewrite testbit_pow2 by lia|rewrite Z.bits_0];
      destruct (m =? 31) eqn:Em; try (by rewrite andb_false_r);
      replace m with 31 by lia; by rewrite E. }
  rewrite Hbit. destruct (Z.testbit w 31) eqn:E;
    [change (2 ^ 31 =? 0) with false|change (0 =? 0) with true]; cbn iota.
  - destruct (decide (Z.log2 w = 31)) as [->|]; [lia|].
    rewrite Z.bits_above_log2 in E by lia. done.
  - assert (Z.log2 w <> 31).
    { intros El. rewrite <- El, Z.bit_log2 in E by lia. done. }
    assert (w < 2 ^ 31) by (apply Z.log2_lt_pow2; lia).
    assert (Eu : u32 (Z.shiftl w 1) = 2 * w).
    { unfold u32. rewrite Z.shiftl_mul_pow2 by lia. rewrite Z.mod_small; lia. }
    rewrite Eu. rewrite IH; rewrite ?Z.log2_double by lia; lia.
Qed.

(** The words above [top] being zero bounds the number. *)
Lemma value_top d top :
  words_ok d -> 0 <= top -> (forall i, top < i -> word d i = 0) ->
  value d / 2 ^ (32 * top) = word d top /\ value d < 2 ^ (32 * (top + 1)).
Proof.
  intros Hw Ht Ha.
  assert (Hd : value d / 2 ^ (32 * (top + 1)) = 0).
  { pose proof (value_split d (Z.to_nat (top + 1)) Hw) as [_ E].
    rewrite Z2Nat.id in E by lia. rewrite E. change 0 with (value []).
    apply value_words; [by apply Forall_drop|done|].
    intros i Hi. specialize (Ha (top + 1 + i) ltac:(lia)).
    unfold word in *. rewrite lookup_drop.
    replace (Z.to_nat (top + 1) + Z.to_nat i)%nat with (Z.to_nat (top + 1 + i)) by lia. done. }
  pose proof (value_range d Hw) as Hr.
  assert (Hlt : value d < 2 ^ (32 * (top + 1))).
  { apply Z.div_small_iff in Hd; [|apply Z.pow_nonzero; lia]. lia. }
  split; [|done]. rewrite word_value by done. rewrite Z.mod_small; [done|].
  split; [apply Z.div_pos; lia|]. apply Z.div_lt_upper_bound; [lia|].
  rewrite <- Z.pow_add_r by lia. by replace (32 * top + 32) with (32 * (top + 1)) by lia.
Qed.

Definition nbits_of (v : Z) : Z := if v =? 0 then 0 else Z.log2 v + 1.

Lemma nbits_spec b :
  bm_wf b ->
  exists b', bitmap_nbits b = (nbits_of (bm_value b), b') /\ bm_wf b' /\ bm_d b' = bm_d b /\
    nbits_of (bm_value b) <= 32 * (bm_top b' + 1).
Proof.
  intros [Hl Ht Hw Hm Ha]. unfold bitmap_nbits.
  destruct (retop_spec b Ht Hl Hw Hm Ha) as (Hwf & Hd & Htop). exists (retop b).
  pose proof Hwf as [Hl' Ht' Hw' Hm' Ha']. rewrite !Hd in *.
  destruct (bm_top (retop b) >=? bm_len (retop b)) eqn:E1; [lia|].
  replace (bm_len (retop b) =? 0) with false by lia. cbn [orb].
  destruct (value_top _ _ Hw (proj1 Ht') Ha') as [Hv Hlt].
  pose proof (value_range _ Hw) as Hr. unfold nbits_of, bm_value.
  destruct (_ && _) eqn:E2.
  - apply andb_true_iff in E2 as [E2 E3].
    assert (E4 : bm_top (retop b) = 0) by lia. rewrite E4 in Hv, Hlt.
    rewrite Z.mul_0_r, Z.pow_0_r, Z.div_1_r in Hv.
    rewrite Hv, E3. split_and!; auto; lia.
  - assert (Hne : word (bm_d b) (bm_top (retop b)) <> 0).
    { destruct Htop as [H0|]; [|done]. rewrite H0 in E2 |- *. cbn in E2. lia. }
    assert (Hv0 : value (bm_d b) <> 0).
    { intros E. rewrite E, Zdiv_0_l in Hv. lia. }
    replace (value (bm_d b) =? 0) with false by lia.
    pose proof (word_range (bm_d b) (bm_top (retop b)) Hw) as Hwr.
    rewrite msb_loop_spec; [|lia|pose proof (Z.log2_nonneg (word (bm_d b) (bm_top (retop b)))); lia].
    assert (Hlog : Z.log2 (word (bm_d b) (bm_top (retop b))) =
                   Z.log2 (value (bm_d b)) - 32 * bm_top (retop b)).
    { rewrite <- Hv, <- shiftr_div by lia. rewrite Z.log2_shiftr by lia.
      apply Z.max_r. apply Z.le_0_sub. apply Z.log2_le_pow2; [lia|].
      destruct (Z.le_gt_cases (2 ^ (32 * bm_top (retop b))) (value (bm_d b))) as [|Hgt]; [done|].
      rewrite Z.div_small in Hv by lia. lia. }
    split; [|split_and!; auto].
    + f_equal. rewrite Hlog. change BITMAP_BITS with 32. lia.
    + assert (Z.log2 (value (bm_d b)) < 32 * (bm_top (retop b) + 1)); [|lia].
      apply Z.log2_lt_pow2; lia.
Qed.

Definition nbytes_of (v : Z) : Z := (nbits_of v + 7) / 8.

Lemma nbytes_of_nonneg v : 0 <= nbytes_of v.
Proof.
  unfold nbytes_of, nbits_of. pose proof (Z.log2_nonneg v). case_if; dm_lia.
Qed.

Lemma nbytes_of_bound v : 0 <= v -> v < 2 ^ (8 * nbytes_of v).
Proof.
  intros Hv. unfold nbytes_of, nbits_of. destruct (v =? 0) eqn:E; [assert (v = 0) as -> by lia; done|].
  pose proof (Z.log2_nonneg v). apply Z.log2_lt_cancel. rewrite Z.log2_pow2; dm_lia.
Qed.

Definition octet (v i : Z) : Z := (v / 2 ^ (8 * i)) mod 256.

Lemma octet_word d i j :
  words_ok d -> 0 <= i -> 0 <= j < 4 ->
  Z.land (Z.shiftr (word d i) (j * 8)) 0xff = octet (value d) (4 * i + j).
Proof.
  intros Hw Hi Hj. unfold octet. change 0xff with (Z.ones 8). change 256 with (2 ^ 8).
  rewrite Z.land_ones by lia. apply Z.bits_inj'. intros m Hm.
  destruct (decide (m < 8)); [|by rewrite !Z.mod_pow2_bits_high by lia].
  rewrite !Z.mod_pow2_bits_low, Z.shiftr_spec, Z.div_pow2_bits by lia.
  rewrite testbit_word by (done || lia). f_equal. lia.
Qed.

Lemma lookup_be_bytes n v i :
  (i < n)%nat -> be_bytes n v !! i = Some (octet v (Z.of_nat n - 1 - Z.of_nat i)).
Proof.
  revert i. induction n as [|n IH]; intros i Hi; [lia|]. destruct i as [|i]; cbn.
  - unfold octet. do 4 f_equal. lia.
  - rewrite IH by lia. do 2 f_equal. lia.
Qed.

(** While the loops of [bitmap_to_string] run: the last [k] of the [need]
    octets are in place and nothing outside the [need] octets has changed. *)
Record filled (v need k : Z) (p s : list Z) : Prop := {
  fl_len : length s = length p;
  fl_k : 0 <= k <= need;
  fl_done : forall i, 0 <= i < k -> s !! Z.to_nat (need - 1 - i) = Some (octet v i);
  fl_rest : forall i, (Z.to_nat need <= i)%nat -> s !! i = p !! i
}.

Lemma put_word_filled v need w js k p s :
  need <= Z.of_nat (length p) -> filled v need k p s ->
  (forall m x, js !! m = Some x -> k + Z.of_nat m < need ->
    Z.land (Z.shiftr w (x * 8)) 0xff = octet v (k + Z.of_nat m)) ->
  let k' := Z.min need (k + Z.of_nat (length js)) in
  exists s', put_word w js k need need s = (k', s') /\ filled v need k' p s'.
Proof.
  intros Hp. revert k s. induction js as [|j js IH]; intros k s [Hl Hk Hd Hr] Hw; cbn [put_word].
  - exists s. cbn. rewrite Z.add_0_r, Z.min_r by lia. by split.
  - destruct (k >=? need) eqn:E.
    + exists s. rewrite Z.min_l by (cbn; lia). assert (need = k) as -> by lia. by split.
    + pose proof (Hw 0%nat j eq_refl ltac:(lia)) as Hj. cbn in Hj. rewrite Z.add_0_r in Hj.
      rewrite Hj.
      destruct (IH (k + 1) (<[Z.to_nat (need - 1 - k):=octet v k]> s)) as (s' & E' & Hf).
      * split; [by rewrite length_insert|lia| |].
        -- intros i Hi. destruct (decide (i = k)) as [->|].
           ++ rewrite list_lookup_insert_eq; [done|lia].
           ++ rewrite list_lookup_insert_ne by lia. apply Hd. lia.
        -- intros i Hi. rewrite list_lookup_insert_ne by lia. by apply Hr.
      * intros m x Hx Hlt. rewrite <- Z.add_assoc.
        replace (1 + Z.of_nat m) with (Z.of_nat (S m)) by lia. apply Hw; [done|lia].
      * exists s'. cbn [length].
        replace (k + Z.of_nat (S (length js))) with (k + 1 + Z.of_nat (length js)) by lia. by split.
Qed.

Lemma put_words_filled d need i ws p s :
  words_ok d -> need <= Z.of_nat (length p) -> 0 <= need -> 0 <= i ->
  (forall m, (m < length ws)%nat -> ws !! m = Some (word d (i + Z.of_nat m))) ->
  filled (value d) need (Z.min need (4 * i)) p s ->
  let k' := Z.min need (4 * (i + Z.of_nat (length ws))) in
  exists s', put_words ws (Z.min need (4 * i)) need need s = (k', s') /\
    filled (value d) need k' p s'.
Proof.
  intros Hd Hp Hn Hi Hws Hf. revert i s Hi Hws Hf. induction ws as [|w ws IH];
    intros i s Hi Hws Hf; cbn [put_words length].
  - exists s. by rewrite Z.add_0_r.
  - pose proof (Hws 0%nat ltac:(cbn; lia)) as Hw. cbn in Hw. injection Hw as Hw.
    rewrite Z.add_0_r in Hw. subst w.
    destruct (put_word_filled _ need (word d i) [0; 1; 2; 3] _ p s Hp Hf) as (s1 & -> & Hf1).
    { intros m x Hx Hlt. replace (Z.min need (4 * i)) with (4 * i) by lia.
      do 4 (destruct m as [|m]; [injection Hx as <-; apply octet_word; (done || lia)|]). done. }
    cbn [length] in Hf1 |- *.
    replace (Z.min need (Z.min need (4 * i) + Z.of_nat 4)) with (Z.min need (4 * (i + 1))) in * by lia.
    destruct (IH (i + 1) s1) as (s' & E & Hf'); [lia| |done|].
    + intros m Hm. specialize (Hws (S m) ltac:(cbn; lia)). rewrite lookup_cons in Hws. rewrite Hws.
      do 2 f_equal. lia.
    + exists s'. replace (i + Z.of_nat (S (length ws))) with (i + 1 + Z.of_nat (length ws)) by lia.
      by split.
Qed.

Lemma to_string_spec b p :
  bm_wf b -> nbytes_of (bm_value b) <= Z.of_nat (length p) ->
  let need := Z.to_nat (nbytes_of (bm_value b)) in
  exists b', bitmap_to_string b p (Z.of_nat (length p)) =
    (0, be_bytes need (bm_value b) ++ drop need p, b') /\ bm_wf b' /\ bm_value b' = bm_value b.
Proof.
  intros Hwf Hp need. unfold bitmap_to_string, bitmap_nbytes.
  destruct (nbits_spec b Hwf) as (b' & -> & Hwf' & Hd & Hb). fold (nbytes_of (bm_value b)).
  pose proof (nbytes_of_nonneg (bm_value b)) as Hn. exists b'.
  pose proof Hwf' as [Hl' Ht' Hw' _ _].
  replace (Z.of_nat (length p) <? nbytes_of (bm_value b)) with false by lia.
  replace (bm_top b' >=? bm_len b') with false by lia. cbn [orb].
  replace (if Z.of_nat (length p) >? nbytes_of (bm_value b) then nbytes_of (bm_value b)
           else Z.of_nat (length p)) with (nbytes_of (bm_value b)) by (case_if; lia).
  assert (Hlt : length (take (Z.to_nat (bm_top b' + 1)) (bm_d b')) = Z.to_nat (bm_top b' + 1)).
  { rewrite length_take. lia. }
  destruct (put_words_filled (bm_d b') (nbytes_of (bm_value b)) 0
    (take (Z.to_nat (bm_top b' + 1)) (bm_d b')) p p) as (s' & E & Hf); try done.
  - intros m Hm. rewrite lookup_take_lt by lia. unfold word.
    rewrite Z.add_0_l, Nat2Z.id. destruct (bm_d b' !! m) eqn:E; [done|].
    apply lookup_ge_None_1 in E. lia.
  - split; try done; lia.
  - rewrite Z.mul_0_r, Z.min_r in E by done. rewrite E.
    split; [|split; [done|unfold bm_value; by rewrite Hd]]. do 2 f_equal.
    replace (value (bm_d b')) with (bm_value b) in Hf by (unfold bm_value; by rewrite Hd).
    destruct Hf as [Hfl _ Hfd Hfr]. apply list_eq. intros i.
    destruct (decide (i < need)%nat).
    + rewrite lookup_app_l by (rewrite length_be_bytes; lia).
      rewrite lookup_be_bytes by lia. rewrite <- Hfd; [f_equal; lia|].
      rewrite Hlt. unfold nbytes_of in *. dm_lia.
    + rewrite lookup_app_r by (rewrite length_be_bytes; lia). rewrite Hfr by lia.
      rewrite length_be_bytes, lookup_drop. f_equal. lia.
Qed.

Lemma testbit_mod_zero v n m : v mod 2 ^ n = 0 -> 0 <= m < n -> Z.testbit v m = false.
Proof.
  intros Hv Hm. rewrite <- (Z.mod_pow2_bits_low v n m) by lia. rewrite Hv. apply Z.bits_0.
Qed.

(** One turn of the loop of [bitmap_from_string]: the octet at position [pos]
    from the end lands in bits [8 pos .. 8 pos + 7] of the number. *)
Lemma or_octet d c pos :
  words_ok d -> is_byte c -> 0 <= pos < 4 * Z.of_nat (length d) ->
  value d mod 2 ^ (8 * (pos + 1)) = 0 ->
  let d' := set_word d (pos / 4)
              (Z.lor (word d (pos / 4)) (u32 (Z.shiftl c (8 * (pos mod 4))))) in
  words_ok d' /\ value d' = value d + c * 2 ^ (8 * pos).
Proof.
  unfold is_byte. intros Hd Hc Hpos Hz. set (o := pos / 4). set (sh := 8 * (pos mod 4)).
  assert (Ho : 0 <= o < Z.of_nat (length d)) by (unfold o; dm_lia).
  assert (Hsh : 0 <= sh <= 24) by (unfold sh; dm_lia).
  assert (Eo : 8 * pos = 32 * o + sh) by (unfold o, sh; dm_lia).
  assert (Hx : 0 <= c * 2 ^ sh < 2 ^ (sh + 8)) by (rewrite Z.pow_add_r by lia; nia).
  assert (Hp : 2 ^ (sh + 8) <= 2 ^ 32) by (apply Z.pow_le_mono_r; lia).
  assert (Eu : u32 (Z.shiftl c sh) = c * 2 ^ sh).
  { unfold u32. rewrite Z.shiftl_mul_pow2 by lia. apply Z.mod_small. lia. }
  assert (Hlow : word d o mod 2 ^ (sh + 8) = 0).
  { apply Z.bits_inj'. intros m Hm. rewrite Z.bits_0.
    destruct (decide (m < sh + 8)); [|by rewrite Z.mod_pow2_bits_high by lia].
    rewrite Z.mod_pow2_bits_low by lia. rewrite testbit_word by (done || lia).
    apply (testbit_mod_zero _ _ _ Hz). lia. }
  cbn zeta. split.
  - apply words_ok_set_word; [done|]. rewrite Eu.
    apply lor_range; [by apply word_range|lia].
  - rewrite value_set_word by done. rewrite Eu.
    rewrite (lor_add _ _ (sh + 8)) by (done || lia). rewrite Eo.
    rewrite (Z.pow_add_r 2 (32 * o)) by lia. ring.
Qed.

Lemma or_octets_spec s d o sh :
  words_ok d -> bytes_ok s -> (length s <= 4 * length d)%nat -> Z.of_nat (length s) < 2 ^ 64 ->
  value d mod 2 ^ (8 * Z.of_nat (length s)) = 0 ->
  (s <> [] -> o = (Z.of_nat (length s) - 1) / 4 /\ sh = 8 * ((Z.of_nat (length s) - 1) mod 4)) ->
  words_ok (or_octets d s o sh) /\ length (or_octets d s o sh) = length d /\
  value (or_octets d s o sh) = value d + be_value 0 s.
Proof.
  intros Hd Hs. revert d o sh Hd. induction Hs as [|c s Hc Hs IH];
    intros d o sh Hd Hlen Hmax Hz Ho; cbn [or_octets length] in *; [split_and!; auto; cbn; lia|].
  destruct (Ho ltac:(done)) as [-> ->]. clear Ho.
  set (pos := Z.of_nat (S (length s)) - 1).
  destruct (or_octet d c pos) as [Hd' Hv']; [done|done|lia|by replace (pos + 1) with (Z.of_nat (S (length s))) by lia|].
  cbn zeta in Hd', Hv'. rewrite be_value_cons, Z.add_assoc.
  replace (Z.of_nat (length s)) with pos by lia. rewrite <- Hv'.
  set (d' := set_word d (pos / 4) _) in *.
  assert (Hl' : length d' = length d) by apply length_set_word.
  assert (Hz' : value d' mod 2 ^ (8 * Z.of_nat (length s)) = 0).
  { rewrite Hv'. replace (Z.of_nat (length s)) with pos by lia.
    rewrite Z.mod_add by (apply Z.pow_nonzero; lia).
    replace (8 * Z.of_nat (S (length s))) with (8 * pos + 8) in Hz by lia.
    rewrite Z.pow_add_r in Hz by lia. apply Z.mod_divide in Hz as [q Hq]; [|lia].
    rewrite Hq, Z.mul_comm, <- Z.mul_assoc. rewrite Z.mul_comm. apply Z.mod_mul. lia. }
  rewrite <- Hl'. destruct (8 * (pos mod 4) =? 0) eqn:E; apply IH; try (done || lia).
  - intros Hne. change (BITMAP_BITS - 8) with 24. unfold u64.
    assert (length s <> 0%nat) by (by destruct s). rewrite Z.mod_small; dm_lia.
  - intros Hne. dm_lia.
Qed.

Lemma value_zeros n : value (replicate n 0) = 0.
Proof. induction n as [|n IH]; [done|]. cbn [replicate value]. lia. Qed.

Lemma bm_wf_zero b : bm_wf b -> bm_wf (bitmap_zero b) /\ bm_value (bitmap_zero b) = 0.
Proof.
  intros [Hl Ht Hw Hm Ha]. split; [split; cbn|apply value_zeros]; auto.
  - rewrite length_replicate. lia.
  - lia.
  - apply Forall_replicate. lia.
  - intros i Hi. unfold word. destruct (replicate _ 0 !! _) eqn:R; [|done].
    by apply lookup_replicate in R as [-> _].
Qed.

Lemma reserve_ok b n :
  bm_wf b -> 0 <= n <= BITMAP_MAX -> exists b', reserve [] b n = (0, b', []).
Proof.
  intros Hwf Hn. destruct (set_bit_ok b n Hwf Hn) as (b' & E). unfold bitmap_set_bit in E.
  destruct (reserve [] b n) as [[r b1] w1]. destruct (r =? 0) eqn:Er; cbn [negb] in E.
  - injection E as _ ->. exists b1. do 2 f_equal. lia.
  - injection E as -> -> ->. done.
Qed.

Lemma from_string_spec w b p r b' w' :
  bm_wf b -> bytes_ok p -> bitmap_from_string w b p (Z.of_nat (length p)) = (r, b', w') ->
  bm_wf b' /\ (r = 0 -> bm_value b' = be_value 0 p).
Proof.
  intros Hwf Hp. unfold bitmap_from_string. change BITMAP_BYTES with 4. change (4 - 1) with 3.
  destruct (_ >? _) eqn:El; [intros [= <- <- <-]; split; [done|lia]|].
  destruct (reserve _ _ _) as [[r1 b1] w1] eqn:E.
  apply reserve_spec in E as (Hwf1 & _ & Hr); [|done|lia].
  destruct (r1 =? 0) eqn:Er; cbn [negb]; [|intros [= <- <- <-]; split; [done|lia]].
  destruct (Hr ltac:(lia)) as [Hn Hm]. pose proof Hwf1 as [Hl Ht Hw Hmx Ha].
  assert (Hz : words_ok (replicate (Z.to_nat (bm_len b1)) 0)).
  { apply Forall_replicate. lia. }
  assert (Hlz : length (replicate (Z.to_nat (bm_len b1)) 0) = length (bm_d b1)).
  { rewrite length_replicate. lia. }
  destruct (Z.of_nat (length p) =? 0) eqn:E0.
  - intros [= <- <- <-]. destruct p; [|done].
    destruct (bm_wf_zero b1 Hwf1) as [Hwz Hvz]. split; [done|]. intros _. exact Hvz.
  - rewrite Nat2Z.id, firstn_all. cbn [bitmap_zero bm_d bm_len].
    destruct (or_octets_spec p (replicate (Z.to_nat (bm_len b1)) 0)
      ((Z.of_nat (length p) + 3) / 4 - 1) ((Z.of_nat (length p) + 3) mod 4 * 8))
      as (Hw' & Hl' & Hv'); [done|done| | | |intros _|].
    + rewrite Hlz. assert (8 * Z.of_nat (length p) / 32 = Z.of_nat (length p) / 4) by dm_lia. dm_lia.
    + change (BITMAP_MAX / 8) with (2 ^ 21) in El. lia.
    + rewrite value_zeros. by apply Zmod_0_l.
    + dm_lia.
    + rewrite value_zeros, Z.add_0_l in Hv'. rewrite Hlz in Hl'.
      set (d := or_octets _ _ _ _) in *. set (top := (Z.of_nat (length p) + 3) / 4 - 1).
      assert (Htop : 0 <= top < bm_len b1) by (unfold top; dm_lia).
      destruct (retop_spec (mk_bitmap d (bm_len b1) top)) as (Hwf' & Hd & _);
        cbn [bm_d bm_top bm_len]; try (done || lia).
      { intros i Hi. rewrite word_value by (done || lia). rewrite Hv'.
        pose proof (be_value_range p Hp) as Hb.
        rewrite (Z.div_small (be_value 0 p)); [done|]. split; [lia|].
        apply Z.lt_le_trans with (2 ^ (8 * Z.of_nat (length p))); [lia|].
        apply Z.pow_le_mono_r; [lia|]. unfold top in Hi. dm_lia. }
      intros [= <- <- <-]. split; [done|]. intros _. unfold bm_value. by rewrite Hd.
Qed.

Lemma from_string_ok b p :
  bm_wf b -> Z.of_nat (length p) <= BITMAP_MAX / 8 ->
  exists b', bitmap_from_string [] b p (Z.of_nat (length p)) = (0, b', []).
Proof.
  intros Hwf Hp. unfold bitmap_from_string. change (BITMAP_MAX / 8) with (2 ^ 21) in *.
  replace (_ >? _) with false by lia.
  destruct (reserve_ok b (Z.of_nat (length p) * 8)) as (b1 & ->);
    [done|change BITMAP_MAX with (2 ^ 24); lia|]. cbn [Z.eqb negb].
  destruct (_ =? _); eexists; reflexivity.
Qed.

(** ** A bitmap is a finite set of numbers *)

Inductive bmop := BSet (n : Z) | BClear (n : Z) | BZero.

Definition bm_run (w : world) (b : bitmap) (op : bmop) : Z * bitmap * world :=
  match op with
  | BSet n => bitmap_set_bit w b n
  | BClear n => (0, bitmap_clear_bit b n, w)
  | BZero => (0, bitmap_zero b, w)
  end.

Definition bmop_ok (op : bmop) : Prop :=
  match op with BSet n | BClear n => 0 <= n < 2 ^ 32 | BZero => True end.

(** The same operations on a set, given what the bitmap's one returned. *)
Definition set_run (s : gset Z) (op : bmop) (r : Z) : gset Z :=
  match op with
  | BSet n => if r =? 0 then {[n]} ∪ s else s
  | BClear n => s ∖ {[n]}
  | BZero => ∅
  end.

Fixpoint bm_runs (w : world) (b : bitmap) (s : gset Z) (ops : list bmop) : bitmap * gset Z :=
  match ops with
  | [] => (b, s)
  | op :: ops => let '(r, b, w) := bm_run w b op in bm_runs w b (set_run s op r) ops
  end.

Definition represents (b : bitmap) (s : gset Z) : Prop :=
  bm_wf b /\ (forall n, n ∈ s -> n <= BITMAP_MAX) /\
  forall n, 0 <= n -> (Z.testbit (bm_value b) n = true <-> n ∈ s).

Lemma bm_run_represents w b s op r b' w' :
  represents b s -> bmop_ok op -> bm_run w b op = (r, b', w') ->
  represents b' (set_run s op r).
Proof.
  intros (Hwf & Hmax & Hs) Hok. destruct op as [n|n|]; cbn [bm_run set_run bmop_ok] in *.
  - intros E. apply set_bit_spec in E as (Hwf' & H0 & H1); [|done|lia]. split; [done|].
    destruct (r =? 0) eqn:Er.
    + destruct (H0 ltac:(lia)) as [Hn ->]. split; [set_solver|]. intros m Hm.
      rewrite Z.setbit_eqb, orb_true_iff, Hs by lia. rewrite Z.eqb_eq. set_solver.
    + rewrite H1 by lia. done.
  - intros [= <- <- <-]. destruct (decide (n <= BITMAP_MAX)).
    + destruct (clear_bit_spec b n Hwf) as [Hwf' Hv]; [lia|]. split; [done|].
      split; [set_solver|]. intros m Hm. rewrite Hv, Z.clearbit_eqb, andb_true_iff, Hs by done.
      rewrite negb_true_iff, Z.eqb_neq. set_solver.
    + assert (bitmap_clear_bit b n = b) as ->.
      { unfold bitmap_clear_bit. replace (n >? BITMAP_MAX) with true by lia.
        by rewrite orb_true_r. }
      replace (s ∖ {[n]}) with s; [done|]. apply leibniz_equiv.
      assert (n ∉ s) by (intros Hin; specialize (Hmax n Hin); lia). set_solver.
  - intros [= <- <- <-]. destruct (bm_wf_zero b Hwf) as [Hwf' Hv]. split; [done|].
    split; [set_solver|]. intros m Hm. rewrite Hv, Z.bits_0. set_solver.
Qed.

(** C37: A bitmap is a set of numbers.  Whatever sequence of set, clear and zero
    operations runs on a fresh bitmap, and whichever of their allocations
    fail, testing bit [n] afterwards answers 1 exactly for the members of the
    set that the same operations compute on a mathematical set. *)
Theorem bitmap_refines_set (w w1 : world) (b b' : bitmap) (ops : list bmop) (s : gset Z) :
  bitmap_new w = (Some b, w1) -> Forall bmop_ok ops -> bm_runs w1 b ∅ ops = (b', s) ->
  forall n, 0 <= n < 2 ^ 32 -> bitmap_test_bit b' n = if decide (n ∈ s) then 1 else 0.
Proof.
  intros Hnew Hops Hrun. assert (Hrep : represents b' s).
  { assert (Hb : represents b ∅).
    { apply bm_wf_new in Hnew as [Hwf Hv]. split; [done|]. split; [set_solver|].
      intros m Hm. rewrite Hv, Z.bits_0. set_solver. }
    clear Hnew. revert w1 b Hb Hrun. generalize (∅ : gset Z) as s0.
    induction Hops as [|op ops Hop _ IH]; intros s0 w1 b Hb Hrun; cbn [bm_runs] in Hrun.
    - by injection Hrun as <- <-.
    - destruct (bm_run w1 b op) as [[r b1] w2] eqn:E.
      eapply IH; [|exact Hrun]. by eapply bm_run_represents. }
  destruct Hrep as (Hwf & _ & Hs). intros n Hn. rewrite test_bit_value by (done || lia).
  specialize (Hs n ltac:(lia)). case_decide; destruct (Z.testbit _ n); try done.
  - by apply Hs in H.
  - exfalso. by apply H, Hs.
Qed.

Lemma bitmap_refines_set_witness :
  bitmap_test_bit (bm_runs [] (mk_bitmap [0] 1 0) ∅
    [BSet 5; BSet 77; BClear 5; BSet 40]).1 40 = 1.
Proof.
  destruct (bm_runs [] (mk_bitmap [0] 1 0) ∅ [BSet 5; BSet 77; BClear 5; BSet 40])
    as [b s] eqn:E. cbn [fst].
  assert (Hs : 40 ∈ s).
  { replace s with (bm_runs [] (mk_bitmap [0] 1 0) ∅ [BSet 5; BSet 77; BClear 5; BSet 40]).2
      by (by rewrite E). apply (bool_decide_unpack _). vm_compute. exact I. }
  rewrite (bitmap_refines_set [] [] (mk_bitmap [0] 1 0) b
    [BSet 5; BSet 77; BClear 5; BSet 40] s eq_refl ltac:(repeat constructor; lia) E 40 ltac:(lia)).
  by rewrite decide_True.
Defined.

(** Writing a bitmap to an octet string and reading it back into any other
    bitmap gives the same set: the string is exactly [bitmap_nbytes] long, and
    every bit tests the same afterwards.  (A bitmap with bit [BITMAP_MAX]
    itself set needs one octet more than [bitmap_from_string] accepts.) *)
Theorem bitmap_string_roundtrip (b b2 : bitmap) (p : list Z) :
  bm_wf b -> bm_wf b2 -> fst (bitmap_nbytes b) = Z.of_nat (length p) ->
  Z.of_nat (length p) <= BITMAP_MAX / 8 ->
  exists s b' b3,
    bitmap_to_string b p (Z.of_nat (length p)) = (0, s, b') /\ length s = length p /\
    bytes_ok s /\
    bitmap_from_string [] b2 s (Z.of_nat (length s)) = (0, b3, []) /\
    forall n, 0 <= n -> bitmap_test_bit b3 n = bitmap_test_bit b n.
Proof.
  intros Hwf Hwf2 Hn Hmax. pose proof (value_range (bm_d b) (bmwf_words b Hwf)) as Hv.
  unfold bitmap_nbytes in Hn. destruct (nbits_spec b Hwf) as (b0 & E0 & _).
  rewrite E0 in Hn. cbn [fst] in Hn. fold (nbytes_of (bm_value b)) in Hn.
  destruct (to_string_spec b p Hwf ltac:(lia)) as (b' & E & _ & _).
  rewrite Hn, Nat2Z.id, drop_all, app_nil_r in E.
  set (s := be_bytes (length p) (bm_value b)) in *.
  assert (Hl : length s = length p) by apply length_be_bytes.
  destruct (from_string_ok b2 s Hwf2 ltac:(lia)) as (b3 & E3).
  exists s, b', b3. split_and!; auto; [apply bytes_ok_be_bytes|].
  apply from_string_spec in E3 as [Hwf3 Hv3]; [|done|apply bytes_ok_be_bytes].
  intros n Hn'. rewrite !test_bit_value by done. rewrite Hv3 by done.
  unfold s. rewrite be_value_be_bytes; [done|]. rewrite <- Hn. split; [apply Hv|].
  apply nbytes_of_bound. apply Hv.
Qed.

Lemma bitmap_string_roundtrip_witness :
  exists b s b3, bitmap_set_bit [] (mk_bitmap [0] 1 0) 100 = (0, b, []) /\
    bitmap_from_string [] (mk_bitmap [0] 1 0) s (Z.of_nat (length s)) = (0, b3, []) /\
    bitmap_test_bit b3 100 = bitmap_test_bit b 100 /\ bitmap_test_bit b 100 = 1.
Proof.
  assert (Hnew : bm_wf (mk_bitmap [0] 1 0)) by apply (bm_wf_new [] _ [] eq_refl).
  destruct (bitmap_set_bit [] (mk_bitmap [0] 1 0) 100) as [[r b] w] eqn:E.
  assert (Hb : bm_wf b) by (by eapply set_bit_spec; [exact Hnew| |exact E]).
  vm_compute in E. injection E as <- <- <-.
  destruct (bitmap_string_roundtrip _ (mk_bitmap [0] 1 0) (replicate 13 0) Hb Hnew
    eq_refl ltac:(by vm_compute)) as (s & b' & b3 & _ & _ & _ & E3 & Ht).
  eexists _, s, b3. split; [reflexivity|]. split; [exact E3|]. split; [by apply Ht|reflexivity].
Defined.
