(* ===== verification/RbTree.v ===== *)
(** The ordered trees of openbsd-compat/sys-tree.h.

    A tree of the RB_ family is represented by the list of its nodes in order.
    What rebalancing does with them is left open: a [TreeShape] gives, for a
    list, some binary tree with these nodes in this order, and the searches
    descend that tree the way the macros do.  The lemmas hold for every shape,
    and for every comparison whose sign does not increase along the tree; the
    comparison may answer 0 for several nodes, as that of the serial number
    ranges of krl.c does. *)

From stdpp Require Import base list numbers tactics sets sorting.
From Stdlib Require Import ZArith Lia.
From S2P Require Import Prelude.

Inductive tree (A : Type) :=
  | Leaf
  | Node (l : tree A) (x : A) (r : tree A).
Arguments Leaf {A}.
Arguments Node {A} l x r.

Fixpoint inorder {A} (t : tree A) : list A :=
  match t with
  | Leaf => []
  | Node l x r => inorder l ++ x :: inorder r
  end.

Class TreeShape := {
  shape : forall {A}, list A -> tree A;
  inorder_shape : forall {A} (l : list A), inorder (shape l) = l
}.

(** The list-like tree, as an instance. *)
Fixpoint right_spine {A} (l : list A) : tree A :=
  match l with
  | [] => Leaf
  | x :: l => Node Leaf x (right_spine l)
  end.

Lemma inorder_right_spine {A} (l : list A) : inorder (right_spine l) = l.
Proof. induction l as [|x l IH]; cbn; [done|]. by rewrite IH. Qed.

(** A tree that splits its nodes in the middle; [fuel] bounds the depth. *)
Fixpoint balanced {A} (fuel : nat) (l : list A) : tree A :=
  match fuel with
  | O => right_spine l
  | S fuel =>
      match drop (length l / 2) l with
      | [] => Leaf
      | x :: r => Node (balanced fuel (take (length l / 2) l)) x (balanced fuel r)
      end
  end.

Lemma inorder_balanced {A} fuel (l : list A) : inorder (balanced fuel l) = l.
Proof.
  revert l. induction fuel as [|fuel IH]; intros l; cbn; [apply inorder_right_spine|].
  pose proof (take_drop (length l / 2) l) as E. destruct (drop _ l) as [|x r] eqn:Ed; cbn.
  - destruct l as [|y l]; [done|]. apply (f_equal length) in Ed. rewrite length_drop in Ed.
    cbn [length] in Ed. pose proof (Nat.div_lt (S (length l)) 2 ltac:(lia) ltac:(lia)). lia.
  - by rewrite !IH.
Qed.

Definition spine_shape : TreeShape :=
  {| shape := @right_spine; inorder_shape := @inorder_right_spine |}.

Definition balanced_shape : TreeShape :=
  {| shape := fun A => balanced 64; inorder_shape := fun A => inorder_balanced 64 |}.

Section rb.
Context `{TS : TreeShape} {A : Type} (cmp : A -> A -> Z).

(** A node with the nodes before and after it. *)
Definition cursor : Type := list A * A * list A.

Fixpoint find_in (t : tree A) (elm : A) : option A :=
  match t with
  | Leaf => None
  | Node l x r =>
      let comp := cmp elm x in
      if comp <? 0 then find_in l elm
      else if comp >? 0 then find_in r elm
      else Some x
  end.

Definition RB_FIND (head : list A) (elm : A) : option A := find_in (shape head) elm.

(** Whether a search returned a node. *)
Definition found (x : option A) : bool := match x with Some _ => true | None => false end.

(** [pre] and [post] are the nodes before and after the subtree. *)
Fixpoint nfind_in (t : tree A) (pre post : list A) (res : option cursor) (elm : A)
  : option cursor :=
  match t with
  | Leaf => res
  | Node l x r =>
      let here := (pre ++ inorder l, x, inorder r ++ post) in
      let comp := cmp elm x in
      if comp <? 0 then nfind_in l pre (x :: inorder r ++ post) (Some here) elm
      else if comp >? 0 then nfind_in r (pre ++ inorder l ++ [x]) post res elm
      else Some here
  end.

Definition RB_NFIND (head : list A) (elm : A) : option cursor :=
  nfind_in (shape head) [] [] None elm.

(** The place where [RB_INSERT] links [elm], or the node it collides with. *)
Fixpoint insert_in (t : tree A) (pre post : list A) (elm : A) : A + (list A * list A) :=
  match t with
  | Leaf => inr (pre, post)
  | Node l x r =>
      let comp := cmp elm x in
      if comp <? 0 then insert_in l pre (x :: inorder r ++ post) elm
      else if comp >? 0 then insert_in r (pre ++ inorder l ++ [x]) post elm
      else inl x
  end.

Definition RB_INSERT_at (head : list A) (elm : A) : A + (list A * list A) :=
  insert_in (shape head) [] [] elm.

(** The node that was in the way, and the tree afterwards. *)
Definition RB_INSERT (head : list A) (elm : A) : option A * list A :=
  match RB_INSERT_at head elm with
  | inl x => (Some x, head)
  | inr (pre, post) => (None, pre ++ elm :: post)
  end.

(** ** The searches, for a comparison whose sign does not increase *)

Definition descends (elm x y : A) : Prop :=
  (cmp elm x < 0 -> cmp elm y < 0) /\ (cmp elm y > 0 -> cmp elm x > 0).

Abbreviation mono elm l := (StronglySorted (descends elm) l).

Lemma mono_node elm l x r :
  mono elm (l ++ x :: r) ->
  mono elm l /\ mono elm r /\
  (cmp elm x < 0 -> Forall (fun y => cmp elm y < 0) r) /\
  (cmp elm x > 0 -> Forall (fun y => cmp elm y > 0) l).
Proof.
  rewrite StronglySorted_app, StronglySorted_cons. intros (Hlx & Hl & Hx & Hr).
  split_and!; auto.
  - intros E. eapply Forall_impl; [exact Hx|]. intros y Hy. by apply Hy.
  - intros E. rewrite Forall_forall. intros y Hy.
    specialize (Hlx y x Hy ltac:(set_solver)). by apply Hlx.
Qed.

Lemma find_in_spec t elm :
  mono elm (inorder t) ->
  match find_in t elm with
  | Some x => x ∈ inorder t /\ cmp elm x = 0
  | None => Forall (fun y => cmp elm y <> 0) (inorder t)
  end.
Proof.
  induction t as [|l IHl x r IHr]; cbn; [constructor|]. intros Hm.
  apply mono_node in Hm as (Hl & Hr & Hlt & Hgt).
  destruct (cmp elm x <? 0) eqn:E1; [|destruct (cmp elm x >? 0) eqn:E2].
  - specialize (IHl Hl). destruct (find_in l elm); [set_solver|].
    apply Forall_app. split; [done|]. constructor; [lia|].
    eapply Forall_impl; [apply Hlt; lia|]. cbn. lia.
  - specialize (IHr Hr). destruct (find_in r elm); [set_solver|].
    apply Forall_app. split; [|constructor; [lia|done]].
    eapply Forall_impl; [apply Hgt; lia|]. cbn. lia.
  - split; [set_solver|lia].
Qed.

Lemma RB_FIND_spec l elm :
  mono elm l ->
  match RB_FIND l elm with
  | Some x => x ∈ l /\ cmp elm x = 0
  | None => Forall (fun y => cmp elm y <> 0) l
  end.
Proof.
  intros Hm. unfold RB_FIND. pose proof (find_in_spec (shape l) elm) as H.
  rewrite inorder_shape in H. exact (H Hm).
Qed.

(** Where a search among [l] ends: at a node that compares equal, or between
    the nodes that compare greater and those that compare smaller. *)
Inductive stops (elm : A) (l : list A) : option cursor -> Prop :=
  | stops_hit pre x post :
      l = pre ++ x :: post -> cmp elm x = 0 -> stops elm l (Some (pre, x, post))
  | stops_next pre x post :
      l = pre ++ x :: post -> Forall (fun y => cmp elm y > 0) pre -> cmp elm x < 0 ->
      Forall (fun y => cmp elm y < 0) post -> stops elm l (Some (pre, x, post))
  | stops_end :
      Forall (fun y => cmp elm y > 0) l -> stops elm l None.

Lemma nfind_in_spec t pre post res elm :
  mono elm (inorder t) ->
  Forall (fun y => cmp elm y > 0) pre -> Forall (fun y => cmp elm y < 0) post ->
  res = match post with [] => None | x :: post' => Some (pre ++ inorder t, x, post') end ->
  stops elm (pre ++ inorder t ++ post) (nfind_in t pre post res elm).
Proof.
  revert pre post res. induction t as [|l IHl x r IHr]; cbn; intros pre post res Hm Hpre Hpost ->.
  - rewrite app_nil_r. destruct post as [|y post]; cbn.
    + rewrite app_nil_r. by constructor.
    + inversion_clear Hpost. by apply stops_next.
  - apply mono_node in Hm as (Hl & Hr & Hlt & Hgt).
    replace (pre ++ (inorder l ++ x :: inorder r) ++ post)
      with (pre ++ inorder l ++ x :: inorder r ++ post) by (by rewrite <- app_assoc).
    destruct (cmp elm x <? 0) eqn:E1; [|destruct (cmp elm x >? 0) eqn:E2].
    + apply IHl; auto. constructor; [lia|]. apply Forall_app. split; [apply Hlt; lia|done].
    + replace (pre ++ inorder l ++ x :: inorder r ++ post)
        with ((pre ++ inorder l ++ [x]) ++ inorder r ++ post) by (by rewrite <- !app_assoc).
      apply IHr; auto.
      * rewrite !Forall_app. split_and!; [done|apply Hgt; lia|constructor; [lia|done]].
      * destruct post; [done|]. by rewrite <- !app_assoc.
    + apply stops_hit; [|lia]. by rewrite <- app_assoc.
Qed.

Lemma RB_NFIND_spec l elm : mono elm l -> stops elm l (RB_NFIND l elm).
Proof.
  intros Hm. unfold RB_NFIND.
  rewrite <- (inorder_shape l), <- (app_nil_r (inorder (shape l))) at 1.
  apply (nfind_in_spec (shape l) [] [] None elm); [|constructor..|done].
  by rewrite inorder_shape.
Qed.

Lemma insert_in_spec t pre post elm :
  mono elm (inorder t) ->
  Forall (fun y => cmp elm y > 0) pre -> Forall (fun y => cmp elm y < 0) post ->
  match insert_in t pre post elm with
  | inl x => x ∈ inorder t /\ cmp elm x = 0
  | inr (pre', post') =>
      pre ++ inorder t ++ post = pre' ++ post' /\
      Forall (fun y => cmp elm y > 0) pre' /\ Forall (fun y => cmp elm y < 0) post'
  end.
Proof.
  revert pre post. induction t as [|l IHl x r IHr]; cbn; intros pre post Hm Hpre Hpost; [done|].
  apply mono_node in Hm as (Hl & Hr & Hlt & Hgt).
  destruct (cmp elm x <? 0) eqn:E1; [|destruct (cmp elm x >? 0) eqn:E2].
  - specialize (IHl pre (x :: inorder r ++ post) Hl Hpre).
    destruct (insert_in l _ _ _) as [y|[pre' post']].
    + assert (Hl' : Forall (fun y => cmp elm y < 0) (x :: inorder r ++ post)).
      { constructor; [lia|]. apply Forall_app. split; [apply Hlt; lia|done]. }
      specialize (IHl Hl'). set_solver.
    + rewrite <- app_assoc. apply IHl. constructor; [lia|]. apply Forall_app.
      split; [apply Hlt; lia|done].
  - assert (Hl' : Forall (fun y => cmp elm y > 0) (pre ++ inorder l ++ [x])).
    { rewrite !Forall_app. split_and!; [done|apply Hgt; lia|constructor; [lia|done]]. }
    specialize (IHr _ post Hr Hl' Hpost).
    destruct (insert_in r _ _ _) as [y|[pre' post']]; [set_solver|].
    by rewrite <- !app_assoc in *.
  - split; [set_solver|lia].
Qed.

Lemma RB_INSERT_at_spec l elm :
  mono elm l ->
  match RB_INSERT_at l elm with
  | inl x => x ∈ l /\ cmp elm x = 0
  | inr (pre, post) =>
      l = pre ++ post /\
      Forall (fun y => cmp elm y > 0) pre /\ Forall (fun y => cmp elm y < 0) post
  end.
Proof.
  intros Hm. unfold RB_INSERT_at. pose proof (insert_in_spec (shape l) [] [] elm) as H.
  rewrite inorder_shape in H. cbn in H. rewrite app_nil_r in H.
  apply H; [done|constructor..].
Qed.
End rb.

(** ** Trees with a total order *)

Class TotalCmp {A} (cmp : A -> A -> Z) := {
  cmp_eq a b : cmp a b = 0 <-> a = b;
  cmp_flip a b : cmp a b < 0 <-> cmp b a > 0;
  cmp_trans a b c : cmp a b < 0 -> cmp b c < 0 -> cmp a c < 0
}.

Section total.
Context `{TS : TreeShape} {A : Type} (cmp : A -> A -> Z) `{TC : !TotalCmp cmp}.

Abbreviation rb_sorted l := (StronglySorted (fun a b => cmp a b < 0) l).

Lemma total_mono elm l : rb_sorted l -> StronglySorted (descends cmp elm) l.
Proof.
  induction 1 as [|x l Hs IH Hx]; [constructor|]. apply StronglySorted_cons. split; [|done].
  eapply Forall_impl; [exact Hx|]. intros y Hy. split; intros H.
  - by eapply cmp_trans.
  - apply cmp_flip. apply cmp_flip in H. exact (cmp_trans x y elm Hy H).
Qed.

Lemma RB_FIND_total l x : rb_sorted l -> found (RB_FIND cmp l x) = true <-> x ∈ l.
Proof.
  intros Hs. pose proof (RB_FIND_spec cmp l x (total_mono x l Hs)) as H.
  destruct (RB_FIND cmp l x) as [y|]; cbn.
  - destruct H as [Hy Hc]. apply cmp_eq in Hc as ->. done.
  - split; [done|]. intros Hx. rewrite Forall_forall in H. specialize (H x Hx).
    by destruct (H (proj2 (cmp_eq x x) eq_refl)).
Qed.

Lemma RB_INSERT_total l x :
  rb_sorted l ->
  rb_sorted (RB_INSERT cmp l x).2 /\ forall y, y ∈ (RB_INSERT cmp l x).2 <-> y = x \/ y ∈ l.
Proof.
  intros Hs. unfold RB_INSERT. pose proof (RB_INSERT_at_spec cmp l x (total_mono x l Hs)) as H.
  destruct (RB_INSERT_at cmp l x) as [z|[pre post]]; cbn.
  - destruct H as [Hz Hc]. apply cmp_eq in Hc as ->. split; [done|]. intros y.
    split; [by right|]. by intros [->|].
  - destruct H as (-> & Hpre & Hpost). rewrite StronglySorted_app in Hs.
    destruct Hs as (Hab & Ha & Hb). split; [|set_solver].
    apply StronglySorted_app. split; [|split; [done|by apply StronglySorted_cons]].
    intros y z Hy Hz. apply elem_of_cons in Hz as [->|Hz]; [|by apply Hab].
    rewrite Forall_forall in Hpre. apply cmp_flip. by apply Hpre.
Qed.
End total.
