(* ===== verification/Krl.v ===== *)
(** Key revocation lists: the in-memory list of krl.c.

    A revocation list holds explicitly revoked keys, SHA1 and SHA256 key
    hashes, and, for each certificate authority or for all of them, ranges of
    certificate serial numbers and certificate key IDs.  This file models the
    data, the functions that add revocations and the functions that check a
    key; KrlThms.v states what they promise. *)

From stdpp Require Import base list numbers tactics sets sorting.
From Stdlib Require Import ZArith Lia ZifyBool.
From S2P Require Import Prelude Sshbuf RbTree.

(** ** The interface of sshkey.c

    Keys are opaque here: comparing, serialising and hashing them is libcrypto
    work.  The operations may allocate, and may fail. *)


Class SshKey (key : Type) := {
  sshkey_is_cert : key -> bool;
  cert_serial : key -> Z;                 (* key->cert->serial *)
  cert_key_id : key -> list Z;            (* key->cert->key_id *)
  cert_signature_key : key -> key;        (* key->cert->signature_key *)
  sshkey_equal : key -> key -> bool;      (* of keys that are not NULL *)
  sshkey_from_private : world -> key -> Z * option key * world;
  sshkey_drop_cert : key -> Z * key;
  sshkey_to_blob : world -> key -> Z * list Z * world;
  sshkey_fingerprint_raw : world -> key -> Z -> Z * list Z * world;
  sshkey_from_blob : world -> list Z -> Z * option key * world;
  sshkey_puts : world -> key -> sshbuf -> Z * sshbuf * world
}.

(** What the callers in krl.c rely on.  [pub_blob] is the wire form of a key
    without certificate information, [digest_of] its hash. *)
Class SshKeyLaws (key : Type) `{SshKey key} := {
  pub_blob : key -> list Z;
  digest_of : key -> Z -> list Z;
  equal_refl k : sshkey_equal k k = true;
  equal_sym j k : sshkey_equal j k = true -> sshkey_equal k j = true;
  equal_trans i j k :
    sshkey_equal i j = true -> sshkey_equal j k = true -> sshkey_equal i k = true;
  from_private_copy w k r k' w' :
    sshkey_from_private w k = (r, k', w') ->
    match k' with
    | Some k' => r = 0 /\ sshkey_equal k' k = true /\
                 sshkey_is_cert k' = sshkey_is_cert k /\ pub_blob k' = pub_blob k
    | None => r <> 0
    end;
  drop_cert_plain k k' :
    sshkey_drop_cert k = (0, k') -> sshkey_is_cert k' = false /\ pub_blob k' = pub_blob k;
  to_blob_plain w k b w' :
    sshkey_to_blob w k = (0, b, w') -> sshkey_is_cert k = false -> b = pub_blob k;
  fingerprint_digest w k alg b w' :
    sshkey_fingerprint_raw w k alg = (0, b, w') -> b = digest_of k alg
}.

(** ** Data *)

Record revoked_serial := mk_serial { rs_lo : Z; rs_hi : Z }.

(** A node of the key ID tree is its string, without the terminating zero. *)
Definition revoked_key_id : Type := list Z.

(** A node of a blob tree; the length is that of the list. *)
Definition revoked_blob : Type := list Z.

Section krl.
Context `{TS : TreeShape} {key : Type} `{SK : SshKey key}.

Record revoked_certs := mk_certs {
  rc_ca_key : option key;
  rc_serials : list revoked_serial;
  rc_key_ids : list revoked_key_id
}.

Record ssh_krl := mk_krl {
  krl_version : Z;
  generated_date : Z;
  krl_flags : Z;
  krl_comment : option (list Z);
  revoked_keys : list revoked_blob;
  revoked_sha1s : list revoked_blob;
  revoked_sha256s : list revoked_blob;
  krl_revoked_certs : list revoked_certs
}.

Definition set_keys (k : ssh_krl) (l : list revoked_blob) : ssh_krl :=
  mk_krl (krl_version k) (generated_date k) (krl_flags k) (krl_comment k)
    l (revoked_sha1s k) (revoked_sha256s k) (krl_revoked_certs k).

Definition set_sha1s (k : ssh_krl) (l : list revoked_blob) : ssh_krl :=
  mk_krl (krl_version k) (generated_date k) (krl_flags k) (krl_comment k)
    (revoked_keys k) l (revoked_sha256s k) (krl_revoked_certs k).

Definition set_sha256s (k : ssh_krl) (l : list revoked_blob) : ssh_krl :=
  mk_krl (krl_version k) (generated_date k) (krl_flags k) (krl_comment k)
    (revoked_keys k) (revoked_sha1s k) l (krl_revoked_certs k).

Definition set_certs (k : ssh_krl) (l : list revoked_certs) : ssh_krl :=
  mk_krl (krl_version k) (generated_date k) (krl_flags k) (krl_comment k)
    (revoked_keys k) (revoked_sha1s k) (revoked_sha256s k) l.

(** ** The orders of the three trees *)

(** Return equal if a and b overlap *)
Definition serial_cmp (a b : revoked_serial) : Z :=
  if (rs_hi a >=? rs_lo b) && (rs_lo a <=? rs_hi b) then 0
  else if rs_lo a <? rs_lo b then -1 else 1.

Fixpoint strcmp (a b : list Z) : Z :=
  match a, b with
  | [], [] => 0
  | [], _ :: _ => -1
  | _ :: _, [] => 1
  | x :: a, y :: b => if x <? y then -1 else if x >? y then 1 else strcmp a b
  end.

Definition key_id_cmp (a b : revoked_key_id) : Z := strcmp a b.

Fixpoint memcmp (a b : list Z) (n : nat) : Z :=
  match n, a, b with
  | S n, x :: a, y :: b => if x <? y then -1 else if x >? y then 1 else memcmp a b n
  | _, _, _ => 0
  end.

Definition blob_cmp (a b : revoked_blob) : Z :=
  if negb (length a =? length b)%nat then
    let r := memcmp a b (length a `min` length b) in
    if negb (r =? 0) then r
    else if (length b <? length a)%nat then 1 else -1
  else memcmp a b (length a).

(** ** Building a list *)

Definition ssh_krl_init (w : world) : option ssh_krl * world :=
  let '(ok, w) := malloc w in
  if negb ok then (None, w)
  else (Some (mk_krl 0 0 0 None [] [] [] []), w).

Definition ssh_krl_set_version (krl : ssh_krl) (version : Z) : ssh_krl :=
  mk_krl version (generated_date krl) (krl_flags krl) (krl_comment krl)
    (revoked_keys krl) (revoked_sha1s krl) (revoked_sha256s krl) (krl_revoked_certs krl).

Definition ssh_krl_set_comment (w : world) (krl : ssh_krl) (comment : list Z)
  : Z * ssh_krl * world :=
  let set c := mk_krl (krl_version krl) (generated_date krl) (krl_flags krl) c
    (revoked_keys krl) (revoked_sha1s krl) (revoked_sha256s krl) (krl_revoked_certs krl) in
  let '(ok, w) := malloc w in
  if negb ok then (SSH_ERR_ALLOC_FAIL, set None, w) else (0, set (Some comment), w).

Definition ca_matches (ca_key : option key) (rc : revoked_certs) : bool :=
  match ca_key, rc_ca_key rc with
  | None, None => true
  | Some a, Some b => sshkey_equal b a
  | _, _ => false
  end.

(** [*rcp] is the position of the entry in the list, if there is one. *)
Definition revoked_certs_for_ca_key (w : world) (krl : ssh_krl) (ca_key : option key)
    (allow_create : bool) : Z * option nat * ssh_krl * world :=
  match list_find (fun rc => ca_matches ca_key rc = true) (krl_revoked_certs krl) with
  | Some (i, _) => (0, Some i, krl, w)
  | None =>
      if negb allow_create then (0, None, krl, w)
      else
        (* If this CA doesn't exist in the list then add it now *)
        let '(ok, w) := malloc w in
        if negb ok then (SSH_ERR_ALLOC_FAIL, None, krl, w)
        else
          let add ca := set_certs krl (krl_revoked_certs krl ++ [mk_certs ca [] []]) in
          let i := length (krl_revoked_certs krl) in
          match ca_key with
          | None => (0, Some i, add None, w)
          | Some ca_key =>
              match sshkey_from_private w ca_key with
              | (r, ca, w) =>
                  if negb (r =? 0) then (r, None, krl, w) else (0, Some i, add ca, w)
              end
          end
  end.

(** The two loops that coalesce [ers] with its neighbours: [rpre] lists the
    predecessors, nearest first, [post] the successors. *)
Fixpoint coalesce_pred (rpre : list revoked_serial) (ers : revoked_serial)
  : list revoked_serial * revoked_serial :=
  match rpre with
  | [] => ([], ers)
  | crs :: rest =>
      if negb (rs_lo ers =? 0) && (rs_hi crs <? u64 (rs_lo ers - 1)) then (rpre, ers)
      else
        (* This entry overlaps. *)
        coalesce_pred rest
          (if rs_lo crs <? rs_lo ers then mk_serial (rs_lo crs) (rs_hi ers) else ers)
  end.

Fixpoint coalesce_succ (ers : revoked_serial) (post : list revoked_serial)
  : revoked_serial * list revoked_serial :=
  match post with
  | [] => (ers, [])
  | crs :: rest =>
      if negb (rs_hi ers =? 2 ^ 64 - 1) && (rs_lo crs >? u64 (rs_hi ers + 1)) then (ers, post)
      else
        (* This entry overlaps. *)
        coalesce_succ
          (if rs_hi crs >? rs_hi ers then mk_serial (rs_lo ers) (rs_hi crs) else ers) rest
  end.

Definition coalesce (c : cursor (A := revoked_serial)) : list revoked_serial :=
  let '(pre, ers, post) := c in
  let '(rpre, ers) := coalesce_pred (reverse pre) ers in
  let '(ers, post) := coalesce_succ ers post in
  reverse rpre ++ ers :: post.

Definition insert_serial_range (w : world) (rt : list revoked_serial) (lo hi : Z)
  : Z * list revoked_serial * world :=
  let rs := mk_serial lo hi in
  let just_insert :=
    let '(ok, w) := malloc w in
    if negb ok then (SSH_ERR_ALLOC_FAIL, rt, w)
    else
      match RB_INSERT_at serial_cmp rt rs with
      | inl _ => (SSH_ERR_INTERNAL_ERROR, rt, w) (* Shouldn't happen *)
      | inr (pre, post) => (0, coalesce (pre, rs, post), w)
      end in
  match RB_NFIND serial_cmp rt rs with
  | None => just_insert
  | Some (pre, ers, post) =>
      if negb (serial_cmp ers rs =? 0) then just_insert
      else
        (* The inserted entry overlaps an existing one. Grow the existing
           entry. *)
        let ers := if rs_lo ers >? lo then mk_serial lo (rs_hi ers) else ers in
        let ers := if rs_hi ers <? hi then mk_serial (rs_lo ers) hi else ers in
        (0, coalesce (pre, ers, post), w)
  end.

Definition ssh_krl_revoke_cert_by_serial_range (w : world) (krl : ssh_krl)
    (ca_key : option key) (lo hi : Z) : Z * ssh_krl * world :=
  if (lo >? hi) || (lo =? 0) then (SSH_ERR_INVALID_ARGUMENT, krl, w)
  else
    match revoked_certs_for_ca_key w krl ca_key true with
    | (r, Some i, krl, w) =>
        match krl_revoked_certs krl !! i with
        | Some rc =>
            let '(r, serials, w) := insert_serial_range w (rc_serials rc) lo hi in
            (r, set_certs krl (<[i := mk_certs (rc_ca_key rc) serials (rc_key_ids rc)]>
                  (krl_revoked_certs krl)), w)
        | None => (r, krl, w)
        end
    | (r, None, krl, w) => (r, krl, w)
    end.

Definition ssh_krl_revoke_cert_by_serial (w : world) (krl : ssh_krl)
    (ca_key : option key) (serial : Z) : Z * ssh_krl * world :=
  ssh_krl_revoke_cert_by_serial_range w krl ca_key serial serial.

Definition ssh_krl_revoke_cert_by_key_id (w : world) (krl : ssh_krl)
    (ca_key : option key) (key_id : list Z) : Z * ssh_krl * world :=
  match revoked_certs_for_ca_key w krl ca_key true with
  | (r, Some i, krl, w) =>
      match krl_revoked_certs krl !! i with
      | Some rc =>
          let '(ok, w) := malloc w in
          if negb ok then (SSH_ERR_ALLOC_FAIL, krl, w)
          else
            let '(ok, w) := malloc w in
            if negb ok then (SSH_ERR_ALLOC_FAIL, krl, w)
            else
              let '(_, ids) := RB_INSERT key_id_cmp (rc_key_ids rc) key_id in
              (0, set_certs krl (<[i := mk_certs (rc_ca_key rc) (rc_serials rc) ids]>
                    (krl_revoked_certs krl)), w)
      | None => (r, krl, w)
      end
  | (r, None, krl, w) => (r, krl, w)
  end.

(** Convert "key" to a public key blob without any certificate information *)
Definition plain_key_blob (w : world) (k : key) : Z * list Z * world :=
  match sshkey_from_private w k with
  | (r, None, w) => (r, [], w)
  | (r, Some kcopy, w) =>
      if negb (r =? 0) then (r, [], w)
      else if sshkey_is_cert kcopy then
        let '(r, kcopy) := sshkey_drop_cert kcopy in
        if negb (r =? 0) then (r, [], w) else sshkey_to_blob w kcopy
      else sshkey_to_blob w kcopy
  end.

Definition revoke_blob (w : world) (rbt : list revoked_blob) (blob : list Z)
  : Z * list revoked_blob * world :=
  let '(ok, w) := malloc w in
  if negb ok then (SSH_ERR_ALLOC_FAIL, rbt, w)
  else (0, (RB_INSERT blob_cmp rbt blob).2, w).

Definition ssh_krl_revoke_key_explicit (w : world) (krl : ssh_krl) (k : key)
  : Z * ssh_krl * world :=
  let '(r, blob, w) := plain_key_blob w k in
  if negb (r =? 0) then (r, krl, w)
  else
    let '(r, t, w) := revoke_blob w (revoked_keys krl) blob in (r, set_keys krl t, w).

Definition revoke_by_hash (w : world) (target : list revoked_blob) (p : list Z)
  : Z * list revoked_blob * world :=
  let '(ok, w) := malloc w in
  if negb ok then (SSH_ERR_SYSTEM_ERROR, target, w) else revoke_blob w target p.

Definition ssh_krl_revoke_key_sha1 (w : world) (krl : ssh_krl) (p : list Z)
  : Z * ssh_krl * world :=
  if negb (length p =? 20)%nat then (SSH_ERR_INVALID_FORMAT, krl, w)
  else
    let '(r, t, w) := revoke_by_hash w (revoked_sha1s krl) p in (r, set_sha1s krl t, w).

Definition ssh_krl_revoke_key_sha256 (w : world) (krl : ssh_krl) (p : list Z)
  : Z * ssh_krl * world :=
  if negb (length p =? 32)%nat then (SSH_ERR_INVALID_FORMAT, krl, w)
  else
    let '(r, t, w) := revoke_by_hash w (revoked_sha256s krl) p in (r, set_sha256s krl t, w).

Definition ssh_krl_revoke_key (w : world) (krl : ssh_krl) (k : key) : Z * ssh_krl * world :=
  if negb (sshkey_is_cert k) then ssh_krl_revoke_key_explicit w krl k
  else if cert_serial k =? 0 then
    ssh_krl_revoke_cert_by_key_id w krl (Some (cert_signature_key k)) (cert_key_id k)
  else ssh_krl_revoke_cert_by_serial w krl (Some (cert_signature_key k)) (cert_serial k).

(** ** Checking a key *)

(** Checks certificate serial number and key ID revocation *)
Definition is_cert_revoked (k : key) (rc : revoked_certs) : Z :=
  match RB_FIND key_id_cmp (rc_key_ids rc) (cert_key_id k) with
  | Some _ => SSH_ERR_KEY_REVOKED
  | None =>
      if cert_serial k =? 0 then 0
      else
        match RB_FIND serial_cmp (rc_serials rc)
                (mk_serial (cert_serial k) (cert_serial k)) with
        | Some _ => SSH_ERR_KEY_REVOKED
        | None => 0
        end
  end.

(** [revoked_certs_for_ca_key] without [allow_create], then the check. *)
Definition check_certs_of (w : world) (krl : ssh_krl) (ca : option key) (k : key) : Z :=
  match revoked_certs_for_ca_key w krl ca false with
  | (r, Some i, _, _) =>
      match krl_revoked_certs krl !! i with
      | Some rc => is_cert_revoked k rc
      | None => r
      end
  | (r, None, _, _) => r
  end.

(** Checks whether a given key/cert is revoked. Does not check its CA *)
Definition is_key_revoked (w : world) (krl : ssh_krl) (k : key) : Z * world :=
  let '(r, blob, w) := sshkey_fingerprint_raw w k SSH_DIGEST_SHA1 in
  if negb (r =? 0) then (r, w)
  else if found (RB_FIND blob_cmp (revoked_sha1s krl) blob) then (SSH_ERR_KEY_REVOKED, w)
  else
    let '(r, blob, w) := sshkey_fingerprint_raw w k SSH_DIGEST_SHA256 in
    if negb (r =? 0) then (r, w)
    else if found (RB_FIND blob_cmp (revoked_sha256s krl) blob) then (SSH_ERR_KEY_REVOKED, w)
    else
      (* Next, explicit keys *)
      let '(r, blob, w) := plain_key_blob w k in
      if negb (r =? 0) then (r, w)
      else if found (RB_FIND blob_cmp (revoked_keys krl) blob) then (SSH_ERR_KEY_REVOKED, w)
      else if negb (sshkey_is_cert k) then (0, w)
      else
        (* Check cert revocation for the specified CA *)
        let r := check_certs_of w krl (Some (cert_signature_key k)) k in
        if negb (r =? 0) then (r, w)
        (* Check cert revocation for the wildcard CA *)
        else (check_certs_of w krl None k, w).

Definition ssh_krl_check_key (w : world) (krl : ssh_krl) (k : key) : Z * world :=
  let '(r, w) := is_key_revoked w krl k in
  if negb (r =? 0) then (r, w)
  else if sshkey_is_cert k then is_key_revoked w krl (cert_signature_key k)
  else (0, w).
End krl.

Arguments revoked_certs key : clear implicits.
Arguments ssh_krl key : clear implicits.
