(* ===== verification/KrlThms.v ===== *)
(** What revocation lists promise.

    The ranges of serial numbers in a tree are the canonical form of a set of
    numbers: sorted, disjoint and not adjacent.  Inserting a range adds its
    members to the set, whatever the shape of the tree, and a list built by
    any sequence of revocations revokes exactly what was asked for. *)

From stdpp Require Import base list numbers tactics sets sorting.
From Stdlib Require Import ZArith Lia ZifyBool.
From S2P Require Import Prelude Sshbuf SshbufGetput RbTree Krl.

(** ** Ranges of serial numbers *)

Definition rs_ok (x : revoked_serial) : Prop := 0 <= rs_lo x <= rs_hi x /\ rs_hi x < 2 ^ 64.

Definition gap (x y : revoked_serial) : Prop := rs_hi x + 1 < rs_lo y.

(** The representation invariant of a tree of serial numbers. *)
Definition serials_ok (l : list revoked_serial) : Prop :=
  Forall rs_ok l /\ StronglySorted gap l.

Definition rs_mem (n : Z) (x : revoked_serial) : Prop := rs_lo x <= n <= rs_hi x.
Definition serials_mem (n : Z) (l : list revoked_serial) : Prop := Exists (rs_mem n) l.

Lemma serials_mem_app n l k : serials_mem n (l ++ k) <-> serials_mem n l \/ serials_mem n k.
Proof. apply Exists_app. Qed.

Lemma serials_mem_cons n x l : serials_mem n (x :: l) <-> rs_mem n x \/ serials_mem n l.
Proof. apply Exists_cons. Qed.

Lemma serials_mem_nil n : serials_mem n [] <-> False.
Proof. apply Exists_nil. Qed.

Lemma serials_ok_cons x l :
  serials_ok (x :: l) <-> rs_ok x /\ serials_ok l /\ Forall (gap x) l.
Proof.
  unfold serials_ok. rewrite Forall_cons, StronglySorted_cons. tauto.
Qed.

Lemma serials_ok_app l k :
  serials_ok (l ++ k) <->
  serials_ok l /\ serials_ok k /\ (forall x y, x ∈ l -> y ∈ k -> gap x y).
Proof. unfold serials_ok. rewrite Forall_app, StronglySorted_app. tauto. Qed.

Lemma serials_above n x l : Forall (gap x) l -> serials_mem n l -> rs_hi x + 1 < n.
Proof.
  intros Hg Hm. apply Exists_exists in Hm as (y & Hy & Hn).
  rewrite Forall_forall in Hg. specialize (Hg y Hy). unfold gap, rs_mem in *. lia.
Qed.

(** The representation is canonical. *)
Lemma serials_canonical l k :
  serials_ok l -> serials_ok k -> (forall n, serials_mem n l <-> serials_mem n k) -> l = k.
Proof.
  revert k. induction l as [|[a b] l IH]; intros [|[c d] k] Hl Hk Hm; [done|..].
  - exfalso. apply serials_ok_cons in Hk as ((? & ?) & _). apply (serials_mem_nil c), Hm.
    apply serials_mem_cons. left. unfold rs_mem; cbn in *; lia.
  - exfalso. apply serials_ok_cons in Hl as ((? & ?) & _). apply (serials_mem_nil a), Hm.
    apply serials_mem_cons. left. unfold rs_mem; cbn in *; lia.
  - apply serials_ok_cons in Hl as ([Hab _] & Hl & Hgl).
    apply serials_ok_cons in Hk as ([Hcd _] & Hk & Hgk). cbn in *.
    assert (Hin : forall n, (a <= n <= b \/ serials_mem n l) <-> (c <= n <= d \/ serials_mem n k)).
    { intros n. specialize (Hm n). rewrite !serials_mem_cons in Hm. exact Hm. }
    assert (Hal : forall n, serials_mem n l -> b + 1 < n) by (intros n; exact (serials_above n _ l Hgl)).
    assert (Hak : forall n, serials_mem n k -> d + 1 < n) by (intros n; exact (serials_above n _ k Hgk)).
    assert (a = c) as ->.
    { destruct (proj1 (Hin a) ltac:(left; lia)) as [?|?%Hak];
        destruct (proj2 (Hin c) ltac:(left; lia)) as [?|?%Hal]; lia. }
    assert (b = d) as ->.
    { destruct (Z.lt_trichotomy b d) as [Hlt|[?|Hlt]]; [exfalso|done|exfalso].
      - destruct (proj2 (Hin (b + 1)) ltac:(left; lia)) as [?|?%Hal]; lia.
      - destruct (proj1 (Hin (d + 1)) ltac:(left; lia)) as [?|?%Hak]; lia. }
    f_equal. apply IH; [done..|]. intros n. specialize (Hin n).
    split; intros Hn.
    + pose proof (Hal n Hn). destruct (proj1 Hin ltac:(tauto)); [lia|done].
    + pose proof (Hak n Hn). destruct (proj2 Hin ltac:(tauto)); [lia|done].
Qed.

Lemma serial_cmp_mono l rs :
  serials_ok l -> rs_lo rs <= rs_hi rs -> StronglySorted (descends serial_cmp rs) l.
Proof.
  intros [Hok Hs] Hrs. induction Hs as [|x l Hs IH Hx]; [constructor|].
  apply Forall_cons in Hok as [Hox Hok]. apply StronglySorted_cons. split; [|by apply IH].
  apply Forall_forall. intros y Hy. rewrite Forall_forall in Hx, Hok.
  specialize (Hx y Hy). specialize (Hok y Hy). unfold descends, serial_cmp, gap, rs_ok in *.
  split; intros; repeat case_if; lia.
Qed.

(** ** Coalescing *)

Lemma coalesce_pred_spec rpre ers :
  serials_ok (reverse rpre) -> rs_ok ers -> Forall (fun x => rs_hi x <= rs_hi ers) rpre ->
  let '(rpre', ers') := coalesce_pred rpre ers in
  rs_ok ers' /\ rs_lo ers' <= rs_lo ers /\ rs_hi ers' = rs_hi ers /\
  serials_ok (reverse rpre') /\ Forall (fun x => gap x ers') rpre' /\
  (forall n, serials_mem n (reverse rpre') \/ rs_mem n ers' <->
             serials_mem n (reverse rpre) \/ rs_mem n ers).
Proof.
  revert ers. induction rpre as [|crs rest IH]; intros ers Hok Hers Hhi; cbn [coalesce_pred].
  { split_and!; auto; lia. }
  rewrite reverse_cons in Hok |- *. apply serials_ok_app in Hok as (Hrest & Hcrs & Hgap).
  apply serials_ok_cons in Hcrs as (Hc & _). apply Forall_cons in Hhi as [Hh Hhi].
  destruct (negb (rs_lo ers =? 0) && _) eqn:E.
  - assert (Hg : gap crs ers).
    { unfold gap, u64, rs_ok in *. rewrite Z.mod_small in E by lia. lia. }
    split_and!; auto; try lia.
    + rewrite reverse_cons. apply serials_ok_app. split_and!; auto.
      apply serials_ok_cons. split_and!; [done|split; constructor|constructor].
    + constructor; [done|]. apply Forall_forall. intros x Hx.
      specialize (Hgap x crs). rewrite elem_of_reverse in Hgap.
      specialize (Hgap Hx ltac:(set_solver)). unfold gap, rs_ok in *. lia.
    + intros n. by rewrite reverse_cons.
  - set (ers1 := if rs_lo crs <? rs_lo ers then _ else _).
    assert (H1 : rs_ok ers1 /\ rs_hi ers1 = rs_hi ers /\ rs_lo ers1 = Z.min (rs_lo crs) (rs_lo ers)).
    { unfold ers1. unfold rs_ok in *. destruct (rs_lo crs <? rs_lo ers) eqn:?; cbn; lia. }
    destruct H1 as (H1 & Hhi1 & Hlo1).
    specialize (IH ers1 Hrest H1). rewrite Hhi1 in IH. specialize (IH Hhi).
    destruct (coalesce_pred rest ers1) as [rpre' ers']. destruct IH as (? & ? & ? & ? & ? & Hm).
    split_and!; auto; [lia|]. intros n. rewrite Hm, serials_mem_app, serials_mem_cons, serials_mem_nil.
    enough (rs_mem n ers1 <-> rs_mem n crs \/ rs_mem n ers) by tauto.
    unfold rs_mem, rs_ok, u64 in *. rewrite Hlo1, Hhi1.
    destruct (rs_lo ers =? 0) eqn:E0; cbn in E; [lia|]. rewrite Z.mod_small in E by lia. lia.
Qed.

Lemma coalesce_succ_spec ers post :
  serials_ok post -> rs_ok ers -> Forall (fun x => rs_lo ers <= rs_lo x) post ->
  let '(ers', post') := coalesce_succ ers post in
  rs_ok ers' /\ rs_lo ers' = rs_lo ers /\ serials_ok (ers' :: post') /\
  (forall n, rs_mem n ers' \/ serials_mem n post' <-> rs_mem n ers \/ serials_mem n post).
Proof.
  revert ers. induction post as [|crs rest IH]; intros ers Hok Hers Hlo; cbn [coalesce_succ].
  { split_and!; auto. apply serials_ok_cons. split_and!; auto; constructor. }
  pose proof Hok as Hok0.
  apply serials_ok_cons in Hok as (Hc & Hrest & Hg). apply Forall_cons in Hlo as [Hl Hlo].
  destruct (negb (rs_hi ers =? 2 ^ 64 - 1) && _) eqn:E.
  - split_and!; auto. apply serials_ok_cons. split_and!; auto.
    assert (Hgc : gap ers crs).
    { unfold gap, u64, rs_ok in *. rewrite Z.mod_small in E by lia. lia. }
    constructor; [done|]. eapply Forall_impl; [exact Hg|].
    intros x. unfold gap, rs_ok in *. lia.
  - set (ers1 := if rs_hi crs >? rs_hi ers then _ else _).
    assert (H1 : rs_ok ers1 /\ rs_lo ers1 = rs_lo ers /\ rs_hi ers1 = Z.max (rs_hi crs) (rs_hi ers)).
    { unfold ers1. unfold rs_ok in *. destruct (rs_hi crs >? rs_hi ers) eqn:?; cbn; lia. }
    destruct H1 as (H1 & Hlo1 & Hhi1).
    specialize (IH ers1 Hrest H1). rewrite Hlo1 in IH. specialize (IH Hlo).
    destruct (coalesce_succ ers1 rest) as [ers' post']. destruct IH as (? & ? & ? & Hm).
    split_and!; auto. intros n. rewrite Hm, serials_mem_cons.
    enough (rs_mem n ers1 <-> rs_mem n crs \/ rs_mem n ers) by tauto.
    unfold rs_mem, rs_ok, u64 in *. rewrite Hlo1, Hhi1.
    destruct (rs_hi ers =? 2 ^ 64 - 1) eqn:E0; cbn in E; [lia|].
    rewrite Z.mod_small in E by lia. lia.
Qed.

Lemma coalesce_spec pre ers post :
  serials_ok (pre ++ post) -> rs_ok ers ->
  Forall (fun x => rs_hi x <= rs_hi ers) pre -> Forall (fun x => rs_lo ers <= rs_lo x) post ->
  serials_ok (coalesce (pre, ers, post)) /\
  (forall n, serials_mem n (coalesce (pre, ers, post)) <->
             serials_mem n pre \/ rs_mem n ers \/ serials_mem n post).
Proof.
  intros Hok Hers Hpre Hpost. apply serials_ok_app in Hok as (Hop & Hos & Hps). unfold coalesce.
  pose proof (coalesce_pred_spec (reverse pre) ers) as Hp. rewrite reverse_involutive in Hp.
  specialize (Hp Hop Hers ltac:(by apply Forall_reverse)).
  destruct (coalesce_pred (reverse pre) ers) as [rpre e1].
  destruct Hp as (He1 & Hlo1 & Hhi1 & Hok1 & Hg1 & Hm1).
  pose proof (coalesce_succ_spec e1 post Hos He1) as Hs.
  destruct (coalesce_succ e1 post) as [e2 post2].
  destruct Hs as (He2 & Hlo2 & Hok2 & Hm2).
  { eapply Forall_impl; [exact Hpost|]. cbn. lia. }
  split.
  - apply serials_ok_app. split_and!; auto. intros x y Hx Hy. rewrite elem_of_reverse in Hx.
    rewrite Forall_forall in Hg1. specialize (Hg1 x Hx). apply serials_ok_cons in Hok2 as (_ & _ & Hg2).
    rewrite Forall_forall in Hg2. unfold gap, rs_ok in *.
    apply elem_of_cons in Hy as [->|Hy]; [lia|]. specialize (Hg2 y Hy). lia.
  - intros n. rewrite serials_mem_app, serials_mem_cons. specialize (Hm1 n). specialize (Hm2 n).
    tauto.
Qed.

Lemma serial_cmp_sym x y : serial_cmp x y = 0 <-> serial_cmp y x = 0.
Proof. unfold serial_cmp. repeat case_if; lia. Qed.

Lemma serial_cmp_lt x y :
  rs_lo x <= rs_hi x -> rs_lo y <= rs_hi y -> serial_cmp x y < 0 -> rs_hi x < rs_lo y.
Proof. unfold serial_cmp. repeat case_if; lia. Qed.

Lemma serial_cmp_gt x y :
  rs_lo x <= rs_hi x -> rs_lo y <= rs_hi y -> serial_cmp x y > 0 -> rs_hi y < rs_lo x.
Proof. unfold serial_cmp. repeat case_if; lia. Qed.

Section serials.
Context `{TS : TreeShape}.

Definition inserted (l : list revoked_serial) (lo hi r : Z) (l' : list revoked_serial) : Prop :=
  serials_ok l' /\
  (r = 0 -> forall n, serials_mem n l' <-> serials_mem n l \/ lo <= n <= hi) /\
  (r <> 0 -> r = SSH_ERR_ALLOC_FAIL /\ l' = l).

Lemma insert_new_spec w l lo hi r l' w' :
  serials_ok l -> 0 <= lo <= hi -> hi < 2 ^ 64 ->
  Forall (fun y => serial_cmp (mk_serial lo hi) y <> 0) l ->
  (let '(ok, w) := malloc w in
   if negb ok then (SSH_ERR_ALLOC_FAIL, l, w)
   else match RB_INSERT_at serial_cmp l (mk_serial lo hi) with
        | inl _ => (SSH_ERR_INTERNAL_ERROR, l, w)
        | inr (pre, post) => (0, coalesce (pre, mk_serial lo hi, post), w)
        end) = (r, l', w') ->
  inserted l lo hi r l'.
Proof.
  intros Hok Hlo Hhi Hne. destruct (malloc w) as [[] w1]; cbn [negb].
  2:{ intros [= <- <- <-]. split_and!; done. }
  pose proof (RB_INSERT_at_spec serial_cmp l (mk_serial lo hi)
    (serial_cmp_mono l (mk_serial lo hi) Hok (proj2 Hlo))) as H.
  destruct (RB_INSERT_at _ _ _) as [y|[pre post]].
  { rewrite Forall_forall in Hne. destruct H as [Hy H]. by apply Hne in Hy. }
  intros [= <- <- <-]. destruct H as (-> & Hpre & Hpost).
  pose proof Hok as [Hall _]. apply Forall_app in Hall as [Ha Hb].
  destruct (coalesce_spec pre (mk_serial lo hi) post Hok) as [Hok' Hm].
  - by split.
  - apply Forall_forall. intros x Hx. rewrite Forall_forall in Hpre, Ha.
    pose proof (serial_cmp_gt (mk_serial lo hi) x ltac:(cbn; lia) (proj2 (proj1 (Ha x Hx)))
      (Hpre x Hx)). cbn in *. lia.
  - apply Forall_forall. intros x Hx. rewrite Forall_forall in Hpost, Hb.
    pose proof (serial_cmp_lt (mk_serial lo hi) x ltac:(cbn; lia) (proj2 (proj1 (Hb x Hx)))
      (Hpost x Hx)). cbn in *. lia.
  - split; [done|]. split; [|done]. intros _ n. rewrite Hm, serials_mem_app.
    unfold rs_mem. cbn. tauto.
Qed.

Lemma insert_serial_range_spec w l lo hi r l' w' :
  serials_ok l -> 0 <= lo <= hi -> hi < 2 ^ 64 ->
  insert_serial_range w l lo hi = (r, l', w') -> inserted l lo hi r l'.
Proof.
  intros Hok Hlo Hhi. unfold insert_serial_range.
  pose proof (RB_NFIND_spec serial_cmp l (mk_serial lo hi)
    (serial_cmp_mono l (mk_serial lo hi) Hok (proj2 Hlo))) as H.
  inversion H as [pre x post El Ec Er|pre x post El Hpre Hx Hpost Er|Hall Er]; clear H.
  - apply serial_cmp_sym in Ec as Ec'. rewrite Ec'. cbn [Z.eqb negb]. intros [= <- <- <-].
    pose proof Hok as Hok0. rewrite El in Hok0. apply serials_ok_app in Hok0 as (Hp & Hq & Hpq).
    apply serials_ok_cons in Hq as (Hx & Hq & Hxq).
    set (e1 := if rs_lo x >? lo then _ else _). set (e2 := if rs_hi e1 <? hi then _ else _).
    assert (He : rs_lo e2 = Z.min lo (rs_lo x) /\ rs_hi e2 = Z.max hi (rs_hi x)).
    { unfold rs_ok in Hx. destruct (rs_hi e1 <? hi) eqn:E2; unfold e2, e1 in *; cbn;
        destruct (rs_lo x >? lo) eqn:E1; cbn in *; lia. }
    destruct He as [He1 He2]. unfold rs_ok in Hx.
    destruct (coalesce_spec pre e2 post) as [Hok' Hm].
    + apply serials_ok_app. split_and!; auto. intros y z Hy Hz. apply Hpq; set_solver.
    + unfold rs_ok. lia.
    + apply Forall_forall. intros y Hy. specialize (Hpq y x Hy ltac:(set_solver)).
      unfold gap in Hpq. lia.
    + eapply Forall_impl; [exact Hxq|]. intros y. unfold gap. lia.
    + split; [done|]. split; [|done]. intros _ n. rewrite Hm, El, serials_mem_app, serials_mem_cons.
      enough (rs_mem n e2 <-> rs_mem n x \/ lo <= n <= hi) by tauto.
      unfold rs_mem. rewrite He1, He2. unfold serial_cmp in Ec. cbn in Ec.
      repeat case_if; lia.
  - destruct (serial_cmp x (mk_serial lo hi) =? 0) eqn:E.
    { apply Z.eqb_eq, serial_cmp_sym in E. lia. }
    cbn [negb]. apply insert_new_spec; auto. rewrite El. apply Forall_app.
    split; [eapply Forall_impl; [exact Hpre|]; cbn; lia|].
    constructor; [lia|]. eapply Forall_impl; [exact Hpost|]. cbn. lia.
  - apply insert_new_spec; auto. eapply Forall_impl; [exact Hall|]. cbn. lia.
Qed.

(** A serial number is found exactly if a range holds it. *)
Lemma find_serial l s :
  serials_ok l -> found (RB_FIND serial_cmp l (mk_serial s s)) = true <-> serials_mem s l.
Proof.
  intros Hok. pose proof (RB_FIND_spec serial_cmp l (mk_serial s s)
    (serial_cmp_mono l (mk_serial s s) Hok ltac:(cbn; lia))) as H.
  unfold serials_mem. rewrite Exists_exists. destruct (RB_FIND _ _ _) as [x|]; cbn.
  - split; [|done]. intros _. exists x. destruct H as [Hx Hc]. split; [done|].
    unfold serial_cmp in Hc. cbn in Hc. unfold rs_mem. repeat case_if; lia.
  - split; [done|]. intros (x & Hx & Hm). rewrite Forall_forall in H. specialize (H x Hx).
    unfold serial_cmp, rs_mem in *. cbn in H. repeat case_if; lia.
Qed.
End serials.

(** ** Key IDs and blobs *)

#[export] Instance strcmp_total : TotalCmp strcmp.
Proof.
  split.
  - induction a as [|x a IH]; intros [|y b]; cbn; try done.
    destruct (x <? y) eqn:E1; [|destruct (x >? y) eqn:E2].
    + split; [lia|]. intros [= -> ->]. lia.
    + split; [lia|]. intros [= -> ->]. lia.
    + assert (x = y) as -> by lia. rewrite IH. split; [by intros ->|by intros [= ->]].
  - induction a as [|x a IH]; intros [|y b]; cbn; try lia.
    specialize (IH b). repeat case_if; lia.
  - induction a as [|x a IH]; intros [|y b] [|z c]; cbn; try lia.
    specialize (IH b c). intros H1 H2. repeat case_if; (lia || auto).
Qed.

Lemma memcmp_strcmp a b n :
  memcmp a b n = strcmp (take n a) (take n b) \/ (length a < n)%nat \/ (length b < n)%nat.
Proof.
  revert a b. induction n as [|n IH]; intros a b; [left; by destruct a, b|].
  destruct a as [|x a], b as [|y b]; cbn [length]; try (right; lia).
  destruct (IH a b) as [E|]; [left|right; lia]. cbn. by rewrite E.
Qed.

Lemma strcmp_take a b :
  strcmp a b =
    let r := strcmp (take (length a `min` length b) a) (take (length a `min` length b) b) in
    if negb (r =? 0) then r
    else if (length a <? length b)%nat then -1 else if (length b <? length a)%nat then 1 else 0.
Proof.
  revert b. induction a as [|x a IH]; intros [|y b]; try done.
  cbn [length Nat.min take strcmp]. cbn zeta.
  destruct (x <? y) eqn:E1; [done|]. destruct (x >? y) eqn:E2; [done|]. rewrite IH. done.
Qed.

(** The order of blobs is the lexicographic one. *)
Lemma blob_cmp_strcmp a b : blob_cmp a b = strcmp a b.
Proof.
  rewrite strcmp_take. unfold blob_cmp. cbn zeta.
  destruct (length a =? length b)%nat eqn:E; cbn [negb].
  - apply Nat.eqb_eq in E. rewrite E, Nat.min_id, Nat.ltb_irrefl.
    destruct (memcmp_strcmp a b (length b)) as [->|]; [|lia]. by destruct (_ =? 0) eqn:?; cbn; [lia|].
  - destruct (memcmp_strcmp a b (length a `min` length b)) as [->|]; [|lia].
    destruct (_ =? 0) eqn:E0; cbn [negb]; [|done].
    destruct (length b <? length a)%nat eqn:E1, (length a <? length b)%nat eqn:E2; lia.
Qed.

#[export] Instance blob_cmp_total : TotalCmp blob_cmp.
Proof. split; intros *; rewrite !blob_cmp_strcmp; apply strcmp_total. Qed.

#[export] Instance key_id_cmp_total : TotalCmp key_id_cmp.
Proof. apply strcmp_total. Qed.

(** ** Whole lists *)

Section lists.
Context `{TS : TreeShape} {key : Type} `{SK : SshKey key} `{SL : !SshKeyLaws key}.
Implicit Types (krl : ssh_krl key) (k : key) (ca : option key) (rc : revoked_certs key).

Abbreviation find_ca ca l := (list_find (fun rc => ca_matches ca rc = true) l).

(** The entry that a CA's revocations are kept in. *)
Definition entry krl ca : option (revoked_certs key) := snd <$> find_ca ca (krl_revoked_certs krl).

Definition entry_serial krl ca (n : Z) : Prop :=
  match entry krl ca with Some rc => serials_mem n (rc_serials rc) | None => False end.

Definition entry_key_id krl ca (id : list Z) : Prop :=
  match entry krl ca with Some rc => id ∈ rc_key_ids rc | None => False end.

Definition rc_ok rc : Prop :=
  serials_ok (rc_serials rc) /\ StronglySorted (fun a b => key_id_cmp a b < 0) (rc_key_ids rc).

Abbreviation blobs_ok l := (StronglySorted (fun a b => blob_cmp a b < 0) l).

(** The representation invariant of a revocation list. *)
Definition krl_ok krl : Prop :=
  blobs_ok (revoked_keys krl) /\ blobs_ok (revoked_sha1s krl) /\ blobs_ok (revoked_sha256s krl) /\
  Forall rc_ok (krl_revoked_certs krl).

(** Two names of certificate authorities that share an entry. *)
Definition same_ca (a b : option key) : Prop :=
  match a, b with
  | None, None => True
  | Some a, Some b => sshkey_equal a b = true
  | _, _ => False
  end.

Lemma same_ca_matches a b rc :
  same_ca a b -> ca_matches a rc = true -> ca_matches b rc = true.
Proof.
  unfold same_ca, ca_matches. destruct a, b, (rc_ca_key rc); try done.
  intros H1 H2. by eapply equal_trans.
Qed.

Lemma matches_same_ca a b rc :
  ca_matches a rc = true -> ca_matches b rc = true -> same_ca a b.
Proof.
  unfold same_ca, ca_matches. destruct a, b, (rc_ca_key rc); try done.
  intros H1 H2. eapply equal_trans; [apply equal_sym, H1|done].
Qed.

Lemma same_ca_sym a b : same_ca a b -> same_ca b a.
Proof. unfold same_ca. destruct a, b; try done. apply equal_sym. Qed.

Lemma find_ca_unique l i rc ca :
  l !! i = Some rc -> ca_matches ca rc = true ->
  (forall j rc', l !! j = Some rc' -> (j < i)%nat -> ca_matches ca rc' = false) ->
  find_ca ca l = Some (i, rc).
Proof.
  intros Hi Hm Hj. apply list_find_Some. split_and!; [done..|].
  intros j y Hy Hlt. rewrite (Hj j y Hy Hlt). done.
Qed.

(** Changing the contents of the entry of one CA changes what is recorded for
    that CA and for no other. *)
Lemma entry_update krl ca ca' i rc rc' :
  find_ca ca (krl_revoked_certs krl) = Some (i, rc) -> rc_ca_key rc' = rc_ca_key rc ->
  (same_ca ca ca' -> entry krl ca' = Some rc /\
     entry (set_certs krl (<[i := rc']> (krl_revoked_certs krl))) ca' = Some rc') /\
  (~ same_ca ca ca' ->
     entry (set_certs krl (<[i := rc']> (krl_revoked_certs krl))) ca' = entry krl ca').
Proof.
  intros Hf Hca. unfold entry. cbn [krl_revoked_certs set_certs].
  set (l := krl_revoked_certs krl) in *.
  pose proof Hf as (Hi & Hm & Hj)%list_find_Some. pose proof (lookup_lt_Some _ _ _ Hi) as Hlt.
  assert (Hm' : ca_matches ca rc' = true) by (unfold ca_matches in *; by rewrite Hca).
  assert (Hsame : forall y, ca_matches y rc' = ca_matches y rc) by (intros y; unfold ca_matches; by rewrite Hca).
  split; intros Hs.
  - assert (Hfree : forall j y, l !! j = Some y -> (j < i)%nat -> ca_matches ca' y = false).
    { intros j y Hy Hlt'. destruct (ca_matches ca' y) eqn:E; [|done].
      exfalso. apply (Hj j y Hy Hlt'). apply (same_ca_matches ca'); [by apply same_ca_sym|done]. }
    rewrite (find_ca_unique l i rc ca'); [|done|by apply (same_ca_matches ca)|done].
    rewrite (find_ca_unique (<[i:=rc']> l) i rc' ca').
    + done.
    + by apply list_lookup_insert_eq.
    + by apply (same_ca_matches ca).
    + intros j y Hy Hlt'. rewrite list_lookup_insert_ne in Hy by lia. by eapply Hfree.
  - assert (Hno : ca_matches ca' rc = false).
    { destruct (ca_matches ca' rc) eqn:E; [|done]. destruct Hs. by apply (matches_same_ca _ _ rc). }
    destruct (find_ca ca' l) as [[j y]|] eqn:E.
    + apply list_find_Some in E as (Hj' & Hmy & Hlow). 
      assert (j <> i) by (intros ->; congruence).
      rewrite (find_ca_unique (<[i:=rc']> l) j y ca'); [done|by rewrite list_lookup_insert_ne|done|].
      intros p z Hz Hp. destruct (decide (p = i)) as [->|].
      * rewrite list_lookup_insert_eq in Hz by done. injection Hz as <-. by rewrite Hsame.
      * rewrite list_lookup_insert_ne in Hz by done. specialize (Hlow p z Hz Hp).
        by destruct (ca_matches ca' z).
    + apply list_find_None in E. replace (find_ca ca' (<[i:=rc']> l)) with (@None (nat * revoked_certs key)); [done|].
      symmetry. apply list_find_None. apply Forall_insert; [done|]. by rewrite Hsame, Hno.
Qed.

(** What a list has on record. *)
Inductive fact :=
  | FKey (blob : list Z)
  | FSha1 (hash : list Z)
  | FSha256 (hash : list Z)
  | FSerial (ca : option key) (n : Z)
  | FKeyId (ca : option key) (id : list Z).

Definition recorded krl (f : fact) : Prop :=
  match f with
  | FKey b => b ∈ revoked_keys krl
  | FSha1 h => h ∈ revoked_sha1s krl
  | FSha256 h => h ∈ revoked_sha256s krl
  | FSerial ca n => entry_serial krl ca n
  | FKeyId ca id => entry_key_id krl ca id
  end.

Lemma entry_set_certs_app krl rc ca' :
  entry (set_certs krl (krl_revoked_certs krl ++ [rc])) ca' =
    match entry krl ca' with
    | Some rc' => Some rc'
    | None => if ca_matches ca' rc then Some rc else None
    end.
Proof.
  unfold entry. cbn [krl_revoked_certs set_certs].
  destruct (find_ca ca' (krl_revoked_certs krl)) as [[j y]|] eqn:E.
  - by rewrite (list_find_app_l _ _ _ _ _ E).
  - rewrite list_find_app_r by done. cbn. by destruct (ca_matches ca' rc).
Qed.

Lemma for_ca_key_spec w krl ca r oi krl' w' :
  krl_ok krl -> revoked_certs_for_ca_key w krl ca true = (r, oi, krl', w') ->
  krl_ok krl' /\ (forall f, recorded krl' f <-> recorded krl f) /\
  match oi with
  | Some i => r = 0 /\ exists rc, find_ca ca (krl_revoked_certs krl') = Some (i, rc)
  | None => r <> 0
  end.
Proof.
  intros Hok. unfold revoked_certs_for_ca_key.
  destruct (find_ca ca (krl_revoked_certs krl)) as [[i rc]|] eqn:E.
  { intros [= <- <- <- <-]. split_and!; [done..|]. by exists rc. }
  cbn [negb]. destruct (malloc w) as [[] w1]; cbn [negb]; [|by intros [= <- <- <- <-]].
  assert (Hadd : forall c, same_ca c ca -> c = None \/ ca <> None ->
    let krl1 := set_certs krl (krl_revoked_certs krl ++ [mk_certs c [] []]) in
    krl_ok krl1 /\ (forall f, recorded krl1 f <-> recorded krl f) /\
    exists rc, find_ca ca (krl_revoked_certs krl1) = Some (length (krl_revoked_certs krl), rc)).
  { intros c Hc _. cbn zeta. split_and!.
    - destruct Hok as (? & ? & ? & ?). split_and!; try done. cbn. apply Forall_app.
      split; [done|]. repeat constructor.
    - intros [b|b|b|ca' n|ca' id]; cbn [recorded]; [done..| |]; unfold entry_serial, entry_key_id;
        rewrite entry_set_certs_app; destruct (entry krl ca') as [rc|]; try done;
        destruct (ca_matches ca' (mk_certs c [] [])); cbn; try done.
      + apply serials_mem_nil.
      + set_solver.
    - exists (mk_certs c [] []). cbn [krl_revoked_certs set_certs].
      rewrite list_find_app_r by done. cbn.
      assert (ca_matches ca (mk_certs c [] []) = true) as Hm.
      { unfold ca_matches, same_ca in *. cbn. by destruct ca, c. }
      rewrite decide_True by done. done. }
  destruct ca as [ca|].
  - destruct (sshkey_from_private w1 ca) as [[r1 c] w2] eqn:Ef.
    apply from_private_copy in Ef. destruct (r1 =? 0) eqn:Er; cbn [negb]; intros [= <- <- <- <-].
    + destruct c as [c|]; [|lia]. destruct Ef as (_ & Heq & _).
      destruct (Hadd (Some c) Heq ltac:(by right)) as (? & ? & ?). split_and!; done.
    + split_and!; [done..|lia].
  - intros [= <- <- <- <-]. destruct (Hadd None I ltac:(by left)) as (? & ? & ?). split_and!; done.
Qed.

(** ** Requests to revoke *)

Inductive request :=
  | RSerial (ca : option key) (lo hi : Z)
  | RKeyId (ca : option key) (id : list Z)
  | RKeyExplicit (k : key)
  | RSha1 (hash : list Z)
  | RSha256 (hash : list Z)
  | RKey (k : key).

Definition run_request (w : world) krl (q : request) : Z * ssh_krl key * world :=
  match q with
  | RSerial ca lo hi => ssh_krl_revoke_cert_by_serial_range w krl ca lo hi
  | RKeyId ca id => ssh_krl_revoke_cert_by_key_id w krl ca id
  | RKeyExplicit k => ssh_krl_revoke_key_explicit w krl k
  | RSha1 h => ssh_krl_revoke_key_sha1 w krl h
  | RSha256 h => ssh_krl_revoke_key_sha256 w krl h
  | RKey k => ssh_krl_revoke_key w krl k
  end.

(** Serial numbers are 64-bit unsigned integers. *)
Definition request_ok (q : request) : Prop :=
  match q with
  | RSerial _ lo hi => 0 <= lo < 2 ^ 64 /\ 0 <= hi < 2 ^ 64
  | RKey k => 0 <= cert_serial k < 2 ^ 64
  | _ => True
  end.

(** The facts a request puts on record. *)
Definition asks (q : request) (f : fact) : Prop :=
  match q, f with
  | RSerial ca lo hi, FSerial ca' n => same_ca ca ca' /\ lo <= n <= hi
  | RKeyId ca id, FKeyId ca' id' => same_ca ca ca' /\ id' = id
  | RKeyExplicit k, FKey b => b = pub_blob k
  | RSha1 h, FSha1 h' => h' = h
  | RSha256 h, FSha256 h' => h' = h
  | RKey k, FKey b => sshkey_is_cert k = false /\ b = pub_blob k
  | RKey k, FKeyId ca' id' =>
      sshkey_is_cert k = true /\ cert_serial k = 0 /\
      same_ca (Some (cert_signature_key k)) ca' /\ id' = cert_key_id k
  | RKey k, FSerial ca' n =>
      sshkey_is_cert k = true /\ cert_serial k <> 0 /\
      same_ca (Some (cert_signature_key k)) ca' /\ n = cert_serial k
  | _, _ => False
  end.

(** What a step must establish. *)
Definition records krl (q : request) (r : Z) (krl' : ssh_krl key) : Prop :=
  krl_ok krl' /\ forall f, recorded krl' f <-> recorded krl f \/ (r = 0 /\ asks q f).

Lemma records_failed krl q r : krl_ok krl -> r <> 0 -> records krl q r krl.
Proof. intros Hok Hr. split; [done|]. intros f. tauto. Qed.

Lemma records_weaken krl q r krl0 krl' :
  (forall f, recorded krl0 f <-> recorded krl f) -> records krl0 q r krl' -> records krl q r krl'.
Proof. intros He [Hok Hf]. split; [done|]. intros f. rewrite Hf. by rewrite He. Qed.

Lemma rc_ok_lookup krl ca i rc :
  krl_ok krl -> find_ca ca (krl_revoked_certs krl) = Some (i, rc) ->
  krl_revoked_certs krl !! i = Some rc /\ rc_ok rc.
Proof.
  intros (_ & _ & _ & Hall) Hf. apply list_find_Some in Hf as (Hi & _ & _).
  split; [done|]. rewrite Forall_lookup in Hall. by eapply Hall.
Qed.

Lemma krl_ok_update krl i rc' :
  krl_ok krl -> rc_ok rc' -> krl_ok (set_certs krl (<[i := rc']> (krl_revoked_certs krl))).
Proof. intros (? & ? & ? & ?) Hrc. split_and!; try done. by apply Forall_insert. Qed.

Lemma same_ca_dec (a b : option key) : same_ca a b \/ ~ same_ca a b.
Proof. unfold same_ca. destruct a, b; auto. destruct (sshkey_equal _ _); auto. Qed.

Lemma run_serial_range w krl ca lo hi r krl' w' :
  krl_ok krl -> request_ok (RSerial ca lo hi) ->
  ssh_krl_revoke_cert_by_serial_range w krl ca lo hi = (r, krl', w') ->
  records krl (RSerial ca lo hi) r krl'.
Proof.
  intros Hok [Hlo Hhi]. unfold ssh_krl_revoke_cert_by_serial_range.
  destruct ((lo >? hi) || (lo =? 0)) eqn:E.
  { intros [= <- <- <-]. by apply records_failed. }
  destruct (revoked_certs_for_ca_key w krl ca true) as [[[r1 oi] krl1] w1] eqn:Ef.
  apply for_ca_key_spec in Ef as (Hok1 & Heq & Hi); [|done].
  destruct oi as [i|]; [|intros [= <- <- <-]; apply (records_weaken _ _ _ krl1); [done|by apply records_failed]].
  destruct Hi as (-> & rc & Hf). destruct (rc_ok_lookup _ _ _ _ Hok1 Hf) as [-> [Hser Hids]].
  destruct (insert_serial_range w1 (rc_serials rc) lo hi) as [[r2 l'] w2] eqn:Ei.
  apply insert_serial_range_spec in Ei as (Hl' & Hmem & Herr); [|done|lia|lia].
  intros [= <- <- <-]. apply (records_weaken _ _ _ krl1); [done|].
  split; [by apply krl_ok_update|]. set (rc' := mk_certs _ l' _).
  destruct (Z.eq_dec r2 0) as [->|Hr].
  - specialize (Hmem eq_refl). intros [b|b|b|ca' n|ca' id]; cbn [recorded asks]; try tauto;
      destruct (entry_update krl1 ca ca' i rc rc' Hf eq_refl) as [Hs Hn];
      unfold entry_serial, entry_key_id; destruct (same_ca_dec ca ca') as [Hca|Hca].
    + destruct (Hs Hca) as [-> ->]. cbn. rewrite Hmem. tauto.
    + rewrite (Hn Hca). tauto.
    + destruct (Hs Hca) as [-> ->]. cbn. tauto.
    + rewrite (Hn Hca). tauto.
  - destruct (Herr Hr) as [_ ->]. intros [b|b|b|ca' n|ca' id]; cbn [recorded asks]; try tauto;
      destruct (entry_update krl1 ca ca' i rc rc' Hf eq_refl) as [Hs Hn];
      unfold entry_serial, entry_key_id; destruct (same_ca_dec ca ca') as [Hca|Hca];
      try (rewrite (Hn Hca); tauto); destruct (Hs Hca) as [-> ->]; cbn; tauto.
Qed.

Lemma run_key_id w krl ca id r krl' w' :
  krl_ok krl -> ssh_krl_revoke_cert_by_key_id w krl ca id = (r, krl', w') ->
  records krl (RKeyId ca id) r krl'.
Proof.
  intros Hok. unfold ssh_krl_revoke_cert_by_key_id.
  destruct (revoked_certs_for_ca_key w krl ca true) as [[[r1 oi] krl1] w1] eqn:Ef.
  apply for_ca_key_spec in Ef as (Hok1 & Heq & Hi); [|done].
  destruct oi as [i|]; [|intros [= <- <- <-]; apply (records_weaken _ _ _ krl1); [done|by apply records_failed]].
  destruct Hi as (-> & rc & Hf). destruct (rc_ok_lookup _ _ _ _ Hok1 Hf) as [-> [Hser Hids]].
  destruct (malloc w1) as [[] w2]; cbn [negb];
    [|intros [= <- <- <-]; apply (records_weaken _ _ _ krl1); [done|by apply records_failed]].
  destruct (malloc w2) as [[] w3]; cbn [negb];
    [|intros [= <- <- <-]; apply (records_weaken _ _ _ krl1); [done|by apply records_failed]].
  pose proof (RB_INSERT_total key_id_cmp (rc_key_ids rc) id Hids) as [Hsort Hmem].
  destruct (RB_INSERT key_id_cmp (rc_key_ids rc) id) as [o ids]. cbn [snd] in *.
  intros [= <- <- <-]. apply (records_weaken _ _ _ krl1); [done|].
  split; [by apply krl_ok_update|]. set (rc' := mk_certs _ _ ids).
  intros [b|b|b|ca' n|ca' id']; cbn [recorded asks]; try tauto;
    destruct (entry_update krl1 ca ca' i rc rc' Hf eq_refl) as [Hs Hn];
    unfold entry_serial, entry_key_id; destruct (same_ca_dec ca ca') as [Hca|Hca];
    try (rewrite (Hn Hca); tauto); destruct (Hs Hca) as [-> ->]; cbn; [tauto|].
  rewrite Hmem. tauto.
Qed.

Lemma plain_key_blob_spec w k r b w' :
  plain_key_blob w k = (r, b, w') -> r = 0 -> b = pub_blob k.
Proof.
  unfold plain_key_blob. destruct (sshkey_from_private w k) as [[r1 [k1|]] w1] eqn:Ef;
    apply from_private_copy in Ef; [|intros [= <- <- <-]; lia].
  destruct Ef as (-> & _ & _ & <-). cbn [Z.eqb negb].
  destruct (sshkey_is_cert k1) eqn:Ec.
  - destruct (sshkey_drop_cert k1) as [r2 k2] eqn:Ed. destruct (r2 =? 0) eqn:Er; cbn [negb].
    + assert (r2 = 0) as -> by lia. apply drop_cert_plain in Ed as [Hn <-].
      intros E ->. by eapply to_blob_plain in E.
    + intros [= <- <- <-]. lia.
  - intros E ->. by eapply to_blob_plain in E.
Qed.

Lemma revoke_blob_spec w l b r l' w' :
  blobs_ok l -> revoke_blob w l b = (r, l', w') ->
  blobs_ok l' /\ forall x, x ∈ l' <-> x ∈ l \/ (r = 0 /\ x = b).
Proof.
  intros Hs. unfold revoke_blob. destruct (malloc w) as [[] w1]; cbn [negb]; intros [= <- <- <-].
  - destruct (RB_INSERT_total blob_cmp l b Hs) as [H1 H2]. split; [done|]. intros x. rewrite H2. tauto.
  - split; [done|]. intros x. unfold SSH_ERR_ALLOC_FAIL. intuition lia.
Qed.

Lemma revoke_by_hash_spec w l b r l' w' :
  blobs_ok l -> revoke_by_hash w l b = (r, l', w') ->
  blobs_ok l' /\ forall x, x ∈ l' <-> x ∈ l \/ (r = 0 /\ x = b).
Proof.
  intros Hs. unfold revoke_by_hash. destruct (malloc w) as [[] w1]; cbn [negb].
  - by apply revoke_blob_spec.
  - intros [= <- <- <-]. split; [done|]. intros x. unfold SSH_ERR_SYSTEM_ERROR. intuition lia.
Qed.

Lemma run_explicit w krl k r krl' w' :
  krl_ok krl -> ssh_krl_revoke_key_explicit w krl k = (r, krl', w') ->
  records krl (RKeyExplicit k) r krl'.
Proof.
  intros Hok. unfold ssh_krl_revoke_key_explicit.
  destruct (plain_key_blob w k) as [[r1 b] w1] eqn:E. destruct (r1 =? 0) eqn:Er; cbn [negb].
  - apply plain_key_blob_spec in E as ->; [|lia].
    destruct (revoke_blob w1 _ _) as [[r2 l'] w2] eqn:Eb.
    destruct Hok as (Hk & Hs & Hs' & Hc). apply revoke_blob_spec in Eb as [Hl Hm]; [|done].
    intros [= <- <- <-]. split; [done|]. intros []; cbn [recorded asks]; try tauto. apply Hm.
  - intros [= <- <- <-]. apply records_failed; [done|lia].
Qed.

Lemma run_request_spec w krl q r krl' w' :
  krl_ok krl -> request_ok q -> run_request w krl q = (r, krl', w') -> records krl q r krl'.
Proof.
  intros Hok Hq. destruct q as [ca lo hi|ca id|k|h|h|k]; cbn [run_request].
  - by apply run_serial_range.
  - by apply run_key_id.
  - by apply run_explicit.
  - unfold ssh_krl_revoke_key_sha1. destruct (length h =? 20)%nat; cbn [negb].
    + destruct (revoke_by_hash w _ h) as [[r1 l'] w1] eqn:E. destruct Hok as (Hk & Hs & Hs' & Hc).
      apply revoke_by_hash_spec in E as [Hl Hm]; [|done]. intros [= <- <- <-].
      split; [done|]. intros []; cbn [recorded asks]; try tauto. apply Hm.
    + intros [= <- <- <-]. by apply records_failed.
  - unfold ssh_krl_revoke_key_sha256. destruct (length h =? 32)%nat; cbn [negb].
    + destruct (revoke_by_hash w _ h) as [[r1 l'] w1] eqn:E. destruct Hok as (Hk & Hs & Hs' & Hc).
      apply revoke_by_hash_spec in E as [Hl Hm]; [|done]. intros [= <- <- <-].
      split; [done|]. intros []; cbn [recorded asks]; try tauto. apply Hm.
    + intros [= <- <- <-]. by apply records_failed.
  - unfold ssh_krl_revoke_key, ssh_krl_revoke_cert_by_serial. cbn in Hq.
    destruct (sshkey_is_cert k) eqn:Ec; cbn [negb]; [destruct (cert_serial k =? 0) eqn:Es|]; intros E.
    + apply run_key_id in E as [Hok' Hf]; [|done]. split; [done|]. intros f. rewrite Hf.
      destruct f; cbn [asks]; rewrite ?Ec; intuition (lia || congruence).
    + apply run_serial_range in E as [Hok' Hf]; [|done|cbn; lia]. split; [done|]. intros f. rewrite Hf.
      destruct f; cbn [asks]; rewrite ?Ec; intuition (lia || congruence).
    + apply run_explicit in E as [Hok' Hf]; [|done]. split; [done|]. intros f. rewrite Hf.
      destruct f; cbn [asks]; rewrite ?Ec; intuition (lia || congruence).
Qed.

(** A history: the requests that were served, oldest first. *)
Fixpoint run_requests (w : world) krl (qs : list request)
  : list request * ssh_krl key * world :=
  match qs with
  | [] => ([], krl, w)
  | q :: qs =>
      let '(r, krl, w) := run_request w krl q in
      let '(served, krl, w) := run_requests w krl qs in
      (if r =? 0 then q :: served else served, krl, w)
  end.

Lemma run_requests_spec qs w krl served krl' w' :
  krl_ok krl -> Forall request_ok qs -> run_requests w krl qs = (served, krl', w') ->
  krl_ok krl' /\
  forall f, recorded krl' f <-> recorded krl f \/ exists q, q ∈ served /\ asks q f.
Proof.
  intros Hok Hqs. revert w krl served Hok. induction Hqs as [|q qs Hq _ IH];
    intros w krl served Hok; cbn [run_requests].
  - intros [= <- <- <-]. split; [done|]. intros f. set_solver.
  - destruct (run_request w krl q) as [[r krl1] w1] eqn:E.
    destruct (run_requests w1 krl1 qs) as [[sv krl2] w2] eqn:E2. intros [= <- <- <-].
    apply run_request_spec in E as [Hok1 Hf]; [|done..].
    apply IH in E2 as [Hok2 Hf2]; [|done]. split; [done|]. intros f. rewrite Hf2, Hf.
    destruct (r =? 0) eqn:Er; [assert (r = 0) as -> by lia|]; set_solver by lia.
Qed.

(** ** Checking *)

(** The facts that revoke a key, without looking at its CA. *)
Definition revoked_by (F : fact -> Prop) k : Prop :=
  F (FSha1 (digest_of k SSH_DIGEST_SHA1)) \/ F (FSha256 (digest_of k SSH_DIGEST_SHA256)) \/
  F (FKey (pub_blob k)) \/
  (sshkey_is_cert k = true /\
   exists ca, (ca = Some (cert_signature_key k) \/ ca = None) /\
     (F (FKeyId ca (cert_key_id k)) \/ (cert_serial k <> 0 /\ F (FSerial ca (cert_serial k))))).

(** The key can be hashed and serialised. *)
Definition usable k : Prop :=
  (forall w alg, exists b w', sshkey_fingerprint_raw w k alg = (0, b, w')) /\
  (forall w, exists b w', plain_key_blob w k = (0, b, w')).

Lemma check_certs_of_spec w krl ca k :
  krl_ok krl ->
  let hit := recorded krl (FKeyId ca (cert_key_id k)) \/
             (cert_serial k <> 0 /\ recorded krl (FSerial ca (cert_serial k))) in
  (check_certs_of w krl ca k = SSH_ERR_KEY_REVOKED /\ hit) \/
  (check_certs_of w krl ca k = 0 /\ ~ hit).
Proof.
  intros Hok. cbn zeta. unfold check_certs_of, revoked_certs_for_ca_key. cbn [recorded negb].
  unfold entry_serial, entry_key_id, entry.
  destruct (find_ca ca (krl_revoked_certs krl)) as [[i rc]|] eqn:E; cbn; [|right; tauto].
  destruct (rc_ok_lookup _ _ _ _ Hok E) as [-> [Hser Hids]]. unfold is_cert_revoked.
  pose proof (RB_FIND_total key_id_cmp (rc_key_ids rc) (cert_key_id k) Hids) as Hf.
  destruct (RB_FIND key_id_cmp _ _); cbn in Hf; [left; tauto|].
  destruct (cert_serial k =? 0) eqn:Es; [right; intuition lia|].
  pose proof (find_serial (rc_serials rc) (cert_serial k) Hser) as Hs.
  destruct (RB_FIND serial_cmp _ _); cbn in Hs; [left|right]; intuition lia.
Qed.

(** The outcome of a check, given whether something on record revokes the key. *)
Definition verdict (r : Z) (revoked fit : Prop) : Prop :=
  (r = SSH_ERR_KEY_REVOKED /\ revoked) \/ (r = 0 /\ ~ revoked) \/ (r <> 0 /\ ~ fit).

Lemma is_key_revoked_spec w krl k r w' :
  krl_ok krl -> is_key_revoked w krl k = (r, w') ->
  verdict r (revoked_by (recorded krl) k) (usable k).
Proof.
  intros Hok. pose proof Hok as (Hk & Hs1 & Hs2 & _). unfold is_key_revoked, verdict, revoked_by.
  destruct (sshkey_fingerprint_raw w k SSH_DIGEST_SHA1) as [[r1 b1] w1] eqn:E1.
  destruct (r1 =? 0) eqn:Er1; cbn [negb].
  2:{ intros [= <- <-]. right; right. split; [lia|]. intros [Hu _].
      destruct (Hu w SSH_DIGEST_SHA1) as (? & ? & E). rewrite E in E1. injection E1 as <-. lia. }
  assert (r1 = 0) as -> by lia. apply fingerprint_digest in E1 as ->.
  pose proof (RB_FIND_total blob_cmp (revoked_sha1s krl) (digest_of k SSH_DIGEST_SHA1) Hs1) as Hf1.
  destruct (found _); [intros [= <- <-]; left; cbn; tauto|].
  destruct (sshkey_fingerprint_raw w1 k SSH_DIGEST_SHA256) as [[r2 b2] w2] eqn:E2.
  destruct (r2 =? 0) eqn:Er2; cbn [negb].
  2:{ intros [= <- <-]. right; right. split; [lia|]. intros [Hu _].
      destruct (Hu w1 SSH_DIGEST_SHA256) as (? & ? & E). rewrite E in E2. injection E2 as <-. lia. }
  assert (r2 = 0) as -> by lia. apply fingerprint_digest in E2 as ->.
  pose proof (RB_FIND_total blob_cmp (revoked_sha256s krl) (digest_of k SSH_DIGEST_SHA256) Hs2) as Hf2.
  destruct (found _); [intros [= <- <-]; left; cbn; tauto|].
  destruct (plain_key_blob w2 k) as [[r3 b3] w3] eqn:E3.
  destruct (r3 =? 0) eqn:Er3; cbn [negb].
  2:{ intros [= <- <-]. right; right. split; [lia|]. intros [_ Hu].
      destruct (Hu w2) as (? & ? & E). rewrite E in E3. injection E3 as <-. lia. }
  apply plain_key_blob_spec in E3 as ->; [|lia].
  pose proof (RB_FIND_total blob_cmp (revoked_keys krl) (pub_blob k) Hk) as Hf3.
  destruct (found _); [intros [= <- <-]; left; cbn; tauto|].
  assert (Hnone : (~ recorded krl (FSha1 (digest_of k SSH_DIGEST_SHA1))) /\
    (~ recorded krl (FSha256 (digest_of k SSH_DIGEST_SHA256))) /\
    ~ recorded krl (FKey (pub_blob k))).
  { cbn [recorded]. rewrite <- Hf1, <- Hf2, <- Hf3. done. }
  destruct (sshkey_is_cert k) eqn:Ec; cbn [negb].
  2:{ intros [= <- <-]. right; left. split; [done|]. intros [?|[?|[?|[? _]]]]; [tauto..|done]. }
  pose proof (check_certs_of_spec w3 krl (Some (cert_signature_key k)) k Hok) as Hc1.
  pose proof (check_certs_of_spec w3 krl None k Hok) as Hc2. cbn zeta in Hc1, Hc2.
  destruct Hc1 as [[-> Hh]|[-> Hh]]; cbn [Z.eqb negb SSH_ERR_KEY_REVOKED]; intros [= <- <-].
  - left. split; [done|]. do 3 right. split; [done|]. eexists. split; [by left|done].
  - destruct Hc2 as [[-> Hh2]|[-> Hh2]].
    + left. split; [done|]. do 3 right. split; [done|]. eexists. split; [by right|done].
    + right; left. split; [done|]. intros [?|[?|[?|(_ & ca & [-> | ->] & ?)]]]; tauto.
Qed.

Lemma check_key_spec w krl k r w' :
  krl_ok krl -> ssh_krl_check_key w krl k = (r, w') ->
  verdict r
    (revoked_by (recorded krl) k \/
     (sshkey_is_cert k = true /\ revoked_by (recorded krl) (cert_signature_key k)))
    (usable k /\ (sshkey_is_cert k = true -> usable (cert_signature_key k))).
Proof.
  intros Hok. unfold ssh_krl_check_key. destruct (is_key_revoked w krl k) as [r1 w1] eqn:E1.
  apply is_key_revoked_spec in E1; [|done].
  destruct (r1 =? 0) eqn:Er; cbn [negb].
  - destruct E1 as [[? ?]|[[_ Hn]|[? ?]]]; [unfold SSH_ERR_KEY_REVOKED in *; lia| |lia].
    destruct (sshkey_is_cert k) eqn:Ec.
    + intros E2. apply is_key_revoked_spec in E2; [|done]. unfold verdict in *. tauto.
    + intros [= <- <-]. right; left. split; [done|]. intros [?|[? ?]]; [tauto|congruence].
  - intros [= <- <-]. destruct E1 as [[? ?]|[[? ?]|[? ?]]]; [left; tauto|lia|right; right; tauto].
Qed.
End lists.

(** ** A model of the key interface

    Keys whose wire form is given, with certificates that name the wire form of
    their CA; hashing repeats the first octet. *)
Module ToyKeys.

Inductive tkey := Plain (blob : list Z) | Cert (blob : list Z) (serial : Z) (id ca : list Z).

#[export] Instance tkey_eq_dec : EqDecision tkey.
Proof. solve_decision. Defined.

Definition tblob (k : tkey) : list Z := match k with Plain b | Cert b _ _ _ => b end.

#[export] Instance tkey_ops : SshKey tkey := {
  sshkey_is_cert k := match k with Plain _ => false | Cert _ _ _ _ => true end;
  cert_serial k := match k with Plain _ => 0 | Cert _ s _ _ => s end;
  cert_key_id k := match k with Plain _ => [] | Cert _ _ id _ => id end;
  cert_signature_key k := match k with Plain _ => k | Cert _ _ _ ca => Plain ca end;
  sshkey_equal j k := bool_decide (j = k);
  sshkey_from_private w k := (0, Some k, w);
  sshkey_drop_cert k := (0, Plain (tblob k));
  sshkey_to_blob w k := (0, tblob k, w);
  sshkey_fingerprint_raw w k alg := (0, replicate 20 (hd 0 (tblob k)), w);
  sshkey_from_blob w b := (0, Some (Plain b), w);
  sshkey_puts w k b := sshbuf_put_string w b (tblob k) (Z.of_nat (length (tblob k)))
}.

#[export, refine] Instance tkey_laws : SshKeyLaws tkey := {
  pub_blob := tblob;
  digest_of k alg := replicate 20 (hd 0 (tblob k))
}.
Proof.
  - intros k. by apply bool_decide_eq_true.
  - intros j k. cbn. rewrite !bool_decide_eq_true. done.
  - intros i j k. cbn. rewrite !bool_decide_eq_true. congruence.
  - intros w k r k' w' [= <- <- <-]. split_and!; [done| |done..]. by apply bool_decide_eq_true.
  - intros k k' [= <-]. done.
  - intros w k b w' [= <- <-]. done.
  - intros w k alg b w' [= <- <-]. done.
Defined.

Lemma tkey_usable k : usable k.
Proof.
  split; [by eexists _, _|]. intros w. unfold plain_key_blob. cbn.
  destruct k; cbn; by eexists _, _.
Qed.

End ToyKeys.
Import ToyKeys.

(** ** What the components promise *)

(** C11: Inserting a range into a tree of serial numbers that is in canonical
    form adds exactly its members and keeps the canonical form: sorted,
    disjoint, and with a gap between neighbours.  The resulting tree does not
    depend on the shape of the tree, which decides which of several
    overlapping nodes the search returns.  The insertion fails only for lack
    of memory, and then changes nothing. *)
Theorem insert_serial_range_correct (T1 T2 : TreeShape) (w : world)
    (l l1 l2 : list revoked_serial) (lo hi r1 r2 : Z) (w1 w2 : world) :
  serials_ok l -> 0 <= lo <= hi -> hi < 2 ^ 64 ->
  insert_serial_range (TS := T1) w l lo hi = (r1, l1, w1) ->
  insert_serial_range (TS := T2) w l lo hi = (r2, l2, w2) ->
  serials_ok l1 /\
  (r1 = 0 -> forall n, serials_mem n l1 <-> serials_mem n l \/ lo <= n <= hi) /\
  (r1 <> 0 -> r1 = SSH_ERR_ALLOC_FAIL /\ l1 = l) /\
  (r1 = 0 -> r2 = 0 -> l1 = l2).
Proof.
  intros Hok Hlo Hhi E1 E2.
  apply insert_serial_range_spec in E1 as (Hok1 & Hm1 & He1); [|done..].
  apply insert_serial_range_spec in E2 as (Hok2 & Hm2 & _); [|done..].
  split_and!; auto; intros Hr1 Hr2. apply serials_canonical; [done..|].
  intros n. by rewrite Hm1, Hm2.
Qed.

Lemma insert_serial_range_correct_witness :
  exists l1, insert_serial_range (TS := balanced_shape) []
      [mk_serial 1 3; mk_serial 6 8; mk_serial 20 30] 2 7 = (0, l1, []) /\
    (forall n, serials_mem n l1 <->
       serials_mem n [mk_serial 1 3; mk_serial 6 8; mk_serial 20 30] \/ 2 <= n <= 7) /\
    l1 = [mk_serial 1 8; mk_serial 20 30].
Proof.
  assert (Hok : serials_ok [mk_serial 1 3; mk_serial 6 8; mk_serial 20 30]).
  { split; repeat constructor; cbn; lia. }
  exists [mk_serial 1 8; mk_serial 20 30]. split; [reflexivity|]. split; [|done].
  exact (proj1 (proj2 (insert_serial_range_correct balanced_shape spine_shape [] _
    [mk_serial 1 8; mk_serial 20 30] [mk_serial 1 8; mk_serial 20 30] 2 7 0 0 [] []
    Hok ltac:(lia) ltac:(lia) eq_refl eq_refl)) eq_refl).
Defined.


