(* ===== verification/Nchan.v ===== *)
(** The channel close protocol of nchan.c.

    A channel carries data both ways between a descriptor of this host and the
    peer.  Its input half (descriptor to peer) and its output half (peer to
    descriptor) close independently; when both are closed the two sides
    exchange CLOSE messages and the channel is dead.  This file models the
    functions of nchan.c, and [channel_close_fd] of channels.c, which they
    call, as state transformers; [fatal] ends the process and is an outcome of
    its own.  The packets and system calls are kept in a trace. *)

From stdpp Require Import base list numbers tactics.
From Stdlib Require Import ZArith Lia ZifyBool String.
From S2P Require Import Prelude Sshbuf.

(** ** Constants (channels.h, compat.h) *)

Definition CHAN_INPUT_OPEN : Z := 0.
Definition CHAN_INPUT_WAIT_DRAIN : Z := 1.
Definition CHAN_INPUT_WAIT_OCLOSE : Z := 2.
Definition CHAN_INPUT_CLOSED : Z := 3.
Definition CHAN_OUTPUT_OPEN : Z := 0.
Definition CHAN_OUTPUT_WAIT_DRAIN : Z := 1.
Definition CHAN_OUTPUT_WAIT_IEOF : Z := 2.
Definition CHAN_OUTPUT_CLOSED : Z := 3.

Definition CHAN_CLOSE_SENT : Z := 0x01.
Definition CHAN_CLOSE_RCVD : Z := 0x02.
Definition CHAN_EOF_SENT : Z := 0x04.
Definition CHAN_EOF_RCVD : Z := 0x08.
Definition CHAN_LOCAL : Z := 0x10.

Definition CHAN_EXTENDED_IGNORE : Z := 0.
Definition CHAN_EXTENDED_READ : Z := 1.
Definition CHAN_EXTENDED_WRITE : Z := 2.

Definition SSH_CHANNEL_LARVAL : Z := 10.
Definition SSH_CHANNEL_ZOMBIE : Z := 14.

Definition SSH_CHAN_IO_RFD : Z := 0x01.
Definition SSH_CHAN_IO_WFD : Z := 0x02.
Definition SSH_CHAN_IO_EFD : Z := 0x0c.
Definition SSH_CHAN_IO_SOCK : Z := 0x30.

Definition CHANNEL_RESTORE_RFD : Z := 0x01.
Definition CHANNEL_RESTORE_WFD : Z := 0x02.
Definition CHANNEL_RESTORE_EFD : Z := 0x04.

Definition SSH_BUG_EXTEOF : Z := 0x00200000.
Definition SSH_NEW_OPENSSH : Z := 0x04000000.

(** ** State *)

(** The members of [Channel] that nchan.c touches. *)
Record Channel := mk_channel {
  c_type : Z;
  c_remote_id : Z;
  c_have_remote_id : bool;
  c_istate : Z;
  c_ostate : Z;
  c_flags : Z;
  c_rfd : Z; c_wfd : Z; c_efd : Z; c_sock : Z;
  c_io_want : Z; c_io_ready : Z;
  c_pfds : list Z;
  c_restore_block : Z; c_restore_flags : list Z;
  c_input : sshbuf; c_output : sshbuf; c_extended : sshbuf;
  c_extended_usage : Z;
  c_ctype : string
}.

Definition set_states (c : Channel) (type istate ostate flags : Z) : Channel :=
  mk_channel type (c_remote_id c) (c_have_remote_id c) istate ostate flags
    (c_rfd c) (c_wfd c) (c_efd c) (c_sock c) (c_io_want c) (c_io_ready c) (c_pfds c)
    (c_restore_block c) (c_restore_flags c) (c_input c) (c_output c) (c_extended c)
    (c_extended_usage c) (c_ctype c).

Definition set_type (c : Channel) (t : Z) := set_states c t (c_istate c) (c_ostate c) (c_flags c).
Definition set_istate (c : Channel) (s : Z) := set_states c (c_type c) s (c_ostate c) (c_flags c).
Definition set_ostate (c : Channel) (s : Z) := set_states c (c_type c) (c_istate c) s (c_flags c).
Definition add_flag (c : Channel) (f : Z) :=
  set_states c (c_type c) (c_istate c) (c_ostate c) (Z.lor (c_flags c) f).

Definition set_bufs (c : Channel) (i o x : sshbuf) : Channel :=
  mk_channel (c_type c) (c_remote_id c) (c_have_remote_id c) (c_istate c) (c_ostate c)
    (c_flags c) (c_rfd c) (c_wfd c) (c_efd c) (c_sock c) (c_io_want c) (c_io_ready c) (c_pfds c)
    (c_restore_block c) (c_restore_flags c) i o x (c_extended_usage c) (c_ctype c).

Definition set_io (c : Channel) (rfd wfd efd sock want ready : Z) (pfds : list Z) : Channel :=
  mk_channel (c_type c) (c_remote_id c) (c_have_remote_id c) (c_istate c) (c_ostate c)
    (c_flags c) rfd wfd efd sock want ready pfds
    (c_restore_block c) (c_restore_flags c) (c_input c) (c_output c) (c_extended c)
    (c_extended_usage c) (c_ctype c).

(** [c->flags & f] as a condition. *)
Definition flag (c : Channel) (f : Z) : bool := negb (Z.land (c_flags c) f =? 0).

(** The messages nchan.c sends; the argument is the peer's channel number. *)
Inductive packet := PEof (rid : Z) | PClose (rid : Z) | PEow (rid : Z).

Inductive syscall := SysShutdownWr (fd : Z) | SysShutdownRd (fd : Z) | SysClose (fd : Z)
  | SysFcntl (fd flags : Z).

(** The rest of the process: what the peer is known to support, what was sent,
    the system calls made, and the oracle that decides whether an allocation
    or the assembly of a packet succeeds. *)
Record env := mk_env {
  e_compat : Z; e_sent : list packet; e_calls : list syscall; e_world : world }.

Inductive outcome (A : Type) := Ret (a : A) (c : Channel) (e : env) | Fatal (e : env).
Arguments Ret {A} a c e.
Arguments Fatal {A} e.

Definition action (A : Type) : Type := Channel -> env -> outcome A.

Definition ret {A} (a : A) : action A := Ret a.
Definition fatal {A} : action A := fun _ e => Fatal e.
Definition bind {A B} (m : action A) (k : A -> action B) : action B :=
  fun c e => match m c e with Ret a c e => k a c e | Fatal e => Fatal e end.

Declare Scope chan_scope.
Delimit Scope chan_scope with chan.
Open Scope chan_scope.
Notation "x <- m ; k" := (bind m (fun x => k)) (at level 20, m at level 100, k at level 200)
  : chan_scope.
Notation "m ;; k" := (bind m (fun _ => k)) (at level 100, k at level 200, right associativity) : chan_scope.

Definition chan : action Channel := fun c e => Ret c c e.
Definition modify (f : Channel -> Channel) : action unit := fun c e => Ret tt (f c) e.
Definition compat_is (f : Z) : action bool :=
  fun c e => Ret (negb (Z.land (e_compat e) f =? 0)) c e.
Definition call (s : syscall) : action unit :=
  fun c e => Ret tt c (mk_env (e_compat e) (e_sent e) (e_calls e ++ [s]) (e_world e)).

(** [sshpkt_start] to [sshpkt_send]: the packet is sent, or assembling it fails. *)
Definition sshpkt (p : packet) : action bool := fun c e =>
  let '(ok, w) := malloc (e_world e) in
  Ret ok c (mk_env (e_compat e) (if ok then e_sent e ++ [p] else e_sent e) (e_calls e) w).

Definition reset_output : action unit := fun c e =>
  let '(b, w) := sshbuf_reset (e_world e) (c_output c) in
  Ret tt (set_bufs c (c_input c) b (c_extended c))
    (mk_env (e_compat e) (e_sent e) (e_calls e) w).

(** ** Descriptors *)

Inductive fdp := FRfd | FWfd | FEfd | FSock.

Definition get_fd (p : fdp) (c : Channel) : Z :=
  match p with FRfd => c_rfd c | FWfd => c_wfd c | FEfd => c_efd c | FSock => c_sock c end.

(** The four blocks [if ( *fdp == c->xfd) { ... }] *)
Definition clear_fd (p : fdp) (c : Channel) : Channel :=
  let off bits := Z.ldiff (c_io_want c) bits in
  let rdy bits := Z.ldiff (c_io_ready c) bits in
  match p with
  | FRfd => set_io c (-1) (c_wfd c) (c_efd c) (c_sock c) (off SSH_CHAN_IO_RFD)
              (rdy SSH_CHAN_IO_RFD) (<[0%nat := -1]> (c_pfds c))
  | FWfd => set_io c (c_rfd c) (-1) (c_efd c) (c_sock c) (off SSH_CHAN_IO_WFD)
              (rdy SSH_CHAN_IO_WFD) (<[1%nat := -1]> (c_pfds c))
  | FEfd => set_io c (c_rfd c) (c_wfd c) (-1) (c_sock c) (off SSH_CHAN_IO_EFD)
              (rdy SSH_CHAN_IO_EFD) (<[2%nat := -1]> (c_pfds c))
  | FSock => set_io c (c_rfd c) (c_wfd c) (c_efd c) (-1) (off SSH_CHAN_IO_SOCK)
              (rdy SSH_CHAN_IO_SOCK) (<[3%nat := -1]> (c_pfds c))
  end.

Definition clear_if (p q : fdp) (c : Channel) : Channel :=
  if get_fd p c =? get_fd q c then clear_fd q c else c.

Definition set_fd_closed (p : fdp) (c : Channel) : Channel :=
  match p with
  | FRfd => set_io c (-1) (c_wfd c) (c_efd c) (c_sock c) (c_io_want c) (c_io_ready c) (c_pfds c)
  | FWfd => set_io c (c_rfd c) (-1) (c_efd c) (c_sock c) (c_io_want c) (c_io_ready c) (c_pfds c)
  | FEfd => set_io c (c_rfd c) (c_wfd c) (-1) (c_sock c) (c_io_want c) (c_io_ready c) (c_pfds c)
  | FSock => set_io c (c_rfd c) (c_wfd c) (c_efd c) (-1) (c_io_want c) (c_io_ready c) (c_pfds c)
  end.

Definition restore_blocking (p : fdp) (c : Channel) : list syscall :=
  let fd := get_fd p c in
  let on f := negb (Z.land (c_restore_block c) f =? 0) in
  let fl i := default 0 (c_restore_flags c !! i) in
  if (fd =? c_rfd c) && on CHANNEL_RESTORE_RFD then [SysFcntl fd (fl 0%nat)]
  else if (fd =? c_wfd c) && on CHANNEL_RESTORE_WFD then [SysFcntl fd (fl 1%nat)]
  else if (fd =? c_efd c) && on CHANNEL_RESTORE_EFD then [SysFcntl fd (fl 2%nat)]
  else [].

Definition channel_close_fd (p : fdp) : action unit := fun c e =>
  let fd := get_fd p c in
  if fd =? -1 then Ret tt c e
  else
    let calls := restore_blocking p c in
    let c := clear_if p FRfd c in
    let c := clear_if p FWfd c in
    let c := clear_if p FEfd c in
    let c := clear_if p FSock c in
    Ret tt (set_fd_closed p c)
      (mk_env (e_compat e) (e_sent e) (e_calls e ++ calls ++ [SysClose fd]) (e_world e)).

(** ** Helpers *)

Definition chan_set_istate (next : Z) : action unit :=
  c <- chan;
  if (c_istate c >? CHAN_INPUT_CLOSED) || (next >? CHAN_INPUT_CLOSED) then fatal
  else modify (fun c => set_istate c next).

Definition chan_set_ostate (next : Z) : action unit :=
  c <- chan;
  if (c_ostate c >? CHAN_OUTPUT_CLOSED) || (next >? CHAN_OUTPUT_CLOSED) then fatal
  else modify (fun c => set_ostate c next).

Definition chan_shutdown_write : action unit :=
  reset_output ;;
  c <- chan;
  if c_type c =? SSH_CHANNEL_LARVAL then ret tt
  else if negb (c_sock c =? -1) then call (SysShutdownWr (c_sock c))
  else channel_close_fd FWfd.

Definition chan_shutdown_read : action unit :=
  c <- chan;
  if c_type c =? SSH_CHANNEL_LARVAL then ret tt
  else if negb (c_sock c =? -1) then call (SysShutdownRd (c_sock c))
  else channel_close_fd FRfd.

Definition chan_shutdown_extended_read : action unit :=
  c <- chan;
  if (c_type c =? SSH_CHANNEL_LARVAL) || (c_efd c =? -1) then ret tt
  else if negb (c_extended_usage c =? CHAN_EXTENDED_READ) &&
          negb (c_extended_usage c =? CHAN_EXTENDED_IGNORE) then ret tt
  else channel_close_fd FEfd.

(** [if (!c->have_remote_id) fatal(...); if (assembling fails) fatal(...)] *)
Definition send_or_die (p : Z -> packet) : action unit :=
  c <- chan;
  if negb (c_have_remote_id c) then fatal
  else ok <- sshpkt (p (c_remote_id c)); if negb ok then fatal else ret tt.

Definition chan_send_eof2 : action unit :=
  c <- chan;
  if c_istate c =? CHAN_INPUT_WAIT_DRAIN then
    send_or_die PEof ;; modify (fun c => add_flag c CHAN_EOF_SENT)
  else ret tt (* cannot send eof *).

Definition chan_send_close2 : action unit :=
  c <- chan;
  if negb (c_ostate c =? CHAN_OUTPUT_CLOSED) || negb (c_istate c =? CHAN_INPUT_CLOSED)
  then ret tt (* cannot send close *)
  else if flag c CHAN_CLOSE_SENT then ret tt (* already sent close *)
  else send_or_die PClose ;; modify (fun c => add_flag c CHAN_CLOSE_SENT).

Definition chan_send_eow2 : action unit :=
  c <- chan;
  if c_ostate c =? CHAN_OUTPUT_CLOSED then ret tt
  else
    new <- compat_is SSH_NEW_OPENSSH;
    if negb new then ret tt else send_or_die PEow.

(** ** Events *)

Definition chan_read_failed : action unit :=
  c <- chan;
  if c_istate c =? CHAN_INPUT_OPEN then
    chan_shutdown_read ;; chan_set_istate CHAN_INPUT_WAIT_DRAIN
  else ret tt.

Definition chan_ibuf_empty : action unit :=
  c <- chan;
  if negb (sshbuf_len (c_input c) =? 0) then ret tt
  else if c_istate c =? CHAN_INPUT_WAIT_DRAIN then
    (if negb (flag c (Z.lor CHAN_CLOSE_SENT CHAN_LOCAL)) then chan_send_eof2 else ret tt) ;;
    chan_set_istate CHAN_INPUT_CLOSED
  else ret tt.

Definition chan_obuf_empty : action unit :=
  c <- chan;
  if negb (sshbuf_len (c_output c) =? 0) then ret tt
  else if c_ostate c =? CHAN_OUTPUT_WAIT_DRAIN then
    chan_shutdown_write ;; chan_set_ostate CHAN_OUTPUT_CLOSED
  else ret tt.

Definition chan_rcvd_eow : action unit :=
  c <- chan;
  if c_istate c =? CHAN_INPUT_OPEN then
    chan_shutdown_read ;; chan_set_istate CHAN_INPUT_CLOSED
  else ret tt.

Definition CHANNEL_EFD_OUTPUT_ACTIVE (c : Channel) : bool :=
  (c_extended_usage c =? CHAN_EXTENDED_WRITE) && negb (c_efd c =? -1) &&
  (negb (flag c (Z.lor CHAN_EOF_RCVD CHAN_CLOSE_RCVD)) || (sshbuf_len (c_extended c) >? 0)).

Definition chan_rcvd_ieof : action unit :=
  modify (fun c => add_flag c CHAN_EOF_RCVD) ;;
  c <- chan;
  (if c_ostate c =? CHAN_OUTPUT_OPEN then chan_set_ostate CHAN_OUTPUT_WAIT_DRAIN else ret tt) ;;
  c <- chan;
  if (c_ostate c =? CHAN_OUTPUT_WAIT_DRAIN) && (sshbuf_len (c_output c) =? 0) &&
     negb (CHANNEL_EFD_OUTPUT_ACTIVE c)
  then chan_obuf_empty else ret tt.

Definition chan_rcvd_oclose : action unit :=
  modify (fun c => if negb (flag c CHAN_LOCAL) then add_flag c CHAN_CLOSE_RCVD else c) ;;
  c <- chan;
  if c_type c =? SSH_CHANNEL_LARVAL then
    (* tear down larval channels immediately *)
    chan_set_ostate CHAN_OUTPUT_CLOSED ;; chan_set_istate CHAN_INPUT_CLOSED
  else
    (* wait until a data from the channel is consumed if a CLOSE is received *)
    (if c_ostate c =? CHAN_OUTPUT_OPEN then chan_set_ostate CHAN_OUTPUT_WAIT_DRAIN else ret tt) ;;
    c <- chan;
    if c_istate c =? CHAN_INPUT_OPEN then
      chan_shutdown_read ;; chan_shutdown_extended_read ;; chan_set_istate CHAN_INPUT_CLOSED
    else if c_istate c =? CHAN_INPUT_WAIT_DRAIN then
      (if negb (flag c CHAN_LOCAL) then chan_send_eof2 else ret tt) ;;
      chan_shutdown_extended_read ;; chan_set_istate CHAN_INPUT_CLOSED
    else ret tt.

Definition chan_write_failed : action unit :=
  c <- chan;
  if (c_ostate c =? CHAN_OUTPUT_OPEN) || (c_ostate c =? CHAN_OUTPUT_WAIT_DRAIN) then
    chan_shutdown_write ;;
    (if String.eqb (c_ctype c) "session" then chan_send_eow2 else ret tt) ;;
    chan_set_ostate CHAN_OUTPUT_CLOSED
  else ret tt.

Definition chan_mark_dead : action unit := modify (fun c => set_type c SSH_CHANNEL_ZOMBIE).

Definition chan_is_dead (do_send : bool) : action Z :=
  c <- chan;
  if c_type c =? SSH_CHANNEL_ZOMBIE then ret 1
  else if negb (c_istate c =? CHAN_INPUT_CLOSED) || negb (c_ostate c =? CHAN_OUTPUT_CLOSED)
  then ret 0
  else
    bug <- compat_is SSH_BUG_EXTEOF;
    if bug && (c_extended_usage c =? CHAN_EXTENDED_WRITE) && negb (c_efd c =? -1) &&
       (sshbuf_len (c_extended c) >? 0) then ret 0
    else if flag c CHAN_LOCAL then ret 1
    else if negb (flag c CHAN_CLOSE_SENT) && negb do_send && flag c CHAN_CLOSE_RCVD
    then ret 1 (* channel would be dead if we sent a close *)
    else
      (if negb (flag c CHAN_CLOSE_SENT) && do_send then chan_send_close2 else ret tt) ;;
      c <- chan;
      if flag c CHAN_CLOSE_SENT && flag c CHAN_CLOSE_RCVD then ret 1 else ret 0.
