(* ===== verification/NchanThms.v ===== *)
(** What the channel close protocol promises: the order of the messages on the
    wire, that closed halves stay closed, that the checks for impossible states
    never fire, and that a channel whose peer has closed does get freed. *)

From stdpp Require Import base list numbers tactics.
From Stdlib Require Import ZArith Lia ZifyBool.
From S2P Require Import Prelude Sshbuf Nchan.

(** ** Reasoning about actions *)

(** [Q] holds of a normal outcome, [F] of a fatal one. *)
Definition wp {A} (m : action A) (Q : A -> Channel -> env -> Prop) (F : env -> Prop)
    (c : Channel) (e : env) : Prop :=
  match m c e with Ret a c e => Q a c e | Fatal e => F e end.

Section wp.
Context {A B : Type} (F : env -> Prop).
Implicit Types (Q : A -> Channel -> env -> Prop) (R : B -> Channel -> env -> Prop).

Lemma wp_bind (m : action A) (k : A -> action B) R c e :
  wp m (fun a => wp (k a) R F) F c e -> wp (bind m k) R F c e.
Proof. unfold wp, bind. by destruct (m c e). Qed.

Lemma wp_ret (a : A) Q c e : Q a c e -> wp (ret a) Q F c e.
Proof. done. Qed.

Lemma wp_if (b : bool) (m n : action A) Q c e :
  (b = true -> wp m Q F c e) -> (b = false -> wp n Q F c e) ->
  wp (if b then m else n) Q F c e.
Proof. destruct b; auto. Qed.

Lemma wp_mono (m : action A) Q Q' (G : env -> Prop) c e :
  wp m Q F c e -> (forall a c e, Q a c e -> Q' a c e) -> (forall e, F e -> G e) ->
  wp m Q' G c e.
Proof. unfold wp. destruct (m c e); auto. Qed.
End wp.

Lemma wp_chan (F : env -> Prop) Q c e : Q c c e -> wp chan Q F c e.
Proof. done. Qed.

Lemma wp_modify (F : env -> Prop) f Q c e : Q tt (f c) e -> wp (modify f) Q F c e.
Proof. done. Qed.

Lemma wp_compat (F : env -> Prop) f Q c e :
  Q (negb (Z.land (e_compat e) f =? 0)) c e -> wp (compat_is f) Q F c e.
Proof. done. Qed.

(** The part of the state the protocol is about. *)
Definition core (c : Channel) (e : env) :=
  (c_type c, c_remote_id c, c_have_remote_id c, c_istate c, c_ostate c, c_flags c, c_ctype c,
   e_compat e, e_sent e).

(** An action that leaves that part alone and cannot be fatal. *)
Definition quiet (m : action unit) : Prop :=
  forall c e, exists c' e', m c e = Ret tt c' e' /\ core c' e' = core c e /\
    (e_world e = [] -> e_world e' = []).

Lemma core_clear_if p q c e : core (clear_if p q c) e = core c e.
Proof. unfold clear_if. destruct (_ =? _); [|done]. by destruct q. Qed.

Lemma close_fd_quiet p : quiet (channel_close_fd p).
Proof.
  intros c e. unfold channel_close_fd. destruct (get_fd p c =? -1); [by eexists _, _|].
  eexists _, _. split; [done|]. split; [|done].
  transitivity (core (clear_if p FSock (clear_if p FEfd (clear_if p FWfd (clear_if p FRfd c)))) e).
  - by destruct p.
  - by rewrite !core_clear_if.
Qed.

Lemma ret_quiet : quiet (ret tt).
Proof. intros c e. by eexists _, _. Qed.

Lemma call_quiet s : quiet (call s).
Proof. intros c e. by eexists _, _. Qed.

Lemma shutdown_read_quiet : quiet chan_shutdown_read.
Proof.
  intros c e. unfold chan_shutdown_read, bind, chan.
  destruct (c_type c =? _); [apply ret_quiet|]. destruct (negb _); [apply call_quiet|apply close_fd_quiet].
Qed.

Lemma shutdown_extended_read_quiet : quiet chan_shutdown_extended_read.
Proof.
  intros c e. unfold chan_shutdown_extended_read, bind, chan.
  destruct (_ || _); [apply ret_quiet|]. destruct (_ && _); [apply ret_quiet|apply close_fd_quiet].
Qed.

Lemma sshbuf_reset_world b : (sshbuf_reset [] b).2 = [].
Proof.
  unfold sshbuf_reset, recallocarray. repeat case_if; try done; cbn;
    repeat case_if; done.
Qed.

Lemma reset_output_quiet : quiet reset_output.
Proof.
  intros c e. unfold reset_output. destruct (sshbuf_reset _ _) as [b w] eqn:E.
  eexists _, _. split; [done|]. split; [done|]. cbn. intros Hw. rewrite Hw in E.
  pose proof (sshbuf_reset_world (c_output c)) as H. by rewrite E in H.
Qed.

Lemma shutdown_write_quiet : quiet chan_shutdown_write.
Proof.
  intros c e. unfold chan_shutdown_write. unfold bind at 1.
  destruct (reset_output_quiet c e) as (c1 & e1 & -> & Hc1 & Hw1). unfold bind, chan.
  assert (Hm : quiet (if c_type c1 =? SSH_CHANNEL_LARVAL then ret tt
    else if negb (c_sock c1 =? -1) then call (SysShutdownWr (c_sock c1)) else channel_close_fd FWfd)).
  { destruct (_ =? SSH_CHANNEL_LARVAL); [apply ret_quiet|].
    destruct (negb _); [apply call_quiet|apply close_fd_quiet]. }
  destruct (Hm c1 e1) as (c2 & e2 & -> & Hc2 & Hw2).
  exists c2, e2. split; [done|]. split; [congruence|auto].
Qed.

Lemma wp_quiet (F : env -> Prop) m Q c e :
  quiet m ->
  (forall c' e', core c' e' = core c e -> (e_world e = [] -> e_world e' = []) -> Q tt c' e') ->
  wp m Q F c e.
Proof. intros Hq H. unfold wp. destruct (Hq c e) as (c' & e' & -> & ? & ?). auto. Qed.

Lemma wp_set_istate (F : env -> Prop) next Q c e :
  c_istate c <= 3 -> next <= 3 -> Q tt (set_istate c next) e -> wp (chan_set_istate next) Q F c e.
Proof.
  intros H1 H2 HQ. unfold wp, chan_set_istate, bind, chan, CHAN_INPUT_CLOSED.
  by replace ((c_istate c >? 3) || (next >? 3)) with false by lia.
Qed.

Lemma wp_set_ostate (F : env -> Prop) next Q c e :
  c_ostate c <= 3 -> next <= 3 -> Q tt (set_ostate c next) e -> wp (chan_set_ostate next) Q F c e.
Proof.
  intros H1 H2 HQ. unfold wp, chan_set_ostate, bind, chan, CHAN_OUTPUT_CLOSED.
  by replace ((c_ostate c >? 3) || (next >? 3)) with false by lia.
Qed.

(** Sending is fatal if the peer's number is not known or the packet cannot be
    assembled, and nothing is sent then. *)
Lemma wp_send (F : env -> Prop) p Q c e :
  (forall e', e_sent e' = e_sent e -> (c_have_remote_id c = true -> e_world e <> []) -> F e') ->
  (forall e', e_compat e' = e_compat e -> e_sent e' = e_sent e ++ [p (c_remote_id c)] ->
     (e_world e = [] -> e_world e' = []) -> Q tt c e') ->
  wp (send_or_die p) Q F c e.
Proof.
  intros HF HQ. unfold wp, send_or_die, bind, chan, sshpkt, fatal, ret.
  destruct (c_have_remote_id c); cbn; [|by apply HF].
  destruct (e_world e) as [|[] w] eqn:Ew; cbn.
  - by apply HQ.
  - apply HQ; auto. done.
  - by apply HF.
Qed.

(** ** Flags *)

Lemma land_pow2 f i : 0 <= i -> (Z.land f (2 ^ i) =? 0) = negb (Z.testbit f i).
Proof.
  intros Hi. assert (E : Z.land f (2 ^ i) = if Z.testbit f i then 2 ^ i else 0).
  { apply Z.bits_inj'. intros m Hm. rewrite Z.land_spec, Z.pow2_bits_eqb by done.
    destruct (Z.testbit f i) eqn:Ei; [rewrite Z.pow2_bits_eqb by done|rewrite Z.bits_0];
      destruct (i =? m) eqn:Em; try (by rewrite andb_false_r);
      replace m with i by lia; by rewrite Ei. }
  rewrite E. destruct (Z.testbit f i); cbn; [lia|done].
Qed.

Lemma flag_bit c i : 0 <= i -> flag c (2 ^ i) = Z.testbit (c_flags c) i.
Proof. intros. unfold flag. rewrite land_pow2 by done. apply negb_involutive. Qed.

Lemma flag_or c a b : flag c (Z.lor a b) = flag c a || flag c b.
Proof.
  unfold flag. rewrite Z.land_lor_distr_r.
  destruct (Z.land (c_flags c) a =? 0) eqn:Ea, (Z.land (c_flags c) b =? 0) eqn:Eb; cbn;
    rewrite ?negb_true_iff, ?negb_false_iff, ?Z.eqb_neq, ?Z.eqb_eq, ?Z.lor_eq_0_iff; lia.
Qed.

Lemma bit_lor f i j : 0 <= i -> 0 <= j -> Z.testbit (Z.lor f (2 ^ i)) j = Z.testbit f j || (i =? j).
Proof. intros. by rewrite Z.lor_spec, Z.pow2_bits_eqb. Qed.

(** ** The invariant *)

Definition is_close (p : packet) : bool := match p with PClose _ => true | _ => false end.
Definition is_eof (p : packet) : bool := match p with PEof _ => true | _ => false end.

(** The messages a peer may see: at most one EOF, and nothing after CLOSE. *)
Definition ordered (l : list packet) : Prop :=
  (forall i p, l !! i = Some p -> is_close p = true -> S i = length l) /\
  (forall i j p q, l !! i = Some p -> l !! j = Some q -> is_eof p = true -> is_eof q = true -> i = j).

(** [i] and [o] are the states of the two halves, [f] the flags. *)
Record chan_inv (i o f : Z) (sent : list packet) : Prop := {
  ci_i : i = 0 \/ i = 1 \/ i = 3;
  ci_o : o = 0 \/ o = 1 \/ o = 3;
  ci_close : existsb is_close sent = Z.testbit f 0;
  ci_eof : existsb is_eof sent = Z.testbit f 2;
  ci_closed : existsb is_close sent = true -> i = 3 /\ o = 3;
  ci_eof_closed : existsb is_eof sent = true -> i = 3;
  ci_order : ordered sent
}.

Definition chan_ok (c : Channel) (e : env) : Prop :=
  chan_inv (c_istate c) (c_ostate c) (c_flags c) (e_sent e).

Lemma ordered_snoc l p :
  ordered l -> existsb is_close l = false -> (is_eof p = true -> existsb is_eof l = false) ->
  ordered (l ++ [p]).
Proof.
  intros [H1 H2] Hc He.
  assert (Hno : forall (f : packet -> bool) i q, existsb f l = false -> l !! i = Some q -> f q = false).
  { intros f i q Hf Hi. destruct (f q) eqn:E; [|done].
    rewrite <- Hf. symmetry. apply existsb_exists. exists q. split; [|done].
    apply list_elem_of_In. by eapply list_elem_of_lookup_2. }
  split.
  - intros i q Hi Hq. rewrite length_app. cbn. apply lookup_app_Some in Hi as [Hi|[Hge Hi]].
    + by rewrite (Hno _ _ _ Hc Hi) in Hq.
    + apply lookup_lt_Some in Hi as Hlt. cbn in Hlt. lia.
  - intros i j q q' Hi Hj Hq Hq'.
    apply lookup_app_Some in Hi as [Hi|[Hge Hi]]; apply lookup_app_Some in Hj as [Hj|[Hge' Hj]].
    + by eapply H2.
    + apply lookup_lt_Some in Hj as Hlt. cbn in Hlt.
      assert (j - length l = 0)%nat as Ej by lia. rewrite Ej in Hj. injection Hj as <-.
      by rewrite (Hno _ _ _ (He Hq') Hi) in Hq.
    + apply lookup_lt_Some in Hi as Hlt. cbn in Hlt.
      assert (i - length l = 0)%nat as Ei by lia. rewrite Ei in Hi. injection Hi as <-.
      by rewrite (Hno _ _ _ (He Hq) Hj) in Hq'.
    + apply lookup_lt_Some in Hi as Hlt. apply lookup_lt_Some in Hj as Hlt'. cbn in *. lia.
Qed.

Lemma inv_iclose i o f s : chan_inv i o f s -> chan_inv 3 o f s.
Proof. intros []; split; auto; intuition. Qed.

Lemma inv_oclose i o f s : chan_inv i o f s -> chan_inv i 3 f s.
Proof. intros []; split; auto; intuition. Qed.

Lemma inv_idrain o f s : chan_inv 0 o f s -> chan_inv 1 o f s.
Proof. intros []; split; auto; intros H; intuition lia. Qed.

Lemma inv_odrain i f s : chan_inv i 0 f s -> chan_inv i 1 f s.
Proof. intros []; split; auto; intros H; intuition lia. Qed.

Lemma inv_flag i o f s n :
  0 <= n -> n <> 0 -> n <> 2 -> chan_inv i o f s -> chan_inv i o (Z.lor f (2 ^ n)) s.
Proof.
  intros ? ? ? []; split; auto; rewrite bit_lor by lia.
  - by replace (n =? 0) with false by lia; rewrite orb_false_r.
  - by replace (n =? 2) with false by lia; rewrite orb_false_r.
Qed.

Lemma inv_send_eof o f s r :
  chan_inv 1 o f s -> chan_inv 3 o (Z.lor f CHAN_EOF_SENT) (s ++ [PEof r]).
Proof.
  intros [Hi Ho Hc He Hcl Hecl Hord]. change CHAN_EOF_SENT with (2 ^ 2).
  assert (Hnc : existsb is_close s = false) by (destruct (existsb is_close s); [intuition lia|done]).
  assert (Hne : existsb is_eof s = false) by (destruct (existsb is_eof s); [intuition lia|done]).
  split; auto; rewrite ?existsb_app, ?bit_lor by lia; cbn [existsb is_close is_eof].
  - by rewrite <- Hc, !orb_false_r.
  - by rewrite <- He, !orb_true_r.
  - rewrite Hnc. done.
  - by apply ordered_snoc.
Qed.

Lemma inv_send_close f s r :
  chan_inv 3 3 f s -> Z.testbit f 0 = false ->
  chan_inv 3 3 (Z.lor f CHAN_CLOSE_SENT) (s ++ [PClose r]).
Proof.
  intros [Hi Ho Hc He Hcl Hecl Hord] Hf. change CHAN_CLOSE_SENT with (2 ^ 0).
  split; auto; rewrite ?existsb_app, ?bit_lor by lia; cbn [existsb is_close is_eof].
  - by rewrite !orb_true_r.
  - by rewrite <- He, !orb_false_r.
  - apply ordered_snoc; [done|congruence|done].
Qed.

Lemma inv_send_eow i o f s r : chan_inv i o f s -> o <> 3 -> chan_inv i o f (s ++ [PEow r]).
Proof.
  intros [Hi Ho Hc He Hcl Hecl Hord] Hno.
  assert (Hnc : existsb is_close s = false) by (destruct (existsb is_close s); [intuition lia|done]).
  split; auto; rewrite ?existsb_app; cbn; rewrite ?orb_false_r; auto. by apply ordered_snoc.
Qed.

(** ** Events *)

Inductive event := ReadFailed | IbufEmpty | ObufEmpty | RcvdEow | RcvdIeof | RcvdOclose
  | WriteFailed | MarkDead | IsDead (do_send : bool).

Definition run_event (ev : event) : action Z :=
  match ev with
  | ReadFailed => chan_read_failed ;; ret 0
  | IbufEmpty => chan_ibuf_empty ;; ret 0
  | ObufEmpty => chan_obuf_empty ;; ret 0
  | RcvdEow => chan_rcvd_eow ;; ret 0
  | RcvdIeof => chan_rcvd_ieof ;; ret 0
  | RcvdOclose => chan_rcvd_oclose ;; ret 0
  | WriteFailed => chan_write_failed ;; ret 0
  | MarkDead => chan_mark_dead ;; ret 0
  | IsDead do_send => chan_is_dead do_send
  end.

(** What an event may do. *)
Record progress (c : Channel) (e : env) (c' : Channel) (e' : env) : Prop := {
  pg_ok : chan_ok c' e';
  pg_i : c_istate c <= c_istate c';
  pg_o : c_ostate c <= c_ostate c';
  pg_rid : c_remote_id c' = c_remote_id c /\ c_have_remote_id c' = c_have_remote_id c;
  pg_flags : forall n, 0 <= n -> Z.testbit (c_flags c) n = true -> Z.testbit (c_flags c') n = true;
  pg_sent : exists l, e_sent e' = e_sent e ++ l;
  pg_world : e_world e = [] -> e_world e' = []
}.

Definition died (c : Channel) (e e' : env) : Prop :=
  e_sent e' = e_sent e /\ (c_have_remote_id c = true -> e_world e <> []).

Abbreviation event_spec m c e := (wp m (fun _ => progress c e) (died c e) c e).

Ltac core_eqs H := unfold core in H; injection H as ? ? ? ? ? ? ? ? ?.

(** Symbolic execution of an action. *)
Ltac wp_step :=
  match goal with
  | |- wp (bind _ _) _ _ _ _ => apply wp_bind
  | |- wp (ret _) _ _ _ _ => apply wp_ret
  | |- wp chan _ _ _ _ => apply wp_chan
  | |- wp (modify _) _ _ _ _ => apply wp_modify
  | |- wp (compat_is _) _ _ _ _ => apply wp_compat
  | |- wp (if _ then _ else _) _ _ _ _ => apply wp_if; intros ?; try done
  | |- wp chan_shutdown_read _ _ _ _ =>
      apply (wp_quiet _ _ _ _ _ shutdown_read_quiet); intros ? ? ?Hcore ?
  | |- wp chan_shutdown_write _ _ _ _ =>
      apply (wp_quiet _ _ _ _ _ shutdown_write_quiet); intros ? ? ?Hcore ?
  | |- wp chan_shutdown_extended_read _ _ _ _ =>
      apply (wp_quiet _ _ _ _ _ shutdown_extended_read_quiet); intros ? ? ?Hcore ?
  end.

Lemma progress_refl c e : chan_ok c e -> progress c e c e.
Proof. intros. split; auto; try lia. exists []. by rewrite app_nil_r. Qed.

Lemma progress_trans c e c1 e1 c2 e2 :
  progress c e c1 e1 -> progress c1 e1 c2 e2 -> progress c e c2 e2.
Proof.
  intros [? ? ? [] Hf [l Hl] ?] [? ? ? [] Hf' [l' Hl'] ?].
  split; [done|lia|lia|split; congruence|auto| |auto].
  exists (l ++ l'). by rewrite Hl', Hl, app_assoc.
Qed.

Lemma chan_ok_core c e c' e' : core c' e' = core c e -> chan_ok c e -> chan_ok c' e'.
Proof. intros H. core_eqs H. unfold chan_ok. congruence. Qed.

Lemma progress_core c e c' e' :
  core c' e' = core c e -> (e_world e = [] -> e_world e' = []) -> chan_ok c e -> progress c e c' e'.
Proof.
  intros H Hw Hok. pose proof (chan_ok_core _ _ _ _ H Hok). core_eqs H.
  split; [done|lia|lia|split; congruence|congruence| |done].
  exists []. rewrite app_nil_r. congruence.
Qed.

Lemma progress_iclose c e : chan_ok c e -> progress c e (set_istate c 3) e.
Proof.
  intros Hok. split; auto; try (cbn; lia).
  - by eapply inv_iclose.
  - destruct Hok as [Hi]. cbn. lia.
  - exists []. by rewrite app_nil_r.
Qed.

Lemma progress_oclose c e : chan_ok c e -> progress c e (set_ostate c 3) e.
Proof.
  intros Hok. split; auto; try (cbn; lia).
  - by eapply inv_oclose.
  - destruct Hok as [_ Ho]. cbn. lia.
  - exists []. by rewrite app_nil_r.
Qed.

Lemma progress_idrain c e : chan_ok c e -> c_istate c = 0 -> progress c e (set_istate c 1) e.
Proof.
  intros Hok Hi. split; auto; try (cbn; lia).
  - unfold chan_ok in *. rewrite Hi in Hok. by apply inv_idrain.
  - exists []. by rewrite app_nil_r.
Qed.

Lemma progress_odrain c e : chan_ok c e -> c_ostate c = 0 -> progress c e (set_ostate c 1) e.
Proof.
  intros Hok Hi. split; auto; try (cbn; lia).
  - unfold chan_ok in *. rewrite Hi in Hok. by apply inv_odrain.
  - exists []. by rewrite app_nil_r.
Qed.

Lemma progress_flag c e n :
  0 <= n -> n <> 0 -> n <> 2 -> chan_ok c e -> progress c e (add_flag c (2 ^ n)) e.
Proof.
  intros Hn H0 H2 Hok. split; auto; try (cbn; lia).
  - by apply inv_flag.
  - intros m Hm E. cbn. by rewrite bit_lor, E by done.
  - exists []. by rewrite app_nil_r.
Qed.

(** Sending EOF and closing the input half, with a shutdown in between. *)
Lemma progress_eof c e e1 c2 e2 :
  chan_ok c e -> c_istate c = 1 -> e_sent e1 = e_sent e ++ [PEof (c_remote_id c)] ->
  core c2 e2 = core (add_flag c CHAN_EOF_SENT) e1 ->
  (e_world e = [] -> e_world e2 = []) ->
  progress c e (set_istate c2 3) e2.
Proof.
  intros Hok Hi Hs H Hw. core_eqs H. cbn in *. split; cbn.
  - unfold chan_ok in *. cbn. rewrite Hi in Hok.
    replace (c_ostate c2) with (c_ostate c). replace (c_flags c2) with (Z.lor (c_flags c) CHAN_EOF_SENT).
    replace (e_sent e2) with (e_sent e ++ [PEof (c_remote_id c)]) by congruence.
    by apply inv_send_eof.
  - lia.
  - lia.
  - split; congruence.
  - intros n Hn E. replace (c_flags c2) with (Z.lor (c_flags c) CHAN_EOF_SENT).
    change CHAN_EOF_SENT with (2 ^ 2). by rewrite bit_lor, E by lia.
  - eexists. by transitivity (e_sent e1).
  - done.
Qed.

(** Follow one step of progress by the rest of an event. *)
Lemma event_then c e c1 e1 {A} (m : action A) :
  progress c e c1 e1 ->
  (chan_ok c1 e1 -> wp m (fun _ => progress c1 e1) (died c1 e1) c1 e1) ->
  e_sent e1 = e_sent e -> wp m (fun _ => progress c e) (died c e) c1 e1.
Proof.
  intros Hp Hm Hs. eapply wp_mono; [apply Hm, Hp|..].
  - intros a c2 e2 H2. by eapply progress_trans.
  - intros e2 [H1 H2]. destruct Hp as [_ _ _ [_ Hh] _ _ Hw]. split; [congruence|].
    intros Hr Hn. apply H2; [congruence|auto].
Qed.

Lemma ibound c e : chan_ok c e -> 0 <= c_istate c <= 3.
Proof. intros []. lia. Qed.

Lemma obound c e : chan_ok c e -> 0 <= c_ostate c <= 3.
Proof. intros []. lia. Qed.

(** A shutdown and then a change of the state of the input half. *)
Lemma quiet_then_iclose c e c1 e1 :
  chan_ok c e -> core c1 e1 = core c e -> (e_world e = [] -> e_world e1 = []) ->
  progress c e (set_istate c1 3) e1.
Proof.
  intros Hok Hc Hw. eapply progress_trans; [by apply progress_core|].
  apply progress_iclose. by eapply chan_ok_core.
Qed.

Lemma quiet_then_oclose c e c1 e1 :
  chan_ok c e -> core c1 e1 = core c e -> (e_world e = [] -> e_world e1 = []) ->
  progress c e (set_ostate c1 3) e1.
Proof.
  intros Hok Hc Hw. eapply progress_trans; [by apply progress_core|].
  apply progress_oclose. by eapply chan_ok_core.
Qed.

Lemma read_failed_spec c e : chan_ok c e -> event_spec chan_read_failed c e.
Proof.
  intros Hok. unfold chan_read_failed. repeat wp_step; [|by apply progress_refl].
  pose proof (chan_ok_core _ _ _ _ Hcore Hok) as Hok1. pose proof (ibound _ _ Hok1).
  apply wp_set_istate; [lia|done|]. eapply progress_trans; [by apply progress_core|].
  apply progress_idrain; [done|]. core_eqs Hcore. unfold CHAN_INPUT_OPEN in *. lia.
Qed.

Lemma rcvd_eow_spec c e : chan_ok c e -> event_spec chan_rcvd_eow c e.
Proof.
  intros Hok. unfold chan_rcvd_eow. repeat wp_step; [|by apply progress_refl].
  pose proof (ibound _ _ (chan_ok_core _ _ _ _ Hcore Hok)).
  apply wp_set_istate; [lia|done|]. by apply quiet_then_iclose.
Qed.

Lemma obuf_empty_spec c e : chan_ok c e -> event_spec chan_obuf_empty c e.
Proof.
  intros Hok. unfold chan_obuf_empty. repeat wp_step; try by apply progress_refl.
  pose proof (obound _ _ (chan_ok_core _ _ _ _ Hcore Hok)).
  apply wp_set_ostate; [lia|done|]. by apply quiet_then_oclose.
Qed.

Lemma ibuf_empty_spec c e : chan_ok c e -> event_spec chan_ibuf_empty c e.
Proof.
  intros Hok. pose proof (ibound _ _ Hok). unfold chan_ibuf_empty, chan_send_eof2.
  repeat wp_step; try by apply progress_refl.
  - apply wp_send; [by split|]. intros e1 Hc Hs Hw. repeat wp_step.
    apply wp_set_istate; [cbn; lia|done|].
    eapply progress_eof; [done| |exact Hs|done|done]. unfold CHAN_INPUT_WAIT_DRAIN in *. lia.
  - apply wp_set_istate; [lia|done|]. by apply progress_iclose.
  - apply wp_set_istate; [lia|done|]. by apply progress_iclose.
Qed.

Lemma rcvd_ieof_spec c e : chan_ok c e -> event_spec chan_rcvd_ieof c e.
Proof.
  intros Hok. unfold chan_rcvd_ieof. wp_step. wp_step.
  eapply (event_then c e (add_flag c CHAN_EOF_RCVD) e); [by apply (progress_flag c e 3)|clear Hok|done].
  generalize (add_flag c CHAN_EOF_RCVD). clear c. intros c Hok. wp_step. wp_step.
  apply wp_bind. apply wp_if; intros E.
  - pose proof (obound _ _ Hok). apply wp_set_ostate; [lia|done|].
    eapply (event_then c e (set_ostate c CHAN_OUTPUT_WAIT_DRAIN) e); [|clear Hok|done].
    + apply progress_odrain; [done|]. unfold CHAN_OUTPUT_OPEN in *. lia.
    + intros Hok. repeat wp_step; [by apply obuf_empty_spec|by apply progress_refl].
  - wp_step. repeat wp_step; [by apply obuf_empty_spec|by apply progress_refl].
Qed.

(** The second half of [chan_rcvd_oclose]: closing the input half. *)
Lemma oclose_input_spec c e :
  chan_ok c e ->
  event_spec (
    if c_istate c =? CHAN_INPUT_OPEN then
      chan_shutdown_read ;; chan_shutdown_extended_read ;; chan_set_istate CHAN_INPUT_CLOSED
    else if c_istate c =? CHAN_INPUT_WAIT_DRAIN then
      (if negb (flag c CHAN_LOCAL) then chan_send_eof2 else ret tt) ;;
      chan_shutdown_extended_read ;; chan_set_istate CHAN_INPUT_CLOSED
    else ret tt) c e.
Proof.
  intros Hok. pose proof (ibound _ _ Hok). unfold chan_send_eof2.
  repeat wp_step; try by apply progress_refl.
  - assert (core c'0 e'0 = core c e) as Hc by congruence.
    pose proof (ibound _ _ (chan_ok_core _ _ _ _ Hc Hok)).
    apply wp_set_istate; [lia|done|]. apply quiet_then_iclose; auto.
  - apply wp_send; [by split|]. intros e1 Hc1 Hs Hw. repeat wp_step.
    pose proof Hcore as Hcore'. core_eqs Hcore'. cbn in *.
    apply wp_set_istate; [lia|done|].
    eapply progress_eof; [done| |exact Hs|done|auto]. unfold CHAN_INPUT_WAIT_DRAIN in *. lia.
  - pose proof (ibound _ _ (chan_ok_core _ _ _ _ Hcore Hok)).
    apply wp_set_istate; [lia|done|]. by apply quiet_then_iclose.
  - pose proof (ibound _ _ (chan_ok_core _ _ _ _ Hcore Hok)).
    apply wp_set_istate; [lia|done|]. by apply quiet_then_iclose.
Qed.

Lemma rcvd_oclose_spec c e : chan_ok c e -> event_spec chan_rcvd_oclose c e.
Proof.
  intros Hok. unfold chan_rcvd_oclose. wp_step. wp_step.
  eapply (event_then c e _ e); [|clear Hok|done].
  { destruct (negb _); [by apply (progress_flag c e 1)|by apply progress_refl]. }
  generalize (if negb (flag c CHAN_LOCAL) then add_flag c CHAN_CLOSE_RCVD else c). clear c.
  intros c Hok. pose proof (obound _ _ Hok). pose proof (ibound _ _ Hok).
  wp_step. wp_step. apply wp_if; intros Et.
  - wp_step. apply wp_set_ostate; [lia|done|].
    eapply (event_then c e (set_ostate c CHAN_OUTPUT_CLOSED) e);
      [by apply progress_oclose|clear Hok|done].
    intros Hok. apply wp_set_istate; [cbn; lia|done|]. by apply progress_iclose.
  - wp_step. apply wp_if; intros Eo.
    + apply wp_set_ostate; [lia|done|].
      eapply (event_then c e (set_ostate c CHAN_OUTPUT_WAIT_DRAIN) e); [|clear Hok|done].
      * apply progress_odrain; [done|]. unfold CHAN_OUTPUT_OPEN in *. lia.
      * intros Hok. wp_step. wp_step. by apply oclose_input_spec.
    + wp_step. wp_step. wp_step. by apply oclose_input_spec.
Qed.

Lemma write_failed_spec c e : chan_ok c e -> event_spec chan_write_failed c e.
Proof.
  intros Hok. unfold chan_write_failed, chan_send_eow2.
  repeat wp_step; try by apply progress_refl.
  all: pose proof (chan_ok_core _ _ _ _ Hcore Hok) as Hok1; pose proof (obound _ _ Hok1).
  4: apply wp_set_ostate; [lia|done|]; by apply quiet_then_oclose.
  1, 2: apply wp_set_ostate; [lia|done|]; by apply quiet_then_oclose.
  apply wp_send.
  - intros e1 Hs Hr. pose proof (progress_core _ _ _ _ Hcore ltac:(done) Hok) as [_ _ _ [_ Hh] _ _ _].
    core_eqs Hcore. split; [congruence|]. intros Hy Hn. apply Hr; [congruence|auto].
  - intros e1 Hcm Hs Hw. apply wp_set_ostate; [lia|done|].
    pose proof (progress_core _ _ _ _ Hcore ltac:(done) Hok) as Hp.
    eapply progress_trans; [exact Hp|].
    split; cbn; [|lia|unfold CHAN_OUTPUT_CLOSED; lia|done|done|by eexists|done].
    unfold chan_ok in *. cbn. rewrite Hs. eapply inv_oclose, inv_send_eow; [done|].
    unfold CHAN_OUTPUT_CLOSED in *. lia.
Qed.

Lemma is_dead_spec b c e : chan_ok c e -> event_spec (chan_is_dead b) c e.
Proof.
  intros Hok. unfold chan_is_dead, chan_send_close2.
  repeat wp_step; try by apply progress_refl.
  apply wp_send; [by split|]. intros e1 Hcm Hs Hw.
  assert (Hp : progress c e (add_flag c CHAN_CLOSE_SENT) e1).
  { split; cbn; [|lia|lia|done| |by eexists|done].
    - unfold chan_ok in *. cbn. rewrite Hs.
      replace (c_istate c) with 3 in * by (unfold CHAN_INPUT_CLOSED in *; lia).
      replace (c_ostate c) with 3 in * by (unfold CHAN_OUTPUT_CLOSED in *; lia).
      apply inv_send_close; [done|]. rewrite <- flag_bit by done. done.
    - intros n Hn E. change CHAN_CLOSE_SENT with (2 ^ 0). by rewrite bit_lor, E by done. }
  repeat wp_step; done.
Qed.

Lemma run_event_spec ev c e : chan_ok c e -> event_spec (run_event ev) c e.
Proof.
  intros Hok. destruct ev; cbn [run_event]; try apply wp_bind.
  - by apply read_failed_spec.
  - by apply ibuf_empty_spec.
  - by apply obuf_empty_spec.
  - by apply rcvd_eow_spec.
  - by apply rcvd_ieof_spec.
  - by apply rcvd_oclose_spec.
  - by apply write_failed_spec.
  - destruct (progress_refl c e Hok). by split.
  - by apply is_dead_spec.
Qed.

(** ** Runs

    Between events the rest of the program moves data through the buffers and
    opens and closes descriptors, but leaves the protocol state alone; the
    allocator and the packet layer may behave as they like. *)
Inductive chan_step : Channel * env -> Channel * env -> Prop :=
  | step_event ev c e r c' e' :
      run_event ev c e = Ret r c' e' -> chan_step (c, e) (c', e')
  | step_other c e c' e' :
      core c' e' = core c e -> chan_step (c, e) (c', e').

Inductive chan_steps : Channel * env -> Channel * env -> Prop :=
  | steps_refl s : chan_steps s s
  | steps_step s1 s2 s3 : chan_steps s1 s2 -> chan_step s2 s3 -> chan_steps s1 s3.

(** A channel that was just opened, by the peer or locally. *)
Definition fresh (c : Channel) (e : env) : Prop :=
  c_istate c = CHAN_INPUT_OPEN /\ c_ostate c = CHAN_OUTPUT_OPEN /\
  (c_flags c = 0 \/ c_flags c = CHAN_LOCAL) /\ e_sent e = [].

Lemma fresh_ok c e : fresh c e -> chan_ok c e.
Proof.
  intros (Hi & Ho & Hf & Hs). unfold chan_ok. rewrite Hi, Ho, Hs.
  split; [by left|by left|by destruct Hf as [-> | ->]..|done|done|].
  split; [intros i p H|intros i j p q H]; by rewrite lookup_nil in H.
Qed.

Lemma step_ok s1 s2 : chan_step s1 s2 -> chan_ok s1.1 s1.2 -> chan_ok s2.1 s2.2.
Proof.
  intros [ev c e r c' e' E|c e c' e' E] Hok; cbn in *; [|by eapply chan_ok_core].
  pose proof (run_event_spec ev c e Hok) as H. unfold wp in H. rewrite E in H. apply H.
Qed.

Lemma steps_ok s1 s2 : chan_steps s1 s2 -> chan_ok s1.1 s1.2 -> chan_ok s2.1 s2.2.
Proof. induction 1; eauto using step_ok. Qed.

Lemma steps_mono s1 s2 :
  chan_steps s1 s2 -> chan_ok s1.1 s1.2 ->
  c_istate s1.1 <= c_istate s2.1 /\ c_ostate s1.1 <= c_ostate s2.1.
Proof.
  induction 1 as [s|s1 s2 s3 H12 IH H23]; intros Hok; [lia|].
  pose proof (steps_ok _ _ H12 Hok) as Hok2. specialize (IH Hok).
  destruct H23 as [ev c e r c' e' E|c e c' e' E]; cbn in *.
  - pose proof (run_event_spec ev c e Hok2) as H. unfold wp in H. rewrite E in H. destruct H. lia.
  - core_eqs E. lia.
Qed.

(** C26: The messages of the close protocol.  Whatever events hit a channel
    from the moment it is opened, the peer sees at most one EOF and at most one
    CLOSE for it, and nothing (no EOF, no end-of-write notice) after the CLOSE.
    CLOSE has been sent exactly when the flag says so, and then both halves
    are closed. *)
Theorem channel_message_order (c c' : Channel) (e e' : env) :
  fresh c e -> chan_steps (c, e) (c', e') ->
  (forall i r, e_sent e' !! i = Some (PClose r) -> S i = length (e_sent e')) /\
  (forall i j r r', e_sent e' !! i = Some (PEof r) -> e_sent e' !! j = Some (PEof r') -> i = j) /\
  (flag c' CHAN_CLOSE_SENT = true <-> exists r, PClose r ∈ e_sent e') /\
  (flag c' CHAN_CLOSE_SENT = true ->
     c_istate c' = CHAN_INPUT_CLOSED /\ c_ostate c' = CHAN_OUTPUT_CLOSED).
Proof.
  intros Hf Hs. apply fresh_ok in Hf. apply steps_ok in Hs; [|done]. cbn in Hs.
  destruct Hs as [Hi Ho Hc He Hcl _ [Ho1 Ho2]].
  change CHAN_CLOSE_SENT with (2 ^ 0). rewrite flag_bit, <- Hc by done. split_and!.
  - intros i r H. by apply (Ho1 i _ H).
  - intros i j r r' H1 H2. by apply (Ho2 i j _ _ H1 H2).
  - rewrite existsb_exists. split.
    + intros (p & Hin & Hp). destruct p as [|r|]; try done. exists r. by apply list_elem_of_In.
    + intros [r Hr]. exists (PClose r). by rewrite <- list_elem_of_In.
  - exact Hcl.
Qed.

Lemma channel_message_order_witness :
  let c := mk_channel 4 7 true 0 0 0 (-1) (-1) (-1) (-1) 0 0 [] 0 []
             (mk_sshbuf (Some [0]) true 0 0 1 1 false 1 None)
             (mk_sshbuf (Some [0]) true 0 0 1 1 false 1 None)
             (mk_sshbuf (Some [0]) true 0 0 1 1 false 1 None) 0 String.EmptyString in
  let e := mk_env 0 [] [] [] in
  exists c' e', chan_steps (c, e) (c', e') /\ e_sent e' = [PEof 7; PClose 7] /\
    (flag c' CHAN_CLOSE_SENT = true ->
       c_istate c' = CHAN_INPUT_CLOSED /\ c_ostate c' = CHAN_OUTPUT_CLOSED).
Proof.
  cbn zeta. eexists _, _.
  eassert (Hrun : chan_steps (mk_channel 4 7 true 0 0 0 (-1) (-1) (-1) (-1) 0 0 [] 0 []
             (mk_sshbuf (Some [0]) true 0 0 1 1 false 1 None)
             (mk_sshbuf (Some [0]) true 0 0 1 1 false 1 None)
             (mk_sshbuf (Some [0]) true 0 0 1 1 false 1 None) 0 String.EmptyString,
             mk_env 0 [] [] []) _).
  { eapply steps_step; [eapply steps_step; [eapply steps_step; [eapply steps_step; [constructor|]|]|]|].
    - eapply (step_event ReadFailed). vm_compute. reflexivity.
    - eapply (step_event IbufEmpty). vm_compute. reflexivity.
    - eapply (step_event RcvdIeof). vm_compute. reflexivity.
    - eapply (step_event (IsDead true)). vm_compute. reflexivity. }
  split; [exact Hrun|]. split; [reflexivity|].
  refine (proj2 (proj2 (proj2 (channel_message_order _ _ _ _ _ Hrun)))).
  split_and!; auto.
Defined.

(** C27: The halves of a channel only close: from the moment it is opened,
    neither state ever goes back, whatever the events; and the two checks for
    an impossible state never end the process.  An event is fatal only if the
    peer's channel number is unknown or a packet cannot be assembled, and
    nothing is sent by such an event. *)
Theorem channel_only_closes (c c1 c2 : Channel) (e e1 e2 : env) (ev : event) :
  fresh c e -> chan_steps (c, e) (c1, e1) -> chan_steps (c1, e1) (c2, e2) ->
  (c_istate c1 <= c_istate c2 /\ c_ostate c1 <= c_ostate c2) /\
  match run_event ev c2 e2 with
  | Ret _ _ _ => True
  | Fatal e3 => e_sent e3 = e_sent e2 /\ (c_have_remote_id c2 = true -> e_world e2 <> [])
  end.
Proof.
  intros Hf H1 H2. apply fresh_ok in Hf. apply steps_ok in H1; [|done]. cbn in H1. split.
  - by apply (steps_mono _ _ H2).
  - apply steps_ok in H2; [|done]. cbn in H2. pose proof (run_event_spec ev c2 e2 H2) as H.
    unfold wp in H. by destruct (run_event ev c2 e2).
Qed.

Lemma channel_only_closes_witness :
  let b := mk_sshbuf (Some [0]) true 0 0 1 1 false 1 None in
  let c := mk_channel 4 7 false 0 0 0 (-1) (-1) (-1) (-1) 0 0 [] 0 [] b b b 0 String.EmptyString in
  exists c1 e1 e3, chan_steps (c, mk_env 0 [] [] []) (c1, e1) /\
    run_event IbufEmpty c1 e1 = Fatal e3 /\
    (c_istate c1 <= c_istate c1 /\ c_ostate c1 <= c_ostate c1) /\
    match run_event IbufEmpty c1 e1 with
    | Ret _ _ _ => True
    | Fatal e3 => e_sent e3 = e_sent e1 /\ (c_have_remote_id c1 = true -> e_world e1 <> [])
    end.
Proof.
  intros b c. exists (set_istate c 1), (mk_env 0 [] [] []), (mk_env 0 [] [] []).
  assert (Hrun : chan_steps (c, mk_env 0 [] [] []) (set_istate c 1, mk_env 0 [] [] [])).
  { eapply steps_step; [constructor|]. apply (step_event ReadFailed _ _ 0). reflexivity. }
  split; [exact Hrun|]. split; [reflexivity|].
  refine (channel_only_closes c _ _ _ _ _ IbufEmpty _ Hrun (steps_refl _)). split_and!; auto.
Defined.

(** ** A channel whose peer has closed goes away *)

(** A channel whose death the main loop still has to notice. *)
Definition live (c : Channel) (e : env) : Prop :=
  c_type c <> SSH_CHANNEL_ZOMBIE /\ c_have_remote_id c = true /\
  Z.land (e_compat e) SSH_BUG_EXTEOF = 0.

Lemma live_core c e c' e' : core c' e' = core c e -> live c e -> live c' e'.
Proof. intros H. core_eqs H. unfold live. intros (? & ? & ?). split_and!; congruence. Qed.

Abbreviation never := (fun _ : env => False).

(** The state after the peer's CLOSE: only the output half may still drain. *)
Definition only_output_left (c : Channel) (e : env) : Prop :=
  (c_ostate c = 1 \/ c_ostate c = 3) /\ Z.testbit (c_flags c) 1 = true /\
  Z.testbit (c_flags c) 4 = false /\ live c e.

Lemma only_output_core c e c' e' :
  core c' e' = core c e -> only_output_left c e -> only_output_left c' e'.
Proof.
  intros H (? & ? & ? & Hl). pose proof (live_core _ _ _ _ H Hl). core_eqs H.
  split_and!; congruence || done.
Qed.

Lemma only_output_istate c e n : only_output_left c e -> only_output_left (set_istate c n) e.
Proof. done. Qed.

Lemma local_flag c : Z.testbit (c_flags c) 4 = false -> flag c CHAN_LOCAL = false.
Proof. intros. change CHAN_LOCAL with (2 ^ 4). by rewrite flag_bit. Qed.

Lemma wp_send_ok (F : env -> Prop) p Q c e :
  c_have_remote_id c = true -> e_world e = [] ->
  (forall e', e_compat e' = e_compat e -> e_sent e' = e_sent e ++ [p (c_remote_id c)] ->
     e_world e' = [] -> Q tt c e') ->
  wp (send_or_die p) Q F c e.
Proof.
  intros Hh Hw HQ. apply wp_send; [intros e' _ Hn; by destruct (Hn Hh)|].
  intros e' H1 H2 H3. apply HQ; auto.
Qed.

Lemma oclose_input_completes c e :
  c_istate c = 0 \/ c_istate c = 1 \/ c_istate c = 3 -> only_output_left c e -> e_world e = [] ->
  wp (if c_istate c =? CHAN_INPUT_OPEN then
      chan_shutdown_read ;; chan_shutdown_extended_read ;; chan_set_istate CHAN_INPUT_CLOSED
    else if c_istate c =? CHAN_INPUT_WAIT_DRAIN then
      (if negb (flag c CHAN_LOCAL) then chan_send_eof2 else ret tt) ;;
      chan_shutdown_extended_read ;; chan_set_istate CHAN_INPUT_CLOSED
    else ret tt)
    (fun _ c' e' => c_istate c' = 3 /\ only_output_left c' e') never c e.
Proof.
  intros Hi Hoo Hw. pose proof Hoo as (Ho & Hr & Hloc & _ & Hh & _).
  rewrite local_flag by done. cbn [negb]. unfold chan_send_eof2.
  unfold CHAN_INPUT_OPEN, CHAN_INPUT_WAIT_DRAIN, CHAN_INPUT_CLOSED.
  repeat wp_step; try lia.
  - assert (core c'0 e'0 = core c e) as Hc by congruence.
    pose proof Hc as Hc'. core_eqs Hc'. apply wp_set_istate; [lia|done|].
    split; [done|]. apply only_output_istate. by apply (only_output_core c e).
  - apply wp_send_ok; [done..|]. intros e1 Hcm Hs Hw1. repeat wp_step.
    pose proof Hcore as Hc'. core_eqs Hc'. cbn [c_istate add_flag set_states] in *. apply wp_set_istate; [lia|done|].
    split; [done|]. apply only_output_istate.
    apply (only_output_core (add_flag c CHAN_EOF_SENT) e1); [done|].
    destruct Hoo as (_ & _ & _ & Ht & _ & Hx). change CHAN_EOF_SENT with (2 ^ 2).
    unfold only_output_left, live. split_and!; cbn [c_ostate c_flags add_flag set_states]; [done| | |done|done|congruence].
    + by rewrite bit_lor, Hr.
    + by rewrite bit_lor, Hloc.
  - split; [lia|done].
Qed.

Lemma oclose_completes c e :
  chan_ok c e -> live c e -> Z.testbit (c_flags c) 4 = false -> e_world e = [] ->
  wp chan_rcvd_oclose (fun _ c' e' => c_istate c' = 3 /\ only_output_left c' e') never c e.
Proof.
  intros Hok Hl Hloc Hw. unfold chan_rcvd_oclose. wp_step. wp_step.
  rewrite (local_flag c Hloc). cbn [negb]. change CHAN_CLOSE_RCVD with (2 ^ 1).
  set (c1 := add_flag c (2 ^ 1)).
  assert (H1 : Z.testbit (c_flags c1) 1 = true /\ Z.testbit (c_flags c1) 4 = false).
  { unfold c1. cbn [c_flags add_flag set_states]. rewrite !bit_lor, Hloc by done.
    split; [apply orb_true_r|done]. }
  destruct H1 as [H1 H4].
  assert (Hi : c_istate c1 = 0 \/ c_istate c1 = 1 \/ c_istate c1 = 3) by apply Hok.
  assert (Ho : c_ostate c1 = 0 \/ c_ostate c1 = 1 \/ c_ostate c1 = 3) by apply Hok.
  assert (Hl1 : live c1 e) by done. clearbody c1. clear Hok Hl Hloc.
  wp_step. wp_step. apply wp_if; intros Et.
  - wp_step. apply wp_set_ostate; [lia|done|]. apply wp_set_istate; [cbn; lia|done|].
    split; [done|]. split_and!; try done. by right.
  - wp_step. unfold CHAN_OUTPUT_OPEN, CHAN_OUTPUT_WAIT_DRAIN. apply wp_if; intros Eo.
    + apply wp_set_ostate; [lia|done|]. wp_step. wp_step.
      apply oclose_input_completes; [done| |done]. split_and!; try done. by left.
    + wp_step. wp_step. wp_step. apply oclose_input_completes; [done| |done].
      split_and!; try done; try apply Hl1. lia.
Qed.

Lemma obuf_completes c e :
  c_istate c = 3 -> only_output_left c e -> sshbuf_len (c_output c) = 0 ->
  wp chan_obuf_empty
    (fun _ c' e' => c_istate c' = 3 /\ c_ostate c' = 3 /\ only_output_left c' e' /\
       (e_world e = [] -> e_world e' = []) /\ e_sent e' = e_sent e /\ c_flags c' = c_flags c) never c e.
Proof.
  intros Hi Hoo Hlen. pose proof Hoo as (Ho & _). unfold chan_obuf_empty.
  unfold CHAN_OUTPUT_WAIT_DRAIN. wp_step. wp_step. rewrite Hlen. repeat wp_step; try lia.
  - pose proof Hcore as Hc. core_eqs Hc. apply wp_set_ostate; [lia|done|].
    pose proof (only_output_core _ _ _ _ Hcore Hoo) as (_ & ? & ? & ?).
    split; [cbn; lia|]. split; [done|]. split; [split; [by right|done]|]. split; [done|].
    split; [congruence|]. cbn. congruence.
  - split; [done|]. split; [lia|]. done.
Qed.

Lemma is_dead_completes c e :
  c_istate c = 3 -> c_ostate c = 3 -> only_output_left c e -> e_world e = [] ->
  wp (chan_is_dead true)
    (fun r c' e' => r = 1 /\ flag c' CHAN_CLOSE_SENT = true /\ flag c' CHAN_CLOSE_RCVD = true)
    never c e.
Proof.
  intros Hi Ho (_ & Hr & Hl & Ht & Hh & Hx) Hw. unfold chan_is_dead, chan_send_close2.
  unfold CHAN_INPUT_CLOSED, CHAN_OUTPUT_CLOSED.
  assert (Hrcv : forall c1, c_flags c1 = c_flags c -> flag c1 CHAN_CLOSE_RCVD = true).
  { intros c1 E. change CHAN_CLOSE_RCVD with (2 ^ 1). by rewrite flag_bit, E. }
  wp_step. wp_step. rewrite (local_flag c Hl), Hi, Ho. cbn [Z.eqb negb andb orb].
  rewrite !andb_false_r. cbn [andb]. apply wp_if; [intros E; lia|intros _]. apply wp_if; [done|intros _].
  wp_step. wp_step. rewrite Hx. cbn [Z.eqb negb andb].
  destruct (flag c CHAN_CLOSE_SENT) eqn:Es; cbn [negb andb].
  - pose proof (Hrcv c eq_refl) as Er. repeat wp_step.
    match goal with H : _ && _ = false |- _ => rewrite Es, Er in H end. done.
  - wp_step. wp_step. wp_step. rewrite Hi, Ho, Es. cbn [Z.eqb negb orb].
    wp_step. wp_step. apply wp_send_ok; [done..|]. intros e1 Hcm Hs Hw1. wp_step. wp_step. wp_step.
    assert (Es' : flag (add_flag c CHAN_CLOSE_SENT) CHAN_CLOSE_SENT = true).
    { change CHAN_CLOSE_SENT with (2 ^ 0). rewrite flag_bit by done.
      cbn [c_flags add_flag set_states]. rewrite bit_lor by done. apply orb_true_r. }
    assert (Er' : flag (add_flag c CHAN_CLOSE_SENT) CHAN_CLOSE_RCVD = true).
    { change CHAN_CLOSE_RCVD with (2 ^ 1). rewrite flag_bit by done.
      change CHAN_CLOSE_SENT with (2 ^ 0). cbn [c_flags add_flag set_states].
      by rewrite bit_lor, Hr by done. }
    rewrite Es', Er'. by repeat wp_step.
Qed.

(** C28: A channel goes away.  Take any channel in use, not local and with its
    peer's number known.  When the peer's CLOSE arrives, then, once the output
    buffer has drained, the handler of the empty buffer and the check of the
    main loop run, the check reports the channel dead, with CLOSE both sent and
    received.  (The allocator does not fail meanwhile, and the peer does not
    have the bug that keeps extended data open.) *)
Theorem channel_close_completes (c0 c : Channel) (e0 e : env) :
  fresh c0 e0 -> chan_steps (c0, e0) (c, e) -> live c e ->
  flag c CHAN_LOCAL = false -> e_world e = [] ->
  exists c1 e1, run_event RcvdOclose c e = Ret 0 c1 e1 /\
    forall c2 e2, core c2 e2 = core c1 e1 -> sshbuf_len (c_output c2) = 0 -> e_world e2 = [] ->
    exists c3 e3 c4 e4, run_event ObufEmpty c2 e2 = Ret 0 c3 e3 /\
      run_event (IsDead true) c3 e3 = Ret 1 c4 e4 /\
      flag c4 CHAN_CLOSE_SENT = true /\ flag c4 CHAN_CLOSE_RCVD = true.
Proof.
  intros Hf Hs Hl Hloc Hw. apply fresh_ok in Hf. apply steps_ok in Hs; [|done]. cbn in Hs.
  change CHAN_LOCAL with (2 ^ 4) in Hloc. rewrite flag_bit in Hloc by done.
  pose proof (oclose_completes c e Hs Hl Hloc Hw) as H. unfold wp in H.
  cbn [run_event]. unfold bind at 1. destruct (chan_rcvd_oclose c e) as [[] c1 e1|]; [|done].
  exists c1, e1. split; [done|]. intros c2 e2 Hc Hlen Hw2. destruct H as [Hi Hoo].
  pose proof (only_output_core _ _ _ _ Hc Hoo) as Hoo2.
  assert (Hi2 : c_istate c2 = 3) by (core_eqs Hc; congruence).
  pose proof (obuf_completes c2 e2 Hi2 Hoo2 Hlen) as H. unfold wp in H. unfold bind at 1.
  destruct (chan_obuf_empty c2 e2) as [[] c3 e3|]; [|done].
  destruct H as (Hi3 & Ho3 & Hoo3 & Hw3 & _).
  pose proof (is_dead_completes c3 e3 Hi3 Ho3 Hoo3 (Hw3 Hw2)) as H. unfold wp in H.
  destruct (chan_is_dead true c3 e3) as [r c4 e4|] eqn:E; [|done].
  destruct H as (-> & H1 & H2). exists c3, e3, c4, e4. by split_and!.
Qed.

Lemma channel_close_completes_witness :
  let b := mk_sshbuf (Some [0]) true 0 0 1 1 false 1 None in
  let c := mk_channel 4 7 true 0 0 0 5 6 (-1) (-1) 0 0 [] 0 [] b b b 0 String.EmptyString in
  exists c1 e1 c3 e3 c4 e4,
    run_event RcvdOclose c (mk_env 0 [] [] []) = Ret 0 c1 e1 /\
    run_event ObufEmpty c1 e1 = Ret 0 c3 e3 /\ run_event (IsDead true) c3 e3 = Ret 1 c4 e4 /\
    flag c4 CHAN_CLOSE_SENT = true.
Proof.
  intros b c.
  destruct (channel_close_completes c c (mk_env 0 [] [] []) (mk_env 0 [] [] []))
    as (c1 & e1 & E1 & H); [by split_and!; auto|constructor|by split_and!|done..|].
  destruct (H c1 e1 eq_refl) as (c3 & e3 & c4 & e4 & E3 & E4 & Hc & _).
  - vm_compute in E1. injection E1 as <- <-. reflexivity.
  - vm_compute in E1. injection E1 as <- <-. reflexivity.
  - exists c1, e1, c3, e3, c4, e4. by split_and!.
Defined.
