(* ===== verification/Match.v ===== *)
(** Wildcard patterns, pattern lists and proposal lists: match.c.

    A C string is the list of its characters without the terminating zero.
    The file models the functions of match.c that work on strings alone; those
    that look at addresses are in Addrmatch.v. *)

From stdpp Require Import base list numbers tactics sets.
From Stdlib Require Import ZArith Lia ZifyBool.
From S2P Require Import Prelude.

(** Characters. *)
Definition STAR : Z := 42.
Definition QUERY : Z := 63.
Definition BANG : Z := 33.
Definition COMMA : Z := 44.

(** The C locale. *)
Definition isupper (c : Z) : bool := (65 <=? c) && (c <=? 90).
Definition tolower (c : Z) : Z := if isupper c then c + 32 else c.

(** ** Patterns *)

(** [while ( *pattern == '*') pattern++] *)
Fixpoint skip_stars (pattern : list Z) : list Z :=
  match pattern with
  | c :: p => if c =? STAR then skip_stars p else pattern
  | [] => []
  end.

(** The two loops [for (; *s; s++)]: look for an occurrence of [c] after which
    [f] accepts, and for a suffix that [f] accepts. *)
Fixpoint after_char (f : list Z -> bool) (c : Z) (s : list Z) : bool :=
  match s with
  | [] => false
  | x :: s' => if (x =? c) && f s' then true else after_char f c s'
  end.

Fixpoint some_suffix (f : list Z -> bool) (s : list Z) : bool :=
  match s with
  | [] => false
  | _ :: s' => if f s then true else some_suffix f s'
  end.

(** Every turn of the endless loop and every recursive call works on a shorter
    pattern; [fuel] bounds their number. *)
Fixpoint match_pattern_fuel (fuel : nat) (s pattern : list Z) : bool :=
  match fuel with
  | O => false
  | S fuel =>
      match pattern with
      (* If at end of pattern, accept if also at end of string. *)
      | [] => match s with [] => true | _ => false end
      | c :: rest =>
          if c =? STAR then
            (* Skip this and any consecutive asterisks. *)
            match skip_stars pattern with
            | [] => true
            | c' :: rest' =>
                (* If next character in pattern is known, optimize. *)
                if negb (c' =? QUERY) && negb (c' =? STAR)
                then after_char (fun t => match_pattern_fuel fuel t rest') c' s
                else some_suffix (fun t => match_pattern_fuel fuel t (c' :: rest')) s
            end
          else
            match s with
            | [] => false
            | x :: s' =>
                (* Check if the next character of the string is acceptable. *)
                if negb (c =? QUERY) && negb (c =? x) then false
                else match_pattern_fuel fuel s' rest
            end
      end
  end.

Definition match_pattern (s pattern : list Z) : bool :=
  match_pattern_fuel (S (length pattern)) s pattern.

(** ** Pattern lists *)

Definition SUB_SIZE : nat := 1024.

(** The loop that extracts the subpattern up to a comma or end: [room] is the
    number of characters the buffer still takes. *)
Fixpoint take_sub (room : nat) (dolower : bool) (pattern : list Z) : list Z * list Z :=
  match room, pattern with
  | S room, c :: rest =>
      if c =? COMMA then ([], pattern)
      else
        let '(sub, rest) := take_sub room dolower rest in
        ((if dolower && isupper c then tolower c else c) :: sub, rest)
  | _, _ => ([], pattern)
  end.

Fixpoint match_list_loop (fuel : nat) (string pattern : list Z) (dolower : bool)
    (got_positive : Z) : Z :=
  match fuel, pattern with
  | S fuel, c :: rest =>
      (* Check if the subpattern is negated. *)
      let '(negated, pattern) := if c =? BANG then (true, rest) else (false, pattern) in
      let '(sub, pattern) := take_sub (SUB_SIZE - 1) dolower pattern in
      (* If subpattern too long, return failure (no match). *)
      if (SUB_SIZE - 1 <=? length sub)%nat then 0
      else
        (* If the subpattern was terminated by a comma, then skip it. *)
        let pattern := match pattern with
                       | c :: rest => if c =? COMMA then rest else pattern
                       | [] => [] end in
        if match_pattern string sub then
          if negated then -1 else match_list_loop fuel string pattern dolower 1
        else match_list_loop fuel string pattern dolower got_positive
  | _, _ => got_positive
  end.

Definition match_pattern_list (string pattern : list Z) (dolower : bool) : Z :=
  match_list_loop (length pattern) string pattern dolower 0.

Definition match_usergroup_pattern_list (string pattern : list Z) : Z :=
  match_pattern_list string pattern false.

(** misc.c *)
Definition lowercase (s : list Z) : list Z := map tolower s.

Definition match_hostname (host pattern : list Z) : Z :=
  match_pattern_list (lowercase host) pattern true.

(** ** Proposal lists *)

(** [strsep(&sp, c)] on a string: the token, and the rest if a separator
    followed it. *)
Fixpoint strsep (c : Z) (s : list Z) : list Z * option (list Z) :=
  match s with
  | [] => ([], None)
  | x :: s' =>
      if x =? c then ([], Some s')
      else let '(tok, rest) := strsep c s' in (x :: tok, rest)
  end.

Definition MAX_PROP : nat := 40.

(** The tokens up to the first empty one, at most [room] of them. *)
Fixpoint proposals (fuel room : nat) (sp : option (list Z)) : list (list Z) :=
  match fuel, sp with
  | S fuel, Some s =>
      let '(p, sp) := strsep COMMA s in
      match p, room with
      | [], _ => []
      | _, O => []
      | _, S room => p :: proposals fuel room sp
      end
  | _, _ => []
  end.

(** [clen] is the length of the client's list, [cp] what is left of it. *)
Fixpoint client_loop (fuel : nat) (sproposals : list (list Z)) (clen : Z)
    (cp : option (list Z)) : option (list Z) * Z :=
  match fuel, cp with
  | S fuel, Some s =>
      let '(p, cp) := strsep COMMA s in
      match p with
      | [] => (None, clen)
      | _ =>
          if bool_decide (p ∈ sproposals) then
            (Some p, match cp with
                     | None => clen
                     | Some rest => u32 (clen - Z.of_nat (length rest))
                     end)
          else client_loop fuel sproposals clen cp
      end
  | _, _ => (None, clen)
  end.

(** The result, and [*next]. *)
Definition match_list (client server : list Z) : option (list Z) * Z :=
  client_loop (S (length client))
    (proposals (S (length server)) MAX_PROP (Some server))
    (Z.of_nat (length client)) (Some client).

(** ** Filters *)

(** strlcat into a buffer of [size] characters, the terminator included. *)
Definition strlcat (dst src : list Z) (size : nat) : list Z :=
  dst ++ take (size - 1 - length dst) src.

Fixpoint filter_loop (fuel : nat) (filter : list Z) (denylist : bool) (len : nat)
    (tmp : option (list Z)) (fix_prop : list Z) : list Z :=
  match fuel, tmp with
  | S fuel, Some s =>
      let '(cp, tmp) := strsep COMMA s in
      let r := match_pattern_list cp filter false in
      let fix_prop :=
        if (denylist && negb (r =? 1)) || (negb denylist && (r =? 1)) then
          let fix_prop := match fix_prop with [] => [] | _ => strlcat fix_prop [COMMA] len end in
          strlcat fix_prop cp len
        else fix_prop in
      filter_loop fuel filter denylist len tmp fix_prop
  | _, _ => fix_prop
  end.

Definition filter_list (w : world) (proposal filter : list Z) (denylist : bool)
  : option (list Z) * world :=
  let len := S (length proposal) in
  let '(ok1, w) := malloc w in
  let '(ok2, w) := malloc w in
  if negb ok1 || negb ok2 then (None, w)
  else (Some (filter_loop len filter denylist len (Some proposal) []), w).

Definition match_filter_denylist (w : world) (proposal filter : list Z) :=
  filter_list w proposal filter true.

Definition match_filter_allowlist (w : world) (proposal filter : list Z) :=
  filter_list w proposal filter false.

(** ** What a pattern means *)

Inductive globs : list Z -> list Z -> Prop :=
  | g_end : globs [] []
  | g_star_done p s : globs p s -> globs (STAR :: p) s
  | g_star_more p x s : globs (STAR :: p) s -> globs (STAR :: p) (x :: s)
  | g_query p x s : globs p s -> globs (QUERY :: p) (x :: s)
  | g_char c p s : c <> STAR -> c <> QUERY -> globs p s -> globs (c :: p) (c :: s).

#[export] Hint Constructors globs : sshdb.

Lemma globs_nil s : globs [] s <-> s = [].
Proof. split; [by inversion 1|intros ->; constructor]. Qed.

(** A star stands for any string. *)
Lemma globs_star p s : globs (STAR :: p) s <-> exists t u, s = t ++ u /\ globs p u.
Proof.
  split.
  - remember (STAR :: p) as q eqn:E. induction 1 as [|p' s H IH|p' x s H IH|p' x s H IH|c p' s Hc1 Hc2 H IH];
      try (by unfold QUERY, STAR in *; simplify_eq); simplify_eq.
    + by exists [], s.
    + destruct (IH eq_refl) as (t & u & -> & Hu). by exists (x :: t), u.
  - intros (t & u & -> & Hu). induction t; cbn; auto with sshdb.
Qed.

Lemma globs_stars p s : globs (STAR :: STAR :: p) s <-> globs (STAR :: p) s.
Proof.
  rewrite !globs_star. split.
  - intros (t & u & -> & (t' & u' & -> & Hu)%globs_star). exists (t ++ t'), u'. by rewrite app_assoc.
  - intros (t & u & -> & Hu). exists t, u. split; [done|]. by apply g_star_done.
Qed.

Lemma skip_stars_globs p s : globs (STAR :: skip_stars p) s <-> globs (STAR :: p) s.
Proof.
  induction p as [|c p IH]; [done|]. cbn. destruct (c =? STAR) eqn:E; [|done].
  assert (c = STAR) as -> by lia. by rewrite globs_stars.
Qed.

Lemma skip_stars_length p : (length (skip_stars p) <= length p)%nat.
Proof. induction p as [|c p IH]; cbn; [done|]. destruct (c =? STAR); cbn; lia. Qed.

Lemma skip_stars_head c p q : skip_stars p = c :: q -> c <> STAR.
Proof.
  induction p as [|d p IH]; cbn; [done|]. destruct (d =? STAR) eqn:E; [done|].
  intros [= -> ->]. lia.
Qed.

Lemma globs_head c p x s :
  c <> STAR -> globs (c :: p) (x :: s) <-> (c = QUERY \/ c = x) /\ globs p s.
Proof.
  intros Hc. split.
  - inversion 1; subst; (done || auto).
  - intros [H Hg]. destruct (decide (c = QUERY)) as [->|]; [by constructor|].
    destruct H as [|<-]; [done|]. by constructor.
Qed.

Lemma globs_head_nil c p : c <> STAR -> ~ globs (c :: p) [].
Proof. intros Hc. inversion 1; subst; done. Qed.

Lemma after_char_spec f c s :
  after_char f c s = true <-> exists t u, s = t ++ c :: u /\ f u = true.
Proof.
  induction s as [|x s IH]; cbn.
  - split; [done|]. intros ([] & u & ? & _); done.
  - destruct ((x =? c) && f s) eqn:E.
    + split; [|done]. intros _. exists [], s. apply andb_true_iff in E as [E1 E2].
      split; [|done]. cbn. f_equal. lia.
    + rewrite IH. split.
      * intros (t & u & -> & Hf). by exists (x :: t), u.
      * intros ([|y t] & u & Hs & Hf); cbn in Hs; injection Hs as -> ->.
        -- rewrite Hf, Z.eqb_refl in E. done.
        -- by exists t, u.
Qed.

Lemma some_suffix_spec f s :
  some_suffix f s = true <-> exists t u, s = t ++ u /\ u <> [] /\ f u = true.
Proof.
  induction s as [|x s IH]; cbn [some_suffix].
  - split; [done|]. intros ([] & [] & ? & ? & _); done.
  - destruct (f (x :: s)) eqn:E.
    + split; [|done]. intros _. by exists [], (x :: s).
    + rewrite IH. split.
      * intros (t & u & -> & Hu & Hf). by exists (x :: t), u.
      * intros ([|y t] & u & Hs & Hu & Hf); cbn in Hs.
        -- subst u. congruence.
        -- injection Hs as -> ->. by exists t, u.
Qed.

Lemma match_pattern_fuel_spec fuel s p :
  (length p < fuel)%nat -> match_pattern_fuel fuel s p = true <-> globs p s.
Proof.
  revert s p. induction fuel as [|fuel IH]; intros s p Hf; [lia|].
  destruct p as [|c p]; cbn [match_pattern_fuel].
  { rewrite globs_nil. by destruct s. }
  cbn [length] in Hf. destruct (c =? STAR) eqn:Ec.
  - assert (c = STAR) as -> by lia. cbn [skip_stars]. rewrite Z.eqb_refl.
    rewrite <- skip_stars_globs, globs_star. pose proof (skip_stars_length p) as Hl.
    destruct (skip_stars p) as [|c' p'] eqn:Ep.
    { split; [|done]. intros _. exists s, []. split; [by rewrite app_nil_r|constructor]. }
    apply skip_stars_head in Ep. cbn [length] in Hl.
    destruct (negb (c' =? QUERY) && negb (c' =? STAR)) eqn:Eq.
    + rewrite after_char_spec. split.
      * intros (t & u & -> & Hu). apply IH in Hu; [|lia]. exists t, (c' :: u).
        split; [done|]. apply globs_head; [done|]. split; [by right|done].
      * intros (t & u & -> & Hu). destruct u as [|x u]; [by apply globs_head_nil in Hu|].
        apply globs_head in Hu as [[-> | ->] Hu]; [lia| |done].
        exists t, u. split; [done|]. apply IH; [lia|done].
    + rewrite some_suffix_spec. split.
      * intros (t & u & -> & _ & Hu). apply IH in Hu; [|cbn; lia]. by exists t, u.
      * intros (t & u & -> & Hu). exists t, u. split; [done|].
        split; [intros ->; by apply globs_head_nil in Hu|]. apply IH; [cbn; lia|done].
  - destruct s as [|x s]; [split; [done|]; intros H; apply globs_head_nil in H; [done|lia]|].
    rewrite globs_head by lia.
    destruct (negb (c =? QUERY) && negb (c =? x)) eqn:E; [split; [done|]; lia|].
    rewrite IH by lia. split; [|tauto]. intros. split; [lia|done].
Qed.

Lemma match_pattern_globs s p : match_pattern s p = true <-> globs p s.
Proof. apply match_pattern_fuel_spec. lia. Qed.

(** ** What a pattern list means *)

(** The segments of a string between separators. *)
Fixpoint split_on (c : Z) (s : list Z) : list (list Z) :=
  match s with
  | [] => [[]]
  | x :: s =>
      if x =? c then [] :: split_on c s
      else match split_on c s with
           | seg :: segs => (x :: seg) :: segs
           | [] => [[x]]
           end
  end.

Fixpoint join (c : Z) (l : list (list Z)) : list Z :=
  match l with
  | [] => []
  | [x] => x
  | x :: l => x ++ c :: join c l
  end.

Lemma split_on_strsep c s :
  split_on c s =
    let '(tok, rest) := strsep c s in
    tok :: match rest with None => [] | Some s' => split_on c s' end.
Proof.
  induction s as [|x s IH]; [done|]. cbn [split_on strsep]. destruct (x =? c); [done|].
  rewrite IH. by destruct (strsep c s) as [tok rest].
Qed.

Lemma strsep_app c s tok rest :
  strsep c s = (tok, rest) ->
  s = tok ++ match rest with None => [] | Some s' => c :: s' end.
Proof.
  revert tok rest. induction s as [|x s IH]; cbn; intros tok rest; [by intros [= <- <-]|].
  destruct (x =? c) eqn:E; [intros [= <- <-]; cbn; f_equal; lia|].
  destruct (strsep c s) as [t r]. intros [= <- <-]. cbn. f_equal. by apply IH.
Qed.

(** The list of subpatterns: a segment after the last comma counts only if it
    is not empty. *)
Fixpoint trim_last (l : list (list Z)) : list (list Z) :=
  match l with
  | [] => []
  | [[]] => []
  | x :: l => x :: trim_last l
  end.

Definition list_items (pattern : list Z) : list (list Z) := trim_last (split_on COMMA pattern).

(** A subpattern: whether it is negated, and its text in the case to compare. *)
Definition subpattern (dolower : bool) (seg : list Z) : bool * list Z :=
  let lower := map (fun c => if dolower && isupper c then tolower c else c) in
  match seg with
  | c :: rest => if c =? BANG then (true, lower rest) else (false, lower seg)
  | [] => (false, [])
  end.

(** The result of a list of subpatterns, in order. *)
Fixpoint eval_items (string : list Z) (items : list (bool * list Z)) (got : Z) : Z :=
  match items with
  | [] => got
  | (negated, sub) :: items =>
      if (SUB_SIZE - 1 <=? length sub)%nat then 0
      else if match_pattern string sub then
        if negated then -1 else eval_items string items 1
      else eval_items string items got
  end.

Lemma split_on_cons c s : exists seg segs, split_on c s = seg :: segs.
Proof. rewrite split_on_strsep. destruct (strsep c s). by eexists _, _. Qed.

Lemma list_items_step pattern :
  pattern <> [] ->
  list_items pattern =
    let '(tok, rest) := strsep COMMA pattern in
    tok :: match rest with None => [] | Some s' => list_items s' end.
Proof.
  intros Hne. unfold list_items. rewrite split_on_strsep.
  destruct (strsep COMMA pattern) as [tok [rest|]] eqn:E.
  - destruct (split_on_cons COMMA rest) as (seg & segs & ->). by destruct tok.
  - apply strsep_app in E. rewrite app_nil_r in E. subst tok. by destruct pattern.
Qed.

Lemma take_sub_spec room d pattern tok rest :
  strsep COMMA pattern = (tok, rest) ->
  let '(sub, after) := take_sub room d pattern in
  ((length tok < room)%nat ->
     sub = map (fun c => if d && isupper c then tolower c else c) tok /\
     after = match rest with None => [] | Some s' => COMMA :: s' end) /\
  ((room <= length tok)%nat -> length sub = room).
Proof.
  revert room tok rest. induction pattern as [|c p IH]; intros room tok rest; cbn [strsep].
  - intros [= <- <-]. destruct room; cbn; split; intros; (done || lia).
  - destruct (c =? COMMA) eqn:Ec.
    + intros [= <- <-]. destruct room; cbn; [split; intros; (done || lia)|]. rewrite Ec.
      cbn. split; intros; [|lia]. split; [done|]. f_equal. lia.
    + destruct (strsep COMMA p) as [t r] eqn:E. intros [= <- <-].
      destruct room as [|room]; [cbn; split; intros; (done || lia)|]. cbn [take_sub]. rewrite Ec.
      specialize (IH room t r eq_refl). destruct (take_sub room d p) as [sub after].
      destruct IH as [IH1 IH2]. cbn [length]. split; intros Hl.
      * destruct IH1 as [-> ->]; [lia|]. done.
      * cbn. rewrite IH2; [done|lia].
Qed.

Lemma match_list_loop_eval fuel string pattern d got :
  (length pattern <= fuel)%nat ->
  match_list_loop fuel string pattern d got =
    eval_items string (map (subpattern d) (list_items pattern)) got.
Proof.
  revert pattern got. induction fuel as [|fuel IH]; intros pattern got Hf.
  { destruct pattern; [done|cbn in Hf; lia]. }
  destruct pattern as [|c pat]; [done|]. cbn [match_list_loop].
  rewrite list_items_step by done. destruct (strsep COMMA (c :: pat)) as [tok rest] eqn:E.
  assert (Hrest : forall s', rest = Some s' -> (length s' <= fuel)%nat).
  { intros s' ->. apply strsep_app in E. apply (f_equal length) in E.
    rewrite length_app in E. cbn in *. lia. }
  (* the part of the pattern after the negation sign, and its first segment *)
  assert (Hneg : exists n p t, (if c =? BANG then (true, pat) else (false, c :: pat)) = (n, p) /\
    strsep COMMA p = (t, rest) /\
    subpattern d tok = (n, map (fun c => if d && isupper c then tolower c else c) t)).
  { destruct (c =? BANG) eqn:Eb.
    - assert (c = BANG) as -> by lia. cbn in E. destruct (strsep COMMA pat) as [t r] eqn:Ep.
      injection E as <- <-. eexists _, _, t. split; [done|]. split; [done|]. unfold subpattern. by rewrite Z.eqb_refl.
    - eexists _, _, tok. split; [done|]. split; [done|]. unfold subpattern.
      destruct tok as [|x tok]; [done|]. apply strsep_app in E. injection E as <- _. by rewrite Eb. }
  destruct Hneg as (n & p & t & -> & Et & Hsub). cbn [map eval_items]. rewrite Hsub.
  pose proof (take_sub_spec (SUB_SIZE - 1) d p t rest Et) as Ht.
  destruct (take_sub (SUB_SIZE - 1) d p) as [sub after]. destruct Ht as [Ht1 Ht2]. rewrite length_map.
  destruct (SUB_SIZE - 1 <=? length t)%nat eqn:El.
  - apply Nat.leb_le in El. rewrite (Ht2 El), Nat.leb_refl. done.
  - apply Nat.leb_gt in El. destruct (Ht1 El) as [-> ->]. rewrite length_map.
    replace (SUB_SIZE - 1 <=? length t)%nat with false by (symmetry; by apply Nat.leb_gt).
    assert (Hgo : forall g, match_list_loop fuel string
      (match match rest with Some s' => COMMA :: s' | None => [] end with
       | [] => [] | c :: r => if c =? COMMA then r else match rest with Some s' => COMMA :: s' | None => [] end end) d g =
      eval_items string (map (subpattern d) (match rest with Some s' => list_items s' | None => [] end)) g).
    { intros g. destruct rest as [s'|]; cbn [map].
      - rewrite Z.eqb_refl. apply IH. by apply Hrest.
      - by destruct fuel. }
    destruct (match_pattern string _); [destruct n; [done|]|]; apply Hgo.
Qed.

(** ** Proposal lists and filters *)

(** The items of a list up to the first empty one. *)
Fixpoint until_empty (l : list (list Z)) : list (list Z) :=
  match l with
  | [] => []
  | [] :: _ => []
  | x :: l => x :: until_empty l
  end.

Lemma strsep_shorter c s tok s' :
  strsep c s = (tok, Some s') -> (length s' < length s)%nat.
Proof.
  intros E. apply strsep_app in E. apply (f_equal length) in E. rewrite length_app in E.
  cbn in E. lia.
Qed.

Lemma proposals_spec fuel room s :
  (length s < fuel)%nat ->
  proposals fuel room (Some s) = take room (until_empty (split_on COMMA s)).
Proof.
  revert room s. induction fuel as [|fuel IH]; intros room s Hf; [lia|]. cbn [proposals].
  rewrite split_on_strsep. destruct (strsep COMMA s) as [[|x tok] rest] eqn:E.
  - cbn. by rewrite take_nil.
  - destruct room as [|room]; [done|]. cbn [until_empty take]. f_equal.
    destruct rest as [s'|]; [|by destruct fuel, room].
    apply IH. apply strsep_shorter in E. lia.
Qed.

Lemma client_loop_spec fuel sprops clen s :
  (length s < fuel)%nat ->
  fst (client_loop fuel sprops clen (Some s)) =
    head (filter (fun p => p ∈ sprops) (until_empty (split_on COMMA s))).
Proof.
  revert s. induction fuel as [|fuel IH]; intros s Hf; [lia|]. cbn [client_loop].
  rewrite split_on_strsep. destruct (strsep COMMA s) as [[|x tok] rest] eqn:E; [done|].
  cbn [until_empty]. rewrite filter_cons. case_bool_decide as Hin.
  - by rewrite decide_True.
  - rewrite decide_False by done. destruct rest as [s'|]; [|by destruct fuel].
    apply IH. apply strsep_shorter in E. lia.
Qed.

Definition keeps (filter : list Z) (denylist : bool) (item : list Z) : bool :=
  let r := match_pattern_list item filter false in
  (denylist && negb (r =? 1)) || (negb denylist && (r =? 1)).

Lemma join_snoc c l x : l <> [] -> join c (l ++ [x]) = join c l ++ c :: x.
Proof.
  intros Hl. induction l as [|y l IH]; [done|]. destruct l as [|z l]; [done|].
  cbn [app join] in *. rewrite IH by done. by rewrite <- app_assoc.
Qed.

Lemma join_nonempty c l : Forall (fun x => x <> []) l -> join c l = [] -> l = [].
Proof. intros Hl. destruct Hl as [|x [|y l] Hx _]; cbn; [done|done|]. by destruct x. Qed.

(** The buffer is large enough: nothing is ever cut off. *)
Lemma filter_loop_spec fuel flt deny len s kept :
  (length s < fuel)%nat -> Forall (fun x => x <> []) kept ->
  Forall (fun x => x <> []) (split_on COMMA s) ->
  (length s < len)%nat -> (kept <> [] -> (length (join COMMA kept) + 1 + length s < len)%nat) ->
  filter_loop fuel flt deny len (Some s) (join COMMA kept) =
    join COMMA (kept ++ filter (fun x => keeps flt deny x = true) (split_on COMMA s)).
Proof.
  revert s kept. induction fuel as [|fuel IH]; intros s kept Hf Hk Hs Hl1 Hl2; [lia|].
  cbn [filter_loop]. rewrite split_on_strsep in Hs |- *.
  destruct (strsep COMMA s) as [tok rest] eqn:E. rewrite filter_cons.
  apply Forall_cons in Hs as [Ht Hs]. fold (keeps flt deny tok).
  pose proof (strsep_app _ _ _ _ E) as Es. apply (f_equal length) in Es. rewrite length_app in Es.
  set (more := match rest with None => [] | Some s' => split_on COMMA s' end) in *.
  assert (Hgo : forall kept', Forall (fun x => x <> []) kept' ->
    (forall s', rest = Some s' -> kept' <> [] ->
       (length (join COMMA kept') + 1 + length s' < len)%nat) ->
    filter_loop fuel flt deny len rest (join COMMA kept') =
      join COMMA (kept' ++ filter (fun x => keeps flt deny x = true) more)).
  { intros kept' Hk' Hl'. unfold more. destruct rest as [s'|].
    - cbn [length] in Es. apply IH; auto; lia.
    - rewrite app_nil_r. by destruct fuel. }
  destruct (keeps flt deny tok) eqn:Ek; [rewrite decide_True by done|rewrite decide_False by congruence].
  - assert (Hstep : strlcat (match join COMMA kept with [] => [] | _ => strlcat (join COMMA kept) [COMMA] len end)
      tok len = join COMMA (kept ++ [tok])).
    { destruct (decide (kept = [])) as [->|Hne].
      - cbn. unfold strlcat. cbn. rewrite Nat.sub_0_r. apply take_ge. lia.
      - specialize (Hl2 Hne). rewrite join_snoc by done.
        destruct (join COMMA kept) eqn:Ej; [by apply join_nonempty in Ej|]. rewrite <- Ej in *.
        unfold strlcat. rewrite (take_ge [COMMA]) by (cbn; lia). rewrite take_ge.
        + by rewrite <- app_assoc.
        + rewrite length_app. cbn. lia. }
    rewrite Hstep, (Hgo (kept ++ [tok])), <- app_assoc; [done| |].
    + apply Forall_app. split; [done|]. by repeat constructor.
    + intros s' -> _. cbn [length] in Es. destruct (decide (kept = [])) as [->|Hne].
      * cbn. lia.
      * rewrite join_snoc by done. rewrite length_app. cbn. specialize (Hl2 Hne). lia.
  - apply Hgo; [done|]. intros s' -> Hne. cbn [length] in Es. specialize (Hl2 Hne). lia.
Qed.

(** ** What the functions promise *)

(** C32: [match_pattern] decides the language of wildcard patterns: a star for
    any string, a question mark for any character, any other character for
    itself.  It returns on every input, and the skipping of stars and the
    search for the next literal character do not change the answer. *)
Theorem match_pattern_correct (s pattern : list Z) :
  match_pattern s pattern = true <-> globs pattern s.
Proof. apply match_pattern_globs. Qed.

(** C33: A pattern list.  The list is split at commas (nothing after a final
    comma), a leading exclamation mark negates an item, and with [dolower] the
    items are compared in lower case.  If the items fit the buffer of 1024
    characters, the answer is -1 if a negated item matches, wherever it stands
    in the list; otherwise 1 if another item matches; otherwise 0. *)
Theorem match_pattern_list_correct (string pattern : list Z) (dolower : bool) :
  let items := map (subpattern dolower) (list_items pattern) in
  Forall (fun it => (length it.2 < SUB_SIZE - 1)%nat) items ->
  let r := match_pattern_list string pattern dolower in
  (r = -1 <-> exists sub, (true, sub) ∈ items /\ globs sub string) /\
  (r = 1 <-> (exists sub, (false, sub) ∈ items /\ globs sub string) /\
             (forall sub, (true, sub) ∈ items -> ~ globs sub string)) /\
  (r = -1 \/ r = 0 \/ r = 1).
Proof.
  intros items Hlen. cbn zeta. unfold match_pattern_list.
  rewrite match_list_loop_eval by done. fold items. clearbody items. clear pattern dolower.
  assert (H : forall got, got = 0 \/ got = 1 ->
    let r := eval_items string items got in
    (r = -1 <-> exists sub, (true, sub) ∈ items /\ globs sub string) /\
    (r = 1 <-> (got = 1 \/ exists sub, (false, sub) ∈ items /\ globs sub string) /\
               (forall sub, (true, sub) ∈ items -> ~ globs sub string)) /\
    (r = -1 \/ r = 0 \/ r = 1)).
  { induction Hlen as [|[n sub] items Hl _ IH]; intros got Hgot; cbn [eval_items].
    - split_and!; [|set_solver|lia]. split; [lia|set_solver].
    - replace (SUB_SIZE - 1 <=? length sub)%nat with false by (symmetry; by apply Nat.leb_gt).
      pose proof (match_pattern_globs string sub) as Hm.
      destruct (match_pattern string sub) eqn:Em; [destruct n|].
      + split_and!; [set_solver| |lia]. split; [lia|set_solver].
      + specialize (IH 1 ltac:(lia)) as (H1 & H2 & H3). cbn zeta in *. split_and!; [set_solver| |done].
        rewrite H2. set_solver.
      + specialize (IH got Hgot) as (H1 & H2 & H3). cbn zeta in *.
        assert (~ globs sub string) by (intros Hg; by apply Hm in Hg).
        split_and!; [rewrite H1; set_solver|rewrite H2; set_solver|done]. }
  destruct (H 0 ltac:(lia)) as (H1 & H2 & H3). split_and!; [done| |done].
  rewrite H2. set_solver by lia.
Qed.

Lemma match_pattern_list_correct_witness :
  exists r, r = match_pattern_list [97; 98] [33; 120; 44; 65; 42] true /\
    (r = 1 <-> (exists sub, (false, sub) ∈ [(true, [120]); (false, [97; 42])] /\ globs sub [97; 98]) /\
       (forall sub, (true, sub) ∈ [(true, [120]); (false, [97; 42])] -> ~ globs sub [97; 98])) /\
    r = 1.
Proof.
  eexists. split; [reflexivity|]. split; [|reflexivity].
  refine (proj1 (proj2 (match_pattern_list_correct [97; 98] [33; 120; 44; 65; 42] true _))).
  repeat constructor; cbn; lia.
Defined.

Lemma match_list_usable client server :
  fst (match_list client server) =
    head (filter (fun p => p ∈ take MAX_PROP (until_empty (split_on COMMA server)))
            (until_empty (split_on COMMA client))).
Proof. unfold match_list. rewrite client_loop_spec, proposals_spec by lia. done. Qed.

Lemma until_empty_all l : Forall (fun x => x <> []) l -> until_empty l = l.
Proof. induction 1 as [|x l Hx _ IH]; cbn; [done|]. rewrite IH. by destruct x. Qed.

(** C34: Negotiation picks the client's first choice.  For two comma-separated
    lists without empty items, the server's of at most [MAX_PROP] items, the
    result is the first item of the client's list that occurs in the server's
    list, and there is none exactly if the lists have no item in common. *)
Theorem match_list_correct (client server : list Z) :
  Forall (fun x => x <> []) (split_on COMMA client) ->
  Forall (fun x => x <> []) (split_on COMMA server) ->
  (length (split_on COMMA server) <= MAX_PROP)%nat ->
  match fst (match_list client server) with
  | Some p => exists before after, split_on COMMA client = before ++ p :: after /\
      p ∈ split_on COMMA server /\ Forall (fun q => q ∉ split_on COMMA server) before
  | None => Forall (fun q => q ∉ split_on COMMA server) (split_on COMMA client)
  end.
Proof.
  intros Hc Hs Hn. rewrite match_list_usable, !until_empty_all, take_ge by done.
  generalize (split_on COMMA client) as l. clear. induction l as [|x l IH]; [constructor|].
  rewrite filter_cons. case_decide as Hx; cbn [head].
  - by exists [], l.
  - destruct (head _) as [p|].
    + destruct IH as (b & a & -> & Hp & Hb). exists (x :: b), a. split; [done|]. split; [done|].
      by constructor.
    + by constructor.
Qed.

Lemma match_list_correct_witness :
  fst (match_list [97; 44; 98] [99; 44; 98]) = Some [98] /\
  exists before after, split_on COMMA [97; 44; 98] = before ++ [98] :: after /\
    [98] ∈ split_on COMMA [99; 44; 98] /\
    Forall (fun q => q ∉ split_on COMMA [99; 44; 98]) before.
Proof.
  split; [reflexivity|].
  exact (match_list_correct [97; 44; 98] [99; 44; 98]
    ltac:(by repeat constructor) ltac:(by repeat constructor) ltac:(unfold MAX_PROP; cbn; lia)).
Defined.

(** Beyond [MAX_PROP] items of the server's list the items are ignored: a
    client whose only choice the server supports, as item 41, is told that
    there is no match. *)
Theorem match_list_forgets :
  exists client server, client ∈ split_on COMMA server /\ split_on COMMA client = [client] /\
    Forall (fun x => x <> []) (split_on COMMA server) /\
    fst (match_list client server) = None.
Proof.
  exists [98], (concat (replicate 40 [97; 44]) ++ [98]). split_and!.
  - apply (bool_decide_unpack _). vm_compute. exact I.
  - reflexivity.
  - apply (bool_decide_unpack _). vm_compute. exact I.
  - vm_compute. reflexivity.
Qed.


