(* ===== verification/Poly1305.v ===== *)
(** The Poly1305 one-time authenticator of poly1305.c.

    The code computes with five limbs of 26 bits held in 32-bit variables and
    64-bit intermediate products.  The file models it at those widths and shows
    that no intermediate overflows and that the tag is the one RFC 8439
    defines: the message is evaluated as a polynomial at the clamped key modulo
    2^130 - 5, and the second half of the key is added modulo 2^128. *)

From stdpp Require Import base list numbers tactics.
From Stdlib Require Import ZArith Lia ZifyBool.
From S2P Require Import Prelude.

Definition POLY1305_TAGLEN : nat := 16.
Definition POLY1305_KEYLEN : nat := 32.

Definition U8TO32_LE (p : list Z) : Z :=
  Z.lor (Z.lor (Z.lor (byte_at p 0) (u32 (Z.shiftl (byte_at p 1) 8)))
    (u32 (Z.shiftl (byte_at p 2) 16))) (u32 (Z.shiftl (byte_at p 3) 24)).

Definition U32TO8_LE (v : Z) : list Z :=
  [u8 v; u8 (Z.shiftr v 8); u8 (Z.shiftr v 16); u8 (Z.shiftr v 24)].

Definition mul32x32_64 (a b : Z) : Z := u64 (a * b).
Definition add64 (a b : Z) : Z := u64 (a + b).
Definition add32 (a b : Z) : Z := u32 (a + b).
Definition MASK26 : Z := 0x3ffffff.

(** Five variables [x0 .. x4]. *)
Record limbs := mk_limbs { l0 : Z; l1 : Z; l2 : Z; l3 : Z; l4 : Z }.

(** "clamp key" and "precompute multipliers" *)
Definition clamp (key : list Z) : limbs :=
  let t0 := U8TO32_LE key in
  let t1 := U8TO32_LE (drop 4 key) in
  let t2 := U8TO32_LE (drop 8 key) in
  let t3 := U8TO32_LE (drop 12 key) in
  let r0 := Z.land t0 0x3ffffff in
  let t0 := Z.lor (Z.shiftr t0 26) (u32 (Z.shiftl t1 6)) in
  let r1 := Z.land t0 0x3ffff03 in
  let t1 := Z.lor (Z.shiftr t1 20) (u32 (Z.shiftl t2 12)) in
  let r2 := Z.land t1 0x3ffc0ff in
  let t2 := Z.lor (Z.shiftr t2 14) (u32 (Z.shiftl t3 18)) in
  let r3 := Z.land t2 0x3f03fff in
  let t3 := Z.shiftr t3 8 in
  let r4 := Z.land t3 0x00fffff in
  mk_limbs r0 r1 r2 r3 r4.

(** Adding a block of 16 octets to [h]; [hibit] is [1 << 24] for a full block
    and 0 for the padded last one. *)
Definition add_block (h : limbs) (m : list Z) (hibit : Z) : limbs :=
  let t0 := U8TO32_LE m in
  let t1 := U8TO32_LE (drop 4 m) in
  let t2 := U8TO32_LE (drop 8 m) in
  let t3 := U8TO32_LE (drop 12 m) in
  let part hi lo n := Z.land (Z.shiftr (Z.lor (u64 (Z.shiftl hi 32)) lo) n) MASK26 in
  mk_limbs (add32 (l0 h) (Z.land t0 MASK26))
    (add32 (l1 h) (part t1 t0 26))
    (add32 (l2 h) (part t2 t1 20))
    (add32 (l3 h) (part t3 t2 14))
    (add32 (l4 h) (Z.lor (Z.shiftr t3 8) hibit)).

(** poly1305_donna_mul *)
Definition donna_mul (h r : limbs) : limbs :=
  let s1 := u32 (l1 r * 5) in
  let s2 := u32 (l2 r * 5) in
  let s3 := u32 (l3 r * 5) in
  let s4 := u32 (l4 r * 5) in
  let m := mul32x32_64 in
  let sum a b c d e := add64 (add64 (add64 (add64 a b) c) d) e in
  let t0 := sum (m (l0 h) (l0 r)) (m (l1 h) s4) (m (l2 h) s3) (m (l3 h) s2) (m (l4 h) s1) in
  let t1 := sum (m (l0 h) (l1 r)) (m (l1 h) (l0 r)) (m (l2 h) s4) (m (l3 h) s3) (m (l4 h) s2) in
  let t2 := sum (m (l0 h) (l2 r)) (m (l1 h) (l1 r)) (m (l2 h) (l0 r)) (m (l3 h) s4) (m (l4 h) s3) in
  let t3 := sum (m (l0 h) (l3 r)) (m (l1 h) (l2 r)) (m (l2 h) (l1 r)) (m (l3 h) (l0 r)) (m (l4 h) s4) in
  let t4 := sum (m (l0 h) (l4 r)) (m (l1 h) (l3 r)) (m (l2 h) (l2 r)) (m (l3 h) (l1 r)) (m (l4 h) (l0 r)) in
  let h0 := Z.land (u32 t0) MASK26 in let c := Z.shiftr t0 26 in
  let t1 := add64 t1 c in
  let h1 := Z.land (u32 t1) MASK26 in let b := u32 (Z.shiftr t1 26) in
  let t2 := add64 t2 b in
  let h2 := Z.land (u32 t2) MASK26 in let b := u32 (Z.shiftr t2 26) in
  let t3 := add64 t3 b in
  let h3 := Z.land (u32 t3) MASK26 in let b := u32 (Z.shiftr t3 26) in
  let t4 := add64 t4 b in
  let h4 := Z.land (u32 t4) MASK26 in let b := u32 (Z.shiftr t4 26) in
  let h0 := add32 h0 (u32 (b * 5)) in
  mk_limbs h0 h1 h2 h3 h4.

(** poly1305_donna_16bytes, as long as 16 octets are left. *)
Fixpoint full_blocks (fuel : nat) (h r : limbs) (m : list Z) : limbs * list Z :=
  match fuel with
  | O => (h, m)
  | S fuel =>
      if (length m <? 16)%nat then (h, m)
      else full_blocks fuel (donna_mul (add_block h m (Z.shiftl 1 24)) r) r (drop 16 m)
  end.

(** poly1305_donna_atmost15bytes *)
Definition last_block (h r : limbs) (m : list Z) : limbs :=
  match m with
  | [] => h
  | _ =>
      let mp := m ++ [1] ++ replicate (15 - length m) 0 in
      donna_mul (add_block h mp 0) r
  end.

(** poly1305_donna_finish: the carries, the choice between [h] and
    [g = h + 5 - 2^130], and the addition of the second half of the key. *)
Definition fin_carry (h : limbs) : limbs :=
  let b := Z.shiftr (l0 h) 26 in let h0 := Z.land (l0 h) MASK26 in
  let h1 := add32 (l1 h) b in let b := Z.shiftr h1 26 in let h1 := Z.land h1 MASK26 in
  let h2 := add32 (l2 h) b in let b := Z.shiftr h2 26 in let h2 := Z.land h2 MASK26 in
  let h3 := add32 (l3 h) b in let b := Z.shiftr h3 26 in let h3 := Z.land h3 MASK26 in
  let h4 := add32 (l4 h) b in let b := Z.shiftr h4 26 in let h4 := Z.land h4 MASK26 in
  let h0 := add32 h0 (u32 (b * 5)) in let b := Z.shiftr h0 26 in let h0 := Z.land h0 MASK26 in
  mk_limbs h0 (add32 h1 b) h2 h3 h4.

Definition fin_reduce (h : limbs) : limbs :=
  let g0 := add32 (l0 h) 5 in let b := Z.shiftr g0 26 in let g0 := Z.land g0 MASK26 in
  let g1 := add32 (l1 h) b in let b := Z.shiftr g1 26 in let g1 := Z.land g1 MASK26 in
  let g2 := add32 (l2 h) b in let b := Z.shiftr g2 26 in let g2 := Z.land g2 MASK26 in
  let g3 := add32 (l3 h) b in let b := Z.shiftr g3 26 in let g3 := Z.land g3 MASK26 in
  let g4 := u32 (l4 h + b - Z.shiftl 1 26) in
  let b := u32 (Z.shiftr g4 31 - 1) in
  let nb := u32 (Z.lnot b) in
  mk_limbs (Z.lor (Z.land (l0 h) nb) (Z.land g0 b)) (Z.lor (Z.land (l1 h) nb) (Z.land g1 b))
    (Z.lor (Z.land (l2 h) nb) (Z.land g2 b)) (Z.lor (Z.land (l3 h) nb) (Z.land g3 b))
    (Z.lor (Z.land (l4 h) nb) (Z.land g4 b)).

Definition fin_out (h : limbs) (key : list Z) : list Z :=
  let f0 := add64 (Z.lor (l0 h) (u32 (Z.shiftl (l1 h) 26))) (U8TO32_LE (drop 16 key)) in
  let f1 := add64 (Z.lor (Z.shiftr (l1 h) 6) (u32 (Z.shiftl (l2 h) 20))) (U8TO32_LE (drop 20 key)) in
  let f2 := add64 (Z.lor (Z.shiftr (l2 h) 12) (u32 (Z.shiftl (l3 h) 14))) (U8TO32_LE (drop 24 key)) in
  let f3 := add64 (Z.lor (Z.shiftr (l3 h) 18) (u32 (Z.shiftl (l4 h) 8))) (U8TO32_LE (drop 28 key)) in
  let f1' := add64 f1 (Z.shiftr f0 32) in
  let f2' := add64 f2 (Z.shiftr f1' 32) in
  let f3' := add64 f3 (Z.shiftr f2' 32) in
  U32TO8_LE f0 ++ U32TO8_LE f1' ++ U32TO8_LE f2' ++ U32TO8_LE f3'.

Definition finish (h : limbs) (key : list Z) : list Z :=
  fin_out (fin_reduce (fin_carry h)) key.

Definition poly1305_auth (m key : list Z) : list Z :=
  let r := clamp key in
  let h := mk_limbs 0 0 0 0 0 in
  let '(h, m) := full_blocks (S (length m)) h r m in
  finish (last_block h r m) key.

(** ** The specification of RFC 8439 *)

Definition P1305 : Z := 2 ^ 130 - 5.

Fixpoint le_value (s : list Z) : Z :=
  match s with
  | [] => 0
  | c :: s => c + 256 * le_value s
  end.

Fixpoint le_bytes (n : nat) (v : Z) : list Z :=
  match n with
  | O => []
  | S n => v mod 256 :: le_bytes n (v / 256)
  end.

(** The blocks of 16 octets, the last one possibly shorter. *)
Fixpoint chunks (fuel : nat) (m : list Z) : list (list Z) :=
  match fuel, m with
  | S fuel, _ :: _ => take 16 m :: chunks fuel (drop 16 m)
  | _, _ => []
  end.

Definition poly_step (r acc : Z) (block : list Z) : Z :=
  ((acc + le_value (block ++ [1])) * r) mod P1305.

Definition poly1305_spec (m key : list Z) : list Z :=
  let r := Z.land (le_value (take 16 key)) 0x0ffffffc0ffffffc0ffffffc0fffffff in
  let s := le_value (take 16 (drop 16 key)) in
  let acc := fold_left (poly_step r) (chunks (length m) m) 0 in
  le_bytes 16 ((acc + s) mod 2 ^ 128).

(** Test vector of RFC 8439, section 2.5.2. *)
Example poly1305_rfc8439 :
  poly1305_auth
    [0x43; 0x72; 0x79; 0x70; 0x74; 0x6f; 0x67; 0x72; 0x61; 0x70; 0x68; 0x69; 0x63; 0x20; 0x46;
     0x6f; 0x72; 0x75; 0x6d; 0x20; 0x52; 0x65; 0x73; 0x65; 0x61; 0x72; 0x63; 0x68; 0x20; 0x47;
     0x72; 0x6f; 0x75; 0x70]
    [0x85; 0xd6; 0xbe; 0x78; 0x57; 0x55; 0x6d; 0x33; 0x7f; 0x44; 0x52; 0xfe; 0x42; 0xd5; 0x06;
     0xa8; 0x01; 0x03; 0x80; 0x8a; 0xfb; 0x0d; 0xb2; 0xfd; 0x4a; 0xbf; 0xf6; 0xaf; 0x41; 0x49;
     0xf5; 0x1b] =
    [0xa8; 0x06; 0x1d; 0xc1; 0x30; 0x51; 0x36; 0xc6; 0xc2; 0x2b; 0x8b; 0xaf; 0x0c; 0x01; 0x27;
     0xa9].
Proof. vm_compute. reflexivity. Qed.

Example poly1305_spec_rfc8439 :
  poly1305_spec [0x43; 0x72; 0x79]
    (replicate 32 0x85) = poly1305_auth [0x43; 0x72; 0x79] (replicate 32 0x85).
Proof. vm_compute. reflexivity. Qed.

(** ** Words and limbs *)

Lemma u32_small x : 0 <= x < 2 ^ 32 -> u32 x = x.
Proof. apply Z.mod_small. Qed.

Lemma u64_small x : 0 <= x < 2 ^ 64 -> u64 x = x.
Proof. apply Z.mod_small. Qed.

Lemma MASK26_mod x : Z.land x MASK26 = x mod 2 ^ 26.
Proof. change MASK26 with (Z.ones 26). by apply Z.land_ones. Qed.

Lemma shl_u32 b n : 0 <= n -> 0 <= b * 2 ^ n < 2 ^ 32 -> u32 (Z.shiftl b n) = b * 2 ^ n.
Proof. intros. rewrite Z.shiftl_mul_pow2 by done. by apply u32_small. Qed.

Lemma lor_comm_add a b n : 0 <= n -> 0 <= a < 2 ^ n -> Z.lor a (b * 2 ^ n) = a + b * 2 ^ n.
Proof. intros. rewrite Z.lor_comm, <- Z.shiftl_mul_pow2, lor_shiftl_add, Z.shiftl_mul_pow2; lia. Qed.

Lemma U8TO32_LE_value p :
  bytes_ok p ->
  U8TO32_LE p = byte_at p 0 + byte_at p 1 * 2 ^ 8 + byte_at p 2 * 2 ^ 16 + byte_at p 3 * 2 ^ 24.
Proof.
  intros H. unfold U8TO32_LE.
  pose proof (byte_at_range p 0 H). pose proof (byte_at_range p 1 H).
  pose proof (byte_at_range p 2 H). pose proof (byte_at_range p 3 H).
  rewrite !shl_u32 by lia. rewrite (lor_comm_add (byte_at p 0)) by lia.
  rewrite (lor_comm_add (_ + _) (byte_at p 2)) by lia. rewrite lor_comm_add by lia. done.
Qed.

Lemma U8TO32_LE_range p : bytes_ok p -> 0 <= U8TO32_LE p < 2 ^ 32.
Proof.
  intros H. rewrite U8TO32_LE_value by done.
  pose proof (byte_at_range p 0 H). pose proof (byte_at_range p 1 H).
  pose proof (byte_at_range p 2 H). pose proof (byte_at_range p 3 H). lia.
Qed.

(** The four words of 16 octets. *)
Lemma words_value m :
  bytes_ok m -> (16 <= length m)%nat ->
  le_value (take 16 m) =
    U8TO32_LE m + 2 ^ 32 * U8TO32_LE (drop 4 m) + 2 ^ 64 * U8TO32_LE (drop 8 m) +
    2 ^ 96 * U8TO32_LE (drop 12 m).
Proof.
  intros H Hl. rewrite !U8TO32_LE_value by auto with sshdb.
  do 16 (destruct m as [|? m]; [cbn in Hl; lia|]). cbn - [Z.add Z.mul Z.pow].
  rewrite take_0. cbn [le_value]. lia.
Qed.

Definition V (h : limbs) : Z :=
  l0 h + 2 ^ 26 * l1 h + 2 ^ 52 * l2 h + 2 ^ 78 * l3 h + 2 ^ 104 * l4 h.

(** The bound on the lowest limb between blocks; the others are below 2^26. *)
Definition HB : Z := 2830000000.

Definition small (h : limbs) : Prop :=
  0 <= l0 h <= HB /\ 0 <= l1 h < 2 ^ 26 /\ 0 <= l2 h < 2 ^ 26 /\ 0 <= l3 h < 2 ^ 26 /\
  0 <= l4 h < 2 ^ 26.

(** The bounds after a block has been added. *)
Definition loaded (h : limbs) : Prop :=
  0 <= l0 h <= HB + 2 ^ 26 /\ 0 <= l1 h < 2 ^ 27 /\ 0 <= l2 h < 2 ^ 27 /\ 0 <= l3 h < 2 ^ 27 /\
  0 <= l4 h < 2 ^ 26 + 2 ^ 25.

Lemma part_mod hi lo n :
  0 <= n <= 26 -> 0 <= hi < 2 ^ 32 -> 0 <= lo < 2 ^ 32 ->
  Z.land (Z.shiftr (Z.lor (u64 (Z.shiftl hi 32)) lo) n) MASK26 =
    ((hi * 2 ^ 32 + lo) / 2 ^ n) mod 2 ^ 26.
Proof.
  intros Hn Hh Hl. rewrite MASK26_mod, shiftr_div by lia. do 2 f_equal.
  rewrite u64_small by (rewrite Z.shiftl_mul_pow2; lia). rewrite lor_shiftl_add by lia. done.
Qed.

(** Cutting 128 bits held in four words into five limbs. *)
Lemma limbs_of_words t0 t1 t2 t3 :
  0 <= t0 < 2 ^ 32 -> 0 <= t1 < 2 ^ 32 -> 0 <= t2 < 2 ^ 32 -> 0 <= t3 < 2 ^ 32 ->
  t0 + 2 ^ 32 * t1 + 2 ^ 64 * t2 + 2 ^ 96 * t3 =
    t0 mod 2 ^ 26 + 2 ^ 26 * (((t1 * 2 ^ 32 + t0) / 2 ^ 26) mod 2 ^ 26) +
    2 ^ 52 * (((t2 * 2 ^ 32 + t1) / 2 ^ 20) mod 2 ^ 26) +
    2 ^ 78 * (((t3 * 2 ^ 32 + t2) / 2 ^ 14) mod 2 ^ 26) + 2 ^ 104 * (t3 / 2 ^ 8).
Proof. intros. dm_lia. Qed.

Lemma add_block_spec h m hibit :
  small h -> bytes_ok m -> (16 <= length m)%nat -> hibit = 0 \/ hibit = Z.shiftl 1 24 ->
  loaded (add_block h m hibit) /\
  V (add_block h m hibit) = V h + le_value (take 16 m) + hibit * 2 ^ 104.
Proof.
  intros (H0 & H1 & H2 & H3 & H4) Hm Hl Hb. rewrite words_value by done. unfold add_block.
  pose proof (U8TO32_LE_range m Hm) as R0.
  pose proof (U8TO32_LE_range (drop 4 m) ltac:(auto with sshdb)) as R1.
  pose proof (U8TO32_LE_range (drop 8 m) ltac:(auto with sshdb)) as R2.
  pose proof (U8TO32_LE_range (drop 12 m) ltac:(auto with sshdb)) as R3.
  generalize dependent (U8TO32_LE m). intros t0 R0.
  generalize dependent (U8TO32_LE (drop 4 m)). intros t1 R1.
  generalize dependent (U8TO32_LE (drop 8 m)). intros t2 R2.
  generalize dependent (U8TO32_LE (drop 12 m)). intros t3 R3.
  rewrite !part_mod by lia. rewrite MASK26_mod.
  assert (Hhi : Z.lor (Z.shiftr t3 8) hibit = t3 / 2 ^ 8 + hibit).
  { rewrite shiftr_div by done. destruct Hb as [-> | ->]; [by rewrite Z.lor_0_r, Z.add_0_r|].
    change (Z.shiftl 1 24) with (1 * 2 ^ 24). rewrite lor_comm_add by dm_lia. done. }
  rewrite Hhi. assert (Hb' : 0 <= hibit <= 2 ^ 24) by (destruct Hb as [-> | ->]; change (Z.shiftl 1 24) with (2 ^ 24); lia).
  pose proof (limbs_of_words t0 t1 t2 t3 R0 R1 R2 R3) as E.
  pose proof (Z.mod_pos_bound t0 (2 ^ 26) ltac:(lia)) as B0.
  pose proof (Z.mod_pos_bound ((t1 * 2 ^ 32 + t0) / 2 ^ 26) (2 ^ 26) ltac:(lia)) as B1.
  pose proof (Z.mod_pos_bound ((t2 * 2 ^ 32 + t1) / 2 ^ 20) (2 ^ 26) ltac:(lia)) as B2.
  pose proof (Z.mod_pos_bound ((t3 * 2 ^ 32 + t2) / 2 ^ 14) (2 ^ 26) ltac:(lia)) as B3.
  assert (B4 : 0 <= t3 / 2 ^ 8 < 2 ^ 24) by dm_lia.
  unfold add32, loaded, V, HB in *. cbn [l0 l1 l2 l3 l4].
  rewrite !u32_small by lia. split; [split_and!; lia|]. lia.
Qed.

(** ** The key *)

Definition RMASK : Z := 0x0ffffffc0ffffffc0ffffffc0fffffff.

Definition key_limbs (r : limbs) : Prop :=
  0 <= l0 r <= 0x3ffffff /\ 0 <= l1 r <= 0x3ffff03 /\ 0 <= l2 r <= 0x3ffc0ff /\
  0 <= l3 r <= 0x3f03fff /\ 0 <= l4 r <= 0x00fffff.

(** Four words as one number, and a number as five limbs. *)
Lemma limbs_of_number x :
  0 <= x < 2 ^ 128 ->
  x = x mod 2 ^ 26 + 2 ^ 26 * ((x / 2 ^ 26) mod 2 ^ 26) + 2 ^ 52 * ((x / 2 ^ 52) mod 2 ^ 26) +
      2 ^ 78 * ((x / 2 ^ 78) mod 2 ^ 26) + 2 ^ 104 * ((x / 2 ^ 104) mod 2 ^ 26).
Proof.
  intros. replace (2 ^ 52) with (2 ^ 26 * 2 ^ 26) by lia.
  replace (2 ^ 78) with (2 ^ 26 * 2 ^ 26 * 2 ^ 26) by lia.
  replace (2 ^ 104) with (2 ^ 26 * 2 ^ 26 * 2 ^ 26 * 2 ^ 26) by lia.
  rewrite <- !Z.div_div by lia.
  pose proof (Z.div_mod x (2 ^ 26) ltac:(lia)) as E0.
  set (x1 := x / 2 ^ 26) in *. pose proof (Z.div_mod x1 (2 ^ 26) ltac:(lia)) as E1.
  set (x2 := x1 / 2 ^ 26) in *. pose proof (Z.div_mod x2 (2 ^ 26) ltac:(lia)) as E2.
  set (x3 := x2 / 2 ^ 26) in *. pose proof (Z.div_mod x3 (2 ^ 26) ltac:(lia)) as E3.
  set (x4 := x3 / 2 ^ 26) in *. rewrite (Z.mod_small x4); [lia|].
  pose proof (Z.mod_pos_bound x (2 ^ 26) ltac:(lia)). pose proof (Z.mod_pos_bound x1 (2 ^ 26) ltac:(lia)).
  pose proof (Z.mod_pos_bound x2 (2 ^ 26) ltac:(lia)). pose proof (Z.mod_pos_bound x3 (2 ^ 26) ltac:(lia)).
  lia.
Qed.

(** A limb of a masked number is the masked limb. *)
Lemma masked_limb k mask i :
  0 <= i -> (Z.land k mask / 2 ^ i) mod 2 ^ 26 = Z.land (k / 2 ^ i) ((mask / 2 ^ i) mod 2 ^ 26).
Proof.
  intros Hi. rewrite <- !shiftr_div by done. rewrite Z.shiftr_land.
  rewrite <- !(Z.land_ones _ 26) by done. by rewrite Z.land_assoc.
Qed.

Lemma land_low a m n : 0 <= n -> 0 <= m < 2 ^ n -> Z.land (a mod 2 ^ n) m = Z.land a m.
Proof.
  intros Hn Hm. rewrite <- Z.land_ones by done. rewrite <- Z.land_assoc. f_equal.
  rewrite Z.land_comm, Z.land_ones by done. by apply Z.mod_small.
Qed.

Lemma land_bound a m : 0 <= m -> 0 <= Z.land a m <= m.
Proof.
  intros Hm. split; [apply Z.land_nonneg; lia|].
  rewrite <- (Z.land_diag m) at 2. 
  assert (E : m = Z.land a m + Z.ldiff m a).
  { rewrite Z.land_comm. rewrite Z.add_comm. symmetry.
    rewrite Z.add_nocarry_lxor.
    - apply Z.bits_inj'. intros i Hi. rewrite Z.lxor_spec, Z.ldiff_spec, Z.land_spec.
      by destruct (Z.testbit m i), (Z.testbit a i).
    - apply Z.bits_inj'. intros i Hi. rewrite Z.land_spec, Z.ldiff_spec, Z.land_spec, Z.bits_0.
      by destruct (Z.testbit m i), (Z.testbit a i). }
  rewrite Z.land_diag. assert (0 <= Z.ldiff m a) by (apply Z.ldiff_nonneg; lia). lia.
Qed.

(** Two adjacent words, seen through a window of 32 bits. *)
Lemma window a b n :
  0 <= n <= 32 -> 0 <= a < 2 ^ 32 -> 0 <= b < 2 ^ 32 ->
  Z.lor (Z.shiftr a n) (u32 (Z.shiftl b (32 - n))) = ((a + 2 ^ 32 * b) / 2 ^ n) mod 2 ^ 32.
Proof.
  intros Hn Ha Hb. unfold u32. rewrite shiftr_div, Z.shiftl_mul_pow2 by lia.
  assert (E32 : 2 ^ 32 = 2 ^ (32 - n) * 2 ^ n) by (rewrite <- Z.pow_add_r by lia; f_equal; lia).
  assert (Hhi : (b * 2 ^ (32 - n)) mod 2 ^ 32 = (b mod 2 ^ n) * 2 ^ (32 - n)).
  { rewrite E32, (Z.mul_comm b). rewrite Z.mul_mod_distr_l by lia. ring. }
  assert (Hlo : 0 <= a / 2 ^ n < 2 ^ (32 - n)).
  { split; [apply Z.div_pos; lia|]. apply Z.div_lt_upper_bound; [lia|]. lia. }
  rewrite Hhi, lor_comm_add by lia.
  replace (a + 2 ^ 32 * b) with (a + (2 ^ (32 - n) * b) * 2 ^ n) by (rewrite E32; ring).
  rewrite Z.div_add by lia. pose proof (Z.mod_pos_bound b (2 ^ n) ltac:(lia)).
  rewrite (Z.div_mod b (2 ^ n)) at 2 by lia.
  replace (a / 2 ^ n + 2 ^ (32 - n) * (2 ^ n * (b / 2 ^ n) + b mod 2 ^ n))
    with (a / 2 ^ n + (b mod 2 ^ n) * 2 ^ (32 - n) + (b / 2 ^ n) * 2 ^ 32) by (rewrite E32; ring).
  rewrite Z.mod_add by lia. symmetry. apply Z.mod_small. nia.
Qed.

Lemma clamp_spec key :
  bytes_ok key -> (16 <= length key)%nat ->
  key_limbs (clamp key) /\ V (clamp key) = Z.land (le_value (take 16 key)) RMASK.
Proof.
  intros Hk Hl. rewrite words_value by done. unfold clamp.
  pose proof (U8TO32_LE_range key Hk) as R0.
  pose proof (U8TO32_LE_range (drop 4 key) ltac:(auto with sshdb)) as R1.
  pose proof (U8TO32_LE_range (drop 8 key) ltac:(auto with sshdb)) as R2.
  pose proof (U8TO32_LE_range (drop 12 key) ltac:(auto with sshdb)) as R3.
  generalize dependent (U8TO32_LE key). intros t0 R0.
  generalize dependent (U8TO32_LE (drop 4 key)). intros t1 R1.
  generalize dependent (U8TO32_LE (drop 8 key)). intros t2 R2.
  generalize dependent (U8TO32_LE (drop 12 key)). intros t3 R3. clear key Hk Hl.
  change 6 with (32 - 26). change 12 with (32 - 20). change 18 with (32 - 14).
  rewrite !window by lia. rewrite !land_low by lia.
  set (k := t0 + 2 ^ 32 * t1 + 2 ^ 64 * t2 + 2 ^ 96 * t3).
  assert (Hkr : 0 <= k < 2 ^ 128) by (unfold k; lia).
  assert (E0 : Z.land t0 0x3ffffff = Z.land k 0x3ffffff).
  { rewrite <- (land_low k 0x3ffffff 32) by lia. f_equal. unfold k. dm_lia. }
  assert (E1 : Z.land ((t0 + 2 ^ 32 * t1) / 2 ^ 26) 0x3ffff03 = Z.land (k / 2 ^ 26) 0x3ffff03).
  { rewrite <- (land_low (k / 2 ^ 26) _ 32), <- (land_low (_ / _) _ 32) by lia. f_equal. unfold k. dm_lia. }
  assert (E2 : Z.land ((t1 + 2 ^ 32 * t2) / 2 ^ 20) 0x3ffc0ff = Z.land (k / 2 ^ 52) 0x3ffc0ff).
  { rewrite <- (land_low (k / 2 ^ 52) _ 32), <- (land_low (_ / _) _ 32) by lia. f_equal. unfold k. dm_lia. }
  assert (E3 : Z.land ((t2 + 2 ^ 32 * t3) / 2 ^ 14) 0x3f03fff = Z.land (k / 2 ^ 78) 0x3f03fff).
  { f_equal. unfold k. dm_lia. }
  assert (E4 : Z.land (Z.shiftr t3 8) 0x00fffff = Z.land (k / 2 ^ 104) 0x00fffff).
  { rewrite shiftr_div by lia. f_equal. unfold k. dm_lia. }
  rewrite E0, E1, E2, E3, E4. split.
  - unfold key_limbs. cbn [l0 l1 l2 l3 l4]. split_and!; apply land_bound; lia.
  - unfold V. cbn [l0 l1 l2 l3 l4].
    pose proof (land_bound k RMASK ltac:(by vm_compute)) as Hr.
    rewrite (limbs_of_number (Z.land k RMASK)) by (unfold RMASK in Hr |- *; lia).
    pose proof (masked_limb k RMASK 0 ltac:(lia)) as M0. rewrite !Z.div_1_r in M0. rewrite M0.
    rewrite !masked_limb by lia. done.
Qed.

(** ** One multiplication *)

Lemma mul_bound a b A B : 0 <= a <= A -> 0 <= b <= B -> 0 <= a * b <= A * B.
Proof. intros. split; [lia|]. apply Z.mul_le_mono_nonneg; lia. Qed.

Lemma land_u32_mod x : Z.land (u32 x) MASK26 = x mod 2 ^ 26.
Proof.
  rewrite MASK26_mod. unfold u32. change (2 ^ 32) with (2 ^ 26 * 2 ^ 6).
  rewrite Z.rem_mul_r by lia. rewrite Z.mul_comm, Z.mod_add by lia. apply Z.mod_mod. lia.
Qed.

(** The sums of products, as numbers. *)
Definition prods (h r : limbs) : limbs :=
  mk_limbs
    (l0 h * l0 r + l1 h * (l4 r * 5) + l2 h * (l3 r * 5) + l3 h * (l2 r * 5) + l4 h * (l1 r * 5))
    (l0 h * l1 r + l1 h * l0 r + l2 h * (l4 r * 5) + l3 h * (l3 r * 5) + l4 h * (l2 r * 5))
    (l0 h * l2 r + l1 h * l1 r + l2 h * l0 r + l3 h * (l4 r * 5) + l4 h * (l3 r * 5))
    (l0 h * l3 r + l1 h * l2 r + l2 h * l1 r + l3 h * l0 r + l4 h * (l4 r * 5))
    (l0 h * l4 r + l1 h * l3 r + l2 h * l2 r + l3 h * l1 r + l4 h * l0 r).

(** They represent the product modulo 2^130 - 5, because 2^130 is 5. *)
Lemma prods_V h r : (V (prods h r)) mod P1305 = (V h * V r) mod P1305.
Proof.
  assert (E : V h * V r = V (prods h r) +
    (l4 h * l1 r + l3 h * l2 r + l2 h * l3 r + l1 h * l4 r +
     2 ^ 26 * (l4 h * l2 r + l3 h * l3 r + l2 h * l4 r) +
     2 ^ 52 * (l4 h * l3 r + l3 h * l4 r) + 2 ^ 78 * (l4 h * l4 r)) * P1305).
  { unfold V, prods, P1305. cbn [l0 l1 l2 l3 l4]. ring. }
  rewrite E. symmetry. apply Z.mod_add. done.
Qed.

Lemma sum5_bound a b c d e A B C D E :
  0 <= a <= A -> 0 <= b <= B -> 0 <= c <= C -> 0 <= d <= D -> 0 <= e <= E ->
  0 <= a + b + c + d + e <= A + B + C + D + E.
Proof. lia. Qed.

(** The carries out of the middle limbs just fit 32 bits. *)
Definition TB : Z := 2 ^ 58.
Definition TB123 : Z := 283000000000000000.
Definition TB4 : Z := 37000000000000000.

Lemma prods_bound h r :
  loaded h -> key_limbs r ->
  0 <= l0 (prods h r) <= TB + 2 ^ 57 /\ 0 <= l1 (prods h r) <= TB123 /\
  0 <= l2 (prods h r) <= TB123 /\ 0 <= l3 (prods h r) <= TB123 /\ 0 <= l4 (prods h r) <= TB4.
Proof.
  intros (H0 & H1 & H2 & H3 & H4) (R0 & R1 & R2 & R3 & R4). unfold prods, HB in *.
  cbn [l0 l1 l2 l3 l4].
  pose proof (sum5_bound _ _ _ _ _ _ _ _ _ _
    (mul_bound (l0 h) (l0 r) 2897108864 0x3ffffff ltac:(lia) ltac:(lia))
    (mul_bound (l1 h) (l4 r * 5) (2 ^ 27) (0x00fffff * 5) ltac:(lia) ltac:(lia))
    (mul_bound (l2 h) (l3 r * 5) (2 ^ 27) (0x3f03fff * 5) ltac:(lia) ltac:(lia))
    (mul_bound (l3 h) (l2 r * 5) (2 ^ 27) (0x3ffc0ff * 5) ltac:(lia) ltac:(lia))
    (mul_bound (l4 h) (l1 r * 5) (2 ^ 26 + 2 ^ 25) (0x3ffff03 * 5) ltac:(lia) ltac:(lia))) as T0.
  pose proof (sum5_bound _ _ _ _ _ _ _ _ _ _
    (mul_bound (l0 h) (l1 r) 2897108864 0x3ffff03 ltac:(lia) ltac:(lia))
    (mul_bound (l1 h) (l0 r) (2 ^ 27) 0x3ffffff ltac:(lia) ltac:(lia))
    (mul_bound (l2 h) (l4 r * 5) (2 ^ 27) (0x00fffff * 5) ltac:(lia) ltac:(lia))
    (mul_bound (l3 h) (l3 r * 5) (2 ^ 27) (0x3f03fff * 5) ltac:(lia) ltac:(lia))
    (mul_bound (l4 h) (l2 r * 5) (2 ^ 26 + 2 ^ 25) (0x3ffc0ff * 5) ltac:(lia) ltac:(lia))) as T1.
  pose proof (sum5_bound _ _ _ _ _ _ _ _ _ _
    (mul_bound (l0 h) (l2 r) 2897108864 0x3ffc0ff ltac:(lia) ltac:(lia))
    (mul_bound (l1 h) (l1 r) (2 ^ 27) 0x3ffff03 ltac:(lia) ltac:(lia))
    (mul_bound (l2 h) (l0 r) (2 ^ 27) 0x3ffffff ltac:(lia) ltac:(lia))
    (mul_bound (l3 h) (l4 r * 5) (2 ^ 27) (0x00fffff * 5) ltac:(lia) ltac:(lia))
    (mul_bound (l4 h) (l3 r * 5) (2 ^ 26 + 2 ^ 25) (0x3f03fff * 5) ltac:(lia) ltac:(lia))) as T2.
  pose proof (sum5_bound _ _ _ _ _ _ _ _ _ _
    (mul_bound (l0 h) (l3 r) 2897108864 0x3f03fff ltac:(lia) ltac:(lia))
    (mul_bound (l1 h) (l2 r) (2 ^ 27) 0x3ffc0ff ltac:(lia) ltac:(lia))
    (mul_bound (l2 h) (l1 r) (2 ^ 27) 0x3ffff03 ltac:(lia) ltac:(lia))
    (mul_bound (l3 h) (l0 r) (2 ^ 27) 0x3ffffff ltac:(lia) ltac:(lia))
    (mul_bound (l4 h) (l4 r * 5) (2 ^ 26 + 2 ^ 25) (0x00fffff * 5) ltac:(lia) ltac:(lia))) as T3.
  pose proof (sum5_bound _ _ _ _ _ _ _ _ _ _
    (mul_bound (l0 h) (l4 r) 2897108864 0x00fffff ltac:(lia) ltac:(lia))
    (mul_bound (l1 h) (l3 r) (2 ^ 27) 0x3f03fff ltac:(lia) ltac:(lia))
    (mul_bound (l2 h) (l2 r) (2 ^ 27) 0x3ffc0ff ltac:(lia) ltac:(lia))
    (mul_bound (l3 h) (l1 r) (2 ^ 27) 0x3ffff03 ltac:(lia) ltac:(lia))
    (mul_bound (l4 h) (l0 r) (2 ^ 26 + 2 ^ 25) 0x3ffffff ltac:(lia) ltac:(lia))) as T4.
  repeat split; first [apply T0|apply T1|apply T2|apply T3|apply T4|
    eapply Z.le_trans; [first [apply T0|apply T1|apply T2|apply T3|apply T4]|by vm_compute]].
Qed.

Lemma sum_u64 a b c d e :
  0 <= a -> 0 <= b -> 0 <= c -> 0 <= d -> 0 <= e -> a + b + c + d + e < 2 ^ 64 ->
  add64 (add64 (add64 (add64 (u64 a) (u64 b)) (u64 c)) (u64 d)) (u64 e) = a + b + c + d + e.
Proof.
  intros. unfold add64. rewrite (u64_small a), (u64_small b), (u64_small c), (u64_small d),
    (u64_small e) by lia.
  rewrite (u64_small (a + b)), (u64_small (a + b + c)), (u64_small (a + b + c + d)) by lia.
  apply u64_small. lia.
Qed.

(** The chain of carries of [donna_mul]. *)
Definition carry (t : limbs) : limbs :=
  let h0 := Z.land (u32 (l0 t)) MASK26 in let c := Z.shiftr (l0 t) 26 in
  let t1 := add64 (l1 t) c in
  let h1 := Z.land (u32 t1) MASK26 in let b := u32 (Z.shiftr t1 26) in
  let t2 := add64 (l2 t) b in
  let h2 := Z.land (u32 t2) MASK26 in let b := u32 (Z.shiftr t2 26) in
  let t3 := add64 (l3 t) b in
  let h3 := Z.land (u32 t3) MASK26 in let b := u32 (Z.shiftr t3 26) in
  let t4 := add64 (l4 t) b in
  let h4 := Z.land (u32 t4) MASK26 in let b := u32 (Z.shiftr t4 26) in
  mk_limbs (add32 h0 (u32 (b * 5))) h1 h2 h3 h4.

Lemma donna_mul_carry h r : loaded h -> key_limbs r -> donna_mul h r = carry (prods h r).
Proof.
  intros Hh Hr. pose proof (prods_bound h r Hh Hr) as (T0 & T1 & T2 & T3 & T4).
  destruct Hh as (H0 & H1 & H2 & H3 & H4), Hr as (R0 & R1 & R2 & R3 & R4).
  unfold donna_mul, mul32x32_64. rewrite !(u32_small (_ * 5)) by lia.
  unfold TB, TB123, TB4, prods in *. cbn [l0 l1 l2 l3 l4] in *.
  rewrite !sum_u64; [reflexivity|..]; first [apply Z.mul_nonneg_nonneg; lia|eapply Z.le_lt_trans; [apply T0|done]
    |eapply Z.le_lt_trans; [apply T1|done]|eapply Z.le_lt_trans; [apply T2|done]
    |eapply Z.le_lt_trans; [apply T3|done]|eapply Z.le_lt_trans; [apply T4|done]].
Qed.

Lemma carry_spec t :
  0 <= l0 t <= TB + 2 ^ 57 -> 0 <= l1 t <= TB123 -> 0 <= l2 t <= TB123 -> 0 <= l3 t <= TB123 ->
  0 <= l4 t <= TB4 ->
  small (carry t) /\ exists b, V (carry t) = V t - b * P1305.
Proof.
  destruct t as [t0 t1 t2 t3 t4]. unfold carry, TB, TB123, TB4. cbn [l0 l1 l2 l3 l4].
  intros T0 T1 T2 T3 T4. unfold add64. rewrite !land_u32_mod, !shiftr_div by lia.
  set (c := t0 / 2 ^ 26). assert (0 <= c <= 6500000000) by (unfold c; dm_lia).
  rewrite (u64_small (t1 + c)) by lia.
  set (b1 := u32 ((t1 + c) / 2 ^ 26)).
  assert (E1 : b1 = (t1 + c) / 2 ^ 26) by (unfold b1; apply u32_small; dm_lia).
  assert (0 <= b1 < 2 ^ 32) by dm_lia. clearbody b1.
  rewrite (u64_small (t2 + b1)) by lia.
  set (b2 := u32 ((t2 + b1) / 2 ^ 26)).
  assert (E2 : b2 = (t2 + b1) / 2 ^ 26) by (unfold b2; apply u32_small; dm_lia).
  assert (0 <= b2 < 2 ^ 32) by dm_lia. clearbody b2.
  rewrite (u64_small (t3 + b2)) by lia.
  set (b3 := u32 ((t3 + b2) / 2 ^ 26)).
  assert (E3 : b3 = (t3 + b2) / 2 ^ 26) by (unfold b3; apply u32_small; dm_lia).
  assert (0 <= b3 < 2 ^ 32) by dm_lia. clearbody b3.
  rewrite (u64_small (t4 + b3)) by lia.
  set (b4 := u32 ((t4 + b3) / 2 ^ 26)).
  assert (E4 : b4 = (t4 + b3) / 2 ^ 26) by (unfold b4; apply u32_small; dm_lia).
  assert (0 <= b4 <= 551400000) by dm_lia. clearbody b4.
  assert (0 <= t0 mod 2 ^ 26 < 2 ^ 26) by (apply Z.mod_pos_bound; lia).
  unfold add32, small, HB. cbn [l0 l1 l2 l3 l4].
  rewrite (u32_small (b4 * 5)) by lia. rewrite (u32_small (_ + b4 * 5)) by lia. split.
  - split_and!; try (apply Z.mod_pos_bound; lia); lia.
  - exists b4. unfold V, P1305. cbn [l0 l1 l2 l3 l4].
    pose proof (Z.div_mod t0 (2 ^ 26) ltac:(lia)) as D0. fold c in D0.
    pose proof (Z.div_mod (t1 + c) (2 ^ 26) ltac:(lia)) as D1. rewrite <- E1 in D1.
    pose proof (Z.div_mod (t2 + b1) (2 ^ 26) ltac:(lia)) as D2. rewrite <- E2 in D2.
    pose proof (Z.div_mod (t3 + b2) (2 ^ 26) ltac:(lia)) as D3. rewrite <- E3 in D3.
    pose proof (Z.div_mod (t4 + b3) (2 ^ 26) ltac:(lia)) as D4. rewrite <- E4 in D4. lia.
Qed.

Lemma donna_mul_spec h r :
  loaded h -> key_limbs r ->
  small (donna_mul h r) /\ V (donna_mul h r) mod P1305 = (V h * V r) mod P1305.
Proof.
  intros Hh Hr. rewrite donna_mul_carry by done.
  pose proof (prods_bound h r Hh Hr) as (T0 & T1 & T2 & T3 & T4).
  destruct (carry_spec (prods h r) T0 T1 T2 T3 T4) as (Hs & b & ->). split; [done|].
  rewrite <- prods_V. rewrite <- (Z.mod_add (V (prods h r) - b * P1305) b) by done. f_equal. lia.
Qed.

(** ** The message *)

Lemma le_value_app a b : le_value (a ++ b) = le_value a + 2 ^ (8 * Z.of_nat (length a)) * le_value b.
Proof.
  induction a as [|c a IH]; cbn [app le_value length]; [cbn [Z.of_nat Z.mul Z.pow]; lia|].
  rewrite IH. replace (8 * Z.of_nat (S (length a))) with (8 + 8 * Z.of_nat (length a)) by lia.
  rewrite Z.pow_add_r by lia. change (2 ^ 8) with 256. ring.
Qed.

Lemma le_value_zeros n : le_value (replicate n 0) = 0.
Proof. induction n as [|n IH]; [done|]. cbn [replicate le_value]. lia. Qed.

Lemma chunks_fuel f g m : (length m <= f)%nat -> (length m <= g)%nat -> chunks f m = chunks g m.
Proof.
  revert g m. induction f as [|f IH]; intros g m Hf Hg.
  - destruct m; [by destruct g|cbn in Hf; lia].
  - destruct m as [|x m]; [by destruct g|]. destruct g as [|g]; [cbn in Hg; lia|].
    cbn [chunks]. f_equal. apply IH; rewrite length_drop; cbn in *; lia.
Qed.

Section blocks.
Context (r : limbs) (Hr : key_limbs r).

Lemma step_spec h m hibit blk :
  small h -> bytes_ok m -> (16 <= length m)%nat -> hibit = 0 \/ hibit = Z.shiftl 1 24 ->
  le_value (blk ++ [1]) = le_value (take 16 m) + hibit * 2 ^ 104 ->
  small (donna_mul (add_block h m hibit) r) /\
  V (donna_mul (add_block h m hibit) r) mod P1305 = poly_step (V r) (V h mod P1305) blk.
Proof.
  intros Hh Hm Hl Hb Hblk. destruct (add_block_spec h m hibit Hh Hm Hl Hb) as [Hld Hv].
  destruct (donna_mul_spec _ r Hld Hr) as [Hs Hmod]. split; [done|].
  rewrite Hmod, Hv. unfold poly_step. rewrite Hblk.
  rewrite <- (Z.mul_mod_idemp_l (V h mod P1305 + _)) by done.
  rewrite Z.add_mod_idemp_l by done. rewrite Z.mul_mod_idemp_l by done. do 2 f_equal. lia.
Qed.

Lemma blocks_spec fuel h m :
  (length m < fuel)%nat -> small h -> bytes_ok m ->
  let '(h', m') := full_blocks fuel h r m in
  small (last_block h' r m') /\
  V (last_block h' r m') mod P1305 = fold_left (poly_step (V r)) (chunks (length m) m) (V h mod P1305).
Proof.
  revert h m. induction fuel as [|fuel IH]; intros h m Hf Hh Hm; [lia|]. cbn [full_blocks].
  destruct (length m <? 16)%nat eqn:E.
  - apply Nat.ltb_lt in E. destruct m as [|x m]; [done|]. cbn [last_block].
    set (mp := (x :: m) ++ [1] ++ replicate (15 - length (x :: m)) 0).
    assert (Hlen : length mp = 16%nat).
    { unfold mp. rewrite !length_app, length_replicate. cbn in *. lia. }
    cbn [length chunks]. rewrite take_ge, drop_ge by (cbn in *; lia).
    replace (chunks (length m) []) with ([] : list (list Z)) by (by destruct (length m)).
    cbn [fold_left]. apply step_spec; [done| |lia|by left|].
    + unfold mp. rewrite !bytes_ok_app. split_and!; [done|by repeat constructor|auto with sshdb].
    + rewrite take_ge by lia. unfold mp. rewrite (app_assoc (x :: m)).
      rewrite (le_value_app (_ ++ [1]) (replicate _ _)), le_value_zeros. lia.
  - apply Nat.ltb_ge in E.
    destruct (step_spec h m (Z.shiftl 1 24) (take 16 m)) as [Hs Hv]; [done|done|done|by right| |].
    { rewrite le_value_app, length_take, Nat.min_l by lia. cbn [le_value]. change (Z.shiftl 1 24) with (2 ^ 24).
      change (8 * Z.of_nat 16) with 128. lia. }
    specialize (IH (donna_mul (add_block h m (Z.shiftl 1 24)) r) (drop 16 m)).
    destruct (full_blocks fuel _ r (drop 16 m)) as [h' m'].
    destruct IH as [IH1 IH2]; [rewrite length_drop; lia|done|auto with sshdb|]. split; [done|].
    rewrite IH2, Hv. destruct m as [|x m]; [cbn in E; lia|].
    cbn [length chunks fold_left]. by rewrite (chunks_fuel (length m) (length (drop 16 (x :: m))))
      by (rewrite ?length_drop; cbn; lia).
Qed.
End blocks.

(** ** The end: full reduction and the tag *)

Definition norm (h : limbs) : Prop :=
  0 <= l0 h < 2 ^ 26 /\ 0 <= l1 h < 2 ^ 26 /\ 0 <= l2 h < 2 ^ 26 /\ 0 <= l3 h < 2 ^ 26 /\
  0 <= l4 h < 2 ^ 26.

(** After the carries every limb is below 2^26 again: a carry out of the top
    limb means that the second one has just wrapped, and is small. *)
Lemma fin_carry_spec h :
  small h -> norm (fin_carry h) /\ exists b, V (fin_carry h) = V h - b * P1305.
Proof.
  destruct h as [h0 h1 h2 h3 h4]. unfold small, fin_carry, add32, HB. cbn [l0 l1 l2 l3 l4].
  intros (H0 & H1 & H2 & H3 & H4). rewrite !MASK26_mod, !shiftr_div by lia.
  assert (0 <= h0 / 2 ^ 26 <= 42) by dm_lia. set (b0 := h0 / 2 ^ 26) in *.
  assert (D0 : h0 = 2 ^ 26 * b0 + h0 mod 2 ^ 26) by (apply Z.div_mod; lia).
  assert (0 <= h0 mod 2 ^ 26 < 2 ^ 26) by (apply Z.mod_pos_bound; lia).
  set (x0 := h0 mod 2 ^ 26) in *. clearbody b0 x0.
  rewrite !(u32_small (h1 + b0)) by lia.
  assert (0 <= (h1 + b0) / 2 ^ 26 <= 1) by dm_lia. set (b1 := (h1 + b0) / 2 ^ 26) in *.
  assert (D1 : h1 + b0 = 2 ^ 26 * b1 + (h1 + b0) mod 2 ^ 26) by (apply Z.div_mod; lia).
  assert (0 <= (h1 + b0) mod 2 ^ 26 < 2 ^ 26) by (apply Z.mod_pos_bound; lia).
  set (x1 := (h1 + b0) mod 2 ^ 26) in *. clearbody b1 x1.
  rewrite !(u32_small (h2 + b1)) by lia.
  assert (0 <= (h2 + b1) / 2 ^ 26 <= 1) by dm_lia. set (b2 := (h2 + b1) / 2 ^ 26) in *.
  assert (D2 : h2 + b1 = 2 ^ 26 * b2 + (h2 + b1) mod 2 ^ 26) by (apply Z.div_mod; lia).
  assert (0 <= (h2 + b1) mod 2 ^ 26 < 2 ^ 26) by (apply Z.mod_pos_bound; lia).
  set (x2 := (h2 + b1) mod 2 ^ 26) in *. clearbody b2 x2.
  rewrite !(u32_small (h3 + b2)) by lia.
  assert (0 <= (h3 + b2) / 2 ^ 26 <= 1) by dm_lia. set (b3 := (h3 + b2) / 2 ^ 26) in *.
  assert (D3 : h3 + b2 = 2 ^ 26 * b3 + (h3 + b2) mod 2 ^ 26) by (apply Z.div_mod; lia).
  assert (0 <= (h3 + b2) mod 2 ^ 26 < 2 ^ 26) by (apply Z.mod_pos_bound; lia).
  set (x3 := (h3 + b2) mod 2 ^ 26) in *. clearbody b3 x3.
  rewrite !(u32_small (h4 + b3)) by lia.
  assert (0 <= (h4 + b3) / 2 ^ 26 <= 1) by dm_lia. set (b4 := (h4 + b3) / 2 ^ 26) in *.
  assert (D4 : h4 + b3 = 2 ^ 26 * b4 + (h4 + b3) mod 2 ^ 26) by (apply Z.div_mod; lia).
  assert (0 <= (h4 + b3) mod 2 ^ 26 < 2 ^ 26) by (apply Z.mod_pos_bound; lia).
  set (x4 := (h4 + b3) mod 2 ^ 26) in *. clearbody b4 x4.
  rewrite (u32_small (b4 * 5)) by lia. rewrite !(u32_small (x0 + b4 * 5)) by lia.
  assert (0 <= (x0 + b4 * 5) / 2 ^ 26 <= b4) by dm_lia. set (b5 := (x0 + b4 * 5) / 2 ^ 26) in *.
  assert (D5 : x0 + b4 * 5 = 2 ^ 26 * b5 + (x0 + b4 * 5) mod 2 ^ 26) by (apply Z.div_mod; lia).
  assert (0 <= (x0 + b4 * 5) mod 2 ^ 26 < 2 ^ 26) by (apply Z.mod_pos_bound; lia).
  set (x5 := (x0 + b4 * 5) mod 2 ^ 26) in *. clearbody b5 x5.
  rewrite (u32_small (x1 + b5)) by lia.
  assert (x1 + b5 < 2 ^ 26) by lia.
  split; [unfold norm; cbn [l0 l1 l2 l3 l4]; split_and!; lia|].
  exists b4. unfold V, P1305. cbn [l0 l1 l2 l3 l4]. lia.
Qed.

Lemma land_all x : 0 <= x < 2 ^ 32 -> Z.land x (2 ^ 32 - 1) = x.
Proof.
  intros. change (2 ^ 32 - 1) with (Z.ones 32). rewrite Z.land_ones by done. by apply Z.mod_small.
Qed.

Lemma fin_reduce_spec h : norm h -> norm (fin_reduce h) /\ V (fin_reduce h) = V h mod P1305.
Proof.
  destruct h as [h0 h1 h2 h3 h4]. unfold norm, fin_reduce, add32. cbn [l0 l1 l2 l3 l4].
  intros (H0 & H1 & H2 & H3 & H4). rewrite !MASK26_mod. change (Z.shiftl 1 26) with (2 ^ 26).
  rewrite !(u32_small (h0 + 5)) by lia.
  rewrite !(shiftr_div (h0 + 5)) by lia.
  assert (0 <= (h0 + 5) / 2 ^ 26 <= 1) by dm_lia. set (b0 := (h0 + 5) / 2 ^ 26) in *.
  assert (D0 : h0 + 5 = 2 ^ 26 * b0 + (h0 + 5) mod 2 ^ 26) by (apply Z.div_mod; lia).
  assert (0 <= (h0 + 5) mod 2 ^ 26 < 2 ^ 26) by (apply Z.mod_pos_bound; lia).
  set (g0 := (h0 + 5) mod 2 ^ 26) in *. clearbody b0 g0.
  rewrite !(u32_small (h1 + b0)) by lia. rewrite !(shiftr_div (h1 + b0)) by lia.
  assert (0 <= (h1 + b0) / 2 ^ 26 <= 1) by dm_lia. set (b1 := (h1 + b0) / 2 ^ 26) in *.
  assert (D1 : h1 + b0 = 2 ^ 26 * b1 + (h1 + b0) mod 2 ^ 26) by (apply Z.div_mod; lia).
  assert (0 <= (h1 + b0) mod 2 ^ 26 < 2 ^ 26) by (apply Z.mod_pos_bound; lia).
  set (g1 := (h1 + b0) mod 2 ^ 26) in *. clearbody b1 g1.
  rewrite !(u32_small (h2 + b1)) by lia. rewrite !(shiftr_div (h2 + b1)) by lia.
  assert (0 <= (h2 + b1) / 2 ^ 26 <= 1) by dm_lia. set (b2 := (h2 + b1) / 2 ^ 26) in *.
  assert (D2 : h2 + b1 = 2 ^ 26 * b2 + (h2 + b1) mod 2 ^ 26) by (apply Z.div_mod; lia).
  assert (0 <= (h2 + b1) mod 2 ^ 26 < 2 ^ 26) by (apply Z.mod_pos_bound; lia).
  set (g2 := (h2 + b1) mod 2 ^ 26) in *. clearbody b2 g2.
  rewrite !(u32_small (h3 + b2)) by lia. rewrite !(shiftr_div (h3 + b2)) by lia.
  assert (0 <= (h3 + b2) / 2 ^ 26 <= 1) by dm_lia. set (b3 := (h3 + b2) / 2 ^ 26) in *.
  assert (D3 : h3 + b2 = 2 ^ 26 * b3 + (h3 + b2) mod 2 ^ 26) by (apply Z.div_mod; lia).
  assert (0 <= (h3 + b2) mod 2 ^ 26 < 2 ^ 26) by (apply Z.mod_pos_bound; lia).
  set (g3 := (h3 + b2) mod 2 ^ 26) in *. clearbody b3 g3.
  assert (HV : 0 <= V (mk_limbs h0 h1 h2 h3 h4) < 2 ^ 130) by (unfold V; cbn [l0 l1 l2 l3 l4]; lia).
  destruct (Z.eq_dec (h4 + b3) (2 ^ 26)) as [E|E].
  - rewrite E, Z.sub_diag. change (u32 0) with 0.
    change (u32 (Z.shiftr 0 31 - 1)) with (2 ^ 32 - 1). change (u32 (Z.lnot (2 ^ 32 - 1))) with 0.
    rewrite !Z.land_0_r, !land_all, !Z.lor_0_l by lia. split; [split_and!; lia|].
    apply (Z.mod_unique _ _ 1); [|unfold V, P1305; cbn [l0 l1 l2 l3 l4]; lia].
    left. unfold V, P1305 in *. cbn [l0 l1 l2 l3 l4] in *. lia.
  - assert (Eg : u32 (h4 + b3 - 2 ^ 26) = h4 + b3 - 2 ^ 26 + 2 ^ 32).
    { unfold u32. symmetry. apply (Z.mod_unique _ _ (-1)); lia. }
    rewrite Eg. assert (Es : Z.shiftr (h4 + b3 - 2 ^ 26 + 2 ^ 32) 31 = 1).
    { rewrite shiftr_div by lia. symmetry. apply (Z.div_unique _ _ 1 (h4 + b3 - 2 ^ 26 + 2 ^ 31)); lia. }
    rewrite Es. change (u32 (1 - 1)) with 0. change (u32 (Z.lnot 0)) with (2 ^ 32 - 1).
    rewrite !Z.land_0_r, !land_all, !Z.lor_0_r by lia. split; [split_and!; lia|].
    symmetry. apply Z.mod_small. unfold V, P1305 in *. cbn [l0 l1 l2 l3 l4] in *. lia.
Qed.

(** Joining two limbs into a word. *)
Lemma join_word a b n :
  0 <= n <= 26 -> 0 <= a < 2 ^ 26 -> 0 <= b ->
  Z.lor (Z.shiftr a n) (u32 (Z.shiftl b (26 - n))) =
    a / 2 ^ n + (b mod 2 ^ (6 + n)) * 2 ^ (26 - n).
Proof.
  intros Hn Ha Hb. unfold u32. rewrite shiftr_div, Z.shiftl_mul_pow2 by lia.
  replace (2 ^ 32) with (2 ^ (26 - n) * 2 ^ (6 + n)) by (rewrite <- Z.pow_add_r by lia; f_equal; lia).
  rewrite (Z.mul_comm b), Z.mul_mod_distr_l by lia. rewrite (Z.mul_comm (2 ^ (26 - n))).
  apply lor_comm_add; [lia|]. split; [apply Z.div_pos; lia|].
  apply Z.div_lt_upper_bound; [lia|]. rewrite <- Z.pow_add_r by lia.
  replace (n + (26 - n)) with 26 by lia. lia.
Qed.

Lemma le_bytes_app n k v : le_bytes (n + k) v = le_bytes n v ++ le_bytes k (v / 2 ^ (8 * Z.of_nat n)).
Proof.
  revert v. induction n as [|n IH]; intros v; cbn [le_bytes plus app]; [by rewrite Z.div_1_r|].
  f_equal. rewrite IH. f_equal. f_equal. rewrite Z.div_div by lia. f_equal.
  replace (8 * Z.of_nat (S n)) with (8 + 8 * Z.of_nat n) by lia. rewrite Z.pow_add_r by lia. done.
Qed.

Lemma le_bytes_mod n v : le_bytes n (v mod 2 ^ (8 * Z.of_nat n)) = le_bytes n v.
Proof.
  revert v. induction n as [|n IH]; intros v; [done|]. cbn [le_bytes].
  replace (8 * Z.of_nat (S n)) with (8 + 8 * Z.of_nat n) by lia.
  rewrite Z.pow_add_r by lia. change (2 ^ 8) with 256. rewrite Z.rem_mul_r by lia.
  rewrite (Z.mul_comm 256). rewrite Z.mod_add, Z.mod_mod, Z.div_add by lia.
  rewrite (Z.div_small (v mod 256)) by (apply Z.mod_pos_bound; lia).
  rewrite Z.add_0_l, IH. done.
Qed.

Lemma U32TO8_LE_bytes v : U32TO8_LE v = le_bytes 4 v.
Proof.
  unfold U32TO8_LE, u8. rewrite !shiftr_div by lia. cbn [le_bytes]. rewrite !Z.div_div by lia. done.
Qed.

(** Four words with carries between them. *)
Lemma add_words w0 w1 w2 w3 k0 k1 k2 k3 :
  0 <= w0 < 2 ^ 32 -> 0 <= w1 < 2 ^ 32 -> 0 <= w2 < 2 ^ 32 -> 0 <= w3 < 2 ^ 32 ->
  0 <= k0 < 2 ^ 32 -> 0 <= k1 < 2 ^ 32 -> 0 <= k2 < 2 ^ 32 -> 0 <= k3 < 2 ^ 32 ->
  let f0 := add64 w0 k0 in
  let f1 := add64 (add64 w1 k1) (Z.shiftr f0 32) in
  let f2 := add64 (add64 w2 k2) (Z.shiftr f1 32) in
  let f3 := add64 (add64 w3 k3) (Z.shiftr f2 32) in
  U32TO8_LE f0 ++ U32TO8_LE f1 ++ U32TO8_LE f2 ++ U32TO8_LE f3 =
    le_bytes 16 (w0 + 2 ^ 32 * w1 + 2 ^ 64 * w2 + 2 ^ 96 * w3 +
                 (k0 + 2 ^ 32 * k1 + 2 ^ 64 * k2 + 2 ^ 96 * k3)).
Proof.
  intros W0 W1 W2 W3 K0 K1 K2 K3 f0 f1 f2 f3. subst f3 f2 f1 f0. unfold add64.
  rewrite !(u64_small (_ + k0)), !(u64_small (_ + k1)), !(u64_small (_ + k2)),
    !(u64_small (_ + k3)) by lia.
  rewrite !U32TO8_LE_bytes. rewrite !shiftr_div by lia.
  set (s0 := w0 + k0). assert (0 <= s0 / 2 ^ 32 <= 1) by (unfold s0; dm_lia).
  assert (D0 : s0 = 2 ^ 32 * (s0 / 2 ^ 32) + s0 mod 2 ^ 32) by (apply Z.div_mod; lia).
  rewrite !(u64_small (w1 + k1 + _)) by lia. set (s1 := w1 + k1 + s0 / 2 ^ 32).
  assert (0 <= s1 / 2 ^ 32 <= 1) by (unfold s1; dm_lia).
  assert (D1 : s1 = 2 ^ 32 * (s1 / 2 ^ 32) + s1 mod 2 ^ 32) by (apply Z.div_mod; lia).
  rewrite !(u64_small (w2 + k2 + _)) by lia. set (s2 := w2 + k2 + s1 / 2 ^ 32).
  assert (0 <= s2 / 2 ^ 32 <= 1) by (unfold s2; dm_lia).
  rewrite !(u64_small (w3 + k3 + _)) by lia. set (s3 := w3 + k3 + s2 / 2 ^ 32).
  assert (step : forall n s x, le_bytes (4 + n) (s + 2 ^ 32 * x) = le_bytes 4 s ++ le_bytes n (x + s / 2 ^ 32)).
  { intros n s x. rewrite le_bytes_app. change (8 * Z.of_nat 4) with 32. f_equal.
    - rewrite <- (le_bytes_mod 4 (s + _)), <- (le_bytes_mod 4 s). f_equal. change (8 * Z.of_nat 4) with 32.
      by rewrite Z.mul_comm, Z.mod_add by lia.
    - f_equal. rewrite Z.mul_comm, Z.div_add by lia. lia. }
  transitivity (le_bytes 4 s0 ++ le_bytes 12 (s1 + 2 ^ 32 * (w2 + k2) + 2 ^ 64 * (w3 + k3))).
  2:{ replace (w0 + 2 ^ 32 * w1 + 2 ^ 64 * w2 + 2 ^ 96 * w3 + (k0 + 2 ^ 32 * k1 + 2 ^ 64 * k2 + 2 ^ 96 * k3))
        with (s0 + 2 ^ 32 * (w1 + k1 + 2 ^ 32 * (w2 + k2) + 2 ^ 64 * (w3 + k3))) by (unfold s0; lia).
      rewrite (step 12%nat). do 2 f_equal. unfold s1. lia. }
  f_equal. transitivity (le_bytes 4 s1 ++ le_bytes 8 (s2 + 2 ^ 32 * (w3 + k3))).
  2:{ replace (s1 + 2 ^ 32 * (w2 + k2) + 2 ^ 64 * (w3 + k3))
        with (s1 + 2 ^ 32 * (w2 + k2 + 2 ^ 32 * (w3 + k3))) by lia.
      rewrite (step 8%nat). do 2 f_equal. unfold s2. lia. }
  f_equal. rewrite (step 4%nat). done.
Qed.

(** Five limbs below 2^26 as four words, the top limb cut to the bits that fit. *)
Lemma words_of_limbs h0 h1 h2 h3 h4 :
  0 <= h0 < 2 ^ 26 -> 0 <= h1 < 2 ^ 26 -> 0 <= h2 < 2 ^ 26 -> 0 <= h3 < 2 ^ 26 -> 0 <= h4 < 2 ^ 26 ->
  (h0 + h1 mod 2 ^ 6 * 2 ^ 26) + 2 ^ 32 * (h1 / 2 ^ 6 + h2 mod 2 ^ 12 * 2 ^ 20) +
  2 ^ 64 * (h2 / 2 ^ 12 + h3 mod 2 ^ 18 * 2 ^ 14) + 2 ^ 96 * (h3 / 2 ^ 18 + h4 mod 2 ^ 24 * 2 ^ 8) =
    h0 + 2 ^ 26 * h1 + 2 ^ 52 * h2 + 2 ^ 78 * h3 + 2 ^ 104 * (h4 mod 2 ^ 24).
Proof. intros. dm_lia. Qed.

Lemma fin_out_spec h key :
  norm h -> bytes_ok key -> length key = 32%nat ->
  fin_out h key = le_bytes 16 ((V h + le_value (take 16 (drop 16 key))) mod 2 ^ 128).
Proof.
  destruct h as [h0 h1 h2 h3 h4]. unfold norm, fin_out. cbn [l0 l1 l2 l3 l4].
  intros (H0 & H1 & H2 & H3 & H4) Hk Hl.
  rewrite words_value by (rewrite ?length_drop; auto with sshdb lia).
  rewrite !drop_drop. cbn [plus].
  pose proof (U8TO32_LE_range (drop 16 key) ltac:(auto with sshdb)) as K0.
  pose proof (U8TO32_LE_range (drop 20 key) ltac:(auto with sshdb)) as K1.
  pose proof (U8TO32_LE_range (drop 24 key) ltac:(auto with sshdb)) as K2.
  pose proof (U8TO32_LE_range (drop 28 key) ltac:(auto with sshdb)) as K3.
  pose proof (join_word h0 h1 0 ltac:(lia) H0 ltac:(lia)) as J0.
  pose proof (join_word h1 h2 6 ltac:(lia) H1 ltac:(lia)) as J1.
  pose proof (join_word h2 h3 12 ltac:(lia) H2 ltac:(lia)) as J2.
  pose proof (join_word h3 h4 18 ltac:(lia) H3 ltac:(lia)) as J3.
  rewrite Z.shiftr_0_r, Z.div_1_r in J0.
  change (6 + 0) with 6 in *. change (26 - 0) with 26 in *. change (6 + 6) with 12 in *.
  change (26 - 6) with 20 in *. change (6 + 12) with 18 in *. change (26 - 12) with 14 in *.
  change (6 + 18) with 24 in *. change (26 - 18) with 8 in *.
  rewrite J0, J1, J2, J3.
  rewrite add_words by dm_lia. rewrite words_of_limbs by done.
  change 128 with (8 * Z.of_nat 16). rewrite <- (le_bytes_mod 16), <- (le_bytes_mod 16 ((_ + _) mod _)).
  rewrite Z.mod_mod by done. f_equal. change (8 * Z.of_nat 16) with 128. unfold V. cbn [l0 l1 l2 l3 l4].
  pose proof (Z.div_mod h4 (2 ^ 24) ltac:(lia)) as D.
  rewrite D at 2.
  match goal with |- ?x mod _ = ?y mod _ => replace y with (x + (h4 / 2 ^ 24) * 2 ^ 128) by lia end.
  by rewrite Z.mod_add by done.
Qed.

(** What callers of [poly1305_auth] rely on. *)
Lemma poly1305_auth_tag m key :
  bytes_ok m -> bytes_ok key -> length key = POLY1305_KEYLEN ->
  poly1305_auth m key = poly1305_spec m key.
Proof.
  unfold POLY1305_KEYLEN. intros Hm Hk Hl. unfold poly1305_auth, poly1305_spec, finish.
  destruct (clamp_spec key) as [Hr Vr]; [done|lia|]. fold RMASK. rewrite <- Vr.
  assert (H0 : small (mk_limbs 0 0 0 0 0)) by (unfold small, HB; cbn [l0 l1 l2 l3 l4]; lia).
  pose proof (blocks_spec (clamp key) Hr (S (length m)) _ m ltac:(lia) H0 Hm) as B.
  destruct (full_blocks _ _ _ m) as [h m']. destruct B as [Bs Bv].
  change (V (mk_limbs 0 0 0 0 0) mod P1305) with 0 in Bv. rewrite <- Bv.
  destruct (fin_carry_spec _ Bs) as (Cn & b & Cv). destruct (fin_reduce_spec _ Cn) as [Rn Rv].
  rewrite fin_out_spec by done. rewrite Rv, Cv. do 3 f_equal.
  replace (_ - b * P1305) with (V (last_block h (clamp key) m') + (- b) * P1305) by lia.
  by rewrite Z.mod_add by done.
Qed.

(** C7: the tag computed with 26-bit limbs and wrapping 32- and 64-bit words is
    the one of RFC 8439: the blocks of the message, each with its end marker,
    are the coefficients of a polynomial evaluated at the clamped first half of
    the key modulo 2^130 - 5, and the second half of the key is added modulo
    2^128. *)
Theorem poly1305_auth_correct m key :
  bytes_ok m -> bytes_ok key -> length key = POLY1305_KEYLEN ->
  poly1305_auth m key = poly1305_spec m key.
Proof. apply poly1305_auth_tag. Qed.

Lemma poly1305_auth_correct_witness :
  poly1305_auth [1; 2; 3] (replicate 32 0x85) = poly1305_spec [1; 2; 3] (replicate 32 0x85).
Proof.
  apply (poly1305_auth_correct [1; 2; 3] (replicate 32 0x85)).
  - repeat constructor; done.
  - apply Forall_replicate. done.
  - done.
Defined.
