(* ===== verification/Chacha.v ===== *)
(** The ChaCha20 stream cipher of chacha.c.

    A context is the array of sixteen 32-bit words of the C structure: four
    constants, eight key words, a 64-bit block counter in words 12 and 13 and a
    64-bit nonce in words 14 and 15.  The model keeps the code's in-place rounds
    on the array, the counter's carry between its two words, and the scratch
    block [tmp] the last partial block goes through, whose tail is uninitialised
    stack memory.  The result is that the output is the input combined by
    exclusive or with a key stream in which block [i] depends on the context's
    counter plus [i] modulo 2^64 only. *)

From stdpp Require Import base list numbers tactics.
From Stdlib Require Import ZArith Lia ZifyBool.
From S2P Require Import Prelude Poly1305.

Record chacha_ctx := mk_ctx { input : list Z }.

Definition CHACHA_BLOCKLEN : nat := 64.

Definition ROTL32 (v n : Z) : Z := Z.lor (u32 (Z.shiftl v n)) (Z.shiftr v (32 - n)).

Definition U8TO32_LITTLE (p : list Z) : Z :=
  Z.lor (Z.lor (Z.lor (byte_at p 0) (u32 (Z.shiftl (byte_at p 1) 8)))
    (u32 (Z.shiftl (byte_at p 2) 16))) (u32 (Z.shiftl (byte_at p 3) 24)).

Definition U32TO8_LITTLE (v : Z) : list Z :=
  [u8 v; u8 (Z.shiftr v 8); u8 (Z.shiftr v 16); u8 (Z.shiftr v 24)].

Definition ROTATE (v c : Z) : Z := ROTL32 v c.
Definition XOR (v w : Z) : Z := Z.lxor v w.
Definition PLUS (v w : Z) : Z := u32 (v + w).
Definition PLUSONE (v : Z) : Z := PLUS v 1.

(** Word [i] of the array [x]. *)
Definition X (x : list Z) (i : nat) : Z := default 0 (x !! i).

Definition QUARTERROUND (a b c d : nat) (x : list Z) : list Z :=
  let x := <[a := PLUS (X x a) (X x b)]> x in
  let x := <[d := ROTATE (XOR (X x d) (X x a)) 16]> x in
  let x := <[c := PLUS (X x c) (X x d)]> x in
  let x := <[b := ROTATE (XOR (X x b) (X x c)) 12]> x in
  let x := <[a := PLUS (X x a) (X x b)]> x in
  let x := <[d := ROTATE (XOR (X x d) (X x a)) 8]> x in
  let x := <[c := PLUS (X x c) (X x d)]> x in
  <[b := ROTATE (XOR (X x b) (X x c)) 7]> x.

(** "expand 32-byte k" and "expand 16-byte k" *)
Definition sigma : list Z :=
  [0x65; 0x78; 0x70; 0x61; 0x6e; 0x64; 0x20; 0x33; 0x32; 0x2d; 0x62; 0x79; 0x74; 0x65; 0x20; 0x6b].
Definition tau : list Z :=
  [0x65; 0x78; 0x70; 0x61; 0x6e; 0x64; 0x20; 0x31; 0x36; 0x2d; 0x62; 0x79; 0x74; 0x65; 0x20; 0x6b].

Definition chacha_keysetup (x : chacha_ctx) (k : list Z) (kbits : Z) : chacha_ctx :=
  let x := input x in
  let x := <[4%nat := U8TO32_LITTLE k]> x in
  let x := <[5%nat := U8TO32_LITTLE (drop 4 k)]> x in
  let x := <[6%nat := U8TO32_LITTLE (drop 8 k)]> x in
  let x := <[7%nat := U8TO32_LITTLE (drop 12 k)]> x in
  let '(k, constants) := if kbits =? 256 then (drop 16 k, sigma) else (k, tau) in
  let x := <[8%nat := U8TO32_LITTLE k]> x in
  let x := <[9%nat := U8TO32_LITTLE (drop 4 k)]> x in
  let x := <[10%nat := U8TO32_LITTLE (drop 8 k)]> x in
  let x := <[11%nat := U8TO32_LITTLE (drop 12 k)]> x in
  let x := <[0%nat := U8TO32_LITTLE constants]> x in
  let x := <[1%nat := U8TO32_LITTLE (drop 4 constants)]> x in
  let x := <[2%nat := U8TO32_LITTLE (drop 8 constants)]> x in
  mk_ctx (<[3%nat := U8TO32_LITTLE (drop 12 constants)]> x).

Definition chacha_ivsetup (x : chacha_ctx) (iv : list Z) (counter : option (list Z)) : chacha_ctx :=
  let x := input x in
  let x := <[12%nat := match counter with None => 0 | Some c => U8TO32_LITTLE c end]> x in
  let x := <[13%nat := match counter with None => 0 | Some c => U8TO32_LITTLE (drop 4 c) end]> x in
  let x := <[14%nat := U8TO32_LITTLE iv]> x in
  mk_ctx (<[15%nat := U8TO32_LITTLE (drop 4 iv)]> x).

(** The body of the round loop: four columns, four diagonals. *)
Definition double_round (x : list Z) : list Z :=
  let x := QUARTERROUND 0 4 8 12 x in
  let x := QUARTERROUND 1 5 9 13 x in
  let x := QUARTERROUND 2 6 10 14 x in
  let x := QUARTERROUND 3 7 11 15 x in
  let x := QUARTERROUND 0 5 10 15 x in
  let x := QUARTERROUND 1 6 11 12 x in
  let x := QUARTERROUND 2 7 8 13 x in
  QUARTERROUND 3 4 9 14 x.

(** [for (i = 20; i > 0; i -= 2)], then the addition of the words [j]. *)
Definition chacha_block (j : list Z) : list Z :=
  zip_with PLUS (Nat.iter 10 double_round j) j.

(** [x_i = XOR(x_i, U8TO32_LITTLE(m + 4 * i))] and the stores to [c]. *)
Definition xor_block (x m : list Z) : list Z :=
  flat_map U32TO8_LITTLE
    (zip_with XOR x (map (fun i => U8TO32_LITTLE (drop (4 * i) m)) (seq 0 16))).

Definition next_counter (j : list Z) : list Z :=
  let j := <[12%nat := PLUSONE (X j 12)]> j in
  if X j 12 =? 0 then <[13%nat := PLUSONE (X j 13)]> j else j.

(** The loop over the blocks: the final words [j] and what was written to [c].
    [tmp] is the scratch block of the stack.  Each block of [m] is read before
    the same block of [c] is written, so that [c] may be [m]. *)
Fixpoint encrypt_loop (fuel : nat) (tmp j m : list Z) (bytes : nat) : list Z * list Z :=
  match fuel with
  | O => (j, [])
  | S fuel =>
      let mb := if (bytes <? 64)%nat then take bytes m ++ drop bytes tmp else m in
      let c := xor_block (chacha_block j) mb in
      let j := next_counter j in
      if (bytes <=? 64)%nat then (j, take bytes c)
      else
        let '(j, rest) := encrypt_loop fuel tmp j (drop 64 m) (bytes - 64) in
        (j, c ++ rest)
  end.

Definition chacha_encrypt_bytes (x : chacha_ctx) (tmp m : list Z) (bytes : nat)
  : chacha_ctx * list Z :=
  if (bytes =? 0)%nat then (x, [])
  else
    let '(j, c) := encrypt_loop (S bytes) tmp (input x) m bytes in
    (mk_ctx (<[13%nat := X j 13]> (<[12%nat := X j 12]> (input x))), c).

(** The block function on the test vector of RFC 8439, section 2.3.2. *)
Example chacha_block_rfc8439 :
  chacha_block
    [0x61707865; 0x3320646e; 0x79622d32; 0x6b206574; 0x03020100; 0x07060504; 0x0b0a0908; 0x0f0e0d0c;
     0x13121110; 0x17161514; 0x1b1a1918; 0x1f1e1d1c; 0x00000001; 0x09000000; 0x4a000000; 0x00000000] =
    [0xe4e7f110; 0x15593bd1; 0x1fdd0f50; 0xc47120a3; 0xc7f4d1c7; 0x0368c033; 0x9aaa2204; 0x4e6cd4c3;
     0x466482d2; 0x09aa9f07; 0x05d7c214; 0xa2028bd9; 0xd19c12b5; 0xb94e16de; 0xe883d0cb; 0x4e3c50a2].
Proof. vm_compute. reflexivity. Qed.

(** ** The specification *)

Definition is_word (v : Z) : Prop := 0 <= v < 2 ^ 32.

Definition ctx_ok (x : chacha_ctx) : Prop := length (input x) = 16%nat /\ Forall is_word (input x).

Definition ctx_counter (j : list Z) : Z := X j 12 + 2 ^ 32 * X j 13.

Definition with_counter (j : list Z) (c : Z) : list Z :=
  <[13%nat := (c / 2 ^ 32) mod 2 ^ 32]> (<[12%nat := c mod 2 ^ 32]> j).

Definition nblocks (bytes : nat) : nat := ((bytes + 63) / 64)%nat.

(** Block [i] of the key stream of the words [j], and the first [n] blocks. *)
Definition ks_block (j : list Z) (i : nat) : list Z :=
  flat_map U32TO8_LITTLE (chacha_block (with_counter j (ctx_counter j + Z.of_nat i))).

Definition keystream (j : list Z) (n : nat) : list Z := flat_map (ks_block j) (seq 0 n).

(** Octet by octet exclusive or, cut to the shorter argument. *)
Definition xor_bytes (k m : list Z) : list Z := zip_with Z.lxor k m.

(** ** Octets and words *)

Lemma U8TO32_bytes p : bytes_ok p -> (4 <= length p)%nat -> U32TO8_LITTLE (U8TO32_LITTLE p) = take 4 p.
Proof.
  intros Hp Hl. change (U8TO32_LITTLE p) with (U8TO32_LE p). change U32TO8_LITTLE with U32TO8_LE.
  rewrite U8TO32_LE_value, U32TO8_LE_bytes by done.
  do 4 (destruct p as [|? p]; [cbn in Hl; lia|]). cbn [firstn]. rewrite take_0.
  apply Forall_cons_1 in Hp as [B0 Hp]. apply Forall_cons_1 in Hp as [B1 Hp].
  apply Forall_cons_1 in Hp as [B2 Hp]. apply Forall_cons_1 in Hp as [B3 Hp]. unfold is_byte in *.
  unfold byte_at. cbn [le_bytes lookup list_lookup default from_option id]. unfold id.
  repeat f_equal; dm_lia.
Qed.

Lemma U32TO8_xor v w : U32TO8_LITTLE (XOR v w) = xor_bytes (U32TO8_LITTLE v) (U32TO8_LITTLE w).
Proof. unfold U32TO8_LITTLE, XOR, xor_bytes. cbn [zip_with]. by rewrite !Z.shiftr_lxor, !u8_lxor. Qed.

Lemma xor_bytes_app a b c d :
  length a = length c -> xor_bytes (a ++ b) (c ++ d) = xor_bytes a c ++ xor_bytes b d.
Proof. apply zip_with_app. Qed.

Lemma xor_words x k m :
  bytes_ok m -> (4 * (k + length x) <= length m)%nat ->
  flat_map U32TO8_LITTLE
    (zip_with XOR x (map (fun i => U8TO32_LITTLE (drop (4 * i) m)) (seq k (length x)))) =
  xor_bytes (flat_map U32TO8_LITTLE x) (drop (4 * k) m).
Proof.
  intros Hm. revert k. induction x as [|v x IH]; intros k Hl; [done|].
  cbn [length seq map zip_with flat_map] in *. rewrite IH by lia.
  rewrite U32TO8_xor, U8TO32_bytes by (rewrite ?length_drop; auto with sshdb lia).
  rewrite <- (take_drop 4 (drop (4 * k) m)) at 2.
  rewrite xor_bytes_app by (rewrite length_take, length_drop; cbn [length U32TO8_LITTLE]; lia).
  rewrite drop_drop. do 3 f_equal. lia.
Qed.

Lemma length_QUARTERROUND a b c d x : length (QUARTERROUND a b c d x) = length x.
Proof.
  unfold QUARTERROUND. intros.
  repeat match goal with |- context [let y := ?e in _] => set (y := e) end.
  repeat (etransitivity; [apply length_insert|]). done.
Qed.

Lemma length_double_round x : length (double_round x) = length x.
Proof. unfold double_round. by rewrite !length_QUARTERROUND. Qed.

Lemma length_chacha_block j : length (chacha_block j) = length j.
Proof.
  unfold chacha_block. rewrite length_zip_with.
  assert (H : forall n, length (Nat.iter n double_round j) = length j).
  { intros n. induction n as [|n IH]; [done|]. cbn. by rewrite length_double_round. }
  rewrite H. lia.
Qed.

Lemma length_words x : length (flat_map U32TO8_LITTLE x) = (4 * length x)%nat.
Proof. induction x as [|v x IH]; [done|]. cbn [flat_map length]. rewrite length_app, IH. cbn. lia. Qed.

Lemma xor_block_spec j m :
  length j = 16%nat -> bytes_ok m -> (64 <= length m)%nat ->
  xor_block (chacha_block j) m = xor_bytes (flat_map U32TO8_LITTLE (chacha_block j)) m.
Proof.
  intros Hj Hm Hl. unfold xor_block.
  pose proof (xor_words (chacha_block j) 0 m Hm) as H. rewrite length_chacha_block, Hj in H.
  rewrite H by lia. by rewrite drop_0.
Qed.

Lemma xor_bytes_take n a b : take n (xor_bytes a b) = xor_bytes a (take n b).
Proof.
  revert a b. induction n as [|n IH]; intros [|x a] [|y b]; cbn; try done. by f_equal.
Qed.

Lemma xor_bytes_involutive k m : (length m <= length k)%nat -> xor_bytes k (xor_bytes k m) = m.
Proof.
  revert m. induction k as [|x k IH]; intros [|y m] Hl; cbn in *; try done; [lia|].
  f_equal; [|apply IH; lia]. by rewrite <- Z.lxor_assoc, Z.lxor_nilpotent, Z.lxor_0_l.
Qed.

Lemma length_xor_bytes k m : (length m <= length k)%nat -> length (xor_bytes k m) = length m.
Proof. intros. unfold xor_bytes. rewrite length_zip_with. lia. Qed.

(** ** The counter *)

Definition words_ok (j : list Z) : Prop := length j = 16%nat /\ Forall is_word j.

Lemma X_word j i : Forall is_word j -> 0 <= X j i < 2 ^ 32.
Proof.
  intros H. unfold X. destruct (j !! i) as [v|] eqn:E; cbn; [|lia].
  rewrite Forall_lookup in H. by apply H in E.
Qed.

Lemma X_insert j a b v :
  (a < length j)%nat -> X (<[a := v]> j) b = if decide (a = b) then v else X j b.
Proof.
  intros. unfold X. case_decide as E.
  - subst b. by rewrite list_lookup_insert_eq.
  - by rewrite list_lookup_insert_ne.
Qed.

Lemma insert_X (j : list Z) i v : (i < length j)%nat -> v = X j i -> <[i := v]> j = j.
Proof.
  intros Hi ->. apply list_insert_id. unfold X. destruct (j !! i) as [v|] eqn:E; [done|].
  apply lookup_ge_None in E. lia.
Qed.

Lemma with_counter_ok j c : words_ok j -> words_ok (with_counter j c).
Proof.
  intros [Hl Hf]. split; unfold with_counter; [by rewrite !length_insert|].
  apply Forall_insert; [apply Forall_insert; [done|]|]; unfold is_word; apply Z.mod_pos_bound; lia.
Qed.

Lemma ctx_counter_with j c : length j = 16%nat -> ctx_counter (with_counter j c) = c mod 2 ^ 64.
Proof.
  intros Hl. unfold ctx_counter, with_counter.
  rewrite !X_insert by (rewrite ?length_insert; lia).
  rewrite (decide_True _ _ (eq_refl 13%nat)), (decide_False _ _), (decide_True _ _ (eq_refl 12%nat)) by done.
  change (2 ^ 64) with (2 ^ 32 * 2 ^ 32). rewrite Z.rem_mul_r by lia. done.
Qed.

Lemma with_counter_twice j c d : with_counter (with_counter j c) d = with_counter j d.
Proof.
  unfold with_counter. rewrite (list_insert_insert_ne _ 12 13) by done.
  by rewrite !list_insert_insert_eq.
Qed.

Lemma with_counter_mod j c d : c mod 2 ^ 64 = d mod 2 ^ 64 -> with_counter j c = with_counter j d.
Proof.
  intros E. unfold with_counter.
  assert (forall x, x mod 2 ^ 32 = (x mod 2 ^ 64) mod 2 ^ 32 /\
          (x / 2 ^ 32) mod 2 ^ 32 = (x mod 2 ^ 64) / 2 ^ 32) as H by (intros; dm_lia).
  destruct (H c) as [-> ->], (H d) as [-> ->]. by rewrite E.
Qed.

Lemma with_counter_self j : words_ok j -> with_counter j (ctx_counter j) = j.
Proof.
  intros [Hl Hf]. pose proof (X_word j 12 Hf). pose proof (X_word j 13 Hf).
  unfold with_counter, ctx_counter.
  rewrite (insert_X j 12) by (try lia; dm_lia). rewrite insert_X; [done|lia|dm_lia].
Qed.

Lemma next_counter_spec j : words_ok j -> next_counter j = with_counter j (ctx_counter j + 1).
Proof.
  intros [Hl Hf]. pose proof (X_word j 12 Hf) as H12. pose proof (X_word j 13 Hf) as H13.
  unfold next_counter, with_counter, ctx_counter, PLUSONE, PLUS, u32.
  rewrite !X_insert by lia.
  rewrite (decide_True _ _ (eq_refl 12%nat)), decide_False by done.
  replace ((X j 12 + 2 ^ 32 * X j 13 + 1) mod 2 ^ 32) with ((X j 12 + 1) mod 2 ^ 32) by dm_lia.
  destruct ((X j 12 + 1) mod 2 ^ 32 =? 0) eqn:E.
  - f_equal. dm_lia.
  - rewrite (insert_X _ 13); [done|rewrite length_insert; lia|].
    rewrite X_insert by lia. rewrite decide_False by done. dm_lia.
Qed.

Lemma next_counter_ok j : words_ok j -> words_ok (next_counter j).
Proof. intros. rewrite next_counter_spec by done. by apply with_counter_ok. Qed.

(** Moving the counter on, then counting from there. *)
Lemma with_next_counter j c :
  words_ok j ->
  with_counter (next_counter j) (ctx_counter (next_counter j) + c) =
    with_counter j (ctx_counter j + (1 + c)).
Proof.
  intros Hj. rewrite next_counter_spec, with_counter_twice by done. apply with_counter_mod.
  rewrite ctx_counter_with by apply Hj. rewrite Z.add_mod_idemp_l by done. f_equal. lia.
Qed.

Lemma keystream_S j n :
  words_ok j ->
  keystream j (S n) = flat_map U32TO8_LITTLE (chacha_block j) ++ keystream (next_counter j) n.
Proof.
  intros Hj. unfold keystream. cbn [seq flat_map]. f_equal.
  - unfold ks_block. rewrite Z.add_0_r, with_counter_self by done. done.
  - rewrite <- seq_shift, flat_map_concat_map, map_map, flat_map_concat_map. f_equal.
    apply map_ext. intros i. unfold ks_block. rewrite with_next_counter by done. do 4 f_equal. lia.
Qed.

Lemma length_ks_words j : words_ok j -> length (flat_map U32TO8_LITTLE (chacha_block j)) = 64%nat.
Proof. intros [Hl _]. by rewrite length_words, length_chacha_block, Hl. Qed.

Lemma length_keystream j n : words_ok j -> length (keystream j n) = (64 * n)%nat.
Proof.
  revert j. induction n as [|n IH]; intros j Hj; [done|].
  rewrite keystream_S, length_app, length_ks_words, IH by auto using next_counter_ok. lia.
Qed.

Lemma nblocks_small bytes : (0 < bytes <= 64)%nat -> nblocks bytes = 1%nat.
Proof. intros. unfold nblocks. symmetry. apply (Nat.div_unique _ _ 1 (bytes - 1)); lia. Qed.

Lemma nblocks_step bytes : (64 < bytes)%nat -> nblocks bytes = S (nblocks (bytes - 64)).
Proof.
  intros. unfold nblocks. replace (bytes + 63)%nat with ((bytes - 64 + 63) + 1 * 64)%nat by lia.
  rewrite Nat.div_add by lia. lia.
Qed.

Lemma nblocks_covers bytes : (bytes <= 64 * nblocks bytes)%nat.
Proof. unfold nblocks. pose proof (Nat.div_mod_eq (bytes + 63) 64). pose proof (Nat.mod_upper_bound (bytes + 63) 64). lia. Qed.

(** The last block: what the tail of [tmp] holds does not matter. *)
Lemma partial_block tmp j m bytes :
  words_ok j -> bytes_ok m -> bytes_ok tmp -> length tmp = 64%nat ->
  (bytes <= 64)%nat -> (bytes <= length m)%nat ->
  take bytes (xor_block (chacha_block j)
    (if (bytes <? 64)%nat then take bytes m ++ drop bytes tmp else m)) =
  xor_bytes (flat_map U32TO8_LITTLE (chacha_block j)) (take bytes m).
Proof.
  intros Hj Hm Ht Htl Hb Hl. destruct (bytes <? 64)%nat eqn:E.
  - rewrite xor_block_spec; [|apply Hj|apply bytes_ok_app; auto with sshdb|].
    2:{ rewrite length_app, length_take, length_drop. lia. }
    rewrite xor_bytes_take. f_equal. rewrite take_app_le by (rewrite length_take; lia).
    rewrite take_take. f_equal. lia.
  - rewrite xor_block_spec by (first [apply Hj|done|lia]). by rewrite xor_bytes_take.
Qed.

Lemma encrypt_loop_spec fuel tmp j m bytes :
  words_ok j -> bytes_ok m -> bytes_ok tmp -> length tmp = 64%nat ->
  (0 < bytes < fuel)%nat -> (bytes <= length m)%nat ->
  encrypt_loop fuel tmp j m bytes =
    (with_counter j (ctx_counter j + Z.of_nat (nblocks bytes)),
     xor_bytes (keystream j (nblocks bytes)) (take bytes m)).
Proof.
  intros Hj Hm Ht Htl. revert j m bytes Hj Hm.
  induction fuel as [|fuel IH]; intros j m bytes Hj Hm Hb Hl; [lia|]. cbn [encrypt_loop].
  destruct (bytes <=? 64)%nat eqn:E.
  - rewrite partial_block by (done || lia). rewrite nblocks_small by lia.
    rewrite next_counter_spec by done. f_equal.
    rewrite keystream_S by done. cbn [keystream seq flat_map]. by rewrite app_nil_r.
  - assert ((bytes <? 64)%nat = false) as -> by lia.
    rewrite IH by (rewrite ?length_drop; auto using next_counter_ok with sshdb lia).
    rewrite (nblocks_step bytes) by lia. f_equal.
    + rewrite with_next_counter by done. f_equal. lia.
    + rewrite keystream_S by done. rewrite xor_block_spec by (first [apply Hj|done|lia]).
      rewrite <- (take_drop 64 (take bytes m)).
      rewrite xor_bytes_app.
      2:{ rewrite length_ks_words, length_take, length_take by done. lia. }
      f_equal.
      * rewrite take_take, Nat.min_l by lia. rewrite <- xor_bytes_take.
        symmetry. apply take_ge. unfold xor_bytes. rewrite length_zip_with, length_ks_words by done. lia.
      * f_equal. rewrite skipn_firstn_comm. done.
Qed.

(** What the caller sees. *)
Lemma chacha_encrypt_spec x tmp m bytes :
  ctx_ok x -> bytes_ok m -> bytes_ok tmp -> length tmp = 64%nat -> (bytes <= length m)%nat ->
  chacha_encrypt_bytes x tmp m bytes =
    (mk_ctx (with_counter (input x) (ctx_counter (input x) + Z.of_nat (nblocks bytes))),
     xor_bytes (keystream (input x) (nblocks bytes)) (take bytes m)).
Proof.
  intros Hx Hm Ht Htl Hl. unfold chacha_encrypt_bytes. destruct (bytes =? 0)%nat eqn:E.
  - apply Nat.eqb_eq in E as ->. change (nblocks 0) with 0%nat. rewrite Z.add_0_r, with_counter_self by done.
    destruct x. by rewrite take_0.
  - rewrite encrypt_loop_spec by (done || lia). do 2 f_equal.
    set (c := ctx_counter _ + _). unfold with_counter at 1 2.
    destruct Hx as [Hx _]. rewrite !X_insert by (rewrite ?length_insert; lia).
    rewrite !decide_True by done. rewrite decide_False by done. done.
Qed.

Lemma is_byte_lxor a b : is_byte a -> is_byte b -> is_byte (Z.lxor a b).
Proof.
  unfold is_byte. intros Ha Hb. change 256 with (2 ^ 8) in *.
  assert (H : Z.lxor a b = u8 (Z.lxor a b)).
  { rewrite u8_lxor. unfold u8. rewrite !Z.mod_small by done. done. }
  rewrite H. apply Z.mod_pos_bound. lia.
Qed.

Lemma bytes_ok_xor k m : bytes_ok k -> bytes_ok m -> bytes_ok (xor_bytes k m).
Proof.
  intros Hk. revert m. induction Hk as [|x k Hx Hk IH]; intros [|y m] Hm; try constructor.
  - apply is_byte_lxor; [done|]. by inversion Hm.
  - apply IH. by inversion Hm.
Qed.

Lemma bytes_ok_words x : bytes_ok (flat_map U32TO8_LITTLE x).
Proof.
  induction x as [|v x IH]; [constructor|]. cbn [flat_map]. apply bytes_ok_app. split; [|done].
  unfold U32TO8_LITTLE, u8, is_byte. repeat constructor; apply Z.mod_pos_bound; lia.
Qed.

Lemma bytes_ok_keystream j n : bytes_ok (keystream j n).
Proof.
  unfold keystream. generalize 0%nat. induction n as [|n IH]; intros k; [constructor|].
  cbn [seq flat_map]. apply bytes_ok_app. split; [apply bytes_ok_words|apply IH].
Qed.

#[export] Hint Resolve bytes_ok_xor bytes_ok_words bytes_ok_keystream : sshdb.

Lemma keystream_app j a b :
  words_ok j ->
  keystream j (a + b) =
    keystream j a ++ keystream (with_counter j (ctx_counter j + Z.of_nat a)) b.
Proof.
  revert j. induction a as [|a IH]; intros j Hj.
  - cbn [plus keystream seq flat_map app]. by rewrite Z.add_0_r, with_counter_self.
  - cbn [plus]. rewrite !keystream_S, IH, <- app_assoc by auto using next_counter_ok.
    rewrite with_next_counter by done. do 4 f_equal. lia.
Qed.

(** C36: encrypting [m] writes its exclusive or with the key stream of the
    context, whatever the uninitialised part of the scratch block holds; the
    context's 64-bit block counter (two words with a carry) advances by the
    number of blocks started, modulo 2^64, the rest of the context is
    unchanged; and the same call on the result gives [m] back. *)
Theorem chacha_encrypt_correct x tmp m :
  ctx_ok x -> bytes_ok m -> bytes_ok tmp -> length tmp = CHACHA_BLOCKLEN ->
  let '(x', c) := chacha_encrypt_bytes x tmp m (length m) in
  c = xor_bytes (keystream (input x) (nblocks (length m))) m /\
  length c = length m /\
  input x' = with_counter (input x) (ctx_counter (input x) + Z.of_nat (nblocks (length m))) /\
  ctx_ok x' /\
  snd (chacha_encrypt_bytes x tmp c (length c)) = m.
Proof.
  intros Hx Hm Ht Hl. rewrite chacha_encrypt_spec by done. rewrite firstn_all.
  pose proof (nblocks_covers (length m)) as Hc. pose proof (length_keystream (input x) (nblocks (length m)) Hx).
  set (k := keystream _ _) in *.
  assert (Hlen : length (xor_bytes k m) = length m) by (apply length_xor_bytes; lia).
  repeat split; try done; try (apply with_counter_ok; done).
  rewrite chacha_encrypt_spec by (unfold k; auto with sshdb). cbn [snd].
  rewrite firstn_all, Hlen. apply xor_bytes_involutive. lia.
Qed.

(** Key 0..31, nonce 0..7 and a counter one before its low word wraps. *)
Definition demo_ctx : chacha_ctx :=
  chacha_ivsetup (chacha_keysetup (mk_ctx (replicate 16 0)) (map Z.of_nat (seq 0 32)) 256)
    (map Z.of_nat (seq 0 8)) (Some [0xff; 0xff; 0xff; 0xff; 7; 0; 0; 0]).

Lemma demo_ctx_ok : ctx_ok demo_ctx.
Proof.
  split; [vm_compute; reflexivity|]. apply (bool_decide_unpack _).
  vm_compute. exact I.
Qed.

Lemma chacha_encrypt_correct_witness :
  let m := map Z.of_nat (seq 1 70) in
  let '(x', c) := chacha_encrypt_bytes demo_ctx (replicate 64 170) m (length m) in
  snd (chacha_encrypt_bytes demo_ctx (replicate 64 170) c (length c)) = m /\
  X (input x') 12 = 1 /\ X (input x') 13 = 8.
Proof.
  pose proof (chacha_encrypt_correct demo_ctx (replicate 64 170) (map Z.of_nat (seq 1 70))
    demo_ctx_ok ltac:(apply (bool_decide_unpack _); vm_compute; exact I)
    ltac:(apply (bool_decide_unpack _); vm_compute; exact I) eq_refl) as H.
  cbv zeta in *. destruct (chacha_encrypt_bytes _ _ _ _) as [x' c].
  destruct H as (_ & _ & Hi & _ & Hm). split; [exact Hm|].
  rewrite Hi. split; vm_compute; reflexivity.
Defined.

(** The context carries the position in the key stream: after whole blocks,
    a second call goes on where the first stopped, so that two calls produce
    what one call on the joined message produces, and leave the same context. *)
Theorem chacha_encrypt_continues x tmp m1 m2 n :
  ctx_ok x -> bytes_ok m1 -> bytes_ok m2 -> bytes_ok tmp -> length tmp = CHACHA_BLOCKLEN ->
  length m1 = (CHACHA_BLOCKLEN * n)%nat ->
  let '(x1, c1) := chacha_encrypt_bytes x tmp m1 (length m1) in
  let '(x2, c2) := chacha_encrypt_bytes x1 tmp m2 (length m2) in
  chacha_encrypt_bytes x tmp (m1 ++ m2) (length (m1 ++ m2)) = (x2, c1 ++ c2).
Proof.
  unfold CHACHA_BLOCKLEN. intros Hx H1 H2 Ht Hl Hn.
  pose proof (with_counter_ok (input x) (ctx_counter (input x) + Z.of_nat (nblocks (length m1))) Hx) as Hx1.
  rewrite chacha_encrypt_spec by done.
  rewrite chacha_encrypt_spec by done. rewrite chacha_encrypt_spec by (done || by apply bytes_ok_app).
  rewrite !firstn_all. cbn [input] in *.
  assert (B1 : nblocks (length m1) = n).
  { unfold nblocks. rewrite Hn. symmetry. apply (Nat.div_unique _ _ _ 63); lia. }
  assert (B2 : nblocks (length (m1 ++ m2)) = (n + nblocks (length m2))%nat).
  { unfold nblocks. rewrite length_app, Hn. rewrite <- Nat.div_add_l by lia. f_equal. lia. }
  rewrite B1, B2. f_equal.
  - f_equal. rewrite with_counter_twice. apply with_counter_mod. rewrite ctx_counter_with by apply Hx.
    rewrite Z.add_mod_idemp_l by done. f_equal. lia.
  - rewrite keystream_app by done. apply xor_bytes_app. by rewrite length_keystream, Hn.
Qed.

Lemma chacha_encrypt_continues_witness :
  let m1 := replicate 64 1 in let m2 := replicate 70 2 in let tmp := replicate 64 170 in
  let '(x1, c1) := chacha_encrypt_bytes demo_ctx tmp m1 (length m1) in
  let '(x2, c2) := chacha_encrypt_bytes x1 tmp m2 (length m2) in
  chacha_encrypt_bytes demo_ctx tmp (m1 ++ m2) (length (m1 ++ m2)) = (x2, c1 ++ c2).
Proof.
  apply (chacha_encrypt_continues demo_ctx (replicate 64 170) (replicate 64 1) (replicate 70 2) 1);
    [exact demo_ctx_ok|apply Forall_replicate; done|apply Forall_replicate; done
    |apply Forall_replicate; done|reflexivity|reflexivity].
Defined.
