(* ===== verification/Chachapoly.v ===== *)
(** The chacha20-poly1305@openssh.com cipher of cipher-chachapoly.c.

    A packet is a header ([aadlen] octets: the encrypted packet length), a body
    of [len] octets and a tag.  The header and the body are encrypted under two
    keys, the tag covers both ciphertexts and its one-time key is the first
    block of the body's key stream.  The file models the operations on top of
    [Chacha] and [Poly1305] and shows that opening a packet is exactly the check
    of the Poly1305 tag of RFC 8439 followed by the inverse of sealing. *)

From stdpp Require Import base list numbers tactics.
From Stdlib Require Import ZArith Lia ZifyBool.
From S2P Require Import Prelude Sshbuf SshbufGetput Poly1305 Chacha.

Record chachapoly_ctx := mk_cp { main_ctx : chacha_ctx; header_ctx : chacha_ctx }.

Definition zero_ctx : chacha_ctx := mk_ctx (replicate 16 0).

Definition chachapoly_new (w : world) (key : list Z) (keylen : Z)
  : option chachapoly_ctx * world :=
  if negb (keylen =? 32 + 32) then (None, w)
  else
    let '(ok, w) := malloc w in
    if negb ok then (None, w)
    else (Some (mk_cp (chacha_keysetup zero_ctx key 256)
                      (chacha_keysetup zero_ctx (drop 32 key) 256)), w).

Definition one : list Z := [1; 0; 0; 0; 0; 0; 0; 0].

(** [tmp] is the stack memory of the cipher's scratch block; [dest] and [src]
    are the memory the pointers lead to.  [aadlen + len] is computed in 32 bits
    where it is an argument and as an address where it is added to a pointer. *)
Definition chachapoly_crypt (tmp : list Z) (ctx : chachapoly_ctx) (seqnr : Z) (dest src : list Z)
    (len aadlen authlen : Z) (do_encrypt : bool) : Z * chachapoly_ctx * list Z :=
  let seqbuf := POKE_U64 seqnr in
  let main := chacha_ivsetup (main_ctx ctx) seqbuf None in
  let '(main, poly_key) := chacha_encrypt_bytes main tmp (replicate 32 0) 32 in
  let bad_tag :=
    if do_encrypt then false
    else
      let tag := drop (Z.to_nat (aadlen + len)) src in
      let expected_tag := poly1305_auth (take (Z.to_nat (u32 (aadlen + len))) src) poly_key in
      negb (timingsafe_bcmp expected_tag tag POLY1305_TAGLEN =? 0) in
  if bad_tag then (SSH_ERR_MAC_INVALID, mk_cp main (header_ctx ctx), dest)
  else
    let '(header, dest) :=
      if aadlen =? 0 then (header_ctx ctx, dest)
      else
        let header := chacha_ivsetup (header_ctx ctx) seqbuf None in
        let '(header, c) := chacha_encrypt_bytes header tmp src (Z.to_nat aadlen) in
        (header, splice dest 0 c) in
    let main := chacha_ivsetup main seqbuf (Some one) in
    let '(main, c) := chacha_encrypt_bytes main tmp (drop (Z.to_nat aadlen) src) (Z.to_nat len) in
    let dest := splice dest (Z.to_nat aadlen) c in
    let dest :=
      if do_encrypt then
        splice dest (Z.to_nat (aadlen + len))
          (poly1305_auth (take (Z.to_nat (u32 (aadlen + len))) dest) poly_key)
      else dest in
    (0, mk_cp main header, dest).

Definition chachapoly_get_length (tmp : list Z) (ctx : chachapoly_ctx) (seqnr : Z)
    (cp : list Z) (len : Z) : Z * option Z * chachapoly_ctx :=
  if len <? 4 then (SSH_ERR_MESSAGE_INCOMPLETE, None, ctx)
  else
    let seqbuf := POKE_U64 seqnr in
    let header := chacha_ivsetup (header_ctx ctx) seqbuf None in
    let '(header, buf) := chacha_encrypt_bytes header tmp cp 4 in
    (0, Some (PEEK_U32 buf), mk_cp (main_ctx ctx) header).

(** ** The specification *)

Definition cp_ok (ctx : chachapoly_ctx) : Prop := ctx_ok (main_ctx ctx) /\ ctx_ok (header_ctx ctx).

(** Two contexts made from the same keys: the counters and nonces left over from
    earlier packets may differ. *)
Definition same_key (x y : chachapoly_ctx) : Prop :=
  take 12 (input (main_ctx x)) = take 12 (input (main_ctx y)) /\
  take 12 (input (header_ctx x)) = take 12 (input (header_ctx y)).

(** The streams of packet [seqnr]: the tag key, the header's and the body's. *)
Definition tag_key (ctx : chachapoly_ctx) (seqnr : Z) : list Z :=
  take 32 (keystream (input (chacha_ivsetup (main_ctx ctx) (POKE_U64 seqnr) None)) 1).

Definition header_stream (ctx : chachapoly_ctx) (seqnr : Z) (n : nat) : list Z :=
  keystream (input (chacha_ivsetup (header_ctx ctx) (POKE_U64 seqnr) None)) (nblocks n).

Definition body_stream (ctx : chachapoly_ctx) (seqnr : Z) (n : nat) : list Z :=
  keystream (input (chacha_ivsetup (main_ctx ctx) (POKE_U64 seqnr) (Some one))) (nblocks n).

Definition cover (ctx : chachapoly_ctx) (seqnr : Z) (aad msg : list Z) : list Z :=
  xor_bytes (header_stream ctx seqnr (length aad)) aad ++
  xor_bytes (body_stream ctx seqnr (length msg)) msg.

Definition seal (ctx : chachapoly_ctx) (seqnr : Z) (aad msg : list Z) : list Z :=
  let c := cover ctx seqnr aad msg in c ++ poly1305_spec c (tag_key ctx seqnr).

(** ** Contexts *)

Lemma ivsetup_eq x iv c :
  length (input x) = 16%nat ->
  chacha_ivsetup x iv c =
    mk_ctx (take 12 (input x) ++
      [match c with None => 0 | Some c => U8TO32_LITTLE c end;
       match c with None => 0 | Some c => U8TO32_LITTLE (drop 4 c) end;
       U8TO32_LITTLE iv; U8TO32_LITTLE (drop 4 iv)]).
Proof.
  destruct x as [x]. cbn [input]. intros H. unfold chacha_ivsetup. cbn [input].
  do 16 (destruct x as [|? x]; [discriminate H|]). destruct x; [|discriminate H]. done.
Qed.

Lemma ivsetup_key x y iv c :
  length (input x) = 16%nat -> length (input y) = 16%nat ->
  take 12 (input x) = take 12 (input y) -> chacha_ivsetup x iv c = chacha_ivsetup y iv c.
Proof. intros. rewrite !ivsetup_eq by done. by f_equal; f_equal. Qed.

Lemma U8TO32_word p : bytes_ok p -> is_word (U8TO32_LITTLE p).
Proof. apply U8TO32_LE_range. Qed.

Lemma ivsetup_ok x iv c :
  ctx_ok x -> bytes_ok iv -> bytes_ok (default [] c) -> ctx_ok (chacha_ivsetup x iv c).
Proof.
  intros [Hl Hf] Hi Hc. rewrite ivsetup_eq by done. split; cbn [input].
  - rewrite length_app, length_take, Hl. done.
  - apply Forall_app. split; [by apply Forall_take|].
    destruct c as [c|]; repeat constructor; try (apply U8TO32_word; auto with sshdb); done.
Qed.

Lemma ivsetup_keeps_key x iv c :
  length (input x) = 16%nat -> take 12 (input (chacha_ivsetup x iv c)) = take 12 (input x).
Proof.
  intros. rewrite ivsetup_eq by done. cbn [input]. rewrite take_app_le by (rewrite length_take; lia).
  by rewrite take_take.
Qed.

Lemma with_counter_keeps_key j c : take 12 (with_counter j c) = take 12 j.
Proof. unfold with_counter. by rewrite !take_insert_ge by lia. Qed.

Lemma keysetup_ok x k :
  ctx_ok x -> bytes_ok k -> ctx_ok (chacha_keysetup x k 256).
Proof.
  destruct x as [x]. unfold ctx_ok. cbn [input]. intros [Hl Hf] Hk. unfold chacha_keysetup.
  change (256 =? 256) with true. cbn [input].
  assert (bytes_ok sigma) by (apply (bool_decide_unpack _); vm_compute; exact I).
  split; [by rewrite !length_insert|].
  repeat (apply Forall_insert; [|apply U8TO32_word; auto with sshdb]). done.
Qed.

Lemma chachapoly_new_ok w key ctx w' :
  bytes_ok key -> chachapoly_new w key 64 = (Some ctx, w') -> cp_ok ctx.
Proof.
  intros Hk. unfold chachapoly_new. change (negb (64 =? 32 + 32)) with false. cbv iota.
  destruct (malloc w) as [[] w1]; cbn [negb]; intros [= <- <-].
  assert (ctx_ok zero_ctx) by (apply (bool_decide_unpack _); vm_compute; exact I).
  split; cbn [main_ctx header_ctx]; apply keysetup_ok; auto with sshdb.
Qed.

(** ** Tags *)

Lemma length_le_bytes n v : length (le_bytes n v) = n.
Proof. revert v. induction n as [|n IH]; intros v; [done|]. cbn. by rewrite IH. Qed.

Lemma bytes_ok_le_bytes n v : bytes_ok (le_bytes n v).
Proof.
  revert v. induction n as [|n IH]; intros v; constructor; [|apply IH].
  unfold is_byte. apply Z.mod_pos_bound. lia.
Qed.

Lemma length_spec m key : length (poly1305_spec m key) = 16%nat.
Proof. apply length_le_bytes. Qed.

(** ** The streams of a packet *)

Section packet.
Context (ctx : chachapoly_ctx) (seqnr : Z) (tmp : list Z).
Context (Hctx : cp_ok ctx) (Htmp : bytes_ok tmp) (Htl : length tmp = 64%nat).

Let iv := POKE_U64 seqnr.

Lemma main_ok c : bytes_ok (default [] c) -> ctx_ok (chacha_ivsetup (main_ctx ctx) iv c).
Proof. intros. apply ivsetup_ok; [apply Hctx|apply bytes_ok_POKE_U64|done]. Qed.

Lemma header_ok : ctx_ok (chacha_ivsetup (header_ctx ctx) iv None).
Proof. apply ivsetup_ok; [apply Hctx|apply bytes_ok_POKE_U64|constructor]. Qed.

Lemma bytes_ok_one : bytes_ok one.
Proof. apply (bool_decide_unpack _). vm_compute. exact I. Qed.

Lemma xor_bytes_zeros k n : (n <= length k)%nat -> xor_bytes k (replicate n 0) = take n k.
Proof.
  revert n. induction k as [|x k IH]; intros [|n] H; cbn in *; try done; try lia.
  f_equal; [apply Z.lxor_0_r|apply IH; lia].
Qed.

(** The first call leaves the tag key, and a context that still has the key. *)
Lemma first_block :
  exists x, chacha_encrypt_bytes (chacha_ivsetup (main_ctx ctx) iv None) tmp (replicate 32 0) 32 =
              (x, tag_key ctx seqnr) /\
            ctx_ok x /\ take 12 (input x) = take 12 (input (main_ctx ctx)).
Proof.
  pose proof (main_ok None ltac:(constructor)) as Hm.
  rewrite chacha_encrypt_spec by (solve [auto with sshdb | by rewrite length_replicate]).
  eexists. split; [f_equal|split].
  - rewrite take_ge by (by rewrite length_replicate). change (nblocks 32) with 1%nat.
    rewrite xor_bytes_zeros by (rewrite length_keystream by exact Hm; lia). unfold tag_key. fold iv. reflexivity.
  - apply with_counter_ok. exact Hm.
  - cbn [input]. rewrite with_counter_keeps_key. apply ivsetup_keeps_key, Hctx.
Qed.

(** Any of the packet's streams, cut to the octets it covers. *)
Lemma crypt_part x m n :
  ctx_ok x -> bytes_ok m -> (n <= length m)%nat ->
  exists x', chacha_encrypt_bytes x tmp m n = (x', xor_bytes (keystream (input x) (nblocks n)) (take n m)) /\
             ctx_ok x' /\ take 12 (input x') = take 12 (input x).
Proof.
  intros Hx Hm Hn. rewrite chacha_encrypt_spec by done. eexists. split; [done|].
  cbn [input]. split; [by apply with_counter_ok|apply with_counter_keeps_key].
Qed.

Lemma length_covered x n m :
  ctx_ok x -> length m = n -> length (xor_bytes (keystream (input x) (nblocks n)) m) = n.
Proof.
  intros Hx <-. apply length_xor_bytes. rewrite length_keystream by done. apply nblocks_covers.
Qed.

Lemma length_cover aad msg : length (cover ctx seqnr aad msg) = (length aad + length msg)%nat.
Proof.
  unfold cover, header_stream, body_stream. fold iv. rewrite length_app, !length_covered; try done.
  - apply main_ok, bytes_ok_one.
  - apply header_ok.
Qed.

Lemma bytes_ok_cover aad msg : bytes_ok aad -> bytes_ok msg -> bytes_ok (cover ctx seqnr aad msg).
Proof. intros. unfold cover, header_stream, body_stream. apply bytes_ok_app. auto with sshdb. Qed.

Lemma tag_key_ok : bytes_ok (tag_key ctx seqnr) /\ length (tag_key ctx seqnr) = POLY1305_KEYLEN.
Proof.
  unfold tag_key. split; [auto with sshdb|]. rewrite length_take.
  fold iv. rewrite length_keystream by (apply main_ok; constructor). done.
Qed.

(** Encrypting is its own inverse on the covered octets. *)
Lemma cover_cover aad msg :
  cover ctx seqnr (take (length aad) (cover ctx seqnr aad msg))
                  (drop (length aad) (cover ctx seqnr aad msg)) = aad ++ msg.
Proof.
  assert (Ha : length (xor_bytes (header_stream ctx seqnr (length aad)) aad) = length aad).
  { unfold header_stream. fold iv. rewrite length_covered; try done. apply header_ok. }
  assert (Hb : length (xor_bytes (body_stream ctx seqnr (length msg)) msg) = length msg).
  { unfold body_stream. fold iv. rewrite length_covered; try done. apply main_ok, bytes_ok_one. }
  unfold cover at 2 3. rewrite take_app_length', drop_app_length' by done.
  unfold cover. rewrite Ha, Hb. f_equal.
  - apply xor_bytes_involutive. unfold header_stream. fold iv.
    rewrite length_keystream by apply header_ok. apply nblocks_covers.
  - apply xor_bytes_involutive. unfold body_stream. fold iv.
    rewrite length_keystream by (apply main_ok, bytes_ok_one). apply nblocks_covers.
Qed.
End packet.

Lemma take_splice_0 l v : take (length v) (splice l 0 v) = v.
Proof. unfold splice. rewrite take_0. cbn [app]. apply take_app_length. Qed.

(** The tag of the ciphertext at the start of [src]. *)
Definition tag_of (ctx : chachapoly_ctx) (seqnr : Z) (c : list Z) : list Z :=
  poly1305_spec c (tag_key ctx seqnr).

Section crypt.
Context (ctx : chachapoly_ctx) (seqnr : Z) (tmp dest src : list Z) (la lm : nat).
Context (Hctx : cp_ok ctx) (Ht : bytes_ok tmp) (Htl : length tmp = 64%nat) (Hs : bytes_ok src).
Context (Hls : (la + lm <= length src)%nat) (Hld : (la + lm <= length dest)%nat).

Let aad := take la src.
Let msg := take lm (drop la src).
Let c := cover ctx seqnr aad msg.

Lemma length_aad : length aad = la.
Proof. unfold aad. rewrite length_take. lia. Qed.

Lemma length_msg : length msg = lm.
Proof. unfold msg. rewrite length_take, length_drop. lia. Qed.

Lemma length_c : length c = (la + lm)%nat.
Proof. unfold c. by rewrite length_cover, length_aad, length_msg. Qed.

(** The header, which the code skips when it is empty. *)
Lemma crypt_header :
  exists h, ctx_ok h /\ take 12 (input h) = take 12 (input (header_ctx ctx)) /\
    (if Z.of_nat la =? 0 then (header_ctx ctx, dest)
     else let '(header, c) := chacha_encrypt_bytes
            (chacha_ivsetup (header_ctx ctx) (POKE_U64 seqnr) None) tmp src la in
          (header, splice dest 0 c)) =
    (h, splice dest 0 (xor_bytes (header_stream ctx seqnr la) aad)).
Proof.
  pose proof (header_ok ctx seqnr Hctx) as Hh.
  destruct (crypt_part tmp Ht Htl _ src la Hh Hs) as (h2 & E2 & Hh2 & Kh2); [lia|].
  destruct (Z.of_nat la =? 0) eqn:E0.
  - apply Z.eqb_eq in E0. unfold aad. assert (la = 0%nat) as -> by lia. exists (header_ctx ctx).
    split; [apply Hctx|]. split; [done|]. rewrite take_0. by unfold header_stream.
  - exists h2. split; [done|]. split; [|by rewrite E2].
    rewrite Kh2. apply ivsetup_keeps_key, Hctx.
Qed.

(** The body, after the tag key was drawn from the same context. *)
Lemma crypt_body m1 :
  ctx_ok m1 -> take 12 (input m1) = take 12 (input (main_ctx ctx)) ->
  exists m3, ctx_ok m3 /\ take 12 (input m3) = take 12 (input (main_ctx ctx)) /\
    chacha_encrypt_bytes (chacha_ivsetup m1 (POKE_U64 seqnr) (Some one)) tmp (drop la src) lm =
    (m3, xor_bytes (body_stream ctx seqnr lm) msg).
Proof.
  intros Hm1 Km1. rewrite (ivsetup_key m1 (main_ctx ctx)) by (apply Hm1 || apply Hctx || done).
  pose proof (main_ok ctx seqnr Hctx (Some one) bytes_ok_one) as Hm2.
  destruct (crypt_part tmp Ht Htl _ (drop la src) lm Hm2) as (m3 & E3 & Hm3 & Km3);
    [auto with sshdb|rewrite length_drop; lia|].
  exists m3. split; [done|]. split; [|done]. rewrite Km3. apply ivsetup_keeps_key, Hctx.
Qed.

Lemma crypt_written :
  splice (splice dest 0 (xor_bytes (header_stream ctx seqnr la) aad)) la
    (xor_bytes (body_stream ctx seqnr lm) msg) = splice dest 0 c.
Proof.
  pose proof (length_covered _ la aad (header_ok ctx seqnr Hctx) length_aad) as L.
  fold (header_stream ctx seqnr la) in L.
  replace la with (0 + length (xor_bytes (header_stream ctx seqnr la) aad))%nat at 2
    by (rewrite L; lia).
  pose proof length_c as Hc. unfold c, cover in Hc. rewrite length_aad, length_msg, length_app in Hc.
  rewrite splice_splice by lia. unfold c, cover. by rewrite length_aad, length_msg.
Qed.
End crypt.

(** One call, in terms of the specification. *)
Lemma chachapoly_crypt_spec ctx seqnr tmp dest src la lm authlen (enc : bool) :
  cp_ok ctx -> bytes_ok tmp -> length tmp = 64%nat -> bytes_ok src ->
  (la + lm + (if enc then 0 else 16) <= length src)%nat ->
  (la + lm + (if enc then 16 else 0) <= length dest)%nat ->
  Z.of_nat (la + lm) < 2 ^ 32 ->
  let c := cover ctx seqnr (take la src) (take lm (drop la src)) in
  exists ctx', cp_ok ctx' /\ same_key ctx' ctx /\
  chachapoly_crypt tmp ctx seqnr dest src (Z.of_nat lm) (Z.of_nat la) authlen enc =
    if enc then (0, ctx', splice dest 0 (c ++ tag_of ctx seqnr c))
    else if decide (take 16 (drop (la + lm) src) = tag_of ctx seqnr (take (la + lm) src))
    then (0, ctx', splice dest 0 c)
    else (SSH_ERR_MAC_INVALID, ctx', dest).
Proof.
  intros Hctx Ht Htl Hs Hls Hld Hn c. unfold chachapoly_crypt.
  destruct (first_block ctx seqnr tmp Hctx Ht Htl) as (m1 & -> & Hm1 & Km1).
  destruct (tag_key_ok ctx seqnr Hctx) as [Kb Kl].
  replace (Z.to_nat (u32 (Z.of_nat la + Z.of_nat lm))) with (la + lm)%nat by (rewrite u32_small; lia).
  replace (Z.to_nat (Z.of_nat la + Z.of_nat lm)) with (la + lm)%nat by lia. rewrite !Nat2Z.id.
  assert (Hls' : (la + lm <= length src)%nat) by (destruct enc; lia).
  assert (Hld' : (la + lm <= length dest)%nat) by (destruct enc; lia).
  destruct (crypt_header ctx seqnr tmp dest src la lm) as (h & Hh & Kh & ->); try done.
  destruct (crypt_body ctx seqnr tmp dest src la lm Hctx Ht Htl Hs Hls' Hld' m1 Hm1 Km1) as (m3 & Hm3 & Km3 & ->).
  rewrite (crypt_written ctx seqnr tmp dest src la lm) by done. fold c.
  pose proof (length_c ctx seqnr tmp dest src la lm Hctx Htl Hls' Hld') as Hcl. fold c in Hcl.
  destruct enc.
  - exists (mk_cp m3 h). split; [by split|]. split; [by split|]. f_equal.
    rewrite <- Hcl, take_splice_0.
    rewrite poly1305_auth_tag by (done || by apply bytes_ok_cover; auto with sshdb).
    rewrite <- (splice_splice dest 0 c); [done|]. lia.
  - rewrite poly1305_auth_tag by auto with sshdb. fold (tag_of ctx seqnr (take (la + lm) src)).
    rewrite (timingsafe_bcmp_spec 16) by (unfold tag_of; rewrite ?length_spec, ?length_drop; lia).
    destruct (decide (take 16 (drop (la + lm) src) = tag_of ctx seqnr (take (la + lm) src))) as [E|E].
    + rewrite decide_True by done. exists (mk_cp m3 h). repeat (split; [by split|]). done.
    + rewrite decide_False by done. exists (mk_cp m1 (header_ctx ctx)).
      split; [split; [done|apply Hctx]|]. split; [by split|]. done.
Qed.

Lemma cover_key x y seqnr aad msg :
  cp_ok x -> cp_ok y -> same_key x y ->
  cover x seqnr aad msg = cover y seqnr aad msg /\ tag_key x seqnr = tag_key y seqnr.
Proof.
  intros [Hx1 Hx2] [Hy1 Hy2] [Km Kh]. unfold cover, header_stream, body_stream, tag_key.
  rewrite !(ivsetup_key (main_ctx x) (main_ctx y)) by (apply Hx1 || apply Hy1 || done).
  rewrite !(ivsetup_key (header_ctx x) (header_ctx y)) by (apply Hx2 || apply Hy2 || done). done.
Qed.

Lemma same_key_sym x y : same_key x y -> same_key y x.
Proof. intros [??]. by split. Qed.

Lemma length_seal ctx seqnr aad msg :
  cp_ok ctx -> length (seal ctx seqnr aad msg) = (length aad + length msg + 16)%nat.
Proof. intros. unfold seal. by rewrite length_app, length_cover, length_spec. Qed.

Lemma bytes_ok_seal ctx seqnr aad msg :
  bytes_ok aad -> bytes_ok msg -> bytes_ok (seal ctx seqnr aad msg).
Proof.
  intros. unfold seal. apply bytes_ok_app. split; [by apply bytes_ok_cover|apply bytes_ok_le_bytes].
Qed.

(** What [chachapoly_crypt] writes when it encrypts. *)
Lemma crypt_seals ctx seqnr tmp dest aad msg authlen :
  cp_ok ctx -> bytes_ok tmp -> length tmp = 64%nat -> bytes_ok aad -> bytes_ok msg ->
  (length aad + length msg + 16 <= length dest)%nat -> Z.of_nat (length aad + length msg) < 2 ^ 32 ->
  exists ctx', cp_ok ctx' /\ same_key ctx' ctx /\
  chachapoly_crypt tmp ctx seqnr dest (aad ++ msg) (Z.of_nat (length msg)) (Z.of_nat (length aad))
    authlen true = (0, ctx', splice dest 0 (seal ctx seqnr aad msg)).
Proof.
  intros Hc Ht Htl Ha Hm Hd Hn.
  destruct (chachapoly_crypt_spec ctx seqnr tmp dest (aad ++ msg) (length aad) (length msg) authlen true)
    as (ctx' & Hc' & Hk & E); try done; [by apply bytes_ok_app|rewrite length_app; lia|].
  exists ctx'. split; [done|]. split; [done|]. rewrite E. rewrite take_app_length, drop_app_length, firstn_all.
  done.
Qed.

(** ... and when it decrypts a sealed packet, from any context with the key. *)
Lemma crypt_opens ctx ctx' seqnr tmp dest aad msg rest authlen :
  cp_ok ctx -> cp_ok ctx' -> same_key ctx' ctx -> bytes_ok tmp -> length tmp = 64%nat ->
  bytes_ok aad -> bytes_ok msg -> bytes_ok rest ->
  (length aad + length msg <= length dest)%nat -> Z.of_nat (length aad + length msg) < 2 ^ 32 ->
  exists ctx1, cp_ok ctx1 /\ same_key ctx1 ctx /\
  chachapoly_crypt tmp ctx' seqnr dest (seal ctx seqnr aad msg ++ rest)
    (Z.of_nat (length msg)) (Z.of_nat (length aad)) authlen false = (0, ctx1, splice dest 0 (aad ++ msg)).
Proof.
  intros Hc Hc' Hk Ht Htl Ha Hm Hr Hd Hn.
  destruct (cover_key ctx' ctx seqnr aad msg) as [Ec Et]; try done.
  pose proof (length_cover ctx seqnr Hc aad msg) as Lc.
  destruct (chachapoly_crypt_spec ctx' seqnr tmp dest (seal ctx seqnr aad msg ++ rest)
    (length aad) (length msg) authlen false) as (ctx1 & Hc1 & Hk1 & E); try done;
    [apply bytes_ok_app; split; [by apply bytes_ok_seal|done]|rewrite length_app, length_seal by done; lia|lia|].
  assert (T : take (length aad + length msg) (seal ctx seqnr aad msg ++ rest) = cover ctx seqnr aad msg).
  { unfold seal. rewrite <- app_assoc. by rewrite take_app_length'. }
  assert (D : drop (length aad + length msg) (seal ctx seqnr aad msg ++ rest) =
              poly1305_spec (cover ctx seqnr aad msg) (tag_key ctx seqnr) ++ rest).
  { unfold seal. rewrite <- app_assoc. by rewrite drop_app_length'. }
  exists ctx1. split; [done|]. split; [destruct Hk, Hk1; split; congruence|]. rewrite E.
  rewrite T, D, decide_True.
  - do 2 f_equal. rewrite <- (cover_cover ctx' seqnr Hc' aad msg), Ec.
    rewrite <- T. rewrite take_take, Nat.min_l by lia. by rewrite skipn_firstn_comm, Nat.add_comm, Nat.add_sub.
  - unfold tag_of. rewrite Et. by rewrite take_app_length' by (by rewrite length_spec).
Qed.

(** The length of the packet, read from its first four octets alone. *)
Lemma get_length_spec ctx ctx' seqnr tmp aad msg rest len :
  cp_ok ctx -> cp_ok ctx' -> same_key ctx' ctx -> bytes_ok tmp -> length tmp = 64%nat ->
  bytes_ok aad -> bytes_ok msg -> bytes_ok rest -> length aad = 4%nat -> 4 <= len ->
  exists ctx1, cp_ok ctx1 /\ same_key ctx1 ctx /\
  chachapoly_get_length tmp ctx' seqnr (seal ctx seqnr aad msg ++ rest) len =
    (0, Some (PEEK_U32 aad), ctx1).
Proof.
  intros Hc Hc' Hk Ht Htl Ha Hm Hr Hl Hlen. unfold chachapoly_get_length.
  rewrite (proj2 (Z.ltb_ge len 4)) by done.
  pose proof (header_ok ctx' seqnr Hc') as Hh.
  destruct (crypt_part tmp Ht Htl _ (seal ctx seqnr aad msg ++ rest) 4 Hh) as (h & E & Hh2 & Kh).
  { apply bytes_ok_app. split; [by apply bytes_ok_seal|done]. }
  { rewrite length_app, length_seal by done. lia. }
  rewrite E. exists (mk_cp (main_ctx ctx') h). split; [split; [apply Hc'|done]|].
  split; [destruct Hk as [K1 K2]; split; [done|]; cbn [header_ctx]; rewrite Kh, ivsetup_keeps_key by apply Hc'; done|].
  do 3 f_equal.
  assert (take 4 (seal ctx seqnr aad msg ++ rest) = xor_bytes (header_stream ctx' seqnr 4) aad) as ->.
  { destruct (cover_key ctx' ctx seqnr aad msg) as [Ec _]; try done.
    unfold seal. rewrite <- Ec. unfold cover. rewrite Hl. rewrite <- !app_assoc. apply take_app_length'.
    unfold header_stream. by rewrite length_covered. }
  unfold header_stream. f_equal. apply xor_bytes_involutive. rewrite length_keystream by done.
  rewrite Hl. vm_compute. lia.
Qed.

(** C5: what one side seals the other opens.  From two contexts that share
    their keys, whatever counters and nonces earlier packets left in them and
    whatever the scratch memory holds, encrypting writes the ciphertext and its
    tag at the start of [dest] and leaves the rest of [dest] alone; from the
    resulting octets the receiver reads the packet length with
    [chachapoly_get_length] before the packet is complete, and decrypting the
    packet under the same sequence number succeeds and gives the plaintext.  All
    contexts still share the keys afterwards. *)
Theorem chachapoly_seal_open ctx ctx' seqnr tmp tmp' dest dest' aad msg rest authlen :
  cp_ok ctx -> cp_ok ctx' -> same_key ctx' ctx ->
  bytes_ok tmp -> length tmp = CHACHA_BLOCKLEN -> bytes_ok tmp' -> length tmp' = CHACHA_BLOCKLEN ->
  bytes_ok aad -> bytes_ok msg -> bytes_ok rest -> length aad = 4%nat ->
  (length aad + length msg + POLY1305_TAGLEN <= length dest)%nat ->
  (length aad + length msg <= length dest')%nat ->
  Z.of_nat (length aad + length msg) < 2 ^ 32 ->
  exists ctx1 ctx2 ctx3 packet,
    length packet = (length aad + length msg + POLY1305_TAGLEN)%nat /\
    chachapoly_crypt tmp ctx seqnr dest (aad ++ msg) (Z.of_nat (length msg)) (Z.of_nat (length aad))
      authlen true = (0, ctx1, splice dest 0 packet) /\
    chachapoly_get_length tmp' ctx' seqnr (packet ++ rest) 4 = (0, Some (PEEK_U32 aad), ctx2) /\
    chachapoly_crypt tmp' ctx2 seqnr dest' (packet ++ rest) (Z.of_nat (length msg))
      (Z.of_nat (length aad)) authlen false = (0, ctx3, splice dest' 0 (aad ++ msg)) /\
    cp_ok ctx1 /\ cp_ok ctx3 /\ same_key ctx3 ctx1.
Proof.
  unfold CHACHA_BLOCKLEN, POLY1305_TAGLEN. intros Hc Hc' Hk Ht Htl Ht' Htl' Ha Hm Hr Hl Hd Hd' Hn.
  destruct (crypt_seals ctx seqnr tmp dest aad msg authlen) as (ctx1 & H1 & K1 & E1); try done.
  destruct (get_length_spec ctx ctx' seqnr tmp' aad msg rest 4) as (ctx2 & H2 & K2 & E2); try done.
  destruct (crypt_opens ctx ctx2 seqnr tmp' dest' aad msg rest authlen) as (ctx3 & H3 & K3 & E3); try done.
  exists ctx1, ctx2, ctx3, (seal ctx seqnr aad msg). rewrite length_seal by done.
  repeat (split; [done|]). destruct K1, K3; split; congruence.
Qed.

(** A key, the context made from it, and one that has been used before. *)
Definition demo_key : list Z := map Z.of_nat (seq 0 64).

Definition demo_cp : chachapoly_ctx :=
  mk_cp (chacha_keysetup zero_ctx demo_key 256) (chacha_keysetup zero_ctx (drop 32 demo_key) 256).

Definition used_cp : chachapoly_ctx :=
  mk_cp (chacha_ivsetup (main_ctx demo_cp) (POKE_U64 7) (Some one)) (header_ctx demo_cp).

Lemma demo_cp_ok : chachapoly_new [] demo_key 64 = (Some demo_cp, []) /\ cp_ok demo_cp /\ cp_ok used_cp.
Proof.
  split; [reflexivity|].
  split; (split; [split; [vm_compute; reflexivity|apply (bool_decide_unpack _); vm_compute; exact I]|
                  split; [vm_compute; reflexivity|apply (bool_decide_unpack _); vm_compute; exact I]]).
Qed.

Lemma chachapoly_seal_open_witness :
  exists ctx1 ctx2 ctx3 packet,
    length packet = 23%nat /\
    chachapoly_crypt (replicate 64 3) demo_cp 5 (replicate 30 9) ([0; 0; 0; 3] ++ [1; 2; 3]) 3 4 16 true =
      (0, ctx1, splice (replicate 30 9) 0 packet) /\
    chachapoly_get_length (replicate 64 4) used_cp 5 (packet ++ [8]) 4 = (0, Some 3, ctx2) /\
    chachapoly_crypt (replicate 64 4) ctx2 5 (replicate 10 0) (packet ++ [8]) 3 4 16 false =
      (0, ctx3, [0; 0; 0; 3; 1; 2; 3; 0; 0; 0]) /\
    cp_ok ctx1 /\ cp_ok ctx3 /\ same_key ctx3 ctx1.
Proof.
  apply (chachapoly_seal_open demo_cp used_cp 5 (replicate 64 3) (replicate 64 4) (replicate 30 9)
           (replicate 10 0) [0; 0; 0; 3] [1; 2; 3] [8] 16);
    first [apply demo_cp_ok | apply (bool_decide_unpack _); vm_compute; exact I
          | split; vm_compute; reflexivity | cbn; lia | vm_compute; lia | reflexivity].
Defined.

(** C6: decryption accepts exactly the packets whose last 16 octets are the
    Poly1305 tag of RFC 8439 of the ciphertext under the one-time key of this
    sequence number, and then writes the plaintext of the same length; every
    other packet is refused with [SSH_ERR_MAC_INVALID] before anything is
    decrypted, and [dest] is unchanged. *)
Theorem chachapoly_open_exact ctx seqnr tmp dest c1 c2 tag authlen :
  cp_ok ctx -> bytes_ok tmp -> length tmp = CHACHA_BLOCKLEN ->
  bytes_ok c1 -> bytes_ok c2 -> bytes_ok tag -> length tag = POLY1305_TAGLEN ->
  (length c1 + length c2 <= length dest)%nat -> Z.of_nat (length c1 + length c2) < 2 ^ 32 ->
  exists ctx', cp_ok ctx' /\ same_key ctx' ctx /\
    chachapoly_crypt tmp ctx seqnr dest (c1 ++ c2 ++ tag) (Z.of_nat (length c2))
      (Z.of_nat (length c1)) authlen false =
    if decide (tag = poly1305_spec (c1 ++ c2) (tag_key ctx seqnr))
    then (0, ctx', splice dest 0 (cover ctx seqnr c1 c2))
    else (SSH_ERR_MAC_INVALID, ctx', dest).
Proof.
  unfold CHACHA_BLOCKLEN, POLY1305_TAGLEN. intros Hc Ht Htl H1 H2 H3 Hl Hd Hn.
  destruct (chachapoly_crypt_spec ctx seqnr tmp dest (c1 ++ c2 ++ tag) (length c1) (length c2) authlen false)
    as (ctx' & Hc' & Hk & E); try done; [by rewrite !bytes_ok_app|rewrite !length_app; lia|lia|].
  exists ctx'. split; [done|]. split; [done|]. rewrite E.
  rewrite (app_assoc c1 c2 tag), (take_app_length' (c1 ++ c2)), (drop_app_length' (c1 ++ c2)),
    take_ge by (rewrite ?length_app; lia).
  rewrite <- app_assoc, take_app_length, drop_app_length, take_app_length. done.
Qed.

Lemma chachapoly_open_exact_witness :
  exists ctx', cp_ok ctx' /\ same_key ctx' demo_cp /\
    chachapoly_crypt (replicate 64 3) demo_cp 5 (replicate 8 9) ([1; 2; 3; 4] ++ [5; 6] ++ replicate 16 0)
      2 4 16 false = (SSH_ERR_MAC_INVALID, ctx', replicate 8 9).
Proof.
  destruct (chachapoly_open_exact demo_cp 5 (replicate 64 3) (replicate 8 9) [1; 2; 3; 4] [5; 6]
    (replicate 16 0) 16) as (ctx' & H1 & H2 & H3);
    [first [apply demo_cp_ok | apply (bool_decide_unpack _); vm_compute; exact I | reflexivity] ..|].
  exists ctx'. split; [exact H1|]. split; [exact H2|]. rewrite decide_False in H3; [exact H3|].
  vm_compute. discriminate.
Defined.
