(* ===== verification/Rijndael.v ===== *)
(** AES: the block cipher of rijndael.c.

    The code works on 32-bit columns with four tables that merge the steps of a
    round.  The tables and functions are modelled as they are; the second half
    of the file states the cipher of FIPS 197 over octets and proves that the
    code computes it, for the three key lengths. *)

From stdpp Require Import base list numbers tactics.
From Stdlib Require Import ZArith Lia ZifyBool.
From S2P Require Import Prelude.

(** ** The tables *)

Definition Te0 : list Z := [
  0xc66363a5; 0xf87c7c84; 0xee777799; 0xf67b7b8d;
  0xfff2f20d; 0xd66b6bbd; 0xde6f6fb1; 0x91c5c554;
  0x60303050; 0x02010103; 0xce6767a9; 0x562b2b7d;
  0xe7fefe19; 0xb5d7d762; 0x4dababe6; 0xec76769a;
  0x8fcaca45; 0x1f82829d; 0x89c9c940; 0xfa7d7d87;
  0xeffafa15; 0xb25959eb; 0x8e4747c9; 0xfbf0f00b;
  0x41adadec; 0xb3d4d467; 0x5fa2a2fd; 0x45afafea;
  0x239c9cbf; 0x53a4a4f7; 0xe4727296; 0x9bc0c05b;
  0x75b7b7c2; 0xe1fdfd1c; 0x3d9393ae; 0x4c26266a;
  0x6c36365a; 0x7e3f3f41; 0xf5f7f702; 0x83cccc4f;
  0x6834345c; 0x51a5a5f4; 0xd1e5e534; 0xf9f1f108;
  0xe2717193; 0xabd8d873; 0x62313153; 0x2a15153f;
  0x0804040c; 0x95c7c752; 0x46232365; 0x9dc3c35e;
  0x30181828; 0x379696a1; 0x0a05050f; 0x2f9a9ab5;
  0x0e070709; 0x24121236; 0x1b80809b; 0xdfe2e23d;
  0xcdebeb26; 0x4e272769; 0x7fb2b2cd; 0xea75759f;
  0x1209091b; 0x1d83839e; 0x582c2c74; 0x341a1a2e;
  0x361b1b2d; 0xdc6e6eb2; 0xb45a5aee; 0x5ba0a0fb;
  0xa45252f6; 0x763b3b4d; 0xb7d6d661; 0x7db3b3ce;
  0x5229297b; 0xdde3e33e; 0x5e2f2f71; 0x13848497;
  0xa65353f5; 0xb9d1d168; 0x00000000; 0xc1eded2c;
  0x40202060; 0xe3fcfc1f; 0x79b1b1c8; 0xb65b5bed;
  0xd46a6abe; 0x8dcbcb46; 0x67bebed9; 0x7239394b;
  0x944a4ade; 0x984c4cd4; 0xb05858e8; 0x85cfcf4a;
  0xbbd0d06b; 0xc5efef2a; 0x4faaaae5; 0xedfbfb16;
  0x864343c5; 0x9a4d4dd7; 0x66333355; 0x11858594;
  0x8a4545cf; 0xe9f9f910; 0x04020206; 0xfe7f7f81;
  0xa05050f0; 0x783c3c44; 0x259f9fba; 0x4ba8a8e3;
  0xa25151f3; 0x5da3a3fe; 0x804040c0; 0x058f8f8a;
  0x3f9292ad; 0x219d9dbc; 0x70383848; 0xf1f5f504;
  0x63bcbcdf; 0x77b6b6c1; 0xafdada75; 0x42212163;
  0x20101030; 0xe5ffff1a; 0xfdf3f30e; 0xbfd2d26d;
  0x81cdcd4c; 0x180c0c14; 0x26131335; 0xc3ecec2f;
  0xbe5f5fe1; 0x359797a2; 0x884444cc; 0x2e171739;
  0x93c4c457; 0x55a7a7f2; 0xfc7e7e82; 0x7a3d3d47;
  0xc86464ac; 0xba5d5de7; 0x3219192b; 0xe6737395;
  0xc06060a0; 0x19818198; 0x9e4f4fd1; 0xa3dcdc7f;
  0x44222266; 0x542a2a7e; 0x3b9090ab; 0x0b888883;
  0x8c4646ca; 0xc7eeee29; 0x6bb8b8d3; 0x2814143c;
  0xa7dede79; 0xbc5e5ee2; 0x160b0b1d; 0xaddbdb76;
  0xdbe0e03b; 0x64323256; 0x743a3a4e; 0x140a0a1e;
  0x924949db; 0x0c06060a; 0x4824246c; 0xb85c5ce4;
  0x9fc2c25d; 0xbdd3d36e; 0x43acacef; 0xc46262a6;
  0x399191a8; 0x319595a4; 0xd3e4e437; 0xf279798b;
  0xd5e7e732; 0x8bc8c843; 0x6e373759; 0xda6d6db7;
  0x018d8d8c; 0xb1d5d564; 0x9c4e4ed2; 0x49a9a9e0;
  0xd86c6cb4; 0xac5656fa; 0xf3f4f407; 0xcfeaea25;
  0xca6565af; 0xf47a7a8e; 0x47aeaee9; 0x10080818;
  0x6fbabad5; 0xf0787888; 0x4a25256f; 0x5c2e2e72;
  0x381c1c24; 0x57a6a6f1; 0x73b4b4c7; 0x97c6c651;
  0xcbe8e823; 0xa1dddd7c; 0xe874749c; 0x3e1f1f21;
  0x964b4bdd; 0x61bdbddc; 0x0d8b8b86; 0x0f8a8a85;
  0xe0707090; 0x7c3e3e42; 0x71b5b5c4; 0xcc6666aa;
  0x904848d8; 0x06030305; 0xf7f6f601; 0x1c0e0e12;
  0xc26161a3; 0x6a35355f; 0xae5757f9; 0x69b9b9d0;
  0x17868691; 0x99c1c158; 0x3a1d1d27; 0x279e9eb9;
  0xd9e1e138; 0xebf8f813; 0x2b9898b3; 0x22111133;
  0xd26969bb; 0xa9d9d970; 0x078e8e89; 0x339494a7;
  0x2d9b9bb6; 0x3c1e1e22; 0x15878792; 0xc9e9e920;
  0x87cece49; 0xaa5555ff; 0x50282878; 0xa5dfdf7a;
  0x038c8c8f; 0x59a1a1f8; 0x09898980; 0x1a0d0d17;
  0x65bfbfda; 0xd7e6e631; 0x844242c6; 0xd06868b8;
  0x824141c3; 0x299999b0; 0x5a2d2d77; 0x1e0f0f11;
  0x7bb0b0cb; 0xa85454fc; 0x6dbbbbd6; 0x2c16163a].

Definition Te1 : list Z := [
  0xa5c66363; 0x84f87c7c; 0x99ee7777; 0x8df67b7b;
  0x0dfff2f2; 0xbdd66b6b; 0xb1de6f6f; 0x5491c5c5;
  0x50603030; 0x03020101; 0xa9ce6767; 0x7d562b2b;
  0x19e7fefe; 0x62b5d7d7; 0xe64dabab; 0x9aec7676;
  0x458fcaca; 0x9d1f8282; 0x4089c9c9; 0x87fa7d7d;
  0x15effafa; 0xebb25959; 0xc98e4747; 0x0bfbf0f0;
  0xec41adad; 0x67b3d4d4; 0xfd5fa2a2; 0xea45afaf;
  0xbf239c9c; 0xf753a4a4; 0x96e47272; 0x5b9bc0c0;
  0xc275b7b7; 0x1ce1fdfd; 0xae3d9393; 0x6a4c2626;
  0x5a6c3636; 0x417e3f3f; 0x02f5f7f7; 0x4f83cccc;
  0x5c683434; 0xf451a5a5; 0x34d1e5e5; 0x08f9f1f1;
  0x93e27171; 0x73abd8d8; 0x53623131; 0x3f2a1515;
  0x0c080404; 0x5295c7c7; 0x65462323; 0x5e9dc3c3;
  0x28301818; 0xa1379696; 0x0f0a0505; 0xb52f9a9a;
  0x090e0707; 0x36241212; 0x9b1b8080; 0x3ddfe2e2;
  0x26cdebeb; 0x694e2727; 0xcd7fb2b2; 0x9fea7575;
  0x1b120909; 0x9e1d8383; 0x74582c2c; 0x2e341a1a;
  0x2d361b1b; 0xb2dc6e6e; 0xeeb45a5a; 0xfb5ba0a0;
  0xf6a45252; 0x4d763b3b; 0x61b7d6d6; 0xce7db3b3;
  0x7b522929; 0x3edde3e3; 0x715e2f2f; 0x97138484;
  0xf5a65353; 0x68b9d1d1; 0x00000000; 0x2cc1eded;
  0x60402020; 0x1fe3fcfc; 0xc879b1b1; 0xedb65b5b;
  0xbed46a6a; 0x468dcbcb; 0xd967bebe; 0x4b723939;
  0xde944a4a; 0xd4984c4c; 0xe8b05858; 0x4a85cfcf;
  0x6bbbd0d0; 0x2ac5efef; 0xe54faaaa; 0x16edfbfb;
  0xc5864343; 0xd79a4d4d; 0x55663333; 0x94118585;
  0xcf8a4545; 0x10e9f9f9; 0x06040202; 0x81fe7f7f;
  0xf0a05050; 0x44783c3c; 0xba259f9f; 0xe34ba8a8;
  0xf3a25151; 0xfe5da3a3; 0xc0804040; 0x8a058f8f;
  0xad3f9292; 0xbc219d9d; 0x48703838; 0x04f1f5f5;
  0xdf63bcbc; 0xc177b6b6; 0x75afdada; 0x63422121;
  0x30201010; 0x1ae5ffff; 0x0efdf3f3; 0x6dbfd2d2;
  0x4c81cdcd; 0x14180c0c; 0x35261313; 0x2fc3ecec;
  0xe1be5f5f; 0xa2359797; 0xcc884444; 0x392e1717;
  0x5793c4c4; 0xf255a7a7; 0x82fc7e7e; 0x477a3d3d;
  0xacc86464; 0xe7ba5d5d; 0x2b321919; 0x95e67373;
  0xa0c06060; 0x98198181; 0xd19e4f4f; 0x7fa3dcdc;
  0x66442222; 0x7e542a2a; 0xab3b9090; 0x830b8888;
  0xca8c4646; 0x29c7eeee; 0xd36bb8b8; 0x3c281414;
  0x79a7dede; 0xe2bc5e5e; 0x1d160b0b; 0x76addbdb;
  0x3bdbe0e0; 0x56643232; 0x4e743a3a; 0x1e140a0a;
  0xdb924949; 0x0a0c0606; 0x6c482424; 0xe4b85c5c;
  0x5d9fc2c2; 0x6ebdd3d3; 0xef43acac; 0xa6c46262;
  0xa8399191; 0xa4319595; 0x37d3e4e4; 0x8bf27979;
  0x32d5e7e7; 0x438bc8c8; 0x596e3737; 0xb7da6d6d;
  0x8c018d8d; 0x64b1d5d5; 0xd29c4e4e; 0xe049a9a9;
  0xb4d86c6c; 0xfaac5656; 0x07f3f4f4; 0x25cfeaea;
  0xafca6565; 0x8ef47a7a; 0xe947aeae; 0x18100808;
  0xd56fbaba; 0x88f07878; 0x6f4a2525; 0x725c2e2e;
  0x24381c1c; 0xf157a6a6; 0xc773b4b4; 0x5197c6c6;
  0x23cbe8e8; 0x7ca1dddd; 0x9ce87474; 0x213e1f1f;
  0xdd964b4b; 0xdc61bdbd; 0x860d8b8b; 0x850f8a8a;
  0x90e07070; 0x427c3e3e; 0xc471b5b5; 0xaacc6666;
  0xd8904848; 0x05060303; 0x01f7f6f6; 0x121c0e0e;
  0xa3c26161; 0x5f6a3535; 0xf9ae5757; 0xd069b9b9;
  0x91178686; 0x5899c1c1; 0x273a1d1d; 0xb9279e9e;
  0x38d9e1e1; 0x13ebf8f8; 0xb32b9898; 0x33221111;
  0xbbd26969; 0x70a9d9d9; 0x89078e8e; 0xa7339494;
  0xb62d9b9b; 0x223c1e1e; 0x92158787; 0x20c9e9e9;
  0x4987cece; 0xffaa5555; 0x78502828; 0x7aa5dfdf;
  0x8f038c8c; 0xf859a1a1; 0x80098989; 0x171a0d0d;
  0xda65bfbf; 0x31d7e6e6; 0xc6844242; 0xb8d06868;
  0xc3824141; 0xb0299999; 0x775a2d2d; 0x111e0f0f;
  0xcb7bb0b0; 0xfca85454; 0xd66dbbbb; 0x3a2c1616].

Definition Te2 : list Z := [
  0x63a5c663; 0x7c84f87c; 0x7799ee77; 0x7b8df67b;
  0xf20dfff2; 0x6bbdd66b; 0x6fb1de6f; 0xc55491c5;
  0x30506030; 0x01030201; 0x67a9ce67; 0x2b7d562b;
  0xfe19e7fe; 0xd762b5d7; 0xabe64dab; 0x769aec76;
  0xca458fca; 0x829d1f82; 0xc94089c9; 0x7d87fa7d;
  0xfa15effa; 0x59ebb259; 0x47c98e47; 0xf00bfbf0;
  0xadec41ad; 0xd467b3d4; 0xa2fd5fa2; 0xafea45af;
  0x9cbf239c; 0xa4f753a4; 0x7296e472; 0xc05b9bc0;
  0xb7c275b7; 0xfd1ce1fd; 0x93ae3d93; 0x266a4c26;
  0x365a6c36; 0x3f417e3f; 0xf702f5f7; 0xcc4f83cc;
  0x345c6834; 0xa5f451a5; 0xe534d1e5; 0xf108f9f1;
  0x7193e271; 0xd873abd8; 0x31536231; 0x153f2a15;
  0x040c0804; 0xc75295c7; 0x23654623; 0xc35e9dc3;
  0x18283018; 0x96a13796; 0x050f0a05; 0x9ab52f9a;
  0x07090e07; 0x12362412; 0x809b1b80; 0xe23ddfe2;
  0xeb26cdeb; 0x27694e27; 0xb2cd7fb2; 0x759fea75;
  0x091b1209; 0x839e1d83; 0x2c74582c; 0x1a2e341a;
  0x1b2d361b; 0x6eb2dc6e; 0x5aeeb45a; 0xa0fb5ba0;
  0x52f6a452; 0x3b4d763b; 0xd661b7d6; 0xb3ce7db3;
  0x297b5229; 0xe33edde3; 0x2f715e2f; 0x84971384;
  0x53f5a653; 0xd168b9d1; 0x00000000; 0xed2cc1ed;
  0x20604020; 0xfc1fe3fc; 0xb1c879b1; 0x5bedb65b;
  0x6abed46a; 0xcb468dcb; 0xbed967be; 0x394b7239;
  0x4ade944a; 0x4cd4984c; 0x58e8b058; 0xcf4a85cf;
  0xd06bbbd0; 0xef2ac5ef; 0xaae54faa; 0xfb16edfb;
  0x43c58643; 0x4dd79a4d; 0x33556633; 0x85941185;
  0x45cf8a45; 0xf910e9f9; 0x02060402; 0x7f81fe7f;
  0x50f0a050; 0x3c44783c; 0x9fba259f; 0xa8e34ba8;
  0x51f3a251; 0xa3fe5da3; 0x40c08040; 0x8f8a058f;
  0x92ad3f92; 0x9dbc219d; 0x38487038; 0xf504f1f5;
  0xbcdf63bc; 0xb6c177b6; 0xda75afda; 0x21634221;
  0x10302010; 0xff1ae5ff; 0xf30efdf3; 0xd26dbfd2;
  0xcd4c81cd; 0x0c14180c; 0x13352613; 0xec2fc3ec;
  0x5fe1be5f; 0x97a23597; 0x44cc8844; 0x17392e17;
  0xc45793c4; 0xa7f255a7; 0x7e82fc7e; 0x3d477a3d;
  0x64acc864; 0x5de7ba5d; 0x192b3219; 0x7395e673;
  0x60a0c060; 0x81981981; 0x4fd19e4f; 0xdc7fa3dc;
  0x22664422; 0x2a7e542a; 0x90ab3b90; 0x88830b88;
  0x46ca8c46; 0xee29c7ee; 0xb8d36bb8; 0x143c2814;
  0xde79a7de; 0x5ee2bc5e; 0x0b1d160b; 0xdb76addb;
  0xe03bdbe0; 0x32566432; 0x3a4e743a; 0x0a1e140a;
  0x49db9249; 0x060a0c06; 0x246c4824; 0x5ce4b85c;
  0xc25d9fc2; 0xd36ebdd3; 0xacef43ac; 0x62a6c462;
  0x91a83991; 0x95a43195; 0xe437d3e4; 0x798bf279;
  0xe732d5e7; 0xc8438bc8; 0x37596e37; 0x6db7da6d;
  0x8d8c018d; 0xd564b1d5; 0x4ed29c4e; 0xa9e049a9;
  0x6cb4d86c; 0x56faac56; 0xf407f3f4; 0xea25cfea;
  0x65afca65; 0x7a8ef47a; 0xaee947ae; 0x08181008;
  0xbad56fba; 0x7888f078; 0x256f4a25; 0x2e725c2e;
  0x1c24381c; 0xa6f157a6; 0xb4c773b4; 0xc65197c6;
  0xe823cbe8; 0xdd7ca1dd; 0x749ce874; 0x1f213e1f;
  0x4bdd964b; 0xbddc61bd; 0x8b860d8b; 0x8a850f8a;
  0x7090e070; 0x3e427c3e; 0xb5c471b5; 0x66aacc66;
  0x48d89048; 0x03050603; 0xf601f7f6; 0x0e121c0e;
  0x61a3c261; 0x355f6a35; 0x57f9ae57; 0xb9d069b9;
  0x86911786; 0xc15899c1; 0x1d273a1d; 0x9eb9279e;
  0xe138d9e1; 0xf813ebf8; 0x98b32b98; 0x11332211;
  0x69bbd269; 0xd970a9d9; 0x8e89078e; 0x94a73394;
  0x9bb62d9b; 0x1e223c1e; 0x87921587; 0xe920c9e9;
  0xce4987ce; 0x55ffaa55; 0x28785028; 0xdf7aa5df;
  0x8c8f038c; 0xa1f859a1; 0x89800989; 0x0d171a0d;
  0xbfda65bf; 0xe631d7e6; 0x42c68442; 0x68b8d068;
  0x41c38241; 0x99b02999; 0x2d775a2d; 0x0f111e0f;
  0xb0cb7bb0; 0x54fca854; 0xbbd66dbb; 0x163a2c16].

Definition Te3 : list Z := [
  0x6363a5c6; 0x7c7c84f8; 0x777799ee; 0x7b7b8df6;
  0xf2f20dff; 0x6b6bbdd6; 0x6f6fb1de; 0xc5c55491;
  0x30305060; 0x01010302; 0x6767a9ce; 0x2b2b7d56;
  0xfefe19e7; 0xd7d762b5; 0xababe64d; 0x76769aec;
  0xcaca458f; 0x82829d1f; 0xc9c94089; 0x7d7d87fa;
  0xfafa15ef; 0x5959ebb2; 0x4747c98e; 0xf0f00bfb;
  0xadadec41; 0xd4d467b3; 0xa2a2fd5f; 0xafafea45;
  0x9c9cbf23; 0xa4a4f753; 0x727296e4; 0xc0c05b9b;
  0xb7b7c275; 0xfdfd1ce1; 0x9393ae3d; 0x26266a4c;
  0x36365a6c; 0x3f3f417e; 0xf7f702f5; 0xcccc4f83;
  0x34345c68; 0xa5a5f451; 0xe5e534d1; 0xf1f108f9;
  0x717193e2; 0xd8d873ab; 0x31315362; 0x15153f2a;
  0x04040c08; 0xc7c75295; 0x23236546; 0xc3c35e9d;
  0x18182830; 0x9696a137; 0x05050f0a; 0x9a9ab52f;
  0x0707090e; 0x12123624; 0x80809b1b; 0xe2e23ddf;
  0xebeb26cd; 0x2727694e; 0xb2b2cd7f; 0x75759fea;
  0x09091b12; 0x83839e1d; 0x2c2c7458; 0x1a1a2e34;
  0x1b1b2d36; 0x6e6eb2dc; 0x5a5aeeb4; 0xa0a0fb5b;
  0x5252f6a4; 0x3b3b4d76; 0xd6d661b7; 0xb3b3ce7d;
  0x29297b52; 0xe3e33edd; 0x2f2f715e; 0x84849713;
  0x5353f5a6; 0xd1d168b9; 0x00000000; 0xeded2cc1;
  0x20206040; 0xfcfc1fe3; 0xb1b1c879; 0x5b5bedb6;
  0x6a6abed4; 0xcbcb468d; 0xbebed967; 0x39394b72;
  0x4a4ade94; 0x4c4cd498; 0x5858e8b0; 0xcfcf4a85;
  0xd0d06bbb; 0xefef2ac5; 0xaaaae54f; 0xfbfb16ed;
  0x4343c586; 0x4d4dd79a; 0x33335566; 0x85859411;
  0x4545cf8a; 0xf9f910e9; 0x02020604; 0x7f7f81fe;
  0x5050f0a0; 0x3c3c4478; 0x9f9fba25; 0xa8a8e34b;
  0x5151f3a2; 0xa3a3fe5d; 0x4040c080; 0x8f8f8a05;
  0x9292ad3f; 0x9d9dbc21; 0x38384870; 0xf5f504f1;
  0xbcbcdf63; 0xb6b6c177; 0xdada75af; 0x21216342;
  0x10103020; 0xffff1ae5; 0xf3f30efd; 0xd2d26dbf;
  0xcdcd4c81; 0x0c0c1418; 0x13133526; 0xecec2fc3;
  0x5f5fe1be; 0x9797a235; 0x4444cc88; 0x1717392e;
  0xc4c45793; 0xa7a7f255; 0x7e7e82fc; 0x3d3d477a;
  0x6464acc8; 0x5d5de7ba; 0x19192b32; 0x737395e6;
  0x6060a0c0; 0x81819819; 0x4f4fd19e; 0xdcdc7fa3;
  0x22226644; 0x2a2a7e54; 0x9090ab3b; 0x8888830b;
  0x4646ca8c; 0xeeee29c7; 0xb8b8d36b; 0x14143c28;
  0xdede79a7; 0x5e5ee2bc; 0x0b0b1d16; 0xdbdb76ad;
  0xe0e03bdb; 0x32325664; 0x3a3a4e74; 0x0a0a1e14;
  0x4949db92; 0x06060a0c; 0x24246c48; 0x5c5ce4b8;
  0xc2c25d9f; 0xd3d36ebd; 0xacacef43; 0x6262a6c4;
  0x9191a839; 0x9595a431; 0xe4e437d3; 0x79798bf2;
  0xe7e732d5; 0xc8c8438b; 0x3737596e; 0x6d6db7da;
  0x8d8d8c01; 0xd5d564b1; 0x4e4ed29c; 0xa9a9e049;
  0x6c6cb4d8; 0x5656faac; 0xf4f407f3; 0xeaea25cf;
  0x6565afca; 0x7a7a8ef4; 0xaeaee947; 0x08081810;
  0xbabad56f; 0x787888f0; 0x25256f4a; 0x2e2e725c;
  0x1c1c2438; 0xa6a6f157; 0xb4b4c773; 0xc6c65197;
  0xe8e823cb; 0xdddd7ca1; 0x74749ce8; 0x1f1f213e;
  0x4b4bdd96; 0xbdbddc61; 0x8b8b860d; 0x8a8a850f;
  0x707090e0; 0x3e3e427c; 0xb5b5c471; 0x6666aacc;
  0x4848d890; 0x03030506; 0xf6f601f7; 0x0e0e121c;
  0x6161a3c2; 0x35355f6a; 0x5757f9ae; 0xb9b9d069;
  0x86869117; 0xc1c15899; 0x1d1d273a; 0x9e9eb927;
  0xe1e138d9; 0xf8f813eb; 0x9898b32b; 0x11113322;
  0x6969bbd2; 0xd9d970a9; 0x8e8e8907; 0x9494a733;
  0x9b9bb62d; 0x1e1e223c; 0x87879215; 0xe9e920c9;
  0xcece4987; 0x5555ffaa; 0x28287850; 0xdfdf7aa5;
  0x8c8c8f03; 0xa1a1f859; 0x89898009; 0x0d0d171a;
  0xbfbfda65; 0xe6e631d7; 0x4242c684; 0x6868b8d0;
  0x4141c382; 0x9999b029; 0x2d2d775a; 0x0f0f111e;
  0xb0b0cb7b; 0x5454fca8; 0xbbbbd66d; 0x16163a2c].

Definition rcon : list Z := [
  0x01000000; 0x02000000; 0x04000000; 0x08000000;
  0x10000000; 0x20000000; 0x40000000; 0x80000000;
  0x1b000000; 0x36000000].

(** [t[i]] of an array of words. *)
Definition at_word (t : list Z) (i : Z) : Z := nth (Z.to_nat i) t 0.

Definition GETU32 (pt : list Z) : Z :=
  Z.lxor (Z.lxor (Z.lxor (Z.shiftl (byte_at pt 0) 24) (Z.shiftl (byte_at pt 1) 16))
    (Z.shiftl (byte_at pt 2) 8)) (byte_at pt 3).

Definition PUTU32 (st : Z) : list Z :=
  [u8 (Z.shiftr st 24); u8 (Z.shiftr st 16); u8 (Z.shiftr st 8); u8 st].

(** ** The key schedule *)

(** The word that is mixed into the first word of a group. *)
Definition key_mix (temp : Z) (i : nat) : Z :=
  Z.lxor (Z.lxor (Z.lxor (Z.lxor
    (Z.land (at_word Te2 (Z.land (Z.shiftr temp 16) 0xff)) 0xff000000)
    (Z.land (at_word Te3 (Z.land (Z.shiftr temp 8) 0xff)) 0x00ff0000))
    (Z.land (at_word Te0 (Z.land temp 0xff)) 0x0000ff00))
    (Z.land (at_word Te1 (Z.shiftr temp 24)) 0x000000ff))
    (at_word rcon (Z.of_nat i)).

(** The word that is mixed into the fifth word of a group of eight. *)
Definition key_mix_half (temp : Z) : Z :=
  Z.lxor (Z.lxor (Z.lxor
    (Z.land (at_word Te2 (Z.shiftr temp 24)) 0xff000000)
    (Z.land (at_word Te3 (Z.land (Z.shiftr temp 16) 0xff)) 0x00ff0000))
    (Z.land (at_word Te0 (Z.land (Z.shiftr temp 8) 0xff)) 0x0000ff00))
    (Z.land (at_word Te1 (Z.land temp 0xff)) 0x000000ff).

(** The three loops; [rk] is written through a pointer that moves on, so that
    a round looks at the words of the last one.  The result lists the words
    that are added; [n] rounds are left. *)
Fixpoint setup128 (n i : nat) (r0 r1 r2 r3 : Z) : list Z :=
  match n with
  | O => []
  | S n =>
      let r4 := Z.lxor r0 (key_mix r3 i) in
      let r5 := Z.lxor r1 r4 in
      let r6 := Z.lxor r2 r5 in
      let r7 := Z.lxor r3 r6 in
      [r4; r5; r6; r7] ++ setup128 n (S i) r4 r5 r6 r7
  end.

Fixpoint setup192 (n i : nat) (r0 r1 r2 r3 r4 r5 : Z) : list Z :=
  match n with
  | O => []
  | S n =>
      let r6 := Z.lxor r0 (key_mix r5 i) in
      let r7 := Z.lxor r1 r6 in
      let r8 := Z.lxor r2 r7 in
      let r9 := Z.lxor r3 r8 in
      match n with
      | O => [r6; r7; r8; r9]
      | S _ =>
          let r10 := Z.lxor r4 r9 in
          let r11 := Z.lxor r5 r10 in
          [r6; r7; r8; r9; r10; r11] ++ setup192 n (S i) r6 r7 r8 r9 r10 r11
      end
  end.

Fixpoint setup256 (n i : nat) (r0 r1 r2 r3 r4 r5 r6 r7 : Z) : list Z :=
  match n with
  | O => []
  | S n =>
      let r8 := Z.lxor r0 (key_mix r7 i) in
      let r9 := Z.lxor r1 r8 in
      let r10 := Z.lxor r2 r9 in
      let r11 := Z.lxor r3 r10 in
      match n with
      | O => [r8; r9; r10; r11]
      | S _ =>
          let r12 := Z.lxor r4 (key_mix_half r11) in
          let r13 := Z.lxor r5 r12 in
          let r14 := Z.lxor r6 r13 in
          let r15 := Z.lxor r7 r14 in
          [r8; r9; r10; r11; r12; r13; r14; r15] ++ setup256 n (S i) r8 r9 r10 r11 r12 r13 r14 r15
      end
  end.

(** Returns the number of rounds and the key schedule. *)
Definition rijndaelKeySetupEnc (cipherKey : list Z) (keyBits : Z) : Z * list Z :=
  let w i := GETU32 (drop (4 * i) cipherKey) in
  let rk := [w 0%nat; w 1%nat; w 2%nat; w 3%nat] in
  if keyBits =? 128 then
    (10, rk ++ setup128 10 0 (w 0%nat) (w 1%nat) (w 2%nat) (w 3%nat))
  else
    let rk := rk ++ [w 4%nat; w 5%nat] in
    if keyBits =? 192 then
      (12, rk ++ setup192 8 0 (w 0%nat) (w 1%nat) (w 2%nat) (w 3%nat) (w 4%nat) (w 5%nat))
    else
      let rk := rk ++ [w 6%nat; w 7%nat] in
      if keyBits =? 256 then
        (14, rk ++ setup256 7 0 (w 0%nat) (w 1%nat) (w 2%nat) (w 3%nat) (w 4%nat) (w 5%nat) (w 6%nat) (w 7%nat))
      else (0, rk).

(** ** Encryption *)

(** One column of a full round, from the four columns it depends on. *)
Definition round_column (a b c d k : Z) : Z :=
  Z.lxor (Z.lxor (Z.lxor (Z.lxor
    (at_word Te0 (Z.shiftr a 24))
    (at_word Te1 (Z.land (Z.shiftr b 16) 0xff)))
    (at_word Te2 (Z.land (Z.shiftr c 8) 0xff)))
    (at_word Te3 (Z.land d 0xff))) k.

Definition last_column (a b c d k : Z) : Z :=
  Z.lxor (Z.lxor (Z.lxor (Z.lxor
    (Z.land (at_word Te2 (Z.shiftr a 24)) 0xff000000)
    (Z.land (at_word Te3 (Z.land (Z.shiftr b 16) 0xff)) 0x00ff0000))
    (Z.land (at_word Te0 (Z.land (Z.shiftr c 8) 0xff)) 0x0000ff00))
    (Z.land (at_word Te1 (Z.land d 0xff)) 0x000000ff)) k.

Definition columns : Type := Z * Z * Z * Z.

(** A round with the key words [rk[j]], ..., [rk[j + 3]]. *)
Definition full_round (rk : list Z) (j : Z) (s : columns) : columns :=
  let '(s0, s1, s2, s3) := s in
  (round_column s0 s1 s2 s3 (at_word rk j), round_column s1 s2 s3 s0 (at_word rk (j + 1)),
   round_column s2 s3 s0 s1 (at_word rk (j + 2)), round_column s3 s0 s1 s2 (at_word rk (j + 3))).

(** The loop does two rounds at a time and is left in the middle; [r] rounds
    of it are left, and [rk] is the pointer.  Returns [t] and the pointer.
    [rijndaelEncrypt] enters it with [Nr >> 1], which is at least 5, so that the
    case of 0 is not reached. *)
Fixpoint round_loop (r : nat) (rk : list Z) (s : columns) : columns * list Z :=
  match r with
  | O => (s, rk)
  | S r =>
      let t := full_round rk 4 s in
      let rk := drop 8 rk in
      match r with
      | O => (t, rk)
      | S _ => round_loop r rk (full_round rk 0 t)
      end
  end.

Definition rijndaelEncrypt (rk : list Z) (Nr : Z) (pt : list Z) : list Z :=
  let s := (Z.lxor (GETU32 pt) (at_word rk 0), Z.lxor (GETU32 (drop 4 pt)) (at_word rk 1),
            Z.lxor (GETU32 (drop 8 pt)) (at_word rk 2), Z.lxor (GETU32 (drop 12 pt)) (at_word rk 3)) in
  let '((t0, t1, t2, t3), rk) := round_loop (Z.to_nat (Z.shiftr Nr 1)) rk s in
  PUTU32 (last_column t0 t1 t2 t3 (at_word rk 0)) ++ PUTU32 (last_column t1 t2 t3 t0 (at_word rk 1)) ++
  PUTU32 (last_column t2 t3 t0 t1 (at_word rk 2)) ++ PUTU32 (last_column t3 t0 t1 t2 (at_word rk 3)).

(** ** FIPS 197 *)

(** Multiplication by x, and multiplication, in GF(2^8). *)
Definition xtime (b : Z) : Z :=
  let b2 := Z.shiftl b 1 in if b2 >=? 256 then Z.lxor b2 0x11b else b2.

Fixpoint gmul_bits (n : nat) (a b : Z) : Z :=
  match n with
  | O => 0
  | S n => Z.lxor (if Z.odd a then b else 0) (gmul_bits n (Z.shiftr a 1) (xtime b))
  end.

Definition gmul (a b : Z) : Z := gmul_bits 8 a b.

(** The inverse is the power 254; it maps zero to zero. *)
Definition ginv (b : Z) : Z :=
  let b2 := gmul b b in let b3 := gmul b2 b in let b6 := gmul b3 b3 in let b12 := gmul b6 b6 in
  let b15 := gmul b12 b3 in let b30 := gmul b15 b15 in let b60 := gmul b30 b30 in
  let b120 := gmul b60 b60 in let b126 := gmul b120 b6 in let b127 := gmul b126 b in gmul b127 b127.

(** The affine transformation: bit i of the result is the sum of bits i, i+4,
    i+5, i+6 and i+7 of the argument and bit i of 63. *)
Definition rotl8 (b : Z) (n : Z) : Z := u8 (Z.lor (Z.shiftl b n) (Z.shiftr b (8 - n))).

Definition sbox (b : Z) : Z :=
  let i := ginv b in
  Z.lxor (Z.lxor (Z.lxor (Z.lxor (Z.lxor i (rotl8 i 1)) (rotl8 i 2)) (rotl8 i 3)) (rotl8 i 4)) 0x63.

(** A state is 16 octets, column by column. *)
Definition SubBytes (s : list Z) : list Z := map sbox s.

Definition ShiftRows (s : list Z) : list Z :=
  map (byte_at s) [0; 5; 10; 15; 4; 9; 14; 3; 8; 13; 2; 7; 12; 1; 6; 11]%nat.

Definition MixColumn (a0 a1 a2 a3 : Z) : list Z :=
  [Z.lxor (Z.lxor (Z.lxor (gmul 2 a0) (gmul 3 a1)) a2) a3;
   Z.lxor (Z.lxor (Z.lxor a0 (gmul 2 a1)) (gmul 3 a2)) a3;
   Z.lxor (Z.lxor (Z.lxor a0 a1) (gmul 2 a2)) (gmul 3 a3);
   Z.lxor (Z.lxor (Z.lxor (gmul 3 a0) a1) a2) (gmul 2 a3)].

Definition MixColumns (s : list Z) : list Z :=
  flat_map (fun c => MixColumn (byte_at s (4 * c)) (byte_at s (4 * c + 1)) (byte_at s (4 * c + 2))
                       (byte_at s (4 * c + 3))) [0; 1; 2; 3]%nat.

(** The octets of four words of the key schedule. *)
Definition round_key (w : list Z) (round : nat) : list Z :=
  flat_map (fun i => PUTU32 (nth (4 * round + i) w 0)) [0; 1; 2; 3]%nat.

Definition AddRoundKey (s : list Z) (w : list Z) (round : nat) : list Z :=
  zip_with Z.lxor s (round_key w round).

Fixpoint Rounds (n round : nat) (w s : list Z) : list Z :=
  match n with
  | O => s
  | S n => Rounds n (S round) w (AddRoundKey (MixColumns (ShiftRows (SubBytes s))) w round)
  end.

Definition Cipher (Nr : nat) (w s : list Z) : list Z :=
  let s := AddRoundKey s w 0 in
  let s := Rounds (Nr - 1) 1 w s in
  AddRoundKey (ShiftRows (SubBytes s)) w Nr.

(** Words of the key schedule are four octets, the first one on top. *)
Definition word_of (l : list Z) : Z := GETU32 l.

Definition SubWord (w : Z) : Z := word_of (map sbox (PUTU32 w)).

Definition RotWord (w : Z) : Z :=
  word_of [u8 (Z.shiftr w 16); u8 (Z.shiftr w 8); u8 w; u8 (Z.shiftr w 24)].

Fixpoint x_power (n : nat) : Z := match n with O => 1 | S n => xtime (x_power n) end.

Definition Rcon (i : nat) : Z := word_of [x_power (i - 1); 0; 0; 0].

(** [n] more words after [w], in groups of [Nk]. *)
Fixpoint KeyExpansion (Nk n : nat) (w : list Z) : list Z :=
  match n with
  | O => w
  | S n =>
      let i := length w in
      let temp := nth (i - 1) w 0 in
      let temp :=
        if (i mod Nk =? 0)%nat then Z.lxor (SubWord (RotWord temp)) (Rcon (i / Nk))
        else if (6 <? Nk)%nat && (i mod Nk =? 4)%nat then SubWord temp else temp in
      KeyExpansion Nk n (w ++ [Z.lxor (nth (i - Nk) w 0) temp])
  end.

Definition AES (key block : list Z) : list Z :=
  let Nk := (length key / 4)%nat in
  let Nr := (Nk + 6)%nat in
  let w := map (fun i => word_of (drop (4 * i) key)) (seq 0 Nk) in
  Cipher Nr (KeyExpansion Nk (4 * (Nr + 1) - Nk) w) block.

(** The example vectors of FIPS 197, appendix C. *)
Definition fips_block : list Z :=
  [0x00; 0x11; 0x22; 0x33; 0x44; 0x55; 0x66; 0x77; 0x88; 0x99; 0xaa; 0xbb; 0xcc; 0xdd; 0xee; 0xff].

Definition fips_key (n : nat) : list Z := map Z.of_nat (seq 0 n).

Example aes_fips128 : AES (fips_key 16) fips_block =
  [0x69; 0xc4; 0xe0; 0xd8; 0x6a; 0x7b; 0x04; 0x30; 0xd8; 0xcd; 0xb7; 0x80; 0x70; 0xb4; 0xc5; 0x5a].
Proof. vm_compute. reflexivity. Qed.

Example aes_fips256 : AES (fips_key 32) fips_block =
  [0x8e; 0xa2; 0xb7; 0xca; 0x51; 0x67; 0x45; 0xbf; 0xea; 0xfc; 0x49; 0x90; 0x4b; 0x49; 0x60; 0x89].
Proof. vm_compute. reflexivity. Qed.

Example rijndael_fips192 :
  (let '(Nr, rk) := rijndaelKeySetupEnc (fips_key 24) 192 in rijndaelEncrypt rk Nr fips_block) =
  [0xdd; 0xa9; 0x7c; 0xa4; 0x86; 0x4c; 0xdf; 0xe0; 0x6e; 0xaf; 0x70; 0xa0; 0xec; 0x0d; 0x71; 0x91].
Proof. vm_compute. reflexivity. Qed.

(** ** Words and octets *)

Definition is_w32 (w : Z) : Prop := 0 <= w < 2 ^ 32.

(** The octets of a word, the first one on top. *)
Definition B0 (w : Z) : Z := u8 (Z.shiftr w 24).
Definition B1 (w : Z) : Z := u8 (Z.shiftr w 16).
Definition B2 (w : Z) : Z := u8 (Z.shiftr w 8).
Definition B3 (w : Z) : Z := u8 w.

Lemma PUTU32_B w : PUTU32 w = [B0 w; B1 w; B2 w; B3 w].
Proof. done. Qed.

Lemma u8_land x : u8 x = Z.land x 255.
Proof. symmetry. apply land_255. Qed.

Lemma u8_op_land x y : u8 (Z.land x y) = Z.land (u8 x) (u8 y).
Proof.
  rewrite !u8_land. apply Z.bits_inj'. intros n Hn. rewrite !Z.land_spec.
  destruct (Z.testbit x n), (Z.testbit y n), (Z.testbit 255 n); done.
Qed.

Lemma PUTU32_lxor x y : PUTU32 (Z.lxor x y) = zip_with Z.lxor (PUTU32 x) (PUTU32 y).
Proof. unfold PUTU32. cbn [zip_with]. by rewrite !Z.shiftr_lxor, !u8_lxor. Qed.

Lemma PUTU32_land x y : PUTU32 (Z.land x y) = zip_with Z.land (PUTU32 x) (PUTU32 y).
Proof. unfold PUTU32. cbn [zip_with]. by rewrite !Z.shiftr_land, !u8_op_land. Qed.

Lemma is_w32_lxor x y : is_w32 x -> is_w32 y -> is_w32 (Z.lxor x y).
Proof.
  unfold is_w32. intros Hx Hy.
  rewrite <- (Z.mod_small x (2 ^ 32)), <- (Z.mod_small y (2 ^ 32)) by done.
  rewrite <- !Z.land_ones by lia.
  replace (Z.lxor _ _) with (Z.land (Z.lxor x y) (Z.ones 32)).
  - rewrite Z.land_ones by lia. apply Z.mod_pos_bound. lia.
  - apply Z.bits_inj'. intros n Hn. rewrite !Z.land_spec, !Z.lxor_spec, !Z.land_spec.
    destruct (Z.testbit x n), (Z.testbit y n), (Z.testbit (Z.ones 32) n); done.
Qed.

Lemma is_w32_land x y : is_w32 x -> 0 <= y -> is_w32 (Z.land x y).
Proof.
  unfold is_w32. intros Hx Hy. split; [apply Z.land_nonneg; lia|].
  pose proof (Z.land_nonneg x y). destruct (Z.eq_dec (Z.land x y) 0) as [->|Hne]; [lia|].
  apply Z.log2_lt_pow2; [lia|]. pose proof (Z.log2_land x y ltac:(lia) Hy).
  destruct (Z.eq_dec x 0) as [->|]; [done|]. assert (Z.log2 x < 32) by (apply Z.log2_lt_pow2; lia). lia.
Qed.

Lemma u8_byte x : is_byte (u8 x).
Proof. apply Z.mod_pos_bound. lia. Qed.

Lemma bytes_ok_PUTU32 v : bytes_ok (PUTU32 v).
Proof. unfold PUTU32. repeat (apply Forall_cons_2; [apply u8_byte|]). apply Forall_nil_2. Qed.

Lemma GETU32_value a b c d rest :
  is_byte a -> is_byte b -> is_byte c -> is_byte d ->
  GETU32 ([a; b; c; d] ++ rest) = a * 2 ^ 24 + b * 2 ^ 16 + c * 2 ^ 8 + d.
Proof.
  unfold is_byte, GETU32, byte_at. cbn [lookup list_lookup app from_option id]. intros Ha Hb Hc Hd.
  rewrite !Z.shiftl_mul_pow2 by lia.
  assert (Hx : forall x y n, 0 <= n -> 0 <= y < 2 ^ n -> x mod 2 ^ n = 0 -> Z.lxor x y = x + y).
  { intros x y n Hn Hy Hx. symmetry. apply Z.add_nocarry_lxor. apply Z.bits_inj'. intros k Hk.
    rewrite Z.land_spec, Z.bits_0. destruct (Z.lt_ge_cases k n) as [Hlt|Hge].
    - rewrite <- (Z.mod_pow2_bits_low x n k) by lia. by rewrite Hx, Z.bits_0.
    - destruct (Z.eq_dec y 0) as [->|]; [by rewrite Z.bits_0, andb_false_r|].
      rewrite (Z.bits_above_log2 y k); [apply andb_false_r|lia|].
      apply Z.log2_lt_pow2; [lia|]. apply Z.lt_le_trans with (2 ^ n); [lia|].
      apply Z.pow_le_mono_r; lia. }
  rewrite (Hx (a * 2 ^ 24) (b * 2 ^ 16) 24) by dm_lia.
  rewrite (Hx _ (c * 2 ^ 8) 16) by dm_lia. rewrite (Hx _ d 8) by dm_lia. done.
Qed.

Lemma PUTU32_GETU32 a b c d rest :
  is_byte a -> is_byte b -> is_byte c -> is_byte d -> PUTU32 (GETU32 ([a; b; c; d] ++ rest)) = [a; b; c; d].
Proof.
  intros Ha Hb Hc Hd. rewrite GETU32_value by done. unfold PUTU32, u8, is_byte in *.
  rewrite !Z.shiftr_div_pow2 by lia. repeat f_equal; dm_lia.
Qed.

Lemma is_w32_GETU32 a b c d rest :
  is_byte a -> is_byte b -> is_byte c -> is_byte d -> is_w32 (GETU32 ([a; b; c; d] ++ rest)).
Proof. intros Ha Hb Hc Hd. rewrite GETU32_value by done. unfold is_w32, is_byte in *. lia. Qed.

Lemma GETU32_PUTU32 w : is_w32 w -> GETU32 (PUTU32 w) = w.
Proof.
  unfold is_w32. intros Hw. rewrite <- (app_nil_r (PUTU32 w)). unfold PUTU32.
  rewrite GETU32_value by apply u8_byte. unfold u8. rewrite !Z.shiftr_div_pow2 by lia. dm_lia.
Qed.

(** Words with the same octets are the same. *)
Lemma word_ext x y : is_w32 x -> is_w32 y -> PUTU32 x = PUTU32 y -> x = y.
Proof. intros Hx Hy E. rewrite <- (GETU32_PUTU32 x), <- (GETU32_PUTU32 y) by done. by rewrite E. Qed.

Lemma B_bytes w : is_byte (B0 w) /\ is_byte (B1 w) /\ is_byte (B2 w) /\ is_byte (B3 w).
Proof. split_and!; apply u8_byte. Qed.

Lemma shiftr_B0 w : is_w32 w -> Z.shiftr w 24 = B0 w.
Proof. unfold is_w32, B0, u8. intros Hw. rewrite Z.shiftr_div_pow2 by lia. dm_lia. Qed.

Lemma land_B1 w : Z.land (Z.shiftr w 16) 0xff = B1 w.
Proof. apply land_255. Qed.
Lemma land_B2 w : Z.land (Z.shiftr w 8) 0xff = B2 w.
Proof. apply land_255. Qed.
Lemma land_B3 w : Z.land w 0xff = B3 w.
Proof. apply land_255. Qed.

(** ** What the tables hold *)

Definition table_row (t : list Z) (row : Z -> list Z) (x : Z) : bool :=
  bool_decide (PUTU32 (at_word t x) = row x) && bool_decide (0 <= at_word t x < 2 ^ 32).

Definition all_bytes : list Z := map Z.of_nat (seq 0 256).

Lemma table_spec t row x :
  forallb (table_row t row) all_bytes = true -> is_byte x ->
  PUTU32 (at_word t x) = row x /\ is_w32 (at_word t x).
Proof.
  unfold is_byte. intros H Hx. rewrite forallb_forall in H.
  specialize (H x). unfold all_bytes in H. rewrite in_map_iff in H.
  assert (table_row t row x = true) as Hr.
  { apply H. exists (Z.to_nat x). split; [lia|]. apply in_seq. lia. }
  unfold table_row in Hr. apply andb_true_iff in Hr as [H1%bool_decide_eq_true H2%bool_decide_eq_true]. done.
Qed.

Definition row0 (x : Z) := [gmul 2 (sbox x); sbox x; sbox x; gmul 3 (sbox x)].
Definition row1 (x : Z) := [gmul 3 (sbox x); gmul 2 (sbox x); sbox x; sbox x].
Definition row2 (x : Z) := [sbox x; gmul 3 (sbox x); gmul 2 (sbox x); sbox x].
Definition row3 (x : Z) := [sbox x; sbox x; gmul 3 (sbox x); gmul 2 (sbox x)].

Lemma Te0_spec x : is_byte x -> PUTU32 (at_word Te0 x) = row0 x /\ is_w32 (at_word Te0 x).
Proof. apply table_spec. vm_compute. reflexivity. Qed.
Lemma Te1_spec x : is_byte x -> PUTU32 (at_word Te1 x) = row1 x /\ is_w32 (at_word Te1 x).
Proof. apply table_spec. vm_compute. reflexivity. Qed.
Lemma Te2_spec x : is_byte x -> PUTU32 (at_word Te2 x) = row2 x /\ is_w32 (at_word Te2 x).
Proof. apply table_spec. vm_compute. reflexivity. Qed.
Lemma Te3_spec x : is_byte x -> PUTU32 (at_word Te3 x) = row3 x /\ is_w32 (at_word Te3 x).
Proof. apply table_spec. vm_compute. reflexivity. Qed.

#[local] Opaque Te0 Te1 Te2 Te3 sbox gmul.

Lemma sbox_byte x : is_byte x -> is_byte (sbox x).
Proof.
  intros Hx. destruct (Te0_spec x Hx) as [E _]. rewrite PUTU32_B in E. unfold row0 in E.
  pose proof (f_equal (fun l => nth 1 l 0) E) as H. cbn [nth] in H. rewrite <- H. apply u8_byte.
Qed.

(** ** One round *)

Lemma w32_bytes w : is_w32 w -> is_byte (B0 w) /\ is_byte (B1 w) /\ is_byte (B2 w) /\ is_byte (B3 w).
Proof. intros _. apply B_bytes. Qed.

Lemma round_column_spec a b c d k :
  is_w32 a -> is_w32 k ->
  PUTU32 (round_column a b c d k) =
    zip_with Z.lxor (MixColumn (sbox (B0 a)) (sbox (B1 b)) (sbox (B2 c)) (sbox (B3 d))) (PUTU32 k) /\
  is_w32 (round_column a b c d k).
Proof.
  intros Ha Hk. unfold round_column. rewrite (shiftr_B0 a), (land_B1 b), (land_B2 c), (land_B3 d) by done.
  destruct (Te0_spec (B0 a)) as [E0 W0]; [apply u8_byte|].
  destruct (Te1_spec (B1 b)) as [E1 W1]; [apply u8_byte|].
  destruct (Te2_spec (B2 c)) as [E2 W2]; [apply u8_byte|].
  destruct (Te3_spec (B3 d)) as [E3 W3]; [apply u8_byte|].
  split; [|auto using is_w32_lxor]. rewrite !PUTU32_lxor, E0, E1, E2, E3. done.
Qed.

Lemma masks :
  PUTU32 0xff000000 = [255; 0; 0; 0] /\ PUTU32 0x00ff0000 = [0; 255; 0; 0] /\
  PUTU32 0x0000ff00 = [0; 0; 255; 0] /\ PUTU32 0x000000ff = [0; 0; 0; 255].
Proof. done. Qed.

Lemma land_byte_255 b : is_byte b -> Z.land b 255 = b.
Proof. intros Hb. rewrite land_255. by apply Z.mod_small. Qed.

(** Four table entries, each cut down to the octet that is the S-box. *)
Lemma masked_spec x y z t :
  is_byte x -> is_byte y -> is_byte z -> is_byte t ->
  let w := Z.lxor (Z.lxor (Z.lxor
    (Z.land (at_word Te2 x) 0xff000000) (Z.land (at_word Te3 y) 0x00ff0000))
    (Z.land (at_word Te0 z) 0x0000ff00)) (Z.land (at_word Te1 t) 0x000000ff) in
  PUTU32 w = [sbox x; sbox y; sbox z; sbox t] /\ is_w32 w.
Proof.
  intros Hx Hy Hz Ht. cbv zeta.
  destruct (Te2_spec x Hx) as [E2 W2]. destruct (Te3_spec y Hy) as [E3 W3].
  destruct (Te0_spec z Hz) as [E0 W0]. destruct (Te1_spec t Ht) as [E1 W1].
  destruct masks as (M0 & M1 & M2 & M3).
  split; [|repeat apply is_w32_lxor; apply is_w32_land; done].
  rewrite !PUTU32_lxor, !PUTU32_land, E0, E1, E2, E3, M0, M1, M2, M3.
  unfold row0, row1, row2, row3. cbn [zip_with].
  rewrite !Z.land_0_r, !Z.lxor_0_r, !Z.lxor_0_l, !land_byte_255 by (by apply sbox_byte). done.
Qed.

Lemma last_column_spec a b c d k :
  is_w32 a -> is_w32 k ->
  PUTU32 (last_column a b c d k) =
    zip_with Z.lxor [sbox (B0 a); sbox (B1 b); sbox (B2 c); sbox (B3 d)] (PUTU32 k).
Proof.
  intros Ha Hk. unfold last_column. rewrite (shiftr_B0 a), (land_B1 b), (land_B2 c), (land_B3 d) by done.
  rewrite PUTU32_lxor. destruct (masked_spec (B0 a) (B1 b) (B2 c) (B3 d)) as [E _];
    [apply u8_byte..|]. by rewrite E.
Qed.

(** The octets of the four columns. *)
Definition st (s : columns) : list Z :=
  let '(s0, s1, s2, s3) := s in PUTU32 s0 ++ PUTU32 s1 ++ PUTU32 s2 ++ PUTU32 s3.

Definition columns_ok (s : columns) : Prop :=
  let '(s0, s1, s2, s3) := s in is_w32 s0 /\ is_w32 s1 /\ is_w32 s2 /\ is_w32 s3.

Definition words32 (w : list Z) : Prop := Forall is_w32 w.

Lemma at_word_ok w j : words32 w -> is_w32 (at_word w j).
Proof.
  intros Hw. unfold at_word. destruct (nth_in_or_default (Z.to_nat j) w 0) as [Hin | ->]; [|done].
  unfold words32 in Hw. rewrite Forall_forall in Hw. by apply Hw.
Qed.

Lemma at_word_drop w n j : 0 <= j -> at_word (drop n w) j = nth (n + Z.to_nat j) w 0.
Proof.
  intros Hj. unfold at_word. rewrite !nth_lookup, lookup_drop. done.
Qed.

(** A full round with the key words at [4 * round]. *)
Lemma full_round_spec w n j round s :
  words32 w -> columns_ok s -> 0 <= j -> (n + Z.to_nat j = 4 * round)%nat ->
  st (full_round (drop n w) j s) = AddRoundKey (MixColumns (ShiftRows (SubBytes (st s)))) w round /\
  columns_ok (full_round (drop n w) j s).
Proof.
  destruct s as [[[s0 s1] s2] s3]. intros Hw (H0 & H1 & H2 & H3) Hj Hn.
  assert (Hd : words32 (drop n w)) by (by apply Forall_drop).
  unfold full_round, st, columns_ok.
  destruct (round_column_spec s0 s1 s2 s3 (at_word (drop n w) j)) as [E0 W0]; [done|by apply at_word_ok|].
  destruct (round_column_spec s1 s2 s3 s0 (at_word (drop n w) (j + 1))) as [E1 W1]; [done|by apply at_word_ok|].
  destruct (round_column_spec s2 s3 s0 s1 (at_word (drop n w) (j + 2))) as [E2 W2]; [done|by apply at_word_ok|].
  destruct (round_column_spec s3 s0 s1 s2 (at_word (drop n w) (j + 3))) as [E3 W3]; [done|by apply at_word_ok|].
  split; [|done]. rewrite E0, E1, E2, E3. rewrite !at_word_drop by lia.
  replace (n + Z.to_nat j)%nat with (4 * round + 0)%nat by lia.
  replace (n + Z.to_nat (j + 1))%nat with (4 * round + 1)%nat by lia.
  replace (n + Z.to_nat (j + 2))%nat with (4 * round + 2)%nat by lia.
  replace (n + Z.to_nat (j + 3))%nat with (4 * round + 3)%nat by lia.
  rewrite !(PUTU32_B s0), !(PUTU32_B s1), !(PUTU32_B s2), !(PUTU32_B s3).
  unfold AddRoundKey, round_key, MixColumns, ShiftRows, SubBytes. cbn [flat_map app].
  rewrite !PUTU32_B. unfold byte_at, MixColumn.
  cbn [map lookup list_lookup from_option id app zip_with Nat.mul Nat.add]. reflexivity.
Qed.

Lemma Rounds_app n m round w s : Rounds (n + m) round w s = Rounds m (round + n) w (Rounds n round w s).
Proof.
  revert round s. induction n as [|n IH]; intros round s; cbn [Rounds Nat.add]; [by rewrite Nat.add_0_r|].
  rewrite IH. f_equal. lia.
Qed.

(** The loop of [r] double rounds, left in the middle of the last one. *)
Lemma round_loop_spec r p w s :
  words32 w -> columns_ok s ->
  exists t, round_loop (S r) (drop (8 * p) w) s = (t, drop (8 * (p + S r)) w) /\
    st t = Rounds (2 * r + 1) (2 * p + 1) w (st s) /\ columns_ok t.
Proof.
  intros Hw. revert p s. induction r as [|r IH]; intros p s Hs; cbn [round_loop].
  - destruct (full_round_spec w (8 * p) 4 (2 * p + 1) s) as [E H]; [done|done|lia|lia|].
    eexists. rewrite drop_drop. replace (8 * p + 8)%nat with (8 * (p + 1))%nat by lia.
    split; [done|]. split; [exact E|done].
  - destruct (full_round_spec w (8 * p) 4 (2 * p + 1) s) as [E1 H1]; [done|done|lia|lia|].
    rewrite drop_drop. replace (8 * p + 8)%nat with (8 * (p + 1))%nat by lia.
    set (t := full_round (drop (8 * p) w) 4 s) in *.
    destruct (full_round_spec w (8 * (p + 1)) 0 (2 * p + 2) t) as [E2 H2]; [done|done|lia|lia|].
    destruct (IH (p + 1)%nat _ H2) as (t' & E & Hst & Hok). cbn [round_loop] in E. exists t'.
    replace (p + S (S r))%nat with (p + 1 + S r)%nat by lia. split; [exact E|]. split; [|done].
    rewrite Hst, E2, E1. replace (2 * S r + 1)%nat with (2 + (2 * r + 1))%nat by lia.
    rewrite (Rounds_app 2 (2 * r + 1)). replace (2 * (p + 1) + 1)%nat with (2 * p + 1 + 2)%nat by lia.
    replace (2 * p + 2)%nat with (S (2 * p + 1)) by lia. reflexivity.
Qed.

Lemma state_of_block pt w :
  bytes_ok pt -> length pt = 16%nat -> words32 w ->
  let s := (Z.lxor (GETU32 pt) (at_word w 0), Z.lxor (GETU32 (drop 4 pt)) (at_word w 1),
            Z.lxor (GETU32 (drop 8 pt)) (at_word w 2), Z.lxor (GETU32 (drop 12 pt)) (at_word w 3)) in
  st s = AddRoundKey pt w 0 /\ columns_ok s.
Proof.
  intros Hb Hl Hw. cbv zeta.
  destruct pt as [|z0 [|z1 [|z2 [|z3 [|z4 [|z5 [|z6 [|z7 [|z8 [|z9 [|z10 [|z11 [|z12 [|z13 [|z14 [|z15
    [|]]]]]]]]]]]]]]]]]; try discriminate Hl.
  repeat match goal with H : Forall is_byte (_ :: _) |- _ => apply Forall_cons_1 in H as [? H] end.
  cbn [drop].
  change (z0 :: z1 :: z2 :: z3 :: ?l) with ([z0; z1; z2; z3] ++ l).
  change (z4 :: z5 :: z6 :: z7 :: ?l) with ([z4; z5; z6; z7] ++ l).
  change (z8 :: z9 :: z10 :: z11 :: ?l) with ([z8; z9; z10; z11] ++ l).
  change [z12; z13; z14; z15] with ([z12; z13; z14; z15] ++ []).
  split.
  - unfold st. rewrite !PUTU32_lxor. rewrite !PUTU32_GETU32 by done.
    unfold AddRoundKey, round_key, at_word. cbn [flat_map]. rewrite !PUTU32_B. reflexivity.
  - split_and!; apply is_w32_lxor; try (by apply is_w32_GETU32); by apply at_word_ok.
Qed.

Lemma rijndaelEncrypt_spec w Nr pt :
  words32 w -> bytes_ok pt -> length pt = 16%nat -> 0 < Nr -> Nr mod 2 = 0 ->
  rijndaelEncrypt w Nr pt = Cipher (Z.to_nat Nr) w pt.
Proof.
  intros Hw Hb Hl HN Heven. unfold rijndaelEncrypt, Cipher.
  destruct (state_of_block pt w Hb Hl Hw) as [<- Hs]. set (s := (_, _, _, _)) in *. clearbody s.
  rewrite Z.shiftr_div_pow2 by lia. change (2 ^ 1) with 2.
  assert (exists r, Z.to_nat (Nr / 2) = S r) as [r Er].
  { exists (Z.to_nat (Nr / 2) - 1)%nat. assert (0 < Nr / 2) by dm_lia. lia. }
  destruct (round_loop_spec r 0 w s Hw Hs) as (t & E & Hst & Hok).
  rewrite Er. change (drop (8 * 0) w) with w in E. rewrite E.
  replace (Z.to_nat Nr - 1)%nat with (2 * r + 1)%nat by dm_lia.
  change (2 * 0 + 1)%nat with 1%nat in Hst. rewrite <- Hst. clear E Hst s Hs.
  destruct t as [[[t0 t1] t2] t3]. destruct Hok as (H0 & H1 & H2 & H3).
  rewrite !last_column_spec by (done || by apply at_word_ok, Forall_drop).
  rewrite !at_word_drop by lia.
  replace (8 * (0 + S r))%nat with (4 * Z.to_nat Nr)%nat by dm_lia.
  unfold AddRoundKey, round_key, ShiftRows, SubBytes, st. cbn [flat_map app]. rewrite !PUTU32_B.
  change (Z.to_nat 0) with 0%nat. change (Z.to_nat 1) with 1%nat.
  change (Z.to_nat 2) with 2%nat. change (Z.to_nat 3) with 3%nat.
  unfold byte_at. cbn [map lookup list_lookup from_option id app zip_with]. reflexivity.
Qed.

(** ** The key schedule *)

Lemma SubWord_spec w :
  PUTU32 (SubWord w) = [sbox (B0 w); sbox (B1 w); sbox (B2 w); sbox (B3 w)] /\ is_w32 (SubWord w).
Proof.
  destruct (B_bytes w) as (H0 & H1 & H2 & H3).
  unfold SubWord, word_of. rewrite PUTU32_B. cbn [map]. rewrite <- (app_nil_r [_; _; _; _]).
  split; [apply PUTU32_GETU32|apply is_w32_GETU32]; by apply sbox_byte.
Qed.

Lemma PUTU32_RotWord w : PUTU32 (RotWord w) = [B1 w; B2 w; B3 w; B0 w].
Proof.
  unfold RotWord, word_of. rewrite <- (app_nil_r [_; _; _; _]). apply PUTU32_GETU32; apply u8_byte.
Qed.

Lemma SubWord_RotWord w :
  PUTU32 (SubWord (RotWord w)) = [sbox (B1 w); sbox (B2 w); sbox (B3 w); sbox (B0 w)].
Proof.
  destruct (SubWord_spec (RotWord w)) as [-> _].
  pose proof (PUTU32_RotWord w) as E. rewrite PUTU32_B in E.
  change [sbox (B0 (RotWord w)); sbox (B1 (RotWord w)); sbox (B2 (RotWord w)); sbox (B3 (RotWord w))]
    with (map sbox [B0 (RotWord w); B1 (RotWord w); B2 (RotWord w); B3 (RotWord w)]).
  by rewrite E.
Qed.

Lemma rcon_spec i : (i < 10)%nat -> at_word rcon (Z.of_nat i) = Rcon (S i) /\ is_w32 (Rcon (S i)).
Proof.
  intros Hi. do 10 (destruct i as [|i]; [by vm_compute|]). lia.
Qed.

Lemma key_mix_spec temp i :
  is_w32 temp -> (i < 10)%nat -> key_mix temp i = Z.lxor (SubWord (RotWord temp)) (Rcon (S i)).
Proof.
  intros Ht Hi. unfold key_mix. destruct (rcon_spec i Hi) as [-> _]. f_equal.
  rewrite (shiftr_B0 temp), (land_B1 temp), (land_B2 temp), (land_B3 temp) by done.
  destruct (masked_spec (B1 temp) (B2 temp) (B3 temp) (B0 temp)) as [E W]; [apply u8_byte..|].
  apply word_ext; [exact W|apply SubWord_spec|]. rewrite SubWord_RotWord. exact E.
Qed.

Lemma key_mix_half_spec temp : is_w32 temp -> key_mix_half temp = SubWord temp.
Proof.
  intros Ht. unfold key_mix_half.
  rewrite (shiftr_B0 temp), (land_B1 temp), (land_B2 temp), (land_B3 temp) by done.
  destruct (masked_spec (B0 temp) (B1 temp) (B2 temp) (B3 temp)) as [E W]; [apply u8_byte..|].
  apply word_ext; [exact W|apply SubWord_spec|]. destruct (SubWord_spec temp) as [-> _]. exact E.
Qed.

Lemma is_w32_key_mix temp i : is_w32 temp -> (i < 10)%nat -> is_w32 (key_mix temp i).
Proof.
  intros Ht Hi. rewrite key_mix_spec by done. apply is_w32_lxor; [apply SubWord_spec|by apply rcon_spec].
Qed.

Lemma is_w32_key_mix_half temp : is_w32 temp -> is_w32 (key_mix_half temp).
Proof. intros Ht. rewrite key_mix_half_spec by done. apply SubWord_spec. Qed.

(** What is added to the word [Nk] places back: word [k] of group [j]. *)
Definition expand_temp (Nk j k : nat) (temp : Z) : Z :=
  if (k =? 0)%nat then Z.lxor (SubWord (RotWord temp)) (Rcon j)
  else if (6 <? Nk)%nat && (k =? 4)%nat then SubWord temp else temp.

Lemma KeyExpansion_step Nk n j k pre g :
  (0 < Nk)%nat -> length pre = (Nk * j)%nat -> length g = (Nk + k)%nat -> (k < Nk)%nat ->
  KeyExpansion Nk (S n) (pre ++ g) =
    KeyExpansion Nk n (pre ++ (g ++ [Z.lxor (nth k g 0) (expand_temp Nk (S j) k (nth (Nk + k - 1) g 0))])).
Proof.
  intros HNk Hpre Hg Hk. cbn [KeyExpansion]. rewrite length_app, Hpre, Hg, <- app_assoc.
  replace ((Nk * j + (Nk + k)) mod Nk)%nat with k
    by (replace (Nk * j + (Nk + k))%nat with (k + S j * Nk)%nat by lia;
        rewrite Nat.Div0.mod_add; by rewrite Nat.mod_small).
  replace ((Nk * j + (Nk + k)) / Nk)%nat with (S j)
    by (replace (Nk * j + (Nk + k))%nat with (k + S j * Nk)%nat by lia;
        rewrite Nat.div_add, Nat.div_small by lia; done).
  rewrite !app_nth2 by lia. rewrite Hpre.
  replace (Nk * j + (Nk + k) - Nk - Nk * j)%nat with k by lia.
  replace (Nk * j + (Nk + k) - 1 - Nk * j)%nat with (Nk + k - 1)%nat by lia. done.
Qed.

(** One word at a time, when the words so far are [pre ++ g] with [g] listed. *)
Ltac expand j k :=
  rewrite (KeyExpansion_step _ _ j k) by (cbn [length]; lia);
  unfold expand_temp at 1; cbn [Nat.eqb Nat.ltb Nat.leb andb nth Nat.add Nat.sub app].

Ltac words32_tac :=
  repeat (first [assumption | lia | apply is_w32_key_mix | apply is_w32_key_mix_half | apply is_w32_lxor]).

Ltac forall_words :=
  unfold words32 in *;
  repeat (apply Forall_cons_2; [first [assumption | match goal with H : forall i, is_w32 _ |- _ => apply H end]|]); first [assumption | apply Forall_nil_2].

Lemma setup128_spec n i pre r0 r1 r2 r3 :
  is_w32 r0 -> is_w32 r1 -> is_w32 r2 -> is_w32 r3 -> length pre = (4 * i)%nat -> (i + n <= 10)%nat ->
  pre ++ [r0; r1; r2; r3] ++ setup128 n i r0 r1 r2 r3 = KeyExpansion 4 (4 * n) (pre ++ [r0; r1; r2; r3]) /\
  words32 (setup128 n i r0 r1 r2 r3).
Proof.
  revert i pre r0 r1 r2 r3. induction n as [|n IH]; intros i pre r0 r1 r2 r3 H0 H1 H2 H3 Hp Hi.
  - split; [done|constructor].
  - cbn [setup128]. set (r4 := Z.lxor r0 _). set (r5 := Z.lxor r1 r4). set (r6 := Z.lxor r2 r5).
    set (r7 := Z.lxor r3 r6).
    assert (is_w32 r4) by words32_tac. assert (is_w32 r5) by words32_tac.
    assert (is_w32 r6) by words32_tac. assert (is_w32 r7) by words32_tac.
    destruct (IH (S i) (pre ++ [r0; r1; r2; r3]) r4 r5 r6 r7) as [E W];
      [done..|rewrite length_app, Hp; cbn; lia|lia|].
    split; [|forall_words].
    replace (4 * S n)%nat with (S (S (S (S (4 * n))))) by lia.
    expand i 0%nat. rewrite <- key_mix_spec by (done || lia). fold r4.
    expand i 1%nat. fold r5. expand i 2%nat. fold r6. expand i 3%nat. fold r7.
    rewrite <- !app_assoc in E. exact E.
Qed.

Lemma setup192_spec n i pre r0 r1 r2 r3 r4 r5 :
  is_w32 r0 -> is_w32 r1 -> is_w32 r2 -> is_w32 r3 -> is_w32 r4 -> is_w32 r5 ->
  length pre = (6 * i)%nat -> (i + S n <= 10)%nat ->
  pre ++ [r0; r1; r2; r3; r4; r5] ++ setup192 (S n) i r0 r1 r2 r3 r4 r5 =
    KeyExpansion 6 (6 * n + 4) (pre ++ [r0; r1; r2; r3; r4; r5]) /\
  words32 (setup192 (S n) i r0 r1 r2 r3 r4 r5).
Proof.
  revert i pre r0 r1 r2 r3 r4 r5.
  induction n as [|n IH]; intros i pre r0 r1 r2 r3 r4 r5 H0 H1 H2 H3 H4 H5 Hp Hi.
  - cbn [setup192]. set (r6 := Z.lxor r0 _). set (r7 := Z.lxor r1 r6). set (r8 := Z.lxor r2 r7).
    set (r9 := Z.lxor r3 r8).
    assert (is_w32 r6) by words32_tac. assert (is_w32 r7) by words32_tac.
    assert (is_w32 r8) by words32_tac. assert (is_w32 r9) by words32_tac.
    split; [|forall_words]. change (6 * 0 + 4)%nat with 4%nat.
    expand i 0%nat. rewrite <- key_mix_spec by (done || lia). fold r6.
    expand i 1%nat. fold r7. expand i 2%nat. fold r8. expand i 3%nat. fold r9. done.
  - remember (S n) as m eqn:Em. cbn [setup192]. rewrite Em at 1. cbv iota.
    set (r6 := Z.lxor r0 _). set (r7 := Z.lxor r1 r6). set (r8 := Z.lxor r2 r7).
    set (r9 := Z.lxor r3 r8). set (r10 := Z.lxor r4 r9). set (r11 := Z.lxor r5 r10). subst m.
    assert (is_w32 r6) by words32_tac. assert (is_w32 r7) by words32_tac.
    assert (is_w32 r8) by words32_tac. assert (is_w32 r9) by words32_tac.
    assert (is_w32 r10) by words32_tac. assert (is_w32 r11) by words32_tac.
    destruct (IH (S i) (pre ++ [r0; r1; r2; r3; r4; r5]) r6 r7 r8 r9 r10 r11) as [E W];
      [done..|rewrite length_app, Hp; cbn; lia|lia|].
    split; [|forall_words].
    replace (6 * S n + 4)%nat with (S (S (S (S (S (S (6 * n + 4))))))) by lia.
    expand i 0%nat. rewrite <- key_mix_spec by (done || lia). fold r6.
    expand i 1%nat. fold r7. expand i 2%nat. fold r8. expand i 3%nat. fold r9.
    expand i 4%nat. fold r10. expand i 5%nat. fold r11.
    rewrite <- !app_assoc in E. exact E.
Qed.

Lemma setup256_spec n i pre r0 r1 r2 r3 r4 r5 r6 r7 :
  is_w32 r0 -> is_w32 r1 -> is_w32 r2 -> is_w32 r3 -> is_w32 r4 -> is_w32 r5 -> is_w32 r6 -> is_w32 r7 ->
  length pre = (8 * i)%nat -> (i + S n <= 10)%nat ->
  pre ++ [r0; r1; r2; r3; r4; r5; r6; r7] ++ setup256 (S n) i r0 r1 r2 r3 r4 r5 r6 r7 =
    KeyExpansion 8 (8 * n + 4) (pre ++ [r0; r1; r2; r3; r4; r5; r6; r7]) /\
  words32 (setup256 (S n) i r0 r1 r2 r3 r4 r5 r6 r7).
Proof.
  revert i pre r0 r1 r2 r3 r4 r5 r6 r7.
  induction n as [|n IH]; intros i pre r0 r1 r2 r3 r4 r5 r6 r7 H0 H1 H2 H3 H4 H5 H6 H7 Hp Hi.
  - cbn [setup256]. set (r8 := Z.lxor r0 _). set (r9 := Z.lxor r1 r8). set (r10 := Z.lxor r2 r9).
    set (r11 := Z.lxor r3 r10).
    assert (is_w32 r8) by words32_tac. assert (is_w32 r9) by words32_tac.
    assert (is_w32 r10) by words32_tac. assert (is_w32 r11) by words32_tac.
    split; [|forall_words]. change (8 * 0 + 4)%nat with 4%nat.
    expand i 0%nat. rewrite <- key_mix_spec by (done || lia). fold r8.
    expand i 1%nat. fold r9. expand i 2%nat. fold r10. expand i 3%nat. fold r11. done.
  - remember (S n) as m eqn:Em. cbn [setup256]. rewrite Em at 1. cbv iota.
    set (r8 := Z.lxor r0 _). set (r9 := Z.lxor r1 r8). set (r10 := Z.lxor r2 r9).
    set (r11 := Z.lxor r3 r10). set (r12 := Z.lxor r4 _). set (r13 := Z.lxor r5 r12).
    set (r14 := Z.lxor r6 r13). set (r15 := Z.lxor r7 r14). subst m.
    assert (is_w32 r8) by words32_tac. assert (is_w32 r9) by words32_tac.
    assert (is_w32 r10) by words32_tac. assert (is_w32 r11) by words32_tac.
    assert (is_w32 r12) by words32_tac. assert (is_w32 r13) by words32_tac.
    assert (is_w32 r14) by words32_tac. assert (is_w32 r15) by words32_tac.
    destruct (IH (S i) (pre ++ [r0; r1; r2; r3; r4; r5; r6; r7]) r8 r9 r10 r11 r12 r13 r14 r15) as [E W];
      [done..|rewrite length_app, Hp; cbn; lia|lia|].
    split; [|forall_words].
    replace (8 * S n + 4)%nat with (S (S (S (S (S (S (S (S (8 * n + 4))))))))) by lia.
    expand i 0%nat. rewrite <- key_mix_spec by (done || lia). fold r8.
    expand i 1%nat. fold r9. expand i 2%nat. fold r10. expand i 3%nat. fold r11.
    expand i 4%nat. rewrite <- key_mix_half_spec by done. fold r12.
    expand i 5%nat. fold r13. expand i 6%nat. fold r14. expand i 7%nat. fold r15.
    rewrite <- !app_assoc in E. exact E.
Qed.

Lemma is_w32_key_word key i : bytes_ok key -> is_w32 (GETU32 (drop i key)).
Proof.
  intros Hk. set (k := drop i key). assert (Hb : bytes_ok k) by (by apply Forall_drop).
  change (GETU32 k) with (GETU32 ([byte_at k 0; byte_at k 1; byte_at k 2; byte_at k 3] ++ [])).
  apply is_w32_GETU32; by apply byte_at_range.
Qed.

#[local] Opaque setup128 setup192 setup256 GETU32.

(** The schedule of the key, and the number of rounds. *)
Lemma rijndaelKeySetupEnc_spec key :
  bytes_ok key -> (length key = 16 \/ length key = 24 \/ length key = 32)%nat ->
  let Nk := (length key / 4)%nat in
  let w := map (fun i => word_of (drop (4 * i) key)) (seq 0 Nk) in
  rijndaelKeySetupEnc key (8 * Z.of_nat (length key)) =
    (Z.of_nat (Nk + 6), KeyExpansion Nk (4 * (Nk + 6 + 1) - Nk) w) /\
  words32 (KeyExpansion Nk (4 * (Nk + 6 + 1) - Nk) w).
Proof.
  intros Hb Hl. cbv zeta. unfold word_of.
  pose proof (fun i => is_w32_key_word key i Hb) as Hw.
  unfold rijndaelKeySetupEnc. destruct Hl as [-> | [-> | ->]].
  - change (16 / 4)%nat with 4%nat. cbn [seq map].
    destruct (setup128_spec 10 0 [] (GETU32 (drop (4 * 0) key)) (GETU32 (drop (4 * 1) key))
      (GETU32 (drop (4 * 2) key)) (GETU32 (drop (4 * 3) key))) as [E W]; [apply Hw..|done|lia|].
    change (4 * 10)%nat with (4 * (4 + 6 + 1) - 4)%nat in E. cbn [app] in E.
    rewrite <- E. split; [done|]. forall_words.
  - change (24 / 4)%nat with 6%nat. cbn [seq map].
    destruct (setup192_spec 7 0 [] (GETU32 (drop (4 * 0) key)) (GETU32 (drop (4 * 1) key))
      (GETU32 (drop (4 * 2) key)) (GETU32 (drop (4 * 3) key)) (GETU32 (drop (4 * 4) key))
      (GETU32 (drop (4 * 5) key))) as [E W]; [apply Hw..|done|lia|].
    change (6 * 7 + 4)%nat with (4 * (6 + 6 + 1) - 6)%nat in E. cbn [app] in E.
    rewrite <- E. split; [done|]. forall_words.
  - change (32 / 4)%nat with 8%nat. cbn [seq map].
    destruct (setup256_spec 6 0 [] (GETU32 (drop (4 * 0) key)) (GETU32 (drop (4 * 1) key))
      (GETU32 (drop (4 * 2) key)) (GETU32 (drop (4 * 3) key)) (GETU32 (drop (4 * 4) key))
      (GETU32 (drop (4 * 5) key)) (GETU32 (drop (4 * 6) key)) (GETU32 (drop (4 * 7) key))) as [E W];
      [apply Hw..|done|lia|].
    change (8 * 6 + 4)%nat with (4 * (8 + 6 + 1) - 8)%nat in E. cbn [app] in E.
    rewrite <- E. split; [done|]. forall_words.
Qed.

(** C13: For a key of 16, 24 or 32 octets and a block of 16, the key schedule of
    [rijndaelKeySetupEnc] followed by [rijndaelEncrypt], with their precomputed
    tables, is the AES of FIPS 197: S-box as inverse and affine map in GF(2^8),
    row shifts, column mixing and key expansion from first principles. *)
Theorem rijndael_encrypt_correct key pt :
  bytes_ok key -> (length key = 16 \/ length key = 24 \/ length key = 32)%nat ->
  bytes_ok pt -> length pt = 16%nat ->
  let '(Nr, rk) := rijndaelKeySetupEnc key (8 * Z.of_nat (length key)) in
  rijndaelEncrypt rk Nr pt = AES key pt.
Proof.
  intros Hk Hl Hp Hpl. destruct (rijndaelKeySetupEnc_spec key Hk Hl) as [-> W].
  unfold AES. rewrite rijndaelEncrypt_spec by (done || destruct Hl as [-> | [-> | ->]]; done).
  by rewrite Nat2Z.id.
Qed.

Lemma rijndael_encrypt_correct_witness :
  (let '(Nr, rk) := rijndaelKeySetupEnc (fips_key 16) 128 in rijndaelEncrypt rk Nr fips_block) =
  AES (fips_key 16) fips_block.
Proof.
  apply (rijndael_encrypt_correct (fips_key 16) fips_block);
    [by apply (bool_decide_eq_true_1 (bytes_ok (fips_key 16)))|by left|
     by apply (bool_decide_eq_true_1 (bytes_ok fips_block))|done].
Defined.
