(* ===== verification/AesCtr.v ===== *)
(** AES in counter mode (cipher-aesctr.c), over the AES of rijndael.c.

    The counter is a big-endian number of 128 bits that wraps.  The file models
    the context and its operations and shows that the output is the message
    plus the encryptions, under the AES of FIPS 197, of the successive values
    of the counter. *)

From stdpp Require Import base list numbers tactics.
From Stdlib Require Import ZArith Lia ZifyBool.
From S2P Require Import Prelude Rijndael Chacha.

Definition AES_BLOCK_SIZE : nat := 16.
Definition AES_MAXROUNDS : nat := 14.

Record aesctr_ctx := mk_ac { rounds : Z; ek : list Z; ctr : list Z }.

(** A context as calloc makes it. *)
Definition zero_ac : aesctr_ctx :=
  mk_ac 0 (replicate (4 * (AES_MAXROUNDS + 1)) 0) (replicate AES_BLOCK_SIZE 0).

(** The loop from octet [i - 1] down to octet 0. *)
Fixpoint aesctr_inc (ctr : list Z) (i : nat) : list Z :=
  match i with
  | O => ctr
  | S i =>
      let b := u8 (byte_at ctr i + 1) in
      let ctr := <[i := b]> ctr in
      if negb (b =? 0) then ctr else aesctr_inc ctr i
  end.

Definition aesctr_keysetup (x : aesctr_ctx) (k : list Z) (kbits ivbits : Z) : aesctr_ctx :=
  let '(Nr, rk) := rijndaelKeySetupEnc k kbits in
  mk_ac Nr (splice (ek x) 0 rk) (ctr x).

Definition aesctr_ivsetup (x : aesctr_ctx) (iv : list Z) : aesctr_ctx :=
  mk_ac (rounds x) (ek x) (splice (ctr x) 0 (take AES_BLOCK_SIZE iv)).

(** [bytes] octets are left; [buf] is the block on the stack. *)
Fixpoint aesctr_loop (x : aesctr_ctx) (buf : list Z) (n : nat) (m : list Z) (bytes : nat)
  : aesctr_ctx * list Z :=
  match bytes with
  | O => (x, [])
  | S bytes =>
      let '(x, buf) :=
        if (n =? 0)%nat then
          (mk_ac (rounds x) (ek x) (aesctr_inc (ctr x) AES_BLOCK_SIZE), rijndaelEncrypt (ek x) (rounds x) (ctr x))
        else (x, buf) in
      let c := Z.lxor (byte_at m 0) (byte_at buf n) in
      let '(x, rest) := aesctr_loop x buf ((n + 1) mod AES_BLOCK_SIZE) (drop 1 m) bytes in
      (x, c :: rest)
  end.

Definition aesctr_encrypt_bytes (buf : list Z) (x : aesctr_ctx) (m : list Z) (bytes : nat)
  : aesctr_ctx * list Z := aesctr_loop x buf 0 m bytes.

(** ** The counter *)

Lemma inc_step p b z :
  is_byte b ->
  aesctr_inc (p ++ b :: z) (S (length p)) =
    if b =? 255 then aesctr_inc (p ++ 0 :: z) (length p) else p ++ (b + 1) :: z.
Proof.
  unfold is_byte. intros Hb. cbn [aesctr_inc].
  replace (byte_at (p ++ b :: z) (length p)) with b by (unfold byte_at; by rewrite list_lookup_middle).
  rewrite insert_app_r_alt, Nat.sub_diag by lia. cbn [insert list_insert]. unfold u8.
  destruct (Z.eqb_spec b 255) as [->|]; [done|]. rewrite Z.mod_small by lia.
  by destruct (Z.eqb_spec (b + 1) 0); [lia|].
Qed.

Lemma inc_loop_value p z :
  bytes_ok p -> bytes_ok z ->
  let c := aesctr_inc (p ++ z) (length p) in
  be_value 0 c = (be_value 0 p + 1) mod 2 ^ (8 * Z.of_nat (length p)) * 2 ^ (8 * Z.of_nat (length z)) +
                 be_value 0 z /\
  bytes_ok c /\ length c = length (p ++ z).
Proof.
  intros Hp. revert z. induction p as [|b p IH] using rev_ind; intros z Hz; cbv zeta.
  - cbn [app length aesctr_inc]. by rewrite Z.mod_1_r.
  - apply Forall_app in Hp as [Hp Hb]. apply Forall_cons_1 in Hb as [Hb _].
    rewrite <- app_assoc, length_app. cbn [app length]. rewrite Nat.add_1_r, inc_step by done.
    rewrite be_value_app. change (be_value 0 [b]) with b. cbn [length].
    unfold is_byte in Hb. pose proof (be_value_range p Hp) as Hr.
    replace (8 * Z.of_nat (S (length p))) with (8 + 8 * Z.of_nat (length p)) by lia.
    replace (8 * Z.of_nat 1) with 8 by lia. rewrite Z.pow_add_r by lia. change (2 ^ 8) with 256.
    destruct (Z.eqb_spec b 255) as [->|Hne].
    + destruct (IH Hp (0 :: z)) as (V & Hc & Hl); [by constructor|]. rewrite V. split_and!; [|done|by rewrite Hl, !length_app].
      rewrite be_value_cons. cbn [length]. replace (be_value 0 p * 256 + 255 + 1) with (256 * (be_value 0 p + 1)) by lia.
      rewrite Z.mul_mod_distr_l by lia.
      replace (8 * Z.of_nat (S (length z))) with (8 + 8 * Z.of_nat (length z)) by lia.
      rewrite Z.pow_add_r by lia. change (2 ^ 8) with 256. ring.
    + split_and!.
      * rewrite Z.mod_small by nia. rewrite be_value_app, be_value_cons. cbn [length].
        replace (8 * Z.of_nat (S (length z))) with (8 + 8 * Z.of_nat (length z)) by lia.
        rewrite Z.pow_add_r by lia. change (2 ^ 8) with 256. ring.
      * apply Forall_app. split; [done|]. apply Forall_cons_2; [unfold is_byte; lia|done].
      * by rewrite !length_app.
Qed.

(** Incrementing is addition modulo 2^128. *)
Lemma aesctr_inc_spec c :
  bytes_ok c -> length c = AES_BLOCK_SIZE ->
  aesctr_inc c AES_BLOCK_SIZE = be_bytes AES_BLOCK_SIZE (be_value 0 c + 1).
Proof.
  intros Hc Hl. destruct (inc_loop_value c [] Hc) as (V & Hb & Hl'); [constructor|].
  rewrite app_nil_r, Hl in *. cbn [length be_value] in V. rewrite Z.mul_1_r, Z.add_0_r in V.
  rewrite <- (be_bytes_be_value (aesctr_inc c AES_BLOCK_SIZE)), Hl', V by done. apply be_bytes_mod.
Qed.

(** ** The key stream *)

(** A context that was set up with [key]. *)
Definition keyed (key : list Z) (x : aesctr_ctx) : Prop :=
  bytes_ok key /\ (length key = 16 \/ length key = 24 \/ length key = 32)%nat /\
  rounds x = (rijndaelKeySetupEnc key (8 * Z.of_nat (length key))).1 /\
  (exists junk, ek x = (rijndaelKeySetupEnc key (8 * Z.of_nat (length key))).2 ++ junk /\ words32 junk) /\
  bytes_ok (ctr x) /\ length (ctr x) = AES_BLOCK_SIZE.

Definition ctr_block (key : list Z) (c : Z) : list Z := AES key (be_bytes AES_BLOCK_SIZE c).

Definition ctr_stream (key : list Z) (c : Z) (n : nat) : list Z :=
  flat_map (fun i => ctr_block key (c + Z.of_nat i)) (seq 0 n).

Definition ablocks (bytes : nat) : nat := ((bytes + 15) / 16)%nat.

(** The context after [n] more blocks. *)
Definition advance (x : aesctr_ctx) (n : nat) : aesctr_ctx :=
  mk_ac (rounds x) (ek x) (be_bytes AES_BLOCK_SIZE (be_value 0 (ctr x) + Z.of_nat n)).

Lemma Rounds_junk n round w junk s :
  (4 * (round + n) <= length w)%nat -> Rounds n round (w ++ junk) s = Rounds n round w s.
Proof.
  revert round s. induction n as [|n IH]; intros round s Hl; [done|]. cbn [Rounds].
  rewrite IH by lia. f_equal. unfold AddRoundKey, round_key. cbn [flat_map].
  by rewrite !app_nth1 by lia.
Qed.

Lemma Cipher_junk Nr w junk s :
  (0 < Nr)%nat -> length w = (4 * (Nr + 1))%nat -> Cipher Nr (w ++ junk) s = Cipher Nr w s.
Proof.
  intros HN Hl. unfold Cipher. rewrite Rounds_junk by lia. unfold AddRoundKey, round_key. cbn [flat_map].
  by rewrite !app_nth1 by lia.
Qed.

Lemma length_KeyExpansion Nk n w : length (KeyExpansion Nk n w) = (n + length w)%nat.
Proof.
  revert w. induction n as [|n IH]; intros w; [done|]. cbn [KeyExpansion]. rewrite IH, length_app. cbn. lia.
Qed.

Lemma keyed_block key x pt :
  keyed key x -> bytes_ok pt -> length pt = 16%nat -> rijndaelEncrypt (ek x) (rounds x) pt = AES key pt.
Proof.
  intros (Hk & Hl & Hr & (junk & He & Hj) & _) Hp Hpl.
  destruct (rijndaelKeySetupEnc_spec key Hk Hl) as [E W]. rewrite E in Hr, He. cbn [fst snd] in Hr, He.
  rewrite Hr, He, rijndaelEncrypt_spec; try done.
  - rewrite Nat2Z.id. apply Cipher_junk; [lia|]. rewrite length_KeyExpansion, length_map, length_seq.
    destruct Hl as [-> | [-> | ->]]; done.
  - apply Forall_app. split; done.
  - lia.
  - destruct Hl as [-> | [-> | ->]]; done.
Qed.

Lemma keyed_advance key x n : keyed key x -> keyed key (advance x n).
Proof.
  intros (Hk & Hl & Hr & He & _). unfold keyed, advance. cbn [rounds ek ctr].
  split_and!; try done. apply bytes_ok_be_bytes.
Qed.

Lemma advance_0 key x : keyed key x -> advance x 0 = x.
Proof.
  intros (_ & _ & _ & _ & Hb & Hl). destruct x as [r e c]. unfold advance. cbn [rounds ek ctr] in *. f_equal.
  rewrite Z.add_0_r, <- Hl. by apply be_bytes_be_value.
Qed.

Lemma advance_advance x n m : advance (advance x n) m = advance x (n + m).
Proof.
  unfold advance. cbn [rounds ek ctr]. f_equal. rewrite be_value_be_bytes_mod.
  rewrite <- (be_bytes_mod _ (_ + Z.of_nat m)), <- (be_bytes_mod _ (_ + Z.of_nat (n + m))). f_equal.
  rewrite Z.add_mod_idemp_l by lia. f_equal. lia.
Qed.

Lemma inc_advance key x :
  keyed key x -> mk_ac (rounds x) (ek x) (aesctr_inc (ctr x) AES_BLOCK_SIZE) = advance x 1.
Proof. intros (_ & _ & _ & _ & Hb & Hl). unfold advance. by rewrite aesctr_inc_spec. Qed.

Lemma length_AddRoundKey s w r : length s = 16%nat -> length (AddRoundKey s w r) = 16%nat.
Proof. intros Hs. unfold AddRoundKey, round_key. rewrite length_zip_with, Hs. done. Qed.

Lemma length_AES key b : length b = 16%nat -> length (AES key b) = 16%nat.
Proof. intros Hb. unfold AES, Cipher. apply length_AddRoundKey. unfold ShiftRows. by rewrite length_map. Qed.

Lemma length_ctr_block key c : length (ctr_block key c) = 16%nat.
Proof. apply length_AES, length_be_bytes. Qed.

Lemma length_ctr_blocks key c l :
  length (flat_map (fun i => ctr_block key (c + Z.of_nat i)) l) = (16 * length l)%nat.
Proof.
  induction l as [|k l IH]; [done|]. cbn [flat_map length]. rewrite length_app, length_ctr_block, IH. lia.
Qed.

Lemma length_ctr_stream key c n : length (ctr_stream key c n) = (16 * n)%nat.
Proof. unfold ctr_stream. by rewrite length_ctr_blocks, length_seq. Qed.

Lemma ctr_stream_app key c n m :
  ctr_stream key c (n + m) = ctr_stream key c n ++ ctr_stream key (c + Z.of_nat n) m.
Proof.
  unfold ctr_stream. rewrite seq_app, flat_map_app. f_equal. rewrite Nat.add_0_l.
  replace n with (n + 0)%nat at 1 by lia. generalize 0%nat as k. induction m as [|m IH]; intros k; [done|].
  cbn [seq flat_map]. f_equal; [f_equal; lia|]. rewrite <- IH. f_equal. f_equal. lia.
Qed.

Lemma ctr_stream_mod key c n : ctr_stream key (c mod 2 ^ 128) n = ctr_stream key c n.
Proof.
  unfold ctr_stream. generalize 0%nat as k. induction n as [|n IH]; intros k; [done|].
  cbn [seq flat_map]. rewrite IH. f_equal. unfold ctr_block. f_equal.
  rewrite <- (be_bytes_mod _ (_ + _)), <- (be_bytes_mod _ (c + _)). f_equal.
  change (8 * Z.of_nat AES_BLOCK_SIZE) with 128. apply Z.add_mod_idemp_l. lia.
Qed.

(** The octets of a block that are left, [d] of them. *)
Lemma loop_in_block x buf d n m bytes :
  (n + d = 16)%nat -> (0 < n)%nat -> length buf = 16%nat -> (bytes <= length m)%nat ->
  aesctr_loop x buf (n mod 16) m bytes =
    if (bytes <=? d)%nat then (x, xor_bytes (drop n buf) (take bytes m))
    else let '(x, rest) := aesctr_loop x buf 0 (drop d m) (bytes - d) in
         (x, xor_bytes (drop n buf) (take d m) ++ rest).
Proof.
  intros Hd Hn Hb. revert n m bytes Hd Hn. induction d as [|d IH]; intros n m bytes Hd Hn Hm.
  - replace n with 16%nat by lia. change (16 mod 16)%nat with 0%nat.
    replace (drop 16 buf) with (@nil Z) by (symmetry; apply drop_ge; lia).
    destruct bytes as [|bytes]; [done|]. cbn [Nat.leb]. rewrite drop_0, Nat.sub_0_r.
    by destruct (aesctr_loop _ _ _ _ _).
  - rewrite (Nat.mod_small n) by lia. destruct bytes as [|bytes].
    { cbn [aesctr_loop Nat.leb take]. unfold xor_bytes. by destruct (drop n buf). }
    cbn [aesctr_loop]. rewrite (proj2 (Nat.eqb_neq n 0)) by lia. destruct m as [|b m]; [cbn in Hm; lia|].
    change (byte_at (b :: m) 0) with b. change (drop 1 (b :: m)) with (drop 0 m). rewrite drop_0.
    change ((n + 1) mod AES_BLOCK_SIZE)%nat with ((n + 1) mod 16)%nat.
    rewrite (IH (n + 1)%nat m bytes) by (cbn in Hm; lia).
    assert (Hbn : drop n buf = byte_at buf n :: drop (n + 1) buf).
    { unfold byte_at. destruct (lookup_lt_is_Some_2 buf n) as [y Hy]; [lia|]. rewrite Hy, Nat.add_1_r.
      by apply drop_S. }
    rewrite Hbn. cbn [Nat.leb take drop Nat.sub]. destruct (bytes <=? d)%nat.
    + unfold xor_bytes. cbn [zip_with]. by rewrite (Z.lxor_comm b).
    + destruct (aesctr_loop _ _ _ _ _) as [x' rest]. unfold xor_bytes. cbn [zip_with app].
      by rewrite (Z.lxor_comm b).
Qed.

(** One block, or the last part of one. *)
Lemma loop_block key x buf m bytes :
  keyed key x -> (0 < bytes <= length m)%nat ->
  let blk := ctr_block key (be_value 0 (ctr x)) in
  aesctr_loop x buf 0 m bytes =
    if (bytes <=? 16)%nat then (advance x 1, xor_bytes blk (take bytes m))
    else let '(x, rest) := aesctr_loop (advance x 1) blk 0 (drop 16 m) (bytes - 16) in
         (x, xor_bytes blk (take 16 m) ++ rest).
Proof.
  intros Hk [Hpos Hm]. cbv zeta. destruct bytes as [|bytes]; [lia|]. cbn [aesctr_loop].
  change (0 =? 0)%nat with true. cbv iota. rewrite (inc_advance key) by done.
  destruct Hk as (Hk1 & Hk2 & Hk3 & Hk4 & Hb & Hl).
  assert (Hkx : keyed key x) by done. rewrite (keyed_block key) by done.
  assert (AES key (ctr x) = ctr_block key (be_value 0 (ctr x))) as ->.
  { unfold ctr_block. by rewrite <- Hl, be_bytes_be_value. }
  pose proof (length_ctr_block key (be_value 0 (ctr x))) as Hlb.
  set (blk := ctr_block _ _) in *. destruct m as [|b m]; [cbn in Hm; lia|].
  change ((0 + 1) mod AES_BLOCK_SIZE)%nat with (1 mod 16)%nat.
  change (byte_at (b :: m) 0) with b. change (drop 1 (b :: m)) with (drop 0 m). rewrite drop_0.
  rewrite (loop_in_block _ blk 15 1 m bytes) by (cbn in Hm; lia).
  destruct blk as [|y blk]; [done|]. change (byte_at (y :: blk) 0) with y.
  change (drop 1 (y :: blk)) with (drop 0 blk). rewrite drop_0.
  change (S bytes <=? 16)%nat with (bytes <=? 15)%nat. change (S bytes - 16)%nat with (bytes - 15)%nat.
  cbn [take drop]. destruct (bytes <=? 15)%nat; unfold xor_bytes; cbn [zip_with]; [by rewrite (Z.lxor_comm b)|].
  destruct (aesctr_loop _ _ _ _ _) as [x' rest]. cbn [app]. by rewrite (Z.lxor_comm b).
Qed.

Lemma ctr_stream_S key c n : ctr_stream key c (S n) = ctr_block key c ++ ctr_stream key (c + 1) n.
Proof.
  change (S n) with (1 + n)%nat. rewrite (ctr_stream_app key c 1 n). f_equal.
  unfold ctr_stream. cbn [seq flat_map]. by rewrite app_nil_r, Z.add_0_r.
Qed.

Lemma ablocks_step n : (16 < n)%nat -> ablocks n = S (ablocks (n - 16)).
Proof.
  intros Hn. unfold ablocks. replace (n + 15)%nat with (n - 16 + 15 + 1 * 16)%nat by lia.
  rewrite Nat.div_add by lia. lia.
Qed.

Lemma ablocks_small n : (0 < n <= 16)%nat -> ablocks n = 1%nat.
Proof.
  intros Hn. unfold ablocks. replace (n + 15)%nat with (n - 1 + 1 * 16)%nat by lia.
  rewrite Nat.div_add, Nat.div_small by lia. done.
Qed.

Lemma ablocks_covers n : (n <= 16 * ablocks n)%nat.
Proof. unfold ablocks. pose proof (Nat.div_mod (n + 15) 16). pose proof (Nat.mod_upper_bound (n + 15) 16). lia. Qed.

(** The output is the message plus the key stream. *)
Lemma aesctr_encrypt_spec key x buf m bytes :
  keyed key x -> (bytes <= length m)%nat ->
  aesctr_encrypt_bytes buf x m bytes =
    (advance x (ablocks bytes), xor_bytes (ctr_stream key (be_value 0 (ctr x)) (ablocks bytes)) (take bytes m)).
Proof.
  unfold aesctr_encrypt_bytes. revert x buf m.
  induction (lt_wf bytes) as [bytes _ IH]. intros x buf m Hx Hm.
  destruct (decide (bytes = 0%nat)) as [->|Hpos].
  { change (ablocks 0) with 0%nat. by rewrite (advance_0 key x Hx). }
  rewrite (loop_block key) by (done || lia). destruct (Nat.leb_spec bytes 16) as [Hs|Hs].
  - rewrite (ablocks_small bytes), ctr_stream_S by lia. by rewrite app_nil_r.
  - rewrite (IH (bytes - 16)%nat) by (solve [lia | by apply keyed_advance | rewrite length_drop; lia]).
    rewrite (ablocks_step bytes), ctr_stream_S by lia. rewrite advance_advance.
    replace (take bytes m) with (take 16 m ++ take (bytes - 16) (drop 16 m))
      by (rewrite take_take_drop; f_equal; lia).
    rewrite xor_bytes_app by (rewrite length_ctr_block, length_take; lia).
    f_equal. f_equal. unfold advance. cbn [ctr].
    by rewrite be_value_be_bytes_mod, ctr_stream_mod.
Qed.

(** What the key and the initial value set up. *)
Lemma aesctr_setup_keyed key iv ivbits :
  bytes_ok key -> (length key = 16 \/ length key = 24 \/ length key = 32)%nat ->
  bytes_ok iv -> (AES_BLOCK_SIZE <= length iv)%nat ->
  keyed key (aesctr_ivsetup (aesctr_keysetup zero_ac key (8 * Z.of_nat (length key)) ivbits) iv) /\
  ctr (aesctr_ivsetup (aesctr_keysetup zero_ac key (8 * Z.of_nat (length key)) ivbits) iv) = take AES_BLOCK_SIZE iv.
Proof.
  intros Hk Hl Hi Hil. unfold aesctr_keysetup, aesctr_ivsetup, keyed.
  destruct (rijndaelKeySetupEnc_spec key Hk Hl) as [E W]. rewrite E. cbn [rounds ek ctr fst snd].
  assert (Hc : splice (ctr zero_ac) 0 (take AES_BLOCK_SIZE iv) = take AES_BLOCK_SIZE iv).
  { unfold splice. rewrite length_take, Nat.min_l by done. rewrite drop_ge by done. by rewrite app_nil_r. }
  rewrite Hc. split; [|done]. split_and!; try done.
  - eexists. split; [unfold splice; by rewrite take_0|]. apply Forall_drop, Forall_replicate. by split.
  - by apply Forall_take.
  - rewrite length_take. lia.
Qed.

Lemma ablocks_app n m : (n mod 16 = 0)%nat -> ablocks (n + m) = (ablocks n + ablocks m)%nat /\ (16 * ablocks n = n)%nat.
Proof.
  intros Hn. unfold ablocks. pose proof (Nat.div_mod n 16 ltac:(lia)) as D. rewrite Hn in D.
  set (q := (n / 16)%nat) in *. clearbody q. assert (n = q * 16)%nat as -> by lia.
  replace (q * 16 + m + 15)%nat with (m + 15 + q * 16)%nat by lia.
  replace (q * 16 + 15)%nat with (15 + q * 16)%nat by lia.
  rewrite !Nat.div_add by lia. change (15 / 16)%nat with 0%nat. lia.
Qed.

(** Two calls, the first over whole blocks, are one. *)
Lemma aesctr_encrypt_app key x buf buf' m1 m2 :
  keyed key x -> (length m1 mod 16 = 0)%nat ->
  let '(x1, c1) := aesctr_encrypt_bytes buf x m1 (length m1) in
  let '(x2, c2) := aesctr_encrypt_bytes buf' x1 m2 (length m2) in
  aesctr_encrypt_bytes buf x (m1 ++ m2) (length (m1 ++ m2)) = (x2, c1 ++ c2).
Proof.
  intros Hx Hm. rewrite (aesctr_encrypt_spec key) by done.
  rewrite (aesctr_encrypt_spec key) by (done || by apply keyed_advance).
  rewrite (aesctr_encrypt_spec key) by done. rewrite !firstn_all, length_app.
  destruct (ablocks_app (length m1) (length m2) Hm) as [-> E].
  rewrite advance_advance, ctr_stream_app, xor_bytes_app by (by rewrite length_ctr_stream).
  unfold advance at 3. cbn [ctr]. by rewrite be_value_be_bytes_mod, ctr_stream_mod.
Qed.

(** C14: After [aesctr_keysetup] and [aesctr_ivsetup], [aesctr_encrypt_bytes]
    adds to the message the AES (FIPS 197) encryptions of the counter values
    that start at the initial value and are incremented modulo 2^128, block by
    block; a second call after whole blocks goes on where the first stopped;
    whatever the scratch block on the stack holds. *)
Theorem aesctr_encrypt_correct key iv ivbits buf buf' m1 m2 :
  bytes_ok key -> (length key = 16 \/ length key = 24 \/ length key = 32)%nat ->
  bytes_ok iv -> length iv = AES_BLOCK_SIZE -> (length m1 mod 16 = 0)%nat ->
  let x := aesctr_ivsetup (aesctr_keysetup zero_ac key (8 * Z.of_nat (length key)) ivbits) iv in
  let '(x1, c1) := aesctr_encrypt_bytes buf x m1 (length m1) in
  let '(x2, c2) := aesctr_encrypt_bytes buf' x1 m2 (length m2) in
  c1 ++ c2 = xor_bytes (ctr_stream key (be_value 0 iv) (ablocks (length m1 + length m2))) (m1 ++ m2).
Proof.
  intros Hk Hl Hi Hil Hm. cbv zeta.
  destruct (aesctr_setup_keyed key iv ivbits Hk Hl Hi) as [Hx Hc]; [lia|]. set (x := aesctr_ivsetup _ _) in *.
  pose proof (aesctr_encrypt_app key x buf buf' m1 m2 Hx Hm) as H.
  destruct (aesctr_encrypt_bytes buf x m1 _) as [x1 c1].
  destruct (aesctr_encrypt_bytes buf' x1 m2 _) as [x2 c2].
  rewrite (aesctr_encrypt_spec key), firstn_all, Hc, length_app, take_ge in H by (done || lia).
  symmetry. exact (f_equal snd H).
Qed.

Lemma aesctr_encrypt_correct_witness :
  let x := aesctr_ivsetup (aesctr_keysetup zero_ac (fips_key 16) 128 128) (replicate 16 255) in
  let '(x1, c1) := aesctr_encrypt_bytes (replicate 16 0) x (replicate 16 7) 16 in
  let '(x2, c2) := aesctr_encrypt_bytes (replicate 16 9) x1 [1; 2] 2 in
  c1 ++ c2 = xor_bytes (ctr_stream (fips_key 16) (2 ^ 128 - 1) 2) (replicate 16 7 ++ [1; 2]).
Proof.
  apply (aesctr_encrypt_correct (fips_key 16) (replicate 16 255) 128 (replicate 16 0) (replicate 16 9)
    (replicate 16 7) [1; 2]);
    [by apply (bool_decide_eq_true_1 (bytes_ok (fips_key 16)))|by left|
     by apply (bool_decide_eq_true_1 (bytes_ok (replicate 16 255)))|done|done].
Defined.

Lemma bytes_ok_ctr_stream key x c n : keyed key x -> bytes_ok (ctr_stream key c n).
Proof.
  intros Hk. unfold ctr_stream. apply Forall_flat_map, Forall_forall. intros i _. unfold ctr_block.
  rewrite <- (keyed_block key x) by (done || apply bytes_ok_be_bytes || apply length_be_bytes).
  unfold rijndaelEncrypt. destruct (round_loop _ _ _) as [[[[t0 t1] t2] t3] rk].
  rewrite !bytes_ok_app. split_and!; apply bytes_ok_PUTU32.
Qed.
