(* ===== verification/Cipher.v ===== *)
(** The cipher layer of cipher.c, in the build without OpenSSL: AES in counter
    mode, chacha20-poly1305 and "none" behind one interface.

    The first part models the table and the operations.  The second part gives
    every context an abstract state ([cipher_state], related by [has_state]) and
    shows that encrypting and decrypting act on that state alone: the packet
    layer is proved against these lemmas. *)

From stdpp Require Import base list numbers tactics.
From Stdlib Require Import ZArith Lia ZifyBool.
From S2P Require Import Prelude Sshbuf SshbufGetput Match Rijndael Poly1305 Chacha Chachapoly AesCtr.

Definition CFLAG_CBC : Z := Z.shiftl 1 0.
Definition CFLAG_CHACHAPOLY : Z := Z.shiftl 1 1.
Definition CFLAG_AESCTR : Z := Z.shiftl 1 2.
Definition CFLAG_NONE : Z := Z.shiftl 1 3.
Definition CFLAG_INTERNAL : Z := CFLAG_NONE.

Record sshcipher := mk_cipher {
  c_name : list Z;
  block_size : Z;
  key_len : Z;
  iv_len : Z;
  auth_len : Z;
  flags : Z
}.

Definition ciphers : list sshcipher := [
  mk_cipher (chars "aes128-ctr") 16 16 0 0 CFLAG_AESCTR;
  mk_cipher (chars "aes192-ctr") 16 24 0 0 CFLAG_AESCTR;
  mk_cipher (chars "aes256-ctr") 16 32 0 0 CFLAG_AESCTR;
  mk_cipher (chars "chacha20-poly1305@openssh.com") 8 64 0 16 CFLAG_CHACHAPOLY;
  mk_cipher (chars "none") 8 0 0 0 CFLAG_NONE].

Record sshcipher_ctx := mk_cc {
  plaintext : bool;
  encrypt : bool;
  cp_ctx : option chachapoly_ctx;
  ac_ctx : aesctr_ctx;
  cipher : sshcipher
}.

Definition has_flag (c : sshcipher) (f : Z) : bool := negb (Z.land (flags c) f =? 0).

(** ** The table *)

(** The loop of [cipher_alg_list]; [ret] is the list so far, if any. *)
Fixpoint alg_list_loop (w : world) (cs : list sshcipher) (sep : Z) (auth_only : bool)
    (ret : option (list Z)) : option (list Z) * world :=
  match cs with
  | [] => (ret, w)
  | c :: cs =>
      if has_flag c CFLAG_INTERNAL then alg_list_loop w cs sep auth_only ret
      else if auth_only && (auth_len c =? 0) then alg_list_loop w cs sep auth_only ret
      else
        let '(ok, w) := malloc w in
        if negb ok then (None, w)
        else alg_list_loop w cs sep auth_only
               (Some (match ret with None => [] | Some l => l ++ [sep] end ++ c_name c))
  end.

Definition cipher_alg_list (w : world) (sep : Z) (auth_only : bool) : option (list Z) * world :=
  alg_list_loop w ciphers sep auth_only None.

Definition compression_alg_list (compression : bool) : list Z := chars "none".

Definition cipher_blocksize (c : sshcipher) : Z := block_size c.
Definition cipher_keylen (c : sshcipher) : Z := key_len c.

Definition cipher_seclen (c : sshcipher) : Z :=
  if bool_decide (chars "3des-cbc" = c_name c) then 14 else cipher_keylen c.

Definition cipher_authlen (c : sshcipher) : Z := auth_len c.

Definition cipher_ivlen (c : sshcipher) : Z :=
  if negb (iv_len c =? 0) || has_flag c CFLAG_CHACHAPOLY then iv_len c else block_size c.

Definition cipher_is_cbc (c : sshcipher) : bool := has_flag c CFLAG_CBC.
Definition cipher_ctx_is_plaintext (cc : sshcipher_ctx) : bool := plaintext cc.

Definition cipher_by_name (name : list Z) : option sshcipher :=
  List.find (fun c => bool_decide (c_name c = name)) ciphers.

(** The loop of [ciphers_valid] over the tokens; [cp] is what is left. *)
Fixpoint ciphers_valid_loop (fuel : nat) (cp : option (list Z)) : bool :=
  match fuel, cp with
  | S fuel, Some s =>
      let '(p, cp) := strsep COMMA s in
      match p with
      | [] => true
      | _ =>
          match cipher_by_name p with
          | None => false
          | Some c => if has_flag c CFLAG_INTERNAL then false else ciphers_valid_loop fuel cp
          end
      end
  | _, _ => true
  end.

Definition ciphers_valid (w : world) (names : option (list Z)) : bool * world :=
  match names with
  | None | Some [] => (false, w)
  | Some names =>
      let '(ok, w) := malloc w in
      if negb ok then (false, w) else (ciphers_valid_loop (S (length names)) (Some names), w)
  end.

(** ** Contexts *)

(** [iv] is [None] for a null pointer; only ciphers that do not read it are
    given one. *)
Definition cipher_init (w : world) (c : sshcipher) (key : list Z) (keylen : Z)
    (iv : option (list Z)) (ivlen : Z) (do_encrypt : bool) : Z * option sshcipher_ctx * world :=
  let '(ok, w) := malloc w in
  if negb ok then (SSH_ERR_ALLOC_FAIL, None, w)
  else
    let plain := has_flag c CFLAG_NONE in
    if (keylen <? key_len c) ||
       (match iv with None => false | Some _ => true end && (ivlen <? cipher_ivlen c))
    then (SSH_ERR_INVALID_ARGUMENT, None, w)
    else if has_flag c CFLAG_CHACHAPOLY then
      match chachapoly_new w key keylen with
      | (Some cp, w) => (0, Some (mk_cc plain do_encrypt (Some cp) zero_ac c), w)
      | (None, w) => (SSH_ERR_INVALID_ARGUMENT, None, w)
      end
    else if has_flag c CFLAG_NONE then (0, Some (mk_cc plain do_encrypt None zero_ac c), w)
    else if has_flag c CFLAG_AESCTR then
      let ac := aesctr_keysetup zero_ac key (u32 (8 * keylen)) (u32 (8 * ivlen)) in
      let ac := aesctr_ivsetup ac (default [] iv) in
      (0, Some (mk_cc plain do_encrypt None ac c), w)
    else (SSH_ERR_INVALID_ARGUMENT, None, w).

Definition set_cp (cc : sshcipher_ctx) (x : chachapoly_ctx) : sshcipher_ctx :=
  mk_cc (plaintext cc) (encrypt cc) (Some x) (ac_ctx cc) (cipher cc).

Definition set_ac (cc : sshcipher_ctx) (x : aesctr_ctx) : sshcipher_ctx :=
  mk_cc (plaintext cc) (encrypt cc) (cp_ctx cc) x (cipher cc).

(** [tmp] is the stack memory of the ciphers.  A chacha20-poly1305 context
    always has its [cp_ctx]; without one the C program would crash. *)
Definition cipher_crypt (tmp : list Z) (cc : sshcipher_ctx) (seqnr : Z) (dest src : list Z)
    (len aadlen authlen : Z) : Z * sshcipher_ctx * list Z :=
  if has_flag (cipher cc) CFLAG_CHACHAPOLY then
    match cp_ctx cc with
    | None => (SSH_ERR_INTERNAL_ERROR, cc, dest)
    | Some x =>
        let '(r, x, dest) := chachapoly_crypt tmp x seqnr dest src len aadlen authlen (encrypt cc) in
        (r, set_cp cc x, dest)
    end
  else if has_flag (cipher cc) CFLAG_NONE then
    (0, cc, splice dest 0 (take (Z.to_nat (u32 (aadlen + len))) src))
  else if has_flag (cipher cc) CFLAG_AESCTR then
    let dest := if negb (aadlen =? 0) then splice dest 0 (take (Z.to_nat aadlen) src) else dest in
    let '(x, c) := aesctr_encrypt_bytes tmp (ac_ctx cc) (drop (Z.to_nat aadlen) src) (Z.to_nat len) in
    (0, set_ac cc x, splice dest (Z.to_nat aadlen) c)
  else (SSH_ERR_INVALID_ARGUMENT, cc, dest).

Definition cipher_get_length (tmp : list Z) (cc : sshcipher_ctx) (seqnr : Z) (cp : list Z) (len : Z)
  : Z * option Z * sshcipher_ctx :=
  if has_flag (cipher cc) CFLAG_CHACHAPOLY then
    match cp_ctx cc with
    | None => (SSH_ERR_INTERNAL_ERROR, None, cc)
    | Some x =>
        let '(r, plen, x) := chachapoly_get_length tmp x seqnr cp len in (r, plen, set_cp cc x)
    end
  else if len <? 4 then (SSH_ERR_MESSAGE_INCOMPLETE, None, cc)
  else (0, Some (PEEK_U32 cp), cc).

(** [iv] is the memory that is written; [len] its length. *)
Definition cipher_get_keyiv (cc : sshcipher_ctx) (iv : list Z) (len : Z) : Z * list Z :=
  if has_flag (cipher cc) CFLAG_CHACHAPOLY then
    if negb (len =? 0) then (SSH_ERR_INVALID_ARGUMENT, iv) else (0, iv)
  else if has_flag (cipher cc) CFLAG_AESCTR then
    if negb (len =? Z.of_nat AES_BLOCK_SIZE) then (SSH_ERR_INVALID_ARGUMENT, iv)
    else (0, splice iv 0 (ctr (ac_ctx cc)))
  else (0, iv).

Definition cipher_set_keyiv (cc : sshcipher_ctx) (iv : list Z) (len : Z) : Z * sshcipher_ctx :=
  if has_flag (cipher cc) CFLAG_CHACHAPOLY then (0, cc)
  else if has_flag (cipher cc) CFLAG_NONE then (0, cc)
  else (0, cc).

(** ** The abstract state of a context *)

Inductive cipher_state :=
  | SNone
  | SAes (key : list Z) (c : Z)
  | SChacha (x : chachapoly_ctx).

Definition has_state (cc : sshcipher_ctx) (st : cipher_state) : Prop :=
  match st with
  | SNone => flags (cipher cc) = CFLAG_NONE
  | SAes key c =>
      flags (cipher cc) = CFLAG_AESCTR /\ keyed key (ac_ctx cc) /\ be_value 0 (ctr (ac_ctx cc)) = c mod 2 ^ 128
  | SChacha x =>
      flags (cipher cc) = CFLAG_CHACHAPOLY /\ cp_ok x /\
      exists y, cp_ctx cc = Some y /\ cp_ok y /\ same_key y x
  end.

(** The octets of a packet: [aad] stays readable except with chacha20. *)
Definition sealed (st : cipher_state) (seqnr : Z) (aad msg : list Z) : list Z :=
  match st with
  | SNone => aad ++ msg
  | SAes key c => aad ++ xor_bytes (ctr_stream key c (ablocks (length msg))) msg
  | SChacha x => seal x seqnr aad msg
  end.

Definition next_state (st : cipher_state) (n : nat) : cipher_state :=
  match st with
  | SAes key c => SAes key (c + Z.of_nat (ablocks n))
  | _ => st
  end.

Definition taglen (st : cipher_state) : nat := match st with SChacha _ => 16 | _ => 0 end.

(** What a call leaves alone. *)
Definition same_cipher (cc cc' : sshcipher_ctx) : Prop :=
  cipher cc' = cipher cc /\ encrypt cc' = encrypt cc /\ plaintext cc' = plaintext cc.

Lemma has_flag_of c f g : flags c = f -> has_flag c g = negb (Z.land f g =? 0).
Proof. by intros <-. Qed.

(** Decide the flags of a context whose state is known. *)
Ltac flag_simp :=
  rewrite ?(has_flag_of _ _ _ ltac:(eassumption));
  repeat match goal with
    | |- context [negb (Z.land ?f ?g =? 0)] =>
        let v := eval vm_compute in (negb (Z.land f g =? 0)) in
        change (negb (Z.land f g =? 0)) with v
    end; cbv iota.

(** A result's state and what it leaves alone. *)
Ltac st_done := cbn [has_state next_state]; unfold same_cipher; cbn; split_and!; eauto.

Lemma length_sealed cc st seqnr aad msg :
  has_state cc st -> length (sealed st seqnr aad msg) = (length aad + length msg + taglen st)%nat.
Proof.
  destruct st as [|key c|x]; cbn [sealed taglen has_state].
  - intros _. rewrite length_app. lia.
  - intros _. rewrite length_app, length_xor_bytes; [lia|]. rewrite length_ctr_stream. apply ablocks_covers.
  - intros (_ & Hx & _). by apply length_seal.
Qed.

Lemma splice_twice l a b :
  splice (splice l 0 a) (length a) b = splice l 0 (a ++ b).
Proof.
  unfold splice. rewrite !take_0. cbn [app]. rewrite take_app_length, length_app, <- app_assoc.
  rewrite drop_app_ge by lia. rewrite drop_drop. do 3 f_equal. lia.
Qed.

Lemma splice_nil l : splice l 0 [] = l.
Proof. unfold splice. by rewrite take_0, drop_0. Qed.

(** The counter mode on a context with a known state. *)
Lemma ac_crypt key c cc buf m n :
  keyed key (ac_ctx cc) -> be_value 0 (ctr (ac_ctx cc)) = c mod 2 ^ 128 -> (n <= length m)%nat ->
  exists x, aesctr_encrypt_bytes buf (ac_ctx cc) m n = (x, xor_bytes (ctr_stream key c (ablocks n)) (take n m)) /\
    keyed key x /\ be_value 0 (ctr x) = (c + Z.of_nat (ablocks n)) mod 2 ^ 128.
Proof.
  intros Hk Hc Hn. rewrite (aesctr_encrypt_spec key) by done. eexists. split; [by rewrite Hc, ctr_stream_mod|].
  split; [by apply keyed_advance|]. unfold advance. cbn [ctr]. rewrite be_value_be_bytes_mod, Hc.
  apply Z.add_mod_idemp_l. lia.
Qed.

(** What is written, for both directions of the ciphers without a tag. *)
Lemma crypt_aes key c cc tmp seqnr dest aad msg rest authlen :
  has_state cc (SAes key c) -> Z.of_nat (length aad + length msg) < 2 ^ 32 ->
  exists cc', cipher_crypt tmp cc seqnr dest (aad ++ msg ++ rest) (Z.of_nat (length msg)) (Z.of_nat (length aad)) authlen =
      (0, cc', splice dest 0 (aad ++ xor_bytes (ctr_stream key c (ablocks (length msg))) msg)) /\
    has_state cc' (next_state (SAes key c) (length msg)) /\ same_cipher cc cc'.
Proof.
  intros (Hf & Hk & Hc) Hl. unfold cipher_crypt. flag_simp.
  rewrite !Nat2Z.id, drop_app_length, take_app_length.
  destruct (ac_crypt key c cc tmp (msg ++ rest) (length msg)) as (x & -> & Hk' & Hc'); [done..|rewrite length_app; lia|].
  rewrite take_app_length. exists (set_ac cc x). split; [|st_done].
  f_equal. destruct (Z.eqb_spec (Z.of_nat (length aad)) 0) as [E|]; cbn [negb].
  - destruct aad; [|discriminate E]. done.
  - apply splice_twice.
Qed.

Lemma same_key_trans x y z : same_key x y -> same_key y z -> same_key x z.
Proof. intros [??] [??]. split; congruence. Qed.

(** Encrypting. *)
Lemma cipher_crypt_seals cc st tmp seqnr dest aad msg rest authlen :
  has_state cc st -> encrypt cc = true -> bytes_ok tmp -> length tmp = 64%nat ->
  bytes_ok aad -> bytes_ok msg -> bytes_ok rest ->
  (length aad + length msg + taglen st <= length dest)%nat -> Z.of_nat (length aad + length msg) < 2 ^ 32 ->
  exists cc', cipher_crypt tmp cc seqnr dest (aad ++ msg ++ rest) (Z.of_nat (length msg)) (Z.of_nat (length aad)) authlen =
      (0, cc', splice dest 0 (sealed st seqnr aad msg)) /\
    has_state cc' (next_state st (length msg)) /\ same_cipher cc cc'.
Proof.
  intros Hst He Ht Htl Ha Hm Hr Hd Hl. destruct st as [|key c|x].
  - cbn [has_state] in Hst. unfold cipher_crypt. flag_simp. exists cc. split; [|st_done].
    unfold u32. rewrite Z.mod_small by lia. rewrite <- Nat2Z.inj_add, Nat2Z.id.
    by rewrite app_assoc, take_app_length' by (by rewrite length_app).
  - by apply crypt_aes.
  - destruct Hst as (Hf & Hx & y & Ey & Hy & Hk). unfold cipher_crypt. flag_simp. rewrite Ey, He.
    destruct (chachapoly_crypt_spec y seqnr tmp dest (aad ++ msg ++ rest) (length aad) (length msg) authlen true)
      as (y' & Hy' & Hk' & E); try done; [by rewrite !bytes_ok_app|rewrite !length_app; lia|].
    rewrite E, take_app_length, drop_app_length, take_app_length. exists (set_cp cc y'). split.
    + f_equal. cbn [sealed]. unfold seal, tag_of.
      by destruct (cover_key y x seqnr aad msg) as [-> ->].
    + split; [|st_done]. split; [done|]. split; [done|]. exists y'. split_and!; try done.
      by apply same_key_trans with y.
Qed.

(** Decrypting what was encrypted. *)
Lemma cipher_crypt_opens cc st tmp seqnr dest aad msg rest authlen :
  has_state cc st -> encrypt cc = false -> bytes_ok tmp -> length tmp = 64%nat ->
  bytes_ok aad -> bytes_ok msg -> bytes_ok rest ->
  (length aad + length msg <= length dest)%nat -> Z.of_nat (length aad + length msg) < 2 ^ 32 ->
  exists cc', cipher_crypt tmp cc seqnr dest (sealed st seqnr aad msg ++ rest)
      (Z.of_nat (length msg)) (Z.of_nat (length aad)) authlen =
      (0, cc', splice dest 0 (aad ++ msg)) /\
    has_state cc' (next_state st (length msg)) /\ same_cipher cc cc'.
Proof.
  intros Hst He Ht Htl Ha Hm Hr Hd Hl. destruct st as [|key c|x].
  - cbn [has_state] in Hst. unfold cipher_crypt. flag_simp. exists cc. split; [|st_done].
    unfold u32. rewrite Z.mod_small by lia. rewrite <- Nat2Z.inj_add, Nat2Z.id. cbn [sealed].
    by rewrite take_app_length' by (by rewrite length_app).
  - cbn [sealed]. rewrite <- app_assoc.
    set (c1 := xor_bytes (ctr_stream key c (ablocks (length msg))) msg).
    assert (Hc1 : length c1 = length msg).
    { apply length_xor_bytes. rewrite length_ctr_stream. apply ablocks_covers. }
    destruct (crypt_aes key c cc tmp seqnr dest aad c1 rest authlen) as (cc' & E & Hs & Hc); [done|lia|].
    rewrite Hc1 in *. exists cc'. split_and!; [|done..]. rewrite E. do 3 f_equal.
    unfold c1. apply xor_bytes_involutive. rewrite length_ctr_stream. apply ablocks_covers.
  - destruct Hst as (Hf & Hx & y & Ey & Hy & Hk). unfold cipher_crypt. flag_simp. rewrite Ey, He.
    destruct (crypt_opens x y seqnr tmp dest aad msg rest authlen) as (y' & Hy' & Hk' & E); try done.
    cbn [sealed]. rewrite E. exists (set_cp cc y'). split; [done|]. split; [|st_done].
    split; [done|]. split; [done|]. exists y'. split_and!; done.
Qed.

(** A ciphertext without tag can be decrypted in two parts, the first over
    whole blocks. *)
Lemma sealed_app st seqnr m1 m2 :
  taglen st = 0%nat -> (length m1 mod 16 = 0)%nat ->
  sealed st seqnr [] (m1 ++ m2) = sealed st seqnr [] m1 ++ sealed (next_state st (length m1)) seqnr [] m2.
Proof.
  intros Ht Hm. destruct st as [|key c|x]; [done| |done]. cbn [sealed next_state app].
  rewrite length_app. destruct (ablocks_app (length m1) (length m2) Hm) as [-> E].
  rewrite ctr_stream_app. apply xor_bytes_app. by rewrite length_ctr_stream.
Qed.

(** The length field of a packet whose header is not part of the ciphertext, or
    that has its own key. *)
Lemma cipher_get_length_sealed cc st tmp seqnr aad msg rest len :
  has_state cc st -> bytes_ok tmp -> length tmp = 64%nat ->
  bytes_ok aad -> bytes_ok msg -> bytes_ok rest -> length aad = 4%nat -> 4 <= len ->
  exists cc', cipher_get_length tmp cc seqnr (sealed st seqnr aad msg ++ rest) len = (0, Some (PEEK_U32 aad), cc') /\
    has_state cc' st /\ same_cipher cc cc'.
Proof.
  intros Hst Ht Htl Ha Hm Hr Hal Hlen. unfold cipher_get_length.
  assert (P : forall l, PEEK_U32 (aad ++ l) = PEEK_U32 aad).
  { intros l. unfold PEEK_U32, at_. by rewrite !lookup_app_l by lia. }
  rewrite (proj2 (Z.ltb_ge len 4)) by done. destruct st as [|key c|x].
  - cbn [has_state] in Hst. flag_simp. exists cc. split; [|st_done]. cbn [sealed].
    by rewrite <- app_assoc, P.
  - destruct Hst as (Hf & Hk & Hc). flag_simp. exists cc. split; [|st_done]. cbn [sealed].
    by rewrite <- app_assoc, P.
  - destruct Hst as (Hf & Hx & y & Ey & Hy & Hk). flag_simp. rewrite Ey.
    destruct (get_length_spec x y seqnr tmp aad msg rest len) as (y' & Hy' & Hk' & E); try done.
    cbn [sealed]. rewrite E. exists (set_cp cc y'). split; [done|]. split; [|st_done].
    split; [done|]. split; [done|]. by exists y'.
Qed.

Lemma bytes_ok_sealed cc st seqnr aad msg :
  has_state cc st -> bytes_ok aad -> bytes_ok msg -> bytes_ok (sealed st seqnr aad msg).
Proof.
  intros Hst Ha Hm. destruct st as [|key c|x]; cbn [sealed].
  - by apply bytes_ok_app.
  - destruct Hst as (_ & Hk & _). apply bytes_ok_app. split; [done|].
    apply bytes_ok_xor; [by apply bytes_ok_ctr_stream with (ac_ctx cc)|done].
  - by apply bytes_ok_seal.
Qed.

(** ** Setting up *)

(** The state that a key and an initial value select. *)
Definition init_state (c : sshcipher) (key iv : list Z) : cipher_state :=
  if has_flag c CFLAG_CHACHAPOLY then
    SChacha (mk_cp (chacha_keysetup zero_ctx key 256) (chacha_keysetup zero_ctx (drop 32 key) 256))
  else if has_flag c CFLAG_NONE then SNone
  else SAes key (be_value 0 (take AES_BLOCK_SIZE iv)).

(** The three kinds of entries of the table. *)
Lemma cipher_cases c :
  In c ciphers ->
  (flags c = CFLAG_AESCTR /\ block_size c = 16 /\ (key_len c = 16 \/ key_len c = 24 \/ key_len c = 32) /\
   cipher_ivlen c = 16 /\ auth_len c = 0) \/
  (flags c = CFLAG_CHACHAPOLY /\ block_size c = 8 /\ key_len c = 64 /\ cipher_ivlen c = 0 /\ auth_len c = 16) \/
  (flags c = CFLAG_NONE /\ block_size c = 8 /\ key_len c = 0 /\ cipher_ivlen c = 8 /\ auth_len c = 0).
Proof.
  intros [<-|[<-|[<-|[<-|[<-|[]]]]]].
  1-3: left; split_and!; try done; tauto.
  - right; left; by split_and!.
  - right; right; by split_and!.
Qed.

Lemma cipher_init_spec w c key iv enc :
  In c ciphers -> bytes_ok key -> Z.of_nat (length key) = key_len c ->
  bytes_ok iv -> Z.of_nat (length iv) = cipher_ivlen c ->
  let '(r, cc, w') := cipher_init w c key (Z.of_nat (length key)) (Some iv) (Z.of_nat (length iv)) enc in
  match cc with
  | None => r <> 0
  | Some cc =>
      r = 0 /\ has_state cc (init_state c key iv) /\ cipher cc = c /\ encrypt cc = enc /\
      plaintext cc = has_flag c CFLAG_NONE
  end.
Proof.
  intros Hc Hk Hkl Hi Hil. unfold cipher_init. destruct (malloc w) as [[] w1]; [|done]. cbn [negb].
  rewrite Hkl, Hil, !Z.ltb_irrefl. cbn [orb andb]. unfold init_state.
  destruct (cipher_cases c Hc) as [(Hf & _ & Hkc & Hic & _)|[(Hf & _ & Hkc & Hic & _)|(Hf & _ & Hkc & Hic & _)]];
    flag_simp.
  - destruct (aesctr_setup_keyed key iv (u32 (8 * cipher_ivlen c)) Hk) as [Hx Hct]; [lia|done|unfold AES_BLOCK_SIZE; lia|].
    rewrite Hkl in Hx, Hct. unfold u32 at 1. rewrite Z.mod_small by lia. cbn [default id].
    split_and!; try done. split_and!; [done|done|]. cbn [ac_ctx]. rewrite Hct. symmetry. apply Z.mod_small.
    pose proof (be_value_range (take AES_BLOCK_SIZE iv) ltac:(by apply Forall_take)) as Hr.
    rewrite length_take, Nat.min_l in Hr by (unfold AES_BLOCK_SIZE; lia). exact Hr.
  - rewrite Hkc. destruct (chachapoly_new w1 key 64) as [[cp|] w2] eqn:E; [|done].
    assert (cp_ok cp) by (by apply chachapoly_new_ok with w1 key w2).
    unfold chachapoly_new in E. change (negb (64 =? 32 + 32)) with false in E. cbv iota in E.
    destruct (malloc w1) as [[] w3]; [|done]. injection E as <- <-.
    split_and!; try done. cbn [has_state]. split_and!; [done|done|]. eexists. split_and!; [done..|by split].
  - by split_and!.
Qed.

(** ** A stream of packets *)

(** One packet per call, with consecutive sequence numbers; the memory written
    to is as long as the code reserves. *)
Fixpoint encrypt_all (tmp : list Z) (cc : sshcipher_ctx) (seqnr : Z) (ps : list (list Z * list Z))
  : option (list (list Z)) :=
  match ps with
  | [] => Some []
  | (aad, msg) :: ps =>
      let n := (length aad + length msg)%nat in
      let '(r, cc, c) := cipher_crypt tmp cc seqnr (replicate (n + Z.to_nat (cipher_authlen (cipher cc))) 0) (aad ++ msg)
        (Z.of_nat (length msg)) (Z.of_nat (length aad)) (cipher_authlen (cipher cc)) in
      if negb (r =? 0) then None
      else match encrypt_all tmp cc (u32 (seqnr + 1)) ps with
           | None => None
           | Some cs => Some (c :: cs)
           end
  end.

Fixpoint decrypt_all (tmp : list Z) (cc : sshcipher_ctx) (seqnr : Z) (aadlen : nat) (cs : list (list Z))
  : option (list (list Z * list Z)) :=
  match cs with
  | [] => Some []
  | c :: cs =>
      let n := (length c - Z.to_nat (cipher_authlen (cipher cc)))%nat in
      let '(r, cc, p) := cipher_crypt tmp cc seqnr (replicate n 0) c
        (Z.of_nat (n - aadlen)) (Z.of_nat aadlen) (cipher_authlen (cipher cc)) in
      if negb (r =? 0) then None
      else match decrypt_all tmp cc (u32 (seqnr + 1)) aadlen cs with
           | None => None
           | Some ps => Some ((take aadlen p, drop aadlen p) :: ps)
           end
  end.

Definition packet_ok (aadlen : nat) (p : list Z * list Z) : Prop :=
  bytes_ok p.1 /\ bytes_ok p.2 /\ length p.1 = aadlen /\ Z.of_nat (length p.1 + length p.2) < 2 ^ 32.

#[global] Instance packet_ok_dec aadlen p : Decision (packet_ok aadlen p).
Proof. unfold packet_ok. apply _. Defined.

Lemma splice_replicate n v : length v = n -> splice (replicate n 0) 0 v = v.
Proof.
  intros <-. unfold splice. rewrite take_0. cbn [app Nat.add].
  rewrite drop_ge, app_nil_r by (rewrite length_replicate; lia). done.
Qed.

Lemma taglen_authlen cc st : In (cipher cc) ciphers -> has_state cc st ->
  taglen st = Z.to_nat (cipher_authlen (cipher cc)).
Proof.
  intros Hc Hs. unfold cipher_authlen.
  destruct (cipher_cases _ Hc) as [(Hf & _ & _ & _ & ->)|[(Hf & _ & _ & _ & ->)|(Hf & _ & _ & _ & ->)]];
    destruct st as [|key c|x]; cbn [has_state] in Hs; rewrite Hf in Hs;
    match type of Hs with _ /\ _ => apply proj1 in Hs | _ => idtac end;
    vm_compute in Hs; first [discriminate Hs | done].
Qed.

Lemma decrypt_encrypt tmp tmp' s r st seqnr aadlen ps :
  In (cipher s) ciphers -> cipher r = cipher s -> encrypt s = true -> encrypt r = false ->
  has_state s st -> has_state r st -> Forall (packet_ok aadlen) ps ->
  bytes_ok tmp -> length tmp = 64%nat -> bytes_ok tmp' -> length tmp' = 64%nat ->
  exists cs, encrypt_all tmp s seqnr ps = Some cs /\ decrypt_all tmp' r seqnr aadlen cs = Some ps.
Proof.
  intros Hc Hrs Hes Her Hs Hr Hps Ht Htl Ht' Htl'. revert s r st seqnr Hc Hrs Hes Her Hs Hr.
  induction ps as [|[aad msg] ps IH]; intros s r st seqnr Hc Hrs Hes Her Hs Hr; [by exists []|].
  apply Forall_cons_1 in Hps as [(Ha & Hm & <- & Hl) Hps]. cbn [fst snd] in *. specialize (IH Hps).
  pose proof (taglen_authlen s st Hc Hs) as Htag. pose proof (length_sealed s st seqnr aad msg Hs) as Hsl.
  destruct (cipher_crypt_seals s st tmp seqnr (replicate (length aad + length msg + Z.to_nat (cipher_authlen (cipher s))) 0)
    aad msg [] (cipher_authlen (cipher s))) as (s' & Es & Hs' & (Cs & Ds & _)); try done;
    [rewrite length_replicate; lia|].
  rewrite app_nil_r in Es. cbn [encrypt_all]. rewrite Es. cbn [negb Z.eqb].
  destruct (cipher_crypt_opens r st tmp' seqnr (replicate (length aad + length msg) 0)
    aad msg [] (cipher_authlen (cipher r))) as (r' & Er & Hr' & (Cr & Dr & _)); try done;
    [rewrite length_replicate; lia|].
  rewrite app_nil_r in Er.
  destruct (IH s' r' _ (u32 (seqnr + 1)) ltac:(by rewrite Cs) ltac:(congruence) ltac:(congruence) ltac:(congruence) Hs' Hr')
    as (cs & -> & Ed).
  eexists. split; [done|]. cbn [decrypt_all]. rewrite splice_replicate by lia. rewrite Hsl, Htag, Hrs, Nat.add_sub.
  rewrite Hrs in Er. replace (length aad + length msg - length aad)%nat with (length msg) by lia.
  rewrite Er. cbn [negb Z.eqb]. rewrite Ed, splice_replicate by (by rewrite length_app).
  by rewrite take_app_length, drop_app_length.
Qed.

(** C15: With any cipher of the table, two contexts made by [cipher_init] from the
    same key and initial value, one for each direction, understand each other
    packet after packet: whatever packets the sender encrypts with consecutive
    sequence numbers, the receiver decrypts all of them, in order. *)
Theorem cipher_stream_roundtrip w w' c key iv s r ws wr tmp tmp' seqnr aadlen ps :
  In c ciphers -> bytes_ok key -> Z.of_nat (length key) = key_len c ->
  bytes_ok iv -> Z.of_nat (length iv) = cipher_ivlen c ->
  cipher_init w c key (key_len c) (Some iv) (cipher_ivlen c) true = (0, Some s, ws) ->
  cipher_init w' c key (key_len c) (Some iv) (cipher_ivlen c) false = (0, Some r, wr) ->
  Forall (packet_ok aadlen) ps ->
  bytes_ok tmp -> length tmp = CHACHA_BLOCKLEN -> bytes_ok tmp' -> length tmp' = CHACHA_BLOCKLEN ->
  exists cs, encrypt_all tmp s seqnr ps = Some cs /\ decrypt_all tmp' r seqnr aadlen cs = Some ps.
Proof.
  intros Hc Hk Hkl Hi Hil Es Er Hps Ht Htl Ht' Htl'.
  pose proof (cipher_init_spec w c key iv true Hc Hk Hkl Hi Hil) as Hs.
  pose proof (cipher_init_spec w' c key iv false Hc Hk Hkl Hi Hil) as Hr.
  rewrite Hkl, Hil, Es in Hs. rewrite Hkl, Hil, Er in Hr.
  destruct Hs as (_ & Hs & Cs & Ds & _). destruct Hr as (_ & Hr & Cr & Dr & _).
  apply decrypt_encrypt with (init_state c key iv); try done; [by rewrite Cs|congruence].
Qed.

Lemma cipher_stream_roundtrip_witness :
  exists s r cs,
    cipher_init [] (mk_cipher (chars "aes128-ctr") 16 16 0 0 CFLAG_AESCTR) (fips_key 16) 16
      (Some (replicate 16 3)) 16 true = (0, Some s, []) /\
    cipher_init [] (mk_cipher (chars "aes128-ctr") 16 16 0 0 CFLAG_AESCTR) (fips_key 16) 16
      (Some (replicate 16 3)) 16 false = (0, Some r, []) /\
    encrypt_all (replicate 64 1) s 7 [([0; 0; 0; 2], [5; 6]); ([0; 0; 0; 3], [7; 8; 9])] = Some cs /\
    decrypt_all (replicate 64 2) r 7 4 cs = Some [([0; 0; 0; 2], [5; 6]); ([0; 0; 0; 3], [7; 8; 9])].
Proof.
  assert (bytes_ok (fips_key 16) /\ bytes_ok (replicate 16 3) /\ bytes_ok (replicate 64 1) /\ bytes_ok (replicate 64 2))
    as (B1 & B2 & B3 & B4) by (apply (bool_decide_unpack _); vm_compute; exact I).
  assert (Forall (packet_ok 4) [([0; 0; 0; 2], [5; 6]); ([0; 0; 0; 3], [7; 8; 9])]) as B5
    by (apply (bool_decide_unpack _); vm_compute; exact I).
  eexists _, _.
  destruct (cipher_stream_roundtrip [] [] (mk_cipher (chars "aes128-ctr") 16 16 0 0 CFLAG_AESCTR)
    (fips_key 16) (replicate 16 3) _ _ [] [] (replicate 64 1) (replicate 64 2) 7 4
    [([0; 0; 0; 2], [5; 6]); ([0; 0; 0; 3], [7; 8; 9])]
    (or_introl eq_refl) B1 eq_refl B2 eq_refl eq_refl eq_refl B5 B3 eq_refl B4 eq_refl) as (cs & E1 & E2).
  exists cs. split_and!; [reflexivity|reflexivity|exact E1|exact E2].
Defined.

(** ** Name lists *)

(** A name that may be negotiated for packets. *)
Definition usable (p : list Z) : bool :=
  match cipher_by_name p with
  | None => false
  | Some c => negb (has_flag c CFLAG_INTERNAL)
  end.

Lemma ciphers_valid_loop_spec fuel s :
  (length s < fuel)%nat ->
  ciphers_valid_loop fuel (Some s) = forallb usable (until_empty (split_on COMMA s)).
Proof.
  revert s. induction fuel as [|fuel IH]; intros s Hf; [lia|]. cbn [ciphers_valid_loop].
  rewrite split_on_strsep. destruct (strsep COMMA s) as [[|x tok] rest] eqn:E; [done|].
  cbn [until_empty forallb]. unfold usable at 1.
  destruct (cipher_by_name (x :: tok)) as [c|]; [|done]. destruct (has_flag c CFLAG_INTERNAL); [done|].
  cbn [negb andb]. destruct rest as [s'|]; [|by destruct fuel].
  apply IH. apply strsep_shorter in E. lia.
Qed.

(** [ciphers_valid] accepts a list of names exactly if it is not empty, every
    name before the first empty item is in the table, none of them is the
    internal cipher "none", and memory lasts for the copy; what follows an
    empty item is not looked at. *)
Theorem ciphers_valid_correct w names :
  fst (ciphers_valid w names) = true <->
  exists s, names = Some s /\ s <> [] /\ (malloc w).1 = true /\
    forall p, In p (until_empty (split_on COMMA s)) ->
      (exists c, cipher_by_name p = Some c) /\ p <> chars "none".
Proof.
  unfold ciphers_valid. destruct names as [[|x s]|]; cbn [fst].
  - split; [done|]. intros (s & [= <-] & ? & _). done.
  - destruct (malloc w) as [[] w1]; cbn [negb fst].
    + rewrite ciphers_valid_loop_spec by lia. rewrite forallb_forall. split.
      * intros H. exists (x :: s). split_and!; try done. intros p Hp. specialize (H p Hp). unfold usable in H.
        destruct (cipher_by_name p) as [c|] eqn:E; [|done]. split; [by eexists|]. intros ->.
        vm_compute in E. injection E as <-. vm_compute in H. done.
      * intros (s' & [= <-] & _ & _ & H) p Hp. destruct (H p Hp) as [[c Hc] Hne]. unfold usable. rewrite Hc.
        unfold cipher_by_name in Hc. apply find_some in Hc as [Hin Hn%bool_decide_eq_true].
        destruct Hin as [<-|[<-|[<-|[<-|[<-|[]]]]]]; [done..|]. by rewrite <- Hn in Hne.
    + split; [done|]. intros (s' & _ & _ & ? & _). done.
  - split; [done|]. by intros (s & ? & _).
Qed.


