(* ===== verification/Digest.v ===== *)
(** Message digests and HMAC: digest-libc.c and hmac.c, in the build without
    OpenSSL.

    The hash functions themselves belong to the C library.  They are the class
    [MD]: initialise, update and finish a context; [MDLaws] says that the result
    depends on the octets that were added and not on how they were split.  On
    top of it the files' own operations are modelled, and [hmac] is shown to be
    HMAC as RFC 2104 defines it, for every message that is authenticated with
    the same context. *)

From stdpp Require Import base list numbers tactics.
From Stdlib Require Import ZArith Lia ZifyBool.
From S2P Require Import Prelude Sshbuf.

Definition UINT_MAX : Z := 2 ^ 32 - 1.

(** ** The hash functions *)

Class MD := {
  mdctx : Type;
  md_init : Z -> mdctx;
  md_update : Z -> mdctx -> list Z -> mdctx;
  (** The digest, and what is left of the context. *)
  md_final : Z -> mdctx -> list Z * mdctx
}.

(** ** digest-libc.c *)

Record ssh_digest := mk_digest { d_id : Z; d_name : list Z; block_len : Z; digest_len : Z }.

Definition digests : list ssh_digest := [
  mk_digest 0 (chars "MD5") 64 16;
  mk_digest 1 (chars "SHA1") 64 20;
  mk_digest 2 (chars "SHA256") 64 32;
  mk_digest 3 (chars "SHA384") 128 48;
  mk_digest 4 (chars "SHA512") 128 64].

Definition ssh_digest_by_alg (alg : Z) : option ssh_digest :=
  if (alg <? 0) || (alg >=? SSH_DIGEST_MAX) then None
  else match nth_error digests (Z.to_nat alg) with
       | Some d => if negb (d_id d =? alg) then None else Some d
       | None => None
       end.

Definition ssh_digest_bytes (alg : Z) : Z :=
  match ssh_digest_by_alg alg with None => 0 | Some d => digest_len d end.

Section digest.
Context {md : MD}.

Record ssh_digest_ctx := mk_dctx { dg_alg : Z; dg_md : mdctx }.

Definition ssh_digest_blocksize (ctx : ssh_digest_ctx) : Z :=
  match ssh_digest_by_alg (dg_alg ctx) with None => 0 | Some d => block_len d end.

Definition ssh_digest_start (w : world) (alg : Z) : option ssh_digest_ctx * world :=
  match ssh_digest_by_alg alg with
  | None => (None, w)
  | Some _ =>
      let '(ok, w) := malloc w in
      if negb ok then (None, w)
      else
        let '(ok, w) := malloc w in
        if negb ok then (None, w) else (Some (mk_dctx alg (md_init alg)), w)
  end.

(** Returns the new value of [*to]. *)
Definition ssh_digest_copy_state (from to : ssh_digest_ctx) : Z * ssh_digest_ctx :=
  match ssh_digest_by_alg (dg_alg from) with
  | None => (SSH_ERR_INVALID_ARGUMENT, to)
  | Some _ =>
      if negb (dg_alg from =? dg_alg to) then (SSH_ERR_INVALID_ARGUMENT, to)
      else (0, mk_dctx (dg_alg to) (dg_md from))
  end.

Definition ssh_digest_update (ctx : ssh_digest_ctx) (m : list Z) (mlen : Z) : Z * ssh_digest_ctx :=
  match ssh_digest_by_alg (dg_alg ctx) with
  | None => (SSH_ERR_INVALID_ARGUMENT, ctx)
  | Some _ => (0, mk_dctx (dg_alg ctx) (md_update (dg_alg ctx) (dg_md ctx) (take (Z.to_nat mlen) m)))
  end.

(** [d] is the memory that is written. *)
Definition ssh_digest_final (ctx : ssh_digest_ctx) (d : list Z) (dlen : Z) : Z * ssh_digest_ctx * list Z :=
  match ssh_digest_by_alg (dg_alg ctx) with
  | None => (SSH_ERR_INVALID_ARGUMENT, ctx, d)
  | Some digest =>
      if dlen >? UINT_MAX then (SSH_ERR_INVALID_ARGUMENT, ctx, d)
      else if dlen <? digest_len digest then (SSH_ERR_INVALID_ARGUMENT, ctx, d)
      else
        let '(h, x) := md_final (dg_alg ctx) (dg_md ctx) in
        (0, mk_dctx (dg_alg ctx) x, splice d 0 h)
  end.

Definition ssh_digest_memory (w : world) (alg : Z) (m : list Z) (mlen : Z) (d : list Z) (dlen : Z)
  : Z * list Z * world :=
  match ssh_digest_start w alg with
  | (None, w) => (SSH_ERR_INVALID_ARGUMENT, d, w)
  | (Some ctx, w) =>
      let '(r, ctx) := ssh_digest_update ctx m mlen in
      if negb (r =? 0) then (SSH_ERR_INVALID_ARGUMENT, d, w)
      else
        let '(r, ctx, d) := ssh_digest_final ctx d dlen in
        if negb (r =? 0) then (SSH_ERR_INVALID_ARGUMENT, d, w) else (0, d, w)
  end.

(** ** hmac.c *)

Record ssh_hmac_ctx := mk_hmac {
  h_alg : Z;
  ictx : ssh_digest_ctx;
  octx : ssh_digest_ctx;
  hdigest : ssh_digest_ctx;
  hbuf : list Z;
  hbuf_len : Z
}.

Definition ssh_hmac_bytes (alg : Z) : Z := ssh_digest_bytes alg.

Definition ssh_hmac_start (w : world) (alg : Z) : option ssh_hmac_ctx * world :=
  let '(ok, w) := malloc w in
  if negb ok then (None, w)
  else
    match ssh_digest_start w alg with
    | (None, w) => (None, w)
    | (Some i, w) =>
        match ssh_digest_start w alg with
        | (None, w) => (None, w)
        | (Some o, w) =>
            match ssh_digest_start w alg with
            | (None, w) => (None, w)
            | (Some dg, w) =>
                let len := ssh_digest_blocksize i in
                let '(ok, w) := malloc w in
                if negb ok then (None, w)
                else (Some (mk_hmac alg i o dg (replicate (Z.to_nat len) 0) len), w)
            end
        end
    end.

(** [for (i = 0; i < ctx->buf_len; i++) ctx->buf[i] ^= c] *)
Definition xor_all (c : Z) (buf : list Z) : list Z := map (Z.lxor c) buf.

(** The part of [ssh_hmac_init] for a new key. *)
Definition hmac_set_key (w : world) (ctx : ssh_hmac_ctx) (key : list Z) (klen : Z) : Z * ssh_hmac_ctx * world :=
  let '(r, buf, w) :=
    if klen <=? hbuf_len ctx then (0, splice (hbuf ctx) 0 (take (Z.to_nat klen) key), w)
    else ssh_digest_memory w (h_alg ctx) key klen (hbuf ctx) (hbuf_len ctx) in
  if r <? 0 then (-1, mk_hmac (h_alg ctx) (ictx ctx) (octx ctx) (hdigest ctx) buf (hbuf_len ctx), w)
  else
    let buf := xor_all 0x36 buf in
    let '(r, i) := ssh_digest_update (ictx ctx) buf (hbuf_len ctx) in
    if r <? 0 then (-1, mk_hmac (h_alg ctx) i (octx ctx) (hdigest ctx) buf (hbuf_len ctx), w)
    else
      let buf := xor_all (Z.lxor 0x36 0x5c) buf in
      let '(r, o) := ssh_digest_update (octx ctx) buf (hbuf_len ctx) in
      if r <? 0 then (-1, mk_hmac (h_alg ctx) i o (hdigest ctx) buf (hbuf_len ctx), w)
      else (0, mk_hmac (h_alg ctx) i o (hdigest ctx) (replicate (length buf) 0) (hbuf_len ctx), w).

Definition ssh_hmac_init (w : world) (ctx : ssh_hmac_ctx) (key : option (list Z)) (klen : Z)
  : Z * ssh_hmac_ctx * world :=
  let '(r, ctx, w) :=
    match key with
    | None => (0, ctx, w)
    | Some key => hmac_set_key w ctx key klen
    end in
  if negb (r =? 0) then (r, ctx, w)
  else
    let '(r, dg) := ssh_digest_copy_state (ictx ctx) (hdigest ctx) in
    (if r <? 0 then -1 else 0, mk_hmac (h_alg ctx) (ictx ctx) (octx ctx) dg (hbuf ctx) (hbuf_len ctx), w).

Definition ssh_hmac_update (ctx : ssh_hmac_ctx) (m : list Z) (mlen : Z) : Z * ssh_hmac_ctx :=
  let '(r, dg) := ssh_digest_update (hdigest ctx) m mlen in
  (r, mk_hmac (h_alg ctx) (ictx ctx) (octx ctx) dg (hbuf ctx) (hbuf_len ctx)).

(** [d] is the memory that is written. *)
Definition ssh_hmac_final (ctx : ssh_hmac_ctx) (d : list Z) (dlen : Z) : Z * ssh_hmac_ctx * list Z :=
  let len := ssh_digest_bytes (h_alg ctx) in
  if dlen <? len then (-1, ctx, d)
  else
    let '(r, dg, buf) := ssh_digest_final (hdigest ctx) (hbuf ctx) len in
    let ctx := mk_hmac (h_alg ctx) (ictx ctx) (octx ctx) dg buf (hbuf_len ctx) in
    if negb (r =? 0) then (-1, ctx, d)
    else
      let '(r, dg) := ssh_digest_copy_state (octx ctx) (hdigest ctx) in
      let ctx := mk_hmac (h_alg ctx) (ictx ctx) (octx ctx) dg buf (hbuf_len ctx) in
      if r <? 0 then (-1, ctx, d)
      else
        let '(r, dg) := ssh_digest_update dg buf len in
        let ctx := mk_hmac (h_alg ctx) (ictx ctx) (octx ctx) dg buf (hbuf_len ctx) in
        if r <? 0 then (-1, ctx, d)
        else
          let '(r, dg, d) := ssh_digest_final dg d dlen in
          (if r <? 0 then -1 else 0, mk_hmac (h_alg ctx) (ictx ctx) (octx ctx) dg buf (hbuf_len ctx), d).

(** ** HMAC *)

Class MDLaws := {
  hash : Z -> list Z -> list Z;
  md_hash alg parts : (md_final alg (fold_left (md_update alg) parts (md_init alg))).1 = hash alg (concat parts);
  hash_length alg d m : ssh_digest_by_alg alg = Some d -> Z.of_nat (length (hash alg m)) = digest_len d;
  hash_bytes alg m : bytes_ok (hash alg m)
}.

Context {laws : MDLaws}.

(** The key as a whole block, and HMAC of RFC 2104. *)
Definition block_key (alg : Z) (d : ssh_digest) (key : list Z) : list Z :=
  let k := if Z.of_nat (length key) <=? block_len d then key else hash alg key in
  k ++ replicate (Z.to_nat (block_len d) - length k) 0.

Definition ipad (alg : Z) (d : ssh_digest) (key : list Z) : list Z := xor_all 0x36 (block_key alg d key).
Definition opad (alg : Z) (d : ssh_digest) (key : list Z) : list Z := xor_all 0x5c (block_key alg d key).

Definition hmac (alg : Z) (d : ssh_digest) (key m : list Z) : list Z :=
  hash alg (opad alg d key ++ hash alg (ipad alg d key ++ m)).

(** A digest context that has taken in [m]. *)
Definition absorbed (ctx : ssh_digest_ctx) (alg : Z) (m : list Z) : Prop :=
  dg_alg ctx = alg /\ exists parts, dg_md ctx = fold_left (md_update alg) parts (md_init alg) /\ concat parts = m.

(** An HMAC context with its key. *)
Record hmac_keyed (ctx : ssh_hmac_ctx) (alg : Z) (d : ssh_digest) (key : list Z) : Prop := {
  hk_alg : h_alg ctx = alg;
  hk_d : ssh_digest_by_alg alg = Some d;
  hk_i : absorbed (ictx ctx) alg (ipad alg d key);
  hk_o : absorbed (octx ctx) alg (opad alg d key);
  hk_dg : dg_alg (hdigest ctx) = alg;
  hk_len : hbuf_len ctx = block_len d;
  hk_buf : Z.of_nat (length (hbuf ctx)) = block_len d
}.

Lemma digest_cases alg d :
  ssh_digest_by_alg alg = Some d -> 0 < digest_len d <= SSH_DIGEST_MAX_LENGTH /\ digest_len d <= block_len d <= 128.
Proof.
  unfold ssh_digest_by_alg, SSH_DIGEST_MAX. destruct (_ || _) eqn:E; [done|].
  assert (alg = 0 \/ alg = 1 \/ alg = 2 \/ alg = 3 \/ alg = 4) as H by lia.
  destruct H as [->|[->|[->|[->| ->]]]]; cbn; intros [= <-]; unfold SSH_DIGEST_MAX_LENGTH; cbn; lia.
Qed.

Lemma start_absorbed w alg ctx w' : ssh_digest_start w alg = (Some ctx, w') ->
  absorbed ctx alg [] /\ exists d, ssh_digest_by_alg alg = Some d.
Proof.
  unfold ssh_digest_start. destruct (ssh_digest_by_alg alg) as [d|] eqn:E; [|done].
  destruct (malloc w) as [[] w1]; [|done]. cbn [negb]. destruct (malloc w1) as [[] w2]; [|done].
  intros [= <- <-]. split; [|by eexists]. split; [done|]. by exists [].
Qed.

Lemma update_absorbed ctx alg d m x n :
  absorbed ctx alg m -> ssh_digest_by_alg alg = Some d ->
  exists ctx', ssh_digest_update ctx x n = (0, ctx') /\ absorbed ctx' alg (m ++ take (Z.to_nat n) x).
Proof.
  intros (Ha & parts & Hp & Hm) Hd. unfold ssh_digest_update. rewrite Ha, Hd. eexists. split; [done|].
  split; [done|]. exists (parts ++ [take (Z.to_nat n) x]). cbn [dg_md]. rewrite fold_left_app, concat_app, Hp, Hm.
  cbn. by rewrite app_nil_r.
Qed.

Lemma final_absorbed ctx alg d m mem n :
  absorbed ctx alg m -> ssh_digest_by_alg alg = Some d -> digest_len d <= n <= UINT_MAX ->
  exists ctx', ssh_digest_final ctx mem n = (0, ctx', splice mem 0 (hash alg m)) /\ dg_alg ctx' = alg.
Proof.
  intros (Ha & parts & Hp & Hm) Hd Hn. unfold ssh_digest_final. rewrite Ha, Hd.
  replace (n >? UINT_MAX) with false by lia. replace (n <? digest_len d) with false by lia.
  pose proof (md_hash alg parts) as Hh. rewrite <- Hp, Hm in Hh.
  destruct (md_final alg (dg_md ctx)) as [h x]. cbn [fst] in Hh. subst h. by eexists.
Qed.

Lemma copy_absorbed from to alg d m :
  absorbed from alg m -> dg_alg to = alg -> ssh_digest_by_alg alg = Some d ->
  exists ctx', ssh_digest_copy_state from to = (0, ctx') /\ absorbed ctx' alg m.
Proof.
  intros (Ha & Hp) Ht Hd. unfold ssh_digest_copy_state. rewrite Ha, Hd, Ht, Z.eqb_refl. cbn [negb].
  eexists. split; [done|]. by split.
Qed.

Lemma xor_all_xor_all a b l : xor_all a (xor_all b l) = xor_all (Z.lxor a b) l.
Proof. unfold xor_all. rewrite map_map. apply map_ext. intros x. by rewrite Z.lxor_assoc. Qed.

Lemma length_block_key alg d key :
  ssh_digest_by_alg alg = Some d -> Z.of_nat (length (block_key alg d key)) = block_len d.
Proof.
  intros Hd. pose proof (digest_cases alg d Hd). unfold block_key. rewrite length_app, length_replicate.
  destruct (Z.leb_spec (Z.of_nat (length key)) (block_len d)); [lia|].
  pose proof (hash_length alg d key Hd). lia.
Qed.

(** Over a zeroed block, the key (or its digest) leaves the padded key. *)
Lemma splice_zeros n k : (length k <= n)%nat -> splice (replicate n 0) 0 k = k ++ replicate (n - length k) 0.
Proof. intros Hk. unfold splice. by rewrite take_0, Nat.add_0_l, drop_replicate. Qed.

(** What [ssh_hmac_init] makes of the key in the zeroed block. *)
Lemma hmac_key_block w alg d key :
  ssh_digest_by_alg alg = Some d ->
  exists w' r b,
    (if Z.of_nat (length key) <=? block_len d
     then (0, splice (replicate (Z.to_nat (block_len d)) 0) 0 (take (Z.to_nat (Z.of_nat (length key))) key), w)
     else ssh_digest_memory w alg key (Z.of_nat (length key)) (replicate (Z.to_nat (block_len d)) 0) (block_len d))
    = (r, b, w') /\ (r < 0 \/ r = 0 /\ b = block_key alg d key).
Proof.
  intros Hd. pose proof (digest_cases alg d Hd) as Hdc.
  destruct (Z.leb_spec (Z.of_nat (length key)) (block_len d)) as [Hle|Hgt].
  - do 3 eexists. split; [done|]. right. split; [done|]. rewrite Nat2Z.id, firstn_all, splice_zeros by lia.
    unfold block_key. by rewrite (proj2 (Z.leb_le _ _) Hle).
  - unfold ssh_digest_memory. destruct (ssh_digest_start w alg) as [[c|] wf] eqn:E4.
    2:{ do 3 eexists. split; [done|]. by left. }
    apply start_absorbed in E4 as (Ac & _).
    destruct (update_absorbed c alg d [] key (Z.of_nat (length key)) Ac Hd) as (c' & -> & Ac'). cbn [negb Z.eqb].
    rewrite Nat2Z.id, firstn_all in Ac'. cbn [app] in Ac'.
    destruct (final_absorbed c' alg d key (replicate (Z.to_nat (block_len d)) 0) (block_len d) Ac' Hd) as (c'' & -> & _);
      [unfold UINT_MAX; lia|]. cbn [negb Z.eqb]. do 3 eexists. split; [done|]. right. split; [done|].
    pose proof (hash_length alg d key Hd). rewrite splice_zeros by lia.
    unfold block_key. by rewrite (proj2 (Z.leb_gt _ _) Hgt).
Qed.

Lemma hmac_setup w alg ctx w1 key r ctx' w2 :
  ssh_hmac_start w alg = (Some ctx, w1) ->
  ssh_hmac_init w1 ctx (Some key) (Z.of_nat (length key)) = (r, ctx', w2) -> 0 <= r ->
  exists d, hmac_keyed ctx' alg d key /\ r = 0.
Proof.
  unfold ssh_hmac_start. intros Hs Hi Hr. destruct (malloc w) as [[] wa]; [|done]. cbn [negb] in Hs.
  destruct (ssh_digest_start wa alg) as [[i|] wb] eqn:E1; [|done].
  destruct (ssh_digest_start wb alg) as [[o|] wc] eqn:E2; [|done].
  destruct (ssh_digest_start wc alg) as [[g|] wd] eqn:E3; [|done].
  destruct (malloc wd) as [[] we]; [|done]. injection Hs as <- <-.
  apply start_absorbed in E1 as (Ai & d & Hd). apply start_absorbed in E2 as (Ao & _).
  apply start_absorbed in E3 as (Ag & _). pose proof (digest_cases alg d Hd) as Hdc.
  assert (Hb : ssh_digest_blocksize i = block_len d) by (unfold ssh_digest_blocksize; by rewrite (proj1 Ai), Hd).
  rewrite Hb in Hi. unfold ssh_hmac_init, hmac_set_key in Hi. cbn [hbuf hbuf_len h_alg ictx octx hdigest] in Hi.
  destruct (hmac_key_block we alg d key Hd) as (w3 & r3 & b3 & E & Hb3).
  rewrite E in Hi. destruct Hb3 as [Hneg|[-> ->]].
  { rewrite (proj2 (Z.ltb_lt r3 0)) in Hi by done. cbn in Hi. injection Hi as <- <- <-. lia. }
  cbn [Z.ltb Z.compare] in Hi. pose proof (length_block_key alg d key Hd) as Hlk.
  assert (Htk : forall c, take (Z.to_nat (block_len d)) (xor_all c (block_key alg d key)) = xor_all c (block_key alg d key)).
  { intros c. apply take_ge. unfold xor_all. rewrite length_map. lia. }
  destruct (update_absorbed i alg d [] (xor_all 0x36 (block_key alg d key)) (block_len d) Ai Hd) as (i' & Ei & Ai').
  rewrite Ei in Hi. cbn [Z.ltb Z.compare] in Hi. rewrite xor_all_xor_all in Hi.
  change (Z.lxor (Z.lxor 54 92) 54) with 0x5c in Hi.
  destruct (update_absorbed o alg d [] (xor_all 0x5c (block_key alg d key)) (block_len d) Ao Hd) as (o' & Eo & Ao').
  rewrite Eo in Hi. cbn [Z.ltb Z.compare Z.eqb negb ictx hdigest] in Hi. rewrite Htk in Ai', Ao'. cbn [app] in Ai', Ao'.
  destruct (copy_absorbed i' g alg d (ipad alg d key) Ai' (proj1 Ag) Hd) as (g' & Eg & Ag').
  rewrite Eg in Hi. cbn in Hi. injection Hi as <- <- <-. exists d. split; [|done].
  split; cbn [h_alg ictx octx hdigest hbuf hbuf_len]; try done; [apply Ag'|].
  rewrite length_replicate. unfold xor_all. rewrite length_map. done.
Qed.

(** One message, in pieces: reset the context, add the pieces, finish. *)
Definition update_all (ctx : ssh_hmac_ctx) (parts : list (list Z)) : Z * ssh_hmac_ctx :=
  fold_left (fun '(r, ctx) m =>
    if r <? 0 then (r, ctx) else ssh_hmac_update ctx m (Z.of_nat (length m))) parts (0, ctx).

Lemma update_all_spec ctx alg d key m parts :
  hmac_keyed ctx alg d key -> absorbed (hdigest ctx) alg m ->
  exists ctx', update_all ctx parts = (0, ctx') /\ hmac_keyed ctx' alg d key /\
    absorbed (hdigest ctx') alg (m ++ concat parts).
Proof.
  unfold update_all. revert ctx m. induction parts as [|x parts IH]; intros ctx m Hk Ha.
  - exists ctx. cbn [fold_left concat]. by rewrite app_nil_r.
  - cbn [fold_left Z.ltb Z.compare]. unfold ssh_hmac_update at 2.
    destruct (update_absorbed (hdigest ctx) alg d m x (Z.of_nat (length x)) Ha (hk_d _ _ _ _ Hk)) as (g & -> & Hg).
    rewrite Nat2Z.id, firstn_all in Hg.
    destruct (IH (mk_hmac (h_alg ctx) (ictx ctx) (octx ctx) g (hbuf ctx) (hbuf_len ctx)) (m ++ x)) as (ctx' & E & Hk' & Ha').
    + destruct Hk. split; try done. apply Hg.
    + done.
    + exists ctx'. split; [exact E|]. split; [done|]. cbn [concat]. by rewrite app_assoc.
Qed.

Lemma hmac_reset w ctx alg d key :
  hmac_keyed ctx alg d key ->
  exists ctx', ssh_hmac_init w ctx None 0 = (0, ctx', w) /\ hmac_keyed ctx' alg d key /\
    absorbed (hdigest ctx') alg (ipad alg d key).
Proof.
  intros [? Hd Hi ? Hg ? ?]. unfold ssh_hmac_init. cbn [negb Z.eqb].
  destruct (copy_absorbed (ictx ctx) (hdigest ctx) alg d _ Hi Hg Hd) as (g & -> & Ag). cbn [Z.ltb Z.compare].
  eexists. split; [done|]. split; [|done]. split; try done. apply Ag.
Qed.

Lemma hmac_finish ctx alg d key m mem n :
  hmac_keyed ctx alg d key -> absorbed (hdigest ctx) alg (ipad alg d key ++ m) ->
  digest_len d <= n <= UINT_MAX ->
  exists ctx', ssh_hmac_final ctx mem n = (0, ctx', splice mem 0 (hmac alg d key m)) /\ hmac_keyed ctx' alg d key.
Proof.
  intros [Ha Hd Hi Ho Hg Hbl Hb] Hm Hn. pose proof (digest_cases alg d Hd) as Hdc. unfold ssh_hmac_final.
  unfold ssh_digest_bytes. rewrite Ha, Hd, (proj2 (Z.ltb_ge n (digest_len d))) by lia.
  destruct (final_absorbed (hdigest ctx) alg d _ (hbuf ctx) (digest_len d) Hm Hd) as (g1 & -> & Hg1);
    [unfold UINT_MAX, SSH_DIGEST_MAX_LENGTH in *; lia|].
  cbn [negb Z.eqb octx hdigest h_alg ictx hbuf_len].
  destruct (copy_absorbed (octx ctx) g1 alg d _ Ho Hg1 Hd) as (g2 & -> & Ag2). cbn [Z.ltb Z.compare octx ictx h_alg hbuf_len].
  set (h1 := hash alg (ipad alg d key ++ m)). pose proof (hash_length alg d (ipad alg d key ++ m) Hd) as Hl1. fold h1 in Hl1.
  destruct (update_absorbed g2 alg d _ (splice (hbuf ctx) 0 h1) (digest_len d) Ag2 Hd) as (g3 & -> & Ag3).
  cbn [Z.ltb Z.compare octx ictx h_alg hbuf_len].
  assert (take (Z.to_nat (digest_len d)) (splice (hbuf ctx) 0 h1) = h1) as T.
  { unfold splice. rewrite take_0. cbn [app]. apply take_app_length'. lia. }
  rewrite T in Ag3. destruct (final_absorbed g3 alg d _ mem n Ag3 Hd Hn) as (g4 & -> & Hg4). cbn [Z.ltb Z.compare].
  eexists. split; [done|]. split; try done. cbn [hbuf]. rewrite length_splice; [done|]. cbn [Nat.add]. lia.
Qed.

(** The tag of one message, with the context that is left. *)
Definition hmac_message (w : world) (ctx : ssh_hmac_ctx) (parts : list (list Z)) (mem : list Z)
  : option (list Z) * ssh_hmac_ctx :=
  let '(r, ctx, _) := ssh_hmac_init w ctx None 0 in
  if r <? 0 then (None, ctx)
  else
    let '(r, ctx) := update_all ctx parts in
    if r <? 0 then (None, ctx)
    else
      let '(r, ctx, mem) := ssh_hmac_final ctx mem SSH_DIGEST_MAX_LENGTH in
      if r <? 0 then (None, ctx) else (Some (take (Z.to_nat (ssh_hmac_bytes (h_alg ctx))) mem), ctx).

Fixpoint hmac_messages (w : world) (ctx : ssh_hmac_ctx) (msgs : list (list (list Z))) (mem : list Z)
  : list (option (list Z)) :=
  match msgs with
  | [] => []
  | parts :: msgs => let '(t, ctx) := hmac_message w ctx parts mem in t :: hmac_messages w ctx msgs mem
  end.

(** C17: A context of [ssh_hmac_start] and [ssh_hmac_init] computes HMAC as RFC 2104
    defines it, for one message after the other: each message starts with a
    reset ([ssh_hmac_init] without a key), may be added in any pieces, and its
    tag is the hash of the outer pad and the hash of the inner pad and the
    message; keys longer than a block are hashed first. *)
Theorem hmac_correct w alg ctx w1 key r ctx' w2 msgs mem :
  ssh_hmac_start w alg = (Some ctx, w1) ->
  ssh_hmac_init w1 ctx (Some key) (Z.of_nat (length key)) = (r, ctx', w2) -> 0 <= r ->
  length mem = Z.to_nat SSH_DIGEST_MAX_LENGTH ->
  exists d, ssh_digest_by_alg alg = Some d /\
    hmac_messages w2 ctx' msgs mem = map (fun parts => Some (hmac alg d key (concat parts))) msgs.
Proof.
  intros Hs Hi Hr Hm. destruct (hmac_setup _ _ _ _ _ _ _ _ Hs Hi Hr) as (d & Hk & _).
  exists d. split; [apply Hk|]. clear Hs Hi Hr. revert ctx' Hk.
  induction msgs as [|parts msgs IH]; intros ctx' Hk; [done|]. cbn [hmac_messages map].
  unfold hmac_message. destruct (hmac_reset w2 ctx' alg d key Hk) as (c1 & -> & Hk1 & A1). cbn [Z.ltb Z.compare].
  destruct (update_all_spec c1 alg d key _ parts Hk1 A1) as (c2 & -> & Hk2 & A2). cbn [Z.ltb Z.compare].
  pose proof (digest_cases alg d (hk_d _ _ _ _ Hk)) as Hdc.
  destruct (hmac_finish c2 alg d key _ mem SSH_DIGEST_MAX_LENGTH Hk2 A2) as (c3 & -> & Hk3);
    [unfold UINT_MAX, SSH_DIGEST_MAX_LENGTH in *; lia|]. cbn [Z.ltb Z.compare].
  f_equal; [|by apply IH]. f_equal. unfold ssh_hmac_bytes, ssh_digest_bytes.
  rewrite (hk_alg _ _ _ _ Hk3), (hk_d _ _ _ _ Hk). unfold splice. rewrite take_0. cbn [app]. apply take_app_length'.
  unfold hmac. pose proof (hash_length alg d (opad alg d key ++ hash alg (ipad alg d key ++ concat parts)) (hk_d _ _ _ _ Hk)).
  lia.
Qed.

End digest.

(** A hash function of our own for examples: a checksum, repeated. *)
#[local] Instance demo_md : MD := {|
  mdctx := list Z; md_init _ := []; md_update _ x m := x ++ m;
  md_final alg x := (replicate (Z.to_nat (ssh_digest_bytes alg)) (fold_left Z.add x 0 mod 256), x)
|}.

Lemma demo_absorb alg (parts : list (list Z)) x : fold_left (md_update alg) parts x = x ++ concat parts.
Proof.
  revert x. induction parts as [|m parts IH]; intros x; cbn [fold_left concat]; [by rewrite app_nil_r|].
  rewrite IH. cbn. by rewrite app_assoc.
Qed.

#[local] Instance demo_md_laws : @MDLaws demo_md.
Proof.
  refine {| hash alg m := replicate (Z.to_nat (ssh_digest_bytes alg)) (fold_left Z.add m 0 mod 256) |}.
  - intros alg parts. by rewrite demo_absorb.
  - intros alg d m Hd. rewrite length_replicate. unfold ssh_digest_bytes. rewrite Hd.
    pose proof (digest_cases alg d Hd). lia.
  - intros alg m. apply Forall_replicate. unfold is_byte. apply Z.mod_pos_bound. lia.
Defined.

Lemma hmac_correct_witness :
  exists ctx ctx', ssh_hmac_start [] SSH_DIGEST_SHA256 = (Some ctx, []) /\
    ssh_hmac_init [] ctx (Some [1; 2; 3]) 3 = (0, ctx', []) /\
    hmac_messages [] ctx' [[[4]; [5; 6]]; [[7]]] (replicate 64 0) =
      [Some (hmac 2 (mk_digest 2 (chars "SHA256") 64 32) [1; 2; 3] [4; 5; 6]);
       Some (hmac 2 (mk_digest 2 (chars "SHA256") 64 32) [1; 2; 3] [7])].
Proof.
  eexists _, _. split; [reflexivity|]. split; [reflexivity|].
  destruct (hmac_correct [] SSH_DIGEST_SHA256 _ [] [1; 2; 3] 0 _ [] [[[4]; [5; 6]]; [[7]]] (replicate 64 0)
    eq_refl eq_refl ltac:(lia) eq_refl) as (d & Hd & E).
  injection Hd as <-. exact E.
Defined.
