(* ===== verification/Mac.v ===== *)
(** Message authentication codes (mac.c): HMAC, optionally truncated, and UMAC,
    before or after encryption.

    UMAC (umac.c) is the class [Umac] with the laws its header documents.  A set
    up [sshmac] has an abstract key ([mac_keyed]), its tags are the function
    [mac_tag] of that key, and [mac_compute] and [mac_check] compute and compare
    exactly these tags, one packet after the other. *)

From stdpp Require Import base list numbers tactics.
From Stdlib Require Import ZArith Lia ZifyBool.
From S2P Require Import Prelude Sshbuf SshbufGetput Match Digest.

Definition SSH_DIGEST : Z := 1.
Definition SSH_UMAC : Z := 2.
Definition SSH_UMAC128 : Z := 3.

Record macalg := mk_macalg {
  ma_name : list Z; ma_type : Z; ma_alg : Z; truncatebits : Z; ma_key_len : Z; ma_len : Z; ma_etm : bool
}.

Definition macs : list macalg := [
  mk_macalg (chars "hmac-sha1") SSH_DIGEST SSH_DIGEST_SHA1 0 0 0 false;
  mk_macalg (chars "hmac-sha1-96") SSH_DIGEST SSH_DIGEST_SHA1 96 0 0 false;
  mk_macalg (chars "hmac-sha2-256") SSH_DIGEST SSH_DIGEST_SHA256 0 0 0 false;
  mk_macalg (chars "hmac-sha2-512") SSH_DIGEST SSH_DIGEST_SHA512 0 0 0 false;
  mk_macalg (chars "hmac-md5") SSH_DIGEST SSH_DIGEST_MD5 0 0 0 false;
  mk_macalg (chars "hmac-md5-96") SSH_DIGEST SSH_DIGEST_MD5 96 0 0 false;
  mk_macalg (chars "umac-64@openssh.com") SSH_UMAC 0 0 128 64 false;
  mk_macalg (chars "umac-128@openssh.com") SSH_UMAC128 0 0 128 128 false;
  mk_macalg (chars "hmac-sha1-etm@openssh.com") SSH_DIGEST SSH_DIGEST_SHA1 0 0 0 true;
  mk_macalg (chars "hmac-sha1-96-etm@openssh.com") SSH_DIGEST SSH_DIGEST_SHA1 96 0 0 true;
  mk_macalg (chars "hmac-sha2-256-etm@openssh.com") SSH_DIGEST SSH_DIGEST_SHA256 0 0 0 true;
  mk_macalg (chars "hmac-sha2-512-etm@openssh.com") SSH_DIGEST SSH_DIGEST_SHA512 0 0 0 true;
  mk_macalg (chars "hmac-md5-etm@openssh.com") SSH_DIGEST SSH_DIGEST_MD5 0 0 0 true;
  mk_macalg (chars "hmac-md5-96-etm@openssh.com") SSH_DIGEST SSH_DIGEST_MD5 96 0 0 true;
  mk_macalg (chars "umac-64-etm@openssh.com") SSH_UMAC 0 0 128 64 true;
  mk_macalg (chars "umac-128-etm@openssh.com") SSH_UMAC128 0 0 128 128 true].

(** The interface of umac.c; [true] selects the functions of umac128. *)
Class Umac := {
  umac_ctx : Type;
  umac_new : bool -> list Z -> umac_ctx;
  umac_update : bool -> umac_ctx -> list Z -> umac_ctx;
  umac_final : bool -> umac_ctx -> list Z -> list Z * umac_ctx
}.

Section mac.
Context {md : MD} {um : Umac}.

Record sshmac := mk_mac {
  m_name : list Z;
  m_enabled : bool;
  mac_len : Z;
  m_key : option (list Z);
  m_key_len : Z;
  m_type : Z;
  m_etm : bool;
  m_hmac : option ssh_hmac_ctx;
  m_umac : option umac_ctx
}.

Definition set_hmac (m : sshmac) (h : option ssh_hmac_ctx) : sshmac :=
  mk_mac (m_name m) (m_enabled m) (mac_len m) (m_key m) (m_key_len m) (m_type m) (m_etm m) h (m_umac m).

Definition set_umac (m : sshmac) (u : option umac_ctx) : sshmac :=
  mk_mac (m_name m) (m_enabled m) (mac_len m) (m_key m) (m_key_len m) (m_type m) (m_etm m) (m_hmac m) u.

Definition set_enabled (m : sshmac) : sshmac :=
  mk_mac (m_name m) true (mac_len m) (m_key m) (m_key_len m) (m_type m) (m_etm m) (m_hmac m) (m_umac m).

(** The loop of [mac_alg_list]. *)
Fixpoint mac_list_loop (w : world) (ms : list macalg) (sep : Z) (ret : option (list Z)) : option (list Z) * world :=
  match ms with
  | [] => (ret, w)
  | m :: ms =>
      let '(ok, w) := malloc w in
      if negb ok then (None, w)
      else mac_list_loop w ms sep (Some (match ret with None => [] | Some l => l ++ [sep] end ++ ma_name m))
  end.

Definition mac_alg_list (w : world) (sep : Z) : option (list Z) * world := mac_list_loop w macs sep None.

Definition mac_setup_by_alg (w : world) (mac : sshmac) (a : macalg) : Z * sshmac * world :=
  let '(r, mac, w) :=
    if ma_type a =? SSH_DIGEST then
      match ssh_hmac_start w (ma_alg a) with
      | (None, w) =>
          (SSH_ERR_ALLOC_FAIL,
           mk_mac (m_name mac) (m_enabled mac) (mac_len mac) (m_key mac) (m_key_len mac) (ma_type a) (m_etm mac)
             None (m_umac mac), w)
      | (Some h, w) =>
          (0, mk_mac (m_name mac) (m_enabled mac) (ssh_hmac_bytes (ma_alg a)) (m_key mac) (ssh_hmac_bytes (ma_alg a))
                (ma_type a) (m_etm mac) (Some h) (m_umac mac), w)
      end
    else
      (0, mk_mac (m_name mac) (m_enabled mac) (ma_len a / 8) (m_key mac) (ma_key_len a / 8) (ma_type a) (m_etm mac)
            (m_hmac mac) None, w) in
  if negb (r =? 0) then (r, mac, w)
  else
    let len := if negb (truncatebits a =? 0) then truncatebits a / 8 else mac_len mac in
    (0, mk_mac (m_name mac) (m_enabled mac) len (m_key mac) (m_key_len mac) (m_type mac) (ma_etm a)
          (m_hmac mac) (m_umac mac), w).

Definition mac_by_name (name : list Z) : option macalg :=
  List.find (fun m => bool_decide (name = ma_name m)) macs.

(** [mac] is [None] for a null pointer. *)
Definition mac_setup (w : world) (mac : option sshmac) (name : list Z) : Z * option sshmac * world :=
  match mac_by_name name with
  | None => (SSH_ERR_INVALID_ARGUMENT, mac, w)
  | Some a =>
      match mac with
      | None => (0, None, w)
      | Some mac => let '(r, mac, w) := mac_setup_by_alg w mac a in (r, Some mac, w)
      end
  end.

(** [umac_new] allocates with xcalloc, which does not return without memory. *)
Definition mac_init (w : world) (mac : sshmac) : Z * sshmac * world :=
  match m_key mac with
  | None => (SSH_ERR_INVALID_ARGUMENT, mac, w)
  | Some key =>
      if m_type mac =? SSH_DIGEST then
        match m_hmac mac with
        | None => (SSH_ERR_INVALID_ARGUMENT, mac, w)
        | Some h =>
            let '(r, h, w) := ssh_hmac_init w h (Some key) (m_key_len mac) in
            (if r <? 0 then SSH_ERR_INVALID_ARGUMENT else 0, set_hmac mac (Some h), w)
        end
      else if m_type mac =? SSH_UMAC then (0, set_umac mac (Some (umac_new false key)), w)
      else if m_type mac =? SSH_UMAC128 then (0, set_umac mac (Some (umac_new true key)), w)
      else (SSH_ERR_INVALID_ARGUMENT, mac, w)
  end.

(** The HMAC case of [mac_compute]; [u] is the static buffer. *)
Definition mac_hmac (w : world) (h : ssh_hmac_ctx) (seqno : Z) (data : list Z) (datalen : Z) (u : list Z)
  : Z * ssh_hmac_ctx * list Z :=
  let b := POKE_U32 seqno in
  let '(r, h, _) := ssh_hmac_init w h None 0 in
  if r <? 0 then (SSH_ERR_LIBCRYPTO_ERROR, h, u)
  else
    let '(r, h) := ssh_hmac_update h b 4 in
    if r <? 0 then (SSH_ERR_LIBCRYPTO_ERROR, h, u)
    else
      let '(r, h) := ssh_hmac_update h data datalen in
      if r <? 0 then (SSH_ERR_LIBCRYPTO_ERROR, h, u)
      else
        let '(r, h, u) := ssh_hmac_final h u SSH_DIGEST_MAX_LENGTH in
        (if r <? 0 then SSH_ERR_LIBCRYPTO_ERROR else 0, h, u).

(** [u] is the static buffer of 64 octets; [digest] is the memory written to,
    [None] for a null pointer.  The context pointers of a mac that was set up
    are never null where they are used. *)
Definition mac_compute (w : world) (mac : sshmac) (seqno : Z) (data : list Z) (datalen : Z)
    (u : list Z) (digest : option (list Z)) (dlen : Z) : Z * sshmac * option (list Z) :=
  if mac_len mac >? SSH_DIGEST_MAX_LENGTH then (SSH_ERR_INTERNAL_ERROR, mac, digest)
  else
    let '(r, mac, u) :=
      if m_type mac =? SSH_DIGEST then
        match m_hmac mac with
        | None => (SSH_ERR_LIBCRYPTO_ERROR, mac, u)
        | Some h => let '(r, h, u) := mac_hmac w h seqno data datalen u in (r, set_hmac mac (Some h), u)
        end
      else if (m_type mac =? SSH_UMAC) || (m_type mac =? SSH_UMAC128) then
        let b := m_type mac =? SSH_UMAC128 in
        match m_umac mac with
        | None => (SSH_ERR_INTERNAL_ERROR, mac, u)
        | Some x =>
            let '(t, x) := umac_final b (umac_update b x (take (Z.to_nat datalen) data)) (POKE_U64 seqno) in
            (0, set_umac mac (Some x), splice u 0 t)
        end
      else (SSH_ERR_INVALID_ARGUMENT, mac, u) in
    if negb (r =? 0) then (r, mac, digest)
    else
      match digest with
      | None => (0, mac, None)
      | Some digest =>
          let dlen := if dlen >? mac_len mac then mac_len mac else dlen in
          (0, mac, Some (splice digest 0 (take (Z.to_nat dlen) u)))
      end.

(** [ourmac] is the stack memory of the computed tag. *)
Definition mac_check (w : world) (mac : sshmac) (seqno : Z) (data : list Z) (dlen : Z)
    (theirmac : list Z) (mlen : Z) (u ourmac : list Z) : Z * sshmac :=
  if mac_len mac >? mlen then (SSH_ERR_INVALID_ARGUMENT, mac)
  else
    let '(r, mac, ours) := mac_compute w mac seqno data dlen u (Some ourmac) SSH_DIGEST_MAX_LENGTH in
    if negb (r =? 0) then (r, mac)
    else if negb (timingsafe_bcmp (default [] ours) theirmac (Z.to_nat (mac_len mac)) =? 0)
    then (SSH_ERR_MAC_INVALID, mac)
    else (0, mac).

(** The loop of [mac_valid]. *)
Fixpoint mac_valid_loop (fuel : nat) (cp : option (list Z)) : bool :=
  match fuel, cp with
  | S fuel, Some s =>
      let '(p, cp) := strsep COMMA s in
      match p with
      | [] => true
      | _ => match mac_by_name p with None => false | Some _ => mac_valid_loop fuel cp end
      end
  | _, _ => true
  end.

Definition mac_valid (w : world) (names : option (list Z)) : bool * world :=
  match names with
  | None | Some [] => (false, w)
  | Some names =>
      let '(ok, w) := malloc w in
      if negb ok then (false, w) else (mac_valid_loop (S (length names)) (Some names), w)
  end.

(** ** What the tags are *)

Class UmacLaws := {
  umac_tag : bool -> list Z -> list Z -> list Z -> list Z;
  (** A context with the subkeys of a key, between messages. *)
  umac_ready : bool -> list Z -> umac_ctx -> Prop;
  umac_new_ready b key : umac_ready b key (umac_new b key);
  umac_final_tag b key x m nonce : umac_ready b key x -> length nonce = 8%nat ->
    (umac_final b (umac_update b x m) nonce).1 = umac_tag b key nonce m;
  umac_final_ready b key x m nonce : umac_ready b key x -> length nonce = 8%nat ->
    umac_ready b key (umac_final b (umac_update b x m) nonce).2;
  umac_tag_length b key nonce m : length (umac_tag b key nonce m) = if b then 16%nat else 8%nat;
  umac_tag_bytes b key nonce m : bytes_ok (umac_tag b key nonce m)
}.

Context {mdl : MDLaws} {uml : UmacLaws}.

Inductive mac_secret :=
  | KHmac (alg : Z) (d : ssh_digest) (key : list Z)
  | KUmac (b : bool) (key : list Z).

Definition full_tag (k : mac_secret) (seqno : Z) (data : list Z) : list Z :=
  match k with
  | KHmac alg d key => hmac alg d key (POKE_U32 seqno ++ data)
  | KUmac b key => umac_tag b key (POKE_U64 seqno) data
  end.

Definition mac_tag (len : Z) (k : mac_secret) (seqno : Z) (data : list Z) : list Z :=
  take (Z.to_nat len) (full_tag k seqno data).

Definition mac_keyed (mac : sshmac) (k : mac_secret) : Prop :=
  match k with
  | KHmac alg d key =>
      m_type mac = SSH_DIGEST /\ 0 < mac_len mac <= digest_len d /\
      exists h, m_hmac mac = Some h /\ hmac_keyed h alg d key
  | KUmac b key =>
      m_type mac = (if b then SSH_UMAC128 else SSH_UMAC) /\ mac_len mac = (if b then 16 else 8) /\
      exists x, m_umac mac = Some x /\ umac_ready b key x
  end.

(** What computing a tag leaves alone. *)
Definition same_mac (m m' : sshmac) : Prop :=
  m_enabled m' = m_enabled m /\ mac_len m' = mac_len m /\ m_type m' = m_type m /\ m_etm m' = m_etm m.

Lemma full_tag_length mac k seqno data :
  mac_keyed mac k ->
  0 < mac_len mac <= Z.of_nat (length (full_tag k seqno data)) /\ mac_len mac <= SSH_DIGEST_MAX_LENGTH /\
  Z.of_nat (length (full_tag k seqno data)) <= SSH_DIGEST_MAX_LENGTH.
Proof.
  destruct k as [alg d key|b key]; cbn [mac_keyed full_tag].
  - intros (_ & Hl & h & _ & Hh). pose proof (digest_cases alg d (hk_d _ _ _ _ Hh)).
    unfold hmac. rewrite (hash_length alg d) by apply Hh. lia.
  - intros (_ & Hl & _). rewrite umac_tag_length. unfold SSH_DIGEST_MAX_LENGTH. destruct b; lia.
Qed.

Lemma length_mac_tag mac k seqno data :
  mac_keyed mac k -> Z.of_nat (length (mac_tag (mac_len mac) k seqno data)) = mac_len mac.
Proof. intros Hk. pose proof (full_tag_length mac k seqno data Hk). unfold mac_tag. rewrite length_take. lia. Qed.

Lemma bytes_ok_mac_tag len k seqno data : bytes_ok (mac_tag len k seqno data).
Proof. apply Forall_take. destruct k; cbn [full_tag]; [apply hash_bytes|apply umac_tag_bytes]. Qed.

Lemma mac_hmac_spec w h alg d key seqno data n u :
  hmac_keyed h alg d key ->
  exists h', mac_hmac w h seqno data n u =
      (0, h', splice u 0 (hmac alg d key (POKE_U32 seqno ++ take (Z.to_nat n) data))) /\ hmac_keyed h' alg d key.
Proof.
  intros Hh. pose proof (hk_d _ _ _ _ Hh) as Hd. unfold mac_hmac.
  destruct (hmac_reset w h alg d key Hh) as (h1 & -> & Hk1 & A1). cbn [Z.ltb Z.compare].
  pose proof (update_all_spec h1 alg d key _ [POKE_U32 seqno; take (Z.to_nat n) data] Hk1 A1) as (h3 & E & Hk3 & A3).
  unfold update_all in E. cbn [fold_left Z.ltb Z.compare] in E.
  destruct (ssh_hmac_update h1 (POKE_U32 seqno) (Z.of_nat (length (POKE_U32 seqno)))) as [r1 h2] eqn:E1.
  change (Z.of_nat (length (POKE_U32 seqno))) with 4 in E1. rewrite E1.
  destruct (r1 <? 0) eqn:Hr1; [exfalso; injection E as -> _; done|].
  assert (E2 : ssh_hmac_update h2 data n = ssh_hmac_update h2 (take (Z.to_nat n) data) (Z.of_nat (length (take (Z.to_nat n) data)))).
  { unfold ssh_hmac_update, ssh_digest_update. by rewrite Nat2Z.id, firstn_all. }
  rewrite E2, E. cbn [Z.ltb Z.compare].
  cbn [concat] in A3. rewrite app_nil_r in A3. pose proof (digest_cases alg d Hd) as Hdc.
  destruct (hmac_finish h3 alg d key _ u SSH_DIGEST_MAX_LENGTH Hk3 A3) as (h4 & -> & Hk4);
    [unfold UINT_MAX, SSH_DIGEST_MAX_LENGTH in *; lia|]. cbn [Z.ltb Z.compare]. by eexists.
Qed.

Lemma bcmp_loop_ext n p1 p1' p2 ret :
  (forall i, (i < n)%nat -> byte_at p1 i = byte_at p1' i) -> bcmp_loop n p1 p2 ret = bcmp_loop n p1' p2 ret.
Proof.
  revert p1 p1' p2 ret. induction n as [|n IH]; intros p1 p1' p2 ret H; [done|]. cbn [bcmp_loop].
  rewrite (H 0%nat) by lia. apply IH. intros i Hi. specialize (H (S i) ltac:(lia)).
  unfold byte_at in *. by rewrite !lookup_drop.
Qed.

Lemma timingsafe_bcmp_ext n b1 b1' b2 :
  (forall i, (i < n)%nat -> byte_at b1 i = byte_at b1' i) -> timingsafe_bcmp b1 b2 n = timingsafe_bcmp b1' b2 n.
Proof. intros H. unfold timingsafe_bcmp. by rewrite (bcmp_loop_ext n b1 b1'). Qed.

Lemma take_splice_head l v n : (n <= length v)%nat -> take n (splice l 0 v) = take n v.
Proof. intros Hn. unfold splice. rewrite take_0. cbn [app]. by apply take_app_le. Qed.

Lemma mac_compute_spec w mac k seqno data n u digest dlen :
  mac_keyed mac k -> 0 <= dlen ->
  exists mac', mac_compute w mac seqno data n u digest dlen =
      (0, mac', option_map (fun mem =>
        splice mem 0 (take (Z.to_nat (Z.min dlen (mac_len mac))) (full_tag k seqno (take (Z.to_nat n) data)))) digest) /\
    mac_keyed mac' k /\ same_mac mac mac'.
Proof.
  intros Hk Hdl. pose proof (full_tag_length mac k seqno (take (Z.to_nat n) data) Hk) as Hl. unfold mac_compute.
  replace (mac_len mac >? SSH_DIGEST_MAX_LENGTH) with false by lia.
  destruct k as [alg d key|b key].
  - destruct Hk as (Ht & Hml & h & Eh & Hh). rewrite Ht, Eh. cbn [Z.eqb].
    change (SSH_DIGEST =? SSH_DIGEST) with true. cbv iota.
    destruct (mac_hmac_spec w h alg d key seqno data n u Hh) as (h' & -> & Hh'). cbn [negb Z.eqb].
    exists (set_hmac mac (Some h')). split.
    + destruct digest as [mem|]; [|done]. cbn [option_map mac_len set_hmac]. do 3 f_equal.
      rewrite take_splice_head by (cbn [full_tag] in Hl; destruct (Z.gtb_spec dlen (mac_len mac)); lia).
      cbn [full_tag]. f_equal. destruct (Z.gtb_spec dlen (mac_len mac)); lia.
    + split; [|done]. cbn [mac_keyed set_hmac m_type mac_len m_hmac]. split_and!; try done; [lia..|]. by exists h'.
  - destruct Hk as (Ht & Hml & x & Ex & Hx). rewrite Ht, Ex.
    replace ((if b then SSH_UMAC128 else SSH_UMAC) =? SSH_DIGEST) with false by (by destruct b).
    replace (((if b then SSH_UMAC128 else SSH_UMAC) =? SSH_UMAC) || ((if b then SSH_UMAC128 else SSH_UMAC) =? SSH_UMAC128))
      with true by (by destruct b).
    replace ((if b then SSH_UMAC128 else SSH_UMAC) =? SSH_UMAC128) with b by (by destruct b).
    pose proof (umac_final_tag b key x (take (Z.to_nat n) data) (POKE_U64 seqno) Hx eq_refl) as Et.
    pose proof (umac_final_ready b key x (take (Z.to_nat n) data) (POKE_U64 seqno) Hx eq_refl) as Er.
    destruct (umac_final b _ _) as [t x']. cbn [fst snd] in Et, Er. subst t. cbn [negb Z.eqb].
    exists (set_umac mac (Some x')). split.
    + destruct digest as [mem|]; [|done]. cbn [option_map mac_len set_umac]. do 3 f_equal.
      rewrite take_splice_head by (cbn [full_tag] in Hl; destruct (Z.gtb_spec dlen (mac_len mac)); lia).
      cbn [full_tag]. f_equal. destruct (Z.gtb_spec dlen (mac_len mac)); lia.
    + split; [|done]. cbn [mac_keyed set_umac m_type mac_len m_umac]. split_and!; try done. by exists x'.
Qed.

(** The tag that is written for a packet. *)
Lemma mac_compute_tag w mac k seqno data n u mem dlen :
  mac_keyed mac k -> mac_len mac <= dlen ->
  exists mac', mac_compute w mac seqno data n u (Some mem) dlen =
      (0, mac', Some (splice mem 0 (mac_tag (mac_len mac) k seqno (take (Z.to_nat n) data)))) /\
    mac_keyed mac' k /\ same_mac mac mac'.
Proof.
  intros Hk Hd. pose proof (full_tag_length mac k seqno data Hk) as Hl.
  destruct (mac_compute_spec w mac k seqno data n u (Some mem) dlen Hk) as (mac' & E & H); [lia|].
  exists mac'. split; [|done]. rewrite E. cbn [option_map]. by rewrite Z.min_r by lia.
Qed.

(** The check accepts exactly the tag. *)
Lemma mac_check_spec w mac k seqno data n theirmac u ourmac :
  mac_keyed mac k -> mac_len mac <= Z.of_nat (length theirmac) ->
  exists mac', mac_check w mac seqno data n theirmac (mac_len mac) u ourmac =
      (if decide (take (Z.to_nat (mac_len mac)) theirmac = mac_tag (mac_len mac) k seqno (take (Z.to_nat n) data))
       then 0 else SSH_ERR_MAC_INVALID, mac') /\
    mac_keyed mac' k /\ same_mac mac mac'.
Proof.
  intros Hk Hl. pose proof (full_tag_length mac k seqno (take (Z.to_nat n) data) Hk) as Hf.
  unfold mac_check. rewrite Z.gtb_ltb, Z.ltb_irrefl.
  destruct (mac_compute_tag w mac k seqno data n u ourmac SSH_DIGEST_MAX_LENGTH Hk) as (mac' & -> & Hk' & Hs); [lia|].
  cbn [negb Z.eqb from_option]. unfold id. exists mac'. split; [|done]. destruct Hs as (_ & -> & _).
  set (tag := mac_tag _ _ _ _). assert (Ht : Z.of_nat (length tag) = mac_len mac) by (by apply length_mac_tag).
  assert (E : timingsafe_bcmp (splice ourmac 0 tag) theirmac (Z.to_nat (mac_len mac)) =
              timingsafe_bcmp tag theirmac (Z.to_nat (mac_len mac))).
  { apply timingsafe_bcmp_ext. intros i Hi. unfold byte_at, splice. rewrite take_0. cbn [app].
    by rewrite lookup_app_l by lia. }
  cbn [from_option]. rewrite E.
  rewrite timingsafe_bcmp_spec by lia.
  destruct (decide (tag = take (Z.to_nat (mac_len mac)) theirmac)) as [->|Hne]; cbn [negb Z.eqb].
  - by rewrite decide_True.
  - rewrite decide_False by (intros ?; by apply Hne). done.
Qed.

(** ** Setting up *)

(** [mac->key = key], as kex_derive_keys does. *)
Definition set_key (mac : sshmac) (key : list Z) : sshmac :=
  mk_mac (m_name mac) (m_enabled mac) (mac_len mac) (Some key) (m_key_len mac) (m_type mac) (m_etm mac)
    (m_hmac mac) (m_umac mac).

(** The secret that an algorithm and a key select. *)
Definition secret_of (a : macalg) (d : ssh_digest) (key : list Z) : mac_secret :=
  if ma_type a =? SSH_DIGEST then KHmac (ma_alg a) d (take (Z.to_nat (digest_len d)) key)
  else KUmac (ma_type a =? SSH_UMAC128) key.

Lemma ssh_hmac_init_take w h key n :
  0 <= n <= Z.of_nat (length key) ->
  ssh_hmac_init w h (Some key) n =
    ssh_hmac_init w h (Some (take (Z.to_nat n) key)) (Z.of_nat (length (take (Z.to_nat n) key))).
Proof.
  intros Hn. unfold ssh_hmac_init, hmac_set_key, ssh_digest_memory, ssh_digest_update.
  rewrite length_take, Nat.min_l by lia. rewrite Z2Nat.id by lia. by rewrite take_take, Nat.min_id.
Qed.

Lemma macs_cases a :
  In a macs ->
  (ma_type a = SSH_DIGEST /\ (exists d, ssh_digest_by_alg (ma_alg a) = Some d /\
     (truncatebits a = 0 \/ truncatebits a = 96 /\ 12 <= digest_len d))) \/
  (ma_type a = SSH_UMAC /\ ma_len a = 64 /\ truncatebits a = 0) \/
  (ma_type a = SSH_UMAC128 /\ ma_len a = 128 /\ truncatebits a = 0).
Proof.
  intros H. repeat destruct H as [<-|H]; try destruct H;
    first [left; split; [done|]; eexists; split; [done|]; cbn; first [by left | right; lia]
          | right; left; by split_and! | right; right; by split_and!].
Qed.

Lemma mac_setup_keyed w m0 name key m1 w1 m2 w2 :
  mac_setup w (Some m0) name = (0, Some m1, w1) ->
  m_key_len m1 <= Z.of_nat (length key) ->
  mac_init w1 (set_key m1 key) = (0, m2, w2) ->
  exists a d, mac_by_name name = Some a /\ (ma_type a = SSH_DIGEST -> ssh_digest_by_alg (ma_alg a) = Some d) /\
    mac_keyed m2 (secret_of a d key) /\ m_etm m2 = ma_etm a /\ m_enabled m2 = m_enabled m0.
Proof.
  unfold mac_setup. destruct (mac_by_name name) as [a|] eqn:Ea; [|done]. intros Hs Hl Hi.
  pose proof Ea as Ha. unfold mac_by_name in Ha. apply find_some in Ha as [Hin _].
  destruct (mac_setup_by_alg w m0 a) as [[r m1'] w1'] eqn:Es. injection Hs as -> -> ->.
  unfold mac_setup_by_alg in Es. unfold mac_init in Hi. unfold secret_of.
  destruct (macs_cases a Hin) as [(Ht & d & Hd & Hc)|[(Ht & Hal & Hc)|(Ht & Hal & Hc)]]; rewrite Ht in *.
  - change (SSH_DIGEST =? SSH_DIGEST) with true in *. cbv iota in Es |- *.
    destruct (ssh_hmac_start w (ma_alg a)) as [[h|] w3] eqn:Eh; [|done]. cbn [negb Z.eqb] in Es.
    injection Es as <- <-. cbn [set_key m_key m_type m_hmac m_key_len] in *.
    change (SSH_DIGEST =? SSH_DIGEST) with true in Hi. cbv iota in Hi.
    unfold ssh_hmac_bytes, ssh_digest_bytes in *. rewrite Hd in *. pose proof (digest_cases _ d Hd) as Hdc.
    rewrite ssh_hmac_init_take in Hi by lia.
    destruct (ssh_hmac_init w3 h _ _) as [[r h'] w4] eqn:Ei. injection Hi as Hr <- <-.
    destruct (hmac_setup w _ h w3 (take (Z.to_nat (digest_len d)) key) r h' w4 Eh Ei) as (d' & Hk & _).
    { destruct (Z.ltb_spec r 0); [done|lia]. }
    assert (d' = d) as -> by (pose proof (hk_d _ _ _ _ Hk); congruence).
    exists a, d. split; [done|]. split; [done|]. split; [|done]. rewrite Ht. cbn -[Z.div Z.le Z.lt]. cbn [mac_keyed set_hmac m_type mac_len m_hmac].
    split_and!; [done| | |by exists h']; destruct Hc as [->|[-> ?]]; cbn [negb Z.eqb]; (done || lia).
  - change (SSH_UMAC =? SSH_DIGEST) with false in *. cbn [negb Z.eqb] in Es. injection Es as <- <-.
    cbn [set_key m_key m_type] in Hi. change (SSH_UMAC =? SSH_DIGEST) with false in Hi.
    change (SSH_UMAC =? SSH_UMAC) with true in Hi. cbv iota in Hi. injection Hi as <- <-.
    exists a, (mk_digest 0 [] 0 0). split; [done|]. split; [by rewrite Ht|]. split; [|done]. rewrite Ht. cbn -[Z.div Z.le Z.lt]. cbn [mac_keyed set_umac m_type mac_len m_umac].
    rewrite Hc, Hal. split_and!; [done..|]. eexists. split; [done|]. apply umac_new_ready.
  - change (SSH_UMAC128 =? SSH_DIGEST) with false in *. cbn [negb Z.eqb] in Es. injection Es as <- <-.
    cbn [set_key m_key m_type] in Hi. change (SSH_UMAC128 =? SSH_DIGEST) with false in Hi.
    change (SSH_UMAC128 =? SSH_UMAC) with false in Hi. change (SSH_UMAC128 =? SSH_UMAC128) with true in Hi.
    cbv iota in Hi. injection Hi as <- <-.
    exists a, (mk_digest 0 [] 0 0). split; [done|]. split; [by rewrite Ht|]. split; [|done]. rewrite Ht. cbn -[Z.div Z.le Z.lt]. cbn [mac_keyed set_umac m_type mac_len m_umac].
    rewrite Hc, Hal. split_and!; [done..|]. eexists. split; [done|]. apply umac_new_ready.
Qed.

(** The algorithm fixes the length of the tags. *)
Lemma mac_setup_len w m0 name m1 w1 :
  mac_setup w (Some m0) name = (0, Some m1, w1) ->
  exists a, mac_by_name name = Some a /\
    mac_len m1 = (if negb (truncatebits a =? 0) then truncatebits a / 8
                  else if ma_type a =? SSH_DIGEST then ssh_hmac_bytes (ma_alg a) else ma_len a / 8).
Proof.
  unfold mac_setup, mac_setup_by_alg. destruct (mac_by_name name) as [a|]; [|done]. intros H. exists a. split; [done|].
  destruct (ma_type a =? SSH_DIGEST).
  - destruct (ssh_hmac_start w (ma_alg a)) as [[h|] w']; [|done]. injection H as <- <-. done.
  - injection H as <- <-. done.
Qed.

Lemma mac_init_len w m r m' w' : mac_init w m = (r, m', w') -> mac_len m' = mac_len m.
Proof.
  unfold mac_init. intros H. destruct (m_key m); [|by injection H as <- <- <-].
  destruct (m_type m =? SSH_DIGEST).
  - destruct (m_hmac m); [|by injection H as <- <- <-].
    destruct (ssh_hmac_init _ _ _ _) as [[? ?] ?]. by injection H as <- <- <-.
  - destruct (m_type m =? SSH_UMAC); [by injection H as <- <- <-|].
    destruct (m_type m =? SSH_UMAC128); by injection H as <- <- <-.
Qed.

Lemma mac_len_of name key w s0 s1 ws s ws' w' r0 r1 wr r wr' :
  mac_setup w (Some s0) name = (0, Some s1, ws) -> mac_init ws (set_key s1 key) = (0, s, ws') ->
  mac_setup w' (Some r0) name = (0, Some r1, wr) -> mac_init wr (set_key r1 key) = (0, r, wr') ->
  mac_len s = mac_len r.
Proof.
  intros Es Is Er Ir. rewrite (mac_init_len _ _ _ _ _ Is), (mac_init_len _ _ _ _ _ Ir). cbn [set_key mac_len].
  destruct (mac_setup_len _ _ _ _ _ Es) as (a & Ha & ->). destruct (mac_setup_len _ _ _ _ _ Er) as (a' & Ha' & ->).
  rewrite Ha in Ha'. by injection Ha' as <-.
Qed.

(** C19: Two sides that set up the same algorithm of the table with the same key
    agree on tags: [mac_compute] on one side writes a tag of [mac_len] octets for
    a packet and its sequence number, and [mac_check] on the other accepts
    exactly that tag; every other tag of that length is SSH_ERR_MAC_INVALID. *)
Theorem mac_check_exact name key
    w s0 s1 ws s ws' w' r0 r1 wr r wr' seqno data u mem u' ourmac :
  mac_setup w (Some s0) name = (0, Some s1, ws) -> mac_init ws (set_key s1 key) = (0, s, ws') ->
  mac_setup w' (Some r0) name = (0, Some r1, wr) -> mac_init wr (set_key r1 key) = (0, r, wr') ->
  m_key_len s1 <= Z.of_nat (length key) -> m_key_len r1 <= Z.of_nat (length key) ->
  exists tag s', mac_compute ws' s seqno data (Z.of_nat (length data)) u (Some mem) SSH_DIGEST_MAX_LENGTH =
      (0, s', Some (splice mem 0 tag)) /\
    Z.of_nat (length tag) = mac_len r /\
    forall theirs, Z.of_nat (length theirs) = mac_len r ->
      exists r', mac_check wr' r seqno data (Z.of_nat (length data)) theirs (mac_len r) u' ourmac =
        (if decide (theirs = tag) then 0 else SSH_ERR_MAC_INVALID, r').
Proof.
  intros Es Is Er Ir Hls Hlr.
  destruct (mac_setup_keyed _ _ _ _ _ _ _ _ Es Hls Is) as (a & d & Ha & Hd & Hks & _).
  destruct (mac_setup_keyed _ _ _ _ _ _ _ _ Er Hlr Ir) as (a' & d' & Ha' & Hd' & Hkr & _).
  rewrite Ha in Ha'. injection Ha' as <-.
  assert (Ek : secret_of a d' key = secret_of a d key).
  { unfold secret_of. destruct (Z.eqb_spec (ma_type a) SSH_DIGEST) as [E|]; [|done].
    specialize (Hd E). specialize (Hd' E). congruence. }
  rewrite Ek in Hkr. set (k := secret_of a d key) in *.
  assert (El : mac_len s = mac_len r).
  { eapply mac_len_of; [exact Es|exact Is|exact Er|exact Ir]. }
  pose proof (full_tag_length s k seqno data Hks) as Hf.
  destruct (mac_compute_tag ws' s k seqno data (Z.of_nat (length data)) u mem SSH_DIGEST_MAX_LENGTH Hks) as (s' & E & _); [lia|].
  rewrite Nat2Z.id, firstn_all in E.
  eexists _, s'. split; [exact E|]. split; [rewrite <- El; by apply length_mac_tag|]. intros theirs Ht.
  destruct (mac_check_spec wr' r k seqno data (Z.of_nat (length data)) theirs u' ourmac Hkr) as (r' & E' & _); [lia|].
  exists r'. rewrite E', Nat2Z.id, firstn_all, El. rewrite take_ge by lia. done.
Qed.

End mac.

(** Examples use the checksum of Digest.v and an UMAC that sums up. *)
#[local] Existing Instance demo_md.
#[local] Existing Instance demo_md_laws.

#[local] Instance demo_umac : Umac := {|
  umac_ctx := list Z * list Z;
  umac_new _ key := (key, []);
  umac_update _ x m := (x.1, x.2 ++ m);
  umac_final b x nonce :=
    (replicate (if b then 16 else 8) (fold_left Z.add (x.1 ++ nonce ++ x.2) 0 mod 256), (x.1, []))
|}.

#[local] Instance demo_umac_laws : @UmacLaws demo_umac.
Proof.
  refine {|
    umac_tag b key nonce m := replicate (if b then 16 else 8) (fold_left Z.add (key ++ nonce ++ m) 0 mod 256);
    umac_ready b key x := x = (key, [])
  |}.
  - done.
  - by intros b key x m nonce ->.
  - by intros b key x m nonce ->.
  - intros [] key nonce m; apply length_replicate.
  - intros b key nonce m. apply Forall_replicate. unfold is_byte. apply Z.mod_pos_bound. lia.
Defined.

Definition demo_mac0 : @sshmac demo_md demo_umac := mk_mac [] true 0 None 0 0 false None None.

Lemma mac_check_exact_witness :
  exists s r tag, Z.of_nat (length tag) = mac_len r /\ mac_len r = 8 /\
    (exists s', mac_compute [] s 5 [1; 2; 3] 3 (replicate 64 0) (Some (replicate 64 7)) 64 =
      (0, s', Some (splice (replicate 64 7) 0 tag))) /\
    (exists r', mac_check [] r 5 [1; 2; 3] 3 (replicate 8 1) 8 (replicate 64 0) (replicate 64 0) =
      (if decide (replicate 8 1 = tag) then 0 else SSH_ERR_MAC_INVALID, r')).
Proof.
  destruct (mac_check_exact (chars "umac-64@openssh.com") (replicate 16 4)
    [] demo_mac0 _ [] _ [] [] demo_mac0 _ [] _ [] 5 [1; 2; 3] (replicate 64 0) (replicate 64 7)
    (replicate 64 0) (replicate 64 0) eq_refl eq_refl eq_refl eq_refl ltac:(vm_compute; discriminate)
    ltac:(vm_compute; discriminate)) as (tag & s' & E1 & E2 & E3).
  eexists _, _, tag. split; [exact E2|]. split; [reflexivity|]. split; [eexists; exact E1|].
  exact (E3 (replicate 8 1) eq_refl).
Defined.
