(* ===== verification/KrlFormat.v ===== *)
(** The file format of key revocation lists: the second half of krl.c.

    [ssh_krl_to_blob] writes a list as a header and typed sections; the serial
    numbers of a certificate authority go into sections of three kinds (list,
    range, bitmap), chosen by a cost estimate.  [ssh_krl_from_blob] reads such
    a file back, sections being child buffers that share the memory of the
    file.  This file models both; KrlWrite.v, KrlRead.v and
    KrlFile.v prove the round trip. *)

From stdpp Require Import base list numbers tactics.
From Stdlib Require Import ZArith Lia ZifyBool.
From S2P Require Import Prelude Sshbuf SshbufGetput SshbufShare SshbufRead SshbufMisc Bitmap RbTree Krl.

(** "SSHKRL\n\0" *)
Definition KRL_MAGIC : list Z := [83; 83; 72; 75; 82; 76; 10; 0].
Definition KRL_FORMAT_VERSION : Z := 1.

Definition KRL_SECTION_CERTIFICATES : Z := 1.
Definition KRL_SECTION_EXPLICIT_KEY : Z := 2.
Definition KRL_SECTION_FINGERPRINT_SHA1 : Z := 3.
Definition KRL_SECTION_SIGNATURE : Z := 4.
Definition KRL_SECTION_FINGERPRINT_SHA256 : Z := 5.
Definition KRL_SECTION_EXTENSION : Z := 255.

Definition KRL_SECTION_CERT_SERIAL_LIST : Z := 0x20.
Definition KRL_SECTION_CERT_SERIAL_RANGE : Z := 0x21.
Definition KRL_SECTION_CERT_SERIAL_BITMAP : Z := 0x22.
Definition KRL_SECTION_CERT_KEY_ID : Z := 0x23.
Definition KRL_SECTION_CERT_EXTENSION : Z := 0x39.

(** A step falls through to the next statement, or jumps to [out] with the
    value [r] then has. *)
Inductive flow := Next | Out (r : Z).

Definition and_next {S : Type} (x : flow * S * world) (k : S -> world -> flow * S * world)
  : flow * S * world :=
  let '(f, s, w) := x in match f with Next => k s w | Out _ => (f, s, w) end.

(** [if ((r = f(...)) != 0) goto out;] *)
Definition check {S : Type} (x : Z * S * world) : flow * S * world :=
  let '(r, s, w) := x in (if r =? 0 then Next else Out r, s, w).

(** ** Writing *)

Definition choose_next_state (current_state contig : Z) (final : bool) (last_gap next_gap : Z)
  : Z * bool :=
  let contig := Z.min contig (2 ^ 31) in
  let last_gap := Z.min last_gap (2 ^ 31) in
  let next_gap := Z.min next_gap (2 ^ 31) in
  let '(cost_list, cost_bitmap, cost_bitmap_restart) :=
    if current_state =? KRL_SECTION_CERT_SERIAL_LIST then (0, 8 + 64, 8 + 64)
    else if current_state =? KRL_SECTION_CERT_SERIAL_BITMAP then (8, 0, 8 + 64)
    else if (current_state =? KRL_SECTION_CERT_SERIAL_RANGE) || (current_state =? 0)
    then (8, 8 + 64, 8 + 64)
    else (0, 0, 0) in
  let cost_range := 8 in
  (* Estimate base cost in bits of each section type *)
  let cost_list := u64 (cost_list + 64 * contig + (if final then 0 else 8 + 64)) in
  let cost_range := u64 (cost_range + 2 * 64 + (if final then 0 else 8 + 64)) in
  let cost_bitmap :=
    u64 (cost_bitmap + last_gap + contig + (if final then 0 else Z.min next_gap (8 + 64))) in
  let cost_bitmap_restart :=
    u64 (cost_bitmap_restart + contig + (if final then 0 else Z.min next_gap (8 + 64))) in
  (* Convert to byte costs for actual comparison *)
  let cost_list := (cost_list + 7) / 8 in
  let cost_bitmap := (cost_bitmap + 7) / 8 in
  let cost_bitmap_restart := (cost_bitmap_restart + 7) / 8 in
  let cost_range := (cost_range + 7) / 8 in
  (* Now pick the best choice *)
  let '(new_state, cost) := (KRL_SECTION_CERT_SERIAL_BITMAP, cost_bitmap) in
  let '(new_state, cost) :=
    if cost_range <? cost then (KRL_SECTION_CERT_SERIAL_RANGE, cost_range)
    else (new_state, cost) in
  let '(new_state, cost) :=
    if cost_list <? cost then (KRL_SECTION_CERT_SERIAL_LIST, cost_list)
    else (new_state, cost) in
  if cost_bitmap_restart <? cost then (KRL_SECTION_CERT_SERIAL_BITMAP, true)
  else (new_state, false).

(** The block [malloc] returns is overwritten as a whole. *)
Definition put_bitmap (w : world) (buf : sshbuf) (bm : bitmap) : Z * sshbuf * world :=
  let '(len, bm) := bitmap_nbytes bm in
  let '(ok, w) := malloc w in
  if negb ok then (SSH_ERR_ALLOC_FAIL, buf, w)
  else
    let '(r, blob, _) := bitmap_to_string bm (replicate (Z.to_nat len) 0) len in
    if negb (r =? 0) then (SSH_ERR_INTERNAL_ERROR, buf, w)
    else sshbuf_put_bignum2_bytes w buf blob len.

(** The variables of [revoked_certs_generate]. *)
Record genst := mk_gen {
  g_state : Z;
  g_last : Z;
  g_start : Z;                (* bitmap_start *)
  g_bitmap : option bitmap;
  g_sect : sshbuf;
  g_buf : sshbuf
}.

Definition set_g_state (g : genst) (s : Z) := mk_gen s (g_last g) (g_start g) (g_bitmap g) (g_sect g) (g_buf g).
Definition set_g_last (g : genst) (l : Z) := mk_gen (g_state g) l (g_start g) (g_bitmap g) (g_sect g) (g_buf g).
Definition set_g_bitmap (g : genst) (start : Z) (b : option bitmap) :=
  mk_gen (g_state g) (g_last g) start b (g_sect g) (g_buf g).
Definition set_g_sect (g : genst) (s : sshbuf) := mk_gen (g_state g) (g_last g) (g_start g) (g_bitmap g) s (g_buf g).
Definition set_g_buf (g : genst) (b : sshbuf) := mk_gen (g_state g) (g_last g) (g_start g) (g_bitmap g) (g_sect g) b.

(** A call that changes [sect] or [buf]. *)
Definition on_sect (g : genst) (x : Z * sshbuf * world) : Z * genst * world :=
  let '(r, b, w) := x in (r, set_g_sect g b, w).
Definition on_buf (g : genst) (x : Z * sshbuf * world) : Z * genst * world :=
  let '(r, b, w) := x in (r, set_g_buf g b, w).

Definition reset_sect (w : world) (g : genst) : flow * genst * world :=
  let '(b, w) := sshbuf_reset w (g_sect g) in (Next, set_g_sect g b, w).

(** The end of a section: a bitmap is added to it, then it goes to [buf].  The
    pointer to the bitmap is not null in a bitmap section. *)
Definition finish_section (w : world) (g : genst) : flow * genst * world :=
  and_next
    (if g_state g =? KRL_SECTION_CERT_SERIAL_BITMAP then
       match g_bitmap g with
       | Some bm =>
           and_next (check (on_sect g (put_bitmap w (g_sect g) bm)))
             (fun g w => (Next, set_g_bitmap g (g_start g) None, w))
       | None => (Next, g, w)
       end
     else (Next, g, w))
    (fun g w =>
       and_next (check (on_buf g (sshbuf_put_u8 w (g_buf g) (g_state g))))
         (fun g w => check (on_buf g (sshbuf_put_stringb w (g_buf g) (Some (g_sect g)))))).

Definition start_section (w : world) (g : genst) (next_state lo : Z) : flow * genst * world :=
  and_next (reset_sect w (set_g_state g next_state)) (fun g w =>
    if g_state g =? KRL_SECTION_CERT_SERIAL_BITMAP then
      match bitmap_new w with
      | (None, w) => (Out SSH_ERR_ALLOC_FAIL, g, w)
      | (Some bm, w) =>
          let g := set_g_bitmap g lo (Some bm) in
          check (on_sect g (sshbuf_put_u64 w (g_sect g) lo))
      end
    else (Next, g, w)).

(** [for (i = 0; i < contig; i++)] over a list section: [n] rounds are left. *)
Fixpoint put_serials (w : world) (sect : sshbuf) (n : nat) (serial : Z) : Z * sshbuf * world :=
  match n with
  | O => (0, sect, w)
  | S n =>
      let '(r, sect, w) := sshbuf_put_u64 w sect serial in
      if negb (r =? 0) then (r, sect, w) else put_serials w sect n (u64 (serial + 1))
  end.

(** ... and over a bitmap; the number of the bit is converted to [u_int]. *)
Fixpoint set_bits (w : world) (bm : bitmap) (n : nat) (bit : Z) : Z * bitmap * world :=
  match n with
  | O => (0, bm, w)
  | S n =>
      let '(r, bm, w) := bitmap_set_bit w bm (u32 bit) in
      if negb (r =? 0) then (SSH_ERR_ALLOC_FAIL, bm, w) else set_bits w bm n (u64 (bit + 1))
  end.

(** What is done for one range in the open section. *)
Definition fill_section (w : world) (g : genst) (rs : revoked_serial) (contig : Z)
  : flow * genst * world :=
  if g_state g =? KRL_SECTION_CERT_SERIAL_LIST then
    check (on_sect g (put_serials w (g_sect g) (Z.to_nat contig) (rs_lo rs)))
  else if g_state g =? KRL_SECTION_CERT_SERIAL_RANGE then
    and_next (check (on_sect g (sshbuf_put_u64 w (g_sect g) (rs_lo rs))))
      (fun g w => check (on_sect g (sshbuf_put_u64 w (g_sect g) (rs_hi rs))))
  else if g_state g =? KRL_SECTION_CERT_SERIAL_BITMAP then
    (* insane bitmap gap: r is still 0 here *)
    if u64 (rs_lo rs - g_start g) >? INT_MAX then (Out 0, g, w)
    else
      match g_bitmap g with
      | Some bm =>
          let '(r, bm, w) := set_bits w bm (Z.to_nat contig) (u64 (rs_lo rs - g_start g)) in
          check (r, set_g_bitmap g (g_start g) (Some bm), w)
      | None => (Next, g, w)
      end
  else (Next, g, w).

(** One round of the loop over the tree of serial numbers. *)
Definition gen_serial (w : world) (g : genst) (rs : revoked_serial) (nrs : option revoked_serial)
  : flow * genst * world :=
  let final := match nrs with None => true | Some _ => false end in
  let gap := match nrs with None => 0 | Some n => u64 (rs_lo n - rs_hi rs) end in
  let contig := u64 (1 + u64 (rs_hi rs - rs_lo rs)) in
  let state := g_state g in
  let '(next_state, force_new_sect) :=
    choose_next_state state contig final
      (if state =? 0 then 0 else u64 (rs_lo rs - g_last g)) gap in
  and_next
    (if negb (state =? 0) && (force_new_sect || negb (next_state =? state) ||
         (state =? KRL_SECTION_CERT_SERIAL_RANGE))
     then and_next (finish_section w g) (fun g w => reset_sect w g)
     else (Next, g, w))
    (fun g w =>
       and_next
         (if negb (next_state =? state) || force_new_sect
          then start_section w g next_state (rs_lo rs)
          else (Next, g, w))
         (fun g w =>
            and_next (fill_section w g rs contig)
              (fun g w => (Next, set_g_last g (rs_hi rs), w)))).

Fixpoint gen_serials (w : world) (g : genst) (l : list revoked_serial) : flow * genst * world :=
  match l with
  | [] => (Next, g, w)
  | rs :: l =>
      and_next (gen_serial w g rs (head l)) (fun g w => gen_serials w g l)
  end.

(** [RB_FOREACH(...) sshbuf_put_string(sect, ...)] *)
Fixpoint put_blobs (w : world) (sect : sshbuf) (l : list (list Z)) : Z * sshbuf * world :=
  match l with
  | [] => (0, sect, w)
  | b :: l =>
      let '(r, sect, w) := sshbuf_put_string w sect b (Z.of_nat (length b)) in
      if negb (r =? 0) then (r, sect, w) else put_blobs w sect l
  end.

(** A section of strings, left out when it is empty. *)
Definition put_section (w : world) (g : genst) (type : Z) (l : list (list Z)) : flow * genst * world :=
  and_next (reset_sect w g) (fun g w =>
    and_next (check (on_sect g (put_blobs w (g_sect g) l))) (fun g w =>
      if negb (sshbuf_len (g_sect g) =? 0) then
        and_next (check (on_buf g (sshbuf_put_u8 w (g_buf g) type)))
          (fun g w => check (on_buf g (sshbuf_put_stringb w (g_buf g) (Some (g_sect g)))))
      else (Next, g, w))).

(** The code at [out]. *)
Definition result (x : flow * genst * world) : Z * sshbuf * world :=
  let '(f, g, w) := x in (match f with Next => 0 | Out r => r end, g_buf g, w).

Section format.
Context `{TS : TreeShape} {key : Type} `{SK : SshKey key}.

Definition revoked_certs_generate (w : world) (rc : revoked_certs key) (buf : sshbuf)
  : Z * sshbuf * world :=
  match sshbuf_new w with
  | (None, w) => (SSH_ERR_ALLOC_FAIL, buf, w)
  | (Some sect, w) =>
      let g := mk_gen 0 0 0 None sect buf in
      result (and_next
        (* Store the header: optional CA scope key, reserved *)
        (check (on_buf g
           match rc_ca_key rc with
           | None => sshbuf_put_string w buf [] 0
           | Some ca_key => sshkey_puts w ca_key buf
           end))
        (fun g w => and_next (check (on_buf g (sshbuf_put_string w (g_buf g) [] 0)))
        (* Store the revoked serials. *)
        (fun g w => and_next (gen_serials w g (rc_serials rc))
        (* Flush the remaining section, if any *)
        (fun g w => and_next (if negb (g_state g =? 0) then finish_section w g else (Next, g, w))
        (* Now output a section for any revocations by key ID *)
        (fun g w => put_section w g KRL_SECTION_CERT_KEY_ID (rc_key_ids rc))))))
  end.

(** [TAILQ_FOREACH(rc, &krl->revoked_certs, entry)] *)
Fixpoint put_certs (w : world) (g : genst) (l : list (revoked_certs key)) : flow * genst * world :=
  match l with
  | [] => (Next, g, w)
  | rc :: l =>
      and_next (reset_sect w g) (fun g w =>
      and_next (check (on_sect g (revoked_certs_generate w rc (g_sect g)))) (fun g w =>
      and_next (check (on_buf g (sshbuf_put_u8 w (g_buf g) KRL_SECTION_CERTIFICATES))) (fun g w =>
      and_next (check (on_buf g (sshbuf_put_stringb w (g_buf g) (Some (g_sect g))))) (fun g w =>
      put_certs w g l))))
  end.

Definition set_date (k : ssh_krl key) (d : Z) : ssh_krl key :=
  mk_krl (krl_version k) d (krl_flags k) (krl_comment k) (revoked_keys k) (revoked_sha1s k)
    (revoked_sha256s k) (krl_revoked_certs k).

(** [now] is what [time(NULL)] returns. *)
Definition ssh_krl_to_blob (w : world) (now : Z) (krl : ssh_krl key) (buf : sshbuf)
  : Z * ssh_krl key * sshbuf * world :=
  let krl := if generated_date krl =? 0 then set_date krl (u64 now) else krl in
  match sshbuf_new w with
  | (None, w) => (SSH_ERR_ALLOC_FAIL, krl, buf, w)
  | (Some sect, w) =>
      let g := mk_gen 0 0 0 None sect buf in
      let '(r, buf, w) := result (
        (* Store the header *)
        and_next (check (on_buf g (sshbuf_put w (g_buf g) KRL_MAGIC 8))) (fun g w =>
        and_next (check (on_buf g (sshbuf_put_u32 w (g_buf g) KRL_FORMAT_VERSION))) (fun g w =>
        and_next (check (on_buf g (sshbuf_put_u64 w (g_buf g) (krl_version krl)))) (fun g w =>
        and_next (check (on_buf g (sshbuf_put_u64 w (g_buf g) (generated_date krl)))) (fun g w =>
        and_next (check (on_buf g (sshbuf_put_u64 w (g_buf g) (krl_flags krl)))) (fun g w =>
        and_next (check (on_buf g (sshbuf_put_string w (g_buf g) [] 0))) (fun g w =>
        and_next (check (on_buf g (sshbuf_put_cstring w (g_buf g) (krl_comment krl)))) (fun g w =>
        (* Store sections for revoked certificates *)
        and_next (put_certs w g (krl_revoked_certs krl)) (fun g w =>
        (* Finally, output sections for revocations by public key/hash *)
        and_next (put_section w g KRL_SECTION_EXPLICIT_KEY (revoked_keys krl)) (fun g w =>
        and_next (put_section w g KRL_SECTION_FINGERPRINT_SHA1 (revoked_sha1s krl)) (fun g w =>
        put_section w g KRL_SECTION_FINGERPRINT_SHA256 (revoked_sha256s krl)))))))))))) in
      (r, krl, buf, w)
  end.

(** ** Reading *)

(** [cert_extension_subsection] and [extension_section] run the same steps. *)
Definition extension (w : world) (sect : sshbuf) : Z * sshbuf * world :=
  let '(r, name, _, sect, w) := sshbuf_get_cstring w sect in
  if negb (r =? 0) then (SSH_ERR_INVALID_FORMAT, sect, w)
  else
    let '(r, critical, sect) := sshbuf_get_u8 sect in
    if negb (r =? 0) then (SSH_ERR_INVALID_FORMAT, sect, w)
    else
      let '(r, value, sect, w) := sshbuf_froms w sect 3 in
      let sect' := release_opt value sect in
      if negb (r =? 0) then (SSH_ERR_INVALID_FORMAT, sect', w)
      else if negb (sshbuf_len sect =? 0) then (SSH_ERR_INVALID_FORMAT, sect', w)
      (* no extensions are currently supported *)
      else if negb (default 1 critical =? 0) then (SSH_ERR_FEATURE_UNSUPPORTED, sect', w)
      else (0, sect', w).

Definition cert_extension_subsection (w : world) (subsect : sshbuf) : Z * sshbuf * world :=
  extension w subsect.

Definition extension_section (w : world) (sect : sshbuf) : Z * sshbuf * world :=
  extension w sect.

(** [while (sshbuf_len(subsect) > 0)]: every round takes octets off the buffer,
    so that its length bounds the number of rounds. *)
Fixpoint parse_serial_list (fuel : nat) (w : world) (subsect : sshbuf) (krl : ssh_krl key)
    (ca_key : option key) : Z * sshbuf * ssh_krl key * world :=
  match fuel with
  | O => (SSH_ERR_INTERNAL_ERROR, subsect, krl, w)
  | S fuel =>
      if negb (sshbuf_len subsect >? 0) then (0, subsect, krl, w)
      else
        let '(r, serial, subsect) := sshbuf_get_u64 subsect in
        if negb (r =? 0) then (r, subsect, krl, w)
        else
          let '(r, krl, w) := ssh_krl_revoke_cert_by_serial w krl ca_key (default 0 serial) in
          if negb (r =? 0) then (r, subsect, krl, w)
          else parse_serial_list fuel w subsect krl ca_key
  end.

Definition parse_serial_range (w : world) (subsect : sshbuf) (krl : ssh_krl key)
    (ca_key : option key) : Z * sshbuf * ssh_krl key * world :=
  let '(r, serial_lo, subsect) := sshbuf_get_u64 subsect in
  if negb (r =? 0) then (r, subsect, krl, w)
  else
    let '(r, serial_hi, subsect) := sshbuf_get_u64 subsect in
    if negb (r =? 0) then (r, subsect, krl, w)
    else
      let '(r, krl, w) := ssh_krl_revoke_cert_by_serial_range w krl ca_key
        (default 0 serial_lo) (default 0 serial_hi) in
      (r, subsect, krl, w).

(** The loop over the bits, [n] of which are left. *)
Fixpoint parse_bits (n : nat) (w : world) (bm : bitmap) (serial serial_lo : Z) (krl : ssh_krl key)
    (ca_key : option key) : Z * ssh_krl key * world :=
  match n with
  | O => (0, krl, w)
  | S n =>
      if (serial >? 0) && (u64 (serial_lo + serial) =? 0) then (SSH_ERR_INVALID_FORMAT, krl, w)
      else if bitmap_test_bit bm (u32 serial) =? 0
      then parse_bits n w bm (serial + 1) serial_lo krl ca_key
      else
        let '(r, krl, w) := ssh_krl_revoke_cert_by_serial w krl ca_key (u64 (serial_lo + serial)) in
        if negb (r =? 0) then (r, krl, w)
        else parse_bits n w bm (serial + 1) serial_lo krl ca_key
  end.

Definition parse_serial_bitmap (w : world) (subsect : sshbuf) (krl : ssh_krl key)
    (ca_key : option key) : Z * sshbuf * ssh_krl key * world :=
  match bitmap_new w with
  | (None, w) => (SSH_ERR_ALLOC_FAIL, subsect, krl, w)
  | (Some bm, w) =>
      let '(r, serial_lo, subsect) := sshbuf_get_u64 subsect in
      if negb (r =? 0) then (r, subsect, krl, w)
      else
        let '(r, blob, subsect) := sshbuf_get_bignum2_bytes_direct subsect in
        if negb (r =? 0) then (r, subsect, krl, w)
        else
          let blob := default [] blob in
          let '(r, bm, w) := bitmap_from_string w bm blob (Z.of_nat (length blob)) in
          if negb (r =? 0) then (SSH_ERR_INVALID_FORMAT, subsect, krl, w)
          else
            let '(nbits, bm) := bitmap_nbits bm in
            let '(r, krl, w) :=
              parse_bits (Z.to_nat nbits) w bm 0 (default 0 serial_lo) krl ca_key in
            (r, subsect, krl, w)
  end.

Fixpoint parse_key_ids (fuel : nat) (w : world) (subsect : sshbuf) (krl : ssh_krl key)
    (ca_key : option key) : Z * sshbuf * ssh_krl key * world :=
  match fuel with
  | O => (SSH_ERR_INTERNAL_ERROR, subsect, krl, w)
  | S fuel =>
      if negb (sshbuf_len subsect >? 0) then (0, subsect, krl, w)
      else
        let '(r, key_id, _, subsect, w) := sshbuf_get_cstring w subsect in
        if negb (r =? 0) then (r, subsect, krl, w)
        else
          let '(r, krl, w) :=
            ssh_krl_revoke_cert_by_key_id w krl ca_key (c_string (default [] key_id)) in
          if negb (r =? 0) then (r, subsect, krl, w)
          else parse_key_ids fuel w subsect krl ca_key
  end.

(** The [switch] on the type of a subsection. *)
Definition parse_subsection (w : world) (type : Z) (subsect : sshbuf) (krl : ssh_krl key)
    (ca_key : option key) : Z * sshbuf * ssh_krl key * world :=
  let fuel := S (Z.to_nat (sshbuf_len subsect)) in
  if type =? KRL_SECTION_CERT_SERIAL_LIST then parse_serial_list fuel w subsect krl ca_key
  else if type =? KRL_SECTION_CERT_SERIAL_RANGE then parse_serial_range w subsect krl ca_key
  else if type =? KRL_SECTION_CERT_SERIAL_BITMAP then parse_serial_bitmap w subsect krl ca_key
  else if type =? KRL_SECTION_CERT_KEY_ID then parse_key_ids fuel w subsect krl ca_key
  else if type =? KRL_SECTION_CERT_EXTENSION then
    let '(r, subsect, w) := cert_extension_subsection w subsect in (r, subsect, krl, w)
  else (SSH_ERR_INVALID_FORMAT, subsect, krl, w).

(** [while (sshbuf_len(buf) > 0)]; [sub] is the subsection of the last round. *)
Fixpoint parse_subsections (fuel : nat) (w : world) (buf : sshbuf) (sub : option sshbuf)
    (krl : ssh_krl key) (ca_key : option key) : Z * sshbuf * ssh_krl key * world :=
  match fuel with
  | O => (SSH_ERR_INTERNAL_ERROR, buf, krl, w)
  | S fuel =>
      if negb (sshbuf_len buf >? 0) then (0, release_opt sub buf, krl, w)
      else
        let buf := release_opt sub buf in
        let '(r, type, buf) := sshbuf_get_u8 buf in
        if negb (r =? 0) then (r, buf, krl, w)
        else
          match sshbuf_froms w buf 2 with
          | (r, Some subsect, buf, w) =>
              let '(r, subsect, krl, w) := parse_subsection w (default 0 type) subsect krl ca_key in
              if negb (r =? 0) then (r, release subsect buf, krl, w)
              else if sshbuf_len subsect >? 0
              then (SSH_ERR_INVALID_FORMAT, release subsect buf, krl, w)
              else parse_subsections fuel w buf (Some subsect) krl ca_key
          | (r, None, buf, w) => (r, buf, krl, w)
          end
  end.

Definition parse_revoked_certs (w : world) (buf : sshbuf) (krl : ssh_krl key)
  : Z * sshbuf * ssh_krl key * world :=
  match sshbuf_new w with
  | (None, w) => (SSH_ERR_ALLOC_FAIL, buf, krl, w)
  | (Some _, w) =>
      (* Header: key, reserved *)
      let '(r, blob, blen, buf) := sshbuf_get_string_direct buf in
      if negb (r =? 0) then (r, buf, krl, w)
      else
        let '(r, buf) := sshbuf_skip_string buf in
        if negb (r =? 0) then (r, buf, krl, w)
        else
          let '(r, ca_key, w) :=
            if negb (blen =? 0)
            then sshkey_from_blob w (take (Z.to_nat blen) (default [] blob))
            else (0, None, w) in
          if negb (r =? 0) then (r, buf, krl, w)
          else parse_subsections (S (Z.to_nat (sshbuf_len buf))) w buf None krl ca_key
  end.

Fixpoint blob_section (fuel : nat) (w : world) (sect : sshbuf) (target_tree : list revoked_blob)
    (expected_len : Z) : Z * sshbuf * list revoked_blob * world :=
  match fuel with
  | O => (SSH_ERR_INTERNAL_ERROR, sect, target_tree, w)
  | S fuel =>
      if negb (sshbuf_len sect >? 0) then (0, sect, target_tree, w)
      else
        let '(r, rdata, rlen, sect, w) := sshbuf_get_string w sect in
        if negb (r =? 0) then (r, sect, target_tree, w)
        else if negb (expected_len =? 0) && negb (rlen =? expected_len)
        then (SSH_ERR_INVALID_FORMAT, sect, target_tree, w)
        else
          let '(r, target_tree, w) :=
            revoke_blob w target_tree (take (Z.to_nat rlen) (default [] rdata)) in
          if negb (r =? 0) then (r, sect, target_tree, w)
          else blob_section fuel w sect target_tree expected_len
  end.

(** The [switch] on the type of a section; [sect] is [None] where the code has
    freed it. *)
Definition parse_section (w : world) (type : Z) (copy sect : sshbuf) (krl : ssh_krl key)
  : Z * sshbuf * option sshbuf * ssh_krl key * world :=
  let fuel := S (Z.to_nat (sshbuf_len sect)) in
  if type =? KRL_SECTION_CERTIFICATES then
    let '(r, sect, krl, w) := parse_revoked_certs w sect krl in (r, copy, Some sect, krl, w)
  else if type =? KRL_SECTION_EXPLICIT_KEY then
    let '(r, sect, t, w) := blob_section fuel w sect (revoked_keys krl) 0 in
    (r, copy, Some sect, set_keys krl t, w)
  else if type =? KRL_SECTION_FINGERPRINT_SHA1 then
    let '(r, sect, t, w) := blob_section fuel w sect (revoked_sha1s krl) 20 in
    (r, copy, Some sect, set_sha1s krl t, w)
  else if type =? KRL_SECTION_FINGERPRINT_SHA256 then
    let '(r, sect, t, w) := blob_section fuel w sect (revoked_sha256s krl) 32 in
    (r, copy, Some sect, set_sha256s krl t, w)
  else if type =? KRL_SECTION_EXTENSION then
    let '(r, sect, w) := extension_section w sect in (r, copy, Some sect, krl, w)
  else if type =? KRL_SECTION_SIGNATURE then
    let '(r, copy) := sshbuf_skip_string (release sect copy) in (r, copy, None, krl, w)
  else (SSH_ERR_INVALID_FORMAT, copy, Some sect, krl, w).

Fixpoint parse_sections (fuel : nat) (w : world) (copy : sshbuf) (sect : option sshbuf)
    (krl : ssh_krl key) : Z * sshbuf * ssh_krl key * world :=
  match fuel with
  | O => (SSH_ERR_INTERNAL_ERROR, copy, krl, w)
  | S fuel =>
      if negb (sshbuf_len copy >? 0) then (0, release_opt sect copy, krl, w)
      else
        let copy := release_opt sect copy in
        let '(r, type, copy) := sshbuf_get_u8 copy in
        if negb (r =? 0) then (r, copy, krl, w)
        else
          match sshbuf_froms w copy 1 with
          | (r, Some sect, copy, w) =>
              let '(r, copy, sect, krl, w) := parse_section w (default 0 type) copy sect krl in
              if negb (r =? 0) then (r, release_opt sect copy, krl, w)
              else if match sect with Some s => sshbuf_len s >? 0 | None => false end
              then (SSH_ERR_INVALID_FORMAT, release_opt sect copy, krl, w)
              else parse_sections fuel w copy sect krl
          | (r, None, copy, w) => (r, copy, krl, w)
          end
  end.

Definition set_header (k : ssh_krl key) (version date flags : Z) (comment : list Z) : ssh_krl key :=
  mk_krl version date flags (Some comment) (revoked_keys k) (revoked_sha1s k)
    (revoked_sha256s k) (krl_revoked_certs k).

(** The body of [ssh_krl_from_blob] after the copy of the buffer was made. *)
Definition parse_copy (w : world) (copy : sshbuf) (krl : ssh_krl key)
  : Z * sshbuf * ssh_krl key * world :=
  let '(r, copy) := sshbuf_consume copy 8 in
  if negb (r =? 0) then (r, copy, krl, w)
  else
    let '(r, format_version, copy) := sshbuf_get_u32 copy in
    if negb (r =? 0) then (r, copy, krl, w)
    else if negb (default 0 format_version =? KRL_FORMAT_VERSION)
    then (SSH_ERR_INVALID_FORMAT, copy, krl, w)
    else
      let '(r, version, copy) := sshbuf_get_u64 copy in
      if negb (r =? 0) then (r, copy, krl, w)
      else
        let '(r, date, copy) := sshbuf_get_u64 copy in
        if negb (r =? 0) then (r, copy, krl, w)
        else
          let '(r, flags, copy) := sshbuf_get_u64 copy in
          if negb (r =? 0) then (r, copy, krl, w)
          else
            let '(r, copy) := sshbuf_skip_string copy in
            if negb (r =? 0) then (r, copy, krl, w)
            else
              let '(r, comment, _, copy, w) := sshbuf_get_cstring w copy in
              if negb (r =? 0) then (r, copy, krl, w)
              else
                let krl := set_header krl (default 0 version) (default 0 date) (default 0 flags)
                  (c_string (default [] comment)) in
                (* Parse and load the KRL sections. *)
                parse_sections (S (Z.to_nat (sshbuf_len copy))) w copy None krl.

(** Returns the status, [*krlp] and the buffer. *)
Definition ssh_krl_from_blob (w : world) (buf : sshbuf)
  : Z * option (ssh_krl key) * sshbuf * world :=
  (* KRL must begin with magic string *)
  let r := sshbuf_cmp buf 0 KRL_MAGIC 8 in
  if negb (r =? 0) then (SSH_ERR_KRL_BAD_MAGIC, None, buf, w)
  else
    match ssh_krl_init w with
    | (None, w) => (r, None, buf, w)
    | (Some krl, w) =>
        (* Don't modify buffer *)
        match sshbuf_fromb w buf 0 with
        | (None, buf, w) => (SSH_ERR_ALLOC_FAIL, None, buf, w)
        | (Some copy, buf, w) =>
            let '(r, copy, krl, w) := parse_copy w copy krl in
            (r, if r =? 0 then Some krl else None, release copy buf, w)
        end
    end.
End format.
