(* ===== verification/KrlWrite.v ===== *)
(** What the writer of revocation lists produces.

    The octets of every part of the file are given as a relation between data
    and octets, and each writing function of KrlFormat.v is shown to append
    exactly such octets when it reports success. *)

From stdpp Require Import base list numbers tactics sets sorting.
From Stdlib Require Import ZArith Lia ZifyBool.
From S2P Require Import Prelude Sshbuf SshbufGetput SshbufShare SshbufRead SshbufMisc Bitmap RbTree Krl KrlThms KrlFormat.

(** ** Appending to a buffer *)

(** A buffer that can be reset, and one that has grown by [v]. *)
Definition roomy (b : sshbuf) : Prop := wf b /\ SSHBUF_SIZE_INIT <= sb_max_size b.

Definition appended (b : sshbuf) (v : list Z) (b' : sshbuf) : Prop :=
  wf b' /\ same_frame b b' /\ contents b' = contents b ++ v.

Lemma appended_nil b : wf b -> appended b [] b.
Proof. intros. split; [done|]. split; [apply same_frame_refl|]. by rewrite app_nil_r. Qed.

Lemma appended_app b u b1 v b2 : appended b u b1 -> appended b1 v b2 -> appended b (u ++ v) b2.
Proof.
  intros (? & Hf & Hc) (? & Hf' & Hc'). split; [done|].
  split; [by eapply same_frame_trans|]. rewrite Hc', Hc. by rewrite app_assoc.
Qed.

Lemma appended_roomy b v b' : roomy b -> appended b v b' -> roomy b'.
Proof. intros [_ ?] (? & (E & _) & _). split; [done|]. by rewrite E. Qed.

Lemma fill_appended w b v b' w' :
  wf b -> bytes_ok v -> reserve_fill w b v = (0, b', w') -> appended b v b'.
Proof. intros Hwf Hv E. by apply reserve_fill_spec in E as E%put_result_ok. Qed.

Lemma put_u8_appended w b v b' w' :
  wf b -> sshbuf_put_u8 w b v = (0, b', w') -> appended b [u8 v] b'.
Proof.
  intros Hwf. rewrite sshbuf_put_u8_fill. apply fill_appended; [done|].
  constructor; [unfold u8, is_byte; dm_lia|constructor].
Qed.

Lemma put_u32_appended w b v b' w' :
  wf b -> sshbuf_put_u32 w b v = (0, b', w') -> appended b (POKE_U32 (u32 v)) b'.
Proof. intros Hwf. rewrite sshbuf_put_u32_fill. apply fill_appended; auto with sshdb. Qed.

Lemma put_u64_appended w b v b' w' :
  wf b -> sshbuf_put_u64 w b v = (0, b', w') -> appended b (POKE_U64 (u64 v)) b'.
Proof. intros Hwf. rewrite sshbuf_put_u64_fill. apply fill_appended; auto with sshdb. Qed.

Lemma put_appended w b v b' w' :
  wf b -> bytes_ok v -> sshbuf_put w b v (Z.of_nat (length v)) = (0, b', w') -> appended b v b'.
Proof. intros Hwf Hv. rewrite sshbuf_put_fill by done. by apply fill_appended. Qed.

Lemma put_string_appended w b v b' w' :
  wf b -> bytes_ok v -> sshbuf_put_string w b v (Z.of_nat (length v)) = (0, b', w') ->
  appended b (enc_string v) b'.
Proof.
  intros Hwf Hv E. destruct (Z.of_nat (length v) >? SSHBUF_SIZE_MAX - 4) eqn:El.
  { unfold sshbuf_put_string in E. by rewrite El in E. }
  rewrite sshbuf_put_string_fill in E by (done || lia). apply fill_appended in E; auto with sshdb.
Qed.

(** [sshbuf_put_string] looks at the given number of octets only. *)
Lemma put_string_slack w b v slack :
  sshbuf_put_string w b (v ++ slack) (Z.of_nat (length v)) =
    sshbuf_put_string w b v (Z.of_nat (length v)).
Proof.
  unfold sshbuf_put_string. by rewrite Nat2Z.id, take_app_length, firstn_all.
Qed.

Lemma put_stringb_appended w b s b' w' :
  wf b -> wf s -> sshbuf_put_stringb w b (Some s) = (0, b', w') ->
  appended b (enc_string (contents s)) b'.
Proof.
  intros Hwf Hs. unfold sshbuf_put_stringb. destruct (sshbuf_ptr_spec s Hs) as [slack ->].
  cbn [default id]. rewrite sshbuf_len_contents, put_string_slack by done.
  apply put_string_appended; [done|]. by apply bytes_ok_contents.
Qed.

Lemma put_bignum_appended w b v b' w' :
  wf b -> bytes_ok v -> sshbuf_put_bignum2_bytes w b v (Z.of_nat (length v)) = (0, b', w') ->
  appended b (enc_bignum v) b'.
Proof.
  intros Hwf Hv E. destruct (Z.of_nat (length v) >? SSHBUF_SIZE_MAX - 5) eqn:El.
  { unfold sshbuf_put_bignum2_bytes in E. by rewrite El in E. }
  rewrite sshbuf_put_bignum2_bytes_fill in E by (done || lia). apply fill_appended in E; auto with sshdb.
Qed.

(** The octets of a bitmap. *)
Definition bitmap_bytes (v : Z) : list Z := be_bytes (Z.to_nat (nbytes_of v)) v.

Lemma put_bitmap_appended w b bm b' w' :
  wf b -> bm_wf bm -> put_bitmap w b bm = (0, b', w') ->
  appended b (enc_bignum (bitmap_bytes (bm_value bm))) b'.
Proof.
  intros Hwf Hbm. unfold put_bitmap, bitmap_nbytes.
  destruct (nbits_spec bm Hbm) as (bm1 & -> & Hbm1 & Hd & _).
  assert (Hv : bm_value bm1 = bm_value bm) by (unfold bm_value; by rewrite Hd).
  fold (nbytes_of (bm_value bm)). pose proof (nbytes_of_nonneg (bm_value bm)) as Hn.
  destruct (malloc w) as [[] w1]; cbn [negb]; [|done].
  destruct (to_string_spec bm1 (replicate (Z.to_nat (nbytes_of (bm_value bm))) 0) Hbm1)
    as (bm2 & E & _ & _); [rewrite Hv, length_replicate; lia|].
  rewrite length_replicate, Z2Nat.id, Hv in E by done. rewrite E. cbn [negb Z.eqb].
  rewrite drop_ge, app_nil_r by (by rewrite length_replicate). fold (bitmap_bytes (bm_value bm)).
  assert (Hlen : Z.of_nat (length (bitmap_bytes (bm_value bm))) = nbytes_of (bm_value bm)).
  { unfold bitmap_bytes. rewrite length_be_bytes. lia. }
  rewrite <- Hlen. apply put_bignum_appended; [done|]. apply bytes_ok_be_bytes.
Qed.

(** ** Sections of serial numbers *)

(** A section: its type and the ranges it holds. *)
Definition section : Type := Z * list revoked_serial.

Fixpoint count_up (n : nat) (x : Z) : list Z :=
  match n with O => [] | S n => x :: count_up n (x + 1) end.

Definition range_list (x : revoked_serial) : list Z :=
  count_up (Z.to_nat (rs_hi x - rs_lo x + 1)) (rs_lo x).

Definition LIST := KRL_SECTION_CERT_SERIAL_LIST.
Definition RANGE := KRL_SECTION_CERT_SERIAL_RANGE.
Definition BITMAP := KRL_SECTION_CERT_SERIAL_BITMAP.

(** The number whose bits are the members of [l] counted from [start]. *)
Definition bits_of (start : Z) (l : list revoked_serial) (v : Z) : Prop :=
  0 <= v /\ forall n, 0 <= n -> Z.testbit v n = true <-> serials_mem (start + n) l.

(** The contents of a section, and the section with its type and length. *)
Definition payload (s : section) (p : list Z) : Prop :=
  (s.1 = LIST /\ p = flat_map POKE_U64 (flat_map range_list s.2)) \/
  (s.1 = RANGE /\ exists x, s.2 = [x] /\ p = POKE_U64 (rs_lo x) ++ POKE_U64 (rs_hi x)) \/
  (s.1 = BITMAP /\ exists x l v, s.2 = x :: l /\ bits_of (rs_lo x) s.2 v /\
     p = POKE_U64 (rs_lo x) ++ enc_bignum (bitmap_bytes v)).

Inductive sections_bytes : list section -> list Z -> Prop :=
  | sb_nil : sections_bytes [] []
  | sb_cons s p l q : payload s p -> sections_bytes l q ->
      sections_bytes (s :: l) ([s.1] ++ enc_string p ++ q).

Lemma sections_bytes_snoc l q s p :
  sections_bytes l q -> payload s p -> sections_bytes (l ++ [s]) (q ++ [s.1] ++ enc_string p).
Proof.
  induction 1 as [|s' p' l q Hp Hl IH]; intros Hs; cbn [app].
  - rewrite <- (app_nil_r (enc_string p)). by apply (sb_cons s p [] []); [|constructor].
  - rewrite <- !app_assoc. apply (sb_cons s' p' (l ++ [s])); [done|]. by apply IH.
Qed.

(** The division of the ranges into sections, by the code's choices alone. *)
Fixpoint split_sections (state last : Z) (acc : list revoked_serial) (l : list revoked_serial)
  : list section :=
  match l with
  | [] => if state =? 0 then [] else [(state, acc)]
  | x :: l =>
      let '(next, force) := choose_next_state state (u64 (1 + u64 (rs_hi x - rs_lo x)))
        (match head l with None => true | Some _ => false end)
        (if state =? 0 then 0 else u64 (rs_lo x - last))
        (match head l with None => 0 | Some n => u64 (rs_lo n - rs_hi x) end) in
      if negb (state =? 0) && (force || negb (next =? state) || (state =? RANGE))
      then (state, acc) :: split_sections next (rs_hi x) [x] l
      else split_sections next (rs_hi x) (acc ++ [x]) l
  end.

Lemma split_sections_concat state last acc l :
  (state = 0 -> acc = []) -> Forall rs_ok l ->
  concat (map snd (split_sections state last acc l)) = acc ++ l.
Proof.
  revert state last acc. induction l as [|x l IH]; intros state last acc Hs Hl; cbn [split_sections].
  - destruct (Z.eqb_spec state 0) as [E|E]; cbn; [rewrite (Hs E)|]; by rewrite ?app_nil_r.
  - apply Forall_cons in Hl as [Hx Hl].
    destruct (choose_next_state _ _ _ _ _) as [next force] eqn:Ec.
    assert (Hne : next <> 0).
    { revert Ec. unfold choose_next_state. repeat case_if; intros [= <- <-]; done. }
    destruct (_ && _) eqn:Ef; cbn [map concat snd].
    + rewrite IH by done. done.
    + rewrite IH by done. by rewrite <- app_assoc.
Qed.

(** ** Steps and jumps *)

Lemma and_next_inv {S} (x : flow * S * world) k s w :
  and_next x k = (Next, s, w) -> exists s1 w1, x = (Next, s1, w1) /\ k s1 w1 = (Next, s, w).
Proof. destruct x as [[[|r] s1] w1]; cbn; [|done]. intros E. by exists s1, w1. Qed.

Lemma and_next_assoc {S} (x : flow * S * world) k1 k2 :
  and_next (and_next x k1) k2 = and_next x (fun s w => and_next (k1 s w) k2).
Proof. by destruct x as [[[|r] s] w]. Qed.

Lemma check_inv {S} (x : Z * S * world) s w : check x = (Next, s, w) -> x = (0, s, w).
Proof. destruct x as [[r s1] w1]. cbn. destruct (Z.eqb_spec r 0); [|done]. by intros [= -> ->]; subst. Qed.

Lemma on_sect_inv g x g' w : on_sect g x = (0, g', w) -> exists b, x = (0, b, w) /\ g' = set_g_sect g b.
Proof. destruct x as [[r b] w1]. cbn. intros [= -> <- ->]. by exists b. Qed.

Lemma on_buf_inv g x g' w : on_buf g x = (0, g', w) -> exists b, x = (0, b, w) /\ g' = set_g_buf g b.
Proof. destruct x as [[r b] w1]. cbn. intros [= -> <- ->]. by exists b. Qed.

(** A step that never jumps to [out] with [r] zero. *)
Definition honest {S} (x : flow * S * world) : Prop := forall s w, x <> (Out 0, s, w).

Lemma honest_next {S} (s : S) w : honest (Next, s, w).
Proof. done. Qed.

Lemma honest_check {S} (x : Z * S * world) : honest (check x).
Proof. destruct x as [[r s] w]. intros s' w'. cbn. destruct (Z.eqb_spec r 0); congruence. Qed.

Lemma honest_and_next {S} (x : flow * S * world) k :
  honest x -> (forall s w, x = (Next, s, w) -> honest (k s w)) -> honest (and_next x k).
Proof.
  intros Hx Hk s w. destruct x as [[[|r] s1] w1]; cbn; [by apply Hk|apply Hx].
Qed.

Lemma honest_reset w g : honest (reset_sect w g).
Proof. intros s w'. unfold reset_sect. by destruct (sshbuf_reset w (g_sect g)). Qed.

#[local] Hint Resolve honest_next honest_check honest_reset : sshdb.

Lemma honest_finish w g : honest (finish_section w g).
Proof.
  unfold finish_section. apply honest_and_next.
  - case_if; auto with sshdb. destruct (g_bitmap g); auto using honest_and_next with sshdb.
  - intros. apply honest_and_next; auto with sshdb.
Qed.

Lemma honest_start w g st lo : honest (start_section w g st lo).
Proof.
  unfold start_section. apply honest_and_next; auto with sshdb. intros g1 w1 _. case_if; auto with sshdb.
  destruct (bitmap_new w1) as [[bm|] w2]; auto with sshdb. intros ??. done.
Qed.

Lemma honest_put_section w g type l : honest (put_section w g type l).
Proof.
  unfold put_section. apply honest_and_next; auto with sshdb. intros g1 w1 _.
  apply honest_and_next; auto with sshdb. intros g2 w2 _. case_if; auto with sshdb.
  apply honest_and_next; auto with sshdb.
Qed.

(** ** The loop over the serial numbers *)

(** The open section [g] holds the ranges [acc]; bitmaps count from [start]. *)
Definition holds (g : genst) (acc : list revoked_serial) (start : Z) : Prop :=
  (g_state g = LIST /\ contents (g_sect g) = flat_map POKE_U64 (flat_map range_list acc)) \/
  (g_state g = RANGE /\ ((acc = [] /\ contents (g_sect g) = []) \/
     exists x, acc = [x] /\ contents (g_sect g) = POKE_U64 (rs_lo x) ++ POKE_U64 (rs_hi x))) \/
  (g_state g = BITMAP /\ g_start g = start /\ contents (g_sect g) = POKE_U64 start /\
     exists bm, g_bitmap g = Some bm /\ bm_wf bm /\ bits_of start acc (bm_value bm)).

Definition ginv (g : genst) (acc : list revoked_serial) : Prop :=
  roomy (g_sect g) /\ wf (g_buf g) /\
  ((g_state g = 0 /\ acc = []) \/
   exists x l, acc = x :: l /\ holds g acc (rs_lo x) /\
     last acc = Some (List.last acc x) /\ g_last g = rs_hi (List.last acc x) /\
     (g_state g = BITMAP -> 0 <= g_last g - g_start g <= BITMAP_MAX)).

Lemma u8_state s : s = LIST \/ s = RANGE \/ s = BITMAP -> u8 s = s.
Proof. by intros [-> | [-> | ->]]. Qed.

Lemma holds_state g acc start : holds g acc start -> g_state g = LIST \/ g_state g = RANGE \/ g_state g = BITMAP.
Proof. unfold holds. tauto. Qed.

Lemma finish_section_spec w g g' w' x l :
  roomy (g_sect g) -> wf (g_buf g) -> holds g (x :: l) (rs_lo x) ->
  finish_section w g = (Next, g', w') ->
  exists p, payload (g_state g, x :: l) p /\
    appended (g_buf g) ([g_state g] ++ enc_string p) (g_buf g') /\
    roomy (g_sect g') /\ g_state g' = g_state g.
Proof.
  intros Hs Hb Hh E. unfold finish_section in E. apply and_next_inv in E as (g1 & w1 & E1 & E).
  assert (H1 : roomy (g_sect g1) /\ g_buf g1 = g_buf g /\ g_state g1 = g_state g /\
               payload (g_state g, x :: l) (contents (g_sect g1))).
  { destruct Hh as [[Hst Hc]|[[Hst Hc]|(Hst & Hstart & Hc & bm & Hbm & Hwf & Hbits)]].
    - rewrite Hst in E1 |- *. injection E1 as <- <-. split; [done|]. split; [done|]. split; [done|].
      left. by rewrite Hc.
    - rewrite Hst in E1 |- *. injection E1 as <- <-. split; [done|]. split; [done|]. split; [done|].
      right; left. destruct Hc as [[??]|(y & Hy & Hc)]; [done|]. split; [done|]. exists y. by rewrite Hc.
    - rewrite Hst in E1 |- *. rewrite Hbm in E1.
      change (BITMAP =? KRL_SECTION_CERT_SERIAL_BITMAP) with true in E1. cbv iota in E1.
      apply and_next_inv in E1 as (g2 & w2 & E2 & E1). injection E1 as <- <-.
      apply check_inv, on_sect_inv in E2 as (b & E2 & ->).
      apply put_bitmap_appended in E2; [|apply Hs|done].
      split; [by eapply appended_roomy|]. split; [done|]. split; [done|].
      right; right. split; [done|]. exists x, l, (bm_value bm). split; [done|]. split; [done|].
      cbn [g_sect set_g_bitmap set_g_sect]. destruct E2 as (_ & _ & ->). by rewrite Hc. }
  destruct H1 as (Hs1 & Hb1 & Hst1 & Hp).
  apply and_next_inv in E as (g2 & w2 & E2 & E).
  apply check_inv, on_buf_inv in E2 as (b2 & E2 & ->). apply check_inv, on_buf_inv in E as (b3 & E3 & ->).
  rewrite Hb1, Hst1 in E2. apply put_u8_appended in E2; [|done].
  apply put_stringb_appended in E3; [|apply E2|apply Hs1].
  cbn [g_buf g_sect g_state set_g_buf] in *. rewrite (u8_state (g_state g)) in E2 by (by eapply holds_state).
  exists (contents (g_sect g1)). split; [done|]. split; [by eapply appended_app|]. done.
Qed.

Lemma reset_sect_inv w g g' w' :
  roomy (g_sect g) -> reset_sect w g = (Next, g', w') ->
  exists b, g' = set_g_sect g b /\ roomy b /\ contents b = [].
Proof.
  intros [Hwf Hmax]. unfold reset_sect. destruct (sshbuf_reset w (g_sect g)) as [b w1] eqn:E.
  intros [= <- <-]. exists b. apply sshbuf_reset_spec in E as (Hb & Hc & (Hm & _) & _); [|done..].
  split; [done|]. split; [|done]. split; [done|]. by rewrite Hm.
Qed.

Lemma bits_of_nil start : bits_of start [] 0.
Proof. split; [done|]. intros n Hn. rewrite Z.bits_0, serials_mem_nil. done. Qed.

Lemma start_section_spec w g st lo g' w' :
  roomy (g_sect g) -> st = LIST \/ st = RANGE \/ st = BITMAP -> 0 <= lo < 2 ^ 64 ->
  start_section w g st lo = (Next, g', w') ->
  holds g' [] lo /\ roomy (g_sect g') /\ g_buf g' = g_buf g /\ g_state g' = st.
Proof.
  intros Hs Hst Hlo E. unfold start_section in E. apply and_next_inv in E as (g1 & w1 & E1 & E).
  apply reset_sect_inv in E1 as (b & -> & Hb & Hc); [|done].
  cbn [g_state set_g_sect set_g_state] in E. destruct (st =? KRL_SECTION_CERT_SERIAL_BITMAP) eqn:Eb.
  - destruct (bitmap_new w1) as [[bm|] w2] eqn:En; [|done]. apply bm_wf_new in En as [Hbm Hv].
    apply check_inv, on_sect_inv in E as (b2 & E2 & ->). apply put_u64_appended in E2; [|apply Hb].
    rewrite u64_id in E2 by done. destruct E2 as (Hw2 & Hf2 & Hc2). cbn [g_sect set_g_bitmap set_g_sect] in *.
    rewrite Hc in Hc2. split; [|split; [|done]].
    + right; right. apply Z.eqb_eq in Eb. split; [done|]. split; [done|]. split; [done|].
      exists bm. split; [done|]. split; [done|]. rewrite Hv. apply bits_of_nil.
    + eapply appended_roomy; [exact Hb|]. by split_and!; [done..|rewrite Hc2, Hc].
  - injection E as <- <-. split; [|done]. destruct Hst as [-> | [-> | ->]]; [by left| |done].
    right; left. split; [done|]. by left.
Qed.

Lemma put_serials_spec n w b s b' w' :
  wf b -> 0 <= s -> s + Z.of_nat n <= 2 ^ 64 -> put_serials w b n s = (0, b', w') ->
  appended b (flat_map POKE_U64 (count_up n s)) b'.
Proof.
  revert w b s. induction n as [|n IH]; intros w b s Hwf Hs Hn E; cbn [put_serials count_up flat_map] in *.
  - injection E as <- <-. by apply appended_nil.
  - destruct (sshbuf_put_u64 w b s) as [[r b1] w1] eqn:E1. destruct (Z.eqb_spec r 0) as [->|]; cbn [negb] in E;
      [|congruence].
    apply put_u64_appended in E1; [|done]. rewrite u64_id in E1 by lia.
    eapply appended_app; [exact E1|]. destruct n as [|n].
    + injection E as <- <-. apply appended_nil. apply E1.
    + rewrite u64_id in E by lia. eapply IH in E; [exact E|apply E1|lia|lia].
Qed.

Lemma set_bits_spec n w bm bit bm' w' :
  bm_wf bm -> 0 <= bit <= INT_MAX -> set_bits w bm n bit = (0, bm', w') ->
  bm_wf bm' /\ (n <> 0%nat -> bit + Z.of_nat n - 1 <= BITMAP_MAX) /\
  forall k, 0 <= k -> Z.testbit (bm_value bm') k = true <->
    Z.testbit (bm_value bm) k = true \/ bit <= k < bit + Z.of_nat n.
Proof.
  unfold INT_MAX, BITMAP_MAX. change (Z.shiftl 1 24) with (2 ^ 24).
  revert w bm bit. induction n as [|n IH]; intros w bm bit Hwf Hb E; cbn [set_bits] in E.
  - injection E as <- <-. split; [done|]. split; [done|]. intros k Hk. lia.
  - destruct (bitmap_set_bit w bm (u32 bit)) as [[r bm1] w1] eqn:E1.
    destruct (Z.eqb_spec r 0) as [->|]; cbn [negb] in E; [|done].
    unfold u32 in E1. rewrite Z.mod_small in E1 by lia.
    apply set_bit_spec in E1 as (Hwf1 & H1 & _); [|done|lia]. destruct (H1 eq_refl) as [Hmax Hv].
    unfold BITMAP_MAX in Hmax. change (Z.shiftl 1 24) with (2 ^ 24) in Hmax.
    rewrite u64_id in E by lia. apply IH in E as (Hwf' & Hm' & Hk'); [|done|lia].
    split; [done|]. split.
    + intros _. destruct n; [lia|]. specialize (Hm' ltac:(done)). lia.
    + intros k Hk. rewrite Hk', Hv by done. rewrite Z.setbit_iff by lia. lia.
Qed.

Definition serial_ok (x : revoked_serial) : Prop := 1 <= rs_lo x <= rs_hi x /\ rs_hi x < 2 ^ 64.

Definition contig_of (x : revoked_serial) : Z := u64 (1 + u64 (rs_hi x - rs_lo x)).

Lemma contig_eq x : serial_ok x -> contig_of x = rs_hi x - rs_lo x + 1.
Proof. intros [H1 H2]. unfold contig_of. rewrite (u64_id (_ - _)) by lia. rewrite u64_id by lia. lia. Qed.

Lemma fill_section_spec w g x acc start g' w' :
  roomy (g_sect g) -> holds g acc start -> serial_ok x ->
  (g_state g = RANGE -> acc = []) ->
  (g_state g = BITMAP -> 0 <= start <= rs_lo x /\ rs_lo x - start <= INT_MAX) ->
  fill_section w g x (contig_of x) = (Next, g', w') ->
  holds g' (acc ++ [x]) start /\ roomy (g_sect g') /\ g_buf g' = g_buf g /\
  g_state g' = g_state g /\ g_start g' = g_start g /\
  (g_state g = BITMAP -> rs_hi x - start <= BITMAP_MAX).
Proof.
  intros Hs Hh Hx Hr Hbm. rewrite contig_eq by done. destruct Hx as [Hx1 Hx2]. unfold fill_section.
  destruct Hh as [[Hst Hc]|[[Hst Hc]|(Hst & Hstart & Hc & bm & Eb & Hwf & Hbits)]]; rewrite Hst.
  - intros E. apply check_inv, on_sect_inv in E as (b & E & ->).
    apply put_serials_spec in E; [|apply Hs|lia|lia].
    split; [|split; [by eapply appended_roomy|by split_and!]].
    left. split; [done|]. cbn [g_sect set_g_sect]. destruct E as (_ & _ & ->).
    rewrite Hc, !flat_map_app. cbn [flat_map]. by rewrite app_nil_r.
  - intros E. apply and_next_inv in E as (g1 & w1 & E1 & E).
    apply check_inv, on_sect_inv in E1 as (b1 & E1 & ->). apply check_inv, on_sect_inv in E as (b2 & E2 & ->).
    apply put_u64_appended in E1; [|apply Hs]. apply put_u64_appended in E2; [|apply E1].
    cbn [g_sect set_g_sect] in *. rewrite u64_id in E1, E2 by lia.
    pose proof (appended_app _ _ _ _ _ E1 E2) as E.
    split; [|split; [by eapply appended_roomy|by split_and!]].
    right; left. split; [done|]. right. exists x. rewrite (Hr Hst) in *. split; [done|].
    cbn [g_sect set_g_sect]. destruct E as (_ & _ & ->).
    destruct Hc as [[_ Hc]|(y & Hy & _)]; [|done]. by rewrite Hc.
  - destruct (Hbm Hst) as [H1 H2]. rewrite Hstart.
    change (BITMAP =? KRL_SECTION_CERT_SERIAL_LIST) with false.
    change (BITMAP =? KRL_SECTION_CERT_SERIAL_RANGE) with false.
    change (BITMAP =? KRL_SECTION_CERT_SERIAL_BITMAP) with true. cbv iota.
    unfold INT_MAX in *. rewrite u64_id by lia.
    destruct (_ >? _) eqn:Eg; [done|]. rewrite Eb.
    destruct (set_bits w bm _ _) as [[r bm'] w1] eqn:E. intros E2. apply check_inv in E2. injection E2 as -> <- <-.
    apply set_bits_spec in E as (Hwf' & Hmax & Hk); [|done|unfold INT_MAX; lia].
    specialize (Hmax ltac:(lia)). rewrite Z2Nat.id in * by lia.
    split; [|split; [done|split; [done|split; [done|split; [done|]]]]].
    + right; right. cbn [g_state g_start g_sect g_bitmap set_g_bitmap]. split; [done|].
      split; [done|]. split; [done|]. exists bm'. split; [done|]. split; [done|].
      destruct Hbits as [Hv0 Hbits]. split.
      * destruct Hwf'. unfold bm_value. by apply value_range.
      * intros n Hn. rewrite Hk, Hbits, serials_mem_app, serials_mem_cons, serials_mem_nil by done.
        unfold rs_mem. intuition lia.
    + intros _. lia.
Qed.

Lemma choose_states st contig final lg ng next force :
  choose_next_state st contig final lg ng = (next, force) ->
  (next = LIST \/ next = RANGE \/ next = BITMAP) /\ (force = true -> next = BITMAP).
Proof.
  unfold choose_next_state. set (t := if st =? _ then _ else _). destruct t as [[cl cb] cr].
  cbv beta iota zeta. unfold LIST, RANGE, BITMAP.
  repeat case_if; intros [= <- <-]; (split; [tauto|done]).
Qed.

(** A bitmap is continued over a short gap only: a new one would be cheaper. *)
Lemma choose_continue contig final lg ng :
  0 <= contig -> 0 <= lg -> 0 <= ng ->
  choose_next_state BITMAP contig final lg ng = (BITMAP, false) -> lg <= 79.
Proof.
  intros Hc Hl Hn. unfold choose_next_state, BITMAP.
  change (KRL_SECTION_CERT_SERIAL_BITMAP =? KRL_SECTION_CERT_SERIAL_LIST) with false.
  rewrite Z.eqb_refl. cbv iota.
  set (c := Z.min contig (2 ^ 31)). set (g := Z.min lg (2 ^ 31)).
  set (e := if final then 0 else Z.min (Z.min ng (2 ^ 31)) (8 + 64)).
  assert (0 <= e <= 72) by (unfold e; destruct final; lia).
  set (cr := (u64 (8 + 2 * 64 + _) + 7) / 8). set (cl := (u64 (8 + 64 * c + _) + 7) / 8).
  rewrite !(u64_id (_ + c + e)) by lia.
  unfold KRL_SECTION_CERT_SERIAL_BITMAP, KRL_SECTION_CERT_SERIAL_RANGE, KRL_SECTION_CERT_SERIAL_LIST.
  clearbody cr cl e. cbv beta iota zeta.
  repeat case_if; intros [=]. unfold g in *. dm_lia.
Qed.

Lemma last_last (l : list revoked_serial) x d : List.last (l ++ [x]) d = x.
Proof. apply List.last_last. Qed.

(** The state after one more range, whether a section was closed or not. *)
Definition closes (st next : Z) (force : bool) : bool :=
  negb (st =? 0) && (force || negb (next =? st) || (st =? RANGE)).

Definition choice (st last : Z) (x : revoked_serial) (nrs : option revoked_serial) : Z * bool :=
  choose_next_state st (contig_of x) (match nrs with None => true | Some _ => false end)
    (if st =? 0 then 0 else u64 (rs_lo x - last))
    (match nrs with None => 0 | Some n => u64 (rs_lo n - rs_hi x) end).

Lemma choice_continue last x nrs :
  0 <= last < rs_lo x -> serial_ok x -> choice BITMAP last x nrs = (BITMAP, false) -> rs_lo x - last <= 79.
Proof.
  intros Hl [Hx1 Hx2]. unfold choice. change (BITMAP =? 0) with false. cbv iota.
  rewrite (u64_id (rs_lo x - last)) by lia. intros E. apply choose_continue in E; [done|..|lia|].
  - apply Z.mod_pos_bound. lia.
  - destruct nrs; [apply Z.mod_pos_bound; lia|done].
Qed.

(** The open section before the range is added: the old one, or a new one. *)
Lemma gen_open w g x acc nrs g' w' :
  ginv g acc -> serial_ok x -> (forall y, y ∈ acc -> rs_ok y /\ rs_hi y < rs_lo x) ->
  let '(next, force) := choice (g_state g) (g_last g) x nrs in
  and_next
    (if closes (g_state g) next force
     then and_next (finish_section w g) (fun g w => reset_sect w g) else (Next, g, w))
    (fun g1 w => if negb (next =? g_state g) || force
                 then start_section w g1 next (rs_lo x) else (Next, g1, w)) = (Next, g', w') ->
  roomy (g_sect g') /\ g_state g' = next /\
  if closes (g_state g) next force
  then holds g' [] (rs_lo x) /\
    exists p, payload (g_state g, acc) p /\
      appended (g_buf g) ([g_state g] ++ enc_string p) (g_buf g')
  else g_buf g' = g_buf g /\
    ((acc = [] /\ holds g' [] (rs_lo x)) \/
     (g' = g /\ next <> RANGE /\ exists y l, acc = y :: l /\ holds g acc (rs_lo y) /\
        (next = BITMAP -> rs_lo x - rs_lo y <= INT_MAX))).
Proof.
  intros (Hs & Hb & Hst) Hx Hacc.
  destruct (choice (g_state g) (g_last g) x nrs) as [next force] eqn:Ec.
  pose proof (choose_states _ _ _ _ _ _ _ Ec) as [Hn Hforce].
  assert (Hlo : 0 <= rs_lo x < 2 ^ 64) by (destruct Hx; lia).
  intros E. apply and_next_inv in E as (g1 & w1 & E1 & E).
  destruct (closes (g_state g) next force) eqn:Ecl.
  - apply and_next_inv in E1 as (g2 & w2 & E2 & E1).
    destruct Hst as [[Hst _]|(y & l & Hy & Hh & _ & Hlast & _)].
    { unfold closes in Ecl. rewrite Hst in Ecl. done. }
    rewrite Hy in Hh. apply (finish_section_spec _ _ _ _ y l) in E2 as (p & Hp & Ha & Hs2 & Hst2); [|done..].
    apply reset_sect_inv in E1 as (b & -> & Hb1 & Hc1); [|done].
    destruct (negb (next =? g_state g) || force) eqn:Es.
    + apply start_section_spec in E as (Hh' & Hs' & Hb' & Hst'); [|done..].
      split; [done|]. split; [done|]. split; [done|]. exists p. rewrite Hy. split; [done|].
      by rewrite Hb'.
    + injection E as <- <-. apply orb_false_iff in Es as [Es ->].
      apply negb_false_iff, Z.eqb_eq in Es. unfold closes in Ecl. rewrite Es in Ecl.
      rewrite Z.eqb_refl in Ecl. cbn [orb negb] in Ecl. apply andb_true_iff in Ecl as [_ Er].
      apply Z.eqb_eq in Er. cbn [g_sect g_state g_buf set_g_sect].
      split; [done|]. split; [congruence|]. split; [|by exists p; rewrite Hy].
      right; left. cbn [g_state g_sect set_g_sect]. split; [congruence|]. by left.
  - injection E1 as <- <-. destruct Hst as [[Hst ->]|(y & l & Hy & Hh & Hl & Hlast & Hbm)].
    + rewrite Hst in E. replace (negb (next =? 0)) with true in E by (by destruct Hn as [-> | [-> | ->]]).
      apply start_section_spec in E as (Hh' & Hs' & Hb' & Hst'); [|done..].
      split; [done|]. split; [done|]. split; [done|]. by left.
    + pose proof (holds_state _ _ _ Hh) as Hs3.
      assert (next = g_state g /\ force = false /\ g_state g <> RANGE) as (-> & -> & Hnr).
      { unfold closes in Ecl. replace (negb (g_state g =? 0)) with true in Ecl
          by (by destruct Hs3 as [-> | [-> | ->]]).
        destruct force; [done|]. cbn [andb orb] in Ecl. apply orb_false_iff in Ecl as [E1 E2].
        apply negb_false_iff, Z.eqb_eq in E1. apply Z.eqb_neq in E2. done. }
      rewrite Z.eqb_refl in E. injection E as <- <-. split; [done|]. split; [done|].
      split; [done|]. right. split; [done|]. split; [done|]. exists y, l. split; [done|]. split; [done|].
      intros Hbmp. specialize (Hbm Hbmp). rewrite Hbmp in Ec.
      assert (Hin : List.last acc y ∈ acc).
      { apply last_Some_elem_of with (1 := Hl). }
      destruct (Hacc _ Hin) as [Hok Hlt]. unfold rs_ok in Hok.
      apply choice_continue in Ec; [|rewrite Hlast; lia|done].
      destruct Hh as [[? _]|[[? _]|(_ & Hstart & _)]]; [by rewrite Hbmp in *..|].
      unfold BITMAP_MAX, INT_MAX in *. change (Z.shiftl 1 24) with (2 ^ 24) in *. lia.
Qed.

Lemma gen_serial_eq w g x nrs :
  gen_serial w g x nrs =
    let '(next, force) := choice (g_state g) (g_last g) x nrs in
    and_next (and_next
      (if closes (g_state g) next force
       then and_next (finish_section w g) (fun g w => reset_sect w g) else (Next, g, w))
      (fun g1 w => if negb (next =? g_state g) || force
                   then start_section w g1 next (rs_lo x) else (Next, g1, w)))
      (fun g w => and_next (fill_section w g x (contig_of x))
         (fun g w => (Next, set_g_last g (rs_hi x), w))).
Proof.
  unfold gen_serial, choice, closes. destruct (choose_next_state _ _ _ _ _) as [next force].
  symmetry. apply and_next_assoc.
Qed.

(** The section a range ends up in: after [gen_open], with the range added. *)
Lemma gen_serial_spec w g x acc nrs g' w' :
  ginv g acc -> serial_ok x -> (forall y, y ∈ acc -> rs_ok y /\ rs_hi y < rs_lo x) ->
  gen_serial w g x nrs = (Next, g', w') ->
  let '(next, force) := choice (g_state g) (g_last g) x nrs in
  g_state g' = next /\ g_last g' = rs_hi x /\
  if closes (g_state g) next force
  then ginv g' [x] /\ exists p, payload (g_state g, acc) p /\
    appended (g_buf g) ([g_state g] ++ enc_string p) (g_buf g')
  else ginv g' (acc ++ [x]) /\ g_buf g' = g_buf g.
Proof.
  intros Hg Hx Hacc. rewrite gen_serial_eq.
  pose proof (fun g' w' => gen_open w g x acc nrs g' w' Hg Hx Hacc) as Ho.
  destruct (choice (g_state g) (g_last g) x nrs) as [next force]. intros E.
  apply and_next_inv in E as (g1 & w1 & E1 & E). specialize (Ho g1 w1 E1).
  apply and_next_inv in E as (g2 & w2 & E2 & E). injection E as <- <-.
  destruct Ho as (Hs1 & Hst1 & Ho). assert (Hxr : rs_ok x) by (destruct Hx; split; lia).
  assert (Hnew : wf (g_buf g1) -> holds g1 [] (rs_lo x) ->
            ginv (set_g_last g2 (rs_hi x)) [x] /\ g_buf g2 = g_buf g1 /\ g_state g2 = next).
  { intros Hwb Hh. apply (fill_section_spec _ _ _ [] (rs_lo x)) in E2 as (Hh' & Hs' & Hb' & Hst' & Hstart & Hmax);
      [|done..|unfold rs_ok, INT_MAX in *; lia].
    split; [|split; congruence]. split; [done|]. split; [cbn; congruence|]. right. exists x, [].
    split; [done|]. split; [done|]. split; [done|]. split; [done|]. cbn [g_state g_last g_start set_g_last].
    intros Hb. rewrite Hst' in Hb. specialize (Hmax Hb).
    destruct Hh' as [[He _]|[[He _]|(_ & He & _)]]; [by rewrite Hst', Hb in He..|].
    unfold rs_ok in Hxr. lia. }
  destruct (closes (g_state g) next force).
  - destruct Ho as (Hh & p & Hp & Ha). destruct (Hnew (proj1 Ha) Hh) as (Hi & Hb & Hst).
    split; [done|]. split; [done|]. split; [done|]. exists p. cbn [g_buf set_g_last]. by rewrite Hb.
  - destruct Ho as [Hb1 [[-> Hh]|(-> & Hnr & y & l & Hy & Hh & Hgap)]].
    + destruct (Hnew ltac:(rewrite Hb1; apply Hg) Hh) as (Hi & Hb & Hst).
      split; [done|]. split; [done|]. split; [done|]. cbn [g_buf set_g_last]. congruence.
    + destruct Hg as (_ & Hwb & [[_ ?]|(y' & l' & Hy' & Hh2 & Hl & Hlast & Hbm)]); [congruence|].
      assert (y' = y /\ l' = l) as [-> ->] by (split; congruence).
      destruct (Hacc y ltac:(rewrite Hy; left)) as [Hyok Hylt].
      apply (fill_section_spec _ _ _ acc (rs_lo y)) in E2
        as (Hh' & Hs' & Hb' & Hst' & Hstart & Hmax); [|done..|congruence|].
      2:{ intros Hb. rewrite Hst1 in Hb. specialize (Hgap Hb). unfold rs_ok in *. lia. }
      split; [cbn; congruence|]. split; [done|]. split; [|done].
      split; [done|]. split; [cbn [g_buf set_g_last]; congruence|]. right. exists y, (l ++ [x]).
      split; [by rewrite Hy|]. split; [done|]. rewrite List.last_last, last_snoc.
      split; [done|]. split; [done|]. cbn [g_state g_last g_start set_g_last]. intros Hb.
      rewrite Hst' in Hb. specialize (Hmax Hb).
      destruct Hh' as [[He _]|[[He _]|(_ & He & _)]]; [by rewrite Hst', Hb in He..|].
      unfold rs_ok in *. lia.
Qed.

Lemma honest_fill w g x acc start :
  holds g acc start ->
  (g_state g = BITMAP -> 0 <= start <= rs_lo x /\ rs_lo x - start <= INT_MAX /\ rs_lo x < 2 ^ 64) ->
  honest (fill_section w g x (contig_of x)).
Proof.
  intros Hh Hb. unfold fill_section.
  destruct Hh as [[Hst _]|[[Hst _]|(Hst & Hstart & _)]]; rewrite Hst.
  - apply honest_check.
  - apply honest_and_next; auto with sshdb.
  - destruct (Hb Hst) as (H1 & H2 & H3). rewrite Hstart.
    change (BITMAP =? KRL_SECTION_CERT_SERIAL_LIST) with false.
    change (BITMAP =? KRL_SECTION_CERT_SERIAL_RANGE) with false.
    change (BITMAP =? KRL_SECTION_CERT_SERIAL_BITMAP) with true. cbv iota.
    rewrite u64_id by lia. destruct (_ >? _) eqn:E; [unfold INT_MAX in *; lia|].
    destruct (g_bitmap g); auto with sshdb. destruct (set_bits _ _ _ _) as [[r bm'] w1].
    apply honest_check.
Qed.

(** The check for an insane gap never fails. *)
Lemma honest_gen_serial w g x acc nrs :
  ginv g acc -> serial_ok x -> (forall y, y ∈ acc -> rs_ok y /\ rs_hi y < rs_lo x) ->
  honest (gen_serial w g x nrs).
Proof.
  intros Hg Hx Hacc. rewrite gen_serial_eq.
  pose proof (fun g' w' => gen_open w g x acc nrs g' w' Hg Hx Hacc) as Ho.
  destruct (choice (g_state g) (g_last g) x nrs) as [next force].
  apply honest_and_next.
  { apply honest_and_next.
    - case_if; auto with sshdb. apply honest_and_next; auto using honest_finish with sshdb.
    - intros g1 w1 _. case_if; auto using honest_start with sshdb. }
  intros g1 w1 E1. specialize (Ho g1 w1 E1). destruct Ho as (_ & Hst1 & Ho).
  apply honest_and_next; [|auto with sshdb]. unfold serial_ok, INT_MAX in *.
  destruct (closes (g_state g) next force).
  - destruct Ho as [Hh _]. eapply honest_fill; [exact Hh|]. unfold INT_MAX. lia.
  - destruct Ho as [_ [[-> Hh]|(-> & Hnr & y & l & Hy & Hh & Hgap)]].
    + eapply honest_fill; [exact Hh|]. unfold INT_MAX. lia.
    + eapply honest_fill; [exact Hh|]. intros Hb. rewrite Hst1 in Hb. specialize (Hgap Hb).
      destruct (Hacc y ltac:(rewrite Hy; left)) as [Hyok Hylt]. unfold rs_ok, INT_MAX in *. lia.
Qed.

Lemma serials_ok_before acc x l :
  serials_ok (acc ++ x :: l) -> forall y, y ∈ acc -> rs_ok y /\ rs_hi y < rs_lo x.
Proof.
  intros H y Hy. apply serials_ok_app in H as ([Ha _] & _ & Hg). split.
  - rewrite Forall_forall in Ha. by apply Ha.
  - specialize (Hg y x Hy ltac:(left)). unfold gap in Hg. lia.
Qed.

(** The loop writes the sections that [split_sections] lists, but for the last
    one, which is still open. *)
Lemma gen_serials_spec l w g acc g' w' :
  ginv g acc -> serials_ok (acc ++ l) -> Forall serial_ok l ->
  gen_serials w g l = (Next, g', w') ->
  exists secs bytes acc', sections_bytes secs bytes /\ appended (g_buf g) bytes (g_buf g') /\
    ginv g' acc' /\
    split_sections (g_state g) (g_last g) acc l =
      secs ++ (if g_state g' =? 0 then [] else [(g_state g', acc')]).
Proof.
  revert w g acc. induction l as [|x l IH]; intros w g acc Hg Hok Hl E; cbn [gen_serials split_sections] in *.
  - injection E as <- <-. exists [], [], acc. split; [constructor|]. split; [apply appended_nil, Hg|]. done.
  - apply Forall_cons in Hl as [Hx Hl]. apply and_next_inv in E as (g1 & w1 & E1 & E).
    apply (gen_serial_spec _ _ _ acc) in E1; [|done|done|by eapply serials_ok_before].
    unfold choice, contig_of in E1. destruct (choose_next_state _ _ _ _ _) as [next force].
    destruct E1 as (Hst1 & Hl1 & E1). unfold closes in E1. destruct (_ && _).
    + destruct E1 as (Hg1 & p & Hp & Ha).
      apply (IH _ _ [x]) in E as (secs & bytes & acc' & Hsb & Ha' & Hg' & Hsp); [|done| |done].
      2:{ apply serials_ok_app in Hok. tauto. }
      exists ((g_state g, acc) :: secs), ([g_state g] ++ enc_string p ++ bytes), acc'.
      split; [by apply sb_cons|]. split; [rewrite app_assoc; by eapply appended_app|].
      split; [done|]. cbn [app]. f_equal. by rewrite Hst1, Hl1 in Hsp.
    + destruct E1 as (Hg1 & Hb1).
      apply (IH _ _ (acc ++ [x])) in E as (secs & bytes & acc' & Hsb & Ha' & Hg' & Hsp);
        [|done|by rewrite <- app_assoc|done].
      exists secs, bytes, acc'. split; [done|]. split; [by rewrite <- Hb1|]. split; [done|].
      by rewrite Hst1, Hl1 in Hsp.
Qed.

Lemma honest_gen_serials l w g acc :
  ginv g acc -> serials_ok (acc ++ l) -> Forall serial_ok l -> honest (gen_serials w g l).
Proof.
  revert w g acc. induction l as [|x l IH]; intros w g acc Hg Hok Hl; cbn [gen_serials]; auto with sshdb.
  apply Forall_cons in Hl as [Hx Hl]. apply honest_and_next.
  { eapply honest_gen_serial; [exact Hg|done|by eapply serials_ok_before]. }
  intros g1 w1 E1. apply (gen_serial_spec _ _ _ acc) in E1; [|done|done|by eapply serials_ok_before].
  destruct (choice _ _ _ _) as [next force]. destruct E1 as (_ & _ & E1). destruct (closes _ _ _).
  - apply (IH _ _ [x]); [apply E1| |done]. apply serials_ok_app in Hok. tauto.
  - apply (IH _ _ (acc ++ [x])); [apply E1|by rewrite <- app_assoc|done].
Qed.

(** With the last section closed as well. *)
Lemma gen_all_spec l w g g' w' :
  ginv g [] -> g_state g = 0 -> serials_ok l -> Forall serial_ok l ->
  and_next (gen_serials w g l)
    (fun g w => if negb (g_state g =? 0) then finish_section w g else (Next, g, w)) = (Next, g', w') ->
  exists bytes, sections_bytes (split_sections 0 (g_last g) [] l) bytes /\
    appended (g_buf g) bytes (g_buf g') /\ roomy (g_sect g').
Proof.
  intros Hg Hst Hok Hl E. apply and_next_inv in E as (g1 & w1 & E1 & E).
  apply (gen_serials_spec _ _ _ []) in E1 as (secs & bytes & acc & Hsb & Ha & Hg1 & Hsp); [|done..].
  rewrite Hst in Hsp. rewrite Hsp. destruct Hg1 as (Hs1 & Hb1 & [[Hz ->]|(x & l' & -> & Hh & _)]).
  - rewrite Hz in E |- *. injection E as <- <-. exists bytes. by rewrite app_nil_r.
  - assert ((g_state g1 =? 0) = false) as Hne.
    { pose proof (holds_state _ _ _ Hh) as [-> | [-> | ->]]; done. }
    rewrite Hne in E |- *. cbn [negb] in E.
    apply (finish_section_spec _ _ _ _ x l') in E as (p & Hp & Ha' & Hs' & _); [|done..].
    exists (bytes ++ [g_state g1] ++ enc_string p).
    split; [by apply (sections_bytes_snoc _ _ (g_state g1, x :: l'))|].
    split; [by eapply appended_app|done].
Qed.

(** ** The other sections *)

(** A section of strings; an empty one is not written. *)
Definition strings_section (type : Z) (l : list (list Z)) : list Z :=
  match l with [] => [] | _ => [type] ++ enc_string (flat_map enc_string l) end.

Lemma put_blobs_appended l w b b' w' :
  wf b -> Forall (fun x => bytes_ok x) l -> put_blobs w b l = (0, b', w') ->
  appended b (flat_map enc_string l) b'.
Proof.
  revert w b. induction l as [|x l IH]; intros w b Hwf Hl E; cbn [put_blobs flat_map] in *.
  - injection E as <- <-. by apply appended_nil.
  - apply Forall_cons in Hl as [Hx Hl].
    destruct (sshbuf_put_string w b x _) as [[r b1] w1] eqn:E1.
    destruct (Z.eqb_spec r 0) as [->|]; cbn [negb] in E; [|congruence].
    apply put_string_appended in E1; [|done..].
    eapply appended_app; [exact E1|]. eapply IH; [apply E1|done..].
Qed.

Lemma put_section_spec w g type l g' w' :
  roomy (g_sect g) -> wf (g_buf g) -> 0 <= type < 256 -> Forall (fun x => bytes_ok x) l ->
  put_section w g type l = (Next, g', w') ->
  appended (g_buf g) (strings_section type l) (g_buf g') /\ roomy (g_sect g').
Proof.
  intros Hs Hb Ht Hl E. unfold put_section in E. apply and_next_inv in E as (g1 & w1 & E1 & E).
  apply reset_sect_inv in E1 as (b1 & -> & Hb1 & Hc1); [|done].
  apply and_next_inv in E as (g2 & w2 & E2 & E). apply check_inv, on_sect_inv in E2 as (b2 & E2 & ->).
  cbn [g_sect g_buf set_g_sect] in *. apply put_blobs_appended in E2; [|apply Hb1|done].
  pose proof (appended_roomy _ _ _ Hb1 E2) as Hs2. destruct E2 as (Hw2 & _ & Hc2). rewrite Hc1 in Hc2.
  rewrite sshbuf_len_contents, Hc2 in E by done. cbn [app] in E.
  destruct l as [|x l].
  - cbn in E. injection E as <- <-. split; [by apply appended_nil|done].
  - rewrite (proj2 (Z.eqb_neq _ 0)) in E by (cbn [flat_map]; rewrite length_app, length_enc_string; lia).
    cbn [negb] in E. apply and_next_inv in E as (g3 & w3 & E3 & E).
    apply check_inv, on_buf_inv in E3 as (b3 & E3 & ->). apply check_inv, on_buf_inv in E as (b4 & E4 & ->).
    cbn [g_sect g_buf set_g_sect set_g_buf] in *. apply put_u8_appended in E3; [|done].
    apply put_stringb_appended in E4; [|apply E3|done].
    unfold u8 in E3. rewrite Z.mod_small in E3 by lia. rewrite Hc2 in E4.
    split; [by eapply appended_app|done].
Qed.

(** ** What is needed of keys to store them *)

(** The wire form of a public key: what [sshkey_puts] writes as a string and
    [sshkey_from_blob] reads.  Keys can be copied when memory suffices. *)
Class SshKeyWire (key : Type) `{SshKeyLaws key} := {
  puts_writes w k b b' w' :
    wf b -> sshkey_is_cert k = false -> bytes_ok (pub_blob k) ->
    sshkey_puts w k b = (0, b', w') -> appended b (enc_string (pub_blob k)) b';
  from_blob_reads k :
    sshkey_is_cert k = false -> pub_blob k <> [] ->
    exists k', sshkey_from_blob [] (pub_blob k) = (0, Some k', []) /\ sshkey_equal k' k = true;
  from_private_copies k : exists k', sshkey_from_private [] k = (0, Some k', [])
}.

Section write.
Context `{TS : TreeShape} {key : Type} `{SK : SshKey key} `{SL : !SshKeyLaws key}
  `{SW : !SshKeyWire key}.
Implicit Types (krl : ssh_krl key) (rc : revoked_certs key).

(** A CA key that can be stored, and the strings of an entry. *)
Definition ca_storable (ca : option key) : Prop :=
  match ca with
  | None => True
  | Some k => sshkey_is_cert k = false /\ pub_blob k <> [] /\ bytes_ok (pub_blob k)
  end.

Definition text (s : list Z) : Prop := bytes_ok s /\ 0 ∉ s.

Definition rc_storable rc : Prop :=
  ca_storable (rc_ca_key rc) /\ Forall serial_ok (rc_serials rc) /\ Forall text (rc_key_ids rc).

Definition ca_blob rc : list Z :=
  match rc_ca_key rc with None => [] | Some k => pub_blob k end.

(** The octets of the section of one CA. *)
Definition certs_bytes rc (p : list Z) : Prop :=
  exists q, sections_bytes (split_sections 0 0 [] (rc_serials rc)) q /\
    p = enc_string (ca_blob rc) ++ enc_string [] ++ q ++
        strings_section KRL_SECTION_CERT_KEY_ID (rc_key_ids rc).

Lemma result_inv x b w :
  honest x -> result x = (0, b, w) -> exists g, x = (Next, g, w) /\ b = g_buf g.
Proof.
  intros Hx. destruct x as [[[|r] g] w1]; cbn.
  - intros [= <- <-]. by exists g.
  - intros [= -> <- <-]. by destruct (Hx g w1).
Qed.

Lemma text_bytes l : Forall text l -> Forall (fun x => bytes_ok x) l.
Proof. intros H. eapply Forall_impl; [exact H|]. by intros x [? _]. Qed.

Lemma revoked_certs_generate_spec w rc b b' w' :
  wf b -> rc_ok rc -> rc_storable rc -> revoked_certs_generate w rc b = (0, b', w') ->
  exists p, certs_bytes rc p /\ appended b p b'.
Proof.
  intros Hwf [Hser _] (Hca & Hso & Hids). unfold revoked_certs_generate.
  destruct (sshbuf_new w) as [[sect|] w1] eqn:En; [|done].
  apply sshbuf_new_spec in En as (Hws & Hcs & _ & Hmax).
  assert (Hs0 : roomy sect) by (split; [done|rewrite Hmax; done]).
  intros E. apply result_inv in E as (g & E & ->).
  2:{ apply honest_and_next; [apply honest_check|]. intros g1 w2 E1.
      apply check_inv, on_buf_inv in E1 as (b1 & E1 & ->).
      apply honest_and_next; [apply honest_check|]. intros g2 w3 E2.
      apply check_inv, on_buf_inv in E2 as (b2 & E2 & ->).
      assert (Hb1 : wf b1).
      { destruct (rc_ca_key rc) as [k|]; [|by apply (put_string_appended _ _ []) in E1 as [? _]].
        destruct Hca as (? & ? & ?). by apply puts_writes in E1 as [? _]. }
      apply (put_string_appended _ _ []) in E2 as [Hb2 _]; [|done..].
      apply honest_and_next; [eapply (honest_gen_serials _ _ _ []); [|done..]|].
      { split; [done|]. split; [done|]. by left. }
      intros g3 w4 _. apply honest_and_next; [case_if; auto using honest_finish with sshdb|].
      intros. apply honest_put_section. }
  apply and_next_inv in E as (g1 & w2 & E1 & E). apply check_inv, on_buf_inv in E1 as (b1 & E1 & ->).
  apply and_next_inv in E as (g2 & w3 & E2 & E). apply check_inv, on_buf_inv in E2 as (b2 & E2 & ->).
  rewrite <- and_next_assoc in E. apply and_next_inv in E as (g3 & w4 & E3 & E).
  cbn [g_buf set_g_buf] in *.
  assert (Hb1 : appended b (enc_string (ca_blob rc)) b1).
  { unfold ca_blob. destruct (rc_ca_key rc) as [k|].
    - destruct Hca as (? & ? & ?). by apply puts_writes in E1.
    - by apply (put_string_appended _ _ []) in E1. }
  apply (put_string_appended _ _ []) in E2; [|apply Hb1|done].
  apply gen_all_spec in E3 as (q & Hq & Ha & Hs3); [|split; [done|split; [apply E2|by left]]|done..].
  apply put_section_spec in E as [Hk _]; [|done|apply Ha|done|by apply text_bytes].
  eexists. split; [exists q; split; [exact Hq|reflexivity]|].
  eapply appended_app; [exact Hb1|]. eapply appended_app; [exact E2|].
  eapply appended_app; [exact Ha|exact Hk].
Qed.

(** ** The whole file *)

Definition put_certs_section (p : list Z) : list Z := [KRL_SECTION_CERTIFICATES] ++ enc_string p.

Lemma put_certs_spec l w g g' w' :
  roomy (g_sect g) -> wf (g_buf g) -> Forall rc_ok l -> Forall rc_storable l ->
  put_certs w g l = (Next, g', w') ->
  exists ps, Forall2 certs_bytes l ps /\
    appended (g_buf g) (flat_map put_certs_section ps) (g_buf g') /\ roomy (g_sect g').
Proof.
  revert w g. induction l as [|rc l IH]; intros w g Hs Hb Hl Hl' E; cbn [put_certs] in E.
  - injection E as <- <-. exists []. split; [constructor|]. split; [by apply appended_nil|done].
  - apply Forall_cons in Hl as [Hrc Hl]. apply Forall_cons in Hl' as [Hrc' Hl'].
    apply and_next_inv in E as (g1 & w1 & E1 & E).
    apply reset_sect_inv in E1 as (b1 & -> & Hb1 & Hc1); [|done].
    apply and_next_inv in E as (g2 & w2 & E2 & E). apply check_inv, on_sect_inv in E2 as (b2 & E2 & ->).
    apply and_next_inv in E as (g3 & w3 & E3 & E). apply check_inv, on_buf_inv in E3 as (b3 & E3 & ->).
    apply and_next_inv in E as (g4 & w4 & E4 & E). apply check_inv, on_buf_inv in E4 as (b4 & E4 & ->).
    cbn [g_sect g_buf set_g_sect set_g_buf] in *.
    apply revoked_certs_generate_spec in E2 as (p & Hp & Ha); [|apply Hb1|done..].
    pose proof (appended_roomy _ _ _ Hb1 Ha) as Hs2. destruct Ha as (Hw2 & _ & Hc2). rewrite Hc1 in Hc2.
    apply put_u8_appended in E3; [|done]. apply put_stringb_appended in E4; [|apply E3|done].
    rewrite Hc2 in E4. apply IH in E as (ps & Hps & Ha & Hs'); [|done|apply E4|done..].
    exists (p :: ps). split; [by constructor|]. split; [|done]. cbn [flat_map].
    eapply appended_app; [|exact Ha]. by eapply appended_app.
Qed.

Lemma honest_put_certs l w g : honest (put_certs w g l).
Proof.
  revert w g. induction l as [|rc l IH]; intros w g; cbn [put_certs]; [apply honest_next|].
  repeat (apply honest_and_next; [apply honest_reset || apply honest_check|intros ]). apply IH.
Qed.

Definition comment_bytes krl : list Z := default [] (krl_comment krl).

(** The octets of a list whose sections for the CAs are [ps]. *)
Definition header_bytes krl : list Z :=
  KRL_MAGIC ++ POKE_U32 KRL_FORMAT_VERSION ++ POKE_U64 (krl_version krl) ++
  POKE_U64 (generated_date krl) ++ POKE_U64 (krl_flags krl) ++ enc_string [] ++
  enc_string (comment_bytes krl).

Definition body_bytes krl (ps : list (list Z)) : list Z :=
  flat_map put_certs_section ps ++
  strings_section KRL_SECTION_EXPLICIT_KEY (revoked_keys krl) ++
  strings_section KRL_SECTION_FINGERPRINT_SHA1 (revoked_sha1s krl) ++
  strings_section KRL_SECTION_FINGERPRINT_SHA256 (revoked_sha256s krl).

(** A list that the format can hold. *)
Definition is_u64 (n : Z) : Prop := 0 <= n < 2 ^ 64.

Definition hashes (len : nat) (l : list (list Z)) : Prop :=
  Forall (fun h => bytes_ok h /\ length h = len) l.

Definition storable krl : Prop :=
  is_u64 (krl_version krl) /\ is_u64 (generated_date krl) /\ is_u64 (krl_flags krl) /\
  text (comment_bytes krl) /\ Forall (fun b => bytes_ok b) (revoked_keys krl) /\
  hashes 20 (revoked_sha1s krl) /\ hashes 32 (revoked_sha256s krl) /\
  Forall rc_storable (krl_revoked_certs krl).

Lemma hashes_bytes n l : hashes n l -> Forall (fun x => bytes_ok x) l.
Proof. intros H. eapply Forall_impl; [exact H|]. by intros x [? _]. Qed.

(** What is written about the date. *)
Definition stamped (now : Z) krl : ssh_krl key :=
  if generated_date krl =? 0 then set_date krl (u64 now) else krl.

Lemma stamped_storable now krl : storable krl -> storable (stamped now krl).
Proof.
  unfold stamped. case_if; [|done]. intros (? & _ & ?). split; [done|]. split; [|done].
  apply Z.mod_pos_bound. lia.
Qed.

Lemma stamped_rest now krl :
  krl_revoked_certs (stamped now krl) = krl_revoked_certs krl /\
  (krl_ok krl -> krl_ok (stamped now krl)) /\
  forall f, recorded (stamped now krl) f <-> recorded krl f.
Proof. unfold stamped. case_if; [|done]. split_and!; [done..|]. by intros []. Qed.

(** The steps of the header. *)
Definition write_header (w : world) krl (g : genst) : flow * genst * world :=
  and_next (check (on_buf g (sshbuf_put w (g_buf g) KRL_MAGIC 8))) (fun g w =>
  and_next (check (on_buf g (sshbuf_put_u32 w (g_buf g) KRL_FORMAT_VERSION))) (fun g w =>
  and_next (check (on_buf g (sshbuf_put_u64 w (g_buf g) (krl_version krl)))) (fun g w =>
  and_next (check (on_buf g (sshbuf_put_u64 w (g_buf g) (generated_date krl)))) (fun g w =>
  and_next (check (on_buf g (sshbuf_put_u64 w (g_buf g) (krl_flags krl)))) (fun g w =>
  and_next (check (on_buf g (sshbuf_put_string w (g_buf g) [] 0))) (fun g w =>
  check (on_buf g (sshbuf_put_cstring w (g_buf g) (krl_comment krl))))))))).

Lemma step_inv (g : genst) x k g' w' :
  and_next (check (on_buf g x)) k = (Next, g', w') ->
  exists b w1, x = (0, b, w1) /\ k (set_g_buf g b) w1 = (Next, g', w').
Proof.
  intros E. apply and_next_inv in E as (g1 & w1 & E1 & E). exists (g_buf g1), w1.
  by apply check_inv, on_buf_inv in E1 as (b & -> & ->).
Qed.

Lemma write_header_spec w krl g g' w' :
  wf (g_buf g) -> storable krl -> write_header w krl g = (Next, g', w') ->
  appended (g_buf g) (header_bytes krl) (g_buf g') /\ g_sect g' = g_sect g.
Proof.
  intros Hb (Hv & Hd & Hf & [Hc _] & _) E. unfold write_header in E.
  apply step_inv in E as (b1 & w1 & E1 & E). apply (put_appended _ _ KRL_MAGIC) in E1; [|done|by apply (bool_decide_unpack _)].
  apply step_inv in E as (b2 & w2 & E2 & E). apply put_u32_appended in E2; [|apply E1].
  apply step_inv in E as (b3 & w3 & E3 & E). apply put_u64_appended in E3; [|apply E2].
  apply step_inv in E as (b4 & w4 & E4 & E). apply put_u64_appended in E4; [|apply E3].
  apply step_inv in E as (b5 & w5 & E5 & E). apply put_u64_appended in E5; [|apply E4].
  apply step_inv in E as (b6 & w6 & E6 & E). apply (put_string_appended _ _ []) in E6; [|apply E5|done].
  apply check_inv, on_buf_inv in E as (b7 & E7 & ->). apply put_string_appended in E7; [|apply E6|done].
  rewrite u64_id in E3, E4, E5 by done. split; [|done]. unfold header_bytes.
  repeat (eapply appended_app; [eassumption|]). exact E7.
Qed.

Lemma honest_write_header w krl g : honest (write_header w krl g).
Proof. repeat (apply honest_and_next; [apply honest_check|intros ]). apply honest_check. Qed.

Lemma to_blob_eq w now krl buf sect w1 :
  sshbuf_new w = (Some sect, w1) ->
  ssh_krl_to_blob w now krl buf =
    let krl := stamped now krl in
    let '(r, buf, w) := result (and_next (write_header w1 krl (mk_gen 0 0 0 None sect buf)) (fun g w =>
      and_next (put_certs w g (krl_revoked_certs krl)) (fun g w =>
      and_next (put_section w g KRL_SECTION_EXPLICIT_KEY (revoked_keys krl)) (fun g w =>
      and_next (put_section w g KRL_SECTION_FINGERPRINT_SHA1 (revoked_sha1s krl)) (fun g w =>
      put_section w g KRL_SECTION_FINGERPRINT_SHA256 (revoked_sha256s krl)))))) in
    (r, krl, buf, w).
Proof.
  intros E. unfold ssh_krl_to_blob. rewrite E. cbv zeta. fold (stamped now krl).
  unfold write_header. generalize (stamped now krl). clear. intros krl.
  do 7 (rewrite ?and_next_assoc; destruct (check _) as [[[|] ?] ?]; [|reflexivity]; cbn [and_next]).
  reflexivity.
Qed.

Lemma ssh_krl_to_blob_spec w now krl buf krl' buf' w' :
  wf buf -> krl_ok krl -> storable krl ->
  ssh_krl_to_blob w now krl buf = (0, krl', buf', w') ->
  krl' = stamped now krl /\
  exists ps, Forall2 certs_bytes (krl_revoked_certs krl') ps /\
    appended buf (header_bytes krl' ++ body_bytes krl' ps) buf'.
Proof.
  intros Hb Hok Hst E. destruct (sshbuf_new w) as [[sect|] w1] eqn:En.
  2:{ unfold ssh_krl_to_blob in E. by rewrite En in E. }
  rewrite (to_blob_eq _ _ _ _ _ _ En) in E. apply sshbuf_new_spec in En as (Hws & _ & _ & Hmax).
  assert (Hs0 : roomy sect) by (split; [done|rewrite Hmax; done]).
  cbv zeta in E. pose proof (stamped_storable now krl Hst) as Hst'.
  destruct (stamped_rest now krl) as (_ & Hok' & _). specialize (Hok' Hok).
  revert E Hst' Hok'. generalize (stamped now krl). clear krl Hst Hok. intros krl E Hst Hok.
  destruct (result _) as [[r b] w2] eqn:Er. injection E as -> <- <- <-. split; [done|].
  apply result_inv in Er as (g & E & ->).
  2:{ apply honest_and_next; [apply honest_write_header|]. intros.
      apply honest_and_next; [apply honest_put_certs|]. intros.
      do 2 (apply honest_and_next; [apply honest_put_section|intros ]). apply honest_put_section. }
  pose proof Hst as (_ & _ & _ & _ & Hk & H1 & H2 & Hrc). pose proof Hok as (_ & _ & _ & Hrco).
  apply and_next_inv in E as (g1 & w3 & E1 & E). apply write_header_spec in E1 as [Ha1 Hs1]; [|done..].
  apply and_next_inv in E as (g2 & w4 & E2 & E).
  apply put_certs_spec in E2 as (ps & Hps & Ha2 & Hs2); [|by rewrite Hs1|apply Ha1|done..].
  apply and_next_inv in E as (g3 & w5 & E3 & E).
  apply put_section_spec in E3 as [Ha3 Hs3]; [|done|apply Ha2|done..].
  apply and_next_inv in E as (g4 & w6 & E4 & E).
  apply put_section_spec in E4 as [Ha4 Hs4]; [|done|apply Ha3|done|by eapply hashes_bytes].
  apply put_section_spec in E as [Ha5 _]; [|done|apply Ha4|done|by eapply hashes_bytes].
  exists ps. split; [done|]. eapply appended_app; [exact Ha1|]. unfold body_bytes.
  repeat (eapply appended_app; [eassumption|]). exact Ha5.
Qed.
End write.
