(* ===== verification/KrlRead.v ===== *)
(** Reading a revocation list back.

    Each reading function of KrlFormat.v is run on the octets that KrlWrite.v
    shows the writer to produce, with memory to spare: it succeeds, takes
    exactly those octets, and adds exactly the facts they stand for. *)

From stdpp Require Import base list numbers tactics sets sorting.
From Stdlib Require Import ZArith Lia ZifyBool.
From S2P Require Import Prelude Sshbuf SshbufGetput SshbufShare SshbufRead SshbufMisc Bitmap RbTree Krl KrlThms KrlFormat KrlWrite.

(** The top of a loop over sections: the child of the last round is empty. *)
Definition looping (sub : option sshbuf) (b : sshbuf) (rest : list Z) : Prop :=
  match sub with
  | None => reading 1 b rest
  | Some c => reading 1 c [] /\ reading 2 b rest
  end.

Lemma looping_release sub b rest : looping sub b rest -> reading 1 (release_opt sub b) rest.
Proof. destruct sub as [c|]; cbn; [|done]. intros [? ?]. by eapply release_reading. Qed.

Lemma looping_len sub b rest : looping sub b rest -> sshbuf_len b = Z.of_nat (length rest).
Proof. destruct sub as [c|]; cbn; [intros [_ ?]|intros ?]; by eapply read_len. Qed.

(** ** What reading adds to a list *)

Section read.
Context `{TS : TreeShape} {key : Type} `{SK : SshKey key} `{SL : !SshKeyLaws key}
  `{SW : !SshKeyWire key}.
Implicit Types (krl : ssh_krl key) (rc : revoked_certs key) (ca : option key).

Definition same_header krl krl' : Prop :=
  krl_version krl' = krl_version krl /\ generated_date krl' = generated_date krl /\
  krl_flags krl' = krl_flags krl /\ krl_comment krl' = krl_comment krl.

(** The facts of [F] are added, and nothing else changes. *)
Definition gains krl (F : fact -> Prop) krl' : Prop :=
  krl_ok krl' /\ same_header krl krl' /\ forall f, recorded krl' f <-> recorded krl f \/ F f.

Lemma gains_none krl : krl_ok krl -> gains krl (fun _ => False) krl.
Proof. intros. split; [done|]. split; [done|]. tauto. Qed.

Lemma gains_trans krl F krl1 G krl2 :
  gains krl F krl1 -> gains krl1 G krl2 -> gains krl (fun f => F f \/ G f) krl2.
Proof.
  intros (_ & (? & ? & ? & ?) & HF) (? & (? & ? & ? & ?) & HG). split; [done|].
  split; [split_and!; congruence|]. intros f. rewrite HG, HF. tauto.
Qed.

Lemma gains_ext krl F G krl' : (forall f, F f <-> G f) -> gains krl F krl' -> gains krl G krl'.
Proof. intros He (? & ? & H). split; [done|]. split; [done|]. intros f. by rewrite H, He. Qed.

Definition serial_facts ca (P : Z -> Prop) (f : fact) : Prop :=
  match f with FSerial ca' n => same_ca ca ca' /\ P n | _ => False end.

Definition key_id_facts ca (l : list (list Z)) (f : fact) : Prop :=
  match f with FKeyId ca' id => same_ca ca ca' /\ id ∈ l | _ => False end.

Lemma insert_serial_range_ok l lo hi :
  serials_ok l -> 0 <= lo <= hi -> hi < 2 ^ 64 ->
  exists l', insert_serial_range [] l lo hi = (0, l', []).
Proof.
  intros Hl Hlo Hhi. destruct (insert_serial_range [] l lo hi) as [[r l'] w'] eqn:E.
  pose proof E as E0. apply insert_serial_range_spec in E0 as (_ & _ & Herr); [|done..].
  assert (w' = [] /\ (r = 0 \/ r = SSH_ERR_INTERNAL_ERROR)) as [-> Hr].
  { revert E. unfold insert_serial_range. cbn [malloc negb].
    destruct (RB_NFIND _ _ _) as [[[pre ers] post]|]; [destruct (negb _)|];
      try (destruct (RB_INSERT_at _ _ _) as [?|[??]]); intros [= <- <- <-]; auto. }
  destruct Hr as [->|Hr]; [by exists l'|]. subst r. by destruct (Herr ltac:(done)).
Qed.

Lemma for_ca_key_ok krl ca :
  exists i krl', revoked_certs_for_ca_key [] krl ca true = (0, Some i, krl', []) /\
    same_header krl krl'.
Proof.
  unfold revoked_certs_for_ca_key.
  destruct (list_find _ _) as [[i rc]|]; [by exists i, krl|]. cbn [negb malloc].
  destruct ca as [ca|].
  - destruct (from_private_copies ca) as [k' ->]. cbn [Z.eqb negb]. by eexists _, _.
  - by eexists _, _.
Qed.

Lemma revoke_range_gains krl ca lo hi :
  krl_ok krl -> 1 <= lo <= hi -> hi < 2 ^ 64 ->
  exists krl', ssh_krl_revoke_cert_by_serial_range [] krl ca lo hi = (0, krl', []) /\
    gains krl (serial_facts ca (fun n => lo <= n <= hi)) krl'.
Proof.
  intros Hok Hlo Hhi.
  assert (exists krl', ssh_krl_revoke_cert_by_serial_range [] krl ca lo hi = (0, krl', []) /\
            same_header krl krl') as (krl' & E & Hh).
  { unfold ssh_krl_revoke_cert_by_serial_range.
    replace (_ || _) with false by lia.
    destruct (for_ca_key_ok krl ca) as (i & krl1 & E & Hh1). rewrite E.
    apply for_ca_key_spec in E as (Hok1 & _ & _ & rc & Hf); [|done].
    destruct (rc_ok_lookup _ _ _ _ Hok1 Hf) as [-> [Hser _]].
    destruct (insert_serial_range_ok (rc_serials rc) lo hi) as [l' ->]; [done|lia|done|].
    eexists. split; [done|]. done. }
  exists krl'. split; [done|]. apply run_serial_range in E as [Hok' Hf]; [|done|cbn; lia].
  split; [done|]. split; [done|]. intros f. rewrite Hf. destruct f; cbn; tauto.
Qed.

Lemma revoke_serial_gains krl ca n :
  krl_ok krl -> 1 <= n < 2 ^ 64 ->
  exists krl', ssh_krl_revoke_cert_by_serial [] krl ca n = (0, krl', []) /\
    gains krl (serial_facts ca (fun m => m = n)) krl'.
Proof.
  intros Hok Hn. destruct (revoke_range_gains krl ca n n) as (krl' & E & Hg); [done|lia|lia|].
  exists krl'. split; [done|]. eapply gains_ext; [|exact Hg].
  intros []; cbn; try tauto. intuition lia.
Qed.

Lemma revoke_key_id_gains krl ca id :
  krl_ok krl ->
  exists krl', ssh_krl_revoke_cert_by_key_id [] krl ca id = (0, krl', []) /\
    gains krl (key_id_facts ca [id]) krl'.
Proof.
  intros Hok.
  assert (exists krl', ssh_krl_revoke_cert_by_key_id [] krl ca id = (0, krl', []) /\
            same_header krl krl') as (krl' & E & Hh).
  { unfold ssh_krl_revoke_cert_by_key_id.
    destruct (for_ca_key_ok krl ca) as (i & krl1 & E & Hh1). rewrite E.
    apply for_ca_key_spec in E as (Hok1 & _ & _ & rc & Hf); [|done].
    destruct (rc_ok_lookup _ _ _ _ Hok1 Hf) as [-> _]. cbn [malloc negb].
    destruct (RB_INSERT _ _ _). eexists. split; [done|]. done. }
  exists krl'. split; [done|]. apply run_key_id in E as [Hok' Hf]; [|done].
  split; [done|]. split; [done|]. intros f. rewrite Hf.
  destruct f; cbn; rewrite ?list_elem_of_singleton; tauto.
Qed.

(** ** Subsections of serial numbers *)

(** Numbers written by [put_serials]. *)
Lemma parse_serial_list_read l fuel b krl ca :
  krl_ok krl -> Forall (fun n => 1 <= n < 2 ^ 64) l -> (length l < fuel)%nat ->
  reading 1 b (flat_map POKE_U64 l) ->
  exists b' krl', parse_serial_list fuel [] b krl ca = (0, b', krl', []) /\
    reading 1 b' [] /\ gains krl (serial_facts ca (fun n => n ∈ l)) krl'.
Proof.
  revert fuel b krl. induction l as [|n l IH]; intros fuel b krl Hok Hl Hf Hb;
    (destruct fuel as [|fuel]; [cbn in Hf; lia|]); cbn [parse_serial_list flat_map length] in *.
  - rewrite (read_len _ _ _ Hb). cbn. exists b, krl. split; [done|]. split; [done|].
    eapply gains_ext; [|by apply gains_none]. intros []; cbn; set_unfold; tauto.
  - apply Forall_cons in Hl as [Hn Hl]. rewrite (read_len _ _ _ Hb).
    rewrite length_app. change (length (POKE_U64 n)) with 8%nat.
    replace (_ >? 0) with true by lia. cbn [negb].
    destruct (read_u64 _ _ _ _ Hb) as (b1 & -> & Hb1); [lia|]. cbn [Z.eqb negb default id].
    destruct (revoke_serial_gains krl ca n Hok Hn) as (krl1 & -> & Hg). cbn [Z.eqb negb].
    destruct (IH fuel b1 krl1) as (b' & krl' & -> & Hb' & Hg'); [apply Hg|done|lia|done|].
    exists b', krl'. split; [done|]. split; [done|].
    eapply gains_ext; [|by eapply gains_trans]. intros []; cbn; set_unfold; tauto.
Qed.

Lemma parse_serial_range_read b krl ca x :
  krl_ok krl -> serial_ok x -> reading 1 b (POKE_U64 (rs_lo x) ++ POKE_U64 (rs_hi x)) ->
  exists b' krl', parse_serial_range [] b krl ca = (0, b', krl', []) /\
    reading 1 b' [] /\ gains krl (serial_facts ca (fun n => rs_mem n x)) krl'.
Proof.
  intros Hok [Hx1 Hx2] Hb. unfold parse_serial_range.
  destruct (read_u64 _ _ _ _ Hb) as (b1 & -> & Hb1); [lia|]. cbn [Z.eqb negb default id].
  rewrite <- (app_nil_r (POKE_U64 (rs_hi x))) in Hb1.
  destruct (read_u64 _ _ _ _ Hb1) as (b2 & -> & Hb2); [lia|]. cbn [Z.eqb negb default id].
  destruct (revoke_range_gains krl ca (rs_lo x) (rs_hi x)) as (krl' & -> & Hg); [done..|].
  by exists b2, krl'.
Qed.

Lemma be_value_skip_zeros s : be_value 0 (skip_zeros s) = be_value 0 s.
Proof.
  induction s as [|x s IH]; [done|]. cbn [skip_zeros]. destruct x; [|done..].
  rewrite IH, be_value_cons. lia.
Qed.

(** The number whose bits are read, from bit [s] on. *)
Lemma parse_bits_read n bm s lo krl ca :
  krl_ok krl -> bm_wf bm -> 0 <= s -> s + Z.of_nat n <= 2 ^ 32 -> 1 <= lo ->
  lo + s + Z.of_nat n <= 2 ^ 64 ->
  exists krl', parse_bits n [] bm s lo krl ca = (0, krl', []) /\
    gains krl (serial_facts ca (fun m => s <= m - lo < s + Z.of_nat n /\
                                         Z.testbit (bm_value bm) (m - lo) = true)) krl'.
Proof.
  intros Hok Hbm. revert s krl Hok. induction n as [|n IH]; intros s krl Hok Hs Hn Hlo Hmax;
    cbn [parse_bits].
  { exists krl. split; [done|]. eapply gains_ext; [|by apply gains_none].
    intros []; cbn; try tauto. split; [done|]. intros (_ & ? & _). lia. }
  rewrite (u64_id (lo + s)) by lia. replace (_ && _) with false by lia.
  unfold u32. rewrite Z.mod_small, test_bit_value by (done || lia).
  destruct (Z.testbit (bm_value bm) s) eqn:Et; cbn [Z.b2z Z.eqb].
  - destruct (revoke_serial_gains krl ca (lo + s)) as (krl1 & -> & Hg); [done|lia|].
    cbn [Z.eqb negb]. destruct (IH (s + 1) krl1) as (krl' & -> & Hg'); [apply Hg|lia..|].
    exists krl'. split; [done|]. eapply gains_ext; [|by eapply gains_trans].
    intros [| | |ca' m|]; cbn; try tauto. split.
    + intros [[? ->]|(? & ? & ?)]; (split; [done|]); [|split; [lia|done]].
      replace (lo + s - lo) with s by lia. split; [lia|done].
    + intros (? & ? & ?). destruct (Z.eq_dec m (lo + s)) as [->|]; [by left|].
      right. split; [done|]. split; [lia|done].
  - destruct (IH (s + 1) krl) as (krl' & -> & Hg'); [done|lia..|].
    exists krl'. split; [done|]. eapply gains_ext; [|exact Hg'].
    intros [| | |ca' m|]; cbn; try tauto. split; intros (? & ? & Hb); (split; [done|]); (split; [|done]);
      [lia|]. destruct (Z.eq_dec (m - lo) s) as [E|]; [by rewrite E, Et in Hb|lia].
Qed.

(** The largest bitmap a reader takes has as many bits as the largest number. *)
Lemma nbytes_short v : nbits_of v <= SSHBUF_MAX_BIGNUM * 8 -> nbytes_of v <= SSHBUF_MAX_BIGNUM.
Proof. unfold nbytes_of, SSHBUF_MAX_BIGNUM. dm_lia. Qed.

Lemma testbit_nbits v k : 0 <= v -> Z.testbit v k = true -> k < nbits_of v.
Proof.
  intros Hv Hk. unfold nbits_of. destruct (Z.eqb_spec v 0) as [->|]; [by rewrite Z.bits_0 in Hk|].
  destruct (Z.le_gt_cases k (Z.log2 v)); [lia|]. rewrite Z.bits_above_log2 in Hk by lia. done.
Qed.

Lemma parse_serial_bitmap_read b krl ca lo v :
  krl_ok krl -> 1 <= lo < 2 ^ 64 -> 0 <= v -> lo + nbits_of v <= 2 ^ 64 ->
  nbits_of v <= SSHBUF_MAX_BIGNUM * 8 ->
  reading 1 b (POKE_U64 lo ++ enc_bignum (bitmap_bytes v)) ->
  exists b' krl', parse_serial_bitmap [] b krl ca = (0, b', krl', []) /\
    reading 1 b' [] /\
    gains krl (serial_facts ca (fun n => 0 <= n - lo /\ Z.testbit v (n - lo) = true)) krl'.
Proof.
  intros Hok Hlo Hv Htop Hmax Hb. unfold parse_serial_bitmap.
  destruct (bitmap_new []) as [[bm|] w] eqn:En; [|done].
  assert (w = []) as -> by (by injection En). apply bm_wf_new in En as [Hbm _].
  destruct (read_u64 _ _ _ _ Hb) as (b1 & -> & Hb1); [lia|]. cbn [Z.eqb negb default id].
  set (s := bitmap_bytes v) in *. pose proof (nbytes_of_nonneg v) as Hnn.
  assert (Hls : Z.of_nat (length s) = nbytes_of v) by (unfold s, bitmap_bytes; rewrite length_be_bytes; lia).
  assert (Hsok : bytes_ok s) by apply bytes_ok_be_bytes.
  pose proof (length_skip_zeros s) as Hsz. apply nbytes_short in Hmax as Hbytes.
  rewrite <- (app_nil_r (enc_bignum s)) in Hb1.
  destruct (get_bignum2_read b1 s []) as (b2 & -> & Hb2); [apply Hb1..|lia|].
  cbn [Z.eqb negb default id]. apply (reading_took _ _ _ _ _ Hb1) in Hb2.
  destruct (from_string_ok bm (skip_zeros s) Hbm) as (bm1 & E1).
  { change (BITMAP_MAX / 8) with 2097152. unfold SSHBUF_MAX_BIGNUM in *.
    change (16384 / 8) with 2048 in *. lia. }
  rewrite E1. cbn [Z.eqb negb].
  apply from_string_spec in E1 as [Hbm1 Hv1]; [|done|by apply bytes_ok_skip_zeros].
  specialize (Hv1 eq_refl). rewrite be_value_skip_zeros in Hv1. unfold s, bitmap_bytes in Hv1.
  rewrite be_value_be_bytes in Hv1.
  2:{ rewrite Z2Nat.id by done. split; [done|]. by apply nbytes_of_bound. }
  destruct (nbits_spec bm1 Hbm1) as (bm2 & -> & Hbm2 & Hd & _).
  assert (Hv2 : bm_value bm2 = v) by (unfold bm_value in *; by rewrite Hd). rewrite Hv1.
  assert (0 <= nbits_of v) by (unfold nbits_of; pose proof (Z.log2_nonneg v); case_if; lia).
  destruct (parse_bits_read (Z.to_nat (nbits_of v)) bm2 0 lo krl ca) as (krl' & -> & Hg);
    [done|done|lia|unfold SSHBUF_MAX_BIGNUM in *; change (16384 / 8) with 2048 in *; lia|lia|lia|].
  exists b2, krl'. split; [done|]. split; [done|]. eapply gains_ext; [|exact Hg].
  intros [| | |ca' m|]; cbn; try tauto. rewrite Hv2, Z2Nat.id by done.
  split; intros (? & ? & ?); (split; [done|]); (split; [|done]); [lia|].
  pose proof (testbit_nbits v (m - lo) Hv). intuition lia.
Qed.

Lemma parse_key_ids_read l fuel b krl ca :
  krl_ok krl -> Forall text l -> (length l < fuel)%nat -> reading 1 b (flat_map enc_string l) ->
  exists b' krl', parse_key_ids fuel [] b krl ca = (0, b', krl', []) /\
    reading 1 b' [] /\ gains krl (key_id_facts ca l) krl'.
Proof.
  revert fuel b krl. induction l as [|kid l IH]; intros fuel b krl Hok Hl Hf Hb;
    (destruct fuel as [|fuel]; [cbn in Hf; lia|]); cbn [parse_key_ids flat_map length] in *.
  - rewrite (read_len _ _ _ Hb). cbn. exists b, krl. split; [done|]. split; [done|].
    eapply gains_ext; [|by apply gains_none]. intros []; cbn; set_unfold; tauto.
  - apply Forall_cons in Hl as [[_ Hkid] Hl]. rewrite (read_len _ _ _ Hb).
    rewrite length_app, length_enc_string. replace (_ >? 0) with true by lia. cbn [negb].
    destruct (read_cstring _ _ _ _ Hb Hkid) as (b1 & -> & Hb1). cbn [Z.eqb negb default id].
    rewrite c_string_text by done.
    destruct (revoke_key_id_gains krl ca kid Hok) as (krl1 & -> & Hg). cbn [Z.eqb negb].
    destruct (IH fuel b1 krl1) as (b' & krl' & -> & Hb' & Hg'); [apply Hg|done|lia|done|].
    exists b', krl'. split; [done|]. split; [done|].
    eapply gains_ext; [|by eapply gains_trans]. intros []; cbn; set_unfold; tauto.
Qed.

(** ** Subsections *)

Lemma count_up_elem n x m : m ∈ count_up n x <-> x <= m < x + Z.of_nat n.
Proof.
  revert x. induction n as [|n IH]; intros x; cbn [count_up]; set_unfold; [lia|]. rewrite IH. lia.
Qed.

Lemma range_list_elem l n : n ∈ flat_map range_list l <-> serials_mem n l.
Proof.
  induction l as [|x l IH]; cbn [flat_map]; [rewrite serials_mem_nil; set_solver|].
  rewrite elem_of_app, serials_mem_cons, IH. unfold range_list, rs_mem. rewrite count_up_elem.
  assert (rs_lo x <= n < rs_lo x + Z.of_nat (Z.to_nat (rs_hi x - rs_lo x + 1)) <-> rs_lo x <= n <= rs_hi x)
    by lia. tauto.
Qed.

Lemma serials_mem_range l n : Forall serial_ok l -> serials_mem n l -> 1 <= n < 2 ^ 64.
Proof.
  intros Hl Hn. induction Hn as [x l Hx|x l _ IH]; apply Forall_cons in Hl as [[? ?] ?].
  - unfold rs_mem in Hx. lia.
  - by apply IH.
Qed.

Lemma length_flat_map {A} (f : A -> list Z) l : (forall x, 1 <= length (f x))%nat ->
  (length l <= length (flat_map f l))%nat.
Proof.
  intros Hf. induction l as [|x l IH]; cbn [flat_map length]; [lia|]. rewrite length_app.
  specialize (Hf x). lia.
Qed.

(** A bitmap section that a reader will take: it spans as many numbers as the
    largest number has bits. *)
Definition section_fits (s : section) : Prop :=
  s.1 = BITMAP -> forall x l n, s.2 = x :: l -> serials_mem n s.2 ->
    n - rs_lo x < SSHBUF_MAX_BIGNUM * 8.

Lemma bits_of_top x l v :
  Forall serial_ok (x :: l) -> bits_of (rs_lo x) (x :: l) v -> v <> 0 ->
  serials_mem (rs_lo x + nbits_of v - 1) (x :: l).
Proof.
  intros Hl [Hv Hb] Hne. unfold nbits_of. rewrite (proj2 (Z.eqb_neq v 0)) by done.
  replace (rs_lo x + (Z.log2 v + 1) - 1) with (rs_lo x + Z.log2 v) by lia.
  apply Hb; [apply Z.log2_nonneg|]. apply Z.bit_log2. lia.
Qed.

Lemma payload_read s p b krl ca :
  payload s p -> Forall serial_ok s.2 -> serials_ok s.2 -> section_fits s ->
  krl_ok krl -> reading 1 b p ->
  exists b' krl', parse_subsection [] s.1 b krl ca = (0, b', krl', []) /\ reading 1 b' [] /\
    gains krl (serial_facts ca (fun n => serials_mem n s.2)) krl'.
Proof.
  intros Hp Hs Hok Hfit Hk Hb. unfold parse_subsection. pose proof (read_len _ _ _ Hb) as Hlen.
  destruct s as [type l]. cbn [fst snd] in *. destruct Hp as [[Ht Hp]|[(Ht & x & Hx & Hp)|(Ht & x & l' & v & Hx & Hv & Hp)]];
    cbn [fst snd] in *; subst type.
  - change (LIST =? KRL_SECTION_CERT_SERIAL_LIST) with true. cbv iota. subst p.
    destruct (parse_serial_list_read (flat_map range_list l) (S (Z.to_nat (sshbuf_len b))) b krl ca)
      as (b' & krl' & -> & ? & Hg); [done| | |done|].
    + apply Forall_forall. intros n Hn. apply range_list_elem in Hn. by eapply serials_mem_range.
    + pose proof (length_flat_map POKE_U64 (flat_map range_list l) ltac:(intros; cbn; lia)). lia.
    + exists b', krl'. split; [done|]. split; [done|]. eapply gains_ext; [|exact Hg].
      intros [| | |ca' n|]; cbn; try tauto. by rewrite range_list_elem.
  - change (RANGE =? KRL_SECTION_CERT_SERIAL_LIST) with false.
    change (RANGE =? KRL_SECTION_CERT_SERIAL_RANGE) with true. cbv iota. subst l p.
    apply Forall_cons in Hs as [Hx _].
    destruct (parse_serial_range_read b krl ca x) as (b' & krl' & -> & ? & Hg); [done..|].
    exists b', krl'. split; [done|]. split; [done|]. eapply gains_ext; [|exact Hg].
    intros [| | |ca' n|]; cbn; try tauto. rewrite serials_mem_cons, serials_mem_nil. tauto.
  - change (BITMAP =? KRL_SECTION_CERT_SERIAL_LIST) with false.
    change (BITMAP =? KRL_SECTION_CERT_SERIAL_RANGE) with false.
    change (BITMAP =? KRL_SECTION_CERT_SERIAL_BITMAP) with true. cbv iota. subst l p.
    pose proof (proj1 (Forall_cons _ _ _) Hs) as [[Hx1 Hx2] _].
    assert (Htop : rs_lo x + nbits_of v <= 2 ^ 64 /\ nbits_of v <= SSHBUF_MAX_BIGNUM * 8).
    { destruct (Z.eq_dec v 0) as [->|Hne]; [split; [cbn; lia|done]|].
      pose proof (bits_of_top x l' v Hs Hv Hne) as Hm.
      pose proof (serials_mem_range _ _ Hs Hm). specialize (Hfit eq_refl x l' _ eq_refl Hm). lia. }
    destruct (parse_serial_bitmap_read b krl ca (rs_lo x) v) as (b' & krl' & -> & ? & Hg);
      [done|lia|apply Hv|lia|lia|done|].
    exists b', krl'. split; [done|]. split; [done|]. eapply gains_ext; [|exact Hg].
    intros [| | |ca' n|]; cbn; try tauto. destruct Hv as [_ Hv].
    assert (Hlow : serials_mem n (x :: l') -> 0 <= n - rs_lo x).
    { rewrite serials_mem_cons. intros [Hn|Hn]; [unfold rs_mem in Hn; lia|].
      apply serials_ok_cons in Hok as (Hxr & _ & Hgap). apply (serials_above n x) in Hn; [|done].
      unfold rs_ok in Hxr. lia. }
    specialize (Hv (n - rs_lo x)). replace (rs_lo x + (n - rs_lo x)) with n in Hv by lia. tauto.
Qed.

(** One round of the loop over subsections. *)
Lemma parse_subsections_step fuel sub b krl ca type p rest F :
  looping sub b ([type] ++ enc_string p ++ rest) ->
  (forall c, reading 1 c p -> exists c' krl', parse_subsection [] type c krl ca = (0, c', krl', []) /\
     reading 1 c' [] /\ gains krl F krl') ->
  exists sub' b' krl', gains krl F krl' /\ looping sub' b' rest /\
    parse_subsections (S fuel) [] b sub krl ca = parse_subsections fuel [] b' sub' krl' ca.
Proof.
  intros Hb Hp. cbn [parse_subsections]. rewrite (looping_len _ _ _ Hb).
  rewrite !length_app, length_enc_string. replace (_ >? 0) with true by (cbn; lia). cbn [negb].
  apply looping_release in Hb. destruct (read_u8 _ _ _ _ Hb) as (b1 & -> & Hb1). cbn [Z.eqb negb].
  destruct (read_froms _ _ _ 2 Hb1) as (c & b2 & -> & Hc & Hb2). cbn [default id].
  destruct (Hp c Hc) as (c' & krl' & -> & Hc' & Hg). cbn [Z.eqb negb].
  rewrite (read_len _ _ _ Hc'). cbn [length Z.of_nat Z.gtb Z.compare].
  by exists (Some c'), b2, krl'.
Qed.

Lemma parse_subsections_end fuel sub b krl ca :
  looping sub b [] -> parse_subsections (S fuel) [] b sub krl ca = (0, release_opt sub b, krl, []).
Proof. intros Hb. cbn [parse_subsections]. by rewrite (looping_len _ _ _ Hb). Qed.

(** What the sections say together. *)
Definition section_good (s : section) : Prop :=
  Forall serial_ok s.2 /\ serials_ok s.2 /\ section_fits s.

Lemma parse_sections_of_serials secs q fuel sub b krl ca rest :
  sections_bytes secs q -> Forall section_good secs -> krl_ok krl ->
  looping sub b (q ++ rest) -> (length q + length rest < fuel)%nat ->
  exists fuel' sub' b' krl', (length rest < fuel')%nat /\ looping sub' b' rest /\
    gains krl (serial_facts ca (fun n => serials_mem n (concat (map snd secs)))) krl' /\
    parse_subsections fuel [] b sub krl ca = parse_subsections fuel' [] b' sub' krl' ca.
Proof.
  intros Hq. revert fuel sub b krl. induction Hq as [|s p secs q Hp Hq IH];
    intros fuel sub b krl Hgood Hok Hb Hf.
  - exists fuel, sub, b, krl. cbn in *. split; [lia|]. split; [done|]. split; [|done].
    eapply gains_ext; [|by apply gains_none].
    intros [| | |ca' n|]; cbn; try tauto. rewrite serials_mem_nil. tauto.
  - apply Forall_cons in Hgood as [(H1 & H2 & H3) Hgood].
    rewrite !length_app, length_enc_string in Hf. cbn [length] in Hf.
    destruct fuel as [|fuel]; [lia|]. rewrite <- !app_assoc in Hb.
    destruct (parse_subsections_step fuel sub b krl ca (s.1) p (q ++ rest) _ Hb
      (fun c Hc => payload_read s p c krl ca Hp H1 H2 H3 Hok Hc)) as (sub1 & b1 & krl1 & Hg & Hb1 & ->).
    destruct (IH fuel sub1 b1 krl1) as (fuel' & sub' & b' & krl' & ? & ? & Hg' & ->); [done|apply Hg|done|lia|].
    exists fuel', sub', b', krl'. split; [done|]. split; [done|]. split; [|done].
    eapply gains_ext; [|by eapply gains_trans]. intros [| | |ca' n|]; cbn; try tauto.
    rewrite serials_mem_app. tauto.
Qed.

Lemma parse_key_id_section l fuel sub b krl ca :
  Forall text l -> krl_ok krl -> looping sub b (strings_section KRL_SECTION_CERT_KEY_ID l) ->
  (length (strings_section KRL_SECTION_CERT_KEY_ID l) < fuel)%nat ->
  exists b' krl', parse_subsections fuel [] b sub krl ca = (0, b', krl', []) /\ reading 1 b' [] /\
    gains krl (key_id_facts ca l) krl'.
Proof.
  intros Hl Hok Hb Hf. destruct l as [|x l].
  - cbn [strings_section] in *. destruct fuel as [|fuel]; [lia|].
    rewrite parse_subsections_end by done. eexists _, krl. split; [done|].
    split; [by apply looping_release|]. eapply gains_ext; [|by apply gains_none].
    intros []; cbn; set_unfold; tauto.
  - unfold strings_section in *. set (p := flat_map enc_string (x :: l)) in *.
    rewrite length_app, length_enc_string in Hf. destruct fuel as [|fuel]; [lia|].
    rewrite <- (app_nil_r (enc_string p)) in Hb.
    destruct (parse_subsections_step fuel sub b krl ca KRL_SECTION_CERT_KEY_ID p []
      (key_id_facts ca (x :: l)) Hb) as (sub1 & b1 & krl1 & Hg & Hb1 & ->).
    + intros c Hc. unfold parse_subsection.
      change (KRL_SECTION_CERT_KEY_ID =? KRL_SECTION_CERT_SERIAL_LIST) with false.
      change (KRL_SECTION_CERT_KEY_ID =? KRL_SECTION_CERT_SERIAL_RANGE) with false.
      change (KRL_SECTION_CERT_KEY_ID =? KRL_SECTION_CERT_SERIAL_BITMAP) with false.
      change (KRL_SECTION_CERT_KEY_ID =? KRL_SECTION_CERT_KEY_ID) with true. cbv iota.
      apply parse_key_ids_read; [done..| |done]. rewrite (read_len _ _ _ Hc).
      pose proof (length_flat_map enc_string (x :: l) ltac:(intros; cbn; lia)). unfold p. lia.
    + destruct fuel as [|fuel]; [cbn in Hf; lia|]. rewrite parse_subsections_end by done.
      eexists _, krl1. split; [done|]. split; [by apply looping_release|done].
Qed.

(** ** The section of one CA *)

Definition certs_facts rc (f : fact) : Prop :=
  serial_facts (rc_ca_key rc) (fun n => serials_mem n (rc_serials rc)) f \/
  key_id_facts (rc_ca_key rc) (rc_key_ids rc) f.

Definition rc_fits rc : Prop := Forall section_fits (split_sections 0 0 [] (rc_serials rc)).

Lemma sections_good secs l :
  concat (map snd secs) = l -> Forall serial_ok l -> serials_ok l -> Forall section_fits secs ->
  Forall section_good secs.
Proof.
  intros <- Hl Hok Hf. induction Hf as [|s secs Hs _ IH]; [constructor|]. cbn [map concat] in *.
  apply Forall_app in Hl as [? ?]. apply serials_ok_app in Hok as (? & ? & _).
  constructor; [by split_and!|by apply IH].
Qed.

Lemma same_ca_trans a b c : same_ca a b -> same_ca b c -> same_ca a c.
Proof. unfold same_ca. destruct a, b, c; try done. apply equal_trans. Qed.

(** The CA key is read back as an equal key. *)
Lemma read_ca rc slack :
  ca_storable (rc_ca_key rc) ->
  exists ca, (if negb (Z.of_nat (length (ca_blob rc)) =? 0)
     then sshkey_from_blob [] (take (Z.to_nat (Z.of_nat (length (ca_blob rc)))) (ca_blob rc ++ slack))
     else (0, None, [])) = (0, ca, []) /\ forall x, same_ca ca x <-> same_ca (rc_ca_key rc) x.
Proof.
  intros Hca. rewrite Nat2Z.id, take_app_length. unfold ca_blob, ca_storable in *.
  destruct (rc_ca_key rc) as [k|]; [|by exists None].
  destruct Hca as (Hc & Hne & Hb). destruct (from_blob_reads k Hc Hne) as (k' & E & Heq).
  rewrite (proj2 (Z.eqb_neq _ 0)) by (destruct (pub_blob k); [done|cbn; lia]). cbn [negb].
  exists (Some k'). split; [done|]. intros x. split; apply same_ca_trans; cbn; [|done].
  by apply equal_sym.
Qed.

Lemma parse_revoked_certs_read rc p b krl :
  certs_bytes rc p -> rc_ok rc -> rc_storable rc -> rc_fits rc -> krl_ok krl -> reading 1 b p ->
  exists b' krl', parse_revoked_certs [] b krl = (0, b', krl', []) /\ reading 1 b' [] /\
    gains krl (certs_facts rc) krl'.
Proof.
  intros (q & Hq & ->) [Hser _] (Hca & Hso & Hids) Hfit Hok Hb. unfold parse_revoked_certs.
  destruct (sshbuf_new []) as [[sub|] w] eqn:En; [|done]. assert (w = []) as -> by (by injection En).
  destruct (read_direct _ _ _ _ Hb) as (slack & b1 & -> & Hb1). cbn [Z.eqb negb].
  destruct (read_skip _ _ [] _ Hb1) as (b2 & -> & Hb2). cbn [Z.eqb negb default id].
  destruct (read_ca rc slack Hca) as (ca & E & Hsame).
  match goal with |- context [if negb ?c then sshkey_from_blob ?w ?x else ?y] =>
    change (if negb c then sshkey_from_blob w x else y) with
      (if negb c then sshkey_from_blob [] x else (0, None, [])); rewrite E end.
  cbn [Z.eqb negb].
  pose proof (read_len _ _ _ Hb2) as Hlen. rewrite length_app in Hlen.
  assert (Hcat : concat (map snd (split_sections 0 0 [] (rc_serials rc))) = rc_serials rc).
  { rewrite split_sections_concat; [done..|]. apply Hser. }
  destruct (parse_sections_of_serials _ q (S (Z.to_nat (sshbuf_len b2))) None b2 krl ca _ Hq
    (sections_good _ _ Hcat Hso Hser Hfit) Hok Hb2) as (fuel & sub1 & b3 & krl1 & Hf & Hb3 & Hg & ->);
    [lia|].
  destruct (parse_key_id_section (rc_key_ids rc) fuel sub1 b3 krl1 ca)
    as (b4 & krl2 & -> & Hb4 & Hg2); [done|apply Hg|done..|].
  exists b4, krl2. split; [done|]. split; [done|].
  eapply gains_ext; [|by eapply gains_trans]. rewrite Hcat.
  intros [| | |ca' n|ca' kid]; unfold certs_facts; cbn; rewrite ?Hsame; tauto.
Qed.

(** ** Sections of keys and hashes *)

Lemma blob_section_read l fuel b t len :
  StronglySorted (fun x y => blob_cmp x y < 0) t ->
  Forall (fun h => bytes_ok h) l -> (len = 0 \/ Forall (fun h : list Z => Z.of_nat (length h) = len) l) ->
  (length l < fuel)%nat -> reading 1 b (flat_map enc_string l) ->
  exists b' t', blob_section fuel [] b t len = (0, b', t', []) /\ reading 1 b' [] /\
    StronglySorted (fun x y => blob_cmp x y < 0) t' /\ forall x, x ∈ t' <-> x ∈ t \/ x ∈ l.
Proof.
  revert fuel b t. induction l as [|h l IH]; intros fuel b t Ht Hl Hlen Hf Hb;
    (destruct fuel as [|fuel]; [cbn in Hf; lia|]); cbn [blob_section flat_map length] in *.
  - rewrite (read_len _ _ _ Hb). cbn. exists b, t. split; [done|]. split; [done|]. split; [done|].
    intros x. set_unfold. tauto.
  - apply Forall_cons in Hl as [Hh Hl]. rewrite (read_len _ _ _ Hb).
    rewrite length_app, length_enc_string. replace (_ >? 0) with true by lia. cbn [negb].
    destruct (read_string _ _ _ _ Hb) as (b1 & -> & Hb1). cbn [Z.eqb negb default id].
    replace (negb (len =? 0) && negb (Z.of_nat (length h) =? len)) with false.
    2:{ destruct Hlen as [->|Hlen]; [done|]. apply Forall_cons in Hlen as [<- _]. rewrite Z.eqb_refl. lia. }
    rewrite Nat2Z.id, take_app_length.
    destruct (revoke_blob [] t h) as [[r t1] w] eqn:E.
    assert (r = 0 /\ w = []) as [-> ->] by (unfold revoke_blob in E; by injection E).
    apply revoke_blob_spec in E as [Ht1 Hm1]; [|done]. cbn [Z.eqb negb].
    destruct (IH fuel b1 t1) as (b' & t' & -> & Hb' & Ht' & Hm'); [done..| |lia|done|].
    { destruct Hlen as [->|Hlen]; [by left|right]. by apply Forall_cons in Hlen as [_ ?]. }
    exists b', t'. split; [done|]. split; [done|]. split; [done|].
    intros x. rewrite Hm', Hm1. set_unfold. tauto.
Qed.

Lemma hashes_len n l : hashes n l -> Forall (fun h : list Z => Z.of_nat (length h) = Z.of_nat n) l.
Proof. intros H. eapply Forall_impl; [exact H|]. intros h [_ ->]. done. Qed.

(** ** Sections *)

(** [type] and [p] are a section that adds the facts of [F]. *)
Definition section_adds (type : Z) (p : list Z) (F : fact (key := key) -> Prop) : Prop :=
  forall krl c copy, krl_ok krl -> reading 1 c p ->
    exists c' krl', parse_section [] type copy c krl = (0, copy, Some c', krl', []) /\
      reading 1 c' [] /\ gains krl F krl'.

Lemma parse_sections_step fuel sub b krl type p rest F :
  looping sub b ([type] ++ enc_string p ++ rest) -> section_adds type p F -> krl_ok krl ->
  exists sub' b' krl', gains krl F krl' /\ looping sub' b' rest /\
    parse_sections (S fuel) [] b sub krl = parse_sections fuel [] b' sub' krl'.
Proof.
  intros Hb Hp Hok. cbn [parse_sections]. rewrite (looping_len _ _ _ Hb).
  rewrite !length_app, length_enc_string. replace (_ >? 0) with true by (cbn; lia). cbn [negb].
  apply looping_release in Hb. destruct (read_u8 _ _ _ _ Hb) as (b1 & -> & Hb1). cbn [Z.eqb negb].
  destruct (read_froms _ _ _ 1 Hb1) as (c & b2 & -> & Hc & Hb2). cbn [default id].
  destruct (Hp krl c b2 Hok Hc) as (c' & krl' & -> & Hc' & Hg). cbn [Z.eqb negb].
  rewrite (read_len _ _ _ Hc'). cbn [length Z.of_nat Z.gtb Z.compare].
  by exists (Some c'), b2, krl'.
Qed.

Lemma parse_sections_end fuel sub b krl :
  looping sub b [] -> parse_sections (S fuel) [] b sub krl = (0, release_opt sub b, krl, []).
Proof. intros Hb. cbn [parse_sections]. by rewrite (looping_len _ _ _ Hb). Qed.

Lemma certs_section_adds rc p :
  certs_bytes rc p -> rc_ok rc -> rc_storable rc -> rc_fits rc ->
  section_adds KRL_SECTION_CERTIFICATES p (certs_facts rc).
Proof.
  intros Hp H1 H2 H3 krl c copy Hok Hc.
  destruct (parse_revoked_certs_read rc p c krl) as (c' & krl' & E & ?); [done..|].
  exists c', krl'. split; [|done]. unfold parse_section. rewrite Z.eqb_refl, E. done.
Qed.

(** The three kinds of sections of strings. *)
Definition keys_facts (l : list (list Z)) (f : fact (key := key)) : Prop :=
  match f with FKey x => x ∈ l | _ => False end.
Definition sha1_facts (l : list (list Z)) (f : fact (key := key)) : Prop :=
  match f with FSha1 x => x ∈ l | _ => False end.
Definition sha256_facts (l : list (list Z)) (f : fact (key := key)) : Prop :=
  match f with FSha256 x => x ∈ l | _ => False end.

Lemma keys_nil l : l = [] -> forall f, ~ keys_facts l f.
Proof. intros -> []; cbn; set_solver. Qed.
Lemma sha1_nil l : l = [] -> forall f, ~ sha1_facts l f.
Proof. intros -> []; cbn; set_solver. Qed.
Lemma sha256_nil l : l = [] -> forall f, ~ sha256_facts l f.
Proof. intros -> []; cbn; set_solver. Qed.

Lemma section_fuel (c : sshbuf) (l : list (list Z)) :
  reading 1 c (flat_map enc_string l) -> (length l < S (Z.to_nat (sshbuf_len c)))%nat.
Proof.
  intros Hc. rewrite (read_len _ _ _ Hc).
  pose proof (length_flat_map enc_string l ltac:(intros; cbn; lia)). lia.
Qed.

Lemma keys_section_adds l :
  Forall (fun h => bytes_ok h) l ->
  section_adds KRL_SECTION_EXPLICIT_KEY (flat_map enc_string l) (keys_facts l).
Proof.
  intros Hl krl c copy Hok Hc. pose proof Hok as (Hk & Hs & Hs' & Hrc).
  destruct (blob_section_read l (S (Z.to_nat (sshbuf_len c))) c (revoked_keys krl) 0)
    as (c' & t & E & Hc' & Ht & Hm); [done..|by left|by apply section_fuel|done|].
  exists c', (set_keys krl t). split; [unfold parse_section; cbn -[blob_section]; by rewrite E|].
  split; [done|]. split; [done|]. split; [done|]. intros []; cbn; try tauto. apply Hm.
Qed.

Lemma sha1_section_adds l :
  hashes 20 l -> section_adds KRL_SECTION_FINGERPRINT_SHA1 (flat_map enc_string l) (sha1_facts l).
Proof.
  intros Hl krl c copy Hok Hc. pose proof Hok as (Hk & Hs & Hs' & Hrc).
  destruct (blob_section_read l (S (Z.to_nat (sshbuf_len c))) c (revoked_sha1s krl) 20)
    as (c' & t & E & Hc' & Ht & Hm);
    [done|by eapply hashes_bytes|right; by apply hashes_len in Hl|by apply section_fuel|done|].
  exists c', (set_sha1s krl t). split; [unfold parse_section; cbn -[blob_section]; by rewrite E|].
  split; [done|]. split; [done|]. split; [done|]. intros []; cbn; try tauto. apply Hm.
Qed.

Lemma sha256_section_adds l :
  hashes 32 l -> section_adds KRL_SECTION_FINGERPRINT_SHA256 (flat_map enc_string l) (sha256_facts l).
Proof.
  intros Hl krl c copy Hok Hc. pose proof Hok as (Hk & Hs & Hs' & Hrc).
  destruct (blob_section_read l (S (Z.to_nat (sshbuf_len c))) c (revoked_sha256s krl) 32)
    as (c' & t & E & Hc' & Ht & Hm);
    [done|by eapply hashes_bytes|right; by apply hashes_len in Hl|by apply section_fuel|done|].
  exists c', (set_sha256s krl t). split; [unfold parse_section; cbn -[blob_section]; by rewrite E|].
  split; [done|]. split; [done|]. split; [done|]. intros []; cbn; try tauto. apply Hm.
Qed.

(** Reading on after a section that may have been left out. *)
Lemma parse_strings_section type l fuel sub b krl rest F :
  section_adds type (flat_map enc_string l) F -> (l = [] -> forall f, ~ F f) -> krl_ok krl ->
  looping sub b (strings_section type l ++ rest) ->
  (length (strings_section type l ++ rest) < fuel)%nat ->
  exists fuel' sub' b' krl', (length rest < fuel')%nat /\ looping sub' b' rest /\
    gains krl F krl' /\ parse_sections fuel [] b sub krl = parse_sections fuel' [] b' sub' krl'.
Proof.
  intros Hadd Hnil Hok Hb Hf. destruct l as [|x l].
  - exists fuel, sub, b, krl. cbn [strings_section app] in *. split; [done|]. split; [done|].
    split; [|done]. eapply gains_ext; [|by apply gains_none]. intros f. specialize (Hnil eq_refl f). tauto.
  - unfold strings_section in *. rewrite !length_app in Hf. cbn [length] in Hf.
    destruct fuel as [|fuel]; [lia|]. rewrite <- app_assoc in Hb.
    destruct (parse_sections_step fuel sub b krl type _ rest F Hb Hadd Hok)
      as (sub' & b' & krl' & Hg & Hb' & ->).
    exists fuel, sub', b', krl'. split; [lia|]. done.
Qed.

Lemma parse_all_certs l ps fuel sub b krl rest :
  Forall2 certs_bytes l ps -> Forall rc_ok l -> Forall rc_storable l -> Forall rc_fits l -> krl_ok krl ->
  looping sub b (flat_map put_certs_section ps ++ rest) ->
  (length (flat_map put_certs_section ps ++ rest) < fuel)%nat ->
  exists fuel' sub' b' krl', (length rest < fuel')%nat /\ looping sub' b' rest /\
    gains krl (fun f => Exists (fun rc => certs_facts rc f) l) krl' /\
    parse_sections fuel [] b sub krl = parse_sections fuel' [] b' sub' krl'.
Proof.
  intros Hps. revert fuel sub b krl. induction Hps as [|rc p l ps Hp _ IH];
    intros fuel sub b krl H1 H2 H3 Hok Hb Hf.
  - exists fuel, sub, b, krl. split; [done|]. split; [done|]. split; [|done].
    eapply gains_ext; [|by apply gains_none]. intros f. by rewrite Exists_nil.
  - apply Forall_cons in H1 as [H1' H1]. apply Forall_cons in H2 as [H2' H2].
    apply Forall_cons in H3 as [H3' H3]. cbn [flat_map] in *. unfold put_certs_section at 1 in Hb.
    unfold put_certs_section at 1 in Hf. rewrite <- !app_assoc in Hb. rewrite !length_app in Hf.
    cbn [length] in Hf. destruct fuel as [|fuel]; [lia|].
    destruct (parse_sections_step fuel sub b krl _ p _ _ Hb (certs_section_adds rc p Hp H1' H2' H3') Hok)
      as (sub1 & b1 & krl1 & Hg & Hb1 & ->).
    destruct (IH fuel sub1 b1 krl1) as (fuel' & sub' & b' & krl' & Hf' & Hb' & Hg' & ->);
      [done..|apply Hg|done|rewrite length_app; lia|].
    exists fuel', sub', b', krl'. split; [done|]. split; [done|]. split; [|done].
    eapply gains_ext; [|by eapply gains_trans]. intros f. by rewrite Exists_cons.
Qed.

(** ** The whole file *)

Definition empty_krl : ssh_krl key := mk_krl 0 0 0 None [] [] [] [].

(** The facts of the whole list, section by section. *)
Definition listed krl (f : fact (key := key)) : Prop :=
  Exists (fun rc => certs_facts rc f) (krl_revoked_certs krl) \/
  keys_facts (revoked_keys krl) f \/ sha1_facts (revoked_sha1s krl) f \/
  sha256_facts (revoked_sha256s krl) f.

Definition fits krl : Prop := Forall rc_fits (krl_revoked_certs krl).

Lemma parse_body krl ps fuel b krl0 :
  Forall2 certs_bytes (krl_revoked_certs krl) ps -> krl_ok krl -> storable krl -> fits krl ->
  krl_ok krl0 -> reading 1 b (body_bytes krl ps) -> (length (body_bytes krl ps) < fuel)%nat ->
  exists b' krl', parse_sections fuel [] b None krl0 = (0, b', krl', []) /\ reading 1 b' [] /\
    gains krl0 (listed krl) krl'.
Proof.
  intros Hps (_ & _ & _ & Hrc) (_ & _ & _ & _ & Hk & H1 & H2 & Hst) Hfit Hok Hb Hf.
  unfold body_bytes in *.
  destruct (parse_all_certs _ ps fuel None b krl0 _ Hps Hrc Hst Hfit Hok Hb Hf)
    as (fuel1 & sub1 & b1 & krl1 & Hf1 & Hb1 & Hg1 & ->).
  destruct (parse_strings_section _ _ fuel1 sub1 b1 krl1 _ _ (keys_section_adds _ Hk)
    (keys_nil _) (proj1 Hg1) Hb1 Hf1) as (fuel2 & sub2 & b2 & krl2 & Hf2 & Hb2 & Hg2 & ->).
  destruct (parse_strings_section _ _ fuel2 sub2 b2 krl2 _ _ (sha1_section_adds _ H1)
    (sha1_nil _) (proj1 Hg2) Hb2 Hf2) as (fuel3 & sub3 & b3 & krl3 & Hf3 & Hb3 & Hg3 & ->).
  rewrite <- (app_nil_r (strings_section _ (revoked_sha256s krl))) in Hb3, Hf3.
  destruct (parse_strings_section _ _ fuel3 sub3 b3 krl3 _ _ (sha256_section_adds _ H2)
    (sha256_nil _) (proj1 Hg3) Hb3 Hf3) as (fuel4 & sub4 & b4 & krl4 & Hf4 & Hb4 & Hg4 & ->).
  destruct fuel4 as [|fuel4]; [lia|]. rewrite parse_sections_end by done.
  eexists _, krl4. split; [done|]. split; [by apply looping_release|].
  eapply gains_ext; [|exact (gains_trans _ _ _ _ _ Hg1 (gains_trans _ _ _ _ _ Hg2 (gains_trans _ _ _ _ _ Hg3 Hg4)))].
  done.
Qed.

Lemma parse_copy_read krl ps b krl0 :
  Forall2 certs_bytes (krl_revoked_certs krl) ps -> krl_ok krl -> storable krl -> fits krl ->
  krl_ok krl0 -> reading 1 b (header_bytes krl ++ body_bytes krl ps) ->
  exists b' krl', parse_copy [] b krl0 = (0, b', krl', []) /\ reading 1 b' [] /\
    gains (set_header krl0 (krl_version krl) (generated_date krl) (krl_flags krl) (comment_bytes krl))
      (listed krl) krl'.
Proof.
  intros Hps Hok Hst Hfit Hok0 Hb. pose proof Hst as (Hv & Hd & Hfl & [_ Hcm] & _).
  unfold parse_copy, header_bytes in *. rewrite <- !app_assoc in Hb.
  destruct (consume_took b 8) as (b1 & E & Hw1 & Hc1 & Hf1); [apply Hb| |].
  { destruct Hb as (_ & -> & _). rewrite length_app. cbn. lia. }
  change (Z.of_nat 8) with 8 in E. rewrite E. cbn [Z.eqb negb].
  assert (Hb1 : reading 1 b1 (POKE_U32 KRL_FORMAT_VERSION ++ POKE_U64 (krl_version krl) ++
    POKE_U64 (generated_date krl) ++ POKE_U64 (krl_flags krl) ++ enc_string [] ++
    enc_string (comment_bytes krl) ++ body_bytes krl ps)).
  { eapply reading_took; [exact Hb|]. split; [done|]. split; [|done].
    destruct Hb as (_ & Hc & _). rewrite Hc in Hc1.
    change (take 8 (KRL_MAGIC ++ ?x)) with KRL_MAGIC in Hc1. by apply app_inv_head in Hc1. }
  clear b E Hw1 Hc1 Hf1 Hb.
  destruct (read_u32 _ _ _ _ Hb1) as (b2 & -> & Hb2); [done|]. cbn [Z.eqb negb default id].
  rewrite Z.eqb_refl. cbn [negb].
  destruct (read_u64 _ _ _ _ Hb2) as (b3 & -> & Hb3); [done|]. cbn [Z.eqb negb].
  destruct (read_u64 _ _ _ _ Hb3) as (b4 & -> & Hb4); [done|]. cbn [Z.eqb negb].
  destruct (read_u64 _ _ _ _ Hb4) as (b5 & -> & Hb5); [done|]. cbn [Z.eqb negb].
  destruct (read_skip _ _ [] _ Hb5) as (b6 & -> & Hb6). cbn [Z.eqb negb].
  destruct (read_cstring _ _ _ _ Hb6 Hcm) as (b7 & -> & Hb7). cbn [Z.eqb negb default id].
  rewrite c_string_text by done.
  apply parse_body with (ps := ps); [done..|]. rewrite (read_len _ _ _ Hb7). lia.
Qed.

Lemma magic_cmp b rest : wf b -> contents b = KRL_MAGIC ++ rest -> sshbuf_cmp b 0 KRL_MAGIC 8 = 0.
Proof.
  intros Hwf Hc. unfold sshbuf_cmp. destruct (sshbuf_ptr_spec b Hwf) as [slack ->].
  rewrite sshbuf_len_contents, Hc, length_app by done.
  change (_ || _ || _) with false. cbv iota. replace (_ >? _) with false by (cbn; lia).
  by replace (negb _) with false by reflexivity.
Qed.

Lemma from_blob_read krl ps b :
  Forall2 certs_bytes (krl_revoked_certs krl) ps -> krl_ok krl -> storable krl -> fits krl ->
  reading 1 b (header_bytes krl ++ body_bytes krl ps) ->
  exists b' krl', ssh_krl_from_blob [] b = (0, Some krl', b', []) /\
    reading 1 b' (header_bytes krl ++ body_bytes krl ps) /\
    gains (set_header empty_krl (krl_version krl) (generated_date krl) (krl_flags krl) (comment_bytes krl))
      (listed krl) krl'.
Proof.
  intros Hps Hok Hst Hfit Hb. unfold ssh_krl_from_blob.
  rewrite (magic_cmp b (drop 8 (header_bytes krl ++ body_bytes krl ps)));
    [|apply Hb|destruct Hb as (_ & -> & _); reflexivity].
  cbn [Z.eqb negb ssh_krl_init malloc].
  destruct (read_fromb _ _ 0 Hb) as (c & b1 & -> & Hc & Hb1).
  fold empty_krl. destruct (parse_copy_read krl ps c empty_krl) as (c' & krl' & -> & Hc' & Hg); [done..| |done|].
  { split_and!; constructor. }
  cbn [Z.eqb]. eexists _, krl'. split; [done|]. split; [by eapply release_reading|done].
Qed.

(** ** Entries of distinct CAs *)

Definition distinct_cas krl : Prop :=
  ForallOrdPairs (fun a b => ~ same_ca a b) (map rc_ca_key (krl_revoked_certs krl)).

Lemma ca_matches_same ca rc : ca_matches ca rc = true <-> same_ca (rc_ca_key rc) ca.
Proof. unfold ca_matches, same_ca. by destruct ca, (rc_ca_key rc). Qed.

Lemma entry_distinct krl ca (P : revoked_certs key -> Prop) :
  distinct_cas krl ->
  match entry krl ca with Some rc => P rc | None => False end <->
  Exists (fun rc => same_ca (rc_ca_key rc) ca /\ P rc) (krl_revoked_certs krl).
Proof.
  unfold distinct_cas, entry. induction (krl_revoked_certs krl) as [|rc l IH]; cbn [map]; intros Hd;
    cbn; [by rewrite Exists_nil|]. inversion Hd as [|? ? Hrc Hd']; subst. specialize (IH Hd').
  rewrite Exists_cons. destruct (decide (ca_matches ca rc = true)) as [E|E]; cbn.
  - apply ca_matches_same in E. split; [by left|]. intros [[_ ?]|Hex]; [done|].
    exfalso. apply Exists_exists in Hex as (rc' & Hin & Hs & _).
    rewrite Forall_map, Forall_forall in Hrc. apply (Hrc rc' Hin).
    eapply same_ca_trans; [exact E|]. by apply same_ca_sym.
  - rewrite ca_matches_same in E. destruct (list_find _ l) as [[i rc']|]; cbn in *; tauto.
Qed.

Lemma Exists_iff {A} (P Q : A -> Prop) l : (forall x, P x <-> Q x) -> Exists P l <-> Exists Q l.
Proof. intros H. split; intros E; (eapply Exists_impl; [exact E|]); intros x; apply H. Qed.

Lemma Exists_never {A} (P : A -> Prop) l : (forall x, ~ P x) -> ~ Exists P l.
Proof. intros H (x & _ & Hx)%Exists_exists. by apply (H x). Qed.

Lemma listed_recorded krl f : distinct_cas krl -> listed krl f <-> recorded krl f.
Proof.
  intros Hd. unfold listed.
  destruct f as [x|x|x|ca n|ca kid]; cbn [keys_facts sha1_facts sha256_facts recorded].
  1-3: match goal with |- Exists ?P ?l \/ _ <-> _ =>
         pose proof (Exists_never P l ltac:(intros rc; unfold certs_facts; cbn; tauto)) end; tauto.
  - unfold entry_serial. rewrite (entry_distinct krl ca (fun rc => serials_mem n (rc_serials rc))) by done.
    transitivity (Exists (fun rc => certs_facts rc (FSerial ca n)) (krl_revoked_certs krl)); [tauto|].
    apply Exists_iff.
    intros rc. unfold certs_facts. cbn. tauto.
  - unfold entry_key_id. rewrite (entry_distinct krl ca (fun rc => kid ∈ rc_key_ids rc)) by done.
    transitivity (Exists (fun rc => certs_facts rc (FKeyId ca kid)) (krl_revoked_certs krl)); [tauto|].
    apply Exists_iff.
    intros rc. unfold certs_facts. cbn. tauto.
Qed.
End read.
