(* ===== verification/KrlFile.v ===== *)
(** Revocation lists on disk: what the file format promises.

    KrlWrite.v says which octets are written and KrlRead.v what such octets
    are read as; here the two are put together. *)

From stdpp Require Import base list numbers tactics sets sorting.
From Stdlib Require Import ZArith Lia ZifyBool.
From S2P Require Import Prelude Sshbuf SshbufGetput SshbufShare SshbufRead SshbufMisc Bitmap RbTree Krl KrlThms KrlFormat KrlWrite KrlRead.
Import ToyKeys.

#[export] Instance tkey_wire : SshKeyWire tkey.
Proof.
  split.
  - intros w k b b' w' Hwf _ Hb. cbn [sshkey_puts tkey_ops]. by apply put_string_appended.
  - intros [b|b s i c]; [|done]. intros _ _. exists (Plain b). split; [done|]. by apply bool_decide_eq_true.
  - intros k. by exists k.
Qed.

(** Written by any code but read with enough memory, a list comes back. *)
Section file.
Context `{TS : TreeShape} {key : Type} `{SK : SshKey key} `{SL : !SshKeyLaws key}
  `{SW : !SshKeyWire key}.
Implicit Types (krl : ssh_krl key).

Lemma blob_roundtrip (w w1 : world) (now : Z) krl krl1 (buf buf1 : sshbuf) :
  krl_ok krl -> distinct_cas krl -> storable krl -> fits krl ->
  wf buf -> contents buf = [] -> sb_refcount buf = 1 ->
  ssh_krl_to_blob w now krl buf = (0, krl1, buf1, w1) ->
  krl1 = stamped now krl /\
  exists krl2 buf2, ssh_krl_from_blob [] buf1 = (0, Some krl2, buf2, []) /\
    contents buf2 = contents buf1 /\ krl_ok krl2 /\
    krl_version krl2 = krl_version krl /\ generated_date krl2 = generated_date krl1 /\
    krl_flags krl2 = krl_flags krl /\ krl_comment krl2 = Some (default [] (krl_comment krl)) /\
    forall f, recorded krl2 f <-> recorded krl f.
Proof.
  intros Hok Hd Hst Hfit Hwf Hc Hr E.
  apply ssh_krl_to_blob_spec in E as (-> & ps & Hps & Hw1 & (_ & _ & Hr1 & _) & Hc1); [|done..].
  split; [done|]. destruct (stamped_rest now krl) as (Hcerts & Hok' & Hrec).
  assert (Hb : reading 1 buf1 (header_bytes (stamped now krl) ++ body_bytes (stamped now krl) ps)).
  { split; [done|]. split; [by rewrite Hc1, Hc|congruence]. }
  destruct (from_blob_read (stamped now krl) ps buf1) as (buf2 & krl2 & E2 & Hb2 & Hg); [done| | | |done|].
  { by apply Hok'. } { by apply stamped_storable. } { unfold fits. by rewrite Hcerts. }
  exists krl2, buf2. split; [done|]. split; [destruct Hb2 as (_ & -> & _); by destruct Hb as (_ & -> & _)|].
  destruct Hg as (Hok2 & (Hv & Hdt & Hf & Hcm) & Hfacts). split; [done|].
  cbn in Hv, Hdt, Hf, Hcm.
  assert (krl_version (stamped now krl) = krl_version krl /\ krl_flags (stamped now krl) = krl_flags krl /\
          krl_comment (stamped now krl) = krl_comment krl) as (Hv' & Hf' & Hcm')
    by (unfold stamped; by case_if).
  split; [congruence|]. split; [done|]. split; [congruence|].
  split; [rewrite Hcm; unfold comment_bytes; by rewrite Hcm'|].
  intros f. rewrite Hfacts, listed_recorded by (unfold distinct_cas; by rewrite Hcerts).
  rewrite <- Hrec. split; [|by right]. intros [Hn|]; [|done]. destruct f; cbn in Hn; set_solver.
Qed.

(** ** Lists that are built by requests can be stored *)

Definition request_storable (q : request (key := key)) : Prop :=
  match q with
  | RSerial ca _ _ => ca_storable ca
  | RKeyId ca id => ca_storable ca /\ text id
  | RKeyExplicit k => bytes_ok (pub_blob k)
  | RSha1 h | RSha256 h => bytes_ok h
  | RKey k => bytes_ok (pub_blob k) /\ text (cert_key_id k) /\
              ca_storable (Some (cert_signature_key k))
  end.

Definition file_ok krl : Prop := storable krl /\ distinct_cas krl.

Lemma file_ok_certs krl l :
  file_ok krl -> Forall rc_storable l -> ForallOrdPairs (fun a b => ~ same_ca a b) (map rc_ca_key l) ->
  file_ok (set_certs krl l).
Proof. intros [(? & ? & ? & ? & ? & ? & ? & _) _] Hl Hd. split; [by split_and!|done]. Qed.

Lemma ForallOrdPairs_snoc {A} (R : A -> A -> Prop) l x :
  ForallOrdPairs R l -> Forall (fun y => R y x) l -> ForallOrdPairs R (l ++ [x]).
Proof.
  induction 1 as [|y l Hy _ IH]; cbn; intros Hx; [repeat constructor|].
  apply Forall_cons in Hx as [Hyx Hx]. constructor; [|by apply IH].
  apply Forall_app. split; [done|by constructor].
Qed.

Lemma for_ca_key_file_ok w krl ca r oi krl' w' :
  file_ok krl -> ca_storable ca -> revoked_certs_for_ca_key w krl ca true = (r, oi, krl', w') ->
  file_ok krl'.
Proof.
  intros Hok Hca. unfold revoked_certs_for_ca_key.
  destruct (list_find _ _) as [[i rc]|] eqn:E; [by intros [= <- <- <- <-]|]. cbn [negb].
  destruct (malloc w) as [[] w1]; cbn [negb]; [|by intros [= <- <- <- <-]].
  assert (Hadd : forall c, same_ca c ca -> ca_storable c ->
    file_ok (set_certs krl (krl_revoked_certs krl ++ [mk_certs c [] []]))).
  { intros c Hc Hs. pose proof Hok as [(_ & _ & _ & _ & _ & _ & _ & Hrc) Hd].
    apply file_ok_certs; [done| |].
    - apply Forall_app. split; [done|]. apply Forall_cons. split; [|constructor].
      split; [done|]. split; constructor.
    - rewrite map_app. cbn [map rc_ca_key]. apply ForallOrdPairs_snoc; [done|].
      apply Forall_map, Forall_forall. intros rc Hin Hs'. apply list_find_None in E.
      rewrite Forall_forall in E. apply (E rc Hin). apply ca_matches_same. by eapply same_ca_trans. }
  destruct ca as [k|].
  - destruct (sshkey_from_private w1 k) as [[r1 c] w2] eqn:Ef. apply from_private_copy in Ef.
    destruct (r1 =? 0) eqn:Er; cbn [negb]; intros [= <- <- <- <-]; [|done].
    destruct c as [c|]; [|lia]. destruct Ef as (_ & Heq & Hc & Hb). apply Hadd; [done|].
    unfold ca_storable in *. by rewrite Hc, Hb.
  - intros [= <- <- <- <-]. by apply Hadd.
Qed.

(** Replacing the contents of an entry. *)
Lemma file_ok_update krl i rc rc' :
  file_ok krl -> krl_revoked_certs krl !! i = Some rc -> rc_ca_key rc' = rc_ca_key rc -> rc_storable rc' ->
  file_ok (set_certs krl (<[i := rc']> (krl_revoked_certs krl))).
Proof.
  intros Hok Hi Hca Hs. pose proof Hok as [(_ & _ & _ & _ & _ & _ & _ & Hrc) Hd].
  apply file_ok_certs; [done|by apply Forall_insert|].
  change (map rc_ca_key (<[i:=rc']> (krl_revoked_certs krl))) with
    (rc_ca_key <$> <[i:=rc']> (krl_revoked_certs krl)).
  rewrite list_fmap_insert, list_insert_id; [done|]. by rewrite list_lookup_fmap, Hi, Hca.
Qed.

Lemma rc_storable_lookup krl i rc : file_ok krl -> krl_revoked_certs krl !! i = Some rc -> rc_storable rc.
Proof. intros [(_ & _ & _ & _ & _ & _ & _ & H) _]. by apply Forall_lookup_1. Qed.

Lemma serials_storable l :
  Forall rs_ok l -> (forall n, serials_mem n l -> 1 <= n) -> Forall serial_ok l.
Proof.
  intros Hl Hn. rewrite !Forall_forall in *. intros x Hx. specialize (Hl x Hx). unfold rs_ok in Hl.
  specialize (Hn (rs_lo x)). unfold serial_ok. split; [|lia]. split; [|lia]. apply Hn.
  apply Exists_exists. exists x. split; [done|]. unfold rs_mem. lia.
Qed.

Lemma run_serial_range_file_ok w krl ca lo hi r krl' w' :
  krl_ok krl -> file_ok krl -> ca_storable ca -> request_ok (RSerial ca lo hi) ->
  ssh_krl_revoke_cert_by_serial_range w krl ca lo hi = (r, krl', w') -> file_ok krl'.
Proof.
  intros Hk Hok Hca [Hlo Hhi]. unfold ssh_krl_revoke_cert_by_serial_range.
  destruct ((lo >? hi) || (lo =? 0)) eqn:E; [by intros [= <- <- <-]|].
  destruct (revoked_certs_for_ca_key w krl ca true) as [[[r1 oi] krl1] w1] eqn:Ef.
  pose proof (for_ca_key_file_ok _ _ _ _ _ _ _ Hok Hca Ef) as Hok1.
  apply for_ca_key_spec in Ef as (Hk1 & _ & Hi); [|done].
  destruct oi as [i|]; [|by intros [= <- <- <-]]. destruct Hi as (_ & rc & Hf).
  destruct (rc_ok_lookup _ _ _ _ Hk1 Hf) as [Hl [Hser _]]. rewrite Hl.
  destruct (insert_serial_range w1 (rc_serials rc) lo hi) as [[r2 l'] w2] eqn:Ei.
  apply insert_serial_range_spec in Ei as (Hl' & Hmem & Herr); [|done|lia|lia].
  intros [= <- <- <-]. apply (file_ok_update _ _ rc); [done..|].
  destruct (rc_storable_lookup _ _ _ Hok1 Hl) as (H1 & H2 & H3). split; [done|]. split; [|done].
  cbn [rc_serials]. destruct (Z.eq_dec r2 0) as [->|Hr]; [|by destruct (Herr Hr) as [_ ->]].
  apply serials_storable; [apply Hl'|]. intros n. rewrite (Hmem eq_refl).
  intros [Hn|]; [|lia]. by apply (serials_mem_range _ _ H2) in Hn as [? _].
Qed.

Lemma run_key_id_file_ok w krl ca kid r krl' w' :
  krl_ok krl -> file_ok krl -> ca_storable ca -> text kid ->
  ssh_krl_revoke_cert_by_key_id w krl ca kid = (r, krl', w') -> file_ok krl'.
Proof.
  intros Hk Hok Hca Hid. unfold ssh_krl_revoke_cert_by_key_id.
  destruct (revoked_certs_for_ca_key w krl ca true) as [[[r1 oi] krl1] w1] eqn:Ef.
  pose proof (for_ca_key_file_ok _ _ _ _ _ _ _ Hok Hca Ef) as Hok1.
  apply for_ca_key_spec in Ef as (Hk1 & _ & Hi); [|done].
  destruct oi as [i|]; [|by intros [= <- <- <-]]. destruct Hi as (_ & rc & Hf).
  destruct (rc_ok_lookup _ _ _ _ Hk1 Hf) as [Hl [_ Hids]]. rewrite Hl.
  destruct (malloc w1) as [[] w2]; cbn [negb]; [|by intros [= <- <- <-]].
  destruct (malloc w2) as [[] w3]; cbn [negb]; [|by intros [= <- <- <-]].
  pose proof (RB_INSERT_total key_id_cmp (rc_key_ids rc) kid Hids) as [_ Hmem].
  destruct (RB_INSERT key_id_cmp (rc_key_ids rc) kid) as [o ids]. cbn [snd] in *.
  intros [= <- <- <-]. apply (file_ok_update _ _ rc); [done..|].
  destruct (rc_storable_lookup _ _ _ Hok1 Hl) as (H1 & H2 & H3). split_and!; [done..|].
  apply Forall_forall. intros x Hx. apply Hmem in Hx as [-> | Hx]; [done|].
  rewrite Forall_forall in H3. by apply H3.
Qed.

Lemma revoke_blob_all (P : list Z -> Prop) w l b r l' w' :
  StronglySorted (fun x y => blob_cmp x y < 0) l -> Forall P l -> P b ->
  revoke_blob w l b = (r, l', w') -> Forall P l'.
Proof.
  intros Hl HP Hb E. apply revoke_blob_spec in E as [_ Hm]; [|done]. rewrite Forall_forall in *.
  intros x Hx. apply Hm in Hx as [?|[_ ->]]; [by apply HP|done].
Qed.

Lemma revoke_by_hash_all (P : list Z -> Prop) w l b r l' w' :
  StronglySorted (fun x y => blob_cmp x y < 0) l -> Forall P l -> P b ->
  revoke_by_hash w l b = (r, l', w') -> Forall P l'.
Proof.
  intros Hl HP Hb. unfold revoke_by_hash. destruct (malloc w) as [[] w1]; cbn [negb].
  - by apply revoke_blob_all.
  - by intros [= <- <- <-].
Qed.

Lemma run_explicit_file_ok w krl k r krl' w' :
  krl_ok krl -> file_ok krl -> bytes_ok (pub_blob k) ->
  ssh_krl_revoke_key_explicit w krl k = (r, krl', w') -> file_ok krl'.
Proof.
  intros (Hk & _) Hok Hb. unfold ssh_krl_revoke_key_explicit.
  destruct (plain_key_blob w k) as [[r1 b] w1] eqn:E. destruct (r1 =? 0) eqn:Er; cbn [negb];
    [|by intros [= <- <- <-]].
  apply plain_key_blob_spec in E as ->; [|lia].
  destruct (revoke_blob w1 _ _) as [[r2 l'] w2] eqn:Eb. intros [= <- <- <-].
  destruct Hok as [(? & ? & ? & ? & Hkeys & ? & ? & ?) Hd]. split; [|done]. split_and!; try done.
  by eapply revoke_blob_all in Eb.
Qed.

Lemma run_request_file_ok w krl q r krl' w' :
  krl_ok krl -> file_ok krl -> request_ok q -> request_storable q ->
  run_request w krl q = (r, krl', w') -> file_ok krl'.
Proof.
  intros Hk Hok Hq Hs. destruct q as [ca lo hi|ca kid|k|h|h|k]; cbn [run_request request_storable] in *.
  - by apply run_serial_range_file_ok.
  - destruct Hs. by apply run_key_id_file_ok.
  - by apply run_explicit_file_ok.
  - unfold ssh_krl_revoke_key_sha1. destruct (length h =? 20)%nat eqn:El; cbn [negb]; [|by intros [= <- <- <-]].
    destruct (revoke_by_hash w _ h) as [[r1 l'] w1] eqn:E. intros [= <- <- <-].
    destruct Hok as [(? & ? & ? & ? & ? & H1 & ? & ?) Hd]. split; [|done]. split_and!; try done.
    eapply revoke_by_hash_all; [exact (proj1 (proj2 Hk))|exact H1| |exact E]. split; [done|lia].
  - unfold ssh_krl_revoke_key_sha256. destruct (length h =? 32)%nat eqn:El; cbn [negb]; [|by intros [= <- <- <-]].
    destruct (revoke_by_hash w _ h) as [[r1 l'] w1] eqn:E. intros [= <- <- <-].
    destruct Hok as [(? & ? & ? & ? & ? & ? & H2 & ?) Hd]. split; [|done]. split_and!; try done.
    eapply revoke_by_hash_all; [exact (proj1 (proj2 (proj2 Hk)))|exact H2| |exact E]. split; [done|lia].
  - destruct Hs as (H1 & H2 & H3). unfold ssh_krl_revoke_key, ssh_krl_revoke_cert_by_serial. cbn in Hq.
    destruct (negb (sshkey_is_cert k)); [by apply run_explicit_file_ok|].
    destruct (cert_serial k =? 0); [by apply run_key_id_file_ok|].
    by apply run_serial_range_file_ok.
Qed.

Lemma run_requests_file_ok qs w krl served krl' w' :
  krl_ok krl -> file_ok krl -> Forall request_ok qs -> Forall request_storable qs ->
  run_requests w krl qs = (served, krl', w') -> krl_ok krl' /\ file_ok krl'.
Proof.
  intros Hk Hok Hqs. revert w krl served Hk Hok. induction Hqs as [|q qs Hq _ IH];
    intros w krl served Hk Hok Hs; cbn [run_requests].
  - by intros [= <- <- <-].
  - apply Forall_cons in Hs as [Hsq Hs]. destruct (run_request w krl q) as [[r krl1] w1] eqn:E.
    destruct (run_requests w1 krl1 qs) as [[sv krl2] w2] eqn:E2. intros [= <- <- <-].
    pose proof (run_request_file_ok _ _ _ _ _ _ Hk Hok Hq Hsq E) as Hok1.
    apply run_request_spec in E as [Hk1 _]; [|done..]. by eapply IH.
Qed.
End file.

(** ** What the format promises *)


(** Whether a section fits can be computed. *)
Definition section_fitsb (s : section) : bool :=
  match s.2 with
  | [] => true
  | x :: _ => negb (s.1 =? BITMAP) || forallb (fun y => rs_hi y - rs_lo x <? SSHBUF_MAX_BIGNUM * 8) s.2
  end.

Lemma section_fitsb_ok s : section_fitsb s = true -> section_fits s.
Proof.
  unfold section_fitsb. intros H Hb x l n Hs Hn. rewrite Hs in H. rewrite Hb in H. cbn [Z.eqb negb orb] in H.
  change (BITMAP =? BITMAP) with true in H. cbn [negb orb] in H. rewrite <- Hs in H.
  apply Exists_exists in Hn as (y & Hy & Hm). rewrite forallb_forall in H.
  specialize (H y). rewrite <- list_elem_of_In in H. specialize (H Hy). unfold rs_mem in Hm. lia.
Qed.

Definition fitsb {key} (krl : ssh_krl key) : bool :=
  forallb (fun rc => forallb section_fitsb (split_sections 0 0 [] (rc_serials rc))) (krl_revoked_certs krl).

Lemma fitsb_ok {key} (krl : ssh_krl key) : fitsb krl = true -> fits krl.
Proof.
  unfold fitsb, fits, rc_fits. rewrite forallb_forall. intros H. apply Forall_forall. intros rc Hrc.
  specialize (H rc (proj1 (list_elem_of_In _ _) Hrc)). rewrite forallb_forall in H.
  apply Forall_forall. intros s Hs. apply section_fitsb_ok, H, list_elem_of_In, Hs.
Qed.

(** A small list with every kind of section. *)
Definition demo_krl : ssh_krl tkey :=
  mk_krl 7 0 0 (Some [104; 105]) [[1; 2]; [3]] [replicate 20 5] []
    [mk_certs (Some (Plain [9])) [mk_serial 1 3; mk_serial 5 5; mk_serial 7 9; mk_serial 1000 2000;
                                  mk_serial 90000 90000] [[106]];
     mk_certs None [mk_serial 4 4] []].

Lemma demo_krl_good :
  krl_ok demo_krl /\ distinct_cas demo_krl /\ storable demo_krl /\ fits demo_krl.
Proof.
  split_and!.
  - split_and!; repeat constructor; cbn; lia.
  - repeat constructor. by intros [].
  - unfold storable, is_u64, text, hashes, rc_storable, text. cbn.
    split_and!; repeat constructor; cbn; try done; try lia; unfold is_byte; try lia; set_solver by lia.
  - by apply fitsb_ok; vm_compute.
Qed.


(** ** What the format does not keep *)

(** Every 64th number from 1 on: the writer puts them into one bitmap. *)
Definition sparse_serials (n : nat) : list revoked_serial :=
  map (fun i => mk_serial (64 * Z.of_nat i + 1) (64 * Z.of_nat i + 1)) (seq 0 n).

Definition sparse_krl : ssh_krl tkey :=
  mk_krl 0 1 0 None [] [] [] [mk_certs None (sparse_serials 257) []].

Lemma sparse_serials_ok n : Z.of_nat n <= 2 ^ 32 -> serials_ok (sparse_serials n).
Proof.
  intros Hn. unfold sparse_serials. split.
  - apply Forall_map, Forall_forall. intros i Hi. apply list_elem_of_In, in_seq in Hi.
    unfold rs_ok. cbn. lia.
  - clear Hn. generalize 0%nat as m. induction n as [|n IH]; intros m; cbn [seq map]; constructor; [apply IH|].
    apply Forall_map, Forall_forall. intros i Hi. apply list_elem_of_In, in_seq in Hi. unfold gap. cbn. lia.
Qed.

(** C12: Lists that the interface builds can be stored.  Start from a fresh
    list and serve any sequence of requests whose strings are octets, whose key
    IDs are C strings, and whose CAs are plain keys; some may fail for lack of
    memory.  Then the list is well formed, names each CA once and has nothing on
    record that the format cannot hold: serial numbers are from 1 to 2^64 - 1
    and hashes have their length.  Together with the round trip, such a list
    survives being stored when its bitmaps are short enough. *)
Theorem krl_requests_storable {TS : TreeShape} {key : Type} {SK : SshKey key}
    {SL : SshKeyLaws key} (w w0 w1 : world) (krl0 krl : ssh_krl key)
    (qs served : list request) :
  ssh_krl_init w = (Some krl0, w0) -> Forall request_ok qs -> Forall request_storable qs ->
  run_requests w0 krl0 qs = (served, krl, w1) ->
  krl_ok krl /\ storable krl /\ distinct_cas krl.
Proof.
  intros Hi Hq Hs E. unfold ssh_krl_init in Hi. destruct (malloc w) as [[] w']; [|done].
  injection Hi as <- <-. apply run_requests_file_ok in E as (? & ? & ?); [done|by split_and!; constructor| |done..].
  split; [|constructor]. do 3 (split; [done|]). split; [split; [constructor|set_solver]|].
  split_and!; constructor.
Qed.

Lemma krl_requests_storable_witness :
  exists krl w1, run_requests (TS := balanced_shape) []
      (mk_krl 0 0 0 None [] [] [] [])
      [RSerial (Some (Plain [9])) 40 42; RSerial None 0 50; RKeyId None [106]; RSha1 (replicate 20 1)] =
    ([RSerial (Some (Plain [9])) 40 42; RKeyId None [106]; RSha1 (replicate 20 1)], krl, w1) /\
    krl_ok krl /\ storable krl /\ distinct_cas krl.
Proof.
  eexists _, _. split; [vm_compute; reflexivity|].
  refine (krl_requests_storable (TS := balanced_shape) [] [] _ _ _
    [RSerial (Some (Plain [9])) 40 42; RSerial None 0 50; RKeyId None [106]; RSha1 (replicate 20 1)] _
    eq_refl _ _ _).
  - repeat constructor; cbn; lia.
  - constructor; [|constructor; [|constructor; [|constructor; [|constructor]]]]; cbn.
    + split; [done|]. split; [done|]. by apply (bool_decide_unpack _).
    + done.
    + split; [done|]. split; [by apply (bool_decide_unpack _)|set_solver by lia].
    + by apply (bool_decide_unpack _).
  - vm_compute. reflexivity.
Defined.

(** C39: A list can be written that cannot be read.  The list revokes the 257
    serial numbers 1, 65, ..., 16385; [ssh_krl_to_blob] succeeds and writes a
    bitmap section of 2049 octets, which [ssh_krl_from_blob] refuses, because
    bitmaps are read as numbers and numbers may have 2048 octets at most. *)
Theorem krl_wide_bitmap_unreadable :
  krl_ok sparse_krl /\ storable sparse_krl /\
  match sshbuf_new [] with
  | (Some buf, _) =>
      let '(r, _, buf1, _) := ssh_krl_to_blob [] 0 sparse_krl buf in
      r = 0 /\ (ssh_krl_from_blob (TS := balanced_shape) (key := tkey) [] buf1).1.1 =
        (SSH_ERR_BIGNUM_TOO_LARGE, None)
  | (None, _) => False
  end.
Proof.
  split; [|split].
  - do 3 (split; [constructor|]). apply Forall_cons. split; [|constructor].
    split; [apply sparse_serials_ok; lia|constructor].
  - do 3 (split; [done|]). split; [split; [constructor|set_solver]|]. do 3 (split; [constructor|]).
    apply Forall_cons. split; [|constructor]. split; [done|]. split; [|constructor]. apply Forall_map, Forall_forall.
    intros i Hi. apply list_elem_of_In, in_seq in Hi. unfold serial_ok. cbn. lia.
  - vm_compute. split; reflexivity.
Qed.

(** Reading reports success without a list.  When the octets begin with
    the magic string and the list itself cannot be allocated, the function
    returns 0 and leaves [*krlp] null. *)
Theorem krl_from_blob_null {TS : TreeShape} {key : Type} {SK : SshKey key} (w : world)
    (buf : sshbuf) (rest : list Z) :
  wf buf -> contents buf = KRL_MAGIC ++ rest ->
  ssh_krl_from_blob (key := key) (false :: w) buf = (0, None, buf, w).
Proof.
  intros Hwf Hc. unfold ssh_krl_from_blob. by rewrite (magic_cmp buf rest) by done.
Qed.

Lemma krl_from_blob_null_witness :
  ssh_krl_from_blob (TS := balanced_shape) (key := tkey) [false]
    (mk_sshbuf (Some KRL_MAGIC) false 0 8 8 8 true 1 None) =
    (0, None, mk_sshbuf (Some KRL_MAGIC) false 0 8 8 8 true 1 None, []).
Proof.
  apply (krl_from_blob_null (TS := balanced_shape) [] _ []); [|reflexivity].
  split; [reflexivity|done|reflexivity|by apply (bool_decide_unpack _)].
Defined.
