(* ===== verification/PacketState.v ===== *)
(** The state of the packet layer (struct ssh, struct session_state and the
    parts of struct kex that packet.c uses), and the monad its functions are
    written in.

    A function of packet.c is a computation [M Z] on the state: it may return
    early from the middle of its body ([early]), and the process may end.  The
    state also holds what the functions get from outside: the allocator, random
    octets, the clock, how writing to the socket goes, and stack memory. *)

From stdpp Require Import base list numbers tactics.
From Stdlib Require Import ZArith Lia ZifyBool.
From S2P Require Import Prelude Sshbuf SshbufGetput Chachapoly AesCtr Cipher Digest Mac.

Definition PACKET_MAX_SIZE : Z := 256 * 1024.

Definition SSH_ERR_DISCONNECTED := -29.
Definition SSH_ERR_NEED_REKEY := -39.
Definition SSH_ERR_CONN_CORRUPT := -54.
Definition SSH_ERR_PROTOCOL_ERROR := -55.

Definition SSH_MSG_NONE : Z := 0.
Definition SSH2_MSG_TRANSPORT_MIN : Z := 1.
Definition SSH2_MSG_TRANSPORT_MAX : Z := 49.
Definition SSH2_MSG_CONNECTION_MIN : Z := 80.
Definition SSH2_MSG_CONNECTION_MAX : Z := 127.
Definition SSH2_MSG_MIN : Z := 1.
Definition SSH2_MSG_DISCONNECT : Z := 1.
Definition SSH2_MSG_IGNORE : Z := 2.
Definition SSH2_MSG_UNIMPLEMENTED : Z := 3.
Definition SSH2_MSG_DEBUG : Z := 4.
Definition SSH2_MSG_SERVICE_REQUEST : Z := 5.
Definition SSH2_MSG_SERVICE_ACCEPT : Z := 6.
Definition SSH2_MSG_EXT_INFO : Z := 7.
Definition SSH2_MSG_KEXINIT : Z := 20.
Definition SSH2_MSG_NEWKEYS : Z := 21.
Definition SSH2_MSG_USERAUTH_SUCCESS : Z := 52.
Definition SSH2_MSG_PING : Z := 192.
Definition SSH2_MSG_PONG : Z := 193.
Definition SSH2_DISCONNECT_PROTOCOL_ERROR : Z := 2.

Definition SSH_BUG_NOREKEY : Z := 0x00008000.
Definition KEX_COOKIE_LEN : Z := 16.
Definition KEX_INIT_SENT : Z := 0x0001.
Definition KEX_INITIAL : Z := 0x0002.
Definition COMP_NONE : Z := 0.
Definition COMP_ZLIB : Z := 1.
Definition COMP_DELAYED : Z := 2.

Record packet_state := mk_ps { seqnr : Z; packets : Z; blocks : Z; bytes : Z }.
Record packet := mk_packet { p_type : Z; payload : sshbuf }.

Record sshenc := mk_enc {
  e_cipher : sshcipher;
  e_key_len : Z;
  e_iv_len : Z;
  e_block_size : Z;
  e_key : list Z;
  e_iv : list Z
}.

Record sshcomp := mk_comp { comp_type : Z; comp_enabled : bool }.

Inductive kex_mode := MODE_IN | MODE_OUT.

(** A pointer to a buffer that is null: every check of the buffer fails. *)
Definition null_buf : sshbuf := mk_sshbuf None false 0 0 0 0 false 0 None.

Section state.
Context {md : MD} {um : Umac}.

Record newkeys := mk_newkeys { enc : sshenc; nmac : sshmac; comp : sshcomp }.

(** The members of struct kex that the negotiation sets and that the packet layer
    does not look at. *)
Record kex_neg := mk_neg {
  we_need : Z;
  dh_need : Z;
  k_server : bool;
  k_name : option (list Z);
  hostkey_alg : option (list Z);
  hostkey_type : Z;
  hostkey_nid : Z;
  kex_type : Z;
  ext_info_c : bool;
  ext_info_s : bool;
  k_peer : sshbuf;
  session_id : sshbuf;
  hash_alg : Z;
  ec_nid : Z;
  failed_choice : option (list Z)
}.

Record kex := mk_kex {
  k_newkeys_in : option newkeys;
  k_newkeys_out : option newkeys;
  k_done : bool;
  k_flags : Z;
  kex_strict : bool;
  k_my : sshbuf;
  k_neg : kex_neg
}.

(** [packet_discard_mac] only ever points at the mac of [newkeys_in]; it is the
    flag whether it does.  [typep] and [seqnr_p] are the memory that the
    arguments of these names lead to.  [random], [clock], [waits] and [stack]
    are the random octets, times and results of waiting for the socket that are
    to come, and the octets of uninitialised stack memory. *)
Record ssh := mk_ssh {
  mux : bool;
  packet_discard : Z;
  packet_discard_mac : bool;
  packet_discard_mac_already : Z;
  newkeys_in : option newkeys;
  newkeys_out : option newkeys;
  receive_context : option sshcipher_ctx;
  send_context : option sshcipher_ctx;
  input : sshbuf;
  output : sshbuf;
  outgoing_packet : sshbuf;
  incoming_packet : sshbuf;
  compression_buffer : option sshbuf;
  p_read : packet_state;
  p_send : packet_state;
  max_blocks_in : Z;
  max_blocks_out : Z;
  rekey_limit : Z;
  rekey_interval : Z;
  rekey_time : Z;
  extra_pad : Z;
  packlen : Z;
  rekeying : bool;
  after_authentication : bool;
  server_side : bool;
  keep_alive_timeouts : Z;
  hook_in : option (sshbuf -> Z -> Z * sshbuf * Z);
  outgoing : list packet;
  kexp : option kex;
  compat : Z;
  typep : Z;
  seqnr_p : Z;
  dispatch_skip_packets : Z;
  alloc : world;
  random : list Z;
  clock : list Z;
  waits : list (Z * Z);
  stack : list Z
}.

Definition set_packet_discard (s : ssh) (v : Z) : ssh :=
  mk_ssh (mux s) v (packet_discard_mac s) (packet_discard_mac_already s) (newkeys_in s) (newkeys_out
    s) (receive_context s) (send_context s) (input s) (output s) (outgoing_packet s) (incoming_packet
    s) (compression_buffer s) (p_read s) (p_send s) (max_blocks_in s) (max_blocks_out s) (rekey_limit
    s) (rekey_interval s) (rekey_time s) (extra_pad s) (packlen s) (rekeying s) (after_authentication
    s) (server_side s) (keep_alive_timeouts s) (hook_in s) (outgoing s) (kexp s) (compat s) (typep s)
    (seqnr_p s) (dispatch_skip_packets s) (alloc s) (random s) (clock s) (waits s) (stack s).

Definition set_packet_discard_mac (s : ssh) (v : bool) : ssh :=
  mk_ssh (mux s) (packet_discard s) v (packet_discard_mac_already s) (newkeys_in s) (newkeys_out s)
    (receive_context s) (send_context s) (input s) (output s) (outgoing_packet s) (incoming_packet s)
    (compression_buffer s) (p_read s) (p_send s) (max_blocks_in s) (max_blocks_out s) (rekey_limit s)
    (rekey_interval s) (rekey_time s) (extra_pad s) (packlen s) (rekeying s) (after_authentication s)
    (server_side s) (keep_alive_timeouts s) (hook_in s) (outgoing s) (kexp s) (compat s) (typep s)
    (seqnr_p s) (dispatch_skip_packets s) (alloc s) (random s) (clock s) (waits s) (stack s).

Definition set_packet_discard_mac_already (s : ssh) (v : Z) : ssh :=
  mk_ssh (mux s) (packet_discard s) (packet_discard_mac s) v (newkeys_in s) (newkeys_out s)
    (receive_context s) (send_context s) (input s) (output s) (outgoing_packet s) (incoming_packet s)
    (compression_buffer s) (p_read s) (p_send s) (max_blocks_in s) (max_blocks_out s) (rekey_limit s)
    (rekey_interval s) (rekey_time s) (extra_pad s) (packlen s) (rekeying s) (after_authentication s)
    (server_side s) (keep_alive_timeouts s) (hook_in s) (outgoing s) (kexp s) (compat s) (typep s)
    (seqnr_p s) (dispatch_skip_packets s) (alloc s) (random s) (clock s) (waits s) (stack s).

Definition set_newkeys_in (s : ssh) (v : option newkeys) : ssh :=
  mk_ssh (mux s) (packet_discard s) (packet_discard_mac s) (packet_discard_mac_already s) v
    (newkeys_out s) (receive_context s) (send_context s) (input s) (output s) (outgoing_packet s)
    (incoming_packet s) (compression_buffer s) (p_read s) (p_send s) (max_blocks_in s) (max_blocks_out
    s) (rekey_limit s) (rekey_interval s) (rekey_time s) (extra_pad s) (packlen s) (rekeying s)
    (after_authentication s) (server_side s) (keep_alive_timeouts s) (hook_in s) (outgoing s) (kexp s)
    (compat s) (typep s) (seqnr_p s) (dispatch_skip_packets s) (alloc s) (random s) (clock s) (waits
    s) (stack s).

Definition set_newkeys_out (s : ssh) (v : option newkeys) : ssh :=
  mk_ssh (mux s) (packet_discard s) (packet_discard_mac s) (packet_discard_mac_already s)
    (newkeys_in s) v (receive_context s) (send_context s) (input s) (output s) (outgoing_packet s)
    (incoming_packet s) (compression_buffer s) (p_read s) (p_send s) (max_blocks_in s) (max_blocks_out
    s) (rekey_limit s) (rekey_interval s) (rekey_time s) (extra_pad s) (packlen s) (rekeying s)
    (after_authentication s) (server_side s) (keep_alive_timeouts s) (hook_in s) (outgoing s) (kexp s)
    (compat s) (typep s) (seqnr_p s) (dispatch_skip_packets s) (alloc s) (random s) (clock s) (waits
    s) (stack s).

Definition set_receive_context (s : ssh) (v : option sshcipher_ctx) : ssh :=
  mk_ssh (mux s) (packet_discard s) (packet_discard_mac s) (packet_discard_mac_already s)
    (newkeys_in s) (newkeys_out s) v (send_context s) (input s) (output s) (outgoing_packet s)
    (incoming_packet s) (compression_buffer s) (p_read s) (p_send s) (max_blocks_in s) (max_blocks_out
    s) (rekey_limit s) (rekey_interval s) (rekey_time s) (extra_pad s) (packlen s) (rekeying s)
    (after_authentication s) (server_side s) (keep_alive_timeouts s) (hook_in s) (outgoing s) (kexp s)
    (compat s) (typep s) (seqnr_p s) (dispatch_skip_packets s) (alloc s) (random s) (clock s) (waits
    s) (stack s).

Definition set_send_context (s : ssh) (v : option sshcipher_ctx) : ssh :=
  mk_ssh (mux s) (packet_discard s) (packet_discard_mac s) (packet_discard_mac_already s)
    (newkeys_in s) (newkeys_out s) (receive_context s) v (input s) (output s) (outgoing_packet s)
    (incoming_packet s) (compression_buffer s) (p_read s) (p_send s) (max_blocks_in s) (max_blocks_out
    s) (rekey_limit s) (rekey_interval s) (rekey_time s) (extra_pad s) (packlen s) (rekeying s)
    (after_authentication s) (server_side s) (keep_alive_timeouts s) (hook_in s) (outgoing s) (kexp s)
    (compat s) (typep s) (seqnr_p s) (dispatch_skip_packets s) (alloc s) (random s) (clock s) (waits
    s) (stack s).

Definition set_input (s : ssh) (v : sshbuf) : ssh :=
  mk_ssh (mux s) (packet_discard s) (packet_discard_mac s) (packet_discard_mac_already s)
    (newkeys_in s) (newkeys_out s) (receive_context s) (send_context s) v (output s) (outgoing_packet
    s) (incoming_packet s) (compression_buffer s) (p_read s) (p_send s) (max_blocks_in s)
    (max_blocks_out s) (rekey_limit s) (rekey_interval s) (rekey_time s) (extra_pad s) (packlen s)
    (rekeying s) (after_authentication s) (server_side s) (keep_alive_timeouts s) (hook_in s)
    (outgoing s) (kexp s) (compat s) (typep s) (seqnr_p s) (dispatch_skip_packets s) (alloc s) (random
    s) (clock s) (waits s) (stack s).

Definition set_output (s : ssh) (v : sshbuf) : ssh :=
  mk_ssh (mux s) (packet_discard s) (packet_discard_mac s) (packet_discard_mac_already s)
    (newkeys_in s) (newkeys_out s) (receive_context s) (send_context s) (input s) v (outgoing_packet
    s) (incoming_packet s) (compression_buffer s) (p_read s) (p_send s) (max_blocks_in s)
    (max_blocks_out s) (rekey_limit s) (rekey_interval s) (rekey_time s) (extra_pad s) (packlen s)
    (rekeying s) (after_authentication s) (server_side s) (keep_alive_timeouts s) (hook_in s)
    (outgoing s) (kexp s) (compat s) (typep s) (seqnr_p s) (dispatch_skip_packets s) (alloc s) (random
    s) (clock s) (waits s) (stack s).

Definition set_outgoing_packet (s : ssh) (v : sshbuf) : ssh :=
  mk_ssh (mux s) (packet_discard s) (packet_discard_mac s) (packet_discard_mac_already s)
    (newkeys_in s) (newkeys_out s) (receive_context s) (send_context s) (input s) (output s) v
    (incoming_packet s) (compression_buffer s) (p_read s) (p_send s) (max_blocks_in s) (max_blocks_out
    s) (rekey_limit s) (rekey_interval s) (rekey_time s) (extra_pad s) (packlen s) (rekeying s)
    (after_authentication s) (server_side s) (keep_alive_timeouts s) (hook_in s) (outgoing s) (kexp s)
    (compat s) (typep s) (seqnr_p s) (dispatch_skip_packets s) (alloc s) (random s) (clock s) (waits
    s) (stack s).

Definition set_incoming_packet (s : ssh) (v : sshbuf) : ssh :=
  mk_ssh (mux s) (packet_discard s) (packet_discard_mac s) (packet_discard_mac_already s)
    (newkeys_in s) (newkeys_out s) (receive_context s) (send_context s) (input s) (output s)
    (outgoing_packet s) v (compression_buffer s) (p_read s) (p_send s) (max_blocks_in s)
    (max_blocks_out s) (rekey_limit s) (rekey_interval s) (rekey_time s) (extra_pad s) (packlen s)
    (rekeying s) (after_authentication s) (server_side s) (keep_alive_timeouts s) (hook_in s)
    (outgoing s) (kexp s) (compat s) (typep s) (seqnr_p s) (dispatch_skip_packets s) (alloc s) (random
    s) (clock s) (waits s) (stack s).

Definition set_compression_buffer (s : ssh) (v : option sshbuf) : ssh :=
  mk_ssh (mux s) (packet_discard s) (packet_discard_mac s) (packet_discard_mac_already s)
    (newkeys_in s) (newkeys_out s) (receive_context s) (send_context s) (input s) (output s)
    (outgoing_packet s) (incoming_packet s) v (p_read s) (p_send s) (max_blocks_in s) (max_blocks_out
    s) (rekey_limit s) (rekey_interval s) (rekey_time s) (extra_pad s) (packlen s) (rekeying s)
    (after_authentication s) (server_side s) (keep_alive_timeouts s) (hook_in s) (outgoing s) (kexp s)
    (compat s) (typep s) (seqnr_p s) (dispatch_skip_packets s) (alloc s) (random s) (clock s) (waits
    s) (stack s).

Definition set_p_read (s : ssh) (v : packet_state) : ssh :=
  mk_ssh (mux s) (packet_discard s) (packet_discard_mac s) (packet_discard_mac_already s)
    (newkeys_in s) (newkeys_out s) (receive_context s) (send_context s) (input s) (output s)
    (outgoing_packet s) (incoming_packet s) (compression_buffer s) v (p_send s) (max_blocks_in s)
    (max_blocks_out s) (rekey_limit s) (rekey_interval s) (rekey_time s) (extra_pad s) (packlen s)
    (rekeying s) (after_authentication s) (server_side s) (keep_alive_timeouts s) (hook_in s)
    (outgoing s) (kexp s) (compat s) (typep s) (seqnr_p s) (dispatch_skip_packets s) (alloc s) (random
    s) (clock s) (waits s) (stack s).

Definition set_p_send (s : ssh) (v : packet_state) : ssh :=
  mk_ssh (mux s) (packet_discard s) (packet_discard_mac s) (packet_discard_mac_already s)
    (newkeys_in s) (newkeys_out s) (receive_context s) (send_context s) (input s) (output s)
    (outgoing_packet s) (incoming_packet s) (compression_buffer s) (p_read s) v (max_blocks_in s)
    (max_blocks_out s) (rekey_limit s) (rekey_interval s) (rekey_time s) (extra_pad s) (packlen s)
    (rekeying s) (after_authentication s) (server_side s) (keep_alive_timeouts s) (hook_in s)
    (outgoing s) (kexp s) (compat s) (typep s) (seqnr_p s) (dispatch_skip_packets s) (alloc s) (random
    s) (clock s) (waits s) (stack s).

Definition set_max_blocks_in (s : ssh) (v : Z) : ssh :=
  mk_ssh (mux s) (packet_discard s) (packet_discard_mac s) (packet_discard_mac_already s)
    (newkeys_in s) (newkeys_out s) (receive_context s) (send_context s) (input s) (output s)
    (outgoing_packet s) (incoming_packet s) (compression_buffer s) (p_read s) (p_send s) v
    (max_blocks_out s) (rekey_limit s) (rekey_interval s) (rekey_time s) (extra_pad s) (packlen s)
    (rekeying s) (after_authentication s) (server_side s) (keep_alive_timeouts s) (hook_in s)
    (outgoing s) (kexp s) (compat s) (typep s) (seqnr_p s) (dispatch_skip_packets s) (alloc s) (random
    s) (clock s) (waits s) (stack s).

Definition set_max_blocks_out (s : ssh) (v : Z) : ssh :=
  mk_ssh (mux s) (packet_discard s) (packet_discard_mac s) (packet_discard_mac_already s)
    (newkeys_in s) (newkeys_out s) (receive_context s) (send_context s) (input s) (output s)
    (outgoing_packet s) (incoming_packet s) (compression_buffer s) (p_read s) (p_send s)
    (max_blocks_in s) v (rekey_limit s) (rekey_interval s) (rekey_time s) (extra_pad s) (packlen s)
    (rekeying s) (after_authentication s) (server_side s) (keep_alive_timeouts s) (hook_in s)
    (outgoing s) (kexp s) (compat s) (typep s) (seqnr_p s) (dispatch_skip_packets s) (alloc s) (random
    s) (clock s) (waits s) (stack s).

Definition set_rekey_time (s : ssh) (v : Z) : ssh :=
  mk_ssh (mux s) (packet_discard s) (packet_discard_mac s) (packet_discard_mac_already s)
    (newkeys_in s) (newkeys_out s) (receive_context s) (send_context s) (input s) (output s)
    (outgoing_packet s) (incoming_packet s) (compression_buffer s) (p_read s) (p_send s)
    (max_blocks_in s) (max_blocks_out s) (rekey_limit s) (rekey_interval s) v (extra_pad s) (packlen
    s) (rekeying s) (after_authentication s) (server_side s) (keep_alive_timeouts s) (hook_in s)
    (outgoing s) (kexp s) (compat s) (typep s) (seqnr_p s) (dispatch_skip_packets s) (alloc s) (random
    s) (clock s) (waits s) (stack s).

Definition set_extra_pad (s : ssh) (v : Z) : ssh :=
  mk_ssh (mux s) (packet_discard s) (packet_discard_mac s) (packet_discard_mac_already s)
    (newkeys_in s) (newkeys_out s) (receive_context s) (send_context s) (input s) (output s)
    (outgoing_packet s) (incoming_packet s) (compression_buffer s) (p_read s) (p_send s)
    (max_blocks_in s) (max_blocks_out s) (rekey_limit s) (rekey_interval s) (rekey_time s) v (packlen
    s) (rekeying s) (after_authentication s) (server_side s) (keep_alive_timeouts s) (hook_in s)
    (outgoing s) (kexp s) (compat s) (typep s) (seqnr_p s) (dispatch_skip_packets s) (alloc s) (random
    s) (clock s) (waits s) (stack s).

Definition set_packlen (s : ssh) (v : Z) : ssh :=
  mk_ssh (mux s) (packet_discard s) (packet_discard_mac s) (packet_discard_mac_already s)
    (newkeys_in s) (newkeys_out s) (receive_context s) (send_context s) (input s) (output s)
    (outgoing_packet s) (incoming_packet s) (compression_buffer s) (p_read s) (p_send s)
    (max_blocks_in s) (max_blocks_out s) (rekey_limit s) (rekey_interval s) (rekey_time s) (extra_pad
    s) v (rekeying s) (after_authentication s) (server_side s) (keep_alive_timeouts s) (hook_in s)
    (outgoing s) (kexp s) (compat s) (typep s) (seqnr_p s) (dispatch_skip_packets s) (alloc s) (random
    s) (clock s) (waits s) (stack s).

Definition set_rekeying (s : ssh) (v : bool) : ssh :=
  mk_ssh (mux s) (packet_discard s) (packet_discard_mac s) (packet_discard_mac_already s)
    (newkeys_in s) (newkeys_out s) (receive_context s) (send_context s) (input s) (output s)
    (outgoing_packet s) (incoming_packet s) (compression_buffer s) (p_read s) (p_send s)
    (max_blocks_in s) (max_blocks_out s) (rekey_limit s) (rekey_interval s) (rekey_time s) (extra_pad
    s) (packlen s) v (after_authentication s) (server_side s) (keep_alive_timeouts s) (hook_in s)
    (outgoing s) (kexp s) (compat s) (typep s) (seqnr_p s) (dispatch_skip_packets s) (alloc s) (random
    s) (clock s) (waits s) (stack s).

Definition set_after_authentication (s : ssh) (v : bool) : ssh :=
  mk_ssh (mux s) (packet_discard s) (packet_discard_mac s) (packet_discard_mac_already s)
    (newkeys_in s) (newkeys_out s) (receive_context s) (send_context s) (input s) (output s)
    (outgoing_packet s) (incoming_packet s) (compression_buffer s) (p_read s) (p_send s)
    (max_blocks_in s) (max_blocks_out s) (rekey_limit s) (rekey_interval s) (rekey_time s) (extra_pad
    s) (packlen s) (rekeying s) v (server_side s) (keep_alive_timeouts s) (hook_in s) (outgoing s)
    (kexp s) (compat s) (typep s) (seqnr_p s) (dispatch_skip_packets s) (alloc s) (random s) (clock s)
    (waits s) (stack s).

Definition set_keep_alive_timeouts (s : ssh) (v : Z) : ssh :=
  mk_ssh (mux s) (packet_discard s) (packet_discard_mac s) (packet_discard_mac_already s)
    (newkeys_in s) (newkeys_out s) (receive_context s) (send_context s) (input s) (output s)
    (outgoing_packet s) (incoming_packet s) (compression_buffer s) (p_read s) (p_send s)
    (max_blocks_in s) (max_blocks_out s) (rekey_limit s) (rekey_interval s) (rekey_time s) (extra_pad
    s) (packlen s) (rekeying s) (after_authentication s) (server_side s) v (hook_in s) (outgoing s)
    (kexp s) (compat s) (typep s) (seqnr_p s) (dispatch_skip_packets s) (alloc s) (random s) (clock s)
    (waits s) (stack s).

Definition set_outgoing (s : ssh) (v : list packet) : ssh :=
  mk_ssh (mux s) (packet_discard s) (packet_discard_mac s) (packet_discard_mac_already s)
    (newkeys_in s) (newkeys_out s) (receive_context s) (send_context s) (input s) (output s)
    (outgoing_packet s) (incoming_packet s) (compression_buffer s) (p_read s) (p_send s)
    (max_blocks_in s) (max_blocks_out s) (rekey_limit s) (rekey_interval s) (rekey_time s) (extra_pad
    s) (packlen s) (rekeying s) (after_authentication s) (server_side s) (keep_alive_timeouts s)
    (hook_in s) v (kexp s) (compat s) (typep s) (seqnr_p s) (dispatch_skip_packets s) (alloc s)
    (random s) (clock s) (waits s) (stack s).

Definition set_kexp (s : ssh) (v : option kex) : ssh :=
  mk_ssh (mux s) (packet_discard s) (packet_discard_mac s) (packet_discard_mac_already s)
    (newkeys_in s) (newkeys_out s) (receive_context s) (send_context s) (input s) (output s)
    (outgoing_packet s) (incoming_packet s) (compression_buffer s) (p_read s) (p_send s)
    (max_blocks_in s) (max_blocks_out s) (rekey_limit s) (rekey_interval s) (rekey_time s) (extra_pad
    s) (packlen s) (rekeying s) (after_authentication s) (server_side s) (keep_alive_timeouts s)
    (hook_in s) (outgoing s) v (compat s) (typep s) (seqnr_p s) (dispatch_skip_packets s) (alloc s)
    (random s) (clock s) (waits s) (stack s).

Definition set_typep (s : ssh) (v : Z) : ssh :=
  mk_ssh (mux s) (packet_discard s) (packet_discard_mac s) (packet_discard_mac_already s)
    (newkeys_in s) (newkeys_out s) (receive_context s) (send_context s) (input s) (output s)
    (outgoing_packet s) (incoming_packet s) (compression_buffer s) (p_read s) (p_send s)
    (max_blocks_in s) (max_blocks_out s) (rekey_limit s) (rekey_interval s) (rekey_time s) (extra_pad
    s) (packlen s) (rekeying s) (after_authentication s) (server_side s) (keep_alive_timeouts s)
    (hook_in s) (outgoing s) (kexp s) (compat s) v (seqnr_p s) (dispatch_skip_packets s) (alloc s)
    (random s) (clock s) (waits s) (stack s).

Definition set_seqnr_p (s : ssh) (v : Z) : ssh :=
  mk_ssh (mux s) (packet_discard s) (packet_discard_mac s) (packet_discard_mac_already s)
    (newkeys_in s) (newkeys_out s) (receive_context s) (send_context s) (input s) (output s)
    (outgoing_packet s) (incoming_packet s) (compression_buffer s) (p_read s) (p_send s)
    (max_blocks_in s) (max_blocks_out s) (rekey_limit s) (rekey_interval s) (rekey_time s) (extra_pad
    s) (packlen s) (rekeying s) (after_authentication s) (server_side s) (keep_alive_timeouts s)
    (hook_in s) (outgoing s) (kexp s) (compat s) (typep s) v (dispatch_skip_packets s) (alloc s)
    (random s) (clock s) (waits s) (stack s).

Definition set_dispatch_skip_packets (s : ssh) (v : Z) : ssh :=
  mk_ssh (mux s) (packet_discard s) (packet_discard_mac s) (packet_discard_mac_already s)
    (newkeys_in s) (newkeys_out s) (receive_context s) (send_context s) (input s) (output s)
    (outgoing_packet s) (incoming_packet s) (compression_buffer s) (p_read s) (p_send s)
    (max_blocks_in s) (max_blocks_out s) (rekey_limit s) (rekey_interval s) (rekey_time s) (extra_pad
    s) (packlen s) (rekeying s) (after_authentication s) (server_side s) (keep_alive_timeouts s)
    (hook_in s) (outgoing s) (kexp s) (compat s) (typep s) (seqnr_p s) v (alloc s) (random s) (clock
    s) (waits s) (stack s).

Definition set_alloc (s : ssh) (v : world) : ssh :=
  mk_ssh (mux s) (packet_discard s) (packet_discard_mac s) (packet_discard_mac_already s)
    (newkeys_in s) (newkeys_out s) (receive_context s) (send_context s) (input s) (output s)
    (outgoing_packet s) (incoming_packet s) (compression_buffer s) (p_read s) (p_send s)
    (max_blocks_in s) (max_blocks_out s) (rekey_limit s) (rekey_interval s) (rekey_time s) (extra_pad
    s) (packlen s) (rekeying s) (after_authentication s) (server_side s) (keep_alive_timeouts s)
    (hook_in s) (outgoing s) (kexp s) (compat s) (typep s) (seqnr_p s) (dispatch_skip_packets s) v
    (random s) (clock s) (waits s) (stack s).

Definition set_random (s : ssh) (v : list Z) : ssh :=
  mk_ssh (mux s) (packet_discard s) (packet_discard_mac s) (packet_discard_mac_already s)
    (newkeys_in s) (newkeys_out s) (receive_context s) (send_context s) (input s) (output s)
    (outgoing_packet s) (incoming_packet s) (compression_buffer s) (p_read s) (p_send s)
    (max_blocks_in s) (max_blocks_out s) (rekey_limit s) (rekey_interval s) (rekey_time s) (extra_pad
    s) (packlen s) (rekeying s) (after_authentication s) (server_side s) (keep_alive_timeouts s)
    (hook_in s) (outgoing s) (kexp s) (compat s) (typep s) (seqnr_p s) (dispatch_skip_packets s)
    (alloc s) v (clock s) (waits s) (stack s).

Definition set_clock (s : ssh) (v : list Z) : ssh :=
  mk_ssh (mux s) (packet_discard s) (packet_discard_mac s) (packet_discard_mac_already s)
    (newkeys_in s) (newkeys_out s) (receive_context s) (send_context s) (input s) (output s)
    (outgoing_packet s) (incoming_packet s) (compression_buffer s) (p_read s) (p_send s)
    (max_blocks_in s) (max_blocks_out s) (rekey_limit s) (rekey_interval s) (rekey_time s) (extra_pad
    s) (packlen s) (rekeying s) (after_authentication s) (server_side s) (keep_alive_timeouts s)
    (hook_in s) (outgoing s) (kexp s) (compat s) (typep s) (seqnr_p s) (dispatch_skip_packets s)
    (alloc s) (random s) v (waits s) (stack s).

Definition set_waits (s : ssh) (v : list (Z * Z)) : ssh :=
  mk_ssh (mux s) (packet_discard s) (packet_discard_mac s) (packet_discard_mac_already s)
    (newkeys_in s) (newkeys_out s) (receive_context s) (send_context s) (input s) (output s)
    (outgoing_packet s) (incoming_packet s) (compression_buffer s) (p_read s) (p_send s)
    (max_blocks_in s) (max_blocks_out s) (rekey_limit s) (rekey_interval s) (rekey_time s) (extra_pad
    s) (packlen s) (rekeying s) (after_authentication s) (server_side s) (keep_alive_timeouts s)
    (hook_in s) (outgoing s) (kexp s) (compat s) (typep s) (seqnr_p s) (dispatch_skip_packets s)
    (alloc s) (random s) (clock s) v (stack s).

(** ** The monad *)

Inductive outcome (A : Type) := Ok (a : A) | Early (r : Z) | Fatal.
Arguments Ok {A} a.
Arguments Early {A} r.
Arguments Fatal {A}.

Definition M (A : Type) : Type := ssh -> outcome A * ssh.

Definition ret {A} (a : A) : M A := fun s => (Ok a, s).

Definition bind {A B} (m : M A) (f : A -> M B) : M B :=
  fun s => match m s with
           | (Ok a, s) => f a s
           | (Early r, s) => (Early r, s)
           | (Fatal, s) => (Fatal, s)
           end.

(** Leave the current function with [r]. *)
Definition early {A} (r : Z) : M A := fun s => (Early r, s).

(** The end of the process, by [ssh_packet_disconnect] or at a null pointer. *)
Definition fatal {A} : M A := fun s => (Fatal, s).

(** The body of a C function. *)
Definition func (body : M Z) : M Z :=
  fun s => match body s with
           | (Early r, s) => (Ok r, s)
           | x => x
           end.

Definition get {A} (f : ssh -> A) : M A := fun s => (Ok (f s), s).
Definition modify (f : ssh -> ssh) : M unit := fun s => (Ok tt, f s).

(** [if ((r = m) != 0) return r] *)
Definition check (m : M Z) : M unit := bind m (fun r => if negb (r =? 0) then early r else ret tt).

Definition when (b : bool) (m : M unit) : M unit := if b then m else ret tt.

End state.

Arguments Ok {A} a.
Arguments Early {A} r.
Arguments Fatal {A}.

Declare Scope ssh_scope.
Delimit Scope ssh_scope with ssh.
Notation "'let*' x := m 'in' k" := (bind m (fun x => k))
  (at level 10, x name, m at level 100, k at level 200) : ssh_scope.
Notation "m ;* k" := (bind m (fun _ => k)) (at level 100, right associativity) : ssh_scope.

(** Compute the members of an updated state. *)
Ltac ssimp :=
  cbn [mux packet_discard packet_discard_mac packet_discard_mac_already newkeys_in newkeys_out
    receive_context send_context input output outgoing_packet incoming_packet compression_buffer
    p_read p_send max_blocks_in max_blocks_out rekey_limit rekey_interval rekey_time extra_pad
    packlen rekeying after_authentication server_side keep_alive_timeouts hook_in outgoing kexp
    compat typep seqnr_p dispatch_skip_packets alloc random clock waits stack set_packet_discard set_packet_discard_mac
    set_packet_discard_mac_already set_newkeys_in set_newkeys_out set_receive_context
    set_send_context set_input set_output set_outgoing_packet set_incoming_packet
    set_compression_buffer set_p_read set_p_send set_max_blocks_in set_max_blocks_out set_rekey_time
    set_extra_pad set_packlen set_rekeying set_after_authentication set_keep_alive_timeouts
    set_outgoing set_kexp set_typep set_seqnr_p set_dispatch_skip_packets set_alloc set_random set_clock set_waits].

Ltac ssimp_in H :=
  cbn [mux packet_discard packet_discard_mac packet_discard_mac_already newkeys_in newkeys_out
    receive_context send_context input output outgoing_packet incoming_packet compression_buffer
    p_read p_send max_blocks_in max_blocks_out rekey_limit rekey_interval rekey_time extra_pad
    packlen rekeying after_authentication server_side keep_alive_timeouts hook_in outgoing kexp
    compat typep seqnr_p dispatch_skip_packets alloc random clock waits stack set_packet_discard set_packet_discard_mac
    set_packet_discard_mac_already set_newkeys_in set_newkeys_out set_receive_context
    set_send_context set_input set_output set_outgoing_packet set_incoming_packet
    set_compression_buffer set_p_read set_p_send set_max_blocks_in set_max_blocks_out set_rekey_time
    set_extra_pad set_packlen set_rekeying set_after_authentication set_keep_alive_timeouts
    set_outgoing set_kexp set_typep set_seqnr_p set_dispatch_skip_packets set_alloc set_random set_clock set_waits] in H.
