(* ===== verification/Packet.v ===== *)
(** The binary packet protocol of packet.c, with the start of a key exchange from
    kex.c, in the build without OpenSSL and zlib: padding, encryption and
    authentication of outgoing packets, queueing while keys are exchanged,
    reassembly and checks of incoming packets, switching to new keys. *)

From stdpp Require Import base list numbers tactics.
From Stdlib Require Import ZArith Lia ZifyBool.
From S2P Require Import Prelude Sshbuf SshbufGetput Chachapoly AesCtr Cipher Digest Mac PacketState.

#[local] Open Scope ssh_scope.

Section packet.
Context {md : MD} {um : Umac}.

(** ** Buffers of the state *)

Inductive bufname := Input | Output | Outgoing | Incoming.

Definition buf (n : bufname) (s : ssh) : sshbuf :=
  match n with
  | Input => input s | Output => output s | Outgoing => outgoing_packet s | Incoming => incoming_packet s
  end.

Definition set_buf (n : bufname) (s : ssh) (b : sshbuf) : ssh :=
  match n with
  | Input => set_input s b | Output => set_output s b
  | Outgoing => set_outgoing_packet s b | Incoming => set_incoming_packet s b
  end.

(** The operations of sshbuf.c on them. *)
Definition b_len (n : bufname) : M Z := get (fun s => sshbuf_len (buf n s)).

(** [sshbuf_ptr]; a null pointer is only dereferenced by a process that ends. *)
Definition b_ptr (n : bufname) : M (list Z) :=
  fun s => match sshbuf_ptr (buf n s) with Some p => (Ok p, s) | None => (Fatal, s) end.

Definition b_alloc (n : bufname) (f : world -> sshbuf -> Z * sshbuf * world) : M Z :=
  fun s => let '(r, b, w) := f (alloc s) (buf n s) in (Ok r, set_alloc (set_buf n s b) w).

Definition b_put (n : bufname) (v : list Z) (len : Z) : M Z := b_alloc n (fun w b => sshbuf_put w b v len).

Definition b_consume (n : bufname) (len : Z) : M Z :=
  fun s => let '(r, b) := sshbuf_consume (buf n s) len in (Ok r, set_buf n s b).

Definition b_consume_end (n : bufname) (len : Z) : M Z :=
  fun s => let '(r, b) := sshbuf_consume_end (buf n s) len in (Ok r, set_buf n s b).

Definition b_reset (n : bufname) : M unit :=
  fun s => let '(b, w) := sshbuf_reset (alloc s) (buf n s) in (Ok tt, set_alloc (set_buf n s b) w).

(** [if ((r = sshbuf_reserve(b, len, &cp)) != 0) goto out], giving [cp]. *)
Definition b_reserve (n : bufname) (len : Z) : M Z :=
  fun s => let '(r, b, dp, w) := sshbuf_reserve (alloc s) (buf n s) len in
           let s := set_alloc (set_buf n s b) w in
           if negb (r =? 0) then (Early r, s)
           else match dp with Some dp => (Ok dp, s) | None => (Fatal, s) end.

(** Octets written through a pointer. *)
Definition b_write (n : bufname) (dp : Z) (v : list Z) : M unit :=
  modify (fun s => set_buf n s (mem_write (buf n s) dp v)).

(** ** The world outside *)

Definition arc4random_buf (n : Z) : M (list Z) :=
  fun s => (Ok (map u8 (take (Z.to_nat n) (random s ++ replicate (Z.to_nat n) 0))),
            set_random s (drop (Z.to_nat n) (random s))).

Definition monotime : M Z :=
  fun s => (Ok (default 0 (head (clock s))), set_clock s (drop 1 (clock s))).

(** Waiting until the output is written: an error code and the octets written
    before it, or 0 and everything. *)
Definition ssh_packet_write_wait : M Z :=
  fun s =>
    let '(r, n) := default (0, 0) (head (waits s)) in
    let s := set_waits s (drop 1 (waits s)) in
    let len := sshbuf_len (output s) in
    if r =? 0 then (Ok 0, set_output s (snd (sshbuf_consume (output s) len)))
    else (Ok r, set_output s (snd (sshbuf_consume (output s) (Z.min (Z.max 0 n) len)))).

(** A process that ends after telling the peer why. *)
Definition ssh_packet_disconnect {A} : M A := fatal.

Definition the_kex : M kex :=
  fun s => match kexp s with Some k => (Ok k, s) | None => (Fatal, s) end.

Definition modify_kex (f : kex -> kex) : M unit :=
  modify (fun s => set_kexp s (option_map f (kexp s))).

Definition set_done (k : kex) (b : bool) : kex :=
  mk_kex (k_newkeys_in k) (k_newkeys_out k) b (k_flags k) (kex_strict k) (k_my k) (k_neg k).
Definition set_flags (k : kex) (f : Z) : kex :=
  mk_kex (k_newkeys_in k) (k_newkeys_out k) (k_done k) f (kex_strict k) (k_my k) (k_neg k).
Definition set_my (k : kex) (b : sshbuf) : kex :=
  mk_kex (k_newkeys_in k) (k_newkeys_out k) (k_done k) (k_flags k) (kex_strict k) b (k_neg k).

(** ** Compression, which this build does not have *)

Definition ssh_packet_init_compression : M Z :=
  fun s => match compression_buffer s with
           | Some _ => (Ok 0, s)
           | None =>
               let '(b, w) := sshbuf_new (alloc s) in
               let s := set_alloc (set_compression_buffer s b) w in
               (Ok (match b with None => SSH_ERR_ALLOC_FAIL | Some _ => 0 end), s)
           end.

Definition start_compression_out : M Z := ret SSH_ERR_INTERNAL_ERROR.
Definition start_compression_in : M Z := ret SSH_ERR_INTERNAL_ERROR.
Definition compress_buffer : M Z := ret SSH_ERR_INTERNAL_ERROR.
Definition uncompress_buffer : M Z := ret SSH_ERR_INTERNAL_ERROR.

(** ** Keys *)

Definition newkeys_of (mode : kex_mode) (s : ssh) : option newkeys :=
  match mode with MODE_IN => newkeys_in s | MODE_OUT => newkeys_out s end.

Definition set_newkeys (mode : kex_mode) (s : ssh) (k : option newkeys) : ssh :=
  match mode with MODE_IN => set_newkeys_in s k | MODE_OUT => set_newkeys_out s k end.

(** [state->newkeys[mode]->mac = mac] *)
Definition set_mac (mode : kex_mode) (mac : sshmac) : M unit :=
  modify (fun s => set_newkeys mode s (option_map (fun k => mk_newkeys (enc k) mac (comp k)) (newkeys_of mode s))).

Definition ps_of (mode : kex_mode) (s : ssh) : packet_state :=
  match mode with MODE_IN => p_read s | MODE_OUT => p_send s end.

Definition set_ps (mode : kex_mode) (s : ssh) (p : packet_state) : ssh :=
  match mode with MODE_IN => set_p_read s p | MODE_OUT => set_p_send s p end.

Definition set_ctx (mode : kex_mode) (s : ssh) (c : option sshcipher_ctx) : ssh :=
  match mode with MODE_IN => set_receive_context s c | MODE_OUT => set_send_context s c end.

Definition set_max_blocks (mode : kex_mode) (s : ssh) (n : Z) : ssh :=
  match mode with MODE_IN => set_max_blocks_in s n | MODE_OUT => set_max_blocks_out s n end.

Definition take_kex_newkeys (mode : kex_mode) (k : kex) : option newkeys * kex :=
  match mode with
  | MODE_IN => (k_newkeys_in k, mk_kex None (k_newkeys_out k) (k_done k) (k_flags k) (kex_strict k) (k_my k) (k_neg k))
  | MODE_OUT => (k_newkeys_out k, mk_kex (k_newkeys_in k) None (k_done k) (k_flags k) (kex_strict k) (k_my k) (k_neg k))
  end.

(** Start compression with these keys; the caller has made the buffer. *)
Definition start_compression (mode : kex_mode) : M unit :=
  match mode with
  | MODE_OUT => check start_compression_out
  | MODE_IN => check start_compression_in
  end ;*
  modify (fun s => set_newkeys mode s
    (option_map (fun k => mk_newkeys (enc k) (nmac k) (mk_comp (comp_type (comp k)) true)) (newkeys_of mode s))).

Definition ssh_set_newkeys (mode : kex_mode) : M Z := func (
  modify (fun s => set_newkeys mode s None) ;*
  (* note that both bytes and the seqnr are not reset *)
  modify (fun s => set_ps mode s (mk_ps (seqnr (ps_of mode s)) 0 0 (bytes (ps_of mode s)))) ;*
  (* move newkeys from kex to state *)
  let* k := the_kex in
  let '(nk, k) := take_kex_newkeys mode k in
  match nk with
  | None => early SSH_ERR_INTERNAL_ERROR
  | Some nk =>
      modify (fun s => set_kexp (set_newkeys mode s (Some nk)) (Some k)) ;*
      when (cipher_authlen (e_cipher (enc nk)) =? 0)
        (fun s => let '(r, mac, w) := mac_init (alloc s) (nmac nk) in
                  bind (set_mac mode mac) (fun _ => if negb (r =? 0) then early r else ret tt) (set_alloc s w)) ;*
      let* cur := get (newkeys_of mode) in
      match cur with
      | None => fatal
      | Some nk =>
          set_mac mode (set_enabled (nmac nk)) ;*
          (fun s =>
             let '(r, cc, w) := cipher_init (alloc s) (e_cipher (enc nk)) (e_key (enc nk)) (e_key_len (enc nk))
               (Some (e_iv (enc nk))) (e_iv_len (enc nk)) (match mode with MODE_OUT => true | MODE_IN => false end) in
             let s := set_alloc (set_ctx mode s cc) w in
             if negb (r =? 0) then (Early r, s) else (Ok tt, s)) ;*
          let* auth := get after_authentication in
          when (((comp_type (comp nk) =? COMP_ZLIB) || ((comp_type (comp nk) =? COMP_DELAYED) && auth)) &&
                negb (comp_enabled (comp nk)))
            (let* r := ssh_packet_init_compression in when (r <? 0) (early r) ;* start_compression mode) ;*
          let bs := e_block_size (enc nk) in
          let* limit := get rekey_limit in
          let mb := if bs >=? 16 then u64 (Z.shiftl 1 (bs * 2)) else 2 ^ 30 / bs in
          let mb := if negb (limit =? 0) then Z.min mb (limit / bs) else mb in
          modify (fun s => set_max_blocks mode s mb) ;*
          ret 0
      end
  end).

Definition MAX_PACKETS : Z := 2 ^ 31.

Definition ssh_packet_is_rekeying (s : ssh) : bool :=
  rekeying s || match kexp s with None => false | Some k => negb (k_done k) end.

(** The last test of [ssh_packet_need_rekeying]; [ROUNDUP] is computed in 32
    bits. *)
Definition too_many_blocks (s : ssh) (outbound_packet_len : Z) : bool :=
  match newkeys_out s with
  | None => false
  | Some nk =>
      let bs := e_block_size (enc nk) in
      let out_blocks := u32 (u32 (outbound_packet_len + (bs - 1)) / bs * bs) in
      (negb (max_blocks_out s =? 0) && (u64 (blocks (p_send s) + out_blocks) >? max_blocks_out s)) ||
      (negb (max_blocks_in s =? 0) && (blocks (p_read s) >? max_blocks_in s))
  end.

Definition ssh_packet_need_rekeying (outbound_packet_len : Z) : M bool :=
  let* s := get (fun s => s) in
  if negb (after_authentication s) then ret false
  else if ssh_packet_is_rekeying s then ret false
  else if negb (Z.land (compat s) SSH_BUG_NOREKEY =? 0) then ret false
  else if (packets (p_send s) =? 0) && (packets (p_read s) =? 0) then ret false
  else
    let* late :=
      if negb (rekey_interval s =? 0) then
        let* now := monotime in ret (rekey_time s + rekey_interval s <=? now)
      else ret false in
    if late then ret true
    else if (packets (p_send s) >? MAX_PACKETS) || (packets (p_read s) >? MAX_PACKETS) then ret true
    else
      match newkeys_out s with
      | None => fatal
      | Some _ => ret (too_many_blocks s outbound_packet_len)
      end.

(** One direction of [ssh_packet_enable_delayed_compress]. *)
Definition delayed_compress (mode : kex_mode) : M unit :=
  let* nk := get (newkeys_of mode) in
  match nk with
  | None => ret tt
  | Some nk =>
      when (negb (comp_enabled (comp nk)) && (comp_type (comp nk) =? COMP_DELAYED))
        (check ssh_packet_init_compression ;* start_compression mode)
  end.

Definition ssh_packet_enable_delayed_compress : M Z := func (
  modify (fun s => set_after_authentication s true) ;*
  delayed_compress MODE_IN ;*
  delayed_compress MODE_OUT ;*
  ret 0).

(** ** Sending *)

Definition ssh_packet_type_is_kex (type : Z) : bool :=
  (type >=? SSH2_MSG_TRANSPORT_MIN) && (type <=? SSH2_MSG_TRANSPORT_MAX) &&
  negb (type =? SSH2_MSG_SERVICE_REQUEST) && negb (type =? SSH2_MSG_SERVICE_ACCEPT) &&
  negb (type =? SSH2_MSG_EXT_INFO).

Definition ctx_of (mode : kex_mode) (s : ssh) : option sshcipher_ctx :=
  match mode with MODE_IN => receive_context s | MODE_OUT => send_context s end.

(** [cipher_crypt] from [src] to the position [dp] of a buffer's block. *)
Definition crypt (mode : kex_mode) (seqno : Z) (to : bufname) (dp : Z) (src : list Z)
    (len aadlen authlen : Z) : M unit :=
  fun s => match ctx_of mode s with
           | None => (Fatal, s)
           | Some cc =>
               let dest := drop (Z.to_nat dp) (block (buf to s)) in
               let '(r, cc, dest) := cipher_crypt (stack s) cc seqno dest src len aadlen authlen in
               let s := set_ctx mode (set_buf to s (mem_write (buf to s) dp dest)) (Some cc) in
               if negb (r =? 0) then (Early r, s) else (Ok tt, s)
           end.

(** [mac_compute] with the mac of the current keys; the tag. *)
Definition compute_mac (mode : kex_mode) (seqno : Z) (data : list Z) (len : Z) : M (list Z) :=
  fun s => match newkeys_of mode s with
           | None => (Fatal, s)
           | Some nk =>
               let '(r, mac, d) := mac_compute (alloc s) (nmac nk) seqno data len (stack s) (Some (stack s))
                 SSH_DIGEST_MAX_LENGTH in
               let s := set_newkeys mode s (Some (mk_newkeys (enc nk) mac (comp nk))) in
               if negb (r =? 0) then (Early r, s) else (Ok (default [] d), s)
           end.

(** The parameters of one direction: tag length of the cipher, whether a mac is
    used and whether it covers the ciphertext, block size, length of the part
    that is not encrypted. *)
Definition authlen_of (nk : option newkeys) : Z :=
  match nk with None => 0 | Some nk => cipher_authlen (e_cipher (enc nk)) end.
Definition mac_on (nk : option newkeys) : bool :=
  match nk with None => false | Some nk => (authlen_of (Some nk) =? 0) && m_enabled (nmac nk) end.
Definition etm_on (nk : option newkeys) : bool :=
  match nk with None => false | Some nk' => mac_on nk && m_etm (nmac nk') end.
Definition block_of (nk : option newkeys) : Z :=
  match nk with None => 8 | Some nk => e_block_size (enc nk) end.
Definition aadlen_of (nk : option newkeys) : Z :=
  if etm_on nk || negb (authlen_of nk =? 0) then 4 else 0.
Definition comp_on (nk : option newkeys) : bool :=
  match nk with None => false | Some nk => comp_enabled (comp nk) end.
Definition maclen_of (nk : option newkeys) : Z :=
  match nk with None => 0 | Some nk' => if mac_on nk then mac_len (nmac nk') else 0 end.

(** Compression of the payload, which fails in this build. *)
Definition compress_payload : M unit :=
  check (b_consume Outgoing 5) ;*
  (fun s => match compression_buffer s with
            | None => (Fatal, s)
            | Some b => let '(b, w) := sshbuf_reset (alloc s) b in (Ok tt, set_alloc (set_compression_buffer s (Some b)) w)
            end) ;*
  check compress_buffer ;*
  b_reset Outgoing ;*
  check (b_put Outgoing (replicate 5 0) 5) ;*
  let* cb := get compression_buffer in
  check (b_alloc Outgoing (fun w b => sshbuf_putb w b cb)).

(** The length of the padding for [len] octets that are encrypted. *)
Definition base_padlen (block_size len : Z) : Z :=
  let padlen := u8 (block_size - len mod block_size) in
  if padlen <? 4 then u8 (padlen + block_size) else padlen.

(** Padding to a multiple of [extra_pad], if that was asked for. *)
Definition extra_padding (block_size len padlen : Z) : M Z :=
  let* ep := get extra_pad in
  if ep =? 0 then ret padlen
  else
    let ep' := u8 (u32 (u32 (ep + (block_size - 1)) / block_size * block_size)) in
    modify (fun s => set_extra_pad s ep') ;*
    if ep' <? ep then early SSH_ERR_INVALID_ARGUMENT
    else
      let tmp := u8 (u32 (len + padlen) mod ep') in
      if tmp >? ep' then early SSH_ERR_INVALID_ARGUMENT
      else
        let pad := u8 (ep' - tmp) in
        let padlen' := u8 (padlen + pad) in
        if padlen' <? padlen then early SSH_ERR_INVALID_ARGUMENT
        else modify (fun s => set_extra_pad s 0) ;* ret padlen'.

(** [++ps.seqnr], [++ps.packets] and the volume counters. *)
Definition count_packet (mode : kex_mode) (len block_size : Z) : M unit :=
  modify (fun s => let p := ps_of mode s in
                   set_ps mode s (mk_ps (u32 (seqnr p + 1)) (packets p) (blocks p) (bytes p))) ;*
  let* p := get (ps_of mode) in
  (if seqnr p =? 0 then
     let* k := the_kex in
     when (negb (Z.land (k_flags k) KEX_INITIAL =? 0)) ssh_packet_disconnect
   else ret tt) ;*
  modify (fun s => let p := ps_of mode s in
                   set_ps mode s (mk_ps (seqnr p) (u32 (packets p + 1)) (blocks p) (bytes p))) ;*
  let* p := get (ps_of mode) in
  let* c := get compat in
  when ((packets p =? 0) && (Z.land c SSH_BUG_NOREKEY =? 0)) (early SSH_ERR_NEED_REKEY) ;*
  modify (fun s => let p := ps_of mode s in
                   set_ps mode s (mk_ps (seqnr p) (packets p) (u64 (blocks p + len / block_size)) (u64 (bytes p + len)))).

(** [if (type == SSH2_MSG_NEWKEYS && ssh->kex->kex_strict) seqnr = 0] *)
Definition strict_reset (mode : kex_mode) (type : Z) : M unit :=
  if type =? SSH2_MSG_NEWKEYS then
    let* k := the_kex in
    when (kex_strict k)
      (modify (fun s => let p := ps_of mode s in set_ps mode s (mk_ps 0 (packets p) (blocks p) (bytes p))))
  else ret tt.

(** Padding and the two length fields; the length of the packet. *)
Definition pad_packet (nk : option newkeys) : M Z :=
  (* sizeof (packet_len + pad_len + payload) *)
  let* len := b_len Outgoing in
  let len := u32 (len - aadlen_of nk) in
  let* padlen := extra_padding (block_of nk) len (base_padlen (block_of nk) len) in
  let* cp := b_reserve Outgoing padlen in
  let* cc := get send_context in
  let* pad :=
    match nk, cc with
    | Some _, None => fatal
    | Some _, Some cc => if cipher_ctx_is_plaintext cc then ret (replicate (Z.to_nat padlen) 0) else arc4random_buf padlen
    | None, _ => ret (replicate (Z.to_nat padlen) 0)
    end in
  b_write Outgoing cp pad ;*
  (* sizeof (packet_len + pad_len + payload + padding) *)
  let* len := b_len Outgoing in
  let len := u32 len in
  let* cp := get (fun s => sshbuf_mutable_ptr (outgoing_packet s)) in
  match cp with
  | None => early SSH_ERR_INTERNAL_ERROR
  | Some cp =>
      (* packet_length includes payload, padding and padding length field *)
      b_write Outgoing cp (POKE_U32 (u32 (len - 4)) ++ [padlen]) ;*
      ret len
  end.

(** Mac and encryption of the padded packet. *)
Definition seal_packet (nk : option newkeys) (len : Z) : M unit :=
  let* p := b_ptr Outgoing in
  let* seq := get (fun s => seqnr (p_send s)) in
  (* compute MAC over seqnr and packet(length fields, payload, padding) *)
  let* macbuf := if mac_on nk && negb (etm_on nk) then compute_mac MODE_OUT seq p len else ret [] in
  (* encrypt packet and append to output buffer. *)
  let* olen := b_len Outgoing in
  let* cp := b_reserve Output (olen + authlen_of nk) in
  crypt MODE_OUT seq Output cp p (u32 (len - aadlen_of nk)) (aadlen_of nk) (authlen_of nk) ;*
  (* append unencrypted MAC *)
  if mac_on nk then
    let* macbuf :=
      if etm_on nk then
        (* EtM: compute mac over aadlen + cipher text *)
        let* c := get (fun s => drop (Z.to_nat cp) (block (output s))) in compute_mac MODE_OUT seq c len
      else ret macbuf in
    check (b_put Output macbuf (maclen_of nk))
  else ret tt.

Definition ssh_packet_send2_wrapped : M Z := func (
  let* nk := get newkeys_out in
  let* p := b_ptr Outgoing in
  let type := byte_at p 5 in
  when (comp_on nk) compress_payload ;*
  let* len := pad_packet nk in
  seal_packet nk len ;*
  count_packet MODE_OUT len (block_of nk) ;*
  b_reset Outgoing ;*
  strict_reset MODE_OUT type ;*
  let* server := get server_side in
  if type =? SSH2_MSG_NEWKEYS then ssh_set_newkeys MODE_OUT
  else if (type =? SSH2_MSG_USERAUTH_SUCCESS) && server then ssh_packet_enable_delayed_compress
  else ret 0).

Section reenter.
(** [kex_start_rekex], through which [ssh_packet_send2] is entered again. *)
Context (rekex : M Z).

(** The queue is sent until it is empty or keys have to be changed; [n] packets
    are queued. *)
Fixpoint flush_queue (n : nat) : M unit :=
  match n with
  | O => ret tt
  | S n =>
      let* q := get outgoing in
      match q with
      | [] => ret tt
      | p :: q =>
          let* need := ssh_packet_need_rekeying (sshbuf_len (payload p)) in
          if need then let* r := rekex in early r
          else
            modify (fun s => set_outgoing (set_outgoing_packet s (payload p)) q) ;*
            check ssh_packet_send2_wrapped ;*
            flush_queue n
      end
  end.

(** Put the packet at the end of the queue and start a new one. *)
Definition enqueue (type : Z) : M unit :=
  (fun s => let '(ok, w) := malloc (alloc s) in
            if negb ok then (Early SSH_ERR_ALLOC_FAIL, set_alloc s w) else (Ok tt, set_alloc s w)) ;*
  modify (fun s => set_outgoing s (outgoing s ++ [mk_packet type (outgoing_packet s)])) ;*
  (fun s => let '(b, w) := sshbuf_new (alloc s) in
            let s := set_alloc (set_outgoing_packet s (default null_buf b)) w in
            match b with None => (Early SSH_ERR_ALLOC_FAIL, s) | Some _ => (Ok tt, s) end).

Definition send2_with : M Z := func (
  let* len := b_len Outgoing in
  when (len <? 6) (early SSH_ERR_INTERNAL_ERROR) ;*
  let* p := b_ptr Outgoing in
  let type := byte_at p 5 in
  let* need := if ssh_packet_type_is_kex type then ret false else ssh_packet_need_rekeying (u32 len) in
  let* rk := get rekeying in
  if (need || rk) && negb (ssh_packet_type_is_kex type) then
    enqueue type ;* if need then rekex else ret 0
  else
    (* rekeying starts with sending KEXINIT *)
    when (type =? SSH2_MSG_KEXINIT) (modify (fun s => set_rekeying s true)) ;*
    check ssh_packet_send2_wrapped ;*
    (* after a NEWKEYS message we can send the complete queue *)
    (if type =? SSH2_MSG_NEWKEYS then
       modify (fun s => set_rekeying s false) ;*
       let* now := monotime in
       modify (fun s => set_rekey_time s now) ;*
       let* q := get outgoing in
       flush_queue (length q)
     else ret tt) ;*
    ret 0).

End reenter.

(** A mux client passes on the connection protocol, without kex. *)
Definition ssh_packet_send_mux : M Z := func (
  let* k := get kexp in
  match k with
  | Some _ => early SSH_ERR_INTERNAL_ERROR
  | None =>
      let* len := b_len Outgoing in
      when (len <? 6) (early SSH_ERR_INTERNAL_ERROR) ;*
      let* cp := get (fun s => sshbuf_mutable_ptr (outgoing_packet s)) in
      match cp with
      | None => fatal
      | Some cp =>
          let* type := get (fun s => byte_at (block (outgoing_packet s)) (Z.to_nat cp + 5)) in
          when ((type >=? SSH2_MSG_CONNECTION_MIN) && (type <=? SSH2_MSG_CONNECTION_MAX))
            (b_write Outgoing cp (POKE_U32 (u32 (len - 4))) ;*
             let* b := get outgoing_packet in
             check (b_alloc Output (fun w o => sshbuf_putb w o (Some b)))) ;*
          b_reset Outgoing ;*
          ret 0
      end
  end).

Definition sshpkt_start (type : Z) : M Z :=
  b_reset Outgoing ;* b_put Outgoing [0; 0; 0; 0; 0; type] 6.

(** [sshpkt_send], for the [ssh_packet_send2] that is given. *)
Definition send_with (send2 : M Z) : M Z :=
  let* m := get mux in if m then ssh_packet_send_mux else send2.

Definition kex_send_kexinit (send2 : M Z) : M Z := func (
  let* k := get kexp in
  match k with
  | None => early SSH_ERR_INTERNAL_ERROR
  | Some k =>
      when (negb (Z.land (k_flags k) KEX_INIT_SENT =? 0)) (early 0) ;*
      modify_kex (fun k => set_done k false) ;*
      (* generate a random cookie *)
      when (sshbuf_len (k_my k) <? KEX_COOKIE_LEN) (early SSH_ERR_INVALID_FORMAT) ;*
      match sshbuf_mutable_ptr (k_my k) with
      | None => early SSH_ERR_INTERNAL_ERROR
      | Some cookie =>
          let* rnd := arc4random_buf KEX_COOKIE_LEN in
          let my := mem_write (k_my k) cookie rnd in
          modify_kex (fun k => set_my k my) ;*
          check (sshpkt_start SSH2_MSG_KEXINIT) ;*
          check (b_alloc Outgoing (fun w b => sshbuf_putb w b (Some my))) ;*
          check (send_with send2) ;*
          modify_kex (fun k => set_flags k (Z.lor (k_flags k) KEX_INIT_SENT)) ;*
          ret 0
      end
  end).

(** A KEXINIT is never queued and does not start a key exchange, so that the
    call of [ssh_packet_send2] from here does not come here again. *)
Definition kex_start_rekex : M Z := func (
  let* k := get kexp in
  match k with
  | None => early SSH_ERR_INTERNAL_ERROR
  | Some k =>
      when (negb (k_done k)) (early SSH_ERR_INTERNAL_ERROR) ;*
      modify_kex (fun k => set_done k false) ;*
      kex_send_kexinit (send2_with fatal)
  end).

Definition ssh_packet_send2 : M Z := send2_with kex_start_rekex.

Definition sshpkt_send : M Z := send_with ssh_packet_send2.

Definition ssh_packet_check_rekey : M Z :=
  let* need := ssh_packet_need_rekeying 0 in
  if need then kex_start_rekex else ret 0.

Definition sshpkt_put_u32 (v : Z) : M Z := b_alloc Outgoing (fun w b => sshbuf_put_u32 w b v).
Definition sshpkt_put_cstring (v : list Z) : M Z := b_alloc Outgoing (fun w b => sshbuf_put_cstring w b (Some v)).
Definition sshpkt_put_string (v : list Z) (len : Z) : M Z := b_alloc Outgoing (fun w b => sshbuf_put_string w b v len).

(** [text] is the formatted message, at most 1023 characters. *)
Definition sshpkt_disconnect (text : list Z) : M Z := func (
  check (sshpkt_start SSH2_MSG_DISCONNECT) ;*
  check (sshpkt_put_u32 SSH2_DISCONNECT_PROTOCOL_ERROR) ;*
  check (sshpkt_put_cstring (take 1023 text)) ;*
  check (sshpkt_put_cstring []) ;*
  check sshpkt_send ;*
  ret 0).

Definition sshpkt_add_padding (pad : Z) : M Z := modify (fun s => set_extra_pad s pad) ;* ret 0.

(** ** Receiving *)

(** [while (sshbuf_len(incoming_packet) < dlen) sshbuf_put(...)] with 1024
    octets at a time. *)
Fixpoint fill_discard (fuel : nat) (dlen : Z) : M unit :=
  match fuel with
  | O => ret tt
  | S fuel =>
      let* len := b_len Incoming in
      if len <? dlen then check (b_put Incoming (replicate 1024 97) 1024) ;* fill_discard fuel dlen
      else ret tt
  end.

Definition ssh_packet_stop_discard : M Z := func (
  let* m := get packet_discard_mac in
  (if m then
     let* already := get packet_discard_mac_already in
     let dlen := if PACKET_MAX_SIZE >? already then PACKET_MAX_SIZE - already else PACKET_MAX_SIZE in
     fill_discard (S (Z.to_nat (dlen / 1024))) dlen ;*
     let* p := b_ptr Incoming in
     fun s => match newkeys_in s with
              | None => (Fatal, s)
              | Some nk =>
                  let '(_, mac, _) := mac_compute (alloc s) (nmac nk) (seqnr (p_read s)) p dlen (stack s) None 0 in
                  (Ok tt, set_newkeys_in s (Some (mk_newkeys (enc nk) mac (comp nk))))
              end
   else ret tt) ;*
  ret SSH_ERR_MAC_INVALID).

(** [mac] is null if the cipher has a tag of its own. *)
Definition ssh_packet_start_discard (nk : option newkeys) (mac_already discard : Z) : M Z := func (
  let enc_null := match nk with None => true | Some _ => false end in
  let cbc := match nk with None => false | Some nk => cipher_is_cbc (e_cipher (enc nk)) end in
  let mac := authlen_of nk =? 0 in
  let etm := match nk with None => false | Some nk => mac && m_etm (nmac nk) end in
  if enc_null || negb cbc || etm then
    check (sshpkt_disconnect (chars "Packet corrupt")) ;*
    ret SSH_ERR_MAC_INVALID
  else
    when (mac_on nk) (modify (fun s => set_packet_discard_mac_already (set_packet_discard_mac s true) mac_already)) ;*
    let* len := b_len Input in
    if len >=? discard then ssh_packet_stop_discard
    else modify (fun s => set_packet_discard s (u32 (discard - len))) ;* ret 0).

(** [cipher_get_length] on the input: its result, with [packlen] assigned. *)
Definition get_length : M Z :=
  let* p := b_ptr Input in
  let* len := b_len Input in
  fun s => match receive_context s with
           | None => (Fatal, s)
           | Some cc =>
               let '(r, plen, cc) := cipher_get_length (stack s) cc (seqnr (p_read s)) p (u32 len) in
               let s := set_receive_context s (Some cc) in
               (Ok r, match plen with Some n => set_packlen s n | None => s end)
           end.

(** [mac_check] with the mac of the current keys. *)
Definition check_mac (data : list Z) (dlen : Z) (theirmac : list Z) (mlen : Z) : M Z :=
  fun s => match newkeys_in s with
           | None => (Fatal, s)
           | Some nk =>
               let '(r, mac) := mac_check (alloc s) (nmac nk) (seqnr (p_read s)) data dlen theirmac mlen
                 (stack s) (stack s) in
               (Ok r, set_newkeys_in s (Some (mk_newkeys (enc nk) mac (comp nk))))
           end.

Definition bad_packlen (s : ssh) : bool := (packlen s <? 1 + 4) || (packlen s >? PACKET_MAX_SIZE).

(** The length of the packet, if it is not known from an earlier call. *)
Definition read_length (nk : option newkeys) : M unit :=
  let aadlen := aadlen_of nk in
  let block_size := block_of nk in
  let* pl := get packlen in
  if negb (aadlen =? 0) && (pl =? 0) then
    let* r := get_length in
    when (negb (r =? 0)) (early 0) ;*
    let* bad := get bad_packlen in
    when bad (check (sshpkt_disconnect (chars "Packet corrupt")) ;* early SSH_ERR_CONN_CORRUPT) ;*
    b_reset Incoming
  else if pl =? 0 then
    (* check if input size is less than the cipher block size,
       decrypt first block and extract length of incoming packet *)
    let* len := b_len Input in
    when (len <? block_size) (early 0) ;*
    b_reset Incoming ;*
    let* cp := b_reserve Incoming block_size in
    let* p := b_ptr Input in
    let* seq := get (fun s => seqnr (p_send s)) in
    crypt MODE_IN seq Incoming cp p block_size 0 0 ;*
    let* p := b_ptr Incoming in
    modify (fun s => set_packlen s (PEEK_U32 p)) ;*
    let* bad := get bad_packlen in
    when bad (let* r := ssh_packet_start_discard nk 0 PACKET_MAX_SIZE in early r) ;*
    check (b_consume Input block_size)
  else ret tt.

(** The rest of the packet: mac, decryption, mac again. *)
Definition read_body (nk : option newkeys) (need : Z) : M unit :=
  let authlen := authlen_of nk in
  let block_size := block_of nk in
  let aadlen := aadlen_of nk in
  let maclen := maclen_of nk in
  (* EtM: check mac over encrypted input *)
  when (etm_on nk)
    (let* p := b_ptr Input in
     check (check_mac p (u32 (aadlen + need)) (drop (Z.to_nat (aadlen + need + authlen)) p) maclen)) ;*
  let* cp := b_reserve Incoming (u32 (aadlen + need)) in
  let* p := b_ptr Input in
  let* seq := get (fun s => seqnr (p_read s)) in
  crypt MODE_IN seq Incoming cp p need aadlen authlen ;*
  check (b_consume Input (u32 (aadlen + need + authlen))) ;*
  when (mac_on nk)
    ((if negb (etm_on nk) then
        (* Not EtM: check MAC over cleartext *)
        let* p := b_ptr Incoming in
        let* len := b_len Incoming in
        let* their := b_ptr Input in
        let* r := check_mac p len their maclen in
        when (negb (r =? 0))
          (when (negb (r =? SSH_ERR_MAC_INVALID)) (early r) ;*
           when (u32 (need + block_size) >? PACKET_MAX_SIZE) (early SSH_ERR_INTERNAL_ERROR) ;*
           let* r := ssh_packet_start_discard nk len (u32 (PACKET_MAX_SIZE - need - block_size)) in
           early r)
      else ret tt) ;*
     (* Remove MAC from input buffer *)
     check (b_consume Input maclen)).

(** [sshpkt_disconnect], wait until it is written, and give up. *)
Definition reject (text : list Z) (code : Z) : M unit :=
  check (sshpkt_disconnect text) ;* check ssh_packet_write_wait ;* early code.

(** The padding and the type of the decrypted packet. *)
Definition open_packet (nk : option newkeys) : M unit :=
  let* p := b_ptr Incoming in
  let padlen := byte_at p 4 in
  when (padlen <? 4)
    (reject (chars "Corrupted padlen " ++ [48 + padlen] ++ chars " on input.") SSH_ERR_CONN_CORRUPT) ;*
  (* skip packet size + padlen, discard padding *)
  check (b_consume Incoming (4 + 1)) ;*
  check (b_consume_end Incoming padlen) ;*
  when (comp_on nk)
    ((fun s => match compression_buffer s with
               | None => (Fatal, s)
               | Some b => let '(b, w) := sshbuf_reset (alloc s) b in
                           (Ok tt, set_alloc (set_compression_buffer s (Some b)) w)
               end) ;*
     check uncompress_buffer ;*
     b_reset Incoming ;*
     let* cb := get compression_buffer in
     check (b_alloc Incoming (fun w b => sshbuf_putb w b cb))) ;*
  (fun s => let '(r, v, b) := sshbuf_get_u8 (incoming_packet s) in
            let s := set_incoming_packet s b in
            let s := match v with Some t => set_typep s t | None => s end in
            if negb (r =? 0) then (Early r, s) else (Ok tt, s)) ;*
  let* t := get typep in
  when (t <? SSH2_MSG_MIN) (reject (chars "Invalid ssh2 packet type: " ++ [48 + t]) SSH_ERR_PROTOCOL_ERROR).

(** The hook that tests may install. *)
Definition run_hook : M unit :=
  fun s => match hook_in s with
           | None => (Ok tt, s)
           | Some f =>
               let '(r, b, t) := f (incoming_packet s) (typep s) in
               let s := set_typep (set_incoming_packet s b) t in
               if negb (r =? 0) then (Early r, s) else (Ok tt, s)
           end.

Definition ssh_packet_read_poll2_mux : M Z := func (
  let* k := get kexp in
  when (match k with Some _ => true | None => false end) (early SSH_ERR_INTERNAL_ERROR) ;*
  modify (fun s => set_typep s SSH_MSG_NONE) ;*
  let* cp := b_ptr Input in
  let* pl := get packlen in
  when (pl =? 0)
    (let* len := b_len Input in
     when (len <? 4 + 1) (early 0) ;*
     modify (fun s => set_packlen s (PEEK_U32 cp)) ;*
     let* pl := get packlen in
     when ((pl <? 4 + 1) || (pl >? PACKET_MAX_SIZE)) (early SSH_ERR_MESSAGE_INCOMPLETE)) ;*
  let* pl := get packlen in
  let need := u32 (pl + 4) in
  let* len := b_len Input in
  when (len <? need) (early 0) ;*
  b_reset Incoming ;*
  check (b_put Incoming (drop 4 cp) pl) ;*
  check (b_consume Input need) ;*
  (fun s => let '(r, _, b) := sshbuf_get_u8 (incoming_packet s) in
            let s := set_incoming_packet s b in
            if negb (r =? 0) then (Early r, s) else (Ok tt, s)) ;*
  (fun s => let '(r, v, b) := sshbuf_get_u8 (incoming_packet s) in
            let s := set_incoming_packet s b in
            let s := match v with Some t => set_typep s t | None => s end in
            if negb (r =? 0) then (Early r, s) else (Ok tt, s)) ;*
  modify (fun s => set_packlen s 0) ;*
  ret 0).

Definition ssh_packet_read_poll2 : M Z := func (
  let* m := get mux in
  if m then ssh_packet_read_poll2_mux
  else
    modify (fun s => set_typep s SSH_MSG_NONE) ;*
    let* d := get packet_discard in
    when (negb (d =? 0)) (early 0) ;*
    let* nk := get newkeys_in in
    let block_size := block_of nk in
    let aadlen := aadlen_of nk in
    read_length nk ;*
    let* pl := get packlen in
    let need := if negb (aadlen =? 0) then pl else u32 (4 + pl - block_size) in
    when (negb (need mod block_size =? 0))
      (let* r := ssh_packet_start_discard nk 0 (u32 (PACKET_MAX_SIZE - block_size)) in early r) ;*
    (* check if the entire packet has been received *)
    let* len := b_len Input in
    when (len <? u32 (aadlen + need + authlen_of nk + maclen_of nk)) (early 0) ;*
    read_body nk need ;*
    modify (fun s => set_seqnr_p s (seqnr (p_read s))) ;*
    count_packet MODE_IN (u32 (pl + 4)) block_size ;*
    open_packet nk ;*
    run_hook ;*
    let* t := get typep in
    let* server := get server_side in
    (if (t =? SSH2_MSG_USERAUTH_SUCCESS) && negb server
     then let* _r := ssh_packet_enable_delayed_compress in ret tt
     else ret tt) ;*
    (* reset for next packet *)
    modify (fun s => set_packlen s 0) ;*
    strict_reset MODE_IN t ;*
    ssh_packet_check_rekey).

(** [buf] is what was read from the socket. *)
Definition ssh_packet_process_incoming (data : list Z) (len : Z) : M Z := func (
  let* d := get packet_discard in
  if negb (d =? 0) then
    modify (fun s => set_keep_alive_timeouts s 0) ;*
    when (len >=? d) (check ssh_packet_stop_discard) ;*
    modify (fun s => set_packet_discard s (u32 (packet_discard s - len))) ;*
    ret 0
  else
    check (b_put Input data len) ;*
    ret 0).

Definition ssh_packet_remaining (s : ssh) : Z := sshbuf_len (incoming_packet s).

(** ** A new connection *)

(** The buffers of the versions are made and not kept in the model. *)
Definition kex_new (w : world) : option kex * world :=
  let '(ok, w) := malloc w in
  if negb ok then (None, w)
  else
    let '(peer, w) := sshbuf_new w in
    match peer with None => (None, w) | Some peer =>
    let '(my, w) := sshbuf_new w in
    match my with None => (None, w) | Some my =>
    let '(cv, w) := sshbuf_new w in
    match cv with None => (None, w) | Some _ =>
    let '(sv, w) := sshbuf_new w in
    match sv with None => (None, w) | Some _ =>
    let '(sid, w) := sshbuf_new w in
    match sid with None => (None, w) | Some sid =>
    (Some (mk_kex None None false 0 false my (mk_neg 0 0 false None None 0 0 0 false false peer sid 0 0 None)), w)
    end end end end end.

(** [ssh->kex->server = server] *)
Definition set_kex_server (k : kex) (server : bool) : kex :=
  let n := k_neg k in
  mk_kex (k_newkeys_in k) (k_newkeys_out k) (k_done k) (k_flags k) (kex_strict k) (k_my k)
    (mk_neg (we_need n) (dh_need n) server (k_name n) (hostkey_alg n) (hostkey_type n) (hostkey_nid n) (kex_type n)
      (ext_info_c n) (ext_info_s n) (k_peer n) (session_id n) (hash_alg n) (ec_nid n) (failed_choice n)).

(** [server], [limit] and [interval] are what ssh_packet_set_server and
    ssh_packet_set_rekey_limits store before the first packet. *)
Definition ssh_alloc_session_state (w : world) (rnd clk : list Z) (wts : list (Z * Z)) (stk : list Z)
    (server : bool) (limit interval : Z) : option ssh :=
  let '(ok, w) := malloc w in
  if negb ok then None
  else
    let '(ok, w) := malloc w in
    if negb ok then None
    else
      match kex_new w with
      | (None, _) => None
      | (Some k, w) =>
          match sshbuf_new w with (None, _) => None | (Some inp, w) =>
          match sshbuf_new w with (None, _) => None | (Some out, w) =>
          match sshbuf_new w with (None, _) => None | (Some og, w) =>
          match sshbuf_new w with (None, _) => None | (Some ic, w) =>
            Some (mk_ssh false 0 false 0 None None None None inp out og ic None
              (mk_ps 0 0 0 0) (mk_ps 0 0 0 0) 0 0 limit interval 0 0 0 true false server 0 None [] (Some (set_kex_server k server)) 0
              0 0 0 w rnd clk wts stk)
          end end end end
      end.

Definition ssh_packet_set_connection (s : ssh) : option ssh :=
  match cipher_by_name (chars "none") with
  | None => None
  | Some none =>
      match cipher_init (alloc s) none [] 0 None 0 true with
      | (0, Some cs, w) =>
          match cipher_init w none [] 0 None 0 false with
          | (0, Some cr, w) =>
              Some (set_alloc (set_newkeys_in (set_newkeys_out
                (set_receive_context (set_send_context s (Some cs)) (Some cr)) None) None) w)
          | _ => None
          end
      | _ => None
      end
  end.

End packet.
