(* ===== verification/PacketBuf.v ===== *)
(** Running the packet layer: lemmas that step through its monad, and what the
    operations on its buffers do when memory lasts ([alloc s = []]). *)

From stdpp Require Import base list numbers tactics.
From Stdlib Require Import ZArith Lia ZifyBool.
From S2P Require Import Prelude Sshbuf SshbufGetput Chachapoly AesCtr Cipher Digest Mac PacketState Packet.

(** ** Buffers when memory lasts *)

(** A buffer of the packet layer. *)
Definition good (b : sshbuf) : Prop :=
  wf b /\ writable b = true /\ sb_max_size b = SSHBUF_SIZE_MAX.

Lemma good_frame b b' : good b -> wf b' -> same_frame b b' -> good b'.
Proof.
  intros (Hw & Hwr & Hm) Hw' Hf. split_and!; [done| |].
  - by rewrite (same_frame_writable _ _ Hf).
  - destruct Hf as (-> & _). done.
Qed.

Lemma recallocarray_nil l o n s x w : recallocarray [] l o n s = (x, w) -> w = [].
Proof.
  unfold recallocarray. destruct (mul_overflows n s); [by intros [= <- <-]|].
  destruct (mul_overflows o s); [by intros [= <- <-]|]. cbn [malloc negb].
  destruct (_ >? _); by intros [= <- <-].
Qed.

Lemma allocate_nil b len r b' w : sshbuf_allocate [] b len = (r, b', w) -> w = [].
Proof.
  unfold sshbuf_allocate. destruct (negb _); [by intros [= <- <- <-]|].
  destruct (_ <=? _); [by intros [= <- <- <-]|].
  destruct (recallocarray [] _ _ _ _) as [[dp|] w'] eqn:E; apply recallocarray_nil in E as ->.
  - destruct (_ <? 0); by intros [= <- <- <-].
  - by intros [= <- <- <-].
Qed.

(** Reserving space succeeds, and filling it appends. *)
Lemma reserve_good b len :
  good b -> 0 <= len -> Z.of_nat (length (contents b)) + len <= SSHBUF_SIZE_MAX ->
  exists b' dp, sshbuf_reserve [] b len = (0, b', Some dp, []) /\
    (Z.to_nat dp + Z.to_nat len <= length (block b'))%nat /\ 0 <= dp /\
    forall v, bytes_ok v -> Z.of_nat (length v) = len ->
      good (mem_write b' dp v) /\ contents (mem_write b' dp v) = contents b ++ v.
Proof.
  intros (Hwf & Hwr & Hm) Hlen Hroom.
  assert (Hcr : sshbuf_check_reserve b len = 0).
  { rewrite check_reserve_spec by done. rewrite Hwr, Hm. cbn [negb]. by destruct (Z.gtb_spec (Z.of_nat (length (contents b)) + len) SSHBUF_SIZE_MAX); [lia|]. }
  destruct (sshbuf_reserve [] b len) as [[[r b'] p] w] eqn:E.
  assert (Hr : r = 0 /\ w = [] /\ exists dp, p = Some dp /\ 0 <= dp /\ (Z.to_nat dp + Z.to_nat len <= length (block b'))%nat).
  { unfold sshbuf_reserve in E. destruct (sshbuf_allocate [] b len) as [[r1 b1] w1] eqn:Ea.
    pose proof (allocate_nil _ _ _ _ _ Ea) as ->.
    apply allocate_spec in Ea as (Hwf1 & _ & _ & _ & Hz); [|done|done]. destruct (Hz Hcr) as [[-> Hroom1]|[_ Hf]]; [|done].
    cbn [negb Z.eqb] in E. injection E as <- <- <- <-. split_and!; try done. eexists. split; [done|].
    pose proof (wf_bounds b1 Hwf1). pose proof (wf_len b1 Hwf1). unfold block, set_window in *. cbn [sb_cd]. lia. }
  destruct Hr as (-> & -> & dp & -> & Hdp & Hb). exists b', dp. split_and!; try done. intros v Hv Hl.
  rewrite <- Hl in E. apply reserve_write_spec in E; [|done..]. rewrite Hl, Hcr in E.
  destruct E as [(_ & _ & dp' & [= <-] & Hw' & Hc' & Hf')|(? & _)]; [|lia].
  split; [by apply (good_frame b)|done].
Qed.

Lemma put_good b v len :
  good b -> bytes_ok v -> 0 <= len <= Z.of_nat (length v) ->
  Z.of_nat (length (contents b)) + len <= SSHBUF_SIZE_MAX ->
  exists b', sshbuf_put [] b v len = (0, b', []) /\ good b' /\ contents b' = contents b ++ take (Z.to_nat len) v.
Proof.
  intros Hg Hv Hlen Hroom. destruct (reserve_good b len Hg ltac:(lia) Hroom) as (b1 & dp & E & _ & _ & Hw).
  destruct (Hw (take (Z.to_nat len) v)) as [Hg' Hc']; [by apply Forall_take|rewrite length_take; lia|].
  exists (mem_write b1 dp (take (Z.to_nat len) v)). split; [|done].
  replace (sshbuf_put [] b v len) with (sshbuf_put [] b (take (Z.to_nat len) v) (Z.of_nat (length (take (Z.to_nat len) v)))).
  - rewrite sshbuf_put_fill by apply Hg. unfold reserve_fill. rewrite length_take, Nat.min_l by lia.
    by rewrite Z2Nat.id, E by lia.
  - unfold sshbuf_put. rewrite length_take, Nat.min_l by lia. rewrite Z2Nat.id by lia. by rewrite take_take, Nat.min_id.
Qed.

Lemma consume_good b len :
  good b -> 0 <= len <= Z.of_nat (length (contents b)) ->
  exists b', sshbuf_consume b len = (0, b') /\ good b' /\ contents b' = drop (Z.to_nat len) (contents b).
Proof.
  intros Hg Hlen. destruct (sshbuf_consume b len) as [r b'] eqn:E.
  apply consume_spec in E as (Hw & Hf & H); [|apply Hg|lia].
  rewrite (proj2 (Z.leb_le _ _)) in H by lia. destruct H as [-> Hc]. exists b'. split_and!; try done.
  by apply (good_frame b).
Qed.

Lemma consume_end_good b len :
  good b -> 0 <= len <= Z.of_nat (length (contents b)) ->
  exists b', sshbuf_consume_end b len = (0, b') /\ good b' /\
    contents b' = take (length (contents b) - Z.to_nat len) (contents b).
Proof.
  intros Hg Hlen. destruct (sshbuf_consume_end b len) as [r b'] eqn:E.
  apply consume_end_spec in E as (Hw & Hf & H); [|apply Hg|lia].
  rewrite (proj2 (Z.leb_le _ _)) in H by lia. destruct H as [-> Hc]. exists b'. split_and!; try done.
  by apply (good_frame b).
Qed.

Lemma reset_good b : good b -> exists b', sshbuf_reset [] b = (b', []) /\ good b' /\ contents b' = [].
Proof.
  intros Hg. destruct (sshbuf_reset [] b) as [b' w] eqn:E. assert (w = []) as ->.
  { unfold sshbuf_reset in E. destruct (_ || _); [by injection E|]. destruct (negb (sshbuf_check_sanity b =? 0)); [by injection E|].
    destruct (negb _).
    - destruct (recallocarray [] _ _ _ _) as [[d|] w1] eqn:Er; apply recallocarray_nil in Er as ->; by injection E.
    - by injection E. }
  apply sshbuf_reset_spec in E as (Hw & Hc & Hf & _); [|apply Hg|destruct Hg as (_ & _ & ->); unfold SSHBUF_SIZE_INIT, SSHBUF_SIZE_MAX; lia].
  exists b'. split_and!; try done. by apply (good_frame b).
Qed.

Lemma len_good b : good b -> sshbuf_len b = Z.of_nat (length (contents b)).
Proof. intros Hg. apply sshbuf_len_contents, Hg. Qed.

Lemma ptr_good b : good b -> exists slack, sshbuf_ptr b = Some (contents b ++ slack) /\ bytes_ok slack.
Proof.
  intros Hg. destruct (sshbuf_ptr_spec b (proj1 Hg)) as [slack E]. exists slack. split; [done|].
  pose proof (wf_bytes b (proj1 Hg)) as Hb. unfold sshbuf_ptr in E.
  destruct (negb _); [done|]. injection E as E.
  assert (bytes_ok (contents b ++ slack)) as H by (rewrite <- E; by apply Forall_drop).
  by apply bytes_ok_app in H as [_ ?].
Qed.

(** Writing over the start of the contents. *)
Lemma mutable_ptr_good b : good b -> sshbuf_mutable_ptr b = Some (sb_off b).
Proof.
  intros (Hw & Hwr & _). unfold sshbuf_mutable_ptr. rewrite (wf_sane b Hw). cbn [negb Z.eqb orb].
  unfold writable in Hwr. by destruct (sb_readonly b || (sb_refcount b >? 1)).
Qed.

Lemma overwrite_good b v :
  good b -> bytes_ok v -> (length v <= length (contents b))%nat ->
  good (mem_write b (sb_off b) v) /\ contents (mem_write b (sb_off b) v) = v ++ drop (length v) (contents b).
Proof.
  intros Hg Hv Hl. pose proof (wf_bounds b (proj1 Hg)) as Hb. pose proof (wf_len b (proj1 Hg)) as Hlb.
  pose proof (length_contents b (proj1 Hg)) as Hlc. unfold mem_write.
  assert (Hlen : (Z.to_nat (sb_off b) + length v <= length (block b))%nat) by lia.
  split.
  - destruct Hg as (Hw & Hwr & Hm). split_and!; [|done..]. apply wf_set_block; [done|by apply length_splice|].
    apply bytes_ok_splice; [apply Hw|done].
  - change (take (Z.to_nat (sb_size b - sb_off b)) (drop (Z.to_nat (sb_off b)) (splice (block b) (Z.to_nat (sb_off b)) v)) =
            v ++ drop (length v) (contents b)).
    replace (Z.to_nat (sb_size b - sb_off b)) with (Z.to_nat (sb_size b) - Z.to_nat (sb_off b))%nat by lia.
    replace (splice (block b) (Z.to_nat (sb_off b)) v) with (splice (block b) (Z.to_nat (sb_off b) + 0) v) by (f_equal; lia).
    rewrite splice_window by lia.
    replace (Z.to_nat (sb_size b) - Z.to_nat (sb_off b))%nat with (Z.to_nat (sb_size b - sb_off b)) by lia.
    change (take (Z.to_nat (sb_size b - sb_off b)) (drop (Z.to_nat (sb_off b)) (block b))) with (contents b).
    unfold splice. by rewrite take_0.
Qed.

(** Octets through a pointer, given as all of the memory behind it. *)
Lemma mem_write_tail b dp v :
  (Z.to_nat dp + length v <= length (block b))%nat ->
  mem_write b dp (splice (drop (Z.to_nat dp) (block b)) 0 v) = mem_write b dp v.
Proof.
  intros Hl. unfold mem_write. f_equal. unfold splice at 2. rewrite take_0. cbn [app Nat.add]. rewrite drop_drop.
  unfold splice. f_equal. rewrite <- app_assoc. f_equal. rewrite length_app, length_drop.
  rewrite (drop_ge (block b) (_ + (_ + _))) by lia. by rewrite app_nil_r.
Qed.

(** ** Stepping through the monad *)

Section steps.
Context {md : MD} {um : Umac}.

Lemma bind_ok {A B} (m : M A) (f : A -> M B) s a s' : m s = (Ok a, s') -> bind m f s = f a s'.
Proof. unfold bind. by intros ->. Qed.

Lemma bind_early {A B} (m : M A) (f : A -> M B) s r s' : m s = (Early r, s') -> bind m f s = (Early r, s').
Proof. unfold bind. by intros ->. Qed.

Lemma bind_get {A B} (g : ssh -> A) (f : A -> M B) s : bind (get g) f s = f (g s) s.
Proof. done. Qed.

Lemma bind_modify {B} (g : ssh -> ssh) (f : unit -> M B) s : bind (modify g) f s = f tt (g s).
Proof. done. Qed.

Lemma bind_ret {A B} (a : A) (f : A -> M B) s : bind (ret a) f s = f a s.
Proof. done. Qed.

Lemma bind_when_false {B} m (f : unit -> M B) s : bind (when false m) f s = f tt s.
Proof. done. Qed.

Lemma bind_assoc {A B C} (m : M A) (f : A -> M B) (g : B -> M C) s :
  bind (bind m f) g s = bind m (fun a => bind (f a) g) s.
Proof. unfold bind. by destruct (m s) as [[a|r|] s']. Qed.

(** A call whose result is 0. *)
Lemma bind_check {B} (m : M Z) (f : unit -> M B) s s' : m s = (Ok 0, s') -> bind (check m) f s = f tt s'.
Proof. intros E. unfold check, bind. by rewrite E. Qed.

Lemma func_ok body s r s' : body s = (Ok r, s') -> func body s = (Ok r, s').
Proof. unfold func. by intros ->. Qed.

Lemma func_early body s r s' : body s = (Early r, s') -> func body s = (Ok r, s').
Proof. unfold func. by intros ->. Qed.

Lemma set_alloc_same s w : alloc s = w -> set_alloc s w = s.
Proof. intros <-. by destruct s. Qed.

Lemma alloc_set_buf n s b : alloc (set_buf n s b) = alloc s.
Proof. by destruct n. Qed.

Lemma buf_set_buf n s b : buf n (set_buf n s b) = b.
Proof. by destruct n. Qed.

Lemma set_buf_set_buf n s b b' : set_buf n (set_buf n s b) b' = set_buf n s b'.
Proof. by destruct n. Qed.

(** The operations on buffers, on a state with good buffers and enough memory. *)
Lemma b_len_ok n s : good (buf n s) -> b_len n s = (Ok (Z.of_nat (length (contents (buf n s)))), s).
Proof. intros Hg. unfold b_len, get. by rewrite len_good. Qed.

Lemma b_ptr_ok n s : good (buf n s) ->
  exists slack, b_ptr n s = (Ok (contents (buf n s) ++ slack), s) /\ bytes_ok slack.
Proof. intros Hg. destruct (ptr_good _ Hg) as (slack & E & Hs). exists slack. unfold b_ptr. by rewrite E. Qed.

Lemma b_put_ok n s v len :
  good (buf n s) -> alloc s = [] -> bytes_ok v -> 0 <= len <= Z.of_nat (length v) ->
  Z.of_nat (length (contents (buf n s))) + len <= SSHBUF_SIZE_MAX ->
  exists b', b_put n v len s = (Ok 0, set_buf n s b') /\ good b' /\
    contents b' = contents (buf n s) ++ take (Z.to_nat len) v.
Proof.
  intros Hg Ha Hv Hl Hr. destruct (put_good _ v len Hg Hv Hl Hr) as (b' & E & Hg' & Hc).
  exists b'. split; [|done]. unfold b_put, b_alloc. rewrite Ha, E. by rewrite set_alloc_same by (by rewrite alloc_set_buf).
Qed.

Lemma b_consume_ok n s len :
  good (buf n s) -> 0 <= len <= Z.of_nat (length (contents (buf n s))) ->
  exists b', b_consume n len s = (Ok 0, set_buf n s b') /\ good b' /\
    contents b' = drop (Z.to_nat len) (contents (buf n s)).
Proof.
  intros Hg Hl. destruct (consume_good _ len Hg Hl) as (b' & E & H). exists b'. unfold b_consume. by rewrite E.
Qed.

Lemma b_consume_end_ok n s len :
  good (buf n s) -> 0 <= len <= Z.of_nat (length (contents (buf n s))) ->
  exists b', b_consume_end n len s = (Ok 0, set_buf n s b') /\ good b' /\
    contents b' = take (length (contents (buf n s)) - Z.to_nat len) (contents (buf n s)).
Proof.
  intros Hg Hl. destruct (consume_end_good _ len Hg Hl) as (b' & E & H). exists b'. unfold b_consume_end. by rewrite E.
Qed.

Lemma b_reset_ok n s :
  good (buf n s) -> alloc s = [] ->
  exists b', b_reset n s = (Ok tt, set_buf n s b') /\ good b' /\ contents b' = [].
Proof.
  intros Hg Ha. destruct (reset_good _ Hg) as (b' & E & H). exists b'. unfold b_reset. rewrite Ha, E.
  by rewrite set_alloc_same by (by rewrite alloc_set_buf).
Qed.

Lemma b_reserve_ok n s len :
  good (buf n s) -> alloc s = [] -> 0 <= len ->
  Z.of_nat (length (contents (buf n s))) + len <= SSHBUF_SIZE_MAX ->
  exists b' dp, b_reserve n len s = (Ok dp, set_buf n s b') /\
    (Z.to_nat dp + Z.to_nat len <= length (block b'))%nat /\ 0 <= dp /\
    forall v, bytes_ok v -> Z.of_nat (length v) = len ->
      good (mem_write b' dp v) /\ contents (mem_write b' dp v) = contents (buf n s) ++ v.
Proof.
  intros Hg Ha Hl Hr. destruct (reserve_good _ len Hg Hl Hr) as (b' & dp & E & H). exists b', dp. split; [|done].
  unfold b_reserve. rewrite Ha, E. cbn [negb Z.eqb]. by rewrite set_alloc_same by (by rewrite alloc_set_buf).
Qed.

End steps.
