(* ===== verification/PacketSend.v ===== *)
(** What the packet layer sends: the octets of a packet on the wire, and that
    finishing an outgoing packet produces them.

    One direction of a connection has an abstract state [dir]: the state of the
    cipher, the secret of the mac, and the block size.  [dir_ok] relates it to
    the keys and the cipher context of one end; the two ends of a direction that
    understand each other have the same [dir]. *)

From stdpp Require Import base list numbers tactics.
From Stdlib Require Import ZArith Lia ZifyBool.
From S2P Require Import Prelude Sshbuf SshbufGetput Chachapoly AesCtr Cipher Digest Mac PacketState Packet PacketBuf.

#[local] Open Scope ssh_scope.

Section send.
Context {md : MD} {um : Umac} {mdl : MDLaws} {uml : UmacLaws}.

(** ** The wire format *)

Record dir := mk_dir {
  d_state : cipher_state;
  (** The secret, the length of the tags, and whether they cover the ciphertext. *)
  d_mac : option (mac_secret * Z * bool);
  d_block : Z
}.

Definition d_etm (d : dir) : bool := match d_mac d with Some (_, _, etm) => etm | None => false end.
Definition d_maclen (d : dir) : Z := match d_mac d with Some (_, len, _) => len | None => 0 end.
Definition d_aad (d : dir) : nat := if d_etm d || (0 <? taglen (d_state d))%nat then 4 else 0.

Definition d_next (d : dir) (n : nat) : dir := mk_dir (next_state (d_state d) n) (d_mac d) (d_block d).

(** RFC 4253, section 6: length, padding length, payload, padding. *)
Definition plain (p pad : list Z) : list Z :=
  POKE_U32 (Z.of_nat (1 + length p + length pad)) ++ [Z.of_nat (length pad)] ++ p ++ pad.

Definition pad_ok (d : dir) (p pad : list Z) : Prop :=
  bytes_ok pad /\ (4 <= length pad <= 255)%nat /\
  Z.of_nat (5 + length p + length pad - d_aad d) mod d_block d = 0.

Definition ciphertext (d : dir) (seq : Z) (pl : list Z) : list Z :=
  sealed (d_state d) seq (take (d_aad d) pl) (drop (d_aad d) pl).

Definition d_tag (d : dir) (seq : Z) (pl : list Z) : list Z :=
  match d_mac d with
  | None => []
  | Some (k, len, etm) => mac_tag len k seq (if etm then ciphertext d seq pl else pl)
  end.

Definition wire (d : dir) (seq : Z) (pl : list Z) : list Z := ciphertext d seq pl ++ d_tag d seq pl.

(** The keys and the context of one end are those of the direction. *)
Definition dir_ok (e : bool) (nk : option newkeys) (cc : option sshcipher_ctx) (d : dir) : Prop :=
  exists c, cc = Some c /\ encrypt c = e /\ has_state c (d_state d) /\
  match nk with
  | None => d_state d = SNone /\ d_mac d = None /\ d_block d = 8
  | Some k =>
      In (cipher c) ciphers /\ e_cipher (enc k) = cipher c /\ e_block_size (enc k) = block_size (cipher c) /\
      d_block d = block_size (cipher c) /\ comp_enabled (comp k) = false /\ m_enabled (nmac k) = true /\
      match d_mac d with
      | None => auth_len (cipher c) <> 0
      | Some (sec, len, etm) =>
          auth_len (cipher c) = 0 /\ mac_keyed (nmac k) sec /\ mac_len (nmac k) = len /\ m_etm (nmac k) = etm
      end
  end.

(** The parameters that the code computes from the keys. *)
Lemma dir_params e nk cc d :
  dir_ok e nk cc d ->
  authlen_of nk = Z.of_nat (taglen (d_state d)) /\ mac_on nk = bool_decide (is_Some (d_mac d)) /\
  etm_on nk = d_etm d /\ block_of nk = d_block d /\ aadlen_of nk = Z.of_nat (d_aad d) /\
  maclen_of nk = d_maclen d /\ comp_on nk = false /\ (d_block d = 8 \/ d_block d = 16) /\
  0 <= d_maclen d <= SSH_DIGEST_MAX_LENGTH.
Proof.
  intros (c & -> & _ & Hst & H). destruct nk as [k|].
  - destruct H as (Hin & Hc & Hbs & Hdb & Hco & Hen & Hm).
    pose proof (taglen_authlen c _ Hin Hst) as Ht. unfold cipher_authlen in Ht.
    assert (Hb : block_size (cipher c) = 8 \/ block_size (cipher c) = 16).
    { destruct (cipher_cases _ Hin) as [(_ & -> & _)|[(_ & -> & _)|(_ & -> & _)]]; tauto. }
    assert (Ha : 0 <= auth_len (cipher c)).
    { destruct (cipher_cases _ Hin) as [(_ & _ & _ & _ & ->)|[(_ & _ & _ & _ & ->)|(_ & _ & _ & _ & ->)]]; lia. }
    unfold aadlen_of, maclen_of, etm_on, mac_on, authlen_of, block_of, comp_on, d_aad, d_etm, d_maclen.
    unfold cipher_authlen. rewrite Hc, Hbs, Hco, Hen, Hdb. destruct (d_mac d) as [[[sec len] etm]|].
    + destruct Hm as (H0 & Hk & Hl & He). rewrite H0 in *. cbn in Ht. rewrite Ht, Hl, He.
      pose proof (full_tag_length (nmac k) sec 0 [] Hk). rewrite Hl in *.
      split_and!; try done; try lia. by destruct etm.
    + rewrite (proj2 (Z.eqb_neq _ 0) Hm). cbn [andb negb orb]. rewrite (proj2 (Nat.ltb_lt 0 (taglen (d_state d)))) by lia.
      unfold SSH_DIGEST_MAX_LENGTH. split_and!; try done; lia.
  - destruct H as (Hs & Hm & Hb). unfold d_aad, d_etm, d_maclen. rewrite Hs, Hm, Hb.
    unfold SSH_DIGEST_MAX_LENGTH. split_and!; try done; lia.
Qed.

(** ** Padding *)

Lemma base_padlen_spec bs len :
  bs = 8 \/ bs = 16 -> 0 <= len ->
  4 <= base_padlen bs len <= bs + 3 /\ (len + base_padlen bs len) mod bs = 0.
Proof.
  intros Hbs Hlen. unfold base_padlen, u8.
  assert (0 <= len mod bs < bs) by (apply Z.mod_pos_bound; lia).
  rewrite (Z.mod_small (bs - len mod bs)) by lia.
  destruct (Z.ltb_spec (bs - len mod bs) 4).
  - rewrite Z.mod_small by lia. split; [lia|]. destruct Hbs as [-> | ->]; dm_lia.
  - split; [lia|]. destruct Hbs as [-> | ->]; dm_lia.
Qed.

Lemma set_newkeys_out_same s : set_newkeys_out s (newkeys_out s) = s.
Proof. by destruct s. Qed.

Lemma set_extra_pad_same s v : extra_pad s = v -> set_extra_pad s v = s.
Proof. intros <-. by destruct s. Qed.

(** Extra padding keeps the packet a multiple of the block size and the padding
    within its one octet, or is refused. *)
Lemma extra_padding_spec bs len padlen s :
  bs = 8 \/ bs = 16 -> 0 <= len -> 4 <= padlen <= 255 -> len + padlen < 2 ^ 32 ->
  (len + padlen) mod bs = 0 -> 0 <= extra_pad s <= 255 ->
  (extra_pad s <> 0 /\ exists s', extra_padding bs len padlen s = (Early SSH_ERR_INVALID_ARGUMENT, s')) \/
  exists padlen', extra_padding bs len padlen s = (Ok padlen', set_extra_pad s 0) /\
    padlen <= padlen' <= 255 /\ (len + padlen') mod bs = 0 /\ (extra_pad s = 0 -> padlen' = padlen).
Proof.
  intros Hbs Hlen Hp Hlp Hm Hep. unfold extra_padding. rewrite bind_get.
  destruct (Z.eqb_spec (extra_pad s) 0) as [E|E].
  - right. exists padlen. rewrite set_extra_pad_same by done. split_and!; try done; lia.
  - rewrite bind_modify. set (ep := extra_pad s) in *. cbv zeta.
    set (up := (ep + (bs - 1)) / bs * bs).
    assert (Hup : u32 (u32 (ep + (bs - 1)) / bs * bs) = up /\ ep <= up < ep + bs /\ up mod bs = 0).
    { unfold up, u32. destruct Hbs as [-> | ->]; rewrite !Z.mod_small by dm_lia; dm_lia. }
    destruct Hup as (-> & Hup & Hupm).
    destruct (Z.ltb_spec (u8 up) ep) as [Hlt|Hge]; [left; split; [done|]; by eexists|].
    assert (Hu : u8 up = up).
    { unfold u8 in *. destruct (Z.lt_ge_cases up 256); [by apply Z.mod_small; lia|]. exfalso. dm_lia. }
    rewrite Hu in *. unfold u32. rewrite (Z.mod_small (len + padlen)) by lia.
    set (tmp := (len + padlen) mod up). assert (Ht : 0 <= tmp < up) by (apply Z.mod_pos_bound; lia).
    assert (Hupb : up <= 255) by (unfold u8 in Hu; dm_lia).
    unfold u8. rewrite (Z.mod_small tmp) by lia.
    replace (tmp >? up) with false by lia. rewrite (Z.mod_small (up - tmp)) by lia.
    destruct (Z.ltb_spec ((padlen + (up - tmp)) mod 2 ^ 8) padlen) as [Hl|Hl].
    { left. split; [done|]. by eexists. }
    right. exists (padlen + (up - tmp)).
    assert (Hsm : (padlen + (up - tmp)) mod 2 ^ 8 = padlen + (up - tmp)) by dm_lia.
    rewrite Hsm in *. rewrite bind_modify. split; [done|]. split; [dm_lia|]. split; [|lia].
    assert (Htm : tmp mod bs = 0).
    { unfold tmp. rewrite (Z.mod_eq _ up) by lia. apply Z.mod_divide; [lia|].
      apply Z.divide_sub_r; [by apply Z.mod_divide; [lia|]|]. apply Z.divide_mul_l. by apply Z.mod_divide; [lia|]. }
    replace (len + (padlen + (up - tmp))) with ((len + padlen) + up - tmp) by lia.
    apply Z.mod_divide; [lia|]. apply Z.divide_sub_r; [apply Z.divide_add_r|]; apply Z.mod_divide; lia || done.
Qed.

(** ** Encrypting and authenticating *)

Definition stack_ok (s : ssh) : Prop := bytes_ok (stack s) /\ length (stack s) = 64%nat.

(** The octets of a packet, encrypted into reserved space. *)
Lemma send_crypt_seals s st seq dp aad msg slack authlen :
  (exists c, send_context s = Some c /\ encrypt c = true /\ has_state c st) -> stack_ok s ->
  bytes_ok aad -> bytes_ok msg -> bytes_ok slack -> Z.of_nat (length aad + length msg) < 2 ^ 32 ->
  (Z.to_nat dp + (length aad + length msg + taglen st) <= length (block (output s)))%nat ->
  exists c c', send_context s = Some c /\
    crypt MODE_OUT seq Output dp (aad ++ msg ++ slack) (Z.of_nat (length msg)) (Z.of_nat (length aad)) authlen s =
      (Ok tt, set_send_context (set_output s (mem_write (output s) dp (sealed st seq aad msg))) (Some c')) /\
    has_state c' (next_state st (length msg)) /\ same_cipher c c'.
Proof.
  intros (c & Hc & He & Hs) [Hst Hsl] Ha Hm Hk Hl Hb.
  destruct (cipher_crypt_seals c st (stack s) seq (drop (Z.to_nat dp) (block (output s))) aad msg slack authlen)
    as (c' & E & Hs' & Hsc); try done; [rewrite length_drop; lia|].
  exists c, c'. split_and!; try done. unfold crypt. cbn [ctx_of buf]. rewrite Hc, E. cbn [negb Z.eqb set_ctx set_buf].
  by rewrite mem_write_tail by (rewrite (length_sealed c) by done; lia).
Qed.

(** The tag of the current keys. *)
Lemma compute_mac_ok mode s k sec seq data n :
  newkeys_of mode s = Some k -> mac_keyed (nmac k) sec -> stack_ok s ->
  exists mac', compute_mac mode seq data n s =
      (Ok (splice (stack s) 0 (mac_tag (mac_len (nmac k)) sec seq (take (Z.to_nat n) data))),
       set_newkeys mode s (Some (mk_newkeys (enc k) mac' (comp k)))) /\
    mac_keyed mac' sec /\ same_mac (nmac k) mac'.
Proof.
  intros Hk Hm _. unfold compute_mac. rewrite Hk.
  pose proof (full_tag_length (nmac k) sec seq data Hm).
  destruct (mac_compute_tag (alloc s) (nmac k) sec seq data n (stack s) (stack s) SSH_DIGEST_MAX_LENGTH Hm)
    as (mac' & -> & Hm' & Hs); [lia|]. cbn [negb Z.eqb]. by exists mac'.
Qed.

(** The state after a packet: only these members changed. *)
Definition sent (s : ssh) (og o : sshbuf) (c : sshcipher_ctx) (nk : option newkeys) (rnd : list Z) : ssh :=
  set_outgoing_packet (set_output (set_send_context (set_newkeys_out (set_random (set_extra_pad s 0) rnd) nk) (Some c)) o) og.

(** What the keys look like after a tag was computed. *)
Definition with_mac (nk : option newkeys) (mac : sshmac) : option newkeys :=
  option_map (fun k => mk_newkeys (enc k) mac (comp k)) nk.

Lemma dir_ok_next e nk c d c' n :
  dir_ok e nk (Some c) d -> same_cipher c c' -> has_state c' (next_state (d_state d) n) ->
  dir_ok e nk (Some c') (d_next d n).
Proof.
  intros (c0 & [= <-] & He & Hs & H) (Hc & Hen & _) Hs'. exists c'. split; [done|]. split; [congruence|].
  split; [done|]. destruct nk as [k|].
  - by rewrite Hc.
  - destruct H as (H1 & H2 & H3). cbn [d_next d_state d_mac d_block]. by rewrite H1.
Qed.

Lemma dir_ok_mac e k c d mac' :
  dir_ok e (Some k) c d -> same_mac (nmac k) mac' ->
  (forall sec len etm, d_mac d = Some (sec, len, etm) -> mac_keyed mac' sec) ->
  dir_ok e (Some (mk_newkeys (enc k) mac' (comp k))) c d.
Proof.
  intros (c0 & Hc0 & He & Hs & H1 & H2 & H3 & H4 & H5 & H6 & H7) (M1 & M2 & M3 & M4) Hm.
  exists c0. cbn [PacketState.enc nmac comp]. split_and!; try done; [congruence|].
  destruct (d_mac d) as [[[sec len] etm]|]; [|done]. destruct H7 as (? & ? & ? & ?).
  split_and!; [done|by eapply Hm|congruence|congruence].
Qed.

Lemma length_plain p pad : length (plain p pad) = (5 + length p + length pad)%nat.
Proof. unfold plain. rewrite !length_app. cbn [length]. unfold POKE_U32. cbn [length]. lia. Qed.

Lemma bytes_ok_plain p pad :
  bytes_ok p -> bytes_ok pad -> (length pad <= 255)%nat -> bytes_ok (plain p pad).
Proof.
  intros Hp Hpad Hl. unfold plain. rewrite !bytes_ok_app. split_and!; try done.
  - apply bytes_ok_POKE_U32.
  - apply Forall_cons_2; [unfold is_byte; lia|constructor].
Qed.

Lemma length_ciphertext c d seq pl :
  has_state c (d_state d) -> (d_aad d <= length pl)%nat ->
  length (ciphertext d seq pl) = (length pl + taglen (d_state d))%nat.
Proof.
  intros Hs Hl. unfold ciphertext. rewrite (length_sealed c) by done. rewrite length_take, length_drop. lia.
Qed.

Lemma d_aad_le d : (d_aad d <= 4)%nat.
Proof. unfold d_aad. destruct (_ || _); lia. Qed.

(** ** Finishing a packet *)

(** The room the packet layer needs: for the packet with its padding, and for
    its ciphertext and tag in the output. *)
Definition room (s : ssh) : Prop :=
  Z.of_nat (length (contents (outgoing_packet s))) + 255 <= SSHBUF_SIZE_MAX /\
  Z.of_nat (length (contents (output s)) + length (contents (outgoing_packet s))) + 400 <= SSHBUF_SIZE_MAX.

(** The padding octets: random or zero. *)
Lemma padding_octets nk cc d padlen s :
  dir_ok true nk cc d -> send_context s = cc -> 0 <= padlen ->
  exists pad rnd,
    (match nk, send_context s with
     | Some _, None => fatal
     | Some _, Some cc => if cipher_ctx_is_plaintext cc then ret (replicate (Z.to_nat padlen) 0) else arc4random_buf padlen
     | None, _ => ret (replicate (Z.to_nat padlen) 0)
     end) s = (Ok pad, set_random s rnd) /\ bytes_ok pad /\ Z.of_nat (length pad) = padlen.
Proof.
  intros (c & -> & _) Hc Hp. rewrite Hc.
  assert (Hz : exists pad rnd, ret (replicate (Z.to_nat padlen) 0) s = (Ok pad, set_random s rnd) /\
    bytes_ok pad /\ Z.of_nat (length pad) = padlen).
  { exists (replicate (Z.to_nat padlen) 0), (random s). split; [unfold ret; by destruct s|].
    split; [apply bytes_ok_zeros|]. rewrite length_replicate. lia. }
  destruct nk as [k|]; [|exact Hz]. destruct (cipher_ctx_is_plaintext c); [exact Hz|].
  eexists _, _. split; [done|]. split.
  - apply Forall_map, Forall_forall. intros x _. unfold is_byte, u8, compose. apply Z.mod_pos_bound. lia.
  - rewrite length_map, length_take, length_app, length_replicate. lia.
Qed.

Lemma pad_packet_spec s d h p :
  dir_ok true (newkeys_out s) (send_context s) d -> alloc s = [] ->
  good (outgoing_packet s) -> contents (outgoing_packet s) = h ++ p -> length h = 5%nat -> bytes_ok p ->
  room s -> 0 <= extra_pad s <= 255 ->
  (extra_pad s <> 0 /\ exists s', pad_packet (newkeys_out s) s = (Early SSH_ERR_INVALID_ARGUMENT, s')) \/
  exists pad og rnd, pad_ok d p pad /\ good og /\ contents og = plain p pad /\
    (extra_pad s = 0 -> Z.of_nat (length pad) <= d_block d + 3) /\
    pad_packet (newkeys_out s) s =
      (Ok (Z.of_nat (length (plain p pad))), set_outgoing_packet (set_random (set_extra_pad s 0) rnd) og).
Proof.
  intros Hd Ha Hg Hc Hh Hp (Hr1 & _) Hep. unfold pad_packet.
  destruct (dir_params _ _ _ _ Hd) as (_ & _ & _ & Hbl & Haad & _ & _ & Hb & _). rewrite Hbl, Haad.
  rewrite (bind_ok _ _ _ _ _ (b_len_ok Outgoing s Hg)). cbn [buf]. rewrite Hc, length_app, Hh in *.
  pose proof (d_aad_le d) as Hal. unfold SSHBUF_SIZE_MAX in *.
  set (len := u32 _). assert (El : len = Z.of_nat (5 + length p) - Z.of_nat (d_aad d)).
  { unfold len, u32. rewrite Z.mod_small; lia. }
  destruct (base_padlen_spec (d_block d) len Hb) as [Hp1 Hp2]; [lia|].
  destruct (extra_padding_spec (d_block d) len (base_padlen (d_block d) len) s Hb) as [(Hne & s' & E)|(padlen & E & Hpl & Hpm & Hp0)];
    [lia..|done|done| |].
  { left. split; [done|]. exists s'. by rewrite (bind_early _ _ _ _ _ E). }
  right. rewrite (bind_ok _ _ _ _ _ E).
  destruct (b_reserve_ok Outgoing (set_extra_pad s 0) padlen) as (b1 & dp & Er & _ & _ & Hw); [done|done|lia| |].
  { cbn [buf set_extra_pad outgoing_packet]. rewrite Hc, length_app. unfold SSHBUF_SIZE_MAX. lia. }
  rewrite (bind_ok _ _ _ _ _ Er), bind_get.
  destruct (padding_octets (newkeys_out s) (send_context s) d padlen (set_buf Outgoing (set_extra_pad s 0) b1) Hd)
    as (pad & rnd & Ep & Hpb & Hplen); [done|lia|].
  rewrite (bind_ok _ _ _ _ _ Ep). destruct (Hw pad Hpb Hplen) as [Hg1 Hc1].
  unfold b_write. rewrite bind_modify. cbn [buf set_buf]. ssimp. cbn [buf set_extra_pad outgoing_packet] in Hc1.
  match goal with |- context [bind (b_len Outgoing) _ ?st] => set (s1 := st) end.
  assert (Hog : outgoing_packet s1 = mem_write b1 dp pad) by done.
  assert (Hgo : good (buf Outgoing s1)) by (cbn [buf]; by rewrite Hog).
  rewrite (bind_ok _ _ _ _ _ (b_len_ok Outgoing s1 Hgo)), bind_get. cbn [buf]. rewrite Hog, Hc1, Hc.
  rewrite mutable_ptr_good by done. rewrite bind_modify. unfold ret.
  set (b2 := mem_write b1 dp pad) in *.
  assert (Hlen : u32 (Z.of_nat (length ((h ++ p) ++ pad))) = Z.of_nat (length (plain p pad))).
  { rewrite length_plain, !length_app. unfold u32. rewrite Z.mod_small; lia. }
  rewrite Hlen.
  assert (Hhd : POKE_U32 (u32 (Z.of_nat (length (plain p pad)) - 4)) ++ [padlen] =
                POKE_U32 (Z.of_nat (1 + length p + length pad)) ++ [Z.of_nat (length pad)]).
  { rewrite length_plain, Hplen. unfold u32. rewrite Z.mod_small by lia. do 2 f_equal. lia. }
  rewrite Hhd.
  destruct (overwrite_good b2 (POKE_U32 (Z.of_nat (1 + length p + length pad)) ++ [Z.of_nat (length pad)])) as [Hg2 Hc2].
  { done. }
  { apply bytes_ok_app. split; [apply bytes_ok_POKE_U32|]. apply Forall_cons_2; [unfold is_byte; lia|constructor]. }
  { rewrite Hc1, Hc, !length_app. cbn. lia. }
  exists pad, (mem_write b2 (sb_off b2) (POKE_U32 (Z.of_nat (1 + length p + length pad)) ++ [Z.of_nat (length pad)])), rnd.
  split_and!.
  - split; [done|]. split; [lia|]. rewrite <- Hpm. f_equal. lia.
  - done.
  - rewrite Hc2, Hc1, Hc, <- !app_assoc. unfold plain. do 2 f_equal. rewrite drop_app_ge by (cbn; lia).
    replace (_ - length h)%nat with 0%nat by (rewrite length_app; cbn; lia). by rewrite drop_0.
  - intros E0. rewrite Hplen, (Hp0 E0). lia.
  - reflexivity.
Qed.

Lemma written_octets b dp v :
  (Z.to_nat dp + length v <= length (block b))%nat ->
  take (length v) (drop (Z.to_nat dp) (block (mem_write b dp v))) = v.
Proof.
  intros Hl. change (block (mem_write b dp v)) with (splice (block b) (Z.to_nat dp) v). unfold splice.
  rewrite drop_app_length' by (rewrite length_take; lia). apply take_app_length.
Qed.

(** With a mac of its own, a direction has a cipher without tag. *)
Lemma dir_mac_no_tag e nk cc d x : dir_ok e nk cc d -> d_mac d = Some x -> taglen (d_state d) = 0%nat.
Proof.
  intros (c & -> & _ & Hs & H) Hm. destruct nk as [k|]; [|destruct H as (-> & _); done].
  destruct H as (Hin & _ & _ & _ & _ & _ & H). rewrite Hm in H. destruct x as [[sec len] etm].
  rewrite (taglen_authlen c _ Hin Hs). unfold cipher_authlen. by rewrite (proj1 H).
Qed.

(** Encrypting the packet into the output. *)
Lemma encrypt_step s d seq pl slack :
  dir_ok true (newkeys_out s) (send_context s) d -> alloc s = [] -> stack_ok s ->
  good (output s) -> bytes_ok pl -> (5 <= length pl)%nat -> bytes_ok slack ->
  Z.of_nat (length (contents (output s)) + length pl) + 100 <= SSHBUF_SIZE_MAX ->
  exists cp b c',
    b_reserve Output (Z.of_nat (length pl) + Z.of_nat (taglen (d_state d))) s = (Ok cp, set_output s b) /\
    crypt MODE_OUT seq Output cp (pl ++ slack) (u32 (Z.of_nat (length pl) - Z.of_nat (d_aad d))) (Z.of_nat (d_aad d))
      (Z.of_nat (taglen (d_state d))) (set_output s b) =
      (Ok tt, set_send_context (set_output s (mem_write b cp (ciphertext d seq pl))) (Some c')) /\
    good (mem_write b cp (ciphertext d seq pl)) /\
    contents (mem_write b cp (ciphertext d seq pl)) = contents (output s) ++ ciphertext d seq pl /\
    (Z.to_nat cp + length (ciphertext d seq pl) <= length (block b))%nat /\
    dir_ok true (newkeys_out s) (Some c') (d_next d (length pl - d_aad d)).
Proof.
  intros Hd Ha Hst Hg Hpl Hl5 Hsl Hroom. pose proof (d_aad_le d) as Hal. unfold SSHBUF_SIZE_MAX in Hroom.
  pose proof Hd as (c & Hc & He & Hs & _).
  assert (Htl : (taglen (d_state d) <= 16)%nat) by (destruct (d_state d); cbn; lia).
  pose proof (length_ciphertext c d seq pl Hs ltac:(lia)) as Hlc.
  assert (Hbc : bytes_ok (ciphertext d seq pl)).
  { apply (bytes_ok_sealed c); [done|by apply Forall_take|by apply Forall_drop]. }
  destruct (b_reserve_ok Output s (Z.of_nat (length pl) + Z.of_nat (taglen (d_state d)))) as (b & cp & Er & Hfit & Hcp & Hw);
    [done|done|lia|unfold SSHBUF_SIZE_MAX; cbn [buf]; lia|].
  destruct (Hw (ciphertext d seq pl) Hbc ltac:(lia)) as [Hg' Hc'].
  destruct (send_crypt_seals (set_output s b) (d_state d) seq cp (take (d_aad d) pl) (drop (d_aad d) pl) slack
    (Z.of_nat (taglen (d_state d)))) as (c1 & c' & Hc1 & Ec & Hs' & Hsame); try done.
  { by exists c. }
  { by apply Forall_take. } { by apply Forall_drop. }
  { rewrite length_take, length_drop. lia. }
  { ssimp. rewrite length_take, length_drop. lia. }
  exists cp, b, c'. split; [exact Er|]. split_and!; [|done|done|lia|].
  - rewrite app_assoc, take_drop in Ec. rewrite length_take, length_drop, Nat.min_l in Ec by lia.
    replace (u32 (Z.of_nat (length pl) - Z.of_nat (d_aad d))) with (Z.of_nat (length pl - d_aad d))
      by (unfold u32; rewrite Z.mod_small by lia; lia).
    exact Ec.
  - ssimp_in Hc1. rewrite Hc in Hc1. injection Hc1 as ->. rewrite Hc in Hd.
    apply dir_ok_next with c1; [done|done|]. by rewrite length_drop in Hs'.
Qed.

(** The tag in [macbuf] goes after the ciphertext. *)
Lemma append_tag s tag len :
  good (output s) -> alloc s = [] -> stack_ok s -> bytes_ok tag -> Z.of_nat (length tag) = len ->
  Z.of_nat (length (contents (output s))) + len <= SSHBUF_SIZE_MAX ->
  exists o, check (b_put Output (splice (stack s) 0 tag) len) s = (Ok tt, set_output s o) /\
    good o /\ contents o = contents (output s) ++ tag.
Proof.
  intros Hg Ha Hst Hb Hl Hroom. destruct (b_put_ok Output s (splice (stack s) 0 tag) len) as (o & Eo & Hgo & Hco); try done.
  - apply bytes_ok_splice; [apply Hst|done].
  - unfold splice. rewrite take_0, !length_app. cbn [length]. lia.
  - exists o. split_and!; [|done|].
    + unfold check, bind. by rewrite Eo.
    + cbn [buf] in Hco. rewrite Hco, take_splice_head by lia. by rewrite take_ge by lia.
Qed.

Lemma seal_packet_spec s d pl :
  dir_ok true (newkeys_out s) (send_context s) d -> alloc s = [] -> stack_ok s ->
  good (outgoing_packet s) -> contents (outgoing_packet s) = pl -> good (output s) -> (5 <= length pl)%nat ->
  Z.of_nat (length (contents (output s)) + length pl) + 100 <= SSHBUF_SIZE_MAX ->
  exists nk c o,
    seal_packet (newkeys_out s) (Z.of_nat (length pl)) s =
      (Ok tt, set_output (set_send_context (set_newkeys_out s nk) (Some c)) o) /\
    good o /\ contents o = contents (output s) ++ wire d (seqnr (p_send s)) pl /\
    dir_ok true nk (Some c) (d_next d (length pl - d_aad d)) /\ (is_Some (newkeys_out s) -> is_Some nk).
Proof.
  intros Hd Ha Hst Hgo Hco Hg Hl5 Hroom.
  destruct (dir_params _ _ _ _ Hd) as (Hau & Hmo & Heo & _ & Haad & Hml & _ & _ & Hmb).
  unfold seal_packet. rewrite Hau, Hmo, Heo, Haad, Hml.
  destruct (b_ptr_ok Outgoing s Hgo) as (slack & Ep & Hsl). cbn [buf] in Ep. rewrite Hco in Ep.
  rewrite (bind_ok _ _ _ _ _ Ep), bind_get. set (seq := seqnr (p_send s)).
  assert (Hpb : bytes_ok pl) by (rewrite <- Hco; apply bytes_ok_contents, Hgo).
  destruct (d_mac d) as [[[sec len] etm]|] eqn:Hm.
  - (* a mac *)
    pose proof (dir_mac_no_tag _ _ _ _ _ Hd Hm) as Ht. unfold d_etm, d_maclen in *. rewrite Hm in *.
    rewrite bool_decide_eq_true_2 by (by eexists).
    destruct (newkeys_out s) as [k|] eqn:Ek.
    2:{ destruct Hd as (c & _ & _ & _ & _ & Hm' & _). congruence. }
    assert (Hkm : mac_keyed (nmac k) sec /\ mac_len (nmac k) = len).
    { destruct Hd as (c & _ & _ & _ & _ & _ & _ & _ & _ & _ & H). rewrite Hm in H. tauto. }
    destruct Hkm as [Hkm Hkl].
    destruct etm; cbn [andb negb].
    + rewrite bind_ret. rewrite (bind_ok _ _ _ _ _ (b_len_ok Outgoing s Hgo)). cbn [buf]. rewrite Hco.
      rewrite <- Ek in Hd. destruct (encrypt_step s d seq pl slack Hd Ha Hst Hg Hpb Hl5 Hsl Hroom) as
        (cp & b & c' & Er & Ec & Hg1 & Hc1 & Hfit & Hd1). rewrite Ek in Hd1.
      rewrite (bind_ok _ _ _ _ _ Er), (bind_ok _ _ _ _ _ Ec), bind_assoc, bind_get. ssimp.
      match goal with |- context [bind (compute_mac MODE_OUT seq ?data ?n) _ ?st] => set (s2 := st); set (dt := data) end.
      destruct (compute_mac_ok MODE_OUT s2 k sec seq dt (Z.of_nat (length pl))) as (mac' & Em & Hm' & Hsm); [done..|].
      rewrite (bind_ok _ _ _ _ _ Em). rewrite Hkl, Nat2Z.id.
      assert (Edt : take (length pl) dt = ciphertext d seq pl).
      { unfold dt. destruct Hd as (c & _ & _ & Hs & _).
        etransitivity; [|by apply (written_octets b cp (ciphertext d seq pl))]. f_equal.
        rewrite (length_ciphertext c) by (done || pose proof (d_aad_le d); lia). lia. }
      rewrite Edt. set (tag := mac_tag len sec seq (ciphertext d seq pl)).
      assert (Hlt : Z.of_nat (length tag) = len) by (unfold tag; rewrite <- Hkl; by apply length_mac_tag).
      cbn [set_newkeys]. change (stack s2) with (stack s).
      match goal with |- context [check _ ?st] => set (s3 := st) end.
      destruct (append_tag s3 tag len) as (o & Eo & Hgo' & Hco'); [done|done|done|apply bytes_ok_mac_tag|done| |].
      { change (output s3) with (mem_write b cp (ciphertext d seq pl)). rewrite Hc1, length_app.
        destruct Hd as (c & _ & _ & Hs & _). rewrite (length_ciphertext c) by (done || pose proof (d_aad_le d); lia).
        unfold SSHBUF_SIZE_MAX, SSH_DIGEST_MAX_LENGTH in *. lia. }
      eexists (Some (mk_newkeys (enc k) mac' (comp k))), c', o. split_and!; [exact Eo|done| | |by eexists].
      * rewrite Hco'. change (output s3) with (mem_write b cp (ciphertext d seq pl)).
        rewrite Hc1, <- app_assoc. unfold wire, d_tag. by rewrite Hm.
      * apply dir_ok_mac; [done|done|]. intros sec0 len0 etm0 E0. cbn [d_next d_mac] in E0. congruence.
    + rewrite <- Ek in Hd.
      destruct (compute_mac_ok MODE_OUT s k sec seq (pl ++ slack) (Z.of_nat (length pl))) as (mac' & Em & Hm' & Hsm); [done..|].
      rewrite (bind_ok _ _ _ _ _ Em). rewrite Hkl, Nat2Z.id, take_app_length. cbn [set_newkeys].
      match goal with |- context [bind (b_len Outgoing) _ ?st] => set (s1 := st) end.
      rewrite (bind_ok _ _ _ _ _ (b_len_ok Outgoing s1 Hgo)). change (buf Outgoing s1) with (outgoing_packet s). rewrite Hco.
      assert (Hd1 : dir_ok true (newkeys_out s1) (send_context s1) d).
      { apply dir_ok_mac; [by rewrite <- Ek|done|]. intros ? ? ? E0. congruence. }
      destruct (encrypt_step s1 d seq pl slack Hd1 Ha Hst Hg Hpb Hl5 Hsl Hroom) as
        (cp & b & c' & Er & Ec & Hg1 & Hc1 & Hfit & Hd2).
      rewrite (bind_ok _ _ _ _ _ Er), (bind_ok _ _ _ _ _ Ec), bind_ret.
      set (tag := mac_tag len sec seq pl).
      assert (Hlt : Z.of_nat (length tag) = len) by (unfold tag; rewrite <- Hkl; by apply length_mac_tag).
      match goal with |- context [check _ ?st] => set (s3 := st) end.
      destruct (append_tag s3 tag len) as (o & Eo & Hgo' & Hco'); [done|done|done|apply bytes_ok_mac_tag|done| |].
      { change (output s3) with (mem_write b cp (ciphertext d seq pl)). rewrite Hc1, length_app.
        change (output s1) with (output s).
        destruct Hd as (c & _ & _ & Hs & _). rewrite (length_ciphertext c) by (done || pose proof (d_aad_le d); lia).
        unfold SSHBUF_SIZE_MAX, SSH_DIGEST_MAX_LENGTH in *. lia. }
      eexists (Some (mk_newkeys (enc k) mac' (comp k))), c', o. split_and!; [exact Eo|done| | |by eexists].
      * rewrite Hco'. change (output s3) with (mem_write b cp (ciphertext d seq pl)).
        rewrite Hc1, <- app_assoc. unfold wire, d_tag. by rewrite Hm.
      * exact Hd2.
  - (* a cipher with its own tag, or no keys yet *)
    rewrite bool_decide_eq_false_2 by (by intros [x Hx]). cbn [andb]. rewrite bind_ret.
    rewrite (bind_ok _ _ _ _ _ (b_len_ok Outgoing s Hgo)). cbn [buf]. rewrite Hco.
    destruct (encrypt_step s d seq pl slack Hd Ha Hst Hg Hpb Hl5 Hsl Hroom) as
      (cp & b & c' & Er & Ec & Hg1 & Hc1 & Hfit & Hd1).
    rewrite (bind_ok _ _ _ _ _ Er), (bind_ok _ _ _ _ _ Ec).
    exists (newkeys_out s), c', (mem_write b cp (ciphertext d seq pl)). split_and!; try done.
    rewrite Hc1. unfold wire, d_tag. by rewrite Hm, app_nil_r.
Qed.

(** ** [ssh_packet_send2_wrapped] *)

Definition counted (p : packet_state) (len bs : Z) : packet_state :=
  mk_ps (u32 (seqnr p + 1)) (u32 (packets p + 1)) (u64 (blocks p + len / bs)) (u64 (bytes p + len)).

(** Counting succeeds unless a counter wraps. *)
Lemma count_packet_ok mode s len bs :
  0 <= seqnr (ps_of mode s) < 2 ^ 32 - 1 -> 0 <= packets (ps_of mode s) < 2 ^ 32 - 1 ->
  count_packet mode len bs s = (Ok tt, set_ps mode s (counted (ps_of mode s) len bs)).
Proof.
  intros Hq Hp. unfold count_packet, counted, u32.
  destruct mode; cbn [ps_of set_ps] in *; rewrite !bind_modify, bind_get; cbn [ps_of set_ps]; ssimp; cbn [seqnr];
    rewrite (proj2 (Z.eqb_neq _ 0)) by (rewrite Z.mod_small by lia; lia);
    rewrite bind_ret, bind_modify, !bind_get; cbn [ps_of set_ps]; ssimp; cbn [packets seqnr blocks bytes];
    rewrite (proj2 (Z.eqb_neq ((packets _ + 1) mod 2 ^ 32) 0)) by (rewrite Z.mod_small by lia; lia);
    cbn [andb]; rewrite bind_when_false; reflexivity.
Qed.

(** The counters after a packet of type [t]: strict key exchange starts the
    sequence numbers again with new keys. *)
Definition strict_ps (k : option kex) (t : Z) (p : packet_state) : packet_state :=
  if (t =? SSH2_MSG_NEWKEYS) && match k with Some k => kex_strict k | None => false end
  then mk_ps 0 (packets p) (blocks p) (bytes p) else p.

Lemma strict_reset_ok mode s t :
  (t = SSH2_MSG_NEWKEYS -> is_Some (kexp s)) ->
  strict_reset mode t s = (Ok tt, set_ps mode s (strict_ps (kexp s) t (ps_of mode s))).
Proof.
  intros Hk. unfold strict_reset, strict_ps. destruct (Z.eqb_spec t SSH2_MSG_NEWKEYS) as [->|].
  - destruct (Hk eq_refl) as [k E]. unfold the_kex, bind. rewrite E. cbn [andb when].
    destruct (kex_strict k); [done|]. destruct mode; by destruct s.
  - cbn [andb]. unfold ret. destruct mode; by destruct s.
Qed.

(** What [ssh_packet_send2_wrapped] does once the packet is in the output. *)
Definition after_send (t : Z) (server : bool) : M Z :=
  if t =? SSH2_MSG_NEWKEYS then ssh_set_newkeys MODE_OUT
  else if (t =? SSH2_MSG_USERAUTH_SUCCESS) && server then ssh_packet_enable_delayed_compress
  else ret 0.

(** A packet goes out as the direction prescribes. *)
Lemma send2_wrapped_spec s d h t body :
  dir_ok true (newkeys_out s) (send_context s) d -> alloc s = [] -> stack_ok s ->
  good (outgoing_packet s) -> good (output s) ->
  contents (outgoing_packet s) = h ++ t :: body -> length h = 5%nat ->
  (t = SSH2_MSG_NEWKEYS -> is_Some (kexp s)) ->
  room s -> 0 <= extra_pad s <= 255 ->
  0 <= seqnr (p_send s) < 2 ^ 32 - 1 -> 0 <= packets (p_send s) < 2 ^ 32 - 1 ->
  (extra_pad s <> 0 /\ exists s', ssh_packet_send2_wrapped s = (Ok SSH_ERR_INVALID_ARGUMENT, s')) \/
  exists pad og o c nk rnd, pad_ok d (t :: body) pad /\ (extra_pad s = 0 -> Z.of_nat (length pad) <= d_block d + 3) /\
    let pl := plain (t :: body) pad in
    ssh_packet_send2_wrapped s = func (after_send t (server_side s))
      (set_p_send (sent s og o c nk rnd)
        (strict_ps (kexp s) t (counted (p_send s) (Z.of_nat (length pl)) (d_block d)))) /\
    good og /\ contents og = [] /\ good o /\ contents o = contents (output s) ++ wire d (seqnr (p_send s)) pl /\
    dir_ok true nk (Some c) (d_next d (length pl - d_aad d)) /\ (is_Some (newkeys_out s) -> is_Some nk).
Proof.
  intros Hd Ha Hst Hgo Hg Hc Hh Hnk Hroom Hep Hq Hpk. set (p := t :: body) in *.
  assert (Hpb : bytes_ok p).
  { pose proof (bytes_ok_contents _ (proj1 Hgo)) as H. rewrite Hc in H. by apply bytes_ok_app in H as [_ ?]. }
  destruct (dir_params _ _ _ _ Hd) as (_ & _ & _ & Hbl & _ & _ & Hco & _ & _).
  unfold ssh_packet_send2_wrapped.
  destruct (b_ptr_ok Outgoing s Hgo) as (slack & Ep & _). cbn [buf] in Ep.
  match goal with |- context [func ?b] => set (prog := b) end.
  assert (Ety : byte_at (contents (outgoing_packet s) ++ slack) 5 = t).
  { unfold byte_at. rewrite Hc, <- app_assoc, !lookup_app_r by lia. by rewrite Hh. }
  destruct (pad_packet_spec s d h p) as [(He & s' & Es)|(pad & og & rnd & Hpad & Hgog & Hcog & Hpl & Es)]; try done.
  { left. split; [done|]. exists s'. apply func_early. unfold prog.
    by rewrite bind_get, (bind_ok _ _ _ _ _ Ep), Hco, bind_when_false, (bind_early _ _ _ _ _ Es). }
  right. set (s1 := set_outgoing_packet _ og) in Es. set (pl := plain p pad) in *.
  assert (Hlpl : length pl = (5 + length p + length pad)%nat) by apply length_plain.
  assert (Hlp : (length pad <= 255)%nat) by apply Hpad.
  destruct Hroom as [Hr1 Hr2]. rewrite Hc, length_app, Hh in Hr1, Hr2.
  destruct (seal_packet_spec s1 d pl) as (nk & c & o & Ez & Hgo2 & Hco2 & Hd2 & Hnks); try done; [lia| |].
  { change (output s1) with (output s). lia. }
  set (s2 := set_output _ o) in Ez. change (newkeys_out s1) with (newkeys_out s) in Ez.
  pose proof (count_packet_ok MODE_OUT s2 (Z.of_nat (length pl)) (d_block d)) as Ec.
  change (ps_of MODE_OUT s2) with (p_send s) in Ec. specialize (Ec Hq Hpk). cbn [set_ps] in Ec.
  set (s3 := set_p_send s2 _) in Ec.
  destruct (b_reset_ok Outgoing s3) as (og3 & Eo & Hg3 & Hc3); [done|done|].
  exists pad, og3, o, c, nk, rnd. split; [done|]. split; [done|]. cbv zeta. split_and!; try done.
  unfold func. f_equal. unfold prog.
  rewrite bind_get, (bind_ok _ _ _ _ _ Ep), Hco, bind_when_false, (bind_ok _ _ _ _ _ Es), (bind_ok _ _ _ _ _ Ez), Hbl,
    (bind_ok _ _ _ _ _ Ec), (bind_ok _ _ _ _ _ Eo), Ety.
  rewrite (bind_ok _ _ _ _ _ (strict_reset_ok MODE_OUT (set_buf Outgoing s3 og3) t Hnk)), bind_get.
  reflexivity.
Qed.

End send.
