(* ===== verification/PacketRecv.v ===== *)
(** What the packet layer makes of the octets of a packet that the other end
    sent: [ssh_packet_read_poll2] waits until all of them have arrived, however
    they are cut into pieces, and then delivers the packet. *)

From stdpp Require Import base list numbers tactics.
From Stdlib Require Import ZArith Lia ZifyBool.
From S2P Require Import Prelude Sshbuf SshbufGetput Chacha Chachapoly AesCtr Cipher Digest Mac PacketState.
From S2P Require Import Packet PacketBuf PacketSend.

#[local] Open Scope ssh_scope.

Section recv.
Context {md : MD} {um : Umac} {mdl : MDLaws} {uml : UmacLaws}.

(** ** The cipher on the first octets of a packet *)

(** The length is read from four octets. *)
Lemma PEEK_U32_take p q : take 4 p = take 4 q -> PEEK_U32 p = PEEK_U32 q.
Proof.
  intros E. assert (A : forall i, (i < 4)%nat -> at_ p i = at_ q i).
  { intros i Hi. unfold at_. by rewrite <- (lookup_take_lt p 4 i), E, lookup_take_lt by done. }
  unfold PEEK_U32. by rewrite !A by lia.
Qed.

Lemma get_length_take tmp cc seq cp cp' len :
  take 4 cp = take 4 cp' -> cipher_get_length tmp cc seq cp len = cipher_get_length tmp cc seq cp' len.
Proof.
  intros E. unfold cipher_get_length. destruct (has_flag _ _).
  - destruct (cp_ctx cc) as [x|]; [|done]. unfold chachapoly_get_length. destruct (len <? 4); [done|].
    unfold chacha_encrypt_bytes. cbn [Nat.eqb encrypt_loop Nat.ltb Nat.leb]. by rewrite E.
  - destruct (len <? 4); [done|]. by rewrite (PEEK_U32_take cp cp').
Qed.

(** Too few octets leave the context as it is. *)
Lemma get_length_short tmp cc seq cp len st :
  has_state cc st -> len < 4 -> cipher_get_length tmp cc seq cp len = (SSH_ERR_MESSAGE_INCOMPLETE, None, cc).
Proof.
  intros Hs Hl. unfold cipher_get_length, chachapoly_get_length. rewrite (proj2 (Z.ltb_lt len 4) Hl).
  destruct (has_flag (cipher cc) CFLAG_CHACHAPOLY) eqn:Ef; [|done].
  destruct st as [|key c|x]; cbn [has_state] in Hs.
  - rewrite (has_flag_of _ _ _ Hs) in Ef. done.
  - rewrite (has_flag_of _ _ _ (proj1 Hs)) in Ef. done.
  - destruct Hs as (_ & _ & y & Ey & _). rewrite Ey. destruct cc. cbn in *. by subst.
Qed.

(** Without a tag of the cipher the sequence number does not matter. *)
Lemma sealed_seq st seq seq' aad msg : taglen st = 0%nat -> sealed st seq aad msg = sealed st seq' aad msg.
Proof. by destruct st. Qed.

(** What has been decrypted before the whole packet is there. *)
Definition d_first (d : dir) : nat := if (d_aad d =? 0)%nat then Z.to_nat (d_block d) else 0.

Lemma d_aad_cases d : d_aad d = 0%nat /\ taglen (d_state d) = 0%nat /\ d_etm d = false \/ d_aad d = 4%nat.
Proof. unfold d_aad. destruct (d_etm d); [by right|]. destruct (taglen (d_state d)) eqn:E; [left|right]; done. Qed.

(** The block size of the counter mode divides evenly. *)
Lemma d_block_ctr e nk cc d key c :
  dir_ok e nk cc d -> d_state d = SAes key c -> d_block d = 16.
Proof.
  intros (x & -> & _ & Hs & H) E. rewrite E in Hs. destruct nk as [k|]; [|destruct H; congruence].
  destruct H as (Hin & _ & _ & -> & _). destruct Hs as (Hf & _).
  destruct (cipher_cases _ Hin) as [(Hx & -> & _)|[(Hx & _)|(Hx & _)]]; [done|rewrite Hf in Hx..]; done.
Qed.

(** A packet whose length is encrypted is decrypted in two steps. *)
Lemma sealed_first e nk cc d seq pl :
  dir_ok e nk cc d -> d_aad d = 0%nat -> (d_first d <= length pl)%nat ->
  ciphertext d seq pl =
    sealed (d_state d) seq [] (take (d_first d) pl) ++
    sealed (next_state (d_state d) (d_first d)) seq [] (drop (d_first d) pl).
Proof.
  intros Hd Ha Hl. unfold ciphertext. rewrite Ha, take_0, drop_0.
  destruct (d_aad_cases d) as [(_ & Ht & _)|]; [|lia].
  rewrite <- (take_drop (d_first d) pl) at 1.
  destruct (d_state d) as [|key c|x] eqn:Es; [done| |done].
  rewrite sealed_app; [|done|].
  - by rewrite length_take, Nat.min_l.
  - rewrite length_take, Nat.min_l by done. unfold d_first. rewrite Ha. cbn [Nat.eqb].
    by rewrite (d_block_ctr _ _ _ _ _ _ Hd Es).
Qed.

Lemma next_next_state st n m :
  st = SNone \/ (n mod 16 = 0)%nat \/ taglen st <> 0%nat -> next_state (next_state st n) m = next_state st (n + m).
Proof.
  destruct st as [|key c|x]; [done| |done]. intros [|[H|H]]; [done| |done]. cbn [next_state].
  destruct (ablocks_app n m H) as [-> _]. f_equal. lia.
Qed.

Lemma d_next_first e nk cc d m n :
  dir_ok e nk cc (d_next d m) -> d_next (d_next d (d_first d)) n = d_next d (d_first d + n).
Proof.
  intros Hd. unfold d_next at 1 3. cbn [d_next d_state d_mac d_block]. f_equal. apply next_next_state.
  destruct (d_state d) as [|key c|x] eqn:Es; [by left| |by right; right]. right. left. unfold d_first.
  destruct (d_aad d =? 0)%nat; [|done].
  pose proof (d_block_ctr _ _ _ (d_next d m) key (c + Z.of_nat (ablocks m)) Hd) as E. cbn in E. rewrite Es in E.
  by rewrite E.
Qed.

(** ** Running the cipher and the mac *)

Lemma recv_crypt_opens s st seq dp aad msg rest authlen :
  (exists c, receive_context s = Some c /\ encrypt c = false /\ has_state c st) -> stack_ok s ->
  bytes_ok aad -> bytes_ok msg -> bytes_ok rest -> Z.of_nat (length aad + length msg) < 2 ^ 32 ->
  (Z.to_nat dp + (length aad + length msg) <= length (block (incoming_packet s)))%nat ->
  exists c c', receive_context s = Some c /\
    crypt MODE_IN seq Incoming dp (sealed st seq aad msg ++ rest) (Z.of_nat (length msg)) (Z.of_nat (length aad)) authlen s =
      (Ok tt, set_receive_context (set_incoming_packet s (mem_write (incoming_packet s) dp (aad ++ msg))) (Some c')) /\
    has_state c' (next_state st (length msg)) /\ same_cipher c c'.
Proof.
  intros (c & Hc & He & Hs) [Hst Hsl] Ha Hm Hk Hl Hb.
  destruct (cipher_crypt_opens c st (stack s) seq (drop (Z.to_nat dp) (block (incoming_packet s))) aad msg rest authlen)
    as (c' & E & Hs' & Hsc); try done; [rewrite length_drop; lia|].
  exists c, c'. split_and!; try done. unfold crypt. cbn [ctx_of buf]. rewrite Hc, E. cbn [negb Z.eqb set_ctx set_buf].
  by rewrite mem_write_tail by (rewrite length_app; lia).
Qed.

(** The tag of the other end is accepted. *)
Lemma check_mac_ok s k sec data n their :
  newkeys_in s = Some k -> mac_keyed (nmac k) sec -> mac_len (nmac k) <= Z.of_nat (length their) ->
  take (Z.to_nat (mac_len (nmac k))) their =
    mac_tag (mac_len (nmac k)) sec (seqnr (p_read s)) (take (Z.to_nat n) data) ->
  exists mac', check_mac data n their (mac_len (nmac k)) s =
      (Ok 0, set_newkeys_in s (Some (mk_newkeys (enc k) mac' (comp k)))) /\
    mac_keyed mac' sec /\ same_mac (nmac k) mac'.
Proof.
  intros Hk Hm Hl Ht. unfold check_mac. rewrite Hk.
  destruct (mac_check_spec (alloc s) (nmac k) sec (seqnr (p_read s)) data n their (stack s) (stack s) Hm Hl)
    as (mac' & -> & Hm' & Hs). rewrite decide_True by done. by exists mac'.
Qed.

(** ** A packet that arrives *)

(** The state after octets were looked at: only these members changed. *)
Definition got (r : ssh) (inp inc : sshbuf) (c : sshcipher_ctx) (nk : option newkeys) (len : Z) : ssh :=
  set_incoming_packet (set_input (set_receive_context (set_newkeys_in (set_packlen r len) nk) (Some c)) inp) inc.

(** The receiving end of the direction [d], its buffers in order. *)
Definition rx_ok (r : ssh) (d : dir) : Prop :=
  dir_ok false (newkeys_in r) (receive_context r) d /\ alloc r = [] /\ stack_ok r /\
  good (input r) /\ good (incoming_packet r).

(** The octets needed before the length is known. *)
Definition d_need (d : dir) : nat := if (d_aad d =? 0)%nat then Z.to_nat (d_block d) else 4.

(** A packet whose length field is right and fits the block size. *)
Definition framed (d : dir) (pl : list Z) : Prop :=
  bytes_ok pl /\ (9 <= length pl)%nat /\ PEEK_U32 (take 4 pl) = Z.of_nat (length pl) - 4 /\
  Z.of_nat (length pl - d_aad d) mod d_block d = 0 /\ Z.of_nat (length pl) - 4 <= PACKET_MAX_SIZE.

(** Packets that are sent are. *)
Lemma plain_framed d p pad :
  bytes_ok p -> (1 <= length p)%nat -> pad_ok d p pad -> Z.of_nat (length (plain p pad)) - 4 <= PACKET_MAX_SIZE ->
  framed d (plain p pad).
Proof.
  intros Hp Hp1 (Hb & Hl & Hm) Hmax. pose proof (length_plain p pad) as Hlen. unfold PACKET_MAX_SIZE in *. split_and!.
  - apply bytes_ok_plain; try done; lia.
  - lia.
  - rewrite Hlen in *. unfold plain. rewrite take_app_le by done. rewrite take_ge by (cbn; lia).
    rewrite <- (app_nil_r (POKE_U32 _)), PEEK_POKE_U32 by lia. lia.
  - rewrite Hlen. exact Hm.
  - done.
Qed.

Lemma framed_facts d pl :
  framed d pl -> d_block d = 8 \/ d_block d = 16 ->
  bytes_ok pl /\ (9 <= length pl)%nat /\ (d_need d <= length pl)%nat /\ (d_first d <= length pl)%nat /\
  (d_aad d <= length pl)%nat /\ PEEK_U32 (take 4 pl) = Z.of_nat (length pl) - 4 /\
  Z.of_nat (length pl - d_aad d) mod d_block d = 0 /\ Z.of_nat (length pl) <= 262148.
Proof.
  intros (Hb & Hl & Hpeek & Hm & Hmax) Hbs. unfold PACKET_MAX_SIZE in Hmax. pose proof (d_aad_le d) as Ha.
  assert (Hge : d_aad d = 0%nat -> d_block d <= Z.of_nat (length pl)).
  { intros H0. rewrite H0, Nat.sub_0_r in Hm. destruct Hbs as [E|E]; rewrite E in *; dm_lia. }
  split_and!; try done; try lia.
  - unfold d_need. destruct (Nat.eqb_spec (d_aad d) 0); lia.
  - unfold d_first. destruct (Nat.eqb_spec (d_aad d) 0); lia.
Qed.

Lemma set_receive_context_same s : set_receive_context s (receive_context s) = s.
Proof. by destruct s. Qed.


Lemma good_size b : good b -> Z.of_nat (length (contents b)) <= SSHBUF_SIZE_MAX.
Proof. intros Hg. pose proof (contents_bound b (proj1 Hg)). destruct Hg as (_ & _ & Hm). lia. Qed.

Lemma dir_ok_ctx e nk c d c' :
  dir_ok e nk (Some c) d -> same_cipher c c' -> has_state c' (d_state d) -> dir_ok e nk (Some c') d.
Proof.
  intros (c0 & [= <-] & He & Hs & H) (Hc & Hen & _) Hs'. exists c'. split; [done|]. split; [congruence|].
  split; [done|]. destruct nk as [k|]; [by rewrite Hc|done].
Qed.

(** The length field, read or decrypted from the input. *)
Lemma get_length_eq r c :
  good (input r) -> receive_context r = Some c ->
  exists slack, bytes_ok slack /\ get_length r =
    let '(e, plen, cc) := cipher_get_length (stack r) c (seqnr (p_read r)) (contents (input r) ++ slack)
                            (Z.of_nat (length (contents (input r)))) in
    (Ok e, match plen with Some n => set_packlen (set_receive_context r (Some cc)) n
                         | None => set_receive_context r (Some cc) end).
Proof.
  intros Hg Hc. destruct (b_ptr_ok Input r Hg) as (slack & Ep & Hsl). exists slack. split; [done|].
  unfold get_length. rewrite (bind_ok _ _ _ _ _ Ep), (bind_ok _ _ _ _ _ (b_len_ok Input r Hg)). cbn [buf].
  pose proof (good_size _ Hg) as Hm. unfold SSHBUF_SIZE_MAX in Hm. rewrite Hc. unfold u32. rewrite Z.mod_small by lia.
  by destruct (cipher_get_length _ _ _ _ _) as [[r0 [n|]] cc].
Qed.

Lemma bad_packlen_false r (pl : list Z) : packlen r = Z.of_nat (length pl) - 4 -> (9 <= length pl)%nat ->
  Z.of_nat (length pl) <= 262148 -> bad_packlen r = false.
Proof. intros E H1 H2. unfold bad_packlen, PACKET_MAX_SIZE. rewrite E. lia. Qed.

(** The length of the packet [pl] after the first octets [g] of it, when it is
    not encrypted with the rest. *)
Lemma read_length_clear r d seq pl g more rest :
  rx_ok r d -> seqnr (p_read r) = seq -> packlen r = 0 -> contents (input r) = g ->
  g ++ more = wire d seq pl ++ rest -> framed d pl -> d_aad d = 4%nat ->
  if (length g <? 4)%nat then read_length (newkeys_in r) r = (Early 0, r)
  else exists inc c, read_length (newkeys_in r) r =
      (Ok tt, got r (input r) inc c (newkeys_in r) (Z.of_nat (length pl) - 4)) /\
    dir_ok false (newkeys_in r) (Some c) d /\ good inc /\ contents inc = [].
Proof.
  intros (Hd & Ha & Hst & Hgi & Hgc) Hseq Hpk Hg Hstream Hpl H4.
  destruct (dir_params _ _ _ _ Hd) as (_ & _ & _ & Hbl & Haad & _ & _ & Hbs & _).
  destruct (framed_facts d pl Hpl Hbs) as (Hpb & Hl10 & _ & _ & Hlaad & Hpeek & _ & Hmax).
  pose proof Hd as (c & Hc & Hen & Hs & _).
  unfold read_length. rewrite Hbl, Haad, bind_get, Hpk, H4. change (negb (Z.of_nat 4 =? 0)) with true. cbv beta iota delta [andb]. change (0 =? 0) with true. cbv iota.
  destruct (get_length_eq r c Hgi Hc) as (slack & Hsl & Egl). rewrite Hseq, Hg in Egl.
  destruct (Nat.ltb_spec (length g) 4) as [Hlt|Hge].
  - rewrite (get_length_short _ _ _ _ _ _ Hs) in Egl by lia. cbv beta iota zeta in Egl. rewrite (bind_ok _ _ _ _ _ Egl), <- Hc.
    by rewrite set_receive_context_same.
  - destruct (cipher_get_length_sealed c (d_state d) (stack r) seq (take 4 pl) (drop 4 pl) []
      (Z.of_nat (length g))) as (c' & E & Hs' & Hsc); try done; try apply Hst; try lia.
    { by apply Forall_take. } { by apply Forall_drop. } { rewrite length_take. lia. }
    rewrite (get_length_take _ _ _ _ (sealed (d_state d) seq (take 4 pl) (drop 4 pl) ++ [])) in Egl.
    2:{ rewrite take_app_le by lia. etransitivity; [symmetry; apply take_app_le; exact Hge|]. rewrite Hstream. unfold wire.
        rewrite <- app_assoc, app_nil_r, take_app_le by (rewrite (length_ciphertext c) by done; lia).
        unfold ciphertext. by rewrite H4. }
    rewrite E, Hpeek in Egl. cbv beta iota zeta in Egl. rewrite (bind_ok _ _ _ _ _ Egl), bind_when_false, bind_get.
    rewrite (bad_packlen_false _ pl), bind_when_false by done.
    match goal with |- context [b_reset Incoming ?st] => destruct (b_reset_ok Incoming st) as (inc & Er & Hgi' & Hci'); [done|done|] end.
    exists inc, c'. rewrite Er. split_and!; try done.
    rewrite Hc in Hd. by apply (dir_ok_ctx _ _ c).
Qed.

(** The first block, decrypted: its length field is looked at next. *)
Lemma read_first_block r d seq m g2 :
  rx_ok r d -> packlen r = 0 -> d_aad d = 0%nat -> length m = d_first d -> bytes_ok m ->
  contents (input r) = sealed (d_state d) seq [] m ++ g2 ->
  exists inc c, let r' := got r (input r) inc c (newkeys_in r) (PEEK_U32 m) in
    read_length (newkeys_in r) r =
      (let* bad := get bad_packlen in
       when bad (let* r0 := ssh_packet_start_discard (newkeys_in r) 0 PACKET_MAX_SIZE in early r0) ;*
       check (b_consume Input (d_block d))) r' /\
    dir_ok false (newkeys_in r) (Some c) (d_next d (d_first d)) /\ good inc /\ contents inc = m.
Proof.
  intros (Hd & Ha & Hst & Hgi & Hgc) Hpk H0 Hm Hmb Hg.
  destruct (dir_params _ _ _ _ Hd) as (_ & _ & _ & Hbl & Haad & _ & _ & Hbs & _).
  pose proof Hd as (c & Hc & Hen & Hs & _).
  unfold read_length. rewrite Hbl, Haad, bind_get, Hpk, H0.
  change (negb (Z.of_nat 0 =? 0)) with false. cbv beta iota delta [andb]. change (0 =? 0) with true. cbv iota.
  rewrite (bind_ok _ _ _ _ _ (b_len_ok Input r Hgi)). cbn [buf].
  assert (Hf : d_block d = Z.of_nat (d_first d)) by (unfold d_first; rewrite H0; cbn [Nat.eqb]; lia).
  destruct (d_aad_cases d) as [(_ & Ht & _)|]; [|lia].
  assert (Hls : length (sealed (d_state d) seq [] m) = d_first d) by (rewrite (length_sealed c) by done; cbn; lia).
  rewrite Hf, (proj2 (Z.ltb_ge _ _)), bind_when_false by (rewrite Hg, length_app; lia).
  destruct (b_reset_ok Incoming r Hgc Ha) as (inc0 & Er & Hg0 & Hc0). rewrite (bind_ok _ _ _ _ _ Er).
  set (r0 := set_buf _ _ _) in *.
  destruct (b_reserve_ok Incoming r0 (Z.of_nat (d_first d))) as (inc1 & dp & Er1 & Hfit & Hdp & Hw); [done|done|lia| |].
  { change (buf Incoming r0) with inc0. rewrite Hc0. unfold SSHBUF_SIZE_MAX. cbn [length]. lia. }
  rewrite (bind_ok _ _ _ _ _ Er1). set (r1 := set_buf Incoming r0 inc1) in *.
  destruct (b_ptr_ok Input r1 Hgi) as (slack & Ep & Hsl). change (buf Input r1) with (input r) in Ep.
  rewrite Hg, <- app_assoc in Ep. rewrite (bind_ok _ _ _ _ _ Ep), bind_get. set (seq' := seqnr (p_send r1)).
  rewrite (sealed_seq _ seq seq') by done.
  destruct (recv_crypt_opens r1 (d_state d) seq' dp [] m (g2 ++ slack) 0) as (c1 & c' & Hc1 & Ec & Hs' & Hsc); try done.
  { by exists c. }
  { apply bytes_ok_app. split; [|done]. pose proof (bytes_ok_contents _ (proj1 Hgi)) as Hb. rewrite Hg in Hb.
    by apply bytes_ok_app in Hb as [_ ?]. }
  { cbn [length]. lia. }
  { change (incoming_packet r1) with inc1. cbn [length]. lia. }
  change (receive_context r1) with (receive_context r) in Hc1. rewrite Hc in Hc1. injection Hc1 as <-.
  change (Z.of_nat (length [])) with 0 in Ec. rewrite Hm in Ec. rewrite (bind_ok _ _ _ _ _ Ec).
  change (incoming_packet r1) with inc1. rewrite app_nil_l. rewrite Hm in Hs'.
  destruct (Hw m) as [Hg2 Hc2]; [done|lia|]. change (buf Incoming r0) with inc0 in Hc2. rewrite Hc0, app_nil_l in Hc2.
  match goal with |- context [bind (b_ptr Incoming) _ ?st] => set (r2 := st) end.
  destruct (b_ptr_ok Incoming r2 Hg2) as (slack2 & Ep2 & _). change (buf Incoming r2) with (mem_write inc1 dp m) in Ep2.
  rewrite Hc2 in Ep2. exists (mem_write inc1 dp m), c'. cbv zeta. split; [|split; [|done]].
  - rewrite (bind_ok _ _ _ _ _ Ep2), bind_modify.
    replace (PEEK_U32 (m ++ slack2)) with (PEEK_U32 m); [reflexivity|].
    symmetry. apply PEEK_U32_app. lia.
  - rewrite Hc in Hd. by apply (dir_ok_next _ _ c).
Qed.

(** The same when it is the start of the ciphertext: the first block is
    decrypted. *)
Lemma read_length_hidden r d seq pl g more rest :
  rx_ok r d -> packlen r = 0 -> contents (input r) = g ->
  g ++ more = wire d seq pl ++ rest -> framed d pl -> d_aad d = 0%nat ->
  if (length g <? d_first d)%nat then read_length (newkeys_in r) r = (Early 0, r)
  else exists inp inc c, read_length (newkeys_in r) r =
      (Ok tt, got r inp inc c (newkeys_in r) (Z.of_nat (length pl) - 4)) /\
    dir_ok false (newkeys_in r) (Some c) (d_next d (d_first d)) /\ good inp /\ contents inp = drop (d_first d) g /\
    good inc /\ contents inc = take (d_first d) pl.
Proof.
  intros Hrx Hpk Hg Hstream Hpl H0. pose proof Hrx as (Hd & Ha & Hst & Hgi & Hgc).
  destruct (dir_params _ _ _ _ Hd) as (_ & _ & _ & Hbl & Haad & _ & _ & Hbs & _).
  destruct (framed_facts d pl Hpl Hbs) as (Hpb & Hl10 & _ & Hlfirst & _ & Hpeek & _ & Hmax).
  assert (Hf : d_block d = Z.of_nat (d_first d)) by (unfold d_first; rewrite H0; cbn [Nat.eqb]; lia).
  destruct (Nat.ltb_spec (length g) (d_first d)) as [Hlt|Hge].
  { unfold read_length. rewrite Hbl, Haad, bind_get, Hpk, H0.
    change (negb (Z.of_nat 0 =? 0)) with false. cbv beta iota delta [andb]. change (0 =? 0) with true. cbv iota.
    rewrite (bind_ok _ _ _ _ _ (b_len_ok Input r Hgi)). cbn [buf]. rewrite Hg, Hf.
    by rewrite (proj2 (Z.ltb_lt _ _)) by lia. }
  assert (Hlm : length (take (d_first d) pl) = d_first d) by (rewrite length_take; lia).
  assert (Hb1 : take (d_first d) g = sealed (d_state d) seq [] (take (d_first d) pl)).
  { destruct (d_aad_cases d) as [(_ & Ht & _)|]; [|lia]. pose proof Hd as (c & _ & _ & Hs & _).
    rewrite <- (take_app_le g more) by done. rewrite Hstream. unfold wire.
    rewrite (sealed_first _ _ _ _ _ _ Hd) by done. rewrite <- !app_assoc. apply take_app_length'.
    rewrite (length_sealed c) by done. cbn [length]. rewrite Hlm, Ht. lia. }
  destruct (read_first_block r d seq (take (d_first d) pl) (drop (d_first d) g)) as (inc & c & E & Hd' & Hgi' & Hci'); try done.
  { by apply Forall_take. } { by rewrite <- Hb1, take_drop. }
  assert (E4 : PEEK_U32 (take (d_first d) pl) = Z.of_nat (length pl) - 4).
  { rewrite <- Hpeek. apply PEEK_U32_take. rewrite !take_take. f_equal. lia. }
  cbv zeta in E. rewrite E4 in E. set (r1 := got r _ _ _ _ _) in E.
  rewrite bind_get, (bad_packlen_false r1 pl), bind_when_false in E by done.
  destruct (b_consume_ok Input r1 (d_block d)) as (inp & Eb & Hgb & Hcb); [done| |].
  { change (buf Input r1) with (input r). rewrite Hg, Hf. lia. }
  change (buf Input r1) with (input r) in Hcb. rewrite Hg, Hf, Nat2Z.id in Hcb.
  exists inp, inc, c. rewrite E. split_and!; try done. unfold check, bind. by rewrite Eb.
Qed.

Lemma d_next_0 d : d_next d 0 = d.
Proof.
  destruct d as [st m b]. unfold d_next. cbn. f_equal. destruct st; cbn [next_state]; try done.
  change (ablocks 0) with 0%nat. by rewrite Z.add_0_r.
Qed.

(** Some end has the keys of the direction. *)
Definition dir_valid (d : dir) : Prop := exists e nk cc, dir_ok e nk cc d.

(** The length of the packet [pl] is known after its first octets [g]. *)
Definition opened (r : ssh) (d : dir) (pl g : list Z) : Prop :=
  dir_valid d /\
  rx_ok r (d_next d (d_first d)) /\ packlen r = Z.of_nat (length pl) - 4 /\ (d_first d <= length g)%nat /\
  contents (input r) = drop (d_first d) g /\ contents (incoming_packet r) = take (d_first d) pl.

(** Nothing of the packet has been looked at, or its length is known. *)
Definition receiving (r : ssh) (d : dir) (pl g : list Z) : Prop :=
  (rx_ok r d /\ packlen r = 0 /\ contents (input r) = g) \/ opened r d pl g.

(** The call of [read_length], when the octets [g] are there. *)
Lemma read_length_spec r d seq pl g more rest :
  receiving r d pl g -> seqnr (p_read r) = seq -> g ++ more = wire d seq pl ++ rest -> framed d pl ->
  (exists n, (n <= length pl)%nat /\ (length g < n)%nat /\ read_length (newkeys_in r) r = (Early 0, r)) \/
  exists inp inc c len,
    read_length (newkeys_in r) r = (Ok tt, got r inp inc c (newkeys_in r) len) /\
    opened (got r inp inc c (newkeys_in r) len) d pl g.
Proof.
  intros [(Hrx & Hpk & Hg)|Hop] Hseq Hstream Hpl.
  - pose proof Hrx as (Hd & Ha & Hst & Hgi & Hgc).
    destruct (dir_params _ _ _ _ Hd) as (_ & _ & _ & _ & _ & _ & _ & Hbs & _).
    destruct (framed_facts d pl Hpl Hbs) as (_ & Hl10 & _ & Hlf & _).
    destruct (d_aad_cases d) as [(H0 & _)|H4].
    + pose proof (read_length_hidden r d seq pl g more rest Hrx Hpk Hg Hstream Hpl H0) as H.
      destruct (Nat.ltb_spec (length g) (d_first d)) as [Hlt|Hge]; [left; by exists (d_first d)|right].
      destruct H as (inp & inc & c & E & Hd' & Hgi' & Hci & Hgc' & Hcc). exists inp, inc, c, (Z.of_nat (length pl) - 4).
      split; [done|]. split; [by eexists _, _, _|]. by split_and!.
    + pose proof (read_length_clear r d seq pl g more rest Hrx Hseq Hpk Hg Hstream Hpl H4) as H.
      destruct (Nat.ltb_spec (length g) 4) as [Hlt|Hge]; [left; exists 4%nat; split; [lia|done]|right].
      destruct H as (inc & c & E & Hd' & Hgc' & Hcc). exists (input r), inc, c, (Z.of_nat (length pl) - 4).
      split; [done|]. unfold opened, d_first. rewrite H4. cbn [Nat.eqb]. rewrite d_next_0, drop_0, take_0.
      split; [by eexists _, _, _|]. split_and!; try done. cbn. lia.
  - pose proof Hop as (_ & (Hd & _) & Hpk & _). right.
    destruct (dir_params _ _ _ _ Hd) as (_ & _ & _ & _ & _ & _ & _ & Hbs & _).
    destruct (framed_facts d pl Hpl Hbs) as (_ & Hl10 & _).
    destruct Hd as (c & Hc & _). exists (input r), (incoming_packet r), c, (packlen r).
    assert (E : got r (input r) (incoming_packet r) c (newkeys_in r) (packlen r) = r).
    { unfold got. rewrite <- Hc. by destruct r. }
    rewrite E. split; [|done]. unfold read_length. rewrite bind_get.
    rewrite (proj2 (Z.eqb_neq (packlen r) 0)) by lia. by rewrite andb_false_r.
Qed.

(** ** The rest of the packet *)

(** What is still encrypted once the length is known. *)
Definition d_rest (d : dir) (seq : Z) (pl : list Z) : list Z :=
  sealed (next_state (d_state d) (d_first d)) seq (take (d_aad d) (drop (d_first d) pl)) (drop (d_aad d) (drop (d_first d) pl)).

Lemma d_rest_spec e nk cc d seq pl :
  dir_ok e nk cc d -> (d_first d <= length pl)%nat -> (d_aad d <= length pl)%nat ->
  drop (d_first d) (ciphertext d seq pl) = d_rest d seq pl /\
  (d_aad d <> 0%nat -> d_rest d seq pl = ciphertext d seq pl) /\
  length (d_rest d seq pl) = (length pl - d_first d + taglen (d_state d))%nat.
Proof.
  intros Hd Hl Hla. pose proof Hd as (c & _ & _ & Hs & _). unfold d_rest.
  destruct (d_aad_cases d) as [(H0 & Ht & _)|H4].
  - assert (E : drop (d_first d) (ciphertext d seq pl) =
      sealed (next_state (d_state d) (d_first d)) seq [] (drop (d_first d) pl)).
    { rewrite (sealed_first _ _ _ _ _ _ Hd) by done. apply drop_app_length'.
      rewrite (length_sealed c) by done. rewrite length_take, Ht. cbn [length]. lia. }
    rewrite H0, take_0, drop_0. split_and!; [done|lia|]. rewrite <- E, length_drop, (length_ciphertext c) by done. lia.
  - unfold d_first. rewrite H4. cbn [Nat.eqb]. rewrite !drop_0.
    assert (E : next_state (d_state d) 0 = d_state d) by apply (f_equal d_state (d_next_0 d)).
    rewrite E. unfold ciphertext. rewrite H4. split_and!; try done.
    rewrite (length_sealed c) by done. rewrite length_take, length_drop. lia.
Qed.

Definition need_of (d : dir) (pl : list Z) : Z := Z.of_nat (length pl - d_first d - d_aad d).

(** Decrypting it, and removing it from the input. *)
Lemma decrypt_step r d seq pl tl nk :
  rx_ok r (d_next d (d_first d)) -> seqnr (p_read r) = seq -> framed d pl ->
  aadlen_of nk = Z.of_nat (d_aad d) -> authlen_of nk = Z.of_nat (taglen (d_state d)) ->
  contents (input r) = d_rest d seq pl ++ tl -> contents (incoming_packet r) = take (d_first d) pl ->
  exists inp inc c, (forall A (k : M A),
    (let* cp := b_reserve Incoming (u32 (aadlen_of nk + need_of d pl)) in
     let* p := b_ptr Input in
     let* seq := get (fun s => seqnr (p_read s)) in
     crypt MODE_IN seq Incoming cp p (need_of d pl) (aadlen_of nk) (authlen_of nk) ;*
     check (b_consume Input (u32 (aadlen_of nk + need_of d pl + authlen_of nk))) ;* k) r =
    k (got r inp inc c (newkeys_in r) (packlen r))) /\
    rx_ok (got r inp inc c (newkeys_in r) (packlen r)) (d_next d (length pl - d_aad d)) /\
    contents inp = tl /\ contents inc = pl.
Proof.
  intros (Hd & Ha & Hst & Hgi & Hgc) Hseq Hpl Haad Hau Hci Hcc.
  destruct (dir_params _ _ _ _ Hd) as (_ & _ & _ & _ & _ & _ & _ & Hbs & _). cbn [d_next d_block] in Hbs.
  destruct (framed_facts d pl Hpl Hbs) as (Hpb & Hl10 & _ & Hlf & Hla & _ & _ & Hmax).
  assert (Hfa : (d_first d + d_aad d <= length pl)%nat).
  { unfold d_first. destruct (d_aad_cases d) as [(H0 & _)|H4]; [|rewrite H4; cbn; lia].
    unfold d_first in Hlf. rewrite H0 in *. cbn [Nat.eqb] in *. lia. }
  pose proof Hd as (c & Hc & Hen & Hs & _). cbn [d_next d_state] in Hs.
  assert (Ht16 : (taglen (d_state d) <= 16)%nat) by (destruct (d_state d); cbn; lia).
  assert (Htn : taglen (next_state (d_state d) (d_first d)) = taglen (d_state d)) by (by destruct (d_state d)).
  assert (Hrl : length (d_rest d seq pl) = (length pl - d_first d + taglen (d_state d))%nat).
  { unfold d_rest. rewrite (length_sealed c) by done. rewrite length_take, !length_drop. lia. }
  rewrite Haad, Hau. unfold need_of. set (n := (length pl - d_first d - d_aad d)%nat).
  destruct (b_reserve_ok Incoming r (Z.of_nat (d_aad d) + Z.of_nat n)) as (inc1 & dp & Er & Hfit & Hdp & Hw); [done|done|lia| |].
  { cbn [buf]. rewrite Hcc, length_take. unfold SSHBUF_SIZE_MAX. lia. }
  set (r1 := set_buf Incoming r inc1) in *.
  destruct (b_ptr_ok Input r1 Hgi) as (slack & Ep & Hsl). change (buf Input r1) with (input r) in Ep. rewrite Hci in Ep.
  destruct (recv_crypt_opens r1 (next_state (d_state d) (d_first d)) seq dp (take (d_aad d) (drop (d_first d) pl))
    (drop (d_aad d) (drop (d_first d) pl)) (tl ++ slack) (Z.of_nat (taglen (d_state d))))
    as (c1 & c' & Hc1 & Ec & Hs' & Hsc); try done.
  { by exists c. }
  { by apply Forall_take, Forall_drop. } { by apply Forall_drop, Forall_drop. }
  { apply bytes_ok_app. split; [|done]. pose proof (bytes_ok_contents _ (proj1 Hgi)) as Hb. rewrite Hci in Hb.
    by apply bytes_ok_app in Hb as [_ ?]. }
  { rewrite length_take, !length_drop. lia. }
  { change (incoming_packet r1) with inc1. rewrite length_take, !length_drop. lia. }
  change (receive_context r1) with (receive_context r) in Hc1. rewrite Hc in Hc1. injection Hc1 as <-.
  rewrite take_drop in Ec.
  assert (El1 : length (take (d_aad d) (drop (d_first d) pl)) = d_aad d) by (rewrite length_take, length_drop; lia).
  assert (El2 : length (drop (d_aad d) (drop (d_first d) pl)) = n) by (rewrite !length_drop; lia).
  rewrite El1, El2 in Ec. rewrite El2 in Hs'. fold (d_rest d seq pl) in Ec. rewrite app_assoc in Ec.
  destruct (Hw (drop (d_first d) pl)) as [Hg2 Hc2]; [by apply Forall_drop|rewrite length_drop; lia|].
  cbn [buf] in Hc2. rewrite Hcc, take_drop in Hc2.
  match type of Ec with _ = (_, ?st) => set (r2 := st) in * end.
  destruct (b_consume_ok Input r2 (Z.of_nat (d_aad d) + Z.of_nat n + Z.of_nat (taglen (d_state d)))) as (inp & Eb & Hgb & Hcb); [done| |].
  { change (buf Input r2) with (input r). rewrite Hci, length_app. lia. }
  change (buf Input r2) with (input r) in Hcb.
  rewrite Hci, drop_app_length' in Hcb by lia.
  exists inp, (mem_write inc1 dp (drop (d_first d) pl)), c'. split_and!; try done.
  - intros A k. unfold u32. rewrite (Z.mod_small (Z.of_nat (d_aad d) + Z.of_nat n)) by lia.
    rewrite (bind_ok _ _ _ _ _ Er), (bind_ok _ _ _ _ _ Ep), bind_get. change (seqnr (p_read r1)) with (seqnr (p_read r)).
    rewrite Hseq, (bind_ok _ _ _ _ _ Ec). rewrite Z.mod_small by lia. rewrite (bind_check _ _ _ _ Eb).
    reflexivity.
  - split_and!; try done. change (newkeys_in (got r inp (mem_write inc1 dp (drop (d_first d) pl)) c' (newkeys_in r) (packlen r))) with (newkeys_in r).
    change (receive_context (got r inp (mem_write inc1 dp (drop (d_first d) pl)) c' (newkeys_in r) (packlen r))) with (Some c').
    replace (length pl - d_aad d)%nat with (d_first d + n)%nat by lia.
    rewrite <- (d_next_first _ _ _ _ _ _ Hd). rewrite Hc in Hd. by apply (dir_ok_next _ _ c).
Qed.

Lemma taglen_next st n : taglen (next_state st n) = taglen st.
Proof. by destruct st. Qed.

Lemma d_next_params d n :
  d_aad (d_next d n) = d_aad d /\ d_etm (d_next d n) = d_etm d /\ d_maclen (d_next d n) = d_maclen d.
Proof. unfold d_aad, d_etm, d_maclen. cbn [d_next d_state d_mac]. by rewrite taglen_next. Qed.

(** The keys of a direction with a mac. *)
Lemma dir_mac_key e nk cc d sec len etm :
  dir_ok e nk cc d -> d_mac d = Some (sec, len, etm) ->
  exists k, nk = Some k /\ mac_keyed (nmac k) sec /\ mac_len (nmac k) = len.
Proof.
  intros (c & _ & _ & _ & H) Hm. destruct nk as [k|]; [|destruct H as (_ & H & _); congruence].
  exists k. destruct H as (_ & _ & _ & _ & _ & _ & H). rewrite Hm in H. tauto.
Qed.

(** A mac that was used once more. *)
Lemma rx_ok_mac r d k mac' :
  rx_ok r d -> newkeys_in r = Some k -> same_mac (nmac k) mac' ->
  (forall sec len etm, d_mac d = Some (sec, len, etm) -> mac_keyed mac' sec) ->
  rx_ok (set_newkeys_in r (Some (mk_newkeys (enc k) mac' (comp k)))) d.
Proof.
  intros (Hd & H) Hk Hs Hm. split; [|exact H]. rewrite Hk in Hd. by apply dir_ok_mac.
Qed.

(** Octets taken from the input. *)
Lemma rx_consume r d tag rest :
  rx_ok r d -> contents (input r) = tag ++ rest ->
  exists inp, check (b_consume Input (Z.of_nat (length tag))) r = (Ok tt, set_input r inp) /\
    rx_ok (set_input r inp) d /\ contents inp = rest.
Proof.
  intros (Hd & Ha & Hst & Hgi & Hgc) Hc. destruct (b_consume_ok Input r (Z.of_nat (length tag))) as (inp & E & Hg & Hci); [done| |].
  { cbn [buf]. rewrite Hc, length_app. lia. }
  exists inp. split_and!; try done.
  - unfold check, bind. by rewrite E.
  - cbn [buf] in Hci. by rewrite Hci, Hc, Nat2Z.id, drop_app_length.
Qed.

(** Mac, decryption and mac accept the packet of the other end. *)
Lemma read_body_spec r d seq pl rest :
  opened r d pl (wire d seq pl ++ rest) -> seqnr (p_read r) = seq -> framed d pl ->
  exists inp inc c nk,
    read_body (newkeys_in r) (need_of d pl) r = (Ok tt, got r inp inc c nk (packlen r)) /\
    rx_ok (got r inp inc c nk (packlen r)) (d_next d (length pl - d_aad d)) /\
    contents inp = rest /\ contents inc = pl.
Proof.
  intros ((e0 & nk0 & cc0 & Hd0) & Hrx & Hpk & _ & Hci & Hcc) Hseq Hpl. pose proof Hrx as (Hd & Ha & Hst & Hgi & Hgc).
  destruct (dir_params _ _ _ _ Hd) as (Hau & Hmo & Heo & Hbl & Haad & Hml & _ & Hbs & _).
  destruct (d_next_params d (d_first d)) as (Na & Ne & Nm). rewrite Na in Haad. rewrite Ne in Heo. rewrite Nm in Hml.
  cbn [d_next d_state d_mac d_block] in Hau, Hmo, Hbs. rewrite taglen_next in Hau.
  destruct (framed_facts d pl Hpl Hbs) as (Hpb & Hl10 & _ & Hlf & Hla & _ & _ & Hmax).
  destruct (d_rest_spec _ _ _ d seq pl Hd0 Hlf Hla) as (Erest & Eall & Hlrest).
  assert (Hlct : length (ciphertext d seq pl) = (length pl + taglen (d_state d))%nat).
  { destruct Hd0 as (c0 & _ & _ & Hs0 & _). by apply (length_ciphertext c0). }
  unfold wire in Hci. rewrite <- !app_assoc, drop_app_le, Erest in Hci by lia.
  unfold read_body, d_tag in *. rewrite Heo, Hmo, Hml. unfold d_etm, d_maclen in *.
  destruct (d_mac d) as [[[sec len] etm]|] eqn:Hm.
  - destruct (dir_mac_key _ _ _ _ sec len etm Hd Hm) as (k & Hk & Hkm & Hkl).
    pose proof (dir_mac_no_tag _ _ _ _ _ Hd Hm) as Ht. cbn [d_next d_state] in Ht. rewrite taglen_next in Ht.
    rewrite bool_decide_eq_true_2 by (by eexists).
    assert (Hltag : forall x, Z.of_nat (length (mac_tag len sec seq x)) = len) by (intros x; rewrite <- Hkl; by apply length_mac_tag).
    assert (Hkm' : forall mac', mac_keyed mac' sec -> forall sec0 len0 etm0, d_mac (d_next d (d_first d)) = Some (sec0, len0, etm0) -> mac_keyed mac' sec0).
    { intros mac' H ? ? ? E0. cbn in E0. congruence. }
    destruct etm; cbn [negb when].
    + (* the mac covers the ciphertext *)
      set (tag := mac_tag len sec seq (ciphertext d seq pl)) in *.
      destruct (b_ptr_ok Input r Hgi) as (slack & Ep & Hsl). cbn [buf] in Ep. rewrite Hci in Ep.
      assert (H4 : d_aad d = 4%nat) by (unfold d_aad, d_etm; by rewrite Hm).
      assert (Hf0 : d_first d = 0%nat) by (unfold d_first; by rewrite H4).
      assert (Hlen : aadlen_of (newkeys_in r) + need_of d pl = Z.of_nat (length (ciphertext d seq pl))).
      { rewrite Haad, Hlct, Ht. unfold need_of. rewrite Hf0. lia. }
      rewrite bind_assoc, (bind_ok _ _ _ _ _ Ep).
      match goal with |- context [bind (check _) ?k r] => set (K := k) end.
      rewrite Hlen, Hau, Ht, Z.add_0_r, Eall by lia. rewrite <- !app_assoc.
      unfold u32. rewrite Z.mod_small by lia. rewrite Nat2Z.id, drop_app_length, <- Hkl.
      destruct (check_mac_ok r k sec (ciphertext d seq pl ++ tag ++ rest ++ slack) (Z.of_nat (length (ciphertext d seq pl)))
        (tag ++ rest ++ slack)) as (mac' & Ec & Hmk & Hsm); try done.
      { rewrite length_app, Hkl. pose proof (Hltag (ciphertext d seq pl)). fold tag in H. lia. }
      { rewrite Nat2Z.id, take_app_length, Hkl, Hseq. apply take_app_length'. pose proof (Hltag (ciphertext d seq pl)). lia. }
      rewrite (bind_check _ _ _ _ Ec). unfold K. clear K Ec.
      set (r1 := set_newkeys_in r (Some (mk_newkeys (enc k) mac' (comp k)))).
      destruct (decrypt_step r1 d seq pl (tag ++ rest) (newkeys_in r)) as (inp & inc & c & Es & Hrx2 & Hci2 & Hcc2); try done.
      { apply rx_ok_mac; try done. by apply Hkm'. }
      rewrite Es. clear Es. rewrite bind_ret.
      destruct (rx_consume _ _ tag rest Hrx2) as (inp' & Ei & Hrx3 & Hci3); [done|].
      rewrite <- (Hltag (ciphertext d seq pl)). fold tag. rewrite Ei.
      exists inp', inc, c, (newkeys_in r1). by split_and!.
    + (* the mac covers the packet itself *)
      rewrite bind_ret.
      destruct (decrypt_step r d seq pl (mac_tag len sec seq pl ++ rest) (newkeys_in r)) as (inp & inc & c & Es & Hrx2 & Hci2 & Hcc2); try done.
      rewrite Es. clear Es. set (tag := mac_tag len sec seq pl) in *. set (r2 := got _ _ _ _ _ _) in *.
      pose proof Hrx2 as (Hd2 & _ & _ & Hgi2 & Hgc2).
      destruct (b_ptr_ok Incoming r2 Hgc2) as (sl1 & Ep1 & _). change (buf Incoming r2) with inc in Ep1. rewrite Hcc2 in Ep1.
      destruct (b_ptr_ok Input r2 Hgi2) as (sl2 & Ep2 & _). change (buf Input r2) with inp in Ep2. rewrite Hci2 in Ep2.
      rewrite !bind_assoc, (bind_ok _ _ _ _ _ Ep1), bind_assoc, (bind_ok _ _ _ _ _ (b_len_ok Incoming r2 Hgc2)), bind_assoc,
        (bind_ok _ _ _ _ _ Ep2), bind_assoc.
      change (buf Incoming r2) with inc. rewrite Hcc2. rewrite <- Hkl.
      destruct (check_mac_ok r2 k sec (pl ++ sl1) (Z.of_nat (length pl)) ((tag ++ rest) ++ sl2)) as (mac' & Ec & Hmk & Hsm); try done.
      { rewrite <- app_assoc, length_app, Hkl. pose proof (Hltag pl) as H. fold tag in H. lia. }
      { rewrite Nat2Z.id, take_app_length, Hkl, <- app_assoc. change (seqnr (p_read r2)) with (seqnr (p_read r)). rewrite Hseq.
        apply take_app_length'. pose proof (Hltag pl). lia. }
      rewrite (bind_ok _ _ _ _ _ Ec). change (negb (0 =? 0)) with false. rewrite bind_when_false.
      assert (Hrx3 : rx_ok (set_newkeys_in r2 (Some (mk_newkeys (enc k) mac' (comp k)))) (d_next d (length pl - d_aad d))).
      { apply rx_ok_mac; try done. by apply Hkm'. }
      destruct (rx_consume _ _ tag rest Hrx3) as (inp' & Ei & Hrx4 & Hci4); [done|].
      rewrite Hkl, <- (Hltag pl). fold tag. rewrite Ei. exists inp', inc, c, (Some (mk_newkeys (enc k) mac' (comp k))). by split_and!.
  - rewrite bool_decide_eq_false_2 by (by intros [x Hx]). rewrite bind_when_false.
    destruct (decrypt_step r d seq pl rest (newkeys_in r)) as (inp & inc & c & Es & Hrx2 & Hci2 & Hcc2); try done.
    rewrite Es. exists inp, inc, c, (newkeys_in r). by split_and!.
Qed.

(** ** Delivery *)

(** Padding removed, type read. *)
Lemma open_packet_spec r nk t body pad :
  good (incoming_packet r) -> contents (incoming_packet r) = plain (t :: body) pad -> comp_on nk = false ->
  SSH2_MSG_MIN <= t -> (4 <= length pad)%nat ->
  exists inc, open_packet nk r = (Ok tt, set_typep (set_incoming_packet r inc) t) /\ good inc /\ contents inc = body.
Proof.
  intros Hg Hc Hco Ht Hpad. unfold open_packet. rewrite Hco.
  destruct (b_ptr_ok Incoming r Hg) as (slack & Ep & _). cbn [buf] in Ep. rewrite (bind_ok _ _ _ _ _ Ep).
  assert (E4 : byte_at (contents (incoming_packet r) ++ slack) 4 = Z.of_nat (length pad)).
  { unfold byte_at. rewrite Hc. unfold plain. by rewrite <- app_assoc, lookup_app_r by (cbn; lia). }
  rewrite E4. rewrite (proj2 (Z.ltb_ge _ _)), bind_when_false by lia.
  destruct (b_consume_ok Incoming r (4 + 1) Hg) as (b1 & E1 & Hg1 & Hc1).
  { cbn [buf]. rewrite Hc, length_plain. cbn [length]. lia. }
  rewrite (bind_check _ _ _ _ E1). cbn [buf] in Hc1. rewrite Hc in Hc1.
  change (contents b1 = (t :: body) ++ pad) in Hc1.
  destruct (b_consume_end_ok Incoming (set_buf Incoming r b1) (Z.of_nat (length pad))) as (b2 & E2 & Hg2 & Hc2); [done| |].
  { change (buf Incoming (set_buf Incoming r b1)) with b1. rewrite Hc1, length_app. lia. }
  rewrite (bind_check _ _ _ _ E2), bind_when_false. change (buf Incoming (set_buf Incoming r b1)) with b1 in Hc2.
  rewrite Hc1, length_app in Hc2. rewrite take_app_length' in Hc2 by lia.
  destruct (get_u8_read b2 t body) as (b3 & E3 & Hw3 & Hc3 & Hf3); [apply Hg2|done|].
  exists b3. split_and!; [|by apply (good_frame b2)|done].
  unfold bind at 1. change (incoming_packet (set_buf Incoming (set_buf Incoming r b1) b2)) with b2. rewrite E3.
  cbn [negb Z.eqb]. rewrite bind_get. cbn [set_buf].
  change (typep (set_typep (set_incoming_packet (set_incoming_packet (set_incoming_packet r b1) b2) b3) t)) with t.
  by rewrite (proj2 (Z.ltb_ge _ _)) by done.
Qed.

Lemma length_wire d seq pl :
  dir_valid d -> (d_aad d <= length pl)%nat ->
  Z.of_nat (length (wire d seq pl)) = Z.of_nat (length pl + taglen (d_state d)) + d_maclen d.
Proof.
  intros (e & nk & cc & Hd) Hl. unfold wire. rewrite length_app.
  pose proof Hd as (c & _ & _ & Hs & _). rewrite (length_ciphertext c) by done.
  unfold d_tag, d_maclen. destruct (d_mac d) as [[[sec len] etm]|] eqn:Hm; [|cbn [length]; lia].
  destruct (dir_mac_key _ _ _ _ _ _ _ Hd Hm) as (k & _ & Hk & <-).
  pose proof (length_mac_tag (nmac k) sec seq (if etm then ciphertext d seq pl else pl) Hk). lia.
Qed.

(** What is left to read, as the code computes it. *)
Lemma need_of_spec d (pl : list Z) :
  (d_first d <= length pl)%nat -> (4 <= length pl)%nat -> Z.of_nat (length pl) <= 262148 -> d_block d = 8 \/ d_block d = 16 ->
  (if negb (Z.of_nat (d_aad d) =? 0) then Z.of_nat (length pl) - 4 else u32 (4 + (Z.of_nat (length pl) - 4) - d_block d)) =
    need_of d pl /\
  (Z.of_nat (length pl - d_aad d) mod d_block d = 0 -> need_of d pl mod d_block d = 0).
Proof.
  intros Hf H4 Hm Hb. unfold need_of. unfold d_first in *. destruct (d_aad_cases d) as [(E & _)|E]; rewrite E in *.
  - change (negb (Z.of_nat 0 =? 0)) with false. change ((0 =? 0)%nat) with true in *. cbv iota in *.
    unfold u32. split; [rewrite Z.mod_small; lia|]. intros H. rewrite Nat.sub_0_r in *.
    destruct Hb as [Eb|Eb]; rewrite Eb in *; dm_lia.
  - change (negb (Z.of_nat 4 =? 0)) with true. change ((4 =? 0)%nat) with false. cbv iota.
    rewrite Nat.sub_0_r. split; [lia|done].
Qed.

(** The receiving end takes part in the protocol. *)
Definition live (r : ssh) : Prop :=
  mux r = false /\ packet_discard r = 0 /\ hook_in r = None /\
  0 <= seqnr (p_read r) < 2 ^ 32 - 1 /\ 0 <= packets (p_read r) < 2 ^ 32 - 1.

(** The state in which a packet has been delivered. *)
Definition delivered (r : ssh) (inp inc : sshbuf) (c : sshcipher_ctx) (nk : option newkeys) (t len bs : Z) : ssh :=
  set_p_read (set_typep (set_seqnr_p (got r inp inc c nk 0) (seqnr (p_read r))) t)
    (strict_ps (kexp r) t (counted (p_read r) len bs)).

(** The tail of [ssh_packet_read_poll2]: a whole packet is in the input. *)
Lemma deliver_spec r d t body pad rest :
  let pl := plain (t :: body) pad in let seq := seqnr (p_read r) in
  opened r d pl (wire d seq pl ++ rest) -> hook_in r = None ->
  0 <= seqnr (p_read r) < 2 ^ 32 - 1 -> 0 <= packets (p_read r) < 2 ^ 32 - 1 ->
  framed d pl -> SSH2_MSG_MIN <= t -> (4 <= length pad)%nat ->
  (t = SSH2_MSG_NEWKEYS -> is_Some (kexp r)) -> (t <> SSH2_MSG_USERAUTH_SUCCESS \/ server_side r = true) ->
  exists inp inc c nk, let r' := delivered r inp inc c nk t (Z.of_nat (length pl)) (d_block d) in
    (read_body (newkeys_in r) (need_of d pl) ;*
     modify (fun s => set_seqnr_p s (seqnr (p_read s))) ;*
     count_packet MODE_IN (u32 (packlen r + 4)) (d_block d) ;*
     open_packet (newkeys_in r) ;*
     run_hook ;*
     let* t := get typep in
     let* server := get server_side in
     (if (t =? SSH2_MSG_USERAUTH_SUCCESS) && negb server
      then let* _r := ssh_packet_enable_delayed_compress in ret tt
      else ret tt) ;*
     modify (fun s => set_packlen s 0) ;*
     strict_reset MODE_IN t ;*
     ssh_packet_check_rekey) r = ssh_packet_check_rekey r' /\
    rx_ok r' (d_next d (length pl - d_aad d)) /\ contents inp = rest /\ contents inc = body.
Proof.
  intros pl seq Hop Hhook Hsq Hpk Hpl Ht Hpad Hnk Hus.
  destruct (read_body_spec r d seq pl rest Hop eq_refl Hpl) as (inp & inc & c & nk & Eb & Hrx & Hci & Hcc).
  rewrite (bind_ok _ _ _ _ _ Eb), bind_modify. set (r1 := set_seqnr_p _ _).
  destruct Hop as (_ & (Hd & _) & Hlen & _).
  assert (Hco : comp_on (newkeys_in r) = false) by apply (dir_params _ _ _ _ Hd).
  assert (El : u32 (packlen r + 4) = Z.of_nat (length pl)).
  { destruct Hpl as (_ & _ & _ & _ & Hmax). unfold PACKET_MAX_SIZE in Hmax. rewrite Hlen. unfold u32. rewrite Z.mod_small; lia. }
  rewrite El, (bind_ok _ _ _ _ _ (count_packet_ok MODE_IN r1 (Z.of_nat (length pl)) (d_block d) Hsq Hpk)).
  cbn [set_ps ps_of]. set (r2 := set_p_read r1 _).
  destruct (open_packet_spec r2 (newkeys_in r) t body pad) as (inc' & Eo & Hgi & Hco'); [apply Hrx|done..|].
  rewrite (bind_ok _ _ _ _ _ Eo). set (r3 := set_typep _ t).
  assert (Eh : run_hook r3 = (Ok tt, r3)) by (unfold run_hook; change (hook_in r3) with (hook_in r); by rewrite Hhook).
  rewrite (bind_ok _ _ _ _ _ Eh), !bind_get. change (typep r3) with t. change (server_side r3) with (server_side r).
  replace ((t =? SSH2_MSG_USERAUTH_SUCCESS) && negb (server_side r)) with false by (destruct Hus as [?| ->]; lia).
  rewrite bind_ret, bind_modify. set (r4 := set_packlen r3 0).
  rewrite (bind_ok _ _ _ _ _ (strict_reset_ok MODE_IN r4 t Hnk)).
  exists inp, inc', c, nk. split_and!; try done. destruct Hrx as (Hd' & Ha' & Hst' & Hgi' & _). by split_and!.
Qed.

(** [ssh_packet_read_poll2] on the first octets [g] of a packet: it waits for
    more, without an error, until the packet is complete, and then delivers it. *)
Lemma read_poll2_spec r d t body pad g more rest :
  let pl := plain (t :: body) pad in let seq := seqnr (p_read r) in
  receiving r d pl g -> live r -> framed d pl -> SSH2_MSG_MIN <= t -> (4 <= length pad)%nat ->
  (t = SSH2_MSG_NEWKEYS -> is_Some (kexp r)) -> (t <> SSH2_MSG_USERAUTH_SUCCESS \/ server_side r = true) ->
  g ++ more = wire d seq pl ++ rest ->
  if (length g <? length (wire d seq pl))%nat
  then exists inp inc c len,
    let r' := set_typep (got r inp inc c (newkeys_in r) len) SSH_MSG_NONE in
    ssh_packet_read_poll2 r = (Ok 0, r') /\ receiving r' d pl g
  else exists inp inc c nk, let r' := delivered r inp inc c nk t (Z.of_nat (length pl)) (d_block d) in
    ssh_packet_read_poll2 r = func ssh_packet_check_rekey r' /\
    rx_ok r' (d_next d (length pl - d_aad d)) /\
    contents inp = drop (length (wire d seq pl)) g /\ contents inc = body.
Proof.
  intros pl seq Hr (Hmux & Hdis & Hhook & Hsq & Hpk) Hpl Ht Hpad Hnk Hus Hstream.
  set (r0 := set_typep r SSH_MSG_NONE).
  unfold ssh_packet_read_poll2. match goal with |- context [func ?b] => set (prog := b) end.
  assert (Eprog : prog r = prog r) by reflexivity. unfold prog in Eprog at 2.
  rewrite bind_get, Hmux, bind_modify, bind_get in Eprog. change (packet_discard (set_typep r SSH_MSG_NONE)) with (packet_discard r) in Eprog.
  rewrite Hdis in Eprog. change (negb (0 =? 0)) with false in Eprog. rewrite bind_when_false, bind_get in Eprog.
  fold r0 in Eprog. change (newkeys_in r0) with (newkeys_in r) in Eprog.
  assert (Hv : exists n, dir_ok false (newkeys_in r) (receive_context r) (d_next d n)).
  { destruct Hr as [((Hd & _) & _)|(_ & (Hd & _) & _)]; [exists 0%nat; by rewrite d_next_0|by eexists]. }
  destruct Hv as (n0 & Hd). destruct (dir_params _ _ _ _ Hd) as (Hau & _ & _ & Hbl & Haad & Hml & _ & Hbs & Hmr).
  destruct (d_next_params d n0) as (Na & _ & Nm). rewrite Na in Haad. rewrite Nm in Hml, Hmr.
  cbn [d_next d_state d_block] in Hau, Hbl, Hbs. rewrite taglen_next in Hau.
  destruct (framed_facts d pl Hpl Hbs) as (_ & Hl10 & _ & Hlf & Hla & _ & Hmod & Hmax).
  assert (Hdv : dir_valid d) by (destruct Hr as [((? & _) & _)|(? & _)]; [by eexists _, _, _|done]).
  pose proof (length_wire d seq pl Hdv Hla) as Hlw.
  destruct (need_of_spec d pl Hlf ltac:(lia) Hmax Hbs) as [Eneed Hneed]. specialize (Hneed Hmod).
  destruct (read_length_spec r0 d seq pl g more rest Hr eq_refl Hstream Hpl) as
    [(n & Hn & Hlt & E)|(inp & inc & c & len & E & Hop)].
  - rewrite (proj2 (Nat.ltb_lt _ _)) by lia. rewrite (bind_early _ _ _ _ _ E) in Eprog.
    pose proof Hd as (c & Hc & _). exists (input r), (incoming_packet r), c, (packlen r). cbv zeta.
    assert (E0 : set_typep (got r (input r) (incoming_packet r) c (newkeys_in r) (packlen r)) SSH_MSG_NONE = r0).
    { unfold got, r0. rewrite <- Hc. by destruct r. }
    rewrite E0. split; [by apply func_early|exact Hr].
  - change (newkeys_in r0) with (newkeys_in r) in E, Hop.
    rewrite (bind_ok _ _ _ _ _ E), bind_get in Eprog. set (r1 := got r0 _ _ _ _ _) in *.
    pose proof Hop as (_ & Hrx1 & Hpl1 & Hge & Hci & _). rewrite Hpl1, Hbl, Haad in Eprog.
    rewrite Eneed, Hneed in Eprog. change (negb (0 =? 0)) with false in Eprog. rewrite bind_when_false in Eprog.
    pose proof (b_len_ok Input r1 (proj1 (proj2 (proj2 (proj2 Hrx1))))) as El. cbn [buf] in El. rewrite Hci, length_drop in El.
    rewrite (bind_ok _ _ _ _ _ El), Hau, Hml in Eprog.
    assert (Efull : (Z.of_nat (length g - d_first d) <? u32 (Z.of_nat (d_aad d) + need_of d pl + Z.of_nat (taglen (d_state d)) + d_maclen d)) =
                    (length g <? length (wire d seq pl))%nat).
    { unfold u32, need_of, SSH_DIGEST_MAX_LENGTH in *. assert ((taglen (d_state d) <= 16)%nat) by (destruct (d_state d); cbn; lia).
      assert ((d_first d + d_aad d <= length pl)%nat).
      { unfold d_first in *. destruct (d_aad_cases d) as [(E1 & _)|E1]; rewrite E1 in *; cbn [Nat.eqb] in *; lia. }
      rewrite Z.mod_small by lia. lia. }
    rewrite Efull in Eprog. destruct (Nat.ltb_spec (length g) (length (wire d seq pl))) as [Hlt|Hge'].
    + exists inp, inc, c, len. cbv zeta. split; [by apply func_early|]. right. exact Hop.
    + rewrite bind_when_false in Eprog.
      assert (Eg : g = wire d seq pl ++ drop (length (wire d seq pl)) g).
      { rewrite <- (take_drop (length (wire d seq pl)) g) at 1. f_equal.
        rewrite <- (take_app_le g more) by done. by rewrite Hstream, take_app_length. }
      rewrite Eg in Hop. set (rest' := drop _ g) in *.
      destruct (deliver_spec r1 d t body pad rest' Hop Hhook Hsq Hpk Hpl Ht Hpad Hnk Hus)
        as (inp' & inc' & c' & nk & Ed & Hrx' & Hci' & Hcc').
      cbv zeta in Ed. rewrite Hpl1 in Ed. change (newkeys_in r1) with (newkeys_in r) in Ed. fold pl in Ed. rewrite Ed in Eprog.
      exists inp', inc', c', nk. cbv zeta. split_and!; try done. unfold func. rewrite Eprog. reflexivity.
Qed.

(** What receiving leaves alone. *)
Definition rest_of (s : ssh) :=
  (mux s, packet_discard s, hook_in s, waits s, (after_authentication s, compat s, rekey_interval s, rekeying s),
   (max_blocks_in s, max_blocks_out s, newkeys_out s, send_context s),
   (output s, outgoing_packet s, p_send s, outgoing s, extra_pad s), (kexp s, server_side s, alloc s, stack s)).

Definition same_rest (s s' : ssh) : Prop := rest_of s' = rest_of s.

(** The two outcomes by the members of the state. *)
Lemma read_poll2_facts r d t body pad g more rest :
  let pl := plain (t :: body) pad in let seq := seqnr (p_read r) in
  receiving r d pl g -> live r -> framed d pl -> SSH2_MSG_MIN <= t -> (4 <= length pad)%nat ->
  (t = SSH2_MSG_NEWKEYS -> is_Some (kexp r)) -> (t <> SSH2_MSG_USERAUTH_SUCCESS \/ server_side r = true) ->
  g ++ more = wire d seq pl ++ rest ->
  exists r', same_rest r r' /\
  if (length g <? length (wire d seq pl))%nat
  then ssh_packet_read_poll2 r = (Ok 0, r') /\ receiving r' d pl g /\ typep r' = SSH_MSG_NONE /\ p_read r' = p_read r
  else ssh_packet_read_poll2 r = func ssh_packet_check_rekey r' /\ rx_ok r' (d_next d (length pl - d_aad d)) /\
    packlen r' = 0 /\ typep r' = t /\ seqnr_p r' = seq /\ contents (incoming_packet r') = body /\
    contents (input r') = drop (length (wire d seq pl)) g /\
    p_read r' = strict_ps (kexp r) t (counted (p_read r) (Z.of_nat (length pl)) (d_block d)).
Proof.
  intros pl seq Hr Hl Hpl Ht Hpad Hnk Hus Hstream.
  pose proof (read_poll2_spec r d t body pad g more rest Hr Hl Hpl Ht Hpad Hnk Hus Hstream) as H. cbv zeta in H.
  fold pl seq in H. destruct (length g <? length (wire d seq pl))%nat.
  - destruct H as (inp & inc & c & len & E & Hr'). exists (set_typep (got r inp inc c (newkeys_in r) len) SSH_MSG_NONE).
    split; [reflexivity|]. split; [exact E|]. split; [exact Hr'|]. split; reflexivity.
  - destruct H as (inp & inc & c & nk & E & Hrx & Hci & Hcc).
    exists (delivered r inp inc c nk t (Z.of_nat (length pl)) (d_block d)).
    split; [reflexivity|]. split; [exact E|]. split; [exact Hrx|]. do 3 (split; [reflexivity|]).
    split; [exact Hcc|]. split; [exact Hci|]. reflexivity.
Qed.

End recv.
