(* ===== verification/PacketRead.v ===== *)
(** Reading packets as the protocol code does (packet.c): access to the packet
    being sent and to the packet received, the transport messages that the
    packet layer answers itself, and waiting for a packet. *)

From stdpp Require Import base list numbers tactics.
From Stdlib Require Import ZArith Lia ZifyBool.
From S2P Require Import Prelude Sshbuf SshbufGetput Chachapoly AesCtr Cipher Digest Mac PacketState Packet.

#[local] Open Scope ssh_scope.

Definition SSH_ERR_UNEXPECTED_TRAILING_DATA := -23.
Definition SSH_ERR_CONN_CLOSED := -52.
Definition SSH_ERR_CONN_TIMEOUT := -53.

Section read.
Context {md : MD} {um : Umac}.

(** ** The packet being sent *)

Definition sshpkt_put (v : list Z) (len : Z) : M Z := b_put Outgoing v len.
Definition sshpkt_putb (b : option sshbuf) : M Z := b_alloc Outgoing (fun w o => sshbuf_putb w o b).
Definition sshpkt_put_u8 (v : Z) : M Z := b_alloc Outgoing (fun w b => sshbuf_put_u8 w b v).
Definition sshpkt_put_u64 (v : Z) : M Z := b_alloc Outgoing (fun w b => sshbuf_put_u64 w b v).
Definition sshpkt_put_stringb (v : option sshbuf) : M Z := b_alloc Outgoing (fun w b => sshbuf_put_stringb w b v).

Definition arc4random : M Z :=
  let* b := arc4random_buf 4 in
  ret (byte_at b 0 + 2 ^ 8 * byte_at b 1 + 2 ^ 16 * byte_at b 2 + 2 ^ 24 * byte_at b 3).

(** The loop of [sshpkt_msg_ignore] from index [i], [n] octets to go. *)
Fixpoint ignore_loop (n : nat) (i rnd : Z) : M unit :=
  match n with
  | O => ret tt
  | S n =>
      let* rnd := if i mod 4 =? 0 then arc4random else ret rnd in
      check (sshpkt_put_u8 (Z.land (u8 rnd) 0xff)) ;*
      ignore_loop n (i + 1) (Z.shiftr rnd 8)
  end.

Definition sshpkt_msg_ignore (nbytes : Z) : M Z := func (
  check (sshpkt_start SSH2_MSG_IGNORE) ;*
  check (sshpkt_put_u32 nbytes) ;*
  ignore_loop (Z.to_nat nbytes) 0 0 ;*
  ret 0).

(** ** The packet received *)

(** An operation that reads a value from the start of the incoming packet: its
    result and the value. *)
Definition in_get {A} (f : sshbuf -> Z * option A * sshbuf) : M (Z * option A) :=
  fun s => let '(r, v, b) := f (incoming_packet s) in (Ok (r, v), set_incoming_packet s b).

Definition sshpkt_get (len : Z) : M (Z * option (list Z)) := in_get (fun b => sshbuf_get b len).
Definition sshpkt_get_u8 : M (Z * option Z) := in_get sshbuf_get_u8.
Definition sshpkt_get_u32 : M (Z * option Z) := in_get sshbuf_get_u32.
Definition sshpkt_get_u64 : M (Z * option Z) := in_get sshbuf_get_u64.

(** The octets of a string and its length. *)
Definition sshpkt_get_string : M (Z * option (list Z) * Z) :=
  fun s => let '(r, p, len, b, w) := sshbuf_get_string (alloc s) (incoming_packet s) in
           (Ok (r, p, len), set_alloc (set_incoming_packet s b) w).

Definition sshpkt_get_cstring : M (Z * option (list Z) * Z) :=
  fun s => let '(r, p, len, b, w) := sshbuf_get_cstring (alloc s) (incoming_packet s) in
           (Ok (r, p, len), set_alloc (set_incoming_packet s b) w).

Definition sshpkt_get_string_direct : M (Z * option (list Z) * Z) :=
  fun s => let '(r, p, len, b) := sshbuf_get_string_direct (incoming_packet s) in
           (Ok (r, p, len), set_incoming_packet s b).

Definition sshpkt_peek_string_direct : M (Z * option (list Z) * Z) :=
  get (fun s => sshbuf_peek_string_direct (incoming_packet s)).

Definition sshpkt_get_end : M Z :=
  let* len := b_len Incoming in ret (if len >? 0 then SSH_ERR_UNEXPECTED_TRAILING_DATA else 0).

(** [if ((r = sshpkt_get_...) != 0) return r] *)
Definition got_string (m : M (Z * option (list Z) * Z)) : M (option (list Z) * Z) :=
  let* v := m in let '(r, p, len) := v in if negb (r =? 0) then early r else ret (p, len).
Definition got_int (m : M (Z * option Z)) : M (option Z) :=
  let* v := m in let '(r, x) := v in if negb (r =? 0) then early r else ret x.

(** ** Messages that the packet layer handles *)

Inductive handled := Again | Deliver.

(** The switch of [ssh_packet_read_poll_seqnr]. *)
Definition transport_message (t : Z) : M handled :=
  if t =? SSH2_MSG_IGNORE then ret Again
  else if t =? SSH2_MSG_DEBUG then
    let* _display := got_int sshpkt_get_u8 in
    let* _msg := got_string sshpkt_get_string in
    let* _lang := got_string sshpkt_get_string_direct in
    ret Again
  else if t =? SSH2_MSG_UNIMPLEMENTED then
    let* _seqnr := got_int sshpkt_get_u32 in ret Again
  else if t =? SSH2_MSG_PING then
    let* d := got_string sshpkt_get_string_direct in
    check (sshpkt_start SSH2_MSG_PONG) ;*
    check (sshpkt_put_string (default [] (fst d)) (snd d)) ;*
    check sshpkt_send ;*
    ret Again
  else if t =? SSH2_MSG_PONG then
    let* _d := got_string sshpkt_get_string_direct in ret Again
  else ret Deliver.

(** Strict key exchange in progress: nothing is handled here. *)
Definition strict_initial (s : ssh) : bool :=
  match kexp s with Some k => negb (Z.land (k_flags k) KEX_INITIAL =? 0) && kex_strict k | None => false end.

(** One turn of the loop of [ssh_packet_read_poll_seqnr]. *)
Definition poll_turn : M handled :=
  check ssh_packet_read_poll2 ;*
  let* t := get typep in
  if t =? 0 then ret Deliver (* no message ready *)
  else
    modify (fun s => set_keep_alive_timeouts s 0) ;*
    when (t =? SSH2_MSG_DISCONNECT)
      (let* _reason := got_int sshpkt_get_u32 in
       let* _msg := got_string sshpkt_get_string in
       early SSH_ERR_DISCONNECTED) ;*
    let* strict := get strict_initial in
    if strict then ret Deliver else transport_message t.

Fixpoint poll_loop (fuel : nat) : M Z :=
  match fuel with
  | O => fatal
  | S fuel => let* h := poll_turn in match h with Deliver => ret 0 | Again => poll_loop fuel end
  end.

(** Every turn that goes on takes octets from the input, or a length that was
    known before: the bound is never reached. *)
Definition poll_fuel (s : ssh) : nat := (2 + length (contents (input s)))%nat.

Definition ssh_packet_read_poll_seqnr : M Z := func (fun s => poll_loop (poll_fuel s) s).

(** ** Waiting for a packet *)

(** How one wait for input ends: [ppoll] fails or the time is over, or data can
    be read, of which there is none when the connection is closed.  [ppoll] is
    called again when it was interrupted, which changes nothing. *)
Inductive event := PollError | TimedOut | Data (data : list Z) | ReadError.

(** The loop of [ssh_packet_read_seqnr]: its result and the events that are
    left, or [None] while it waits. *)
Fixpoint read_loop (evs : list event) : M (option (Z * list event)) :=
  let* r := ssh_packet_read_poll_seqnr in
  let* t := get typep in
  if negb (r =? 0) || negb (t =? SSH_MSG_NONE) then ret (Some (r, evs))
  else
    match evs with
    | [] => ret None
    | PollError :: evs => ret (Some (SSH_ERR_SYSTEM_ERROR, evs))
    | TimedOut :: evs => ret (Some (SSH_ERR_CONN_TIMEOUT, evs))
    | ReadError :: evs => ret (Some (SSH_ERR_SYSTEM_ERROR, evs))
    | Data data :: evs =>
        if (length data =? 0)%nat then ret (Some (SSH_ERR_CONN_CLOSED, evs))
        else
          let* r := ssh_packet_process_incoming data (Z.of_nat (length data)) in
          if negb (r =? 0) then ret (Some (r, evs)) else read_loop evs
    end.

Definition ssh_packet_read_seqnr (evs : list event) : M (option (Z * list event)) :=
  let* r := ssh_packet_write_wait in
  if negb (r =? 0) then ret (Some (r, evs)) else read_loop evs.

End read.
