(* ===== verification/PacketThms.v ===== *)
(** Two ends of a connection: what one sends with sshpkt_start, sshpkt_put and
    sshpkt_send, the other reads with ssh_packet_read_seqnr. *)

From stdpp Require Import base list numbers tactics.
From Stdlib Require Import ZArith Lia ZifyBool.
From S2P Require Import Prelude Sshbuf SshbufGetput Chacha Chachapoly AesCtr Cipher Digest Mac PacketState.
From S2P Require Import Packet PacketBuf PacketSend PacketRecv PacketRead.

#[local] Open Scope ssh_scope.

Section thms.
Context {md : MD} {um : Umac} {mdl : MDLaws} {uml : UmacLaws}.

(** ** When keys have to be changed *)

(** No change of keys becomes due within [n] packets of [vol] octets: before
    authentication, with a peer that cannot, or below every limit. *)
Definition calm (s : ssh) (n vol : Z) : Prop :=
  after_authentication s = false \/ Z.land (compat s) SSH_BUG_NOREKEY <> 0 \/
  rekey_interval s = 0 /\
  (exists k, newkeys_out s = Some k /\ (e_block_size (enc k) = 8 \/ e_block_size (enc k) = 16)) /\
  packets (p_send s) + n <= MAX_PACKETS /\ packets (p_read s) + n <= MAX_PACKETS /\
  (max_blocks_out s = 0 \/ 0 <= blocks (p_send s) /\ blocks (p_send s) + vol <= max_blocks_out s) /\
  (max_blocks_in s = 0 \/ blocks (p_read s) + vol <= max_blocks_in s).

Lemma need_rekeying_calm s len n vol :
  calm s n vol -> 0 <= n -> 0 <= len -> len + 16 <= vol \/ (len = 0 /\ 0 <= vol) ->
  ssh_packet_need_rekeying len s = (Ok false, s).
Proof.
  intros Hc Hn Hl Hv. unfold ssh_packet_need_rekeying. rewrite bind_get.
  destruct (after_authentication s) eqn:Ea; [|done]. cbn [negb].
  destruct (ssh_packet_is_rekeying s); [done|].
  destruct Hc as [?|[Hc|(Hi & (k & Hk & Hb) & Hps & Hpr & Hbo & Hbi)]]; [congruence| |].
  { by rewrite (proj2 (Z.eqb_neq _ _) Hc). }
  destruct (negb _); [done|]. destruct (_ && _); [done|].
  rewrite Hi. cbn [negb Z.eqb]. rewrite bind_ret.
  assert (E : (packets (p_send s) >? MAX_PACKETS) || (packets (p_read s) >? MAX_PACKETS) = false) by lia.
  rewrite E, Hk. unfold ret. do 2 f_equal. unfold too_many_blocks. rewrite Hk. set (bs := e_block_size (enc k)) in *.
  set (ob := u32 (u32 (len + (bs - 1)) / bs * bs)).
  assert (Hob : 0 <= ob <= vol).
  { unfold ob, u32. assert (0 <= (len + (bs - 1)) mod 2 ^ 32 <= len + (bs - 1)).
    { split; [apply Z.mod_pos_bound; lia|]. apply Z.mod_le; lia. }
    set (x := (len + (bs - 1)) mod 2 ^ 32) in *. assert (0 <= x / bs * bs <= x) by (destruct Hb as [-> | ->]; dm_lia).
    assert (0 <= (x / bs * bs) mod 2 ^ 32 <= x / bs * bs).
    { split; [apply Z.mod_pos_bound; lia|]. apply Z.mod_le; lia. }
    destruct Hv as [?|[-> ?]]; [lia|]. destruct Hb as [Eb|Eb]; rewrite Eb in *; dm_lia. }
  assert (u64 (blocks (p_send s) + ob) <= max_blocks_out s \/ max_blocks_out s = 0).
  { destruct Hbo as [?|[? ?]]; [by right|left]. unfold u64. etransitivity; [apply Z.mod_le; lia|lia]. }
  lia.
Qed.

Lemma check_rekey_calm s n vol : calm s n vol -> 0 <= n -> 0 <= vol -> func ssh_packet_check_rekey s = (Ok 0, s).
Proof.
  intros Hc Hn Hv. apply func_ok. unfold ssh_packet_check_rekey.
  by rewrite (bind_ok _ _ _ _ _ (need_rekeying_calm s 0 n vol Hc Hn ltac:(lia) ltac:(lia))).
Qed.

(** Counting a packet uses up some of it. *)
Lemma calm_counted_send s s' k n vol len bs :
  calm s (n + 1) (vol + len) -> p_send s' = counted (p_send s) len bs -> p_read s' = p_read s ->
  after_authentication s' = after_authentication s -> compat s' = compat s -> rekey_interval s' = rekey_interval s ->
  max_blocks_out s' = max_blocks_out s -> max_blocks_in s' = max_blocks_in s ->
  (is_Some (newkeys_out s) -> newkeys_out s' = Some k /\ (e_block_size (enc k) = 8 \/ e_block_size (enc k) = 16)) ->
  0 <= len -> bs = 8 \/ bs = 16 -> 0 <= packets (p_send s) -> calm s' n vol.
Proof.
  intros Hc Hp Hr Ha Hco Hi Hmo Hmi Hk Hl Hbs Hpp. unfold calm. rewrite Ha, Hco, Hi, Hmo, Hmi, Hp, Hr.
  destruct Hc as [?|[?|(H1 & (k0 & Hk0 & _) & H3 & H4 & H5 & H6)]]; [by left|by right; left|right; right].
  assert (u32 (packets (p_send s) + 1) <= packets (p_send s) + 1) by (unfold u32; apply Z.mod_le; lia).
  assert (0 <= len / bs <= len) by (destruct Hbs as [-> | ->]; dm_lia).
  split_and!; [done|by exists k; apply Hk; eexists|cbn; lia|lia| |lia].
  destruct H5 as [?|[? ?]]; [by left|right]. cbn [counted blocks]. unfold u64.
  assert (0 <= (blocks (p_send s) + len / bs) mod 2 ^ 64 <= blocks (p_send s) + len / bs).
  { split; [apply Z.mod_pos_bound; lia|apply Z.mod_le; lia]. }
  lia.
Qed.

Lemma calm_counted_read s s' n vol len bs :
  calm s (n + 1) (vol + len) -> same_rest s s' -> p_read s' = counted (p_read s) len bs ->
  0 <= len -> bs = 8 \/ bs = 16 -> 0 <= packets (p_read s) -> 0 <= blocks (p_read s) -> calm s' n vol.
Proof.
  intros Hc Hs Hp Hl Hbs Hpp Hbp. injection Hs as _ _ _ _ Ha Hco Hi _ Hmi Hmo Hk _ _ _ Hr _ _ _ _ _ _.
  unfold calm. rewrite Ha, Hco, Hi, Hmo, Hmi, Hp, Hr, Hk. clear Ha Hco Hi Hmo Hmi Hp Hr Hk.
  destruct Hc as [?|[?|(H1 & H2 & H3 & H4 & H5 & H6)]]; [by left|by right; left|right; right].
  assert (u32 (packets (p_read s) + 1) <= packets (p_read s) + 1) by (unfold u32; apply Z.mod_le; lia).
  assert (0 <= len / bs <= len) by (destruct Hbs as [-> | ->]; dm_lia).
  split_and!; [done|done|lia|cbn; lia|lia|].
  destruct H6 as [?|?]; [by left|right]. cbn [counted blocks]. unfold u64.
  assert ((blocks (p_read s) + len / bs) mod 2 ^ 64 <= blocks (p_read s) + len / bs) by (apply Z.mod_le; lia).
  lia.
Qed.

Lemma calm_weaken s n vol n' vol' : calm s n vol -> n' <= n -> vol' <= vol -> calm s n' vol'.
Proof.
  intros [?|[?|(H1 & H2 & H3 & H4 & H5 & H6)]] Hn Hv; [by left|by right; left|right; right]. split_and!; try done; lia.
Qed.

(** ** Sending *)

(** A packet as the protocol code sends it. *)
Definition send_packet (p : Z * list Z) : M Z := func (
  check (sshpkt_start (fst p)) ;*
  check (sshpkt_put (snd p) (Z.of_nat (length (snd p)))) ;*
  check sshpkt_send ;*
  ret 0).

(** Types that neither change keys nor are handled by the packet layer. *)
Definition ordinary (t : Z) : Prop :=
  5 <= t <= 255 /\ t <> SSH2_MSG_KEXINIT /\ t <> SSH2_MSG_NEWKEYS /\ t <> SSH2_MSG_USERAUTH_SUCCESS /\
  t <> SSH2_MSG_PING /\ t <> SSH2_MSG_PONG.

(** A packet that is sent at once; while keys are exchanged ([rk]) only the
    messages of the transport layer are. *)
Definition sendable (rk : bool) (p : Z * list Z) : Prop :=
  ordinary (fst p) /\ bytes_ok (snd p) /\ Z.of_nat (length (snd p)) + 30 <= PACKET_MAX_SIZE /\
  (rk = false \/ ssh_packet_type_is_kex (fst p) = true).

(** The room a packet may take in the output. *)
Definition cost (p : Z * list Z) : Z := Z.of_nat (length (snd p)) + 450.

(** The sending end of the direction [d]. *)
Definition tx_ok (s : ssh) (d : dir) : Prop :=
  dir_ok true (newkeys_out s) (send_context s) d /\ alloc s = [] /\ stack_ok s /\
  good (outgoing_packet s) /\ good (output s) /\ mux s = false /\ extra_pad s = 0.

(** Writing a packet. *)
Lemma start_put s t body :
  good (outgoing_packet s) -> alloc s = [] -> bytes_ok body -> is_byte t ->
  Z.of_nat (length body) + 6 <= SSHBUF_SIZE_MAX ->
  exists og, (forall A (k : M A), (check (sshpkt_start t) ;* check (sshpkt_put body (Z.of_nat (length body))) ;* k) s =
      k (set_outgoing_packet s og)) /\
    good og /\ contents og = [0; 0; 0; 0; 0] ++ t :: body.
Proof.
  intros Hg Ha Hb Ht Hl. destruct (b_reset_ok Outgoing s Hg Ha) as (b0 & E0 & Hg0 & Hc0).
  destruct (b_put_ok Outgoing (set_buf Outgoing s b0) [0; 0; 0; 0; 0; t] 6) as (b1 & E1 & Hg1 & Hc1); try done.
  { apply (bytes_ok_app [0; 0; 0; 0; 0] [t]). split; [apply (bytes_ok_zeros 5)|by apply Forall_cons_2]. }
  { change (buf Outgoing (set_buf Outgoing s b0)) with b0. rewrite Hc0. unfold SSHBUF_SIZE_MAX. cbn [length]. lia. }
  change (buf Outgoing (set_buf Outgoing s b0)) with b0 in Hc1. rewrite Hc0 in Hc1.
  change (contents b1 = [0; 0; 0; 0; 0; t]) in Hc1.
  destruct (b_put_ok Outgoing (set_buf Outgoing (set_buf Outgoing s b0) b1) body (Z.of_nat (length body))) as (b2 & E2 & Hg2 & Hc2); try done; [lia| |].
  { change (buf Outgoing (set_buf Outgoing (set_buf Outgoing s b0) b1)) with b1. rewrite Hc1. cbn [length]. lia. }
  change (buf Outgoing (set_buf Outgoing (set_buf Outgoing s b0) b1)) with b1 in Hc2.
  rewrite Hc1, Nat2Z.id, take_ge in Hc2 by lia.
  exists b2. split; [|done]. intros A k.
  assert (Es : sshpkt_start t s = (Ok 0, set_buf Outgoing (set_buf Outgoing s b0) b1)).
  { unfold sshpkt_start. by rewrite (bind_ok _ _ _ _ _ E0). }
  rewrite (bind_check _ _ _ _ Es). unfold sshpkt_put. by rewrite (bind_check _ _ _ _ E2).
Qed.

(** [ssh_packet_send2] when no change of keys is in progress or due. *)
Lemma send2_spec s d h t body n vol :
  tx_ok s d -> contents (outgoing_packet s) = h ++ t :: body -> length h = 5%nat -> ordinary t ->
  rekeying s = false \/ ssh_packet_type_is_kex t = true ->
  room s -> calm s n vol -> 0 <= n -> Z.of_nat (length body) + 30 <= vol ->
  0 <= seqnr (p_send s) < 2 ^ 32 - 1 -> 0 <= packets (p_send s) < 2 ^ 32 - 1 ->
  exists pad og o c nk rnd, pad_ok d (t :: body) pad /\ Z.of_nat (length pad) <= d_block d + 3 /\
    let pl := plain (t :: body) pad in
    ssh_packet_send2 s =
      (Ok 0, set_p_send (sent s og o c nk rnd) (counted (p_send s) (Z.of_nat (length pl)) (d_block d))) /\
    good og /\ good o /\ contents o = contents (output s) ++ wire d (seqnr (p_send s)) pl /\
    dir_ok true nk (Some c) (d_next d (length pl - d_aad d)) /\ (is_Some (newkeys_out s) -> is_Some nk).
Proof.
  intros (Hd & Ha & Hst & Hgo & Hg & Hmux & Hep) Hc Hh (Ht & Hkx & Hnk & Hus & _) Hrk Hroom Hcalm Hn Hvol Hq Hpk.
  assert (Hlen : length (contents (outgoing_packet s)) = (6 + length body)%nat) by (rewrite Hc, length_app, Hh; cbn; lia).
  unfold ssh_packet_send2, send2_with.
  destruct (send2_wrapped_spec s d h t body) as [(He & _)|(pad & og & o & c & nk & rnd & Hpad & Hpb & Ew & Hgog & _ & Hgo' & Hco & Hd' & Hnks)];
    try done; [lia|].
  exists pad, og, o, c, nk, rnd. split_and!; try done; [by apply Hpb|]. cbv zeta.
  apply func_ok. rewrite (bind_ok _ _ _ _ _ (b_len_ok Outgoing s Hgo)). cbn [buf]. rewrite Hlen.
  rewrite (proj2 (Z.ltb_ge _ _)), bind_when_false by lia.
  destruct (b_ptr_ok Outgoing s Hgo) as (slack & Ep & _). cbn [buf] in Ep. rewrite (bind_ok _ _ _ _ _ Ep).
  assert (Ety : byte_at (contents (outgoing_packet s) ++ slack) 5 = t).
  { unfold byte_at. rewrite Hc, <- app_assoc, !lookup_app_r by lia. by rewrite Hh. }
  rewrite Ety. pose proof Hroom as [Hr1 Hr2]. unfold SSHBUF_SIZE_MAX in Hr1, Hr2. rewrite Hlen in Hr1, Hr2.
  assert (En : (if ssh_packet_type_is_kex t then ret false else ssh_packet_need_rekeying (u32 (Z.of_nat (6 + length body)))) s = (Ok false, s)).
  { destruct (ssh_packet_type_is_kex t); [done|]. apply (need_rekeying_calm s _ n vol); [done|done|..].
    - unfold u32. apply Z.mod_pos_bound. lia.
    - left. unfold u32. rewrite Z.mod_small by lia. lia. }
  rewrite (bind_ok _ _ _ _ _ En), bind_get. cbn [orb].
  replace (rekeying s && negb (ssh_packet_type_is_kex t)) with false by (destruct Hrk as [-> | ->]; by rewrite ?andb_false_r).
  rewrite (proj2 (Z.eqb_neq _ _) Hkx), bind_when_false.
  unfold after_send, strict_ps in Ew. rewrite (proj2 (Z.eqb_neq _ _) Hnk), (proj2 (Z.eqb_neq _ _) Hus) in Ew.
  cbn [andb] in Ew. rewrite (bind_check _ _ _ _ Ew).
  rewrite (proj2 (Z.eqb_neq _ _) Hnk). reflexivity.
Qed.

(** The octets of packets that follow each other. *)
Fixpoint stream (d : dir) (seq : Z) (pls : list (list Z)) : list Z :=
  match pls with
  | [] => []
  | pl :: pls => wire d seq pl ++ stream (d_next d (length pl - d_aad d)) (u32 (seq + 1)) pls
  end.

Definition d_after (d : dir) (pls : list (list Z)) : dir :=
  fold_left (fun d pl => d_next d (length pl - d_aad d)) pls d.

(** [pl] is the packet [p] with padding. *)
Definition frames (d : dir) (p : Z * list Z) (pl : list Z) : Prop :=
  exists pad, pl = plain (fst p :: snd p) pad /\ framed d pl /\ (4 <= length pad)%nat /\
    Z.of_nat (length pl) <= cost p - 400.

Lemma framed_next d n pl : framed (d_next d n) pl <-> framed d pl.
Proof. unfold framed. destruct (d_next_params d n) as (-> & _). done. Qed.

Lemma frames_next d n p pl : frames (d_next d n) p pl <-> frames d p pl.
Proof. unfold frames. by setoid_rewrite framed_next. Qed.

Lemma send_packet_spec s d p n vol :
  tx_ok s d -> sendable (rekeying s) p -> Z.of_nat (length (contents (output s))) + cost p <= SSHBUF_SIZE_MAX ->
  calm s (n + 1) (vol + cost p) -> 0 <= n -> 0 <= vol ->
  0 <= seqnr (p_send s) < 2 ^ 32 - 1 -> 0 <= packets (p_send s) < 2 ^ 32 - 1 ->
  exists pl s', send_packet p s = (Ok 0, s') /\ frames d p pl /\ tx_ok s' (d_next d (length pl - d_aad d)) /\
    contents (output s') = contents (output s) ++ wire d (seqnr (p_send s)) pl /\ calm s' n vol /\
    rekeying s' = rekeying s /\ p_send s' = counted (p_send s) (Z.of_nat (length pl)) (d_block d).
Proof.
  destruct p as [t body]. intros Htx (Hord & Hb & Hmax & Hrk) Hroom Hcalm Hn Hvol Hq Hpk. cbn [fst snd] in *.
  unfold cost in *. cbn [snd] in *. unfold SSHBUF_SIZE_MAX, PACKET_MAX_SIZE in *.
  destruct (start_put s t body) as (og & Eog & Hgog & Hcog); [apply Htx|apply Htx|done|destruct Hord; unfold is_byte; lia|unfold SSHBUF_SIZE_MAX; lia|].
  set (s1 := set_outgoing_packet s og).
  destruct (send2_spec s1 d [0; 0; 0; 0; 0] t body (n + 1) (vol + (Z.of_nat (length body) + 450)))
    as (pad & og' & o & c & nk & rnd & Hpad & Hpb & Es & Hgog' & Hgo & Hco & Hd' & Hnks); try done; try lia.
  { destruct Htx as (H1 & H2 & H3 & H4 & H5 & H6). exact (conj H1 (conj H2 (conj H3 (conj Hgog (conj H5 H6))))). }
  { split.
    - change (outgoing_packet s1) with og. rewrite Hcog. unfold SSHBUF_SIZE_MAX. cbn [length app]. lia.
    - change (outgoing_packet s1) with og. change (output s1) with (output s). rewrite Hcog. unfold SSHBUF_SIZE_MAX. cbn [length app]. lia. }
  set (pl := plain (t :: body) pad) in *. cbv zeta in Es.
  match type of Es with _ = (_, ?st) => set (s' := st) in * end.
  destruct Htx as (Hd & Ha & Hst & _ & _ & Hmux & Hep).
  destruct (dir_params _ _ _ _ Hd) as (_ & _ & _ & _ & _ & _ & _ & Hbs & _).
  assert (Hl : length pl = (6 + length body + length pad)%nat) by (unfold pl; rewrite length_plain; cbn; lia).
  exists pl, s'. split_and!; try done.
  - unfold send_packet. apply func_ok. rewrite Eog. cbn [fst snd]. fold s1. unfold sshpkt_send, send_with.
    unfold check. rewrite bind_assoc, bind_assoc, bind_get. change (mux s1) with (mux s). rewrite Hmux.
    by rewrite (bind_ok _ _ _ _ _ Es).
  - exists pad. split_and!; try done.
    + apply plain_framed; try done.
      * apply Forall_cons_2; [destruct Hord; unfold is_byte; lia|done].
      * cbn. lia.
      * fold pl. unfold PACKET_MAX_SIZE. lia.
    + apply Hpad.
    + unfold cost. cbn [snd]. lia.
  - pose proof Hcalm as [?|[?|(_ & (k0 & Hk0 & _) & _)]]; [by left|by right; left|].
    destruct (Hnks (ex_intro _ k0 Hk0)) as [k ->].
    apply (calm_counted_send s s' k n vol (Z.of_nat (length pl)) (d_block d)); try done; try lia.
    + destruct Hcalm as [?|[?|(H1 & H2 & H3 & H4 & H5 & H6)]]; [by left|by right; left|right; right].
      split_and!; try done; lia.
    + intros _. split; [done|]. destruct Hd' as (c' & [= <-] & _ & _ & Hin & _ & -> & _).
      destruct (cipher_cases _ Hin) as [(_ & -> & _)|[(_ & -> & _)|(_ & -> & _)]]; tauto.
Qed.

(** Packets sent one after the other. *)
Fixpoint send_all (ps : list (Z * list Z)) : M Z :=
  match ps with [] => ret 0 | p :: ps => check (send_packet p) ;* send_all ps end.

Definition costs (ps : list (Z * list Z)) : Z := foldr (fun p c => cost p + c) 0 ps.

Lemma costs_nonneg ps : 0 <= costs ps.
Proof. induction ps as [|p ps IH]; [done|]. change (costs (p :: ps)) with (cost p + costs ps). unfold cost. lia. Qed.

Definition n_packets (ps : list (Z * list Z)) : Z := Z.of_nat (length ps).

(** No counter wraps within [n] packets. *)
Definition counts (p : packet_state) (n : Z) : Prop :=
  0 <= seqnr p /\ seqnr p + n < 2 ^ 32 /\ 0 <= packets p /\ packets p + n < 2 ^ 32 /\ 0 <= blocks p.

Lemma counts_counted p n len bs : counts p (n + 1) -> 0 <= n -> seqnr (counted p len bs) = seqnr p + 1 /\ counts (counted p len bs) n.
Proof.
  intros (H1 & H2 & H3 & H4 & H5) Hn. unfold counts, counted. cbn [seqnr packets blocks]. unfold u32, u64.
  rewrite !Z.mod_small by lia. split_and!; try lia. apply Z.mod_pos_bound. lia.
Qed.

Lemma send_all_spec ps s d n vol :
  tx_ok s d -> Forall (sendable (rekeying s)) ps -> Z.of_nat (length (contents (output s))) + costs ps <= SSHBUF_SIZE_MAX ->
  calm s (n + n_packets ps) (vol + costs ps) -> 0 <= n -> 0 <= vol -> counts (p_send s) (n + n_packets ps) ->
  exists pls s', send_all ps s = (Ok 0, s') /\ Forall2 (frames d) ps pls /\
    contents (output s') = contents (output s) ++ stream d (seqnr (p_send s)) pls /\
    tx_ok s' (d_after d pls) /\ seqnr (p_send s') = seqnr (p_send s) + n_packets ps.
Proof.
  revert s d. induction ps as [|p ps IH]; intros s d Htx Hps Hroom Hcalm Hn Hvol Hcnt.
  - exists [], s. split_and!; try done; [|unfold n_packets; cbn; lia].
    cbn. by rewrite app_nil_r.
  - apply Forall_cons_1 in Hps as [Hp Hps]. pose proof (costs_nonneg ps) as Hc0.
    change (costs (p :: ps)) with (cost p + costs ps) in *.
    assert (En : n_packets (p :: ps) = n_packets ps + 1) by (unfold n_packets; cbn [length]; lia). rewrite En in *.
    assert (0 <= n_packets ps) by (unfold n_packets; lia).
    destruct (send_packet_spec s d p (n + n_packets ps) (vol + costs ps)) as (pl & s1 & E1 & Hf & Htx1 & Hc1 & Hcm1 & Hrk1 & Hp1); try done; try lia.
    { replace (n + n_packets ps + 1) with (n + (n_packets ps + 1)) by lia.
      by replace (vol + costs ps + cost p) with (vol + (cost p + costs ps)) by lia. }
    { destruct Hcnt; lia. } { destruct Hcnt; lia. }
    destruct (counts_counted (p_send s) (n + n_packets ps) (Z.of_nat (length pl)) (d_block d)) as [Hsq Hcnt1];
      [by replace (n + n_packets ps + 1) with (n + (n_packets ps + 1)) by lia|lia|].
    rewrite <- Hp1 in Hsq, Hcnt1.
    assert (Hlw : Z.of_nat (length (wire d (seqnr (p_send s)) pl)) <= cost p).
    { destruct Hf as (pad & Epl & _ & _ & Hlc). destruct (dir_params _ _ _ _ (proj1 Htx)) as (_ & _ & _ & _ & _ & _ & _ & _ & Hml).
      pose proof (d_aad_le d). assert (Hl5 : (5 <= length pl)%nat) by (rewrite Epl, length_plain; lia).
      rewrite (length_wire d) by (lia || eexists _, _, _; apply Htx). unfold SSH_DIGEST_MAX_LENGTH in *.
      assert ((taglen (d_state d) <= 16)%nat) by (destruct (d_state d); cbn; lia). lia. }
    destruct (IH s1 (d_next d (length pl - d_aad d))) as (pls & s' & E2 & Hfs & Hc2 & Hd' & Hsq2); try done.
    { by rewrite Hrk1. }
    { rewrite Hc1, length_app. lia. }
    exists (pl :: pls), s'. split_and!; try done.
    + cbn [send_all]. by rewrite (bind_check _ _ _ _ E1).
    + constructor; [done|]. eapply Forall2_impl; [|exact Hfs]. intros ? ? Hx. by apply frames_next in Hx.
    + rewrite Hc2, Hc1, <- app_assoc. cbn [stream]. rewrite Hsq. do 3 f_equal. unfold u32. rewrite Z.mod_small; [done|destruct Hcnt; lia].
    + lia.
Qed.

(** ** Receiving *)

(** The receiving end can take [n] packets of [vol] octets without a change of
    keys; what it writes itself goes out. *)
Definition rx_live (r : ssh) (n vol : Z) : Prop :=
  mux r = false /\ packet_discard r = 0 /\ hook_in r = None /\ waits r = [] /\
  counts (p_read r) n /\ calm r n vol.

Lemma rx_live_rest r r' n vol : rx_live r n vol -> same_rest r r' -> p_read r' = p_read r -> rx_live r' n vol.
Proof.
  intros (H1 & H2 & H3 & H4 & H5 & H6) Hs Hp. injection Hs as R1 R2 R3 R4 Ha Hco Hi _ Hmi Hmo Hk _ _ _ Hr _ _ _ _ _ _.
  unfold rx_live, calm. by rewrite R1, R2, R3, R4, Hp, Ha, Hco, Hi, Hmo, Hmi, Hr, Hk.
Qed.

Lemma rx_live_counted r r' n vol len bs :
  rx_live r (n + 1) (vol + len) -> same_rest r r' -> p_read r' = counted (p_read r) len bs ->
  0 <= len -> bs = 8 \/ bs = 16 -> 0 <= n -> rx_live r' n vol.
Proof.
  intros (H1 & H2 & H3 & H4 & H5 & H6) Hs Hp Hl Hbs Hn. pose proof H5 as (_ & _ & Hc3 & _ & Hc5).
  pose proof (calm_counted_read _ _ _ _ _ _ H6 Hs Hp Hl Hbs Hc3 Hc5) as Hc.
  injection Hs as R1 R2 R3 R4 _ _ _ _ _ _ _ _ _ _ _ _ _ _ _ _ _.
  unfold rx_live. rewrite R1, R2, R3, R4, Hp. split_and!; try done. by apply counts_counted.
Qed.

Lemma ordinary_delivered r t : ordinary t -> transport_message t r = (Ok Deliver, r).
Proof.
  intros (Ht & _ & _ & _ & Hpi & Hpo). unfold transport_message.
  unfold SSH2_MSG_IGNORE, SSH2_MSG_DEBUG, SSH2_MSG_UNIMPLEMENTED.
  by rewrite !(proj2 (Z.eqb_neq t _)) by (done || lia).
Qed.

(** The loop ends with the first packet that is for the caller. *)
Lemma poll_seqnr_turn r r' : poll_turn r = (Ok Deliver, r') -> ssh_packet_read_poll_seqnr r = (Ok 0, r').
Proof.
  intros E. unfold ssh_packet_read_poll_seqnr, poll_fuel. apply func_ok. cbn [Nat.add poll_loop].
  rewrite (bind_ok _ _ _ _ _ E). reflexivity.
Qed.

(** One call of [ssh_packet_read_poll_seqnr] with the octets [g]. *)
Lemma poll_spec r d p pl g more rest n vol :
  let seq := seqnr (p_read r) in
  frames d p pl -> ordinary (fst p) -> receiving r d pl g -> rx_live r (n + 1) (vol + cost p) -> 0 <= n -> 0 <= vol ->
  g ++ more = wire d seq pl ++ rest ->
  if (length g <? length (wire d seq pl))%nat
  then exists r', ssh_packet_read_poll_seqnr r = (Ok 0, r') /\ typep r' = SSH_MSG_NONE /\
    receiving r' d pl g /\ rx_live r' (n + 1) (vol + cost p) /\ seqnr (p_read r') = seq
  else exists r', ssh_packet_read_poll_seqnr r = (Ok 0, r') /\ typep r' = fst p /\
    contents (incoming_packet r') = snd p /\ rx_ok r' (d_next d (length pl - d_aad d)) /\ packlen r' = 0 /\
    contents (input r') = drop (length (wire d seq pl)) g /\ rx_live r' n vol /\ seqnr (p_read r') = u32 (seq + 1).
Proof.
  intros seq (pad & Epl & Hpl & Hpad & Hcost) Hord Hrecv Hlive Hn Hvol Hstream. destruct p as [t body]. cbn [fst snd] in *.
  pose proof Hlive as (Hmux & Hdis & Hhook & Hwt & Hcnt & Hcalm).
  pose proof Hcnt as (Hc1 & Hc2 & Hc3 & Hc4 & Hc5).
  pose proof Hord as (Ht & _ & Hnk & Hus & _).
  assert (Hl : live r) by (split_and!; try done; lia).
  destruct (read_poll2_facts r d t body pad g more rest) as (r1 & Hrest & H); rewrite <- ?Epl; try done.
  { unfold SSH2_MSG_MIN. lia. } { by left. }
  rewrite <- Epl in H. fold seq in H.
  destruct (length g <? length (wire d seq pl))%nat.
  - destruct H as (E & Hr' & Et & Ep). exists r1. rewrite Et, Ep. split_and!; try done.
    + apply poll_seqnr_turn. unfold poll_turn. rewrite (bind_check _ _ _ _ E), bind_get, Et. reflexivity.
    + by apply (rx_live_rest r).
  - destruct H as (E & Hrx & El & Et & _ & Hcc & Hci & Ep).
    unfold strict_ps in Ep. rewrite (proj2 (Z.eqb_neq _ _) Hnk) in Ep. cbn [andb] in Ep.
    assert (Hlive1 : rx_live r1 n vol).
    { apply (rx_live_counted r r1 n vol (Z.of_nat (length pl)) (d_block d)); try done; try lia.
      - split_and!; try done. apply (calm_weaken _ _ _ _ _ Hcalm); lia.
      - destruct Hrx as (Hd & _). apply dir_params in Hd. cbn [d_next d_block] in Hd. tauto. }
    rewrite (check_rekey_calm r1 n vol) in E by (done || apply Hlive1).
    exists (set_keep_alive_timeouts r1 0). split.
    + apply poll_seqnr_turn. unfold poll_turn. rewrite (bind_check _ _ _ _ E), bind_get, Et.
      rewrite (proj2 (Z.eqb_neq t 0)), bind_modify by lia. unfold SSH2_MSG_DISCONNECT.
      rewrite (proj2 (Z.eqb_neq t 1)), bind_when_false, bind_get by lia.
      destruct (strict_initial _); [reflexivity|]. by apply ordinary_delivered.
    + split_and!; try done. cbn. by rewrite Ep.
Qed.

(** Octets from the socket. *)
Lemma process_incoming_spec r d pl g data n vol :
  receiving r d pl g -> rx_live r n vol -> bytes_ok data ->
  Z.of_nat (length (g ++ data)) <= SSHBUF_SIZE_MAX ->
  exists r', ssh_packet_process_incoming data (Z.of_nat (length data)) r = (Ok 0, r') /\
    receiving r' d pl (g ++ data) /\ rx_live r' n vol /\ p_read r' = p_read r.
Proof.
  intros Hrecv Hlive Hb Hmax. pose proof Hlive as (_ & Hdis & _).
  assert (Hin : good (input r) /\ alloc r = [] /\ (length (contents (input r)) <= length g)%nat).
  { destruct Hrecv as [((_ & ? & _ & ? & _) & _ & <-)|(_ & (_ & ? & _ & ? & _) & _ & _ & -> & _)]; split_and!; try done.
    rewrite length_drop. lia. }
  destruct Hin as (Hgi & Ha & Hle). rewrite length_app in Hmax.
  destruct (b_put_ok Input r data (Z.of_nat (length data))) as (inp & E & Hg & Hc); try done; [lia|cbn [buf]; lia|].
  cbn [buf] in Hc. rewrite Nat2Z.id, take_ge in Hc by lia.
  exists (set_input r inp). split; [|split; [|done]].
  - unfold ssh_packet_process_incoming. apply func_ok. rewrite bind_get, Hdis. change (negb (0 =? 0)) with false. cbv iota.
    by rewrite (bind_check _ _ _ _ E).
  - destruct Hrecv as [((Hd & _ & Hst & _ & Hgc) & Hpk & Eg)|(Hv & (Hd & _ & Hst & _ & Hgc) & Hpk & Hf & Eg & Hcc)]; [left|right].
    + split; [by split_and!|]. split; [done|]. cbn. by rewrite Hc, Eg.
    + split; [done|]. split; [by split_and!|]. split; [done|]. rewrite length_app. split; [lia|]. split; [|done].
      cbn. rewrite Hc, Eg. by rewrite drop_app_le.
Qed.

(** Waiting for the packet [pl], whose octets come in the pieces [chunks]. *)
Lemma read_loop_spec chunks r d p pl g rest n vol :
  let seq := seqnr (p_read r) in
  frames d p pl -> ordinary (fst p) -> receiving r d pl g -> rx_live r (n + 1) (vol + cost p) -> 0 <= n -> 0 <= vol ->
  g ++ concat chunks = wire d seq pl ++ rest -> Forall (fun c => c <> [] /\ bytes_ok c) chunks ->
  Z.of_nat (length (g ++ concat chunks)) <= SSHBUF_SIZE_MAX ->
  exists r' chunks', read_loop (map Data chunks) r = (Ok (Some (0, map Data chunks')), r') /\ typep r' = fst p /\
    contents (incoming_packet r') = snd p /\ rx_ok r' (d_next d (length pl - d_aad d)) /\ packlen r' = 0 /\
    contents (input r') ++ concat chunks' = rest /\ Forall (fun c => c <> [] /\ bytes_ok c) chunks' /\
    rx_live r' n vol /\ seqnr (p_read r') = u32 (seq + 1).
Proof.
  revert r g. induction chunks as [|data chunks IH]; intros r g seq Hf Hord Hrecv Hlive Hn Hvol Hstream Hne Hmax.
  - pose proof (poll_spec r d p pl g [] rest n vol Hf Hord Hrecv Hlive Hn Hvol Hstream) as H.
    cbn [concat] in Hstream. rewrite app_nil_r in Hstream. rewrite Hstream, length_app in H.
    rewrite (proj2 (Nat.ltb_ge _ _)) in H by (fold seq; lia).
    destruct H as (r' & E & Et & Hc & Hrx & Hpk & Hci & Hl & Hsq). exists r', []. split_and!; try done.
    + cbn [map read_loop]. rewrite (bind_ok _ _ _ _ _ E), bind_get, Et.
      rewrite (proj2 (Z.eqb_neq (fst p) SSH_MSG_NONE)); [done|]. destruct Hord as (? & _). unfold SSH_MSG_NONE. lia.
    + rewrite Hci. cbn. by rewrite app_nil_r, drop_app_length.
  - pose proof (poll_spec r d p pl g (concat (data :: chunks)) rest n vol Hf Hord Hrecv Hlive Hn Hvol Hstream) as H.
    fold seq in H. cbn [map read_loop]. destruct (Nat.ltb_spec (length g) (length (wire d seq pl))) as [Hlt|Hge].
    + destruct H as (r1 & E & Et & Hrecv1 & Hlive1 & Hsq1). rewrite (bind_ok _ _ _ _ _ E), bind_get, Et.
      change (negb (0 =? 0) || negb (SSH_MSG_NONE =? SSH_MSG_NONE)) with false. cbv iota.
      apply Forall_cons_1 in Hne as [[Hd Hb] Hne].
      rewrite (proj2 (Nat.eqb_neq (length data) 0)) by (by destruct data).
      cbn [concat] in Hmax, Hstream. rewrite app_assoc in Hmax, Hstream.
      destruct (process_incoming_spec r1 d pl g data (n + 1) (vol + cost p) Hrecv1 Hlive1 Hb) as (r2 & E2 & Hrecv2 & Hlive2 & Hp2).
      { rewrite length_app in Hmax. lia. }
      rewrite (bind_ok _ _ _ _ _ E2). change (negb (0 =? 0)) with false. cbv iota.
      assert (Hsq : seqnr (p_read r2) = seq) by congruence.
      rewrite <- Hsq. apply (IH r2 (g ++ data)); try done. by rewrite Hsq.
    + destruct H as (r' & E & Et & Hc & Hrx & Hpk & Hci & Hl & Hsq). exists r', (data :: chunks).
      split_and!; try done.
      * rewrite (bind_ok _ _ _ _ _ E), bind_get, Et.
        rewrite (proj2 (Z.eqb_neq (fst p) SSH_MSG_NONE)); [done|]. destruct Hord as (? & _). unfold SSH_MSG_NONE. lia.
      * rewrite Hci, <- drop_app_le, Hstream by done. by rewrite drop_app_length.
Qed.

(** Reading [n] packets: their types and contents, and what has not been read
    from the socket. *)
Fixpoint read_all (n : nat) (evs : list event) : M (option (list (Z * list Z) * list event)) :=
  match n with
  | O => ret (Some ([], evs))
  | S n =>
      let* x := ssh_packet_read_seqnr evs in
      match x with
      | Some (0, evs) =>
          let* p := get (fun s => (typep s, contents (incoming_packet s))) in
          let* y := read_all n evs in
          ret (option_map (fun y => (p :: fst y, snd y)) y)
      | _ => ret None
      end
  end.

Lemma write_wait_rx r d n vol :
  rx_ok r d -> rx_live r n vol -> exists r', ssh_packet_write_wait r = (Ok 0, r') /\ rx_ok r' d /\ rx_live r' n vol /\
    p_read r' = p_read r /\ packlen r' = packlen r /\ input r' = input r.
Proof.
  intros Hrx Hl. pose proof Hl as (_ & _ & _ & Hw & _). unfold ssh_packet_write_wait. rewrite Hw. cbn [head from_option default Z.eqb drop].
  eexists. split; [reflexivity|]. unfold rx_live, calm, rx_ok, stack_ok in *. ssimp. rewrite Hw in Hl. tauto.
Qed.

(** Reading what was sent. *)
Lemma read_all_spec ps pls r d chunks n vol :
  rx_ok r d -> packlen r = 0 -> rx_live r (n + n_packets ps) (vol + costs ps) -> 0 <= n -> 0 <= vol ->
  Forall2 (frames d) ps pls -> Forall (fun p => ordinary (fst p)) ps ->
  contents (input r) ++ concat chunks = stream d (seqnr (p_read r)) pls ->
  Forall (fun c => c <> [] /\ bytes_ok c) chunks ->
  Z.of_nat (length (stream d (seqnr (p_read r)) pls)) <= SSHBUF_SIZE_MAX ->
  exists r', read_all (length ps) (map Data chunks) r = (Ok (Some (ps, [])), r') /\ rx_ok r' (d_after d pls) /\
    packlen r' = 0 /\ contents (input r') = [] /\ seqnr (p_read r') = seqnr (p_read r) + n_packets ps.
Proof.
  revert pls r d chunks. induction ps as [|p ps IH]; intros pls r d chunks Hrx Hpk Hlive Hn Hvol Hf Hord Hstream Hne Hmax.
  - apply Forall2_nil_inv_l in Hf as ->. cbn [stream] in Hstream. apply app_eq_nil in Hstream as [Hi Hc].
    assert (chunks = []) as ->.
    { destruct chunks as [|c cs]; [done|]. apply Forall_cons_1 in Hne as [[? _] _]. cbn in Hc. by apply app_eq_nil in Hc as [? _]. }
    exists r. split_and!; try done. unfold n_packets. cbn. lia.
  - apply Forall2_cons_inv_l in Hf as (pl & pls' & Hf1 & Hf2 & ->). apply Forall_cons_1 in Hord as [Ho1 Ho2].
    pose proof (costs_nonneg ps) as Hc0. change (costs (p :: ps)) with (cost p + costs ps) in *.
    assert (En : n_packets (p :: ps) = n_packets ps + 1) by (unfold n_packets; cbn [length]; lia). rewrite En in *.
    assert (0 <= n_packets ps) by (unfold n_packets; lia).
    cbn [stream] in Hstream, Hmax.
    destruct (write_wait_rx _ _ _ _ Hrx Hlive) as (r0 & Ew & Hrx0 & Hlive0 & Hp0 & Hpk0 & Hi0).
    destruct (read_loop_spec chunks r0 d p pl (contents (input r)) (stream (d_next d (length pl - d_aad d)) (u32 (seqnr (p_read r) + 1)) pls')
      (n + n_packets ps) (vol + costs ps)) as (r1 & chunks' & E1 & Et & Hcc & Hrx1 & Hpk1 & Hst1 & Hne1 & Hl1 & Hsq1); try done; try lia.
    { left. split; [done|]. split; [congruence|]. by rewrite Hi0. }
    { replace (n + n_packets ps + 1) with (n + (n_packets ps + 1)) by lia.
      by replace (vol + costs ps + cost p) with (vol + (cost p + costs ps)) by lia. }
    { by rewrite Hp0. }
    { by rewrite Hstream. }
    rewrite Hp0 in Hsq1.
    destruct (IH pls' r1 (d_next d (length pl - d_aad d)) chunks') as (r' & E2 & Hrx2 & Hpk2 & Hi2 & Hsq2); try done.
    { eapply Forall2_impl; [|exact Hf2]. intros ? ? Hx. by apply frames_next. }
    { by rewrite Hsq1. }
    { rewrite Hsq1. rewrite length_app in Hmax. lia. }
    exists r'. split_and!; try done.
    + cbn [length read_all]. unfold ssh_packet_read_seqnr. rewrite bind_assoc, (bind_ok _ _ _ _ _ Ew).
      change (negb (0 =? 0)) with false. cbv iota. rewrite (bind_ok _ _ _ _ _ E1), bind_get, (bind_ok _ _ _ _ _ E2), Et, Hcc.
      by destruct p.
    + rewrite Hsq2, Hsq1. destruct Hlive as (_ & _ & _ & _ & Hcnt & _). destruct Hcnt as (? & ? & _). unfold u32. rewrite Z.mod_small; lia.
Qed.

(** ** The two ends together *)

(** The sender [s] and the receiver [r] are at the same place of the direction
    [d], nothing is in flight, and [n] packets of [vol] octets can follow without
    a change of keys or a wrapped counter. *)
Definition in_sync (s r : ssh) (d : dir) (n vol : Z) : Prop :=
  tx_ok s d /\ rx_ok r d /\ contents (output s) = [] /\ contents (input r) = [] /\ packlen r = 0 /\
  seqnr (p_send s) = seqnr (p_read r) /\ counts (p_send s) n /\ calm s n vol /\ rx_live r n vol.


(** ** A new connection *)

(** Before keys are exchanged. *)
Definition d_none : dir := mk_dir SNone None 8.

Definition fresh (rnd stk : list Z) (server : bool) : option ssh :=
  match ssh_alloc_session_state [] rnd [] [] stk server 0 0 with
  | Some s => ssh_packet_set_connection s
  | None => None
  end.

(** A new connection can send and receive in the clear. *)
Lemma fresh_conn_ok rnd stk server :
  bytes_ok stk -> length stk = 64%nat ->
  exists s, fresh rnd stk server = Some s /\ tx_ok s d_none /\ rx_ok s d_none /\
    contents (output s) = [] /\ contents (input s) = [] /\ packlen s = 0 /\ p_send s = mk_ps 0 0 0 0 /\
    p_read s = mk_ps 0 0 0 0 /\ (forall n vol, calm s n vol) /\ (forall n vol, n < 2 ^ 32 -> 0 <= n -> rx_live s n vol).
Proof.
  intros Hb Hl. destruct (sshbuf_new []) as [[b|] w] eqn:Eb; [|done].
  assert (w = []) as -> by (by injection Eb).
  destruct (sshbuf_new_spec _ _ _ Eb) as (Hw & Hc & Hwr & Hm).
  assert (Hg : good b) by done. unfold fresh, ssh_alloc_session_state, kex_new. cbn [malloc negb]. rewrite !Eb.
  unfold ssh_packet_set_connection.
  destruct (cipher_by_name (chars "none")) as [none|] eqn:En; [|done].
  injection En as <-. eexists. split; [reflexivity|].
  assert (Hcalm : forall s n vol, after_authentication s = false -> calm s n vol) by (intros; by left).
  split; [split_and!; try done; by eexists|]. split; [split_and!; try done; by eexists|]. split_and!; try done.
  - intros n vol. by apply Hcalm.
  - intros n vol Hn Hn0. split_and!; try done; [cbn; lia..|by apply Hcalm].
Qed.

End thms.

(** Two new ends, with the digests of the example. *)
#[local] Existing Instances demo_md demo_md_laws demo_umac demo_umac_laws.

