(* ===== verification/PacketFrame.v ===== *)
(** What the packet layer leaves alone: a relation between the states before and
    after a computation that holds on every path, and proofs of it that follow
    the code.  Sending does not touch what belongs to receiving. *)

From stdpp Require Import base list numbers tactics.
From Stdlib Require Import ZArith Lia ZifyBool.
From S2P Require Import Prelude Sshbuf SshbufGetput Chachapoly AesCtr Cipher Digest Mac PacketState Packet.
From S2P Require Import PacketBuf PacketRead.

#[local] Open Scope ssh_scope.

Section steps.
Context {md : MD} {um : Umac}.
Context (R : ssh -> ssh -> Prop) `{!PreOrder R}.

(** Every run of [m], however it ends, goes from a state to a related one. *)
Definition steps {A} (m : M A) : Prop := forall s, R s (snd (m s)).

Lemma steps_ret {A} (a : A) : steps (ret a).
Proof. intros s. reflexivity. Qed.

Lemma steps_early {A} r : steps (early r : M A).
Proof. intros s. reflexivity. Qed.

Lemma steps_fatal {A} : steps (fatal : M A).
Proof. intros s. reflexivity. Qed.

Lemma steps_get {A} (f : ssh -> A) : steps (get f).
Proof. intros s. reflexivity. Qed.

Lemma steps_modify f : (forall s, R s (f s)) -> steps (modify f).
Proof. intros H s. apply H. Qed.

Lemma steps_bind {A B} (m : M A) (f : A -> M B) : steps m -> (forall a, steps (f a)) -> steps (bind m f).
Proof.
  intros Hm Hf s. unfold bind. pose proof (Hm s) as H. destruct (m s) as [[a|r|] s1]; cbn [snd] in *; [|done..].
  etransitivity; [exact H|apply Hf].
Qed.

Lemma steps_func m : steps m -> steps (func m).
Proof. intros Hm s. unfold func. pose proof (Hm s) as H. by destruct (m s) as [[a|r|] s1]. Qed.

Lemma steps_check m : steps m -> steps (check m).
Proof. intros Hm. apply steps_bind; [done|]. intros r. destruct (negb _); [apply steps_early|apply steps_ret]. Qed.

Lemma steps_when b m : steps m -> steps (when b m).
Proof. intros Hm. destruct b; [done|apply steps_ret]. Qed.

(** ** The operations on buffers *)

Lemma steps_b_alloc n f : (forall s b w, R s (set_alloc (set_buf n s b) w)) -> steps (b_alloc n f).
Proof. intros H s. unfold b_alloc. destruct (f _ _) as [[r b] w]. apply H. Qed.

Lemma steps_b_reset n : (forall s b w, R s (set_alloc (set_buf n s b) w)) -> steps (b_reset n).
Proof. intros H s. unfold b_reset. destruct (sshbuf_reset _ _) as [b w]. apply H. Qed.

Lemma steps_b_reserve n len : (forall s b w, R s (set_alloc (set_buf n s b) w)) -> steps (b_reserve n len).
Proof.
  intros H s. unfold b_reserve. destruct (sshbuf_reserve _ _ _) as [[[r b] dp] w].
  destruct (negb _); [apply H|]. destruct dp; apply H.
Qed.

Lemma steps_b_consume n len : (forall s b, R s (set_buf n s b)) -> steps (b_consume n len).
Proof. intros H s. unfold b_consume. destruct (sshbuf_consume _ _) as [r b]. apply H. Qed.

Lemma steps_b_consume_end n len : (forall s b, R s (set_buf n s b)) -> steps (b_consume_end n len).
Proof. intros H s. unfold b_consume_end. destruct (sshbuf_consume_end _ _) as [r b]. apply H. Qed.

Lemma steps_b_len n : steps (b_len n).
Proof. apply steps_get. Qed.

Lemma steps_b_ptr n : steps (b_ptr n).
Proof. intros s. unfold b_ptr. destruct (sshbuf_ptr _); reflexivity. Qed.

Lemma steps_crypt mode seq n dp src len aad auth :
  (forall s b c, R s (set_ctx mode (set_buf n s b) c)) -> steps (crypt mode seq n dp src len aad auth).
Proof.
  intros H s. unfold crypt. destruct (ctx_of mode s) as [cc|]; [|reflexivity].
  destruct (cipher_crypt _ _ _ _ _ _ _ _) as [[r c] dest]. destruct (negb _); apply H.
Qed.

Lemma steps_compute_mac mode seq data len :
  (forall s k, R s (set_newkeys mode s k)) -> steps (compute_mac mode seq data len).
Proof.
  intros H s. unfold compute_mac. destruct (newkeys_of mode s) as [k|]; [|reflexivity].
  destruct (mac_compute _ _ _ _ _ _ _ _) as [[r mac] d]. destruct (negb _); apply H.
Qed.

Lemma steps_check_mac data n their mlen :
  (forall s k, R s (set_newkeys MODE_IN s k)) -> steps (check_mac data n their mlen).
Proof.
  intros H s. unfold check_mac. destruct (newkeys_in s) as [k|]; [|reflexivity].
  destruct (mac_check _ _ _ _ _ _ _ _ _) as [r mac]. apply H.
Qed.

Lemma steps_in_get {A} (f : sshbuf -> Z * option A * sshbuf) :
  (forall s b, R s (set_incoming_packet s b)) -> steps (in_get f).
Proof. intros H s. unfold in_get. destruct (f _) as [[r v] b]. apply H. Qed.

Lemma steps_the_kex : steps the_kex.
Proof. intros s. unfold the_kex. destruct (kexp s); reflexivity. Qed.

End steps.

(** The relations used here: some members of the state stay the same. *)
Definition same_by {md : MD} {um : Umac} {T} (view : ssh -> T) (s s' : ssh) : Prop := view s' = view s.

#[export] Instance same_by_preorder {md : MD} {um : Umac} {T} (view : ssh -> T) : PreOrder (same_by view).
Proof. split; unfold same_by; [done|congruence]. Qed.

Create HintDb frame_db.

(** A state related to one that only a member sets apart. *)
Ltac frame_done := first [reflexivity|split; [intros ?; assumption|reflexivity]].

(** Follow the code of a computation; what it calls is in the database. *)
Ltac frame :=
  repeat
    (cbv beta zeta;
     match goal with
     | |- steps _ _ => solve [auto 3 with frame_db nocore]
     | |- steps _ (bind _ _) => apply steps_bind; [typeclasses eauto| |intros ?]
     | |- steps _ (func _) => apply steps_func
     | |- steps _ (check _) => apply steps_check; [typeclasses eauto|]
     | |- steps _ (when _ _) => apply steps_when; [typeclasses eauto|]
     | |- steps _ (ret _) => apply steps_ret; typeclasses eauto
     | |- steps _ (early _) => apply steps_early; typeclasses eauto
     | |- steps _ fatal => apply steps_fatal; typeclasses eauto
     | |- steps _ ssh_packet_disconnect => apply steps_fatal; typeclasses eauto
     | |- steps _ (get _) => apply steps_get; typeclasses eauto
     | |- steps _ (b_len _) => apply steps_b_len; typeclasses eauto
     | |- steps _ (b_ptr _) => apply steps_b_ptr; typeclasses eauto
     | |- steps _ the_kex => apply steps_the_kex; typeclasses eauto
     | |- steps _ (modify _) => apply steps_modify; intros ?; cbv beta zeta; frame_done
     | |- steps _ (b_alloc _ _) => apply steps_b_alloc; intros; frame_done
     | |- steps _ (b_put _ _ _) => apply steps_b_alloc; intros; frame_done
     | |- steps _ (b_write _ _ _) => apply steps_modify; intros ?; cbv beta zeta; frame_done
     | |- steps _ (b_reset _) => apply steps_b_reset; intros; frame_done
     | |- steps _ (b_reserve _ _) => apply steps_b_reserve; intros; frame_done
     | |- steps _ (b_consume _ _) => apply steps_b_consume; intros; frame_done
     | |- steps _ (b_consume_end _ _) => apply steps_b_consume_end; intros; frame_done
     | |- steps _ (crypt _ _ _ _ _ _ _ _) => apply steps_crypt; [typeclasses eauto|intros; frame_done]
     | |- steps _ (compute_mac _ _ _ _) => apply steps_compute_mac; [typeclasses eauto|intros; frame_done]
     | |- steps _ (check_mac _ _ _ _) => apply steps_check_mac; [typeclasses eauto|intros; frame_done]
     | |- steps _ (in_get _) => apply steps_in_get; intros; frame_done
     | |- steps _ (match ?x with _ => _ end) => destruct x
     | |- steps _ (fun s => _) => intros ?; cbv beta zeta; repeat case_match; frame_done
     end).

Section frames.
Context {md : MD} {um : Umac}.

(** ** Sending leaves receiving alone *)

Definition rx_view (s : ssh) :=
  (input s, incoming_packet s, (typep s, packlen s, seqnr_p s), p_read s, (receive_context s, newkeys_in s),
   packet_discard s, (mux s, hook_in s)).

Abbreviation keeps_rx := (steps (same_by rx_view)).

Lemma write_wait_keeps_rx : keeps_rx ssh_packet_write_wait.
Proof. intros s. unfold ssh_packet_write_wait. destruct (default _ _) as [r n]. destruct (r =? 0); reflexivity. Qed.

Lemma init_compression_keeps_rx : keeps_rx ssh_packet_init_compression.
Proof. unfold ssh_packet_init_compression. frame. Qed.

Lemma need_rekeying_keeps_rx len : keeps_rx (ssh_packet_need_rekeying len).
Proof. unfold ssh_packet_need_rekeying, monotime. frame. Qed.

Lemma set_newkeys_out_keeps_rx : keeps_rx (ssh_set_newkeys MODE_OUT).
Proof. unfold ssh_set_newkeys, set_mac, start_compression, start_compression_out. pose proof init_compression_keeps_rx. frame. Qed.

(** In this build the last step of starting compression is not reached. *)
Lemma start_compression_keeps_rx mode : keeps_rx (start_compression mode).
Proof. destruct mode; intros s; reflexivity. Qed.

#[local] Hint Resolve write_wait_keeps_rx init_compression_keeps_rx need_rekeying_keeps_rx set_newkeys_out_keeps_rx
  start_compression_keeps_rx : frame_db.

Lemma enable_delayed_keeps_rx : keeps_rx ssh_packet_enable_delayed_compress.
Proof. unfold ssh_packet_enable_delayed_compress, delayed_compress. frame. Qed.

Lemma count_packet_keeps_rx len bs : keeps_rx (count_packet MODE_OUT len bs).
Proof. unfold count_packet. frame. Qed.

Lemma strict_reset_keeps_rx t : keeps_rx (strict_reset MODE_OUT t).
Proof. unfold strict_reset. frame. Qed.

Lemma pad_packet_keeps_rx nk : keeps_rx (pad_packet nk).
Proof. unfold pad_packet, extra_padding, arc4random_buf. frame. Qed.

Lemma seal_packet_keeps_rx nk len : keeps_rx (seal_packet nk len).
Proof. unfold seal_packet. frame. Qed.

Lemma compress_payload_keeps_rx : keeps_rx compress_payload.
Proof. unfold compress_payload, compress_buffer. frame. Qed.

#[local] Hint Resolve enable_delayed_keeps_rx count_packet_keeps_rx strict_reset_keeps_rx pad_packet_keeps_rx
  seal_packet_keeps_rx compress_payload_keeps_rx : frame_db.

Lemma send2_wrapped_keeps_rx : keeps_rx ssh_packet_send2_wrapped.
Proof. unfold ssh_packet_send2_wrapped. frame. Qed.

#[local] Hint Resolve send2_wrapped_keeps_rx : frame_db.

Lemma flush_queue_keeps_rx rekex n : keeps_rx rekex -> keeps_rx (flush_queue rekex n).
Proof. intros Hr. induction n as [|n IH]; cbn [flush_queue]; frame. Qed.

Lemma send2_with_keeps_rx rekex : keeps_rx rekex -> keeps_rx (send2_with rekex).
Proof. intros Hr. pose proof (flush_queue_keeps_rx rekex). unfold send2_with, enqueue, monotime. frame. Qed.

Lemma send_mux_keeps_rx : keeps_rx ssh_packet_send_mux.
Proof. unfold ssh_packet_send_mux. frame. Qed.

Lemma start_keeps_rx t : keeps_rx (sshpkt_start t).
Proof. unfold sshpkt_start. frame. Qed.

#[local] Hint Resolve send2_with_keeps_rx send_mux_keeps_rx start_keeps_rx : frame_db.

Lemma kexinit_keeps_rx send2 : keeps_rx send2 -> keeps_rx (kex_send_kexinit send2).
Proof. intros Hs. unfold kex_send_kexinit, send_with, modify_kex, arc4random_buf. frame. Qed.

Lemma start_rekex_keeps_rx : keeps_rx kex_start_rekex.
Proof.
  assert (keeps_rx (send2_with fatal)) by (apply send2_with_keeps_rx, steps_fatal; typeclasses eauto).
  pose proof (kexinit_keeps_rx (send2_with fatal)). unfold kex_start_rekex, modify_kex. frame.
Qed.

#[local] Hint Resolve start_rekex_keeps_rx : frame_db.

(** No way of sending a packet touches what belongs to receiving. *)
Lemma send_keeps_rx : keeps_rx sshpkt_send.
Proof. unfold sshpkt_send, send_with, ssh_packet_send2. frame. Qed.

Lemma check_rekey_keeps_rx : keeps_rx ssh_packet_check_rekey.
Proof. unfold ssh_packet_check_rekey. frame. Qed.

#[local] Hint Resolve send_keeps_rx check_rekey_keeps_rx : frame_db.

Lemma disconnect_keeps_rx text : keeps_rx (sshpkt_disconnect text).
Proof. unfold sshpkt_disconnect, sshpkt_put_u32, sshpkt_put_cstring. frame. Qed.

#[local] Hint Resolve disconnect_keeps_rx : frame_db.

(** ** The type of the packet *)

Lemma steps_view {A T U} (v : ssh -> T) (u : ssh -> U) (f : T -> U) (m : M A) :
  (forall s, u s = f (v s)) -> steps (same_by v) m -> steps (same_by u) m.
Proof. intros Hf H s. unfold same_by. rewrite !Hf. f_equal. apply H. Qed.

Abbreviation keeps_type := (steps (same_by typep)).

Lemma keeps_rx_type {A} (m : M A) : keeps_rx m -> keeps_type m.
Proof. apply (steps_view _ _ (fun v => let '(_, _, (t, _, _), _, _, _, _) := v in t)). done. Qed.

#[local] Hint Extern 2 (keeps_type _) => apply keeps_rx_type; solve [auto 2 with frame_db nocore] : frame_db.

Lemma stop_discard_keeps_type : keeps_type ssh_packet_stop_discard.
Proof.
  assert (H : forall n dlen, keeps_type (fill_discard n dlen)) by (induction n as [|n IH]; intros dlen; cbn [fill_discard]; frame).
  unfold ssh_packet_stop_discard. frame.
Qed.

#[local] Hint Resolve stop_discard_keeps_type : frame_db.

Lemma start_discard_keeps_type nk a d : keeps_type (ssh_packet_start_discard nk a d).
Proof. unfold ssh_packet_start_discard. frame. Qed.

#[local] Hint Resolve start_discard_keeps_type : frame_db.

Lemma read_length_keeps_type nk : keeps_type (read_length nk).
Proof. unfold read_length, get_length. frame. Qed.

Lemma read_body_keeps_type nk need : keeps_type (read_body nk need).
Proof. unfold read_body. frame. Qed.

Lemma reject_keeps_type text code : keeps_type (reject text code).
Proof. unfold reject. frame. Qed.

Lemma count_in_keeps_type len bs : keeps_type (count_packet MODE_IN len bs).
Proof. unfold count_packet. frame. Qed.

End frames.
