(* ===== verification/PacketMem.v ===== *)
(** Memory that lasts: when no allocation fails, none fails later either, and the
    stack of the ciphers stays as it is, whatever the packet layer does. *)

From stdpp Require Import base list numbers tactics.
From Stdlib Require Import ZArith Lia ZifyBool.
From S2P Require Import Prelude Sshbuf SshbufGetput Chachapoly AesCtr Cipher Digest Mac PacketState Packet.
From S2P Require Import PacketBuf PacketRead PacketFrame.

#[local] Open Scope ssh_scope.

(** ** Operations with memory that lasts *)

Lemma reserve_nil b len : snd (sshbuf_reserve [] b len) = [].
Proof.
  unfold sshbuf_reserve. destruct (sshbuf_allocate [] b len) as [[r b'] w] eqn:E. apply allocate_nil in E as ->.
  by destruct (negb _).
Qed.

Lemma reset_nil b : snd (sshbuf_reset [] b) = [].
Proof.
  unfold sshbuf_reset. destruct (_ || _); [done|]. destruct (negb (sshbuf_check_sanity b =? 0)); [done|].
  destruct (negb (sb_alloc _ =? _)); [|done].
  destruct (recallocarray [] _ _ _ _) as [[d|] w] eqn:E; apply recallocarray_nil in E as ->; done.
Qed.

(** Operations on a buffer that allocate. *)
Definition nil_ok (f : world -> sshbuf -> Z * sshbuf * world) : Prop := forall b, snd (f [] b) = [].

Ltac by_reserve :=
  match goal with |- context [sshbuf_reserve [] ?b ?n] =>
    pose proof (reserve_nil b n) as H; destruct (sshbuf_reserve [] b n) as [[[? ?] ?] w]; cbn [snd] in H; subst w;
    repeat case_match; reflexivity end.

Lemma put_nil v len : nil_ok (fun w b => sshbuf_put w b v len).
Proof. intros b. unfold sshbuf_put. by_reserve. Qed.

Lemma putb_nil v : nil_ok (fun w b => sshbuf_putb w b v).
Proof. intros b. destruct v; [apply put_nil|done]. Qed.

Lemma put_u32_nil v : nil_ok (fun w b => sshbuf_put_u32 w b v).
Proof. intros b. unfold sshbuf_put_u32. by_reserve. Qed.

Lemma put_string_nil v len : nil_ok (fun w b => sshbuf_put_string w b v len).
Proof. intros b. unfold sshbuf_put_string. destruct (_ >? _); [done|]. by_reserve. Qed.

Lemma put_cstring_nil v : nil_ok (fun w b => sshbuf_put_cstring w b v).
Proof. intros b. apply put_string_nil. Qed.

Lemma get_string_nil b : snd (sshbuf_get_string [] b) = [].
Proof. unfold sshbuf_get_string. destruct (sshbuf_get_string_direct b) as [[[? ?] ?] ?]. by destruct (_ <? 0). Qed.

Lemma cipher_init_nil c key kl iv il e : snd (cipher_init [] c key kl iv il e) = [].
Proof.
  unfold cipher_init. cbn [malloc negb]. destruct (_ || _); [done|]. destruct (has_flag c CFLAG_CHACHAPOLY).
  - unfold chachapoly_new. by destruct (negb _).
  - destruct (has_flag c CFLAG_NONE); [done|]. by destruct (has_flag c CFLAG_AESCTR).
Qed.

Section mem.
Context {md : MD} {um : Umac}.

Lemma digest_memory_nil alg m n d k : snd (ssh_digest_memory [] alg m n d k) = [].
Proof.
  unfold ssh_digest_memory, ssh_digest_start. destruct (ssh_digest_by_alg alg); [|done]. cbn [malloc negb].
  destruct (ssh_digest_update _ _ _) as [r c]. destruct (negb _); [done|].
  destruct (ssh_digest_final _ _ _) as [[r' c'] d']. by destruct (negb _).
Qed.

Lemma mac_init_nil mac : snd (mac_init [] mac) = [].
Proof.
  unfold mac_init. destruct (m_key mac) as [key|]; [|done]. destruct (m_type mac =? SSH_DIGEST).
  - destruct (m_hmac mac) as [h|]; [|done]. unfold ssh_hmac_init, hmac_set_key.
    pose proof (digest_memory_nil (h_alg h) key (m_key_len mac) (hbuf h) (hbuf_len h)) as Hd.
    destruct (_ <=? hbuf_len h); [|destruct (ssh_digest_memory [] _ _ _ _ _) as [[r b] w]; cbn [snd] in Hd; subst w];
      repeat case_match; simplify_eq; done.
  - destruct (m_type mac =? SSH_UMAC); [done|]. by destruct (m_type mac =? SSH_UMAC128).
Qed.

(** ** Computations *)

Definition mem_kept (s s' : ssh) : Prop := (alloc s = [] -> alloc s' = []) /\ stack s' = stack s.

#[export] Instance mem_kept_preorder : PreOrder mem_kept.
Proof. split; [by split|]. intros s1 s2 s3 [H1 E1] [H2 E2]. split; [auto|congruence]. Qed.

Abbreviation keeps_mem := (steps mem_kept).

Lemma mem_b_alloc n f : nil_ok f -> keeps_mem (b_alloc n f).
Proof.
  intros H s. unfold b_alloc. destruct (f (alloc s) (buf n s)) as [[r b] w] eqn:E. split; cbn [snd].
  - intros Ha. cbn. pose proof (H (buf n s)) as Hn. rewrite Ha in E. by rewrite E in Hn.
  - by destruct n.
Qed.

Lemma mem_b_reset n : keeps_mem (b_reset n).
Proof.
  intros s. unfold b_reset. destruct (sshbuf_reset (alloc s) (buf n s)) as [b w] eqn:E. split; cbn [snd].
  - intros Ha. cbn. pose proof (reset_nil (buf n s)) as Hn. rewrite Ha in E. by rewrite E in Hn.
  - by destruct n.
Qed.

Lemma mem_b_reserve n len : keeps_mem (b_reserve n len).
Proof.
  intros s. unfold b_reserve. destruct (sshbuf_reserve (alloc s) (buf n s) len) as [[[r b] dp] w] eqn:E.
  assert (H : mem_kept s (set_alloc (set_buf n s b) w)).
  { split; [|by destruct n]. intros Ha. cbn. pose proof (reserve_nil (buf n s) len) as Hn. rewrite Ha in E. by rewrite E in Hn. }
  destruct (negb _); [done|]. by destruct dp.
Qed.

Lemma mem_get_string : keeps_mem sshpkt_get_string.
Proof.
  intros s. unfold sshpkt_get_string. destruct (sshbuf_get_string (alloc s) (incoming_packet s)) as [[[[r p] l] b] w] eqn:E.
  split; [|done]. intros Ha. cbn. pose proof (get_string_nil (incoming_packet s)) as Hn. rewrite Ha in E. by rewrite E in Hn.
Qed.

Lemma mem_modify_buf n f : keeps_mem (modify (fun s => set_buf n s (f s))).
Proof. intros s. by destruct n. Qed.

Lemma mem_b_write n dp v : keeps_mem (b_write n dp v).
Proof. apply mem_modify_buf. Qed.

Lemma mem_b_consume n len : keeps_mem (b_consume n len).
Proof. apply steps_b_consume. intros s b. by destruct n. Qed.

Lemma mem_crypt mode seq n dp src len aad auth : keeps_mem (crypt mode seq n dp src len aad auth).
Proof. apply steps_crypt; [apply _|]. intros s b c. by destruct n, mode. Qed.

#[local] Hint Resolve put_nil putb_nil put_u32_nil put_string_nil put_cstring_nil mem_b_alloc mem_b_reset mem_b_reserve mem_get_string
  mem_b_write mem_b_consume mem_crypt : frame_db.

Lemma mem_b_put n v len : keeps_mem (b_put n v len).
Proof. apply mem_b_alloc, put_nil. Qed.

#[local] Hint Resolve mem_b_put : frame_db.

(** A step that allocates and keeps the rest. *)
Lemma mem_alloc {A B} (f : world -> B * world) (g : B -> ssh -> outcome A * ssh) :
  snd (f []) = [] -> (forall b s, mem_kept s (snd (g b s))) ->
  keeps_mem (fun s => let '(b, w) := f (alloc s) in g b (set_alloc s w)).
Proof.
  intros Hf Hg s. destruct (f (alloc s)) as [b w] eqn:E. etransitivity; [|apply Hg].
  split; [|done]. intros Ha. rewrite Ha in E. by rewrite E in Hf.
Qed.

Lemma write_wait_keeps_mem : keeps_mem ssh_packet_write_wait.
Proof. intros s. unfold ssh_packet_write_wait. destruct (default _ _) as [r n]. by destruct (r =? 0). Qed.

Lemma init_compression_keeps_mem : keeps_mem ssh_packet_init_compression.
Proof.
  intros s. unfold ssh_packet_init_compression. destruct (compression_buffer s); [done|]. unfold sshbuf_new.
  split; [|by repeat case_match]. intros ->. done.
Qed.

Lemma need_rekeying_keeps_mem len : keeps_mem (ssh_packet_need_rekeying len).
Proof. unfold ssh_packet_need_rekeying, monotime. frame. Qed.

Lemma start_compression_keeps_mem mode : keeps_mem (start_compression mode).
Proof. by destruct mode. Qed.

Lemma set_mac_keeps_mem mode mac : keeps_mem (set_mac mode mac).
Proof. intros s. by destruct mode. Qed.

#[local] Hint Resolve write_wait_keeps_mem init_compression_keeps_mem need_rekeying_keeps_mem start_compression_keeps_mem
  set_mac_keeps_mem : frame_db.

(** The keys of a direction come into use. *)
Lemma mem_mac_init mode nk : keeps_mem
  (fun s => let '(r, mac, w) := mac_init (alloc s) (nmac nk) in
            bind (set_mac mode mac) (fun _ => if negb (r =? 0) then early r else ret tt) (set_alloc s w)).
Proof.
  intros s. pose proof (mac_init_nil (nmac nk)) as Hn. destruct (mac_init (alloc s) (nmac nk)) as [[r mac] w] eqn:E.
  etransitivity; [|apply (steps_bind mem_kept _ _ (set_mac_keeps_mem mode mac)); intros ?; destruct (negb _); frame].
  split; [|done]. intros Ha. rewrite Ha in E. by rewrite E in Hn.
Qed.

Lemma mem_cipher_init mode nk e : keeps_mem
  (fun s => let '(r, cc, w) := cipher_init (alloc s) (e_cipher (enc nk)) (e_key (enc nk)) (e_key_len (enc nk))
               (Some (e_iv (enc nk))) (e_iv_len (enc nk)) e in
            let s := set_alloc (set_ctx mode s cc) w in
            if negb (r =? 0) then (Early r, s) else (Ok tt, s)).
Proof.
  intros s. pose proof (cipher_init_nil (e_cipher (enc nk)) (e_key (enc nk)) (e_key_len (enc nk)) (Some (e_iv (enc nk))) (e_iv_len (enc nk)) e) as Hn.
  destruct (cipher_init (alloc s) _ _ _ _ _ _) as [[r cc] w] eqn:E.
  assert (H : mem_kept s (set_alloc (set_ctx mode s cc) w)).
  { split; [|by destruct mode]. intros Ha. rewrite Ha in E. by rewrite E in Hn. }
  cbv zeta. by destruct (negb _).
Qed.

#[local] Hint Resolve mem_mac_init mem_cipher_init : frame_db.

Lemma set_newkeys_keeps_mem mode : keeps_mem (ssh_set_newkeys mode).
Proof. unfold ssh_set_newkeys. destruct mode; frame. Qed.

#[local] Hint Resolve set_newkeys_keeps_mem : frame_db.

Lemma enable_delayed_keeps_mem : keeps_mem ssh_packet_enable_delayed_compress.
Proof. unfold ssh_packet_enable_delayed_compress, delayed_compress. frame. Qed.

Lemma count_packet_keeps_mem mode len bs : keeps_mem (count_packet mode len bs).
Proof. unfold count_packet. destruct mode; frame. Qed.

Lemma strict_reset_keeps_mem mode t : keeps_mem (strict_reset mode t).
Proof. unfold strict_reset. destruct mode; frame. Qed.

Lemma pad_packet_keeps_mem nk : keeps_mem (pad_packet nk).
Proof. unfold pad_packet, extra_padding, arc4random_buf. frame. Qed.

Lemma seal_packet_keeps_mem nk len : keeps_mem (seal_packet nk len).
Proof. unfold seal_packet. frame. Qed.

(** Emptying the buffer of compression. *)
Lemma mem_reset_compression : keeps_mem
  (fun s => match compression_buffer s with
            | None => (Fatal, s)
            | Some b => let '(b, w) := sshbuf_reset (alloc s) b in (Ok tt, set_alloc (set_compression_buffer s (Some b)) w)
            end).
Proof.
  intros s. destruct (compression_buffer s) as [b|]; [|done].
  pose proof (reset_nil b) as Hn. destruct (sshbuf_reset (alloc s) b) as [b' w] eqn:E. split; [|done].
  intros Ha. rewrite Ha in E. by rewrite E in Hn.
Qed.

#[local] Hint Resolve mem_reset_compression : frame_db.

Lemma compress_payload_keeps_mem : keeps_mem compress_payload.
Proof. unfold compress_payload, compress_buffer. frame. Qed.

#[local] Hint Resolve enable_delayed_keeps_mem count_packet_keeps_mem strict_reset_keeps_mem pad_packet_keeps_mem
  seal_packet_keeps_mem compress_payload_keeps_mem : frame_db.

Lemma send2_wrapped_keeps_mem : keeps_mem ssh_packet_send2_wrapped.
Proof. unfold ssh_packet_send2_wrapped. frame. Qed.

#[local] Hint Resolve send2_wrapped_keeps_mem : frame_db.

Lemma flush_queue_keeps_mem rekex n : keeps_mem rekex -> keeps_mem (flush_queue rekex n).
Proof. intros Hr. induction n as [|n IH]; cbn [flush_queue]; frame. Qed.

Lemma enqueue_keeps_mem t : keeps_mem (enqueue t).
Proof.
  unfold enqueue. apply steps_bind; [apply _| |intros _; apply steps_bind; [apply _|frame|intros _]].
  - intros s. destruct (alloc s) as [|b w] eqn:Ha; cbn [malloc]; [by split|]. destruct b; (split; [|done]); intros H; congruence.
  - intros s. unfold sshbuf_new. split; [|by repeat case_match]. intros ->. done.
Qed.

#[local] Hint Resolve enqueue_keeps_mem : frame_db.

Lemma send2_with_keeps_mem rekex : keeps_mem rekex -> keeps_mem (send2_with rekex).
Proof. intros Hr. pose proof (flush_queue_keeps_mem rekex). unfold send2_with, monotime. frame. Qed.

Lemma send_mux_keeps_mem : keeps_mem ssh_packet_send_mux.
Proof. unfold ssh_packet_send_mux. frame. Qed.

Lemma start_keeps_mem t : keeps_mem (sshpkt_start t).
Proof. unfold sshpkt_start. frame. Qed.

#[local] Hint Resolve send2_with_keeps_mem send_mux_keeps_mem start_keeps_mem : frame_db.

Lemma kexinit_keeps_mem send2 : keeps_mem send2 -> keeps_mem (kex_send_kexinit send2).
Proof. intros Hs. unfold kex_send_kexinit, send_with, modify_kex, arc4random_buf. frame. Qed.

Lemma start_rekex_keeps_mem : keeps_mem kex_start_rekex.
Proof.
  assert (keeps_mem (send2_with fatal)) by (apply send2_with_keeps_mem, steps_fatal; typeclasses eauto).
  pose proof (kexinit_keeps_mem (send2_with fatal)). unfold kex_start_rekex, modify_kex. frame.
Qed.

#[local] Hint Resolve start_rekex_keeps_mem : frame_db.

Lemma send_keeps_mem : keeps_mem sshpkt_send.
Proof. unfold sshpkt_send, send_with, ssh_packet_send2. frame. Qed.

Lemma check_rekey_keeps_mem : keeps_mem ssh_packet_check_rekey.
Proof. unfold ssh_packet_check_rekey. frame. Qed.

#[local] Hint Resolve send_keeps_mem check_rekey_keeps_mem : frame_db.

(** Nothing that a turn of the polling loop does with a message. *)
Lemma transport_message_keeps_mem t : keeps_mem (transport_message t).
Proof.
  unfold transport_message, got_int, got_string, sshpkt_get_u8, sshpkt_get_u32, sshpkt_get_string_direct, sshpkt_put_string. frame.
Qed.

End mem.
