(* ===== verification/PacketAuth.v ===== *)
(** What the packet layer accepts: whatever octets arrive, a packet is delivered
    only if they are the wire form, for the receiver's keys and sequence number,
    of the packet that is delivered. *)

From stdpp Require Import base list numbers tactics.
From Stdlib Require Import ZArith Lia ZifyBool.
From S2P Require Import Prelude Sshbuf SshbufGetput Chacha Chachapoly AesCtr Cipher Digest Mac.
From S2P Require Import PacketState Packet PacketBuf PacketSend PacketRecv PacketRead PacketFrame.

#[local] Open Scope ssh_scope.

(** ** Ciphers *)

(** What a cipher decrypts without an error is the ciphertext of something. *)
Lemma cipher_open_inv cc st tmp seqnr dest src la lm authlen cc' dest' :
  has_state cc st -> encrypt cc = false -> bytes_ok tmp -> length tmp = 64%nat -> bytes_ok src ->
  (la + lm + taglen st <= length src)%nat -> (la + lm <= length dest)%nat -> Z.of_nat (la + lm) < 2 ^ 32 ->
  cipher_crypt tmp cc seqnr dest src (Z.of_nat lm) (Z.of_nat la) authlen = (0, cc', dest') ->
  exists aad msg, length aad = la /\ length msg = lm /\ bytes_ok aad /\ bytes_ok msg /\
    src = sealed st seqnr aad msg ++ drop (la + lm + taglen st) src.
Proof.
  intros Hst He Ht Htl Hs Hls Hld Hn E.
  assert (Hl1 : length (take la src) = la) by (rewrite length_take; lia).
  assert (Hl2 : length (take lm (drop la src)) = lm) by (rewrite length_take, length_drop; lia).
  assert (Hsplit : take la src ++ take lm (drop la src) = take (la + lm) src).
  { rewrite <- (take_drop la (take (la + lm) src)), take_take, skipn_firstn_comm. do 2 f_equal; lia. }
  destruct st as [|key c|x].
  - exists (take la src), (take lm (drop la src)). split_and!; try done; [by apply Forall_take|by apply Forall_take, Forall_drop|].
    cbn [sealed taglen]. by rewrite Hsplit, Nat.add_0_r, take_drop.
  - destruct Hst as (_ & Hk & _).
    exists (take la src), (xor_bytes (ctr_stream key c (ablocks lm)) (take lm (drop la src))).
    assert (Hlx : length (xor_bytes (ctr_stream key c (ablocks lm)) (take lm (drop la src))) = lm).
    { rewrite length_xor_bytes; [done|]. rewrite length_ctr_stream, Hl2. apply ablocks_covers. }
    split_and!; try done; [by apply Forall_take| |].
    + apply bytes_ok_xor; [by apply bytes_ok_ctr_stream with (ac_ctx cc)|by apply Forall_take, Forall_drop].
    + cbn [sealed taglen]. rewrite Hlx, xor_bytes_involutive by (rewrite length_ctr_stream, Hl2; apply ablocks_covers).
      by rewrite Hsplit, Nat.add_0_r, take_drop.
  - destruct Hst as (Hf & Hx & y & Ey & Hy & Hk). unfold cipher_crypt in E.
    rewrite (has_flag_of _ _ _ Hf) in E. cbn [taglen] in *.
    change (negb (Z.land CFLAG_CHACHAPOLY CFLAG_CHACHAPOLY =? 0)) with true in E. cbv iota in E. rewrite Ey, He in E.
    destruct (chachapoly_crypt_spec y seqnr tmp dest src la lm authlen false) as (y' & _ & _ & Ec); try done; [lia|].
    cbv zeta in Ec. rewrite Ec in E.
    set (m := cover y seqnr (take la src) (take lm (drop la src))) in *.
    destruct (decide (take 16 (drop (la + lm) src) = tag_of y seqnr (take (la + lm) src))) as [Et|]; [|done].
    assert (Hlm : length m = (la + lm)%nat) by (unfold m; rewrite length_cover by done; lia).
    assert (Hbm : bytes_ok m) by (apply bytes_ok_cover; [by apply Forall_take|by apply Forall_take, Forall_drop]).
    exists (take la m), (drop la m).
    split_and!; [rewrite length_take; lia|rewrite length_drop; lia|by apply Forall_take|by apply Forall_drop|].
    cbn [sealed]. unfold seal. destruct (cover_key y x seqnr (take la m) (drop la m)) as [E1 E2]; try done.
    rewrite <- E1, <- E2. replace (cover y seqnr (take la m) (drop la m)) with (take (la + lm) src).
    + unfold tag_of in Et. rewrite <- Et, <- app_assoc.
      replace (drop (la + lm + 16) src) with (drop 16 (drop (la + lm) src)) by (rewrite drop_drop; f_equal; lia).
      by rewrite !take_drop.
    + rewrite <- Hsplit, <- (cover_cover y seqnr Hy (take la src) (take lm (drop la src))), Hl1. done.
Qed.

(** Every four octets are the start of the ciphertext of some header. *)
Lemma sealed_head cc st seqnr h :
  has_state cc st -> bytes_ok h -> length h = 4%nat ->
  exists aad, length aad = 4%nat /\ bytes_ok aad /\ take 4 (sealed st seqnr aad []) = h.
Proof.
  intros Hst Hb Hl. destruct st as [|key c|x].
  - exists h. split_and!; try done. cbn [sealed]. by rewrite app_nil_r, take_ge by lia.
  - exists h. split_and!; try done. cbn [sealed length]. rewrite take_app_le by lia. by rewrite take_ge by lia.
  - destruct Hst as (_ & Hx & _). set (m := cover x seqnr h []).
    assert (Hlm : length m = 4%nat) by (unfold m; rewrite length_cover by done; cbn; lia).
    exists m. split; [done|]. split; [by apply bytes_ok_cover; [|constructor]|].
    cbn [sealed]. unfold seal. pose proof (cover_cover x seqnr Hx h []) as E. fold m in E. rewrite Hl, app_nil_r in E.
    rewrite take_ge, drop_ge in E by lia. rewrite E. rewrite take_app_le by lia. by rewrite take_ge by lia.
Qed.

(** Without a tag, every string is the ciphertext of something. *)
Lemma sealed_any cc st seqnr h :
  has_state cc st -> taglen st = 0%nat -> bytes_ok h ->
  exists m, length m = length h /\ bytes_ok m /\ sealed st seqnr [] m = h.
Proof.
  intros Hst Ht Hb. destruct st as [|key c|x]; [by exists h| |done]. destruct Hst as (_ & Hk & _).
  exists (xor_bytes (ctr_stream key c (ablocks (length h))) h).
  assert (Hc : (length h <= length (ctr_stream key c (ablocks (length h))))%nat) by (rewrite length_ctr_stream; apply ablocks_covers).
  assert (Hl : length (xor_bytes (ctr_stream key c (ablocks (length h))) h) = length h) by (by apply length_xor_bytes).
  split_and!; [done| |].
  - apply bytes_ok_xor; [by apply bytes_ok_ctr_stream with (ac_ctx cc)|done].
  - cbn [sealed app]. rewrite Hl. by apply xor_bytes_involutive.
Qed.

(** The length that is read from four octets. *)
Lemma get_length_any cc st tmp seqnr cp len :
  has_state cc st -> bytes_ok tmp -> length tmp = 64%nat -> bytes_ok cp -> (4 <= length cp)%nat -> 4 <= len ->
  exists n cc', cipher_get_length tmp cc seqnr cp len = (0, Some n, cc') /\ has_state cc' st /\ same_cipher cc cc' /\
    forall aad msg, length aad = 4%nat -> bytes_ok aad -> bytes_ok msg ->
      take 4 (sealed st seqnr aad msg) = take 4 cp -> PEEK_U32 aad = n.
Proof.
  intros Hs Ht Htl Hb Hl Hlen.
  assert (G : forall aad msg, length aad = 4%nat -> bytes_ok aad -> bytes_ok msg ->
    take 4 (sealed st seqnr aad msg) = take 4 cp ->
    exists cc', cipher_get_length tmp cc seqnr cp len = (0, Some (PEEK_U32 aad), cc') /\ has_state cc' st /\ same_cipher cc cc').
  { intros aad msg Hla Hba Hbm E. rewrite (get_length_take tmp cc seqnr cp (sealed st seqnr aad msg ++ [])).
    - by apply cipher_get_length_sealed.
    - by rewrite app_nil_r. }
  destruct (sealed_head cc st seqnr (take 4 cp) Hs) as (aad & Hla & Hba & E); [by apply Forall_take|rewrite length_take; lia|].
  destruct (G aad [] Hla Hba ltac:(constructor) E) as (cc' & Eg & H1 & H2). exists (PEEK_U32 aad), cc'. split_and!; try done.
  intros aad' msg' Hl' Hb' Hm' E'. destruct (G aad' msg' Hl' Hb' Hm' E') as (cc2 & Eg2 & _). congruence.
Qed.

Section auth.
Context {md : MD} {um : Umac} {mdl : MDLaws} {uml : UmacLaws}.

(** ** Runs that succeed *)

Lemma bind_Ok {A B} (m : M A) (f : A -> M B) s b s' :
  bind m f s = (Ok b, s') -> exists a s1, m s = (Ok a, s1) /\ f a s1 = (Ok b, s').
Proof. unfold bind. destruct (m s) as [[a|r|] s1]; [|done..]. intros E. by exists a, s1. Qed.

Lemma bind_check_Ok {B} (m : M Z) (f : unit -> M B) s b s' :
  bind (check m) f s = (Ok b, s') -> exists s1, m s = (Ok 0, s1) /\ f tt s1 = (Ok b, s').
Proof.
  intros E. apply bind_Ok in E as (a & s1 & E1 & E2). unfold check in E1.
  apply bind_Ok in E1 as (r & s2 & E1 & E3). destruct (Z.eqb_spec r 0) as [->|]; [|done]. cbn in E3.
  injection E3 as <- <-. by exists s2.
Qed.

Lemma bind_when_Ok {B} c (m : M unit) (f : unit -> M B) s b s' :
  (forall t t', m t <> (Ok tt, t')) -> bind (when c m) f s = (Ok b, s') -> c = false /\ f tt s = (Ok b, s').
Proof. destruct c; [|done]. intros Hm E. apply bind_Ok in E as ([] & s1 & E & _). by destruct (Hm s s1). Qed.

Lemma early_not_Ok r (t t' : ssh) : early r t <> (Ok tt, t').
Proof. done. Qed.

Lemma then_early_not_Ok {A} (m : M A) (f : A -> Z) t t' : bind m (fun a => early (f a)) t <> (Ok tt, t').
Proof. intros E. by apply bind_Ok in E as (a & s1 & _ & ?). Qed.

Lemma crypt_Ok mode seq n dp src len aad auth s u s' :
  crypt mode seq n dp src len aad auth s = (Ok u, s') ->
  exists c c' dest, ctx_of mode s = Some c /\
    cipher_crypt (stack s) c seq (drop (Z.to_nat dp) (block (buf n s))) src len aad auth = (0, c', dest).
Proof.
  unfold crypt. destruct (ctx_of mode s) as [c|]; [|done].
  destruct (cipher_crypt _ _ _ _ _ _ _ _) as [[r c'] dest] eqn:E. destruct (Z.eqb_spec r 0) as [->|]; [|done].
  intros _. by exists c, c', dest.
Qed.

(** A tag that is accepted is the tag of the data. *)
Lemma check_mac_Ok s k sec data n their s' :
  newkeys_in s = Some k -> mac_keyed (nmac k) sec -> mac_len (nmac k) <= Z.of_nat (length their) ->
  check_mac data n their (mac_len (nmac k)) s = (Ok 0, s') ->
  take (Z.to_nat (mac_len (nmac k))) their =
    mac_tag (mac_len (nmac k)) sec (seqnr (p_read s)) (take (Z.to_nat n) data) /\
  exists mac', s' = set_newkeys_in s (Some (mk_newkeys (enc k) mac' (comp k))) /\ mac_keyed mac' sec /\ same_mac (nmac k) mac'.
Proof.
  intros Hk Hm Hl. unfold check_mac. rewrite Hk.
  destruct (mac_check_spec (alloc s) (nmac k) sec (seqnr (p_read s)) data n their (stack s) (stack s) Hm Hl)
    as (mac' & -> & Hm' & Hs). destruct (decide _) as [E|]; [|done]. intros [= <-]. split; [done|]. by exists mac'.
Qed.

(** Octets that are decrypted without an error are the rest of a packet. *)
Lemma decrypt_inv A (k : M A) r d seq m1 n nk b r2 :
  rx_ok r (d_next d (d_first d)) -> seqnr (p_read r) = seq ->
  aadlen_of nk = Z.of_nat (d_aad d) -> authlen_of nk = Z.of_nat (taglen (d_state d)) ->
  length m1 = d_first d -> contents (incoming_packet r) = m1 ->
  (d_aad d + n + taglen (d_state d) <= length (contents (input r)))%nat -> Z.of_nat n <= 300000 ->
  (let* cp := b_reserve Incoming (u32 (aadlen_of nk + Z.of_nat n)) in
   let* p := b_ptr Input in
   let* seq := get (fun s => seqnr (p_read s)) in
   crypt MODE_IN seq Incoming cp p (Z.of_nat n) (aadlen_of nk) (authlen_of nk) ;* k) r = (Ok b, r2) ->
  exists am, length am = (d_aad d + n)%nat /\ bytes_ok am /\
    contents (input r) = d_rest d seq (m1 ++ am) ++ drop (d_aad d + n + taglen (d_state d)) (contents (input r)).
Proof.
  intros (Hd & Ha & Hst & Hgi & Hgc) Hseq Haad Hau Hl1 Hc1 Hlen Hn E. rewrite Haad, Hau in E.
  pose proof (d_aad_le d) as Ha4. unfold u32 in E. rewrite Z.mod_small in E by lia.
  destruct (b_reserve_ok Incoming r (Z.of_nat (d_aad d) + Z.of_nat n)) as (inc1 & dp & Er & Hfit & Hdp & Hw); [done|done|lia| |].
  { cbn [buf]. rewrite Hc1, Hl1. unfold SSHBUF_SIZE_MAX.
    destruct (dir_params _ _ _ _ Hd) as (_ & _ & _ & _ & _ & _ & _ & Hbs & _). cbn [d_next d_block] in Hbs.
    unfold d_first. destruct (d_aad d =? 0)%nat; lia. }
  rewrite (bind_ok _ _ _ _ _ Er) in E. set (r1 := set_buf Incoming r inc1) in *.
  destruct (b_ptr_ok Input r1 Hgi) as (slack & Ep & Hsl). change (buf Input r1) with (input r) in Ep.
  rewrite (bind_ok _ _ _ _ _ Ep), bind_get in E. change (p_read r1) with (p_read r) in E. rewrite Hseq in E.
  apply bind_Ok in E as ([] & r3 & E & _). apply crypt_Ok in E as (c & c' & dest & Hc & E).
  change (ctx_of MODE_IN r1) with (receive_context r) in Hc. change (stack r1) with (stack r) in E.
  destruct Hd as (c0 & Hc0 & Hen & Hs & _). rewrite Hc0 in Hc. injection Hc as <-. cbn [d_next d_state] in Hs.
  assert (Htn : taglen (next_state (d_state d) (d_first d)) = taglen (d_state d)) by apply taglen_next.
  apply (cipher_open_inv _ (next_state (d_state d) (d_first d))) in E as (aad & msg & Hla & Hlm & Hba & Hbm & Es); try done; try lia.
  - exists (aad ++ msg). split; [rewrite length_app; lia|]. split; [by apply bytes_ok_app|].
    unfold d_rest. rewrite drop_app_length' by done. rewrite take_app_length', drop_app_length' by done.
    rewrite Htn, drop_app_le, app_assoc in Es by lia. by apply app_inv_tail in Es.
  - apply Hst.
  - apply Hst.
  - apply bytes_ok_app. split; [apply bytes_ok_contents, Hgi|done].
  - rewrite Htn, length_app. lia.
  - change (buf Incoming r1) with inc1. rewrite length_drop. lia.
Qed.

(** ** Octets that arrive *)

(** The octets [g] of a packet have arrived, and its length is known. *)
Definition sized (r : ssh) (d : dir) (g : list Z) : Prop :=
  let seq := seqnr (p_read r) in
  dir_valid d /\ rx_ok r (d_next d (d_first d)) /\ 5 <= packlen r <= PACKET_MAX_SIZE /\ (d_need d <= length g)%nat /\
  contents (input r) = drop (d_first d) g /\ length (contents (incoming_packet r)) = d_first d /\
  if (d_aad d =? 0)%nat
  then take (d_first d) g = sealed (d_state d) seq [] (contents (incoming_packet r)) /\
       PEEK_U32 (contents (incoming_packet r)) = packlen r
  else forall aad msg, length aad = 4%nat -> bytes_ok aad -> bytes_ok msg ->
         take 4 (sealed (d_state d) seq aad msg) = take 4 g -> PEEK_U32 aad = packlen r.

(** Whatever the octets [g] are: nothing of them has been looked at, or the
    length of the packet that they start is known. *)
Definition awaiting (r : ssh) (d : dir) (g : list Z) : Prop :=
  (rx_ok r d /\ packlen r = 0 /\ contents (input r) = g) \/ sized r d g.

Lemma when_bad_Ok r (m : M unit) (f : unit -> M unit) r' :
  (forall t t', m t <> (Ok tt, t')) -> bind (when (bad_packlen r) m) f r = (Ok tt, r') ->
  5 <= packlen r <= PACKET_MAX_SIZE /\ f tt r = (Ok tt, r').
Proof.
  intros Hm E. apply bind_when_Ok in E as [Hb E]; [|done]. split; [|done]. unfold bad_packlen in Hb. lia.
Qed.

Lemma reject_length_not_Ok text code t t' : (check (sshpkt_disconnect text) ;* early code) t <> (Ok tt, t').
Proof. apply then_early_not_Ok. Qed.

Lemma read_length_Ok r d g r1 :
  awaiting r d g -> read_length (newkeys_in r) r = (Ok tt, r1) ->
  sized r1 d g /\ exists inp inc c len, r1 = got r inp inc c (newkeys_in r) len.
Proof.
  intros [(Hrx & Hpk & Hg)|Hsz] E.
  2:{ pose proof Hsz as (_ & (Hd & _) & Hp & _). unfold read_length in E. rewrite bind_get in E.
      rewrite (proj2 (Z.eqb_neq (packlen r) 0)), andb_false_r in E by lia. injection E as <-. split; [done|].
      destruct Hd as (c & Hc & _). exists (input r), (incoming_packet r), c, (packlen r). unfold got. rewrite <- Hc. by destruct r. }
  pose proof Hrx as (Hd & Ha & Hst & Hgi & Hgc).
  destruct (dir_params _ _ _ _ Hd) as (_ & _ & _ & Hbl & Haad & _ & _ & Hbs & _).
  pose proof Hd as (c & Hc & Hen & Hs & _).
  assert (Hbg : bytes_ok g) by (rewrite <- Hg; apply bytes_ok_contents, Hgi).
  pose proof E as E'. unfold read_length in E. rewrite Hbl, Haad, bind_get, Hpk in E. change (0 =? 0) with true in E.
  destruct (d_aad_cases d) as [(H0 & Ht & _)|H4].
  - assert (Hf : d_block d = Z.of_nat (d_first d)) by (unfold d_first; rewrite H0; cbn [Nat.eqb]; lia).
    destruct (Nat.ltb_spec (length g) (d_first d)) as [Hlt|Hge].
    { rewrite H0 in E. change (negb (Z.of_nat 0 =? 0) && true) with false in E. cbv iota in E.
      rewrite (bind_ok _ _ _ _ _ (b_len_ok Input r Hgi)) in E. cbn [buf] in E.
      apply bind_when_Ok in E as [Hl _]; [|apply early_not_Ok]. rewrite Hg in Hl. lia. }
    destruct (sealed_any c (d_state d) (seqnr (p_read r)) (take (d_first d) g) Hs Ht) as (m & Hlm & Hbm & Em); [by apply Forall_take|].
    rewrite length_take, Nat.min_l in Hlm by done.
    destruct (read_first_block r d (seqnr (p_read r)) m (drop (d_first d) g)) as (inc & c' & Er & Hd' & Hgi' & Hci'); try done.
    { by rewrite Em, take_drop. }
    cbv zeta in Er. rewrite Er, bind_get in E'. set (r2 := got r _ _ _ _ _) in E'.
    apply when_bad_Ok in E' as [HL E']; [|apply then_early_not_Ok].
    destruct (b_consume_ok Input r2 (d_block d)) as (inp & Eb & Hgb & Hcb); [done| |].
    { change (buf Input r2) with (input r). rewrite Hg, Hf. lia. }
    change (buf Input r2) with (input r) in Hcb. rewrite Hg, Hf, Nat2Z.id in Hcb.
    assert (r1 = set_buf Input r2 inp) as ->.
    { unfold check, bind in E'. rewrite Eb in E'. by injection E'. }
    split; [|by exists inp, inc, c', (PEEK_U32 m)].
    unfold sized. rewrite H0. cbn [Nat.eqb]. split; [by eexists _, _, _|]. split; [by split_and!|]. split; [done|].
    split; [unfold d_need; rewrite H0; cbn [Nat.eqb]; unfold d_first in Hge; rewrite H0 in Hge; done|].
    split; [done|]. change (incoming_packet (set_buf Input r2 inp)) with inc. rewrite Hci'. split_and!; done.
  - clear E'. rewrite H4 in E. change (negb (Z.of_nat 4 =? 0) && true) with true in E. cbv iota in E.
    destruct (get_length_eq r c Hgi Hc) as (slack & Hsl & Egl). rewrite Hg in Egl.
    destruct (Nat.ltb_spec (length g) 4) as [Hlt|Hge].
    { rewrite (get_length_short _ _ _ _ _ _ Hs) in Egl by lia. cbv beta iota zeta in Egl.
      rewrite (bind_ok _ _ _ _ _ Egl) in E. apply bind_when_Ok in E as [Hf _]; [done|apply early_not_Ok]. }
    destruct (get_length_any c (d_state d) (stack r) (seqnr (p_read r)) (g ++ slack) (Z.of_nat (length g))) as (L & c' & El & Hs' & Hsc & Huniq);
      try done; try apply Hst; try lia.
    { by apply bytes_ok_app. } { rewrite length_app. lia. }
    rewrite El in Egl. cbv beta iota zeta in Egl. rewrite (bind_ok _ _ _ _ _ Egl), bind_when_false, bind_get in E.
    apply when_bad_Ok in E as [HL E]; [|apply reject_length_not_Ok].
    match type of E with b_reset Incoming ?st = _ => destruct (b_reset_ok Incoming st) as (inc & Er & Hgi' & Hci'); [done|done|] end.
    rewrite Er in E. injection E as <-. split; [|by exists (input r), inc, c', L].
    assert (Hd' : dir_ok false (newkeys_in r) (Some c') d) by (rewrite Hc in Hd; by apply (dir_ok_ctx _ _ c)).
    unfold sized, d_need, d_first. rewrite H4. cbn [Nat.eqb]. rewrite d_next_0, drop_0.
    split; [by eexists _, _, _|]. split; [by split_and!|]. split; [done|]. split; [done|]. split; [done|].
    split; [cbn; by rewrite Hci'|]. intros aad msg Hla Hba Hbm Ehd. apply (Huniq aad msg); try done. by rewrite take_app_le by lia.
Qed.

(** What is left to read, for a length that was accepted. *)
Lemma need_nat d L :
  d_block d = 8 \/ d_block d = 16 -> 5 <= L <= PACKET_MAX_SIZE ->
  let need := if negb (Z.of_nat (d_aad d) =? 0) then L else u32 (4 + L - d_block d) in
  need mod d_block d = 0 ->
  exists n, need = Z.of_nat n /\ Z.of_nat (d_first d + d_aad d + n) = L + 4.
Proof.
  intros Hb HL need Hm. unfold PACKET_MAX_SIZE in HL. unfold need, d_first in *. clear need.
  destruct (d_aad_cases d) as [(E & _)|E]; rewrite E in *.
  - change (negb (Z.of_nat 0 =? 0)) with false in *. change ((0 =? 0)%nat) with true. cbv iota in *.
    exists (Z.to_nat (4 + L - d_block d)).
    assert (d_block d <= 4 + L).
    { destruct (Z.le_gt_cases (d_block d) (4 + L)); [done|]. exfalso. unfold u32 in Hm.
      destruct Hb as [Eb|Eb]; rewrite Eb in *; dm_lia. }
    unfold u32. rewrite Z.mod_small by lia. lia.
  - change (negb (Z.of_nat 4 =? 0)) with true. change ((4 =? 0)%nat) with false. cbv iota.
    exists (Z.to_nat L). lia.
Qed.

(** Once the rest is decrypted the whole packet is known. *)
Lemma sized_packet r d g am n tl :
  sized r d g -> Z.of_nat (d_first d + d_aad d + n) = packlen r + 4 -> length am = (d_aad d + n)%nat -> bytes_ok am ->
  Z.of_nat n mod d_block d = 0 -> d_block d = 8 \/ d_block d = 16 ->
  contents (input r) = d_rest d (seqnr (p_read r)) (contents (incoming_packet r) ++ am) ++ tl ->
  let pl := contents (incoming_packet r) ++ am in
  framed d pl /\ opened r d pl g /\ g = ciphertext d (seqnr (p_read r)) pl ++ tl /\ need_of d pl = Z.of_nat n.
Proof.
  intros (Hv & Hrx & HL & Hneed & Hci & Hlc & Hhd) Hn Hla Hba Hm Hb Hin. set (m1 := contents (incoming_packet r)) in *.
  set (pl := m1 ++ am) in *. set (seq := seqnr (p_read r)) in *. cbv zeta.
  assert (Hbm : bytes_ok m1) by (apply bytes_ok_contents, Hrx).
  assert (Hlpl : length pl = (d_first d + d_aad d + n)%nat) by (unfold pl; rewrite length_app; lia).
  assert (Hdr : drop (d_first d) pl = am) by (by apply drop_app_length').
  assert (Htk : take (d_first d) pl = m1) by (by apply take_app_length').
  assert (Hfg : (d_first d <= length g)%nat).
  { unfold d_first, d_need in *. destruct (d_aad d =? 0)%nat; lia. }
  destruct Hv as (e & nk & cc & Hd).
  destruct (d_rest_spec _ _ _ d seq pl Hd) as (E1 & E2 & _); [lia|lia|].
  assert (Hct : g = ciphertext d seq pl ++ tl).
  { rewrite <- (take_drop (d_first d) g), <- Hci, Hin, app_assoc. f_equal.
    destruct (d_aad_cases d) as [(H0 & _)|H4].
    - rewrite H0 in Hhd. cbn [Nat.eqb] in Hhd. rewrite (proj1 Hhd), (sealed_first _ _ _ _ _ _ Hd), Htk by (done || lia).
      f_equal. unfold d_rest. by rewrite Hdr, H0, take_0, drop_0.
    - unfold d_first at 1. rewrite H4. cbn [Nat.eqb]. rewrite take_0. apply E2. lia. }
  assert (Hpk : PEEK_U32 (take 4 pl) = packlen r).
  { destruct (d_aad_cases d) as [(H0 & _)|H4].
    - rewrite H0 in Hhd. cbn [Nat.eqb] in Hhd. rewrite <- (proj2 Hhd). apply PEEK_U32_take.
      rewrite take_take. unfold pl. rewrite take_app_le; [done|]. rewrite Hlc. unfold d_first. rewrite H0. cbn [Nat.eqb]. lia.
    - rewrite H4 in Hhd. cbn [Nat.eqb] in Hhd. apply (Hhd (take 4 pl) (drop 4 pl)).
      + rewrite length_take. lia.
      + apply Forall_take, Forall_app_2; done.
      + apply Forall_drop, Forall_app_2; done.
      + rewrite Hct. unfold ciphertext. rewrite H4. symmetry. apply take_app_le.
        destruct Hd as (c & _ & _ & Hs & _). rewrite (length_sealed c) by done. rewrite length_take. lia. }
  split; [|split; [|split; [done|unfold need_of; lia]]].
  - split_and!; try lia; [by apply bytes_ok_app|].
    destruct (d_aad_cases d) as [(H0 & _)|H4].
    + rewrite H0, Nat.sub_0_r in *. rewrite Hlpl. unfold d_first. rewrite H0. cbn [Nat.eqb].
      destruct Hb as [Eb|Eb]; rewrite Eb in *; dm_lia.
    + assert (Hf0 : d_first d = 0%nat) by (unfold d_first; by rewrite H4). rewrite <- Hm. f_equal. lia.
  - split; [by exists e, nk, cc|]. split_and!; try done; lia.
Qed.

(** The octets that decryption and mac accept are a packet of the direction. *)
Lemma read_body_Ok r d g n r2 :
  sized r d g -> Z.of_nat (d_first d + d_aad d + n) = packlen r + 4 -> Z.of_nat n mod d_block d = 0 ->
  Z.of_nat (d_aad d + n + taglen (d_state d)) + d_maclen d <= Z.of_nat (length (contents (input r))) ->
  read_body (newkeys_in r) (Z.of_nat n) r = (Ok tt, r2) ->
  exists pl rest, framed d pl /\ opened r d pl g /\ g = wire d (seqnr (p_read r)) pl ++ rest /\ need_of d pl = Z.of_nat n.
Proof.
  intros Hsz Hn Hmod Hlen E. pose proof Hsz as (_ & Hrx & HL & _ & _ & Hlc & _). unfold PACKET_MAX_SIZE in HL.
  pose proof Hrx as (Hd & Ha & Hst & Hgi & Hgc).
  destruct (dir_params _ _ _ _ Hd) as (Hau & Hmo & Heo & _ & Haad & Hml & _ & Hbs & Hmr).
  destruct (d_next_params d (d_first d)) as (Na & Ne & Nm). rewrite Na in Haad. rewrite Ne in Heo. rewrite Nm in Hml, Hmr.
  cbn [d_next d_state d_mac d_block] in Hau, Hmo, Hbs. rewrite taglen_next in Hau.
  set (seq := seqnr (p_read r)). set (m1 := contents (incoming_packet r)) in *.
  unfold read_body in E. rewrite Heo, Hmo, Hml in E. unfold wire, d_tag, d_etm, d_maclen in *.
  destruct (d_mac d) as [[[sec len] etm]|] eqn:Hm.
  - destruct (dir_mac_key _ _ _ _ sec len etm Hd Hm) as (k & Hk & Hkm & Hkl).
    pose proof (dir_mac_no_tag _ _ _ _ _ Hd Hm) as Ht. cbn [d_next d_state] in Ht. rewrite taglen_next in Ht.
    rewrite bool_decide_eq_true_2 in E by (by eexists). destruct etm; cbn [negb when] in E.
    + (* the mac covers the ciphertext *)
      destruct (b_ptr_ok Input r Hgi) as (slack & Ep & Hsl). cbn [buf] in Ep.
      rewrite bind_assoc, (bind_ok _ _ _ _ _ Ep) in E.
      match type of E with bind (check _) ?k r = _ => set (K := k) in E end.
      rewrite Haad, Hau, Ht, Z.add_0_r in E.
      unfold u32 in E. rewrite Z.mod_small, <- Nat2Z.inj_add, Nat2Z.id, <- Hkl in E by lia.
      apply bind_check_Ok in E as (r' & Ec & E).
      apply (check_mac_Ok r k sec) in Ec as [Etag (mac' & Er' & Hmk & Hsm)]; try done.
      2:{ rewrite length_drop, length_app, Hkl. lia. }
      rewrite Nat2Z.id, Hkl in Etag. unfold K in E. clear K.
      assert (Hrx' : rx_ok r' (d_next d (d_first d))).
      { rewrite Er'. apply rx_ok_mac; try done. intros ? ? ? E0. cbn in E0. congruence. }
      destruct (decrypt_inv _ _ r' d seq m1 n (newkeys_in r) tt r2 Hrx' ltac:(by rewrite Er') Haad Hau Hlc
                  ltac:(by rewrite Er') ltac:(rewrite Er'; change (input (set_newkeys_in r _)) with (input r); lia) ltac:(lia) E)
        as (am & Hla & Hba & Hin).
      rewrite Er' in Hin. change (input (set_newkeys_in r _)) with (input r) in Hin. rewrite Ht, Nat.add_0_r in Hin.
      destruct (sized_packet r d g am n _ Hsz Hn Hla Hba Hmod Hbs Hin) as (Hfr & Hop & Hg & Hno).
      fold m1 seq in Hfr, Hop, Hg. set (pl := m1 ++ am) in *.
      assert (H4 : d_aad d = 4%nat) by (unfold d_aad, d_etm; by rewrite Hm).
      assert (Hf0 : d_first d = 0%nat) by (unfold d_first; by rewrite H4).
      assert (Hct : ciphertext d seq pl = take (d_aad d + n) (contents (input r))).
      { destruct Hsz as ((e0 & nk0 & cc0 & c & _ & _ & Hs & _) & _ & _ & _ & Hci & _). rewrite Hf0, drop_0 in Hci.
        rewrite Hci, Hg. symmetry. apply take_app_length'.
        assert (Hlp : length pl = (d_aad d + n)%nat) by (unfold pl; rewrite length_app; lia).
        rewrite (length_ciphertext c) by (done || lia). lia. }
      exists pl, (drop (Z.to_nat len) (drop (d_aad d + n) (contents (input r)))).
      split; [exact Hfr|]. split; [exact Hop|]. split; [|done]. rewrite Hct, <- app_assoc.
      rewrite take_app_le, drop_app_le in Etag by lia. rewrite take_app_le in Etag by (rewrite length_drop; lia).
      fold seq in Etag. rewrite <- Etag, take_drop, Hg, Hct. done.
    + rewrite bind_ret in E.
      destruct (decrypt_inv _ _ r d seq m1 n (newkeys_in r) tt r2 Hrx eq_refl Haad Hau Hlc eq_refl ltac:(lia) ltac:(lia) E)
        as (am & Hla & Hba & Hin). rewrite Ht, Nat.add_0_r in Hin.
      destruct (sized_packet r d g am n _ Hsz Hn Hla Hba Hmod Hbs Hin) as (Hfr & Hop & Hg & Hno).
      fold m1 seq in Hfr, Hop, Hg. set (pl := m1 ++ am) in *. set (tl := drop (d_aad d + n) (contents (input r))) in *.
      destruct (decrypt_step r d seq pl tl (newkeys_in r)) as (inp & inc & c & Es & Hrx2 & Hci2 & Hcc2); try done.
      { symmetry. by apply take_app_length'. }
      rewrite <- Hno, Es in E. clear Es. set (r3 := got _ _ _ _ _ _) in *. pose proof Hrx2 as (_ & _ & _ & Hgi2 & Hgc2).
      destruct (b_ptr_ok Incoming r3 Hgc2) as (sl1 & Ep1 & _). change (buf Incoming r3) with inc in Ep1. rewrite Hcc2 in Ep1.
      destruct (b_ptr_ok Input r3 Hgi2) as (sl2 & Ep2 & _). change (buf Input r3) with inp in Ep2. rewrite Hci2 in Ep2.
      rewrite !bind_assoc, (bind_ok _ _ _ _ _ Ep1), bind_assoc, (bind_ok _ _ _ _ _ (b_len_ok Incoming r3 Hgc2)), bind_assoc,
        (bind_ok _ _ _ _ _ Ep2), bind_assoc in E. change (buf Incoming r3) with inc in E. rewrite Hcc2, <- Hkl in E.
      apply bind_Ok in E as (e & r4 & Ec & E).
      apply bind_when_Ok in E as [He _].
      2:{ intros t t' H. apply bind_Ok in H as (? & ? & _ & H). apply bind_Ok in H as (? & ? & _ & H). by apply then_early_not_Ok in H. }
      assert (e = 0) as -> by lia.
      apply (check_mac_Ok r3 k sec) in Ec as [Etag _]; try done.
      2:{ rewrite length_app, Hkl. unfold tl. rewrite length_drop. lia. }
      rewrite Nat2Z.id, Hkl, take_app_length, take_app_le in Etag by (unfold tl; rewrite length_drop; lia).
      exists pl, (drop (Z.to_nat len) tl). split; [exact Hfr|]. split; [exact Hop|]. split; [|done].
      change (seqnr (p_read r3)) with seq in Etag. rewrite <- app_assoc, <- Etag, take_drop. exact Hg.
  - rewrite bool_decide_eq_false_2 in E by (by intros [x Hx]). rewrite bind_when_false in E.
    destruct (decrypt_inv _ _ r d seq m1 n (newkeys_in r) tt r2 Hrx eq_refl Haad Hau Hlc eq_refl ltac:(lia) ltac:(lia) E)
      as (am & Hla & Hba & Hin).
    destruct (sized_packet r d g am n _ Hsz Hn Hla Hba Hmod Hbs Hin) as (Hfr & Hop & Hg & Hno).
    exists (m1 ++ am), (drop (d_aad d + n + taglen (d_state d)) (contents (input r))).
    split; [exact Hfr|]. split; [exact Hop|]. split; [|done]. by rewrite app_nil_r.
Qed.

End auth.
