(* ===== verification/PacketAccept.v ===== *)
(** A call of [ssh_packet_read_poll2] on whatever octets: it fails, it waits with
    nothing lost, or it delivers the packet whose wire form has arrived. *)

From stdpp Require Import base list numbers tactics.
From Stdlib Require Import ZArith Lia ZifyBool.
From S2P Require Import Prelude Sshbuf SshbufGetput Chacha Chachapoly AesCtr Cipher Digest Mac.
From S2P Require Import PacketState Packet PacketBuf PacketSend PacketRecv PacketRead PacketFrame PacketMem PacketAuth.

#[local] Open Scope ssh_scope.

Section fails.
Context {md : MD} {um : Umac}.

(** ** Early returns that are errors *)

Definition fails {A} (m : M A) : Prop := forall s r s', m s = (Early r, s') -> r <> 0.

Lemma fails_bind {A B} (m : M A) (f : A -> M B) : fails m -> (forall a, fails (f a)) -> fails (bind m f).
Proof.
  intros Hm Hf s r s'. unfold bind. destruct (m s) as [[a|r1|] s1] eqn:E; [apply Hf| |done].
  intros [= <- <-]. by apply (Hm s r1 s1).
Qed.

Lemma fails_func m : fails (func m).
Proof. intros s r s'. unfold func. by destruct (m s) as [[|?|] ?]. Qed.

Lemma fails_early {A} r : r <> 0 -> fails (early r : M A).
Proof. intros H s r0 s' [= <- _]. done. Qed.

Lemma fails_check m : fails m -> fails (check m).
Proof.
  intros H. apply fails_bind; [done|]. intros r. destruct (Z.eqb_spec r 0); [done|]. by apply fails_early.
Qed.

Lemma fails_when b m : (b = true -> fails m) -> fails (when b m).
Proof. destruct b; [auto|done]. Qed.

Lemma fails_crypt mode seq n dp src len aad auth : fails (crypt mode seq n dp src len aad auth).
Proof.
  intros s r s'. unfold crypt. destruct (ctx_of mode s); [|done]. destruct (cipher_crypt _ _ _ _ _ _ _ _) as [[e c] dest].
  destruct (Z.eqb_spec e 0); [done|]. by intros [= <- _].
Qed.

Lemma fails_reserve n len : fails (b_reserve n len).
Proof.
  intros s r s'. unfold b_reserve. destruct (sshbuf_reserve _ _ _) as [[[e b] dp] w].
  destruct (Z.eqb_spec e 0); [by destruct dp|]. by intros [= <- _].
Qed.

Lemma fails_b_ptr n : fails (b_ptr n).
Proof. intros s r s'. unfold b_ptr. by destruct (sshbuf_ptr _). Qed.

Lemma fails_check_mac data n their mlen : fails (check_mac data n their mlen).
Proof. intros s r s'. unfold check_mac. destruct (newkeys_in s); [|done]. by destruct (mac_check _ _ _ _ _ _ _ _ _). Qed.

Lemma fails_b_consume n len : fails (b_consume n len).
Proof. intros s r s'. unfold b_consume. by destruct (sshbuf_consume _ _). Qed.

Lemma fails_b_consume_end n len : fails (b_consume_end n len).
Proof. intros s r s'. unfold b_consume_end. by destruct (sshbuf_consume_end _ _). Qed.

Lemma fails_b_reset n : fails (b_reset n).
Proof. intros s r s'. unfold b_reset. by destruct (sshbuf_reset _ _). Qed.

Lemma fails_b_alloc n f : fails (b_alloc n f).
Proof. intros s r s'. unfold b_alloc. by destruct (f _ _) as [[? ?] ?]. Qed.

Lemma fails_the_kex : fails the_kex.
Proof. intros s r s'. unfold the_kex. by destruct (kexp s). Qed.

End fails.

Create HintDb fails_db.
#[export] Hint Resolve fails_func fails_crypt fails_reserve fails_b_ptr fails_check_mac fails_b_consume fails_b_consume_end
  fails_b_reset fails_b_alloc fails_the_kex : fails_db.

(** Follow the code of a computation. *)
Ltac fails :=
  repeat
    (cbv beta zeta;
     match goal with
     | |- fails _ => solve [auto 3 with fails_db nocore]
     | |- fails (bind _ _) => apply fails_bind; [|intros ?]
     | |- fails (check _) => apply fails_check
     | |- fails (when _ _) => apply fails_when; intros ?
     | |- fails (early _) => apply fails_early; first [done|lia]
     | |- fails (ret _) => intros ? ? ?; done
     | |- fails (get _) => intros ? ? ?; done
     | |- fails (b_len _) => intros ? ? ?; done
     | |- fails (modify _) => intros ? ? ?; done
     | |- fails fatal => intros ? ? ?; done
     | |- fails ssh_packet_disconnect => intros ? ? ?; done
     | |- fails (fun s => _) => intros ? ? ?; cbv beta zeta; repeat case_match; intros [=]; subst; lia
     | |- fails (if ?b then _ else _) => destruct b eqn:?
     end).

Section accept.
Context {md : MD} {um : Umac} {mdl : MDLaws} {uml : UmacLaws}.

(** The ciphers of this build are not in CBC mode: a corrupt packet is an error
    at once. *)
Definition not_cbc (nk : option newkeys) : Prop :=
  match nk with None => True | Some k => cipher_is_cbc (e_cipher (enc k)) = false end.

Lemma dir_not_cbc e nk cc d : dir_ok e nk cc d -> not_cbc nk.
Proof.
  intros (c & _ & _ & _ & H). destruct nk as [k|]; [|done]. destruct H as (Hin & E & _).
  unfold not_cbc, cipher_is_cbc, has_flag. rewrite E.
  by destruct (cipher_cases _ Hin) as [(-> & _)|[(-> & _)|(-> & _)]].
Qed.

Lemma func_fails body : fails body -> (forall s s', body s <> (Ok 0, s')) -> fails (let* r := func body in early r : M unit).
Proof.
  intros Hb H0 s r s'. unfold bind, func. destruct (body s) as [[e|e|] s1] eqn:E; [| |done].
  - intros [= <- <-]. intros ->. by apply H0 in E.
  - intros [= <- <-]. by apply Hb in E.
Qed.

Lemma discard_fails nk a d : not_cbc nk -> fails (let* r := ssh_packet_start_discard nk a d in early r : M unit).
Proof.
  intros Hn. apply func_fails.
  - unfold sshpkt_disconnect, ssh_packet_stop_discard. fails.
  - intros s s'. cbv zeta. destruct nk as [k|]; cbn [orb].
    + unfold not_cbc in Hn. rewrite Hn. cbn [negb orb]. intros E. by apply bind_Ok in E as (? & ? & _ & ?).
    + intros E. by apply bind_Ok in E as (? & ? & _ & ?).
Qed.

Lemma fails_read_body nk need : not_cbc nk -> fails (read_body nk need).
Proof. intros Hn. unfold read_body. pose proof (discard_fails nk). fails. Qed.

Lemma fails_count_packet mode len bs : fails (count_packet mode len bs).
Proof. unfold count_packet. fails. Qed.

Lemma fails_write_wait : fails ssh_packet_write_wait.
Proof. intros s r s'. unfold ssh_packet_write_wait. destruct (default _ _) as [e n]. by destruct (e =? 0). Qed.

Lemma fails_reject text code : code <> 0 -> fails (reject text code).
Proof. intros H. unfold reject, sshpkt_disconnect. pose proof fails_write_wait. fails. Qed.

Lemma fails_uncompress : fails uncompress_buffer.
Proof. unfold uncompress_buffer. fails. Qed.

Lemma fails_open_packet nk : fails (open_packet nk).
Proof.
  assert (forall text, fails (reject text SSH_ERR_CONN_CORRUPT)) by (intros; by apply fails_reject).
  assert (forall text, fails (reject text SSH_ERR_PROTOCOL_ERROR)) by (intros; by apply fails_reject).
  unfold open_packet. pose proof fails_uncompress. fails.
Qed.

(** ** The decrypted packet *)

Lemma POKE_PEEK_U32 p : bytes_ok p -> length p = 4%nat -> POKE_U32 (PEEK_U32 p) = p.
Proof.
  intros Hb Hl. destruct p as [|a [|b [|c [|d [|]]]]]; try done. clear Hl.
  apply Forall_cons_1 in Hb as [Ha Hb]. apply Forall_cons_1 in Hb as [Hb Hc]. apply Forall_cons_1 in Hc as [Hc Hd].
  apply Forall_cons_1 in Hd as [Hd _]. unfold is_byte in *. be_start.
  rewrite (lor_add (_ * 2 ^ 24) _ 24) by dm_lia. rewrite (lor_add _ (_ * 2 ^ 8) 16) by dm_lia.
  rewrite (lor_add _ _ 8) by dm_lia. repeat f_equal; dm_lia.
Qed.

Lemma consume_end_fits n s len s' :
  good (buf n s) -> b_consume_end n len s = (Ok 0, s') -> len <= Z.of_nat (length (contents (buf n s))).
Proof.
  intros Hg. unfold b_consume_end, sshbuf_consume_end. rewrite (wf_sane _ (proj1 Hg)), len_good by done. cbn [negb Z.eqb].
  destruct (Z.eqb_spec len 0); [intros; lia|]. destruct (Z.gtb_spec len (Z.of_nat (length (contents (buf n s))))); [done|intros; lia].
Qed.

Lemma get_u8_nonempty b v b' : good b -> sshbuf_get_u8 b = (0, v, b') -> contents b <> [].
Proof.
  intros Hg. unfold sshbuf_get_u8, sshbuf_consume. rewrite (wf_sane _ (proj1 Hg)), len_good by done. cbn [negb Z.eqb].
  intros E C. rewrite C in E. done.
Qed.

Lemma when_Ok c (m : M unit) s s' : (forall t t', m t <> (Ok tt, t')) -> when c m s = (Ok tt, s') -> c = false.
Proof. destruct c; [|done]. intros Hm E. by apply Hm in E. Qed.

(** What is opened is a packet: a type, a body, and padding that is long enough. *)
Lemma open_packet_Ok r d nk pl r' :
  good (incoming_packet r) -> contents (incoming_packet r) = pl -> framed d pl -> comp_on nk = false ->
  open_packet nk r = (Ok tt, r') ->
  exists t body pad, pl = plain (t :: body) pad /\ pad_ok d (t :: body) pad /\ SSH2_MSG_MIN <= t.
Proof.
  intros Hg Hc (Hb & Hl & Hpk & Hm & Hmax) Hco. unfold open_packet. rewrite Hco.
  destruct (b_ptr_ok Incoming r Hg) as (slack & Ep & _). cbn [buf] in Ep. rewrite (bind_ok _ _ _ _ _ Ep), Hc.
  destruct (lookup_lt_is_Some_2 pl 4) as [n Hn]; [lia|].
  assert (E4 : byte_at (pl ++ slack) 4 = n) by (unfold byte_at; by rewrite lookup_app_l, Hn by lia). rewrite E4.
  pose proof (Forall_lookup_1 _ _ _ _ Hb Hn) as Hnb. unfold is_byte in Hnb.
  intros E. apply bind_when_Ok in E as [Hn4 E].
  2:{ intros t t' H. apply bind_Ok in H as (? & ? & _ & H). by apply then_early_not_Ok in H. }
  destruct (b_consume_ok Incoming r (4 + 1) Hg) as (b1 & E1 & Hg1 & Hc1); [cbn [buf]; rewrite Hc; lia|].
  rewrite (bind_check _ _ _ _ E1) in E. cbn [buf] in Hc1. rewrite Hc in Hc1.
  apply bind_check_Ok in E as (r2 & E2 & E). pose proof (consume_end_fits Incoming (set_buf Incoming r b1) _ _ Hg1 E2) as Hfit.
  change (buf Incoming (set_buf Incoming r b1)) with b1 in Hfit.
  destruct (b_consume_end_ok Incoming (set_buf Incoming r b1) n) as (b2 & E2' & Hg2 & Hc2); [done|change (buf Incoming (set_buf Incoming r b1)) with b1; lia|].
  rewrite E2' in E2. injection E2 as <-. change (buf Incoming (set_buf Incoming r b1)) with b1 in Hc2.
  rewrite bind_when_false in E. apply bind_Ok in E as ([] & r3 & E3 & E).
  cbv beta zeta in E3. cbn [set_buf] in E3. change (incoming_packet (set_incoming_packet (set_incoming_packet r b1) b2)) with b2 in E3.
  destruct (sshbuf_get_u8 b2) as [[e v] b3] eqn:E8. destruct (Z.eqb_spec e 0) as [->|]; [|done].
  pose proof (get_u8_nonempty _ _ _ Hg2 E8) as Hne. destruct (contents b2) as [|t body] eqn:Hcb; [done|].
  destruct (get_u8_read b2 t body) as (b3' & E8' & _); [apply Hg2|done|]. rewrite E8' in E8. injection E8 as <- <-.
  injection E3 as <-. rewrite bind_get in E. apply when_Ok in E as Hmin.
  2:{ intros ? ? H. apply bind_Ok in H as (? & ? & _ & H). by apply then_early_not_Ok in H. }
  match type of Hmin with (typep ?st <? _) = _ => change (typep st) with t in Hmin end.
  exists t, body, (drop (length (contents b1) - Z.to_nat n) (contents b1)).
  set (pad := drop _ _). assert (Hlp : length pad = Z.to_nat n) by (unfold pad; rewrite length_drop; lia).
  assert (Hsplit : drop 5 pl = (t :: body) ++ pad) by (rewrite Hc2; unfold pad; by rewrite take_drop, Hc1).
  assert (Hlen : length pl = (5 + length (t :: body) + length pad)%nat).
  { rewrite <- (take_drop 5 pl), length_app, length_take, Hsplit, length_app. lia. }
  split; [|split; [|lia]].
  - rewrite <- (take_drop 4 pl), <- (POKE_PEEK_U32 (take 4 pl)), Hpk by (by apply Forall_take || (rewrite length_take; lia)).
    unfold plain. f_equal; [f_equal; lia|]. rewrite (drop_S _ _ _ Hn), Hsplit. cbn [app]. f_equal. lia.
  - split_and!; [unfold pad; apply Forall_drop; rewrite Hc1; by apply Forall_drop|lia|lia|]. by rewrite <- Hlen.
Qed.

(** ** A call that returns 0 *)

Definition zero (o : outcome Z) : Prop := o = Ok 0 \/ o = Early 0.

Lemma func_zero body s s' : func body s = (Ok 0, s') -> exists o, zero o /\ body s = (o, s').
Proof.
  unfold func. destruct (body s) as [[a|e|] s1]; [| |done]; intros [= -> <-]; [exists (Ok 0)|exists (Early 0)]; split; try done; [by left|by right].
Qed.

Lemma bind_zero {A} (m : M A) (f : A -> M Z) s o s' :
  zero o -> bind m f s = (o, s') ->
  (exists a s1, m s = (Ok a, s1) /\ f a s1 = (o, s')) \/ m s = (Early 0, s').
Proof.
  intros Hz. unfold bind. destruct (m s) as [[a|e|] s1].
  - intros E. left. by exists a, s1.
  - intros [= <- <-]. right. destruct Hz as [|[= ->]]; done.
  - intros [= <- <-]. by destruct Hz.
Qed.

Lemma bind_zero_fails {A} (m : M A) (f : A -> M Z) s o s' :
  zero o -> fails m -> bind m f s = (o, s') -> exists a s1, m s = (Ok a, s1) /\ f a s1 = (o, s').
Proof. intros Hz Hm E. destruct (bind_zero _ _ _ _ _ Hz E) as [H|H]; [done|]. by apply Hm in H. Qed.

Lemma bind_when_zero c (m : M unit) (f : unit -> M Z) s o s' :
  zero o -> (forall r s1 s2, m s1 = (r, s2) -> r = Fatal \/ exists e, r = Early e /\ e <> 0) ->
  bind (when c m) f s = (o, s') -> c = false /\ f tt s = (o, s').
Proof.
  intros Hz Hm E. destruct c; [|done]. exfalso. cbn [when] in E.
  destruct (bind_zero _ _ _ _ _ Hz E) as [(a & s1 & H & _)|H]; apply Hm in H as [H|(e & H & He)]; congruence.
Qed.

Lemma discard_ends nk a d : not_cbc nk -> forall r s1 s2,
  bind (ssh_packet_start_discard nk a d) (fun r => early r) s1 = (r : outcome unit, s2) ->
  r = Fatal \/ exists e, r = Early e /\ e <> 0.
Proof.
  intros Hn r s1 s2 E. destruct r as [[]|e|].
  - by apply then_early_not_Ok in E.
  - right. exists e. split; [done|]. by apply (discard_fails nk a d Hn) in E.
  - by left.
Qed.

(** While the length is not known nothing is touched. *)
Lemma read_length_waits r d g r1 :
  awaiting r d g -> read_length (newkeys_in r) r = (Early 0, r1) -> r1 = r.
Proof.
  intros [(Hrx & Hpk & Hg)|Hsz] E.
  2:{ exfalso. pose proof Hsz as (_ & _ & Hp & _). unfold read_length in E. rewrite bind_get in E.
      by rewrite (proj2 (Z.eqb_neq (packlen r) 0)), andb_false_r in E by lia. }
  pose proof Hrx as (Hd & _ & Hst & Hgi & _). pose proof (dir_not_cbc _ _ _ _ Hd) as Hn.
  destruct (dir_params _ _ _ _ Hd) as (_ & _ & _ & Hbl & Haad & _ & _ & Hbs & _).
  pose proof Hd as (c & Hc & Hen & Hs & _). pose proof (discard_fails (newkeys_in r)) as Hdf.
  unfold read_length in E. rewrite Hbl, Haad, bind_get, Hpk in E. change (0 =? 0) with true in E.
  destruct (d_aad_cases d) as [(H0 & _)|H4].
  - rewrite H0 in E. change (negb (Z.of_nat 0 =? 0) && true) with false in E. cbv iota in E.
    rewrite (bind_ok _ _ _ _ _ (b_len_ok Input r Hgi)) in E. cbn [buf] in E.
    destruct (_ <? d_block d); [by injection E|]. rewrite bind_when_false in E.
    match type of E with ?m r = _ => assert (Hf : fails m) by fails end. by apply Hf in E.
  - rewrite H4 in E. change (negb (Z.of_nat 4 =? 0) && true) with true in E. cbv iota in E.
    destruct (get_length_eq r c Hgi Hc) as (slack & Hsl & Egl). rewrite Hg in Egl.
    destruct (Nat.ltb_spec (length g) 4) as [Hlt|Hge].
    + rewrite (get_length_short _ _ _ _ _ _ Hs) in Egl by lia. cbv beta iota zeta in Egl.
      rewrite (bind_ok _ _ _ _ _ Egl) in E. injection E as <-. rewrite <- Hc. apply set_receive_context_same.
    + assert (Hbg : bytes_ok g) by (rewrite <- Hg; apply bytes_ok_contents, Hgi).
      destruct (get_length_any c (d_state d) (stack r) (seqnr (p_read r)) (g ++ slack) (Z.of_nat (length g))) as (L & c' & El & _);
        try done; try apply Hst; try lia. { by apply bytes_ok_app. } { rewrite length_app. lia. }
      rewrite El in Egl. cbv beta iota zeta in Egl. rewrite (bind_ok _ _ _ _ _ Egl), bind_when_false in E.
      match type of E with ?m _ = _ => assert (Hf : fails m) by (unfold sshpkt_disconnect; fails) end. by apply Hf in E.
Qed.

(** What the steps after decryption leave alone. *)
Definition in_view (s : ssh) :=
  (input s, incoming_packet s, (typep s, packlen s), (receive_context s, newkeys_in s), (packet_discard s, mux s, hook_in s)).

Lemma keeps_in_view {A} (m : M A) : steps (same_by rx_view) m -> steps (same_by in_view) m.
Proof.
  apply (steps_view _ _ (fun v => let '(i, c, (t, l, _), _, k, d, (x, h)) := v in (i, c, (t, l), k, (d, x, h)))). done.
Qed.

Lemma count_in_keeps_in len bs : steps (same_by in_view) (count_packet MODE_IN len bs).
Proof. unfold count_packet. frame. Qed.

Lemma strict_reset_keeps_in t : steps (same_by in_view) (strict_reset MODE_IN t).
Proof. unfold strict_reset. frame. Qed.

Lemma stepped {A} (R : ssh -> ssh -> Prop) (m : M A) s o s' : steps R m -> m s = (o, s') -> R s s'.
Proof. intros H E. pose proof (H s) as Hs. by rewrite E in Hs. Qed.

(** The sequence number goes up by one, and back to zero at strict NEWKEYS. *)
Lemma count_packet_seqnr len bs s s' :
  count_packet MODE_IN len bs s = (Ok tt, s') -> seqnr (p_read s') = u32 (seqnr (p_read s) + 1).
Proof.
  unfold count_packet. rewrite bind_modify, bind_get. intros E. apply bind_Ok in E as ([] & s1 & E1 & E).
  assert (H1 : p_read s1 = mk_ps (u32 (seqnr (p_read s) + 1)) (packets (p_read s)) (blocks (p_read s)) (bytes (p_read s))).
  { destruct (_ =? 0); [|by injection E1 as <-]. apply (stepped (same_by p_read)) in E1; [|frame]. exact E1. }
  rewrite bind_modify, !bind_get in E. apply bind_when_Ok in E as [_ E]; [|apply early_not_Ok]. injection E as <-. cbn. by rewrite H1.
Qed.

Lemma strict_reset_seqnr t s o s' :
  strict_reset MODE_IN t s = (o, s') -> t <> SSH2_MSG_NEWKEYS -> s' = s.
Proof. unfold strict_reset. intros E Ht. rewrite (proj2 (Z.eqb_neq _ _) Ht) in E. by injection E. Qed.

(** The end of a connection that takes packets. *)
Definition listening (r : ssh) : Prop := mux r = false /\ packet_discard r = 0 /\ hook_in r = None.

(** The packet [t :: body] was delivered, [rest] is still to be read. *)
Definition took (r : ssh) (d : dir) (seq t : Z) (body rest : list Z) : Prop :=
  typep r = t /\ contents (incoming_packet r) = body /\ contents (input r) = rest /\ packlen r = 0 /\ rx_ok r d /\
  listening r /\ (t <> SSH2_MSG_NEWKEYS -> seqnr (p_read r) = u32 (seq + 1)).

(** A packet was delivered: the octets [g] start with its wire form. *)
Definition accepted (r : ssh) (d : dir) (g : list Z) (r' : ssh) : Prop :=
  exists t body pad rest, let pl := plain (t :: body) pad in
    g = wire d (seqnr (p_read r)) pl ++ rest /\ pad_ok d (t :: body) pad /\ framed d pl /\ SSH2_MSG_MIN <= t /\
    took r' (d_next d (length pl - d_aad d)) (seqnr (p_read r)) t body rest.

(** What follows the type of the packet. *)
Lemma finish_zero r t d seq body rest (server : bool) o r' :
  rx_ok r d -> listening r -> typep r = t -> contents (incoming_packet r) = body -> contents (input r) = rest ->
  seqnr (p_read r) = u32 (seq + 1) -> zero o ->
  ((if (t =? SSH2_MSG_USERAUTH_SUCCESS) && negb server
    then let* _r := ssh_packet_enable_delayed_compress in ret tt
    else ret tt) ;*
   modify (fun s => set_packlen s 0) ;*
   strict_reset MODE_IN t ;*
   ssh_packet_check_rekey) r = (o, r') ->
  took r' d seq t body rest.
Proof.
  intros (Hd & Ha & [Hb Hl] & Hgi & Hgc) (Hmux & Hdis & Hhook) Ht Hcc Hci Hsq Hz E.
  apply bind_zero_fails in E as ([] & r4 & E4 & E); [|done|destruct (_ && _); unfold ssh_packet_enable_delayed_compress; fails].
  assert (M4 : mem_kept r r4).
  { apply (stepped mem_kept) in E4; [exact E4|]. pose proof enable_delayed_keeps_mem. destruct (_ && _); frame. }
  assert (V4 : same_by rx_view r r4).
  { apply (stepped (same_by rx_view)) in E4; [exact E4|]. pose proof enable_delayed_keeps_rx. destruct (_ && _); frame. }
  injection V4 as W1 W2 W3 W4 W5 W6 W7 W8 W9 W10 W11. rewrite bind_modify in E. set (r5 := set_packlen r4 0) in E.
  assert (M5 : mem_kept r5 r').
  { apply (stepped mem_kept) in E; [exact E|]. pose proof check_rekey_keeps_mem. pose proof (strict_reset_keeps_mem MODE_IN). frame. }
  assert (V5 : same_by in_view r5 r').
  { apply (stepped (same_by in_view)) in E; [exact E|]. pose proof (keeps_in_view _ check_rekey_keeps_rx). pose proof strict_reset_keeps_in. frame. }
  injection V5 as X1 X2 X3 X4 X5 X6 X7 X8 X9.
  change (input r5) with (input r4) in X1. change (incoming_packet r5) with (incoming_packet r4) in X2.
  change (typep r5) with (typep r4) in X3. change (newkeys_in r5) with (newkeys_in r4) in X6.
  change (receive_context r5) with (receive_context r4) in X5. change (packet_discard r5) with (packet_discard r4) in X7.
  change (mux r5) with (mux r4) in X8. change (hook_in r5) with (hook_in r4) in X9.
  destruct M4 as [A4 S4]. destruct M5 as [A5 S5]. change (stack r5) with (stack r4) in S5.
  split; [congruence|]. split; [congruence|]. split; [congruence|]. split; [exact X4|]. split; [|split].
  - split_and!; [by rewrite X5, X6, W7, W8|by apply A5, A4|..].
    + split; by rewrite S5, S4.
    + by rewrite X1, W1.
    + by rewrite X2, W2.
  - split_and!; congruence.
  - intros Hnk. apply bind_zero in E as [([] & r6 & E6 & E)|E6]; [|apply strict_reset_seqnr in E6; [|done]; subst r'|done].
    + apply strict_reset_seqnr in E6; [|done]. subst r6. apply (stepped (same_by rx_view)) in E; [|apply check_rekey_keeps_rx].
      injection E as _ _ _ _ _ Y _ _ _ _ _. rewrite Y. change (p_read r5) with (p_read r4). congruence.
    + change (p_read r5) with (p_read r4). congruence.
Qed.

Lemma deliver_zero r d nk pl rest len bs o r' :
  rx_ok r (d_next d (length pl - d_aad d)) -> listening r -> comp_on nk = false ->
  contents (input r) = rest -> contents (incoming_packet r) = pl -> framed d pl -> zero o ->
  (modify (fun s => set_seqnr_p s (seqnr (p_read s))) ;*
   count_packet MODE_IN len bs ;*
   open_packet nk ;*
   run_hook ;*
   let* t := get typep in
   let* server := get server_side in
   (if (t =? SSH2_MSG_USERAUTH_SUCCESS) && negb server
    then let* _r := ssh_packet_enable_delayed_compress in ret tt
    else ret tt) ;*
   modify (fun s => set_packlen s 0) ;*
   strict_reset MODE_IN t ;*
   ssh_packet_check_rekey) r = (o, r') ->
  exists t body pad, pl = plain (t :: body) pad /\ pad_ok d (t :: body) pad /\ SSH2_MSG_MIN <= t /\
    took r' (d_next d (length pl - d_aad d)) (seqnr (p_read r)) t body rest.
Proof.
  intros (Hd & Ha & [Hb Hl] & Hgi & Hgc) (Hmux & Hdis & Hhook) Hco Hci Hcc Hpl Hz E.
  rewrite bind_modify in E. set (r1 := set_seqnr_p _ _) in E.
  apply bind_zero_fails in E as ([] & r2 & E2 & E); [|done|apply fails_count_packet].
  pose proof (count_packet_seqnr _ _ _ _ E2) as Hsq. change (p_read r1) with (p_read r) in Hsq.
  pose proof (stepped mem_kept _ _ _ _ (count_packet_keeps_mem MODE_IN len bs) E2) as [A2 S2].
  apply (stepped (same_by in_view)) in E2; [|apply count_in_keeps_in]. injection E2 as V1 V2 V3 V4 V5 V6 V7 V8 V9.
  apply bind_zero_fails in E as ([] & r3 & E3 & E); [|done|apply fails_open_packet].
  assert (Hgc2 : good (incoming_packet r2)) by (by rewrite V2).
  assert (Hcc2 : contents (incoming_packet r2) = pl) by (by rewrite V2).
  destruct (open_packet_Ok r2 d nk pl r3 Hgc2 Hcc2 Hpl Hco E3) as (t & body & pad & Epl & Hpad & Ht).
  destruct (open_packet_spec r2 nk t body pad Hgc2) as (inc & E3' & Hgi3 & Hci3); try done; [by rewrite Hcc2|apply Hpad|].
  rewrite E3' in E3. injection E3 as <-. set (r3 := set_typep _ t) in E.
  change (hook_in r1) with (hook_in r) in V9.
  assert (Eh : run_hook r3 = (Ok tt, r3)).
  { unfold run_hook. change (hook_in r3) with (hook_in r2). by rewrite V9, Hhook. }
  rewrite (bind_ok _ _ _ _ _ Eh), !bind_get in E. change (typep r3) with t in E.
  exists t, body, pad. split; [done|]. split; [done|]. split; [done|].
  apply (finish_zero r3 t) with (server := server_side r3) (o := o); try done.
  - split_and!; [|by apply A2|..].
    + change (dir_ok false (newkeys_in r2) (receive_context r2) (d_next d (length pl - d_aad d))). by rewrite V5, V6.
    + change (bytes_ok (stack r2) /\ length (stack r2) = 64%nat). by rewrite S2.
    + change (good (input r2)). by rewrite V1.
    + done.
  - split_and!; [change (mux r3) with (mux r2)|change (packet_discard r3) with (packet_discard r2)|change (hook_in r3) with (hook_in r2)];
      congruence.
  - change (input r3) with (input r2). by rewrite V1.
Qed.

(** The two ways in which a call returns 0. *)
Lemma read_poll2_zero r d g r' :
  awaiting r d g -> listening r -> ssh_packet_read_poll2 r = (Ok 0, r') ->
  (typep r' = SSH_MSG_NONE /\ awaiting r' d g /\ p_read r' = p_read r /\ listening r') \/ accepted r d g r'.
Proof.
  intros Haw Hli E. pose proof Hli as (Hmux & Hdis & Hhook). apply func_zero in E as (o & Hz & E).
  rewrite bind_get, Hmux, bind_modify, bind_get in E. set (r0 := set_typep r SSH_MSG_NONE) in E.
  change (packet_discard r0) with (packet_discard r) in E. rewrite Hdis in E. change (negb (0 =? 0)) with false in E.
  rewrite bind_when_false, bind_get in E. change (newkeys_in r0) with (newkeys_in r) in E.
  assert (Haw0 : awaiting r0 d g) by exact Haw.
  assert (Hv : exists n, dir_ok false (newkeys_in r) (receive_context r) (d_next d n)).
  { destruct Haw as [((Hd & _) & _)|(_ & (Hd & _) & _)]; [exists 0%nat; by rewrite d_next_0|by eexists]. }
  destruct Hv as (n0 & Hd). pose proof (dir_not_cbc _ _ _ _ Hd) as Hn.
  destruct (dir_params _ _ _ _ Hd) as (Hau & _ & _ & Hbl & Haad & Hml & Hco & Hbs & Hmr).
  destruct (d_next_params d n0) as (Na & _ & Nm). rewrite Na in Haad. rewrite Nm in Hml, Hmr.
  cbn [d_next d_state d_block] in Hau, Hbl, Hbs. rewrite taglen_next in Hau.
  apply bind_zero in E as [([] & r1 & El & E)|El]; [|left|done].
  2:{ apply (read_length_waits r0 d g) in El; [|done]. subst r'. by split_and!. }
  apply (read_length_Ok r0 d g) in El as [Hsz (inp & inc & c & len & Er1)]; [|done].
  change (newkeys_in r0) with (newkeys_in r) in Er1.
  pose proof Hsz as (_ & Hrx1 & HL & _ & _ & Hlc & _). unfold PACKET_MAX_SIZE in HL.
  rewrite bind_get, Haad in E. apply bind_when_zero in E as [Hmod E]; [|done|by apply discard_ends].
  rewrite Hbl in *. apply negb_false_iff, Z.eqb_eq in Hmod. destruct (need_nat d (packlen r1) Hbs HL Hmod) as (n & En & Hn1).
  rewrite En in *. pose proof Hrx1 as (_ & _ & _ & Hgi1 & _).
  rewrite (bind_ok _ _ _ _ _ (b_len_ok Input r1 Hgi1)), Hau, Hml in E. cbn [buf] in E.
  assert (Ht : (taglen (d_state d) <= 16)%nat) by (destruct (d_state d); cbn; lia).
  unfold u32 in E at 1. unfold SSH_DIGEST_MAX_LENGTH, PACKET_MAX_SIZE in *. rewrite Z.mod_small in E by lia.
  destruct (Z.ltb_spec (Z.of_nat (length (contents (input r1))))
              (Z.of_nat (d_aad d) + Z.of_nat n + Z.of_nat (taglen (d_state d)) + d_maclen d)) as [Hlt|Hge].
  { left. injection E as _ <-. rewrite Er1. split; [reflexivity|]. split; [|split; [reflexivity|exact Hli]]. rewrite <- Er1. by right. }
  right. rewrite bind_when_false in E. apply bind_zero_fails in E as ([] & r2 & Eb & E); [|done|by apply fails_read_body].
  assert (Ek : newkeys_in r1 = newkeys_in r) by (by rewrite Er1). rewrite <- Ek in Eb.
  assert (Es : seqnr (p_read r1) = seqnr (p_read r)) by (by rewrite Er1).
  destruct (read_body_Ok r1 d g n r2 Hsz Hn1 ltac:(lia) ltac:(lia) Eb) as (pl & rest & Hfr & Hop & Hg & Hno).
  rewrite <- Hno in Eb. rewrite Es in Hg. rewrite Hg in Hop.
  destruct (read_body_spec r1 d (seqnr (p_read r)) pl rest Hop Es Hfr) as (inp2 & inc2 & c2 & nk2 & Eb' & Hrx2 & Hci2 & Hcc2).
  rewrite Eb' in Eb. injection Eb as Er2. rewrite Er2 in Hrx2.
  destruct (deliver_zero r2 d (newkeys_in r) pl rest (u32 (packlen r1 + 4)) (d_block d) o r' Hrx2) as (t & body & pad & Epl & H); try done.
  { rewrite <- Er2. change (listening r1). rewrite Er1. exact Hli. }
  { by rewrite <- Er2. } { by rewrite <- Er2. }
  assert (Ep : seqnr (p_read r2) = seqnr (p_read r)) by (by rewrite <- Er2, <- Es).
  exists t, body, pad, rest. rewrite Ep, Epl in H. rewrite Epl in Hg, Hfr. destruct H as (H1 & H2 & H3). cbv zeta. by split_and!.
Qed.

End accept.
