(* ===== verification/PacketPoll.v ===== *)
(** The loop that takes packets from the input and answers transport messages:
    it ends, and it answers only packets that arrived. *)

From stdpp Require Import base list numbers tactics.
From Stdlib Require Import ZArith Lia ZifyBool.
From S2P Require Import Prelude Sshbuf SshbufGetput Chacha Chachapoly AesCtr Cipher Digest Mac.
From S2P Require Import PacketState Packet PacketBuf PacketSend PacketRecv PacketRead PacketFrame PacketMem PacketThms PacketAuth PacketAccept.

#[local] Open Scope ssh_scope.

(** ** Reading from a buffer leaves it in order *)

Lemma consume_keeps_good b len : good b -> 0 <= len -> good (snd (sshbuf_consume b len)).
Proof.
  intros Hg Hl. destruct (Z.le_gt_cases len (Z.of_nat (length (contents b)))) as [H|H].
  - by destruct (consume_good b len Hg (conj Hl H)) as (b' & -> & Hg' & _).
  - unfold sshbuf_consume. rewrite (wf_sane _ (proj1 Hg)), len_good by done. cbn [negb Z.eqb].
    rewrite (proj2 (Z.eqb_neq len 0)) by lia. by rewrite (proj2 (Z.gtb_lt _ _)) by lia.
Qed.

Ltac by_consume :=
  match goal with |- context [sshbuf_consume ?b ?n] =>
    let H := fresh in
    assert (H : good (snd (sshbuf_consume b n))) by (apply consume_keeps_good; [done|first [lia|apply Z.mod_pos_bound; lia]]);
    destruct (sshbuf_consume b n) as [? ?]; cbn [snd] in H; repeat case_match; exact H end.

Lemma get_u8_keeps_good b : good b -> good (snd (sshbuf_get_u8 b)).
Proof. intros Hg. unfold sshbuf_get_u8. by_consume. Qed.

Lemma get_u32_keeps_good b : good b -> good (snd (sshbuf_get_u32 b)).
Proof. intros Hg. unfold sshbuf_get_u32. by_consume. Qed.

Lemma get_string_direct_keeps_good b : good b -> good (snd (sshbuf_get_string_direct b)).
Proof.
  intros Hg. unfold sshbuf_get_string_direct. destruct (sshbuf_peek_string_direct b) as [[r p] len].
  destruct (r <? 0); [done|]. unfold u64. by_consume.
Qed.

Section poll.
Context {md : MD} {um : Umac} {mdl : MDLaws} {uml : UmacLaws}.

(** ** What handling a message leaves alone *)

(** The incoming packet stays in order; the rest of receiving is not touched. *)
Definition rest_kept (s s' : ssh) : Prop :=
  (good (incoming_packet s) -> good (incoming_packet s')) /\
  (input s', packlen s', p_read s', (receive_context s', newkeys_in s'), (packet_discard s', mux s', hook_in s')) =
  (input s, packlen s, p_read s, (receive_context s, newkeys_in s), (packet_discard s, mux s, hook_in s)).

#[local] Instance rest_kept_preorder : PreOrder rest_kept.
Proof. split; [by split|]. intros s1 s2 s3 [H1 E1] [H2 E2]. split; [auto|congruence]. Qed.

Abbreviation keeps_rest := (steps rest_kept).

Lemma keeps_rx_rest {A} (m : M A) : steps (same_by rx_view) m -> keeps_rest m.
Proof.
  intros H s. pose proof (H s) as E. injection E as E1 E2 E3 E4 E5 E6 E7 E8 E9 E10 E11.
  split; [by rewrite E2|congruence].
Qed.

Lemma rest_in_get {A} (f : sshbuf -> Z * option A * sshbuf) : (forall b, good b -> good (snd (f b))) -> keeps_rest (in_get f).
Proof.
  intros Hf s. unfold in_get. pose proof (Hf (incoming_packet s)) as H. destruct (f _) as [[r v] b]. split; [exact H|reflexivity].
Qed.

Lemma rest_get_string_direct : keeps_rest sshpkt_get_string_direct.
Proof.
  intros s. unfold sshpkt_get_string_direct. pose proof (get_string_direct_keeps_good (incoming_packet s)) as H.
  destruct (sshbuf_get_string_direct _) as [[[r p] l] b]. split; [exact H|reflexivity].
Qed.

Lemma rest_get_string : keeps_rest sshpkt_get_string.
Proof.
  intros s. unfold sshpkt_get_string, sshbuf_get_string. pose proof (get_string_direct_keeps_good (incoming_packet s)) as H.
  destruct (sshbuf_get_string_direct _) as [[[r p] l] b]. destruct (r <? 0); [split; [exact H|reflexivity]|].
  destruct (malloc (alloc s)) as [ok w]. destruct (negb ok); split; (exact H || reflexivity).
Qed.

Lemma transport_message_keeps_rest t : keeps_rest (transport_message t).
Proof.
  pose proof rest_get_string. pose proof rest_get_string_direct. pose proof (keeps_rx_rest _ send_keeps_rx).
  pose proof (fun t => keeps_rx_rest _ (start_keeps_rx t)).
  pose proof (rest_in_get _ get_u8_keeps_good). pose proof (rest_in_get _ get_u32_keeps_good).
  unfold transport_message, got_int, got_string, sshpkt_get_u8, sshpkt_get_u32, sshpkt_put_string. frame.
Qed.

(** ** A turn of the loop *)

(** What is left to do: the octets of the input, and a length that is known. *)
Definition left_over (r : ssh) : nat := length (contents (input r)) + (if packlen r =? 0 then 0 else 1).

Lemma rx_ok_kept r d r' : rx_ok r d -> mem_kept r r' -> rest_kept r r' -> rx_ok r' d.
Proof.
  intros (Hd & Ha & [Hb Hl] & Hgi & Hgc) [A S] [G E]. injection E as E1 E2 E3 E4 E5 E6 E7 E8.
  split_and!; [by rewrite E4, E5|by apply A|split; by rewrite S|by rewrite E1|by apply G].
Qed.

(** A delivered packet takes something away. *)
Lemma accepted_less r d g r' :
  awaiting r d g -> accepted r d g r' -> (left_over r' < left_over r)%nat.
Proof.
  intros Haw (t & body & pad & rest & Hg & _ & Hfr & _ & _ & _ & Hci & Hpk & _). set (pl := plain (t :: body) pad) in *.
  unfold left_over. rewrite Hci, Hpk. change (0 =? 0) with true. cbv iota. pose proof Hfr as (_ & Hl9 & _).
  assert (Hv : dir_valid d) by (destruct Haw as [((? & _) & _)|(? & _)]; [by eexists _, _, _|done]).
  assert (Hbs : d_block d = 8 \/ d_block d = 16) by (destruct Hv as (e & nk & cc & Hd); apply dir_params in Hd; tauto).
  pose proof (d_aad_le d) as Ha4. destruct (framed_facts d pl Hfr Hbs) as (_ & _ & _ & Hf & _).
  pose proof (length_wire d (seqnr (p_read r)) pl Hv ltac:(lia)) as Hlw.
  assert (Hml : 0 <= d_maclen d) by (destruct Hv as (e & nk & cc & Hd); apply dir_params in Hd; lia).
  apply (f_equal length) in Hg. rewrite length_app in Hg.
  destruct Haw as [(_ & -> & Hc)|(_ & _ & Hp & _ & Hc & _)].
  - rewrite Hc. change (0 =? 0) with true. cbv iota. lia.
  - rewrite Hc, length_drop, (proj2 (Z.eqb_neq (packlen r) 0)) by lia. lia.
Qed.

(** A turn after which the loop goes on. *)
Lemma poll_turn_again r d g r' :
  awaiting r d g -> listening r -> poll_turn r = (Ok Again, r') ->
  exists r1 t body pad rest, let pl := plain (t :: body) pad in
    ssh_packet_read_poll2 r = (Ok 0, r1) /\ accepted r d g r1 /\ 
    g = wire d (seqnr (p_read r)) pl ++ rest /\
    awaiting r' (d_next d (length pl - d_aad d)) rest /\ listening r' /\ (left_over r' < left_over r)%nat.
Proof.
  intros Haw Hli E. unfold poll_turn in E. apply bind_check_Ok in E as (r1 & E1 & E).
  destruct (read_poll2_zero r d g r1 Haw Hli E1) as [(Ht & _)|Hacc]; rewrite bind_get in E.
  { by rewrite Ht in E. }
  pose proof (accepted_less r d g r1 Haw Hacc) as Hless.
  pose proof Hacc as (t & body & pad & rest & Hg & Hpad & Hfr & Hmin & Ht & Hcc & Hci & Hpk & Hrx & (Hmux & Hdis & Hhook) & _).
  unfold SSH2_MSG_MIN in Hmin. rewrite Ht, (proj2 (Z.eqb_neq t 0)), bind_modify in E by lia.
  apply bind_when_Ok in E as [_ E].
  2:{ intros u u' H. apply bind_Ok in H as (? & ? & _ & H). by apply then_early_not_Ok in H. }
  rewrite bind_get in E. set (r2 := set_keep_alive_timeouts r1 0) in E. destruct (strict_initial r2); [done|].
  pose proof (stepped mem_kept _ _ _ _ (transport_message_keeps_mem t) E) as Hm.
  pose proof (stepped rest_kept _ _ _ _ (transport_message_keeps_rest t) E) as Hr.
  exists r1, t, body, pad, rest. cbv zeta. split; [done|]. split; [done|]. split; [done|].
  assert (Hrx2 : rx_ok r' (d_next d (length (plain (t :: body) pad) - d_aad d))) by (by apply (rx_ok_kept r2)).
  destruct Hr as [_ Hr]. injection Hr as R1 R2 R3 R4 R5 R6 R7 R8.
  change (input r2) with (input r1) in R1. change (packlen r2) with (packlen r1) in R2.
  change (packet_discard r2) with (packet_discard r1) in R6. change (mux r2) with (mux r1) in R7. change (hook_in r2) with (hook_in r1) in R8.
  split; [left; split; [done|split; congruence]|]. split; [split_and!; congruence|].
  unfold left_over at 1. rewrite R1, R2. exact Hless.
Qed.

(** [n] turns after which the loop goes on. *)
Inductive again : nat -> ssh -> ssh -> Prop :=
| again_0 r : again 0 r r
| again_S n r r1 r2 : poll_turn r = (Ok Again, r1) -> again n r1 r2 -> again (S n) r r2.

Lemma poll_loop_ends m r d g :
  awaiting r d g -> listening r -> (left_over r < m)%nat ->
  exists n r1, again n r r1 /\ (n <= left_over r)%nat /\ (forall r2, poll_turn r1 <> (Ok Again, r2)) /\
    forall fuel, (m <= fuel)%nat -> poll_loop fuel r = (let* _h := poll_turn in ret 0) r1.
Proof.
  revert r d g. induction m as [|m IH]; intros r d g Haw Hli Hm; [lia|].
  destruct (poll_turn r) as [o r1] eqn:E.
  assert (Hdec : o = Ok Again \/ o <> Ok Again) by (destruct o as [[]|e|]; (by left) || by right).
  destruct Hdec as [->|Hne].
  - destruct (poll_turn_again r d g r1 Haw Hli E) as (_ & t & body & pad & rest & _ & _ & _ & Haw1 & Hli1 & Hlt).
    destruct (IH r1 _ _ Haw1 Hli1 ltac:(lia)) as (n & r2 & Ha & Hn & Hend & Hloop).
    exists (S n), r2. split; [by apply (again_S n r r1)|]. split; [lia|]. split; [done|].
    intros [|fuel] Hf; [lia|]. cbn [poll_loop]. rewrite (bind_ok _ _ _ _ _ E). apply Hloop. lia.
  - exists 0%nat, r. split; [constructor|]. split; [lia|]. split; [rewrite E; congruence|].
    intros [|fuel] Hf; [lia|]. cbn [poll_loop]. unfold bind. rewrite E. by destruct o as [[]|e|].
Qed.

Lemma left_over_fuel r : (left_over r < poll_fuel r)%nat.
Proof. unfold left_over, poll_fuel. destruct (packlen r =? 0); lia. Qed.

(** C24: The loop of ssh_packet_read_poll_seqnr ends, whatever octets have arrived:
    after fewer turns than there are octets in the input and two, a turn comes
    that does not go on (it delivers a packet or nothing, fails, or ends the
    process), and the result of the function is the result of that turn. *)
Theorem poll_terminates r d g :
  awaiting r d g -> listening r ->
  exists n r1, again n r r1 /\ (n < poll_fuel r)%nat /\ (forall r2, poll_turn r1 <> (Ok Again, r2)) /\
    ssh_packet_read_poll_seqnr r = func (let* _h := poll_turn in ret 0) r1.
Proof.
  intros Haw Hli. pose proof (left_over_fuel r) as Hf.
  destruct (poll_loop_ends (poll_fuel r) r d g Haw Hli Hf) as (n & r1 & Ha & Hn & Hend & Hloop).
  exists n, r1. split; [done|]. split; [lia|]. split; [done|].
  unfold ssh_packet_read_poll_seqnr, func. by rewrite Hloop.
Qed.

End poll.
