(* ===== verification/PacketAcceptThms.v ===== *)
(** Integrity of a connection: in any session of arrivals and calls that read,
    the packets that come out are the ones that the arrived octets spell. *)

From stdpp Require Import base list numbers tactics.
From Stdlib Require Import ZArith Lia ZifyBool.
From S2P Require Import Prelude Sshbuf SshbufGetput Chacha Chachapoly AesCtr Cipher Digest Mac.
From S2P Require Import PacketState Packet PacketBuf PacketSend PacketRecv PacketRead PacketFrame PacketThms PacketAuth PacketAccept PacketPoll.

#[local] Open Scope ssh_scope.

Section thms.
Context {md : MD} {um : Umac} {mdl : MDLaws} {uml : UmacLaws}.

(** What happens at the receiving end: octets arrive, or it looks for a packet. *)
Inductive act := Arrive (data : list Z) | Look.

(** A session, up to the first error: the packets that were delivered. *)
Fixpoint session (acts : list act) : M (list (Z * list Z)) :=
  match acts with
  | [] => ret []
  | Arrive data :: acts => check (ssh_packet_process_incoming data (Z.of_nat (length data))) ;* session acts
  | Look :: acts =>
      check ssh_packet_read_poll2 ;*
      let* p := get (fun s => (typep s, contents (incoming_packet s))) in
      let* ps := session acts in
      ret (if fst p =? SSH_MSG_NONE then ps else p :: ps)
  end.

Definition arrived (acts : list act) : list Z :=
  concat (map (fun a => match a with Arrive data => data | Look => [] end) acts).

(** [pl] is the packet [p] with padding, as any peer may choose it. *)
Definition padded (d : dir) (p : Z * list Z) (pl : list Z) : Prop :=
  exists pad, pl = plain (fst p :: snd p) pad /\ pad_ok d (fst p :: snd p) pad.

Lemma padded_next d n p pl : padded (d_next d n) p pl -> padded d p pl.
Proof. unfold padded, pad_ok. destruct (d_next_params d n) as (-> & _). done. Qed.

Lemma put_too_long w b v len :
  good b -> Z.of_nat (length (contents b)) + len > SSHBUF_SIZE_MAX -> sshbuf_put w b v len = (SSH_ERR_NO_BUFFER_SPACE, b, w).
Proof.
  intros (Hw & Hwr & Hm) Hl. unfold sshbuf_put, sshbuf_reserve, sshbuf_allocate. rewrite check_reserve_spec, Hwr, Hm by done.
  cbn [negb]. by rewrite (proj2 (Z.gtb_lt _ _)) by lia.
Qed.

(** Octets that arrive are kept. *)
Lemma arrive_awaiting r d g data r' :
  awaiting r d g -> listening r -> bytes_ok data ->
  check (ssh_packet_process_incoming data (Z.of_nat (length data))) r = (Ok tt, r') ->
  awaiting r' d (g ++ data) /\ listening r' /\ p_read r' = p_read r.
Proof.
  intros Haw Hli Hb E. pose proof Hli as (_ & Hdis & _).
  assert (Hin : good (input r) /\ alloc r = []) by (destruct Haw as [((_ & ? & _ & ? & _) & _)|(_ & (_ & ? & _ & ? & _) & _)]; done).
  destruct Hin as [Hgi Ha].
  assert (E' : b_put Input data (Z.of_nat (length data)) r = (Ok 0, r')).
  { unfold ssh_packet_process_incoming, check, bind, func, get in E. rewrite Hdis in E. cbn [negb Z.eqb] in E.
    unfold check, bind in E. destruct (b_put Input data (Z.of_nat (length data)) r) as [[e|e|] r1] eqn:E1; [| |done].
    - destruct (Z.eqb_spec e 0) as [->|Hne]; [by injection E as <-|]. cbn in E. by rewrite (proj2 (Z.eqb_neq e 0)) in E.
    - exfalso. revert E1. unfold b_put, b_alloc. by destruct (sshbuf_put _ _ _ _) as [[? ?] ?]. }
  destruct (Z.le_gt_cases (Z.of_nat (length (contents (input r))) + Z.of_nat (length data)) SSHBUF_SIZE_MAX) as [Hfit|Hbig].
  - destruct (b_put_ok Input r data (Z.of_nat (length data))) as (inp & Ep & Hg & Hc); try done; [lia|].
    rewrite Ep in E'. injection E' as <-. cbn [buf] in Hc. rewrite Nat2Z.id, take_ge in Hc by lia.
    split; [|by split].
    destruct Haw as [((Hd & _ & Hst & _ & Hgc) & Hpk & Eg)|(Hv & (Hd & _ & Hst & _ & Hgc) & Hpk & Hn & Eg & Hl & Hcase)]; [left|right].
    + split; [by split_and!|]. split; [done|]. cbn. by rewrite Hc, Eg.
    + assert (Hf : (d_first d <= length g)%nat) by (unfold d_first, d_need in *; destruct (_ =? _)%nat; lia).
      split; [done|]. split; [by split_and!|]. split; [done|]. split; [rewrite length_app; lia|].
      split; [cbn; rewrite Hc, Eg; by rewrite drop_app_le|]. split; [done|]. cbn.
      destruct (d_aad_cases d) as [(H0 & _)|H4]; [rewrite H0 in *|rewrite H4 in *]; cbn [Nat.eqb] in *.
      * by rewrite take_app_le.
      * unfold d_need in Hn. rewrite H4 in Hn. cbn in Hn. by rewrite take_app_le by lia.
  - exfalso. revert E'. unfold b_put, b_alloc. cbn [buf]. rewrite put_too_long by (done || lia). by intros [=].
Qed.

(** What is delivered in a session, packet by packet. *)
Lemma session_spec acts : forall r d g ps r',
  awaiting r d g -> listening r -> Forall (fun a => match a with Arrive data => bytes_ok data | Look => True end) acts ->
  session acts r = (Ok ps, r') -> Forall (fun p => fst p <> SSH2_MSG_NEWKEYS) ps ->
  exists pls rest, g ++ arrived acts = stream d (seqnr (p_read r)) pls ++ rest /\ Forall2 (padded d) ps pls /\
    awaiting r' (d_after d pls) rest /\ listening r'.
Proof.
  induction acts as [|[data|] acts IH]; intros r d g ps r' Haw Hli Hb E Hps; cbn [session] in E.
  - injection E as <- <-. exists [], g. split_and!; try done. cbn. apply app_nil_r.
  - apply Forall_cons_1 in Hb as [Hd Hb]. apply bind_Ok in E as ([] & r1 & E1 & E).
    destruct (arrive_awaiting r d g data r1 Haw Hli Hd E1) as (Haw1 & Hli1 & Hp).
    destruct (IH r1 d (g ++ data) ps r' Haw1 Hli1 Hb E Hps) as (pls & rest & Hs & H).
    exists pls, rest. rewrite Hp in Hs. split; [|done]. rewrite <- Hs. unfold arrived. cbn [map concat]. apply app_assoc.
  - apply Forall_cons_1 in Hb as [_ Hb]. apply bind_check_Ok in E as (r1 & E1 & E). rewrite bind_get in E.
    apply bind_Ok in E as (ps1 & r2 & E2 & E). cbn [fst] in E. injection E as <- <-.
    destruct (read_poll2_zero r d g r1 Haw Hli E1) as [(Ht & Haw1 & Hp & Hli1)|(t & body & pad & rest & Hg & Hpad & Hfr & Hmin & Htk)].
    + rewrite Ht in Hps. destruct (IH r1 d g ps1 r2 Haw1 Hli1 Hb E2 Hps) as (pls & rest & Hs & H). rewrite Hp in Hs.
      exists pls, rest. rewrite Ht. by split.
    + destruct Htk as (Ht & Hcc & Hci & Hpk & Hrx & Hli1 & Hsq). unfold SSH2_MSG_MIN, SSH_MSG_NONE in *.
      rewrite Ht, (proj2 (Z.eqb_neq t 0)) in Hps by lia. apply Forall_cons_1 in Hps as [Hnk Hps]. cbn [fst] in Hnk.
      set (pl := plain (t :: body) pad) in *.
      destruct (IH r1 (d_next d (length pl - d_aad d)) rest ps1 r2 ltac:(by left) Hli1 Hb E2 Hps) as (pls & rest' & Hs & Hf & H).
      exists (pl :: pls), rest'. rewrite Ht, Hcc, (proj2 (Z.eqb_neq t 0)) by lia. split; [|split; [|exact H]].
      * cbn [stream]. rewrite <- app_assoc, <- (Hsq Hnk), <- Hs, Hg, <- app_assoc. done.
      * constructor; [by exists pad|]. eapply Forall2_impl; [|exact Hf]. intros p q. apply padded_next.
Qed.

(** C2: Whatever octets arrive at the receiving end of a direction, in whatever
    pieces and however often it looks for a packet in between, for every cipher
    and mac of the tables and before there are keys: as long as no error is
    reported, the packets delivered are exactly those of which the octets are the
    wire form (encrypted with the keys of the direction, the macs right for the
    sequence numbers counted from the first), in this order and with nothing
    left out, and the octets after them are still held.  Up to a NEWKEYS. *)
Theorem session_authentic r d acts ps r' :
  rx_ok r d -> packlen r = 0 -> contents (input r) = [] -> listening r ->
  Forall (fun a => match a with Arrive data => bytes_ok data | Look => True end) acts ->
  session acts r = (Ok ps, r') -> Forall (fun p => fst p <> SSH2_MSG_NEWKEYS) ps ->
  exists pls rest, arrived acts = stream d (seqnr (p_read r)) pls ++ rest /\ Forall2 (padded d) ps pls /\
    awaiting r' (d_after d pls) rest.
Proof.
  intros Hrx Hpk Hi Hli Hb E Hps.
  destruct (session_spec acts r d [] ps r' ltac:(by left) Hli Hb E Hps) as (pls & rest & H1 & H2 & H3 & _).
  by exists pls, rest.
Qed.

(** ** The size of what is sent *)

Lemma after_send_keeps_output t server : steps (same_by output) (func (after_send t server)).
Proof.
  assert (Hi : steps (same_by output) ssh_packet_init_compression).
  { intros s. unfold ssh_packet_init_compression. destruct (compression_buffer s); [reflexivity|]. by destruct (sshbuf_new _). }
  assert (Hs : forall m, steps (same_by output) (start_compression m)) by (intros []; intros s; reflexivity).
  unfold after_send, ssh_set_newkeys, set_mac, ssh_packet_enable_delayed_compress, delayed_compress. frame.
Qed.


End thms.

#[local] Existing Instances demo_md demo_md_laws demo_umac demo_umac_laws.

(** Two pieces of octets with one packet and the start of another. *)
Definition demo_acts : list act :=
  [Look; Arrive [0; 0; 0; 12; 7; 20; 1; 2]; Look; Arrive [3; 0; 0; 0; 0; 0; 0; 0; 0; 0; 9]; Look; Look].

Lemma session_authentic_witness :
  exists r r' pls rest, fresh [] (replicate 64 7) true = Some r /\ session demo_acts r = (Ok [(20, [1; 2; 3])], r') /\
    arrived demo_acts = stream d_none 0 pls ++ rest /\ Forall2 (padded d_none) [(20, [1; 2; 3])] pls.
Proof.
  destruct (fresh_conn_ok [] (replicate 64 7) true) as (r & Er & _ & Hrx & _ & Hi & Hpk & _ & Hpr & _ & Hlr).
  { apply Forall_replicate. unfold is_byte. lia. } { done. }
  destruct (Hlr 1 0 ltac:(lia) ltac:(lia)) as (H1 & H2 & H3 & _).
  destruct (session demo_acts r) as [o r'] eqn:E.
  assert (Eo : option_map (fun r => fst (session demo_acts r)) (fresh [] (replicate 64 7) true) = Some (Ok [(20, [1; 2; 3])]))
    by (vm_compute; reflexivity).
  rewrite Er in Eo. cbn [option_map] in Eo. rewrite E in Eo. injection Eo as ->. destruct (session_authentic r d_none demo_acts [(20, [1; 2; 3])] r') as (pls & rest & Hs & Hf & _); try done.
  - repeat (apply Forall_cons_2; [|]); try apply Forall_nil_2; try done; repeat (apply Forall_cons_2; [unfold is_byte; lia|]); apply Forall_nil_2.
  - by apply Forall_cons_2; [|apply Forall_nil_2].
  - exists r, r', pls, rest. rewrite Hpr in Hs. by split_and!.
Defined.

(** An SSH2_MSG_IGNORE that has arrived: the loop reads on behind it. *)
Lemma poll_terminates_witness :
  exists r0 r n r1, fresh [] (replicate 64 7) true = Some r0 /\
    check (ssh_packet_process_incoming [0; 0; 0; 12; 10; 2; 0; 0; 0; 0; 0; 0; 0; 0; 0; 0] 16) r0 = (Ok tt, r) /\
    again n r r1 /\ (n < poll_fuel r)%nat /\ (forall r2, poll_turn r1 <> (Ok Again, r2)) /\
    ssh_packet_read_poll_seqnr r = func (let* _h := poll_turn in ret 0) r1.
Proof.
  destruct (fresh_conn_ok [] (replicate 64 7) true) as (r0 & Er & _ & Hrx & _ & Hi & Hpk & _ & Hpr & _ & Hlr).
  { apply Forall_replicate. unfold is_byte. lia. } { done. }
  destruct (Hlr 1 0 ltac:(lia) ltac:(lia)) as (H1 & H2 & H3 & _).
  set (data := [0; 0; 0; 12; 10; 2; 0; 0; 0; 0; 0; 0; 0; 0; 0; 0]).
  destruct (check (ssh_packet_process_incoming data 16) r0) as [o r] eqn:E.
  assert (Eo : option_map (fun r => fst (check (ssh_packet_process_incoming data 16) r)) (fresh [] (replicate 64 7) true) = Some (Ok tt))
    by (vm_compute; reflexivity).
  rewrite Er in Eo. cbn [option_map] in Eo. rewrite E in Eo. injection Eo as ->.
  destruct (arrive_awaiting r0 d_none [] data r) as (Haw & Hli & _); [by left|done| |done|].
  { repeat (apply Forall_cons_2; [unfold is_byte; lia|]). apply Forall_nil_2. }
  destruct (poll_terminates r d_none data Haw Hli) as (n & r1 & H). by exists r0, r, n, r1.
Defined.

(** A first packet of four octets, with padding to 40 octets asked for. *)
Definition demo_build : M Z := check (sshpkt_start 30) ;* check (sshpkt_put [0; 0; 0; 7] 4) ;* sshpkt_add_padding 40.

Lemma demo_build_spec s0 d :
  tx_ok s0 d -> contents (output s0) = [] ->
  exists s, demo_build s0 = (Ok 0, s) /\ tx_ok (set_extra_pad s 0) d /\ extra_pad s = 40 /\ output s = output s0 /\
    contents (outgoing_packet s) = [0; 0; 0; 0; 0; 30; 0; 0; 0; 7] /\ kexp s = kexp s0 /\ p_send s = p_send s0.
Proof.
  intros (Hd & Ha & Hst & Hgo & Hg & Hmx & _) Hout.
  destruct (b_reset_ok Outgoing s0 Hgo Ha) as (b1 & E1 & Hg1 & Hc1). set (s1 := set_buf Outgoing s0 b1) in E1.
  assert (Hb : forall l, Forall (fun x => 0 <= x < 256) l -> bytes_ok l) by (intros l H; exact H).
  destruct (b_put_ok Outgoing s1 [0; 0; 0; 0; 0; 30] 6) as (b2 & E2 & Hg2 & Hc2); [done|done|by apply Hb; repeat constructor|cbn; lia| |].
  { change (buf Outgoing s1) with b1. rewrite Hc1. unfold SSHBUF_SIZE_MAX. cbn. lia. }
  change (buf Outgoing s1) with b1 in Hc2. rewrite Hc1 in Hc2. set (s2 := set_buf Outgoing s1 b2) in E2.
  destruct (b_put_ok Outgoing s2 [0; 0; 0; 7] 4) as (b3 & E3 & Hg3 & Hc3); [done|done|by apply Hb; repeat constructor|cbn; lia| |].
  { change (buf Outgoing s2) with b2. rewrite Hc2. vm_compute; congruence. }
  change (buf Outgoing s2) with b2 in Hc3. rewrite Hc2 in Hc3. set (s3 := set_buf Outgoing s2 b3) in E3.
  exists (set_extra_pad s3 40). split; [|split; [by split_and!|]; by split_and!].
  unfold demo_build, sshpkt_start, sshpkt_put. unfold check at 1. rewrite !bind_assoc, (bind_ok _ _ _ _ _ E1), (bind_ok _ _ _ _ _ E2).
  change (negb (0 =? 0)) with false. cbv iota. by rewrite bind_ret, (bind_check _ _ _ _ E3).
Qed.

