(* ===== verification/KexNames.v ===== *)
(** Algorithm names of the key exchange (kex.c, compat.c, sshkey.c): the table of
    methods, name lists put together from a configuration, and the proposal that
    is sent.  The build without OpenSSL: the table holds the methods on curve
    25519 only. *)

From stdpp Require Import base list numbers tactics.
From Stdlib Require Import ZArith Lia ZifyBool.
From S2P Require Import Prelude Sshbuf Match.

Definition KEX_C25519_SHA256 : Z := 8.
Definition KEX_KEM_SNTRUP761X25519_SHA512 : Z := 9.
Definition KEX_MAX : Z := 10.


Record kexalg := mk_kexalg { ka_name : list Z; ka_type : Z; ka_ec_nid : Z; ka_hash_alg : Z }.

Definition kexalgs : list kexalg := [
  mk_kexalg (chars "curve25519-sha256") KEX_C25519_SHA256 0 SSH_DIGEST_SHA256;
  mk_kexalg (chars "curve25519-sha256@libssh.org") KEX_C25519_SHA256 0 SSH_DIGEST_SHA256;
  mk_kexalg (chars "sntrup761x25519-sha512@openssh.com") KEX_KEM_SNTRUP761X25519_SHA512 0 SSH_DIGEST_SHA512].

(** The loop of [kex_alg_list]; [ret] is the list so far, if any. *)
Fixpoint kex_alg_list_loop (w : world) (ks : list kexalg) (sep : Z) (ret : option (list Z))
  : option (list Z) * world :=
  match ks with
  | [] => (ret, w)
  | k :: ks =>
      let '(ok, w) := malloc w in
      if negb ok then (None, w)
      else kex_alg_list_loop w ks sep (Some (match ret with None => [] | Some l => l ++ [sep] end ++ ka_name k))
  end.

Definition kex_alg_list (w : world) (sep : Z) : option (list Z) * world := kex_alg_list_loop w kexalgs sep None.

Definition kex_alg_by_name (name : list Z) : option kexalg :=
  List.find (fun k => bool_decide (ka_name k = name)) kexalgs.

(** The loop of [kex_names_valid] over the tokens; [cp] is what is left. *)
Fixpoint kex_names_valid_loop (fuel : nat) (cp : option (list Z)) : bool :=
  match fuel, cp with
  | S fuel, Some s =>
      let '(p, cp) := strsep COMMA s in
      match p with
      | [] => true
      | _ => match kex_alg_by_name p with None => false | Some _ => kex_names_valid_loop fuel cp end
      end
  | _, _ => true
  end.

Definition kex_names_valid (w : world) (names : option (list Z)) : bool * world :=
  match names with
  | None | Some [] => (false, w)
  | Some names =>
      let '(ok, w) := malloc w in
      if negb ok then (false, w) else (kex_names_valid_loop (S (length names)) (Some names), w)
  end.

(** Non-zero if [proposal] contains any algorithm of [algs]. *)
Definition has_any_alg (proposal algs : list Z) : bool :=
  match fst (match_list proposal algs) with None => false | Some _ => true end.

Definition strdup (w : world) (s : list Z) : option (list Z) * world :=
  let '(ok, w) := malloc w in (if ok then Some s else None, w).

(** The loop of [kex_names_cat]; strlcat returns the length it tried to make. *)
Fixpoint names_cat_loop (fuel len : nat) (cp : option (list Z)) (ret : list Z) : option (list Z) :=
  match fuel, cp with
  | S fuel, Some s =>
      let '(p, cp) := strsep COMMA s in
      match p with
      | [] => Some ret
      | _ =>
          if has_any_alg ret p then names_cat_loop fuel len cp ret (* Algorithm already present *)
          else
            let ret1 := strlcat ret [COMMA] len in
            if (len <=? length ret + 1)%nat || (len <=? length ret1 + length p)%nat
            then None (* Shouldn't happen *)
            else names_cat_loop fuel len cp (strlcat ret1 p len)
      end
  | _, _ => Some ret
  end.

(** [a] may be null. *)
Definition kex_names_cat (w : world) (a : option (list Z)) (b : list Z) : option (list Z) * world :=
  match a with
  | None | Some [] => strdup w b
  | Some a =>
      if (length b =? 0)%nat then strdup w a
      else if Z.of_nat (length b) >? 1024 * 1024 then (None, w)
      else
        let len := (length a + length b + 2)%nat in
        match strdup w b with
        | (None, w) => (None, w)
        | (Some tmp, w) =>
            let '(ok, w) := malloc w in
            if negb ok then (None, w)
            else (names_cat_loop (S (length b)) len (Some tmp) (strlcat [] a len), w)
        end
  end.

(** The loop of [kex_assemble_names] over the patterns: the result, and the
    list so far. *)
Fixpoint assemble_loop (fuel : nat) (w : world) (all : list Z) (patterns : option (list Z)) (ret : option (list Z))
  : Z * option (list Z) * world :=
  match fuel, patterns with
  | S fuel, Some s =>
      let '(cp, patterns) := strsep COMMA s in
      if bool_decide (head cp = Some 33)
      then (SSH_ERR_INVALID_ARGUMENT, ret, w) (* negated matches are not supported here *)
      else
        match match_filter_allowlist w all cp with
        | (None, w) => (SSH_ERR_ALLOC_FAIL, ret, w)
        | (Some matching, w) =>
            match kex_names_cat w ret matching with
            | (None, w) => (SSH_ERR_ALLOC_FAIL, ret, w)
            | (Some tmp, w) => assemble_loop fuel w all patterns (Some tmp)
            end
        end
  | _, _ => (0, ret, w)
  end.

(** Patterns applied to the list [list]. *)
Definition assemble_patterns (w : world) (names all : list Z) : Z * option (list Z) * world :=
  match strdup w names with
  | (None, w) => (SSH_ERR_ALLOC_FAIL, None, w)
  | (Some patterns, w) =>
      match assemble_loop (S (length patterns)) w all (Some patterns) None with
      | (0, Some (x :: ret), w) => (0, Some (x :: ret), w)
      | (0, _, w) => (SSH_ERR_INVALID_ARGUMENT, None, w) (* An empty name-list is an error *)
      | (r, _, w) => (r, None, w)
      end
  end.

(** The result and [*listp]; none of the arguments is a null pointer. *)
Definition kex_assemble_names (w : world) (listp : option (list Z)) (def all : list Z)
  : Z * option (list Z) * world :=
  match listp with
  | None | Some [] =>
      match strdup w def with
      | (None, w) => (SSH_ERR_ALLOC_FAIL, None, w)
      | (Some l, w) => (0, Some l, w)
      end
  | Some (c :: names) =>
      if c =? 43 then (* '+': append names to default list *)
        match kex_names_cat w (Some def) names with
        | (None, w) => (SSH_ERR_ALLOC_FAIL, None, w)
        | (Some tmp, w) => assemble_patterns w tmp all
        end
      else if c =? 45 then (* '-': remove names from default list; filtering is then done *)
        match match_filter_denylist w def names with
        | (None, w) => (SSH_ERR_ALLOC_FAIL, None, w)
        | (Some l, w) => (0, Some l, w)
        end
      else if c =? 94 then (* '^': place names at head of default list *)
        match kex_names_cat w (Some names) def with
        | (None, w) => (SSH_ERR_ALLOC_FAIL, None, w)
        | (Some tmp, w) => assemble_patterns w tmp all
        end
      else assemble_patterns w (c :: names) all
  end.

(** ** Host key algorithms (sshkey.c) *)

Definition KEY_ED25519 : Z := 3.
Definition KEY_ED25519_CERT : Z := 7.
Definition KEY_UNSPEC : Z := 14.

Record sshkey_impl := mk_impl { impl_name : list Z; impl_shortname : list Z; impl_type : Z; impl_nid : Z; impl_cert : bool }.

Definition keyimpls : list sshkey_impl := [
  mk_impl (chars "ssh-ed25519") (chars "ED25519") KEY_ED25519 0 false;
  mk_impl (chars "ssh-ed25519-cert-v01@openssh.com") (chars "ED25519-CERT") KEY_ED25519_CERT 0 true].

Definition strcasecmp_eq (a b : list Z) : bool := bool_decide (lowercase a = lowercase b).

Definition sshkey_type_from_name (name : list Z) : Z :=
  match List.find (fun i => bool_decide (name = impl_name i) ||
                            (negb (impl_cert i) && strcasecmp_eq (impl_shortname i) name)) keyimpls with
  | Some i => impl_type i
  | None => KEY_UNSPEC
  end.

Definition KEY_ECDSA : Z := 2.
Definition KEY_ECDSA_CERT : Z := 6.
Definition KEY_ECDSA_SK : Z := 10.
Definition KEY_ECDSA_SK_CERT : Z := 11.

Definition key_type_is_ecdsa_variant (type : Z) : bool :=
  (type =? KEY_ECDSA) || (type =? KEY_ECDSA_CERT) || (type =? KEY_ECDSA_SK) || (type =? KEY_ECDSA_SK_CERT).

Definition sshkey_ecdsa_nid_from_name (name : list Z) : Z :=
  match List.find (fun i => key_type_is_ecdsa_variant (impl_type i) && bool_decide (name = impl_name i)) keyimpls with
  | Some i => impl_nid i
  | None => -1
  end.

(** ** The proposal that is sent *)

Definition PROPOSAL_KEX_ALGS : nat := 0.
Definition PROPOSAL_SERVER_HOST_KEY_ALGS : nat := 1.
Definition PROPOSAL_ENC_ALGS_CTOS : nat := 2.
Definition PROPOSAL_ENC_ALGS_STOC : nat := 3.
Definition PROPOSAL_MAC_ALGS_CTOS : nat := 4.
Definition PROPOSAL_MAC_ALGS_STOC : nat := 5.
Definition PROPOSAL_COMP_ALGS_CTOS : nat := 6.
Definition PROPOSAL_COMP_ALGS_STOC : nat := 7.
Definition PROPOSAL_LANG_CTOS : nat := 8.
Definition PROPOSAL_LANG_STOC : nat := 9.
Definition PROPOSAL_MAX : nat := 10.

(** myproposal.h *)
Definition KEX_SERVER_KEX : list Z :=
  chars "sntrup761x25519-sha512@openssh.com,curve25519-sha256,curve25519-sha256@libssh.org,ecdh-sha2-nistp256,ecdh-sha2-nistp384,ecdh-sha2-nistp521,diffie-hellman-group-exchange-sha256,diffie-hellman-group16-sha512,diffie-hellman-group18-sha512,diffie-hellman-group14-sha256".
Definition KEX_DEFAULT_PK_ALG : list Z :=
  chars "ssh-ed25519-cert-v01@openssh.com,ecdsa-sha2-nistp256-cert-v01@openssh.com,ecdsa-sha2-nistp384-cert-v01@openssh.com,ecdsa-sha2-nistp521-cert-v01@openssh.com,sk-ssh-ed25519-cert-v01@openssh.com,sk-ecdsa-sha2-nistp256-cert-v01@openssh.com,rsa-sha2-512-cert-v01@openssh.com,rsa-sha2-256-cert-v01@openssh.com,ssh-ed25519,ecdsa-sha2-nistp256,ecdsa-sha2-nistp384,ecdsa-sha2-nistp521,sk-ssh-ed25519@openssh.com,sk-ecdsa-sha2-nistp256@openssh.com,rsa-sha2-512,rsa-sha2-256".
Definition KEX_SERVER_ENCRYPT : list Z :=
  chars "chacha20-poly1305@openssh.com,aes128-ctr,aes192-ctr,aes256-ctr,aes128-gcm@openssh.com,aes256-gcm@openssh.com".
Definition KEX_SERVER_MAC : list Z :=
  chars "umac-64-etm@openssh.com,umac-128-etm@openssh.com,hmac-sha2-256-etm@openssh.com,hmac-sha2-512-etm@openssh.com,hmac-sha1-etm@openssh.com,umac-64@openssh.com,umac-128@openssh.com,hmac-sha2-256,hmac-sha2-512,hmac-sha1".
Definition KEX_DEFAULT_COMP : list Z := chars "none,zlib@openssh.com".
Definition KEX_DEFAULT_LANG : list Z := [].

(** The lists of the server and the client are the same. *)
Definition defprop : list (list Z) :=
  [KEX_SERVER_KEX; KEX_DEFAULT_PK_ALG; KEX_SERVER_ENCRYPT; KEX_SERVER_ENCRYPT; KEX_SERVER_MAC; KEX_SERVER_MAC;
   KEX_DEFAULT_COMP; KEX_DEFAULT_COMP; KEX_DEFAULT_LANG; KEX_DEFAULT_LANG].

Definition SSH_BUG_CURVE25519PAD : Z := 0x10000000.
Definition SSH_OLD_DHGEX : Z := 0x00004000.

(** compat.c; [None] is the end of the process, which [xstrdup] is without
    memory. *)
Definition compat_kex_proposal (w : world) (compat : Z) (p : list Z) : option (list Z) * world :=
  if Z.land compat (Z.lor SSH_BUG_CURVE25519PAD SSH_OLD_DHGEX) =? 0 then (Some p, w)
  else
    let '(cp, w) :=
      if negb (Z.land compat SSH_BUG_CURVE25519PAD =? 0)
      then match_filter_denylist w p (chars "curve25519-sha256@libssh.org") else (Some p, w) in
    match cp with
    | None => (None, w)
    | Some cp =>
        let '(cp, w) :=
          if negb (Z.land compat SSH_OLD_DHGEX =? 0)
          then match_filter_denylist w cp (chars "diffie-hellman-group-exchange-sha256,diffie-hellman-group-exchange-sha1")
          else (Some cp, w) in
        match cp with
        | None | Some [] => (None, w) (* No supported key exchange algorithms found *)
        | Some cp => (Some cp, w)
        end
    end.

(** The ten lists; an option that is null stands for the default.  [None] is the
    end of the process. *)
Definition kex_proposal_populate_entries (w : world) (server : bool) (compat : Z)
    (kexalgos ciphers macs comp hkalgs : option (list Z)) : option (list (list Z)) * world :=
  let kexalgos := default KEX_SERVER_KEX kexalgos in
  let markers := if server then chars "ext-info-s,kex-strict-s-v00@openssh.com"
                 else chars "ext-info-c,kex-strict-c-v00@openssh.com" in
  match kex_names_cat w (Some kexalgos) markers with
  | (None, w) => (None, w)
  | (Some cp, w) =>
      match compat_kex_proposal w compat cp with
      | (None, w) => (None, w)
      | (Some kexprop, w) =>
          let ciphers := default KEX_SERVER_ENCRYPT ciphers in
          let macs := default KEX_SERVER_MAC macs in
          let comp := default KEX_DEFAULT_COMP comp in
          (Some [kexprop; default KEX_DEFAULT_PK_ALG hkalgs; ciphers; ciphers; macs; macs; comp; comp;
                 KEX_DEFAULT_LANG; KEX_DEFAULT_LANG], w)
      end
  end.
