(* ===== verification/Kex.v ===== *)
(** The negotiation of a key exchange (kex.c): proposals written and read, the
    algorithms chosen from two of them, and the keys derived from the secret.

    The functions that work on struct kex are computations on the state of the
    packet layer, which holds it; [goto out] with an error is an early return,
    since only local memory is freed there. *)

From stdpp Require Import base list numbers tactics.
From Stdlib Require Import ZArith Lia ZifyBool.
From S2P Require Import Prelude Sshbuf SshbufGetput SshbufShare SshbufRead Match Chachapoly AesCtr Cipher Digest Mac.
From S2P Require Import PacketState Packet KexNames.

#[local] Open Scope ssh_scope.

Definition SSH_ERR_NO_CIPHER_ALG_MATCH := -31.
Definition SSH_ERR_NO_MAC_ALG_MATCH := -32.
Definition SSH_ERR_NO_COMPRESS_ALG_MATCH := -33.
Definition SSH_ERR_NO_KEX_ALG_MATCH := -34.
Definition SSH_ERR_NO_HOSTKEY_ALG_MATCH := -35.
Definition SSH_ERR_LIBCRYPTO_ERROR := -22.

Definition KEX_RSA_SHA2_256_SUPPORTED : Z := 0x0008.
Definition KEX_RSA_SHA2_512_SUPPORTED : Z := 0x0010.

(** ** Proposals in buffers *)

(** [for (i = 0; i < n; i++) if ((r = sshbuf_put_u8(b, 0)) != 0) return r] *)
Fixpoint put_zeros (n : nat) (w : world) (b : sshbuf) : Z * sshbuf * world :=
  match n with
  | O => (0, b, w)
  | S n =>
      let '(r, b, w) := sshbuf_put_u8 w b 0 in
      if negb (r =? 0) then (r, b, w) else put_zeros n w b
  end.

Fixpoint put_cstrings (w : world) (b : sshbuf) (proposal : list (list Z)) : Z * sshbuf * world :=
  match proposal with
  | [] => (0, b, w)
  | p :: proposal =>
      let '(r, b, w) := sshbuf_put_cstring w b (Some p) in
      if negb (r =? 0) then (r, b, w) else put_cstrings w b proposal
  end.

Definition kex_prop2buf (w : world) (b : sshbuf) (proposal : list (list Z)) : Z * sshbuf * world :=
  let '(b, w) := sshbuf_reset w b in
  (* a dummy cookie, which kex_send_kexinit overwrites *)
  let '(r, b, w) := put_zeros (Z.to_nat KEX_COOKIE_LEN) w b in
  if negb (r =? 0) then (r, b, w)
  else
    let '(r, b, w) := put_cstrings w b proposal in
    if negb (r =? 0) then (r, b, w)
    else
      let '(r, b, w) := sshbuf_put_u8 w b 0 in (* first_kex_packet_follows *)
      if negb (r =? 0) then (r, b, w)
      else sshbuf_put_u32 w b 0. (* uint32 reserved *)

(** [n] strings: the result and what was read. *)
Fixpoint get_cstrings (n : nat) (w : world) (b : sshbuf) : Z * list (list Z) * sshbuf * world :=
  match n with
  | O => (0, [], b, w)
  | S n =>
      let '(r, p, _, b, w) := sshbuf_get_cstring w b in
      if negb (r =? 0) then (r, [], b, w)
      else
        let '(r, ps, b, w) := get_cstrings n w b in
        (r, c_string (default [] p) :: ps, b, w)
  end.

(** What follows the copy of the buffer; the copy is returned to be freed. *)
Definition read_proposal (w : world) (b : sshbuf) : Z * Z * list (list Z) * sshbuf * world :=
  let '(r, b) := sshbuf_consume b KEX_COOKIE_LEN in (* skip cookie *)
  if negb (r =? 0) then (r, 0, [], b, w)
  else
    let '(r, proposal, b, w) := get_cstrings PROPOSAL_MAX w b in
    if negb (r =? 0) then (r, 0, [], b, w)
    else
      let '(r, v, b) := sshbuf_get_u8 b in
      if negb (r =? 0) then (r, 0, [], b, w)
      else
        let '(r, _, b) := sshbuf_get_u32 b in
        if negb (r =? 0) then (r, 0, [], b, w)
        else (0, default 0 v, proposal, b, w).

(** The result, [*first_kex_follows], [*propp], and the buffer. *)
Definition kex_buf2prop (w : world) (raw : sshbuf) : Z * Z * list (list Z) * sshbuf * world :=
  let '(ok, w) := malloc w in
  if negb ok then (SSH_ERR_ALLOC_FAIL, 0, [], raw, w)
  else
    match sshbuf_fromb w raw 0 with
    | (None, raw, w) => (SSH_ERR_ALLOC_FAIL, 0, [], raw, w)
    | (Some b, raw, w) =>
        let '(r, v, proposal, b, w) := read_proposal w b in
        (r, v, proposal, release b raw, w)
    end.

(** [prop[i]] *)
Definition prop_at (prop : list (list Z)) (i : nat) : list Z := default [] (prop !! i).

(** ** Choosing *)

(** A null pointer to a cipher, in memory that calloc returned. *)
Definition null_cipher : sshcipher := mk_cipher [] 0 0 0 0 0.
Definition zero_enc : sshenc := mk_enc null_cipher 0 0 0 [] [].

Definition choose_enc (client server : list Z) : Z * sshenc :=
  match fst (match_list client server) with
  | None => (SSH_ERR_NO_CIPHER_ALG_MATCH, zero_enc)
  | Some name =>
      match cipher_by_name name with
      | None => (SSH_ERR_INTERNAL_ERROR, zero_enc)
      | Some c => (0, mk_enc c (cipher_keylen c) (cipher_ivlen c) (cipher_blocksize c) [] [])
      end
  end.

(** Without zlib. *)
Definition choose_comp (client server : list Z) : Z * sshcomp :=
  match fst (match_list client server) with
  | None => (SSH_ERR_NO_COMPRESS_ALG_MATCH, mk_comp 0 false)
  | Some name =>
      if bool_decide (name = chars "none") then (0, mk_comp COMP_NONE false)
      else (SSH_ERR_INTERNAL_ERROR, mk_comp 0 false)
  end.

(** The text before the first comma. *)
Definition first_name (s : list Z) : list Z := fst (strsep COMMA s).

Definition proposals_match (my peer : list (list Z)) : bool :=
  forallb (fun i => bool_decide (first_name (prop_at my i) = first_name (prop_at peer i)))
    [PROPOSAL_KEX_ALGS; PROPOSAL_SERVER_HOST_KEY_ALGS].

Definition kexalgs_contains (peer : list (list Z)) (ext : list Z) : bool :=
  has_any_alg (prop_at peer PROPOSAL_KEX_ALGS) ext.

Definition MAXIMUM (a b : Z) : Z := if a >? b then a else b.

Section kex.
Context {md : MD} {um : Umac}.

Definition zero_mac : sshmac := mk_mac [] false 0 None 0 0 false None None.
Definition zero_newkeys : newkeys := mk_newkeys zero_enc zero_mac (mk_comp 0 false).

Definition choose_mac (w : world) (mac : sshmac) (client server : list Z) : Z * sshmac * world :=
  match fst (match_list client server) with
  | None => (SSH_ERR_NO_MAC_ALG_MATCH, mac, w)
  | Some name =>
      let '(r, m, w) := mac_setup w (Some mac) name in
      let m := default mac m in
      if r <? 0 then (SSH_ERR_INTERNAL_ERROR, m, w)
      else (0, mk_mac name false (mac_len m) None (m_key_len m) (m_type m) (m_etm m) (m_hmac m) (m_umac m), w)
  end.

(** ** Members of struct kex *)

Definition with_neg (k : kex) (n : kex_neg) : kex :=
  mk_kex (k_newkeys_in k) (k_newkeys_out k) (k_done k) (k_flags k) (kex_strict k) (k_my k) n.

Definition set_my_peer (k : kex) (my peer : sshbuf) : kex :=
  let n := k_neg k in
  mk_kex (k_newkeys_in k) (k_newkeys_out k) (k_done k) (k_flags k) (kex_strict k) my
    (mk_neg (we_need n) (dh_need n) (k_server n) (k_name n) (hostkey_alg n) (hostkey_type n) (hostkey_nid n) (kex_type n)
      (ext_info_c n) (ext_info_s n) peer (session_id n) (hash_alg n) (ec_nid n) (failed_choice n)).

Definition set_markers (k : kex) (strict c s : bool) : kex :=
  let n := k_neg k in
  mk_kex (k_newkeys_in k) (k_newkeys_out k) (k_done k) (k_flags k) strict (k_my k)
    (mk_neg (we_need n) (dh_need n) (k_server n) (k_name n) (hostkey_alg n) (hostkey_type n) (hostkey_nid n) (kex_type n)
      c s (k_peer n) (session_id n) (hash_alg n) (ec_nid n) (failed_choice n)).

Definition set_method (n : kex_neg) (name : option (list Z)) (type hash nid : Z) : kex_neg :=
  mk_neg (we_need n) (dh_need n) (k_server n) name (hostkey_alg n) (hostkey_type n) (hostkey_nid n) type
    (ext_info_c n) (ext_info_s n) (k_peer n) (session_id n) hash nid (failed_choice n).

Definition set_hostkey (n : kex_neg) (alg : option (list Z)) (type nid : Z) : kex_neg :=
  mk_neg (we_need n) (dh_need n) (k_server n) (k_name n) alg type nid (kex_type n)
    (ext_info_c n) (ext_info_s n) (k_peer n) (session_id n) (hash_alg n) (ec_nid n) (failed_choice n).

Definition set_need (n : kex_neg) (need dh : Z) : kex_neg :=
  mk_neg need dh (k_server n) (k_name n) (hostkey_alg n) (hostkey_type n) (hostkey_nid n) (kex_type n)
    (ext_info_c n) (ext_info_s n) (k_peer n) (session_id n) (hash_alg n) (ec_nid n) (failed_choice n).

Definition set_session_id (n : kex_neg) (sid : sshbuf) : kex_neg :=
  mk_neg (we_need n) (dh_need n) (k_server n) (k_name n) (hostkey_alg n) (hostkey_type n) (hostkey_nid n) (kex_type n)
    (ext_info_c n) (ext_info_s n) (k_peer n) sid (hash_alg n) (ec_nid n) (failed_choice n).

Definition set_failed (n : kex_neg) (c : list Z) : kex_neg :=
  mk_neg (we_need n) (dh_need n) (k_server n) (k_name n) (hostkey_alg n) (hostkey_type n) (hostkey_nid n) (kex_type n)
    (ext_info_c n) (ext_info_s n) (k_peer n) (session_id n) (hash_alg n) (ec_nid n) (Some c).

Definition set_kex_newkeys (mode : kex_mode) (k : kex) (nk : option newkeys) : kex :=
  match mode with
  | MODE_IN => mk_kex nk (k_newkeys_out k) (k_done k) (k_flags k) (kex_strict k) (k_my k) (k_neg k)
  | MODE_OUT => mk_kex (k_newkeys_in k) nk (k_done k) (k_flags k) (kex_strict k) (k_my k) (k_neg k)
  end.

Definition kex_newkeys (mode : kex_mode) (k : kex) : option newkeys :=
  match mode with MODE_IN => k_newkeys_in k | MODE_OUT => k_newkeys_out k end.

Definition choose_kex (n : kex_neg) (client server : list Z) : Z * kex_neg :=
  match fst (match_list client server) with
  | None => (SSH_ERR_NO_KEX_ALG_MATCH, set_method n None (kex_type n) (hash_alg n) (ec_nid n))
  | Some name =>
      match kex_alg_by_name name with
      | None => (SSH_ERR_INTERNAL_ERROR, set_method n (Some name) (kex_type n) (hash_alg n) (ec_nid n))
      | Some a => (0, set_method n (Some name) (ka_type a) (ka_hash_alg a) (ka_ec_nid a))
      end
  end.

Definition choose_hostkeyalg (n : kex_neg) (client server : list Z) : Z * kex_neg :=
  match fst (match_list client server) with
  | None => (SSH_ERR_NO_HOSTKEY_ALG_MATCH, set_hostkey n None (hostkey_type n) (hostkey_nid n))
  | Some alg =>
      let type := sshkey_type_from_name alg in
      if type =? KEY_UNSPEC then (SSH_ERR_INTERNAL_ERROR, set_hostkey n (Some alg) type (hostkey_nid n))
      else (0, set_hostkey n (Some alg) type (sshkey_ecdsa_nid_from_name alg))
  end.

(** ** kex_choose_conf *)

(** Client to server, seen from this end. *)
Definition is_ctos (server : bool) (mode : kex_mode) : bool :=
  (negb server && match mode with MODE_OUT => true | MODE_IN => false end) ||
  (server && match mode with MODE_IN => true | MODE_OUT => false end).

(** [if ((r = ...) != 0) { kex->failed_choice = peer[i]; goto out; }] *)
Definition or_failed (r : Z) (choice : list Z) : M unit :=
  when (negb (r =? 0)) (modify_kex (fun k => with_neg k (set_failed (k_neg k) choice)) ;* early r).

(** Both proposals. *)
Definition parse_proposals : M (list (list Z) * list (list Z) * Z) :=
  fun s => match kexp s with
  | None => (Fatal, s)
  | Some k =>
      let '(r, _, my, b, w) := kex_buf2prop (alloc s) (k_my k) in
      let k := set_my_peer k b (k_peer (k_neg k)) in
      let s := set_alloc (set_kexp s (Some k)) w in
      if negb (r =? 0) then (Early r, s)
      else
        let '(r, follows, peer, b, w) := kex_buf2prop (alloc s) (k_peer (k_neg k)) in
        let s := set_alloc (set_kexp s (Some (set_my_peer k (k_my k) b))) w in
        if negb (r =? 0) then (Early r, s) else (Ok (my, peer, follows), s)
  end.

(** Does the peer support ext_info and strict key exchange?  And the client the
    signatures with SHA2? *)
Definition check_markers (peer : list (list Z)) (seq : Z) : M unit :=
  let* k := the_kex in
  let n := k_neg k in
  (if negb (Z.land (k_flags k) KEX_INITIAL =? 0) then
     (if k_server n
      then modify_kex (fun k => set_markers k (kexalgs_contains peer (chars "kex-strict-c-v00@openssh.com"))
                                  (kexalgs_contains peer (chars "ext-info-c")) (ext_info_s n))
      else modify_kex (fun k => set_markers k (kexalgs_contains peer (chars "kex-strict-s-v00@openssh.com"))
                                  (ext_info_c n) (kexalgs_contains peer (chars "ext-info-s")))) ;*
     let* k := the_kex in
     when (kex_strict k) (when (negb (seq =? 0)) ssh_packet_disconnect) (* KEXINIT was not the first packet *)
   else ret tt) ;*
  when (k_server n && negb (Z.land (k_flags k) KEX_INITIAL =? 0))
    (when (has_any_alg (prop_at peer PROPOSAL_SERVER_HOST_KEY_ALGS) (chars "rsa-sha2-256,rsa-sha2-256-cert-v01@openssh.com"))
       (modify_kex (fun k => set_flags k (Z.lor (k_flags k) KEX_RSA_SHA2_256_SUPPORTED))) ;*
     when (has_any_alg (prop_at peer PROPOSAL_SERVER_HOST_KEY_ALGS) (chars "rsa-sha2-512,rsa-sha2-512-cert-v01@openssh.com"))
       (modify_kex (fun k => set_flags k (Z.lor (k_flags k) KEX_RSA_SHA2_512_SUPPORTED)))).

(** The algorithms of one direction. *)
Definition choose_mode (cprop sprop peer : list (list Z)) (mode : kex_mode) : M unit :=
  (fun s => let '(ok, w) := malloc (alloc s) in
            if negb ok then (Early SSH_ERR_ALLOC_FAIL, set_alloc s w) else (Ok tt, set_alloc s w)) ;*
  modify_kex (fun k => set_kex_newkeys mode k (Some zero_newkeys)) ;*
  let* k := the_kex in
  let ctos := is_ctos (k_server (k_neg k)) mode in
  let nenc := if ctos then PROPOSAL_ENC_ALGS_CTOS else PROPOSAL_ENC_ALGS_STOC in
  let nmac := if ctos then PROPOSAL_MAC_ALGS_CTOS else PROPOSAL_MAC_ALGS_STOC in
  let ncomp := if ctos then PROPOSAL_COMP_ALGS_CTOS else PROPOSAL_COMP_ALGS_STOC in
  let '(r, e) := choose_enc (prop_at cprop nenc) (prop_at sprop nenc) in
  modify_kex (fun k => set_kex_newkeys mode k (Some (mk_newkeys e zero_mac (mk_comp 0 false)))) ;*
  or_failed r (prop_at peer nenc) ;*
  (* ignore mac for authenticated encryption *)
  let* m :=
    if cipher_authlen (e_cipher e) =? 0 then
      let* x := (fun s => let '(r, m, w) := choose_mac (alloc s) zero_mac (prop_at cprop nmac) (prop_at sprop nmac) in
                          (Ok (r, m), set_alloc s w)) in
      modify_kex (fun k => set_kex_newkeys mode k (Some (mk_newkeys e (snd x) (mk_comp 0 false)))) ;*
      or_failed (fst x) (prop_at peer nmac) ;*
      ret (snd x)
    else ret zero_mac in
  let '(r, c) := choose_comp (prop_at cprop ncomp) (prop_at sprop ncomp) in
  modify_kex (fun k => set_kex_newkeys mode k (Some (mk_newkeys e m c))) ;*
  or_failed r (prop_at peer ncomp).

(** The sizes that one direction needs, added to what was needed so far. *)
Definition more_need (nk : newkeys) (nd : Z * Z) : Z * Z :=
  let '(need, dh) := nd in
  (MAXIMUM (MAXIMUM (MAXIMUM (MAXIMUM need (e_key_len (enc nk))) (e_block_size (enc nk))) (e_iv_len (enc nk)))
     (m_key_len (nmac nk)),
   MAXIMUM (MAXIMUM (MAXIMUM (MAXIMUM dh (cipher_seclen (e_cipher (enc nk)))) (e_block_size (enc nk)))
     (e_iv_len (enc nk))) (m_key_len (nmac nk))).

Definition kex_choose_conf (seq : Z) : M Z := func (
  let* ps := parse_proposals in
  let '(my, peer, first_kex_follows) := ps in
  let* k := the_kex in
  let cprop := if k_server (k_neg k) then peer else my in
  let sprop := if k_server (k_neg k) then my else peer in
  check_markers peer seq ;*
  (* Algorithm Negotiation *)
  let* k := the_kex in
  let '(r, n) := choose_kex (k_neg k) (prop_at cprop PROPOSAL_KEX_ALGS) (prop_at sprop PROPOSAL_KEX_ALGS) in
  modify_kex (fun k => with_neg k n) ;*
  or_failed r (prop_at peer PROPOSAL_KEX_ALGS) ;*
  let* k := the_kex in
  let '(r, n) := choose_hostkeyalg (k_neg k) (prop_at cprop PROPOSAL_SERVER_HOST_KEY_ALGS)
                   (prop_at sprop PROPOSAL_SERVER_HOST_KEY_ALGS) in
  modify_kex (fun k => with_neg k n) ;*
  or_failed r (prop_at peer PROPOSAL_SERVER_HOST_KEY_ALGS) ;*
  choose_mode cprop sprop peer MODE_IN ;*
  choose_mode cprop sprop peer MODE_OUT ;*
  let* k := the_kex in
  match k_newkeys_in k, k_newkeys_out k with
  | Some nin, Some nout =>
      let '(need, dh) := more_need nout (more_need nin (0, 0)) in
      modify_kex (fun k => with_neg k (set_need (k_neg k) need dh)) ;*
      (* ignore the next message if the proposals do not match *)
      when (negb (first_kex_follows =? 0) && negb (proposals_match my peer))
        (modify (fun s => set_dispatch_skip_packets s 1)) ;*
      ret 0
  | _, _ => fatal
  end).

(** ** Keys *)

Definition ssh_digest_update_buffer (ctx : ssh_digest_ctx) (b : sshbuf) : Z * ssh_digest_ctx :=
  ssh_digest_update ctx (default [] (sshbuf_ptr b)) (sshbuf_len b).

(** A digest of the secret, the hash and [parts]: written to [digest] from the
    index [at_] on, [None] if it fails. *)
Definition kex_digest (w : world) (alg : Z) (secret : sshbuf) (parts : list (list Z)) (digest : list Z) (at_ : nat) (mdsz : Z)
  : option (list Z) * world :=
  match ssh_digest_start w alg with
  | (None, w) => (None, w)
  | (Some ctx, w) =>
      let '(r, ctx) := ssh_digest_update_buffer ctx secret in
      if negb (r =? 0) then (None, w)
      else
        let '(r, ctx) := fold_left (fun '(r, ctx) p => if negb (r =? 0) then (r, ctx) else ssh_digest_update ctx p (Z.of_nat (length p)))
                           parts (0, ctx) in
        if negb (r =? 0) then (None, w)
        else
          let '(r, _, d) := ssh_digest_final ctx (drop at_ digest) mdsz in
          if negb (r =? 0) then (None, w) else (Some (take at_ digest ++ d), w)
  end.

(** [for (have = mdsz; need > have; have += mdsz)] *)
Fixpoint derive_loop (fuel : nat) (w : world) (alg : Z) (secret : sshbuf) (hash : list Z) (need mdsz have : Z) (digest : list Z)
  : option (list Z) * world :=
  match fuel with
  | O => (Some digest, w)
  | S fuel =>
      if need >? have then
        match kex_digest w alg secret [hash; take (Z.to_nat have) digest] digest (Z.to_nat have) mdsz with
        | (None, w) => (None, w)
        | (Some digest, w) => derive_loop fuel w alg secret hash need mdsz (have + mdsz) digest
        end
      else (Some digest, w)
  end.

(** The result and [*keyp]; [hash] has [hashlen] octets. *)
Definition derive_key (w : world) (n : kex_neg) (id need : Z) (hash : list Z) (secret : sshbuf) : Z * list Z * world :=
  let mdsz := ssh_digest_bytes (hash_alg n) in
  if mdsz =? 0 then (SSH_ERR_INVALID_ARGUMENT, [], w)
  else
    let '(ok, w) := malloc w in
    if negb ok then (SSH_ERR_ALLOC_FAIL, [], w)
    else
      let digest := replicate (Z.to_nat (ROUNDUP need mdsz)) 0 in
      let sid := take (Z.to_nat (sshbuf_len (session_id n))) (default [] (sshbuf_ptr (session_id n))) in
      (* K1 = HASH(K || H || "A" || session_id) *)
      match kex_digest w (hash_alg n) secret [hash; [id]; sid] digest 0 mdsz with
      | (None, w) => (SSH_ERR_LIBCRYPTO_ERROR, [], w)
      | (Some digest, w) =>
          match derive_loop (Z.to_nat need) w (hash_alg n) secret hash need mdsz mdsz digest with
          | (None, w) => (SSH_ERR_LIBCRYPTO_ERROR, [], w)
          | (Some digest, w) => (0, digest, w)
          end
      end.

(** [keys[0]] to [keys[5]] *)
Fixpoint derive_all (ids : list Z) (w : world) (n : kex_neg) (hash : list Z) (secret : sshbuf) : Z * list (list Z) * world :=
  match ids with
  | [] => (0, [], w)
  | id :: ids =>
      let '(r, key, w) := derive_key w n id (we_need n) hash secret in
      if negb (r =? 0) then (r, [], w)
      else
        let '(r, keys, w) := derive_all ids w n hash secret in
        if negb (r =? 0) then (r, [], w) else (0, key :: keys, w)
  end.

Definition with_keys (nk : newkeys) (keys : list (list Z)) (ctos : bool) : newkeys :=
  let key i := default [] (keys !! i) in
  let e := enc nk in
  mk_newkeys (mk_enc (e_cipher e) (e_key_len e) (e_iv_len e) (e_block_size e)
                (key (if ctos then 2 else 3)%nat) (key (if ctos then 0 else 1)%nat))
    (set_key (nmac nk) (key (if ctos then 4 else 5)%nat)) (comp nk).

Definition kex_derive_keys (hash : list Z) (secret : sshbuf) : M Z := func (
  let* k := the_kex in
  (* save initial hash as session id *)
  (if negb (Z.land (k_flags k) KEX_INITIAL =? 0) then
     when (negb (sshbuf_len (session_id (k_neg k)) =? 0)) (early SSH_ERR_INTERNAL_ERROR) ;*
     (fun s => let '(r, b, w) := sshbuf_put (alloc s) (session_id (k_neg k)) hash (Z.of_nat (length hash)) in
               let s := set_alloc (set_kexp s (Some (with_neg k (set_session_id (k_neg k) b)))) w in
               if negb (r =? 0) then (Early r, s) else (Ok tt, s))
   else when (sshbuf_len (session_id (k_neg k)) =? 0) (early SSH_ERR_INTERNAL_ERROR)) ;*
  let* k := the_kex in
  let* keys := (fun s => let '(r, keys, w) := derive_all [65; 66; 67; 68; 69; 70] (alloc s) (k_neg k) hash secret in
                         let s := set_alloc s w in
                         if negb (r =? 0) then (Early r, s) else (Ok keys, s)) in
  match k_newkeys_in k, k_newkeys_out k with
  | Some nin, Some nout =>
      let server := k_server (k_neg k) in
      modify_kex (fun k => set_kex_newkeys MODE_OUT
        (set_kex_newkeys MODE_IN k (Some (with_keys nin keys (is_ctos server MODE_IN))))
        (Some (with_keys nout keys (is_ctos server MODE_OUT)))) ;*
      ret 0
  | _, _ => fatal
  end).

End kex.
