(* ===== verification/KexThms.v ===== *)
(** Both ends of a key exchange choose the same algorithms. *)

From stdpp Require Import base list numbers tactics.
From Stdlib Require Import ZArith Lia ZifyBool.
From S2P Require Import Prelude Sshbuf SshbufGetput SshbufShare SshbufRead Match Chachapoly AesCtr Cipher Digest Mac.
From S2P Require Import PacketState Packet PacketBuf PacketSend PacketFrame PacketMem PacketAuth KexNames Kex.

#[local] Open Scope ssh_scope.

(** ** Proposals *)

Definition proposal_octets (ps : list (list Z)) : list Z := concat (map enc_string ps).

(** A KEXINIT payload: cookie, lists, first_kex_packet_follows, reserved. *)
Definition kexinit_octets (cookie : list Z) (ps : list (list Z)) (follows reserved : Z) : list Z :=
  cookie ++ proposal_octets ps ++ [follows] ++ POKE_U32 reserved.

(** Ten lists without NUL. *)
Definition proposal_ok (ps : list (list Z)) : Prop := length ps = PROPOSAL_MAX /\ Forall (fun p => 0 ∉ p) ps.

Lemma get_cstrings_read ps : forall n b rest,
  reading n b (proposal_octets ps ++ rest) -> Forall (fun p => 0 ∉ p) ps ->
  exists b', get_cstrings (length ps) [] b = (0, ps, b', []) /\ reading n b' rest.
Proof.
  induction ps as [|p ps IH]; intros n b rest Hb Hp; [by exists b|].
  apply Forall_cons_1 in Hp as [Hp Hps]. unfold proposal_octets in Hb. cbn [map concat] in Hb. rewrite <- app_assoc in Hb.
  destruct (read_cstring n b p _ Hb Hp) as (b1 & E1 & Hb1).
  destruct (IH n b1 rest Hb1 Hps) as (b2 & E2 & Hb2). exists b2. split; [|done].
  cbn [length get_cstrings]. rewrite E1. change (negb (0 =? 0)) with false. cbv iota. rewrite E2.
  cbn [from_option id default]. by rewrite c_string_text.
Qed.

(** Reading a proposal back; the buffer that holds it is not changed. *)
Lemma buf2prop_read raw cookie ps follows reserved :
  reading 1 raw (kexinit_octets cookie ps follows reserved) -> Z.of_nat (length cookie) = KEX_COOKIE_LEN ->
  proposal_ok ps -> 0 <= reserved < 2 ^ 32 ->
  exists raw', kex_buf2prop [] raw = (0, follows, ps, raw', []) /\ reading 1 raw' (kexinit_octets cookie ps follows reserved).
Proof.
  intros Hraw Hc [Hl Hp] Hr. unfold kex_buf2prop. cbn [malloc negb].
  destruct (read_fromb raw _ 0 Hraw) as (b & raw1 & -> & Hb & Hraw1).
  assert (Hb2 : exists b2, read_proposal [] b = (0, follows, ps, b2, []) /\ reading 1 b2 []).
  { unfold read_proposal, kexinit_octets in *. pose proof Hb as (Hw & Hcb & _).
    destruct (consume_took b (length cookie) Hw) as (b1 & E1 & Hw1 & Hc1 & Hf1); [rewrite Hcb, length_app; lia|].
    rewrite Hc in E1. rewrite E1. change (negb (0 =? 0)) with false. cbv iota.
    assert (Hb1 : reading 1 b1 (proposal_octets ps ++ [follows] ++ POKE_U32 reserved)).
    { eapply reading_took; [exact Hb|]. split_and!; [done| |done]. rewrite Hcb, take_app_length in Hc1. by apply app_inv_head in Hc1. }
    rewrite <- Hl. destruct (get_cstrings_read ps 1 b1 _ Hb1 Hp) as (b2 & -> & Hb2). change (negb (0 =? 0)) with false. cbv iota.
    destruct (read_u8 _ _ _ _ Hb2) as (b3 & -> & Hb3). change (negb (0 =? 0)) with false. cbv iota.
    rewrite <- (app_nil_r (POKE_U32 reserved)) in Hb3.
    destruct (read_u32 _ _ _ _ Hb3 Hr) as (b4 & -> & Hb4). change (negb (0 =? 0)) with false. cbv iota. by exists b4. }
  destruct Hb2 as (b2 & -> & Hb2). eexists. split; [done|]. by apply (release_reading b2 []).
Qed.

Section thms.
Context {md : MD} {um : Umac}.

(** ** What the choices are, by the lists alone *)

Lemma hmac_start_nil alg : snd (ssh_hmac_start [] alg) = [].
Proof. unfold ssh_hmac_start, ssh_digest_start. cbn [malloc negb]. by destruct (ssh_digest_by_alg alg). Qed.

Lemma setup_nil mac a : snd (mac_setup_by_alg [] mac a) = [].
Proof.
  unfold mac_setup_by_alg. destruct (ma_type a =? SSH_DIGEST); [|done].
  pose proof (hmac_start_nil (ma_alg a)) as H. destruct (ssh_hmac_start [] (ma_alg a)) as [[h|] w]; cbn [snd] in H; by subst w.
Qed.

Lemma choose_mac_nil mac c s : snd (choose_mac [] mac c s) = [].
Proof.
  unfold choose_mac. destruct (fst (match_list c s)) as [name|]; [|done]. unfold mac_setup.
  destruct (mac_by_name name) as [a|]; [|done]. pose proof (setup_nil mac a) as H.
  destruct (mac_setup_by_alg [] mac a) as [[r m] w]. cbn [snd] in H. subst w. by destruct (r <? 0).
Qed.

(** The keys of a direction as the lists of the client and of the server select
    them, without the octets of the keys. *)
Definition chosen (cprop sprop : list (list Z)) (ctos : bool) : option newkeys :=
  let at_ p i j := prop_at p (if ctos then i else j)%nat in
  match choose_enc (at_ cprop 2 3)%nat (at_ sprop 2 3)%nat with
  | (0, e) =>
      match (if cipher_authlen (e_cipher e) =? 0 then choose_mac [] zero_mac (at_ cprop 4 5)%nat (at_ sprop 4 5)%nat
             else (0, zero_mac, [])) with
      | (0, m, _) => match choose_comp (at_ cprop 6 7)%nat (at_ sprop 6 7)%nat with (0, c) => Some (mk_newkeys e m c) | _ => None end
      | _ => None
      end
  | _ => None
  end.

Lemma or_failed_0 r choice s : r = 0 -> or_failed r choice s = (Ok tt, s).
Proof. intros ->. done. Qed.

Lemma or_failed_ne {B} r choice (f : unit -> M B) s : r <> 0 -> exists s', bind (or_failed r choice) f s = (Early r, s').
Proof.
  intros H. unfold or_failed, bind, when. rewrite (proj2 (Z.eqb_neq r 0) H). by eexists.
Qed.

(** The state with the keys of a direction noted in struct kex. *)
Definition noted (mode : kex_mode) (s : ssh) (k : kex) (nk : newkeys) : ssh :=
  set_kexp s (Some (set_kex_newkeys mode k (Some nk))).

Lemma noted_noted mode s k a b : noted mode (noted mode s k a) (set_kex_newkeys mode k (Some a)) b = noted mode s k b.
Proof. by destruct mode. Qed.

Lemma modify_kex_noted {B} mode s k a nk (f : unit -> M B) :
  bind (modify_kex (fun k => set_kex_newkeys mode k (Some nk))) f (noted mode s k a) = f tt (noted mode s k nk).
Proof. unfold modify_kex. rewrite bind_modify. f_equal. by destruct mode. Qed.

Lemma choose_mode_spec s k cprop sprop peer mode o :
  kexp s = Some k -> alloc s = [] -> choose_mode cprop sprop peer mode s = o ->
  match chosen cprop sprop (is_ctos (k_server (k_neg k)) mode) with
  | Some nk => o = (Ok tt, noted mode s k nk)
  | None => exists r s', o = (Early r, s') /\ r <> 0
  end.
Proof.
  intros Hk Ha E. unfold choose_mode in E. unfold chosen.
  unfold bind in E at 1. rewrite Ha in E. cbn [malloc negb] in E. rewrite set_alloc_same in E by done.
  unfold modify_kex in E at 1. rewrite bind_modify, Hk in E. cbn [option_map] in E.
  change (set_kexp s (Some (set_kex_newkeys mode k (Some zero_newkeys)))) with (noted mode s k zero_newkeys) in E.
  unfold bind in E at 1. unfold the_kex in E.
  change (kexp (noted mode s k zero_newkeys)) with (Some (set_kex_newkeys mode k (Some zero_newkeys))) in E. cbv iota zeta in E.
  replace (k_server (k_neg (set_kex_newkeys mode k (Some zero_newkeys)))) with (k_server (k_neg k)) in E by (by destruct mode).
  set (ctos := is_ctos _ _) in *. unfold PROPOSAL_ENC_ALGS_CTOS, PROPOSAL_ENC_ALGS_STOC, PROPOSAL_MAC_ALGS_CTOS, PROPOSAL_MAC_ALGS_STOC,
    PROPOSAL_COMP_ALGS_CTOS, PROPOSAL_COMP_ALGS_STOC in E.
  destruct (choose_enc _ _) as [r e]. rewrite modify_kex_noted in E.
  assert (Hr : r = 0 \/ r <> 0) by lia. destruct Hr as [->|Hr].
  2:{ match type of E with context [bind (or_failed r ?c) ?f ?st] => destruct (or_failed_ne r c f st Hr) as (s' & E') end.
      rewrite E' in E. subst o. destruct r; [done|..]; by eexists _, s'. }
  rewrite (bind_ok _ _ _ _ _ (or_failed_0 0 _ _ eq_refl)) in E.
  set (x := if cipher_authlen (e_cipher e) =? 0 then choose_mac [] zero_mac _ _ else (0, zero_mac, [])).
  assert (Hmac : let '(r, m, w) := x in exists s',
    (if cipher_authlen (e_cipher e) =? 0 then
       let* x := (fun s => let '(r, m, w) := choose_mac (alloc s) zero_mac (prop_at cprop (if ctos then 4 else 5)%nat) (prop_at sprop (if ctos then 4 else 5)%nat) in
                           (Ok (r, m), set_alloc s w)) in
       modify_kex (fun k => set_kex_newkeys mode k (Some (mk_newkeys e (snd x) (mk_comp 0 false)))) ;*
       or_failed (fst x) (prop_at peer (if ctos then 4 else 5)%nat) ;*
       ret (snd x)
     else ret zero_mac) (noted mode s k (mk_newkeys e zero_mac (mk_comp 0 false))) =
    if r =? 0 then (Ok m, noted mode s k (mk_newkeys e m (mk_comp 0 false))) else (Early r, s')).
  { unfold x. destruct (cipher_authlen (e_cipher e) =? 0); [|by exists s].
    pose proof (choose_mac_nil zero_mac (prop_at cprop (if ctos then 4 else 5)%nat) (prop_at sprop (if ctos then 4 else 5)%nat)) as Hn.
    destruct (choose_mac [] zero_mac _ _) as [[r m] w] eqn:Em. cbn [snd] in Hn. subst w. eexists.
    unfold bind at 1. change (alloc (noted mode s k (mk_newkeys e zero_mac (mk_comp 0 false)))) with (alloc s). rewrite Ha, Em.
    rewrite set_alloc_same by exact Ha.
    cbn [fst snd]. rewrite modify_kex_noted. unfold or_failed, bind, when. by destruct (Z.eqb_spec r 0) as [->|]. }
  destruct x as [[r m] w]. destruct Hmac as (s' & Hmac). destruct (Z.eqb_spec r 0) as [->|Hr].
  2:{ rewrite (bind_early _ _ _ _ _ Hmac) in E. subst o. destruct r; [done|..]; by eexists _, _. }
  rewrite (bind_ok _ _ _ _ _ Hmac) in E. destruct (choose_comp _ _) as [r c]. rewrite modify_kex_noted in E.
  assert (Hr : r = 0 \/ r <> 0) by lia. destruct Hr as [->|Hr]; [by rewrite or_failed_0 in E|].
  unfold or_failed, when in E. rewrite (proj2 (Z.eqb_neq r 0) Hr) in E. cbn [negb] in E.
  subst o. destruct r; [done|..]; by eexists _, _.
Qed.

(** ** The whole choice *)

(** What the two proposals decide for one end: method, host key algorithm, and
    the keys of the two directions. *)
Definition conf_of (cprop sprop : list (list Z)) (server : bool) : option (list Z * kexalg * list Z * newkeys * newkeys) :=
  match fst (match_list (prop_at cprop PROPOSAL_KEX_ALGS) (prop_at sprop PROPOSAL_KEX_ALGS)) with
  | None => None
  | Some name =>
      match kex_alg_by_name name, fst (match_list (prop_at cprop PROPOSAL_SERVER_HOST_KEY_ALGS) (prop_at sprop PROPOSAL_SERVER_HOST_KEY_ALGS)) with
      | Some a, Some hk =>
          if sshkey_type_from_name hk =? KEY_UNSPEC then None
          else
            match chosen cprop sprop (is_ctos server MODE_IN), chosen cprop sprop (is_ctos server MODE_OUT) with
            | Some nin, Some nout => Some (name, a, hk, nin, nout)
            | _, _ => None
            end
      | _, _ => None
      end
  end.

(** What noting the peer's markers leaves alone. *)
Definition core (k : kex) :=
  (k_newkeys_in k, k_newkeys_out k, Z.land (k_flags k) KEX_INITIAL, k_my k, (k_server (k_neg k), k_peer (k_neg k), session_id (k_neg k))).

(** Everything but struct kex, and of struct kex the core. *)
Definition kex_view (s : ssh) := (set_kexp s None, option_map core (kexp s)).

Lemma keeps_modify_kex f : (forall k, core (f k) = core k) -> steps (same_by kex_view) (modify_kex f).
Proof.
  intros Hf s. unfold modify_kex, modify, same_by, kex_view. cbn [snd]. f_equal. cbn. destruct (kexp s) as [k|]; [|done]. cbn. by rewrite Hf.
Qed.

Lemma or_keeps_initial f x : Z.land x KEX_INITIAL = 0 -> Z.land (Z.lor f x) KEX_INITIAL = Z.land f KEX_INITIAL.
Proof. intros H. by rewrite Z.land_lor_distr_l, H, Z.lor_0_r. Qed.

Lemma check_markers_keeps peer seq : steps (same_by kex_view) (check_markers peer seq).
Proof.
  assert (H1 : forall a b c, steps (same_by kex_view) (modify_kex (fun k => set_markers k a b c))) by (intros; by apply keeps_modify_kex).
  assert (H2 : forall x, Z.land x KEX_INITIAL = 0 -> steps (same_by kex_view) (modify_kex (fun k => set_flags k (Z.lor (k_flags k) x)))).
  { intros x Hx. apply keeps_modify_kex. intros k. unfold core. cbn [set_flags k_flags k_newkeys_in k_newkeys_out k_my k_neg].
    by rewrite or_keeps_initial. }
  pose proof (H2 KEX_RSA_SHA2_256_SUPPORTED eq_refl). pose proof (H2 KEX_RSA_SHA2_512_SUPPORTED eq_refl).
  unfold check_markers. frame.
Qed.

(** Computations that do not return early. *)
Definition straight {A} (m : M A) : Prop := forall s r s', m s <> (Early r, s').

Lemma straight_bind {A B} (m : M A) (f : A -> M B) : straight m -> (forall a, straight (f a)) -> straight (bind m f).
Proof. intros Hm Hf s r s' E. unfold bind in E. destruct (m s) as [[a|e|] s1] eqn:E1; [by apply Hf in E|by apply Hm in E1|done]. Qed.

Lemma check_markers_straight peer seq : straight (check_markers peer seq).
Proof.
  assert (Hk : straight the_kex) by (intros s r s'; unfold the_kex; by destruct (kexp s)).
  assert (Hw : forall b (m : M unit), straight m -> straight (when b m)) by (intros [] m Hm; [done|intros s r s'; done]).
  assert (Hm : forall f, straight (modify_kex f)) by (intros f s r s'; done).
  assert (Hf : straight (ssh_packet_disconnect : M unit)) by (intros s r s'; done).
  unfold check_markers. apply straight_bind; [done|]. intros k. apply straight_bind.
  - destruct (negb _); [|intros s r s'; done]. apply straight_bind; [destruct (k_server _); apply Hm|]. intros _. apply straight_bind; [done|]. auto.
  - intros _. apply Hw, straight_bind; [auto|]. intros _. auto.
Qed.

Lemma kexp_rest s : s = set_kexp (set_kexp s None) (kexp s).
Proof. by destruct s. Qed.

Lemma check_markers_spec peer seq s k o s' :
  kexp s = Some k -> check_markers peer seq s = (o, s') ->
  o = Fatal \/ o = Ok tt /\ exists k', s' = set_kexp s (Some k') /\ core k' = core k.
Proof.
  intros Hk E. destruct o as [[]|r|]; [right|by apply check_markers_straight in E|by left]. split; [done|].
  pose proof (check_markers_keeps peer seq s) as H. rewrite E in H. unfold same_by, kex_view in H. cbn [snd] in H.
  rewrite Hk in H. pose proof (f_equal fst H) as H1. pose proof (f_equal snd H) as H2. cbn [fst snd] in H1, H2. clear H.
  destruct (kexp s') as [k'|] eqn:Hk'; [|done]. exists k'. split; [|cbn in H2; congruence].
  rewrite (kexp_rest s'), H1, Hk'. reflexivity.
Qed.

(** The two proposals of one end, as they are read. *)
Definition proposals_of (k : kex) (my peer : list (list Z)) (follows : Z) : Prop :=
  exists v b1 b2, kex_buf2prop [] (k_my k) = (0, v, my, b1, []) /\ kex_buf2prop [] (k_peer (k_neg k)) = (0, follows, peer, b2, []).

Lemma parse_proposals_spec s k my peer follows :
  kexp s = Some k -> alloc s = [] -> proposals_of k my peer follows ->
  exists b1 b2, parse_proposals s = (Ok (my, peer, follows), set_kexp s (Some (set_my_peer k b1 b2))).
Proof.
  intros Hk Ha (v & b1 & b2 & E1 & E2). exists b1, b2. unfold parse_proposals. rewrite Hk, Ha, E1. change (negb (0 =? 0)) with false. cbv iota.
  rewrite (set_alloc_same (set_kexp s _)) by done. change (alloc (set_kexp s _)) with (alloc s). rewrite Ha.
  change (k_peer (k_neg (set_my_peer k b1 (k_peer (k_neg k))))) with (k_peer (k_neg k)). rewrite E2.
  change (negb (0 =? 0)) with false. cbv iota. by rewrite set_alloc_same by done.
Qed.

Lemma the_kex_at {B} s k (f : kex -> M B) : bind the_kex f (set_kexp s (Some k)) = f k (set_kexp s (Some k)).
Proof. reflexivity. Qed.

Lemma modify_kex_at {B} s k g (f : unit -> M B) : bind (modify_kex g) f (set_kexp s (Some k)) = f tt (set_kexp s (Some (g k))).
Proof. reflexivity. Qed.

(** What an end has noted when it has chosen. *)
Record chose (k k' : kex) (c : list Z * kexalg * list Z * newkeys * newkeys) : Prop := {
  ch_name : k_name (k_neg k') = Some (c.1.1.1.1);
  ch_type : kex_type (k_neg k') = ka_type c.1.1.1.2;
  ch_hash : hash_alg (k_neg k') = ka_hash_alg c.1.1.1.2;
  ch_nid : ec_nid (k_neg k') = ka_ec_nid c.1.1.1.2;
  ch_hostkey : hostkey_alg (k_neg k') = Some c.1.1.2;
  ch_in : k_newkeys_in k' = Some c.1.2;
  ch_out : k_newkeys_out k' = Some c.2;
  ch_need : (we_need (k_neg k'), dh_need (k_neg k')) = more_need c.2 (more_need c.1.2 (0, 0));
  ch_server : k_server (k_neg k') = k_server (k_neg k);
  ch_initial : Z.land (k_flags k') KEX_INITIAL = Z.land (k_flags k) KEX_INITIAL;
  ch_session : session_id (k_neg k') = session_id (k_neg k)
}.

Lemma or_failed_stops {B} r choice (f : unit -> M B) s x :
  r <> 0 -> bind (or_failed r choice) f s = x -> exists s', x = (Early r, s').
Proof. intros Hr <-. by apply or_failed_ne. Qed.

(** The result of [kex_choose_conf], by the two proposals. *)
Lemma choose_conf_spec s k my peer follows seq o s' :
  kexp s = Some k -> alloc s = [] -> proposals_of k my peer follows ->
  kex_choose_conf seq s = (o, s') ->
  o = Fatal \/
  match conf_of (if k_server (k_neg k) then peer else my) (if k_server (k_neg k) then my else peer) (k_server (k_neg k)) with
  | Some c => o = Ok 0 /\ exists k', chose k k' c /\ (s' = set_kexp s (Some k') \/ s' = set_dispatch_skip_packets (set_kexp s (Some k')) 1)
  | None => exists r, o = Ok r /\ r <> 0
  end.
Proof.
  intros Hk Ha Hp E. unfold kex_choose_conf, func in E. match type of E with context [match ?m s with _ => _ end] => destruct (m s) as [x s1] eqn:Eb end.
  destruct (parse_proposals_spec s k my peer follows Hk Ha Hp) as (b1 & b2 & Ep). rewrite (bind_ok _ _ _ _ _ Ep) in Eb. cbv iota beta in Eb.
  set (k1 := set_my_peer k b1 b2) in *. rewrite the_kex_at in Eb. change (k_server (k_neg k1)) with (k_server (k_neg k)) in Eb.
  set (cprop := if k_server (k_neg k) then peer else my) in *. set (sprop := if k_server (k_neg k) then my else peer) in *.
  unfold bind in Eb at 1. destruct (check_markers peer seq (set_kexp s (Some k1))) as [o2 s2] eqn:E2.
  apply (check_markers_spec _ _ _ k1) in E2 as [->|(-> & k2 & -> & Hc2)]; [left| |done].
  { injection Eb as <- <-. by injection E as <- <-. }
  change (set_kexp (set_kexp s (Some k1)) (Some k2)) with (set_kexp s (Some k2)) in Eb. rewrite the_kex_at in Eb.
  injection Hc2 as C1 C2 C3 C4 C5 C6 C7. right. unfold conf_of.
  unfold choose_kex in Eb. destruct (fst (match_list (prop_at cprop PROPOSAL_KEX_ALGS) (prop_at sprop PROPOSAL_KEX_ALGS))) as [name|].
  2:{ rewrite modify_kex_at in Eb. apply or_failed_stops in Eb as (s3 & [= -> ->]); [|done]. injection E as <- <-. by eexists. }
  destruct (kex_alg_by_name name) as [a|].
  2:{ rewrite modify_kex_at in Eb. apply or_failed_stops in Eb as (s3 & [= -> ->]); [|done]. injection E as <- <-. by eexists. }
  rewrite modify_kex_at, (bind_ok _ _ _ _ _ (or_failed_0 0 _ _ eq_refl)), the_kex_at in Eb.
  unfold choose_hostkeyalg in Eb.
  destruct (fst (match_list (prop_at cprop PROPOSAL_SERVER_HOST_KEY_ALGS) (prop_at sprop PROPOSAL_SERVER_HOST_KEY_ALGS))) as [hk|].
  2:{ rewrite modify_kex_at in Eb. apply or_failed_stops in Eb as (s3 & [= -> ->]); [|done]. injection E as <- <-. by eexists. }
  cbv zeta in Eb. destruct (sshkey_type_from_name hk =? KEY_UNSPEC).
  { rewrite modify_kex_at in Eb. apply or_failed_stops in Eb as (s3 & [= -> ->]); [|done]. injection E as <- <-. by eexists. }
  rewrite modify_kex_at, (bind_ok _ _ _ _ _ (or_failed_0 0 _ _ eq_refl)) in Eb.
  match type of Eb with bind _ _ (set_kexp s (Some ?x)) = _ => set (k3 := x) in Eb end.
  assert (S3 : k_server (k_neg k3) = k_server (k_neg k)) by exact C5.
  unfold bind in Eb at 1. destruct (choose_mode cprop sprop peer MODE_IN (set_kexp s (Some k3))) as [o3 s3] eqn:E3.
  apply (choose_mode_spec _ k3) in E3; [|done|done]. rewrite S3 in E3.
  destruct (chosen cprop sprop (is_ctos (k_server (k_neg k)) MODE_IN)) as [nin|].
  2:{ destruct E3 as (r & s4 & [= -> ->] & Hr). injection Eb as <- <-. injection E as <- <-. by eexists. }
  injection E3 as -> ->. change (noted MODE_IN (set_kexp s (Some k3)) k3 nin) with (set_kexp s (Some (set_kex_newkeys MODE_IN k3 (Some nin)))) in Eb.
  set (k4 := set_kex_newkeys MODE_IN k3 (Some nin)) in Eb.
  unfold bind in Eb at 1. destruct (choose_mode cprop sprop peer MODE_OUT (set_kexp s (Some k4))) as [o4 s4] eqn:E4.
  apply (choose_mode_spec _ k4) in E4; [|done|done]. change (k_server (k_neg k4)) with (k_server (k_neg k3)) in E4. rewrite S3 in E4.
  destruct (chosen cprop sprop (is_ctos (k_server (k_neg k)) MODE_OUT)) as [nout|].
  2:{ destruct E4 as (r & s5 & [= -> ->] & Hr). injection Eb as <- <-. injection E as <- <-. by eexists. }
  injection E4 as -> ->. change (noted MODE_OUT (set_kexp s (Some k4)) k4 nout) with (set_kexp s (Some (set_kex_newkeys MODE_OUT k4 (Some nout)))) in Eb.
  set (k5 := set_kex_newkeys MODE_OUT k4 (Some nout)) in Eb. rewrite the_kex_at in Eb.
  change (k_newkeys_in k5) with (Some nin) in Eb. change (k_newkeys_out k5) with (Some nout) in Eb. cbv iota in Eb.
  destruct (more_need nout (more_need nin (0, 0))) as [need dh] eqn:En. rewrite modify_kex_at in Eb.
  set (k6 := with_neg k5 (set_need (k_neg k5) need dh)) in Eb.
  assert (Hch : chose k k6 (name, a, hk, nin, nout)).
  { split; try reflexivity; cbn [fst snd]; [by rewrite En|exact C5|exact C3|exact C7]. }
  destruct (negb (follows =? 0) && negb (proposals_match my peer)); injection Eb as <- <-; injection E as <- <-.
  - split; [done|]. exists k6. split; [done|]. by right.
  - split; [done|]. exists k6. split; [done|]. by left.
Qed.

End thms.
