(* ===== verification/KexKeys.v ===== *)
(** The keys that a key exchange derives, and how they come into use: key
    derivation is that of RFC 4253, and from the same secret and the same
    algorithms both ends arrive at the same direction. *)

From stdpp Require Import base list numbers tactics.
From Stdlib Require Import ZArith Lia ZifyBool.
From S2P Require Import Prelude Sshbuf SshbufGetput SshbufShare SshbufRead Match Chacha Chachapoly Rijndael AesCtr Cipher Digest Mac.
From S2P Require Import PacketState Packet PacketBuf PacketSend PacketFrame PacketMem PacketAuth KexNames Kex KexThms.

#[local] Open Scope ssh_scope.

Section keys.
Context {md : MD} {um : Umac} {mdl : MDLaws} {uml : UmacLaws}.

(** ** Key derivation (RFC 4253, section 7.2) *)

(** [n] blocks of key: K1 = HASH(K || H || id || session_id), and then
    Kn = HASH(K || H || K1 || ... || Kn-1). *)
Fixpoint kdf (n : nat) (alg : Z) (K H : list Z) (id : Z) (sid : list Z) : list Z :=
  match n with
  | O => []
  | S O => hash alg (K ++ H ++ [id] ++ sid)
  | S n => kdf n alg K H id sid ++ hash alg (K ++ H ++ kdf n alg K H id sid)
  end.

Lemma kdf_SS n alg K H id sid :
  kdf (S (S n)) alg K H id sid = kdf (S n) alg K H id sid ++ hash alg (K ++ H ++ kdf (S n) alg K H id sid).
Proof. reflexivity. Qed.

Lemma length_kdf n alg d K H id sid :
  ssh_digest_by_alg alg = Some d -> length (kdf n alg K H id sid) = (n * Z.to_nat (digest_len d))%nat.
Proof.
  intros Hd. assert (Hh : forall m, length (hash alg m) = Z.to_nat (digest_len d)).
  { intros m. pose proof (hash_length alg d m Hd). lia. }
  induction n as [|[|n] IH]; [done|cbn; rewrite Hh; lia|]. rewrite kdf_SS, length_app, IH, Hh. lia.
Qed.

Lemma bytes_ok_kdf n alg K H id sid : bytes_ok (kdf n alg K H id sid).
Proof. induction n as [|[|n] IH]; [constructor|apply hash_bytes|]. rewrite kdf_SS. apply bytes_ok_app. split; [done|apply hash_bytes]. Qed.

(** Octets added to a digest one after the other. *)
Lemma updates_absorbed parts : forall ctx alg d m,
  absorbed ctx alg m -> ssh_digest_by_alg alg = Some d ->
  exists ctx', fold_left (fun '(r, ctx) p => if negb (r =? 0) then (r, ctx) else ssh_digest_update ctx p (Z.of_nat (length p))) parts (0, ctx) = (0, ctx') /\
    absorbed ctx' alg (m ++ concat parts).
Proof.
  induction parts as [|p parts IH]; intros ctx alg d m Hc Hd; [exists ctx; cbn; by rewrite app_nil_r|].
  destruct (update_absorbed ctx alg d m p (Z.of_nat (length p)) Hc Hd) as (c1 & E1 & H1). rewrite Nat2Z.id, firstn_all in H1.
  destruct (IH c1 alg d _ H1 Hd) as (c2 & E2 & H2). exists c2. cbn [fold_left concat]. change (negb (0 =? 0)) with false. cbv iota.
  rewrite E1. split; [exact E2|]. by rewrite app_assoc.
Qed.

Lemma digest_start_nil alg d : ssh_digest_by_alg alg = Some d -> exists ctx, ssh_digest_start [] alg = (Some ctx, []) /\ absorbed ctx alg [].
Proof.
  intros Hd. assert (E : exists ctx, ssh_digest_start [] alg = (Some ctx, [])) by (unfold ssh_digest_start; rewrite Hd; by eexists).
  destruct E as (ctx & E). exists ctx. split; [done|]. by apply start_absorbed in E as [? _].
Qed.

Lemma kex_digest_spec alg d secret parts digest i :
  ssh_digest_by_alg alg = Some d -> good secret ->
  kex_digest [] alg secret parts digest i (digest_len d) =
    (Some (take i digest ++ splice (drop i digest) 0 (hash alg (contents secret ++ concat parts))), []).
Proof.
  intros Hd Hg. unfold kex_digest. destruct (digest_start_nil alg d Hd) as (ctx & -> & Hc).
  unfold ssh_digest_update_buffer. destruct (sshbuf_ptr_spec secret (proj1 Hg)) as [slack ->]. rewrite len_good by done.
  cbn [default from_option id].
  destruct (update_absorbed ctx alg d [] (contents secret ++ slack) (Z.of_nat (length (contents secret))) Hc Hd) as (c1 & -> & H1).
  rewrite Nat2Z.id, take_app_length in H1. change (negb (0 =? 0)) with false. cbv iota.
  destruct (updates_absorbed parts c1 alg d _ H1 Hd) as (c2 & -> & H2). change (negb (0 =? 0)) with false. cbv iota.
  pose proof (digest_cases _ _ Hd) as Hdc.
  destruct (final_absorbed c2 alg d _ (drop i digest) (digest_len d) H2 Hd) as (c3 & -> & _); [unfold UINT_MAX; lia|].
  done.
Qed.

Lemma splice_0 l v : splice l 0 v = v ++ drop (length v) l.
Proof. reflexivity. Qed.

(** The blocks so far, and room for the others. *)
Lemma derive_loop_spec alg d secret H id sid need k : forall fuel i,
  ssh_digest_by_alg alg = Some d -> good secret -> (1 <= i <= k)%nat ->
  Z.of_nat (k - 1) * digest_len d < need <= Z.of_nat k * digest_len d -> (k - i <= fuel)%nat ->
  derive_loop fuel [] alg secret H need (digest_len d) (Z.of_nat i * digest_len d)
    (kdf i alg (contents secret) H id sid ++ replicate ((k - i) * Z.to_nat (digest_len d)) 0) =
  (Some (kdf k alg (contents secret) H id sid), []).
Proof.
  intros fuel. induction fuel as [|fuel IH]; intros i Hd Hg Hi Hneed Hf.
  - assert (i = k) as -> by lia. cbn [derive_loop]. by rewrite Nat.sub_diag, app_nil_r.
  - cbn [derive_loop]. pose proof (digest_cases _ _ Hd) as Hdc. pose proof (length_kdf i alg d (contents secret) H id sid Hd) as Hl.
    destruct (decide (i = k)) as [->|Hne].
    + replace (need >? _) with false by lia. by rewrite Nat.sub_diag, app_nil_r.
    + rewrite (proj2 (Z.gtb_lt need _)) by nia.
      rewrite (kex_digest_spec alg d) by done.
      assert (Ei : Z.to_nat (Z.of_nat i * digest_len d) = length (kdf i alg (contents secret) H id sid)) by (rewrite Hl; lia).
      rewrite Ei, take_app_length, drop_app_length, splice_0. cbn [concat]. rewrite app_nil_r.
      assert (Hh : forall m, length (hash alg m) = Z.to_nat (digest_len d)) by (intros m; pose proof (hash_length alg d m Hd); lia).
      rewrite Hh, drop_replicate, app_assoc.
      destruct i as [|i]; [lia|]. rewrite <- kdf_SS.
      replace (Z.of_nat (S i) * digest_len d + digest_len d) with (Z.of_nat (S (S i)) * digest_len d) by lia.
      replace ((k - S i) * Z.to_nat (digest_len d) - Z.to_nat (digest_len d))%nat with ((k - S (S i)) * Z.to_nat (digest_len d))%nat by nia.
      apply IH; try done; lia.
Qed.

(** The number of blocks that are needed. *)
Definition key_blocks (need mdsz : Z) : nat := Z.to_nat ((need + (mdsz - 1)) / mdsz).

Lemma derive_key_spec n d x need H secret :
  ssh_digest_by_alg (hash_alg n) = Some d -> good secret -> good (session_id n) -> 0 < need < 2 ^ 32 ->
  derive_key [] n x need H secret =
    (0, kdf (key_blocks need (digest_len d)) (hash_alg n) (contents secret) H x (contents (session_id n)), []).
Proof.
  intros Hd Hg Hs Hn. pose proof (digest_cases _ _ Hd) as Hdc. unfold derive_key, ssh_digest_bytes. rewrite Hd.
  rewrite (proj2 (Z.eqb_neq (digest_len d) 0)) by lia. cbn [malloc negb].
  destruct (sshbuf_ptr_spec (session_id n) (proj1 Hs)) as [slack ->]. rewrite len_good by done. cbn [default from_option id].
  rewrite Nat2Z.id, take_app_length, (kex_digest_spec _ d) by done.
  set (k := key_blocks need (digest_len d)).
  assert (Hk : Z.of_nat k = (need + (digest_len d - 1)) / digest_len d /\ (1 <= k)%nat /\
               Z.of_nat (k - 1) * digest_len d < need <= Z.of_nat k * digest_len d).
  { unfold k, key_blocks. pose proof (Z.div_pos (need + (digest_len d - 1)) (digest_len d)).
    pose proof (Z.mul_div_le (need + (digest_len d - 1)) (digest_len d)). pose proof (Z.mul_succ_div_gt (need + (digest_len d - 1)) (digest_len d)).
    set (q := (need + (digest_len d - 1)) / digest_len d) in *. assert (1 <= q) by nia. nia. }
  destruct Hk as (Hk & Hk1 & Hk2).
  assert (Er : ROUNDUP need (digest_len d) = Z.of_nat k * digest_len d).
  { unfold ROUNDUP, u64, SSH_DIGEST_MAX_LENGTH in *. rewrite (Z.mod_small (need + _)), <- Hk, Z.mod_small by nia. done. }
  rewrite Er.
  assert (Hh : forall m, length (hash (hash_alg n) m) = Z.to_nat (digest_len d)) by (intros m; pose proof (hash_length _ d m Hd); lia).
  rewrite take_0, drop_0, splice_0, Hh, drop_replicate. cbn [app concat]. rewrite app_nil_r.
  pose proof (derive_loop_spec (hash_alg n) d secret H x (contents (session_id n)) need k (Z.to_nat need) 1 Hd Hg) as E.
  rewrite Z.mul_1_l in E. cbn [kdf] in E. cbn [app] in E.
  replace ((k - 1) * Z.to_nat (digest_len d))%nat with (Z.to_nat (Z.of_nat k * digest_len d) - Z.to_nat (digest_len d))%nat in E by nia.
  rewrite E; [done|lia|done|nia].
Qed.

(** All keys of an exchange: the octet that tells them apart, and the key. *)
Definition key_for (n : kex_neg) (d : ssh_digest) (K H sid : list Z) (x : Z) : list Z :=
  kdf (key_blocks (we_need n) (digest_len d)) (hash_alg n) K H x sid.

Lemma derive_all_spec n d H secret ids :
  ssh_digest_by_alg (hash_alg n) = Some d -> good secret -> good (session_id n) -> 0 < we_need n < 2 ^ 32 ->
  derive_all ids [] n H secret = (0, map (key_for n d (contents secret) H (contents (session_id n))) ids, []).
Proof.
  intros Hd Hg Hs Hn. induction ids as [|x ids IH]; [done|]. cbn [derive_all map].
  rewrite (derive_key_spec n d) by done. change (negb (0 =? 0)) with false. cbv iota. by rewrite IH.
Qed.

Definition key_ids : list Z := [65; 66; 67; 68; 69; 70].

(** The session identifier that an exchange with the hash [H] uses, and that is
    kept: the first hash of the connection. *)
Definition session_of (k : kex) (H : list Z) : list Z :=
  if Z.land (k_flags k) KEX_INITIAL =? 0 then contents (session_id (k_neg k)) else H.

(** A session identifier exactly if this is not the first exchange. *)
Definition session_ok (k : kex) : Prop :=
  good (session_id (k_neg k)) /\ (Z.land (k_flags k) KEX_INITIAL = 0 <-> contents (session_id (k_neg k)) <> []).

(** The session identifier is saved, or is there. *)
Lemma save_session s k H :
  kexp s = Some k -> alloc s = [] -> session_ok k -> bytes_ok H -> Z.of_nat (length H) <= SSHBUF_SIZE_MAX ->
  exists sid,
    (if negb (Z.land (k_flags k) KEX_INITIAL =? 0) then
       when (negb (sshbuf_len (session_id (k_neg k)) =? 0)) (early SSH_ERR_INTERNAL_ERROR) ;*
       (fun s => let '(r, b, w) := sshbuf_put (alloc s) (session_id (k_neg k)) H (Z.of_nat (length H)) in
                 let s := set_alloc (set_kexp s (Some (with_neg k (set_session_id (k_neg k) b)))) w in
                 if negb (r =? 0) then (Early r, s) else (Ok tt, s))
     else when (sshbuf_len (session_id (k_neg k)) =? 0) (early SSH_ERR_INTERNAL_ERROR)) s =
      (Ok tt, set_kexp s (Some (with_neg k (set_session_id (k_neg k) sid)))) /\
    good sid /\ contents sid = session_of k H.
Proof.
  intros Hk Ha [Hs Hse] HH HHl. unfold session_of. set (f := Z.land (k_flags k) KEX_INITIAL) in *.
  rewrite len_good by done. destruct (Z.eqb_spec f 0) as [Hf|Hf]; cbn [negb].
  - exists (session_id (k_neg k)). split; [|done]. apply Hse in Hf.
    rewrite (proj2 (Z.eqb_neq _ 0)) by (destruct (contents (session_id (k_neg k))); [done|cbn; lia]).
    unfold when, ret. f_equal. rewrite (kexp_rest s) at 1. rewrite Hk.
    assert (Ek : with_neg k (set_session_id (k_neg k) (session_id (k_neg k))) = k) by (by destruct k as [? ? ? ? ? ? []]).
    rewrite Ek. reflexivity.
  - assert (Hc : contents (session_id (k_neg k)) = []) by (destruct (contents (session_id (k_neg k))); [done|exfalso; apply Hf, Hse; done]).
    rewrite Hc. change (negb (Z.of_nat (length []) =? 0)) with false. rewrite bind_when_false, Ha.
    destruct (put_good (session_id (k_neg k)) H (Z.of_nat (length H))) as (b & Ep & Hgb & Hcb); try done; [lia|rewrite Hc; cbn; lia|].
    rewrite Ep. change (negb (0 =? 0)) with false. exists b. rewrite set_alloc_same by done. split; [done|]. split; [done|].
    by rewrite Hcb, Hc, Nat2Z.id, firstn_all.
Qed.

Lemma derive_keys_spec s k d H secret nin nout :
  kexp s = Some k -> alloc s = [] -> session_ok k -> ssh_digest_by_alg (hash_alg (k_neg k)) = Some d -> good secret ->
  bytes_ok H -> Z.of_nat (length H) <= SSHBUF_SIZE_MAX -> 0 < we_need (k_neg k) < 2 ^ 32 ->
  k_newkeys_in k = Some nin -> k_newkeys_out k = Some nout ->
  let keys := map (key_for (k_neg k) d (contents secret) H (session_of k H)) key_ids in
  let server := k_server (k_neg k) in
  exists k', kex_derive_keys H secret s = (Ok 0, set_kexp s (Some k')) /\
    k_newkeys_in k' = Some (with_keys nin keys (is_ctos server MODE_IN)) /\
    k_newkeys_out k' = Some (with_keys nout keys (is_ctos server MODE_OUT)) /\
    contents (session_id (k_neg k')) = session_of k H /\ kex_strict k' = kex_strict k.
Proof.
  intros Hk Ha Hses Hd Hg HH HHl Hn Hin Hout keys server.
  destruct (save_session s k H Hk Ha Hses HH HHl) as (sid & Esid & Hgs & Hcs).
  set (k1 := with_neg k (set_session_id (k_neg k) sid)) in *. eexists. split.
  - apply func_ok. unfold bind at 1. unfold the_kex at 1. rewrite Hk. rewrite (bind_ok _ _ _ _ _ Esid), the_kex_at.
    unfold bind at 1. change (alloc (set_kexp s (Some k1))) with (alloc s). rewrite Ha.
    rewrite (derive_all_spec (k_neg k1) d) by done. change (negb (0 =? 0)) with false. cbv iota zeta. rewrite set_alloc_same by done.
    change (k_newkeys_in k1) with (k_newkeys_in k). change (k_newkeys_out k1) with (k_newkeys_out k). rewrite Hin, Hout.
    rewrite modify_kex_at. change (contents (session_id (k_neg k1))) with (contents sid). rewrite Hcs. reflexivity.
  - split; [reflexivity|]. split; [reflexivity|]. split; [exact Hcs|reflexivity].
Qed.

(** ** Keys in use *)

(** A cipher reads as much of the key and of the initial counter as it needs. *)
Lemma byte_at_take n m k i : (n + i < m)%nat -> byte_at (drop n (take m k)) i = byte_at (drop n k) i.
Proof. intros H. unfold byte_at. by rewrite !lookup_drop, lookup_take_lt by lia. Qed.

Lemma U8TO32_take n m k : (n + 4 <= m)%nat -> U8TO32_LITTLE (drop n (take m k)) = U8TO32_LITTLE (drop n k).
Proof. intros H. unfold U8TO32_LITTLE. by rewrite !byte_at_take by lia. Qed.

Lemma GETU32_take n m k : (n + 4 <= m)%nat -> GETU32 (drop n (take m k)) = GETU32 (drop n k).
Proof. intros H. unfold GETU32. by rewrite !byte_at_take by lia. Qed.

Lemma chacha_keysetup_take x k : chacha_keysetup x (take 32 k) 256 = chacha_keysetup x k 256.
Proof.
  unfold chacha_keysetup. change (256 =? 256) with true. cbv iota. rewrite !drop_drop.
  pose proof (U8TO32_take 0 32 k ltac:(lia)) as H0. rewrite !drop_0 in H0. by rewrite H0, !U8TO32_take by lia.
Qed.

Lemma rijndael_setup_take k bits : bits = 128 \/ bits = 192 \/ bits = 256 ->
  rijndaelKeySetupEnc (take (Z.to_nat (bits / 8)) k) bits = rijndaelKeySetupEnc k bits.
Proof.
  intros [-> |[-> | ->]]; unfold rijndaelKeySetupEnc; cbn [Z.eqb Pos.eqb];
    match goal with |- context [Z.to_nat (?b / 8)] => let n := eval compute in (Z.to_nat (b / 8)) in change (Z.to_nat (b / 8)) with n end;
    rewrite !GETU32_take by lia; reflexivity.
Qed.

Lemma cipher_init_take w c key iv e :
  In c ciphers -> key_len c <= Z.of_nat (length key) -> cipher_ivlen c <= Z.of_nat (length iv) ->
  cipher_init w c (take (Z.to_nat (key_len c)) key) (key_len c) (Some (take (Z.to_nat (cipher_ivlen c)) iv)) (cipher_ivlen c) e =
  cipher_init w c key (key_len c) (Some iv) (cipher_ivlen c) e.
Proof.
  intros Hc Hk Hi. unfold cipher_init. destruct (malloc w) as [ok w1]. destruct (negb ok); [done|]. destruct (_ || _); [done|].
  destruct (cipher_cases c Hc) as [(Hf & _ & Hkl & Hil & _)|[(Hf & _ & Hkl & Hil & _)|(Hf & _)]];
    rewrite !(has_flag_of _ _ _ Hf).
  - change (negb (Z.land CFLAG_AESCTR CFLAG_CHACHAPOLY =? 0)) with false. change (negb (Z.land CFLAG_AESCTR CFLAG_NONE =? 0)) with false.
    change (negb (Z.land CFLAG_AESCTR CFLAG_AESCTR =? 0)) with true. cbv iota zeta. cbn [default from_option id].
    assert (Eiv : forall x, aesctr_ivsetup x (take (Z.to_nat (cipher_ivlen c)) iv) = aesctr_ivsetup x iv).
    { intros x. unfold aesctr_ivsetup, AES_BLOCK_SIZE. rewrite take_take, Hil. done. }
    assert (Ek : aesctr_keysetup zero_ac (take (Z.to_nat (key_len c)) key) (u32 (8 * key_len c)) (u32 (8 * cipher_ivlen c)) =
                 aesctr_keysetup zero_ac key (u32 (8 * key_len c)) (u32 (8 * cipher_ivlen c))).
    { unfold aesctr_keysetup. assert (Eb : u32 (8 * key_len c) = 128 \/ u32 (8 * key_len c) = 192 \/ u32 (8 * key_len c) = 256)
        by (destruct Hkl as [-> |[-> | ->]]; cbn; tauto).
      rewrite <- (rijndael_setup_take key _ Eb). do 3 f_equal. destruct Hkl as [-> |[-> | ->]]; done. }
    by rewrite Ek, Eiv.
  - change (negb (Z.land CFLAG_CHACHAPOLY CFLAG_CHACHAPOLY =? 0)) with true. cbv iota.
    rewrite Hkl. unfold chachapoly_new. change (negb (64 =? 32 + 32)) with false. cbv iota.
    change (Z.to_nat 64) with 64%nat. rewrite <- (chacha_keysetup_take zero_ctx (take 64 key)), take_take, skipn_firstn_comm.
    change (64 - 32)%nat with 32%nat. change (32 `min` 64)%nat with 32%nat. by rewrite !chacha_keysetup_take.
  - reflexivity.
Qed.

(** ** Macs *)

Lemma hmac_init_ok h alg d key n :
  absorbed (ictx h) alg [] -> absorbed (octx h) alg [] -> dg_alg (hdigest h) = alg -> h_alg h = alg ->
  ssh_digest_by_alg alg = Some d -> n <= hbuf_len h ->
  exists h', ssh_hmac_init [] h (Some key) n = (0, h', []).
Proof.
  intros Hi Ho Hg Ha Hd Hn. unfold ssh_hmac_init, hmac_set_key. rewrite (proj2 (Z.leb_le _ _) Hn). change (0 <? 0) with false. cbv iota.
  set (buf := xor_all 54 _). destruct (update_absorbed (ictx h) alg d [] buf (hbuf_len h) Hi Hd) as (i & -> & Hi1). change (0 <? 0) with false. cbv iota.
  set (buf2 := xor_all _ buf). destruct (update_absorbed (octx h) alg d [] buf2 (hbuf_len h) Ho Hd) as (o & -> & Ho1). change (0 <? 0) with false. cbv iota.
  change (negb (0 =? 0)) with false. cbv iota. cbn [ictx hdigest].
  destruct (copy_absorbed i (hdigest h) alg d _ Hi1 Hg Hd) as (g & -> & _). change (0 <? 0) with false. by eexists.
Qed.

Lemma hmac_start_ok alg d :
  ssh_digest_by_alg alg = Some d ->
  exists h, ssh_hmac_start [] alg = (Some h, []) /\ absorbed (ictx h) alg [] /\ absorbed (octx h) alg [] /\
    dg_alg (hdigest h) = alg /\ h_alg h = alg /\ hbuf_len h = block_len d.
Proof.
  intros Hd. destruct (digest_start_nil alg d Hd) as (ctx & E & Hc). unfold ssh_hmac_start. cbn [malloc negb]. rewrite !E.
  eexists. split; [reflexivity|]. cbn [ictx octx hdigest h_alg hbuf_len]. pose proof Hc as [Ha _]. split_and!; try done.
  unfold ssh_digest_blocksize. by rewrite Ha, Hd.
Qed.

(** A mac that was chosen works with any key that is long enough. *)
Lemma chosen_mac_init c s m key w :
  choose_mac [] zero_mac c s = (0, m, w) -> m_key_len m <= Z.of_nat (length key) ->
  m_enabled m = false /\ exists m2 sec, mac_init [] (set_key m key) = (0, m2, []) /\ mac_keyed m2 sec /\ mac_len m2 = mac_len m /\
    m_etm m2 = m_etm m /\ m_enabled m2 = false.
Proof.
  unfold choose_mac. destruct (fst (match_list c s)) as [name|]; [|done]. intros E Hl.
  set (m0 := mk_mac name false 0 None 0 0 false None None).
  assert (Es : mac_setup [] (Some m0) name = (0, Some m, []) /\ m_enabled m = false).
  { unfold mac_setup in *. destruct (mac_by_name name) as [a|]; [|done]. unfold mac_setup_by_alg in *.
    destruct (ma_type a =? SSH_DIGEST).
    - pose proof (hmac_start_nil (ma_alg a)) as Hn. destruct (ssh_hmac_start [] (ma_alg a)) as [[h|] w1]; cbn [snd] in Hn; subst w1; [|done].
      cbn in E |- *. by injection E as <- <-.
    - cbn in E |- *. by injection E as <- <-. }
  destruct Es as [Es Hen]. split; [done|]. clear E.
  assert (Ei : exists m2, mac_init [] (set_key m key) = (0, m2, [])).
  { unfold mac_setup in Es. destruct (mac_by_name name) as [a|] eqn:Ea; [|done]. unfold mac_by_name in Ea. apply find_some in Ea as [Hin _].
    unfold mac_setup_by_alg in Es. unfold mac_init.
    destruct (macs_cases a Hin) as [(Ht & d & Hd & Hc)|[(Ht & Hal & Hc)|(Ht & Hal & Hc)]]; rewrite Ht in Es.
    - change (SSH_DIGEST =? SSH_DIGEST) with true in Es. cbv iota in Es.
      destruct (hmac_start_ok (ma_alg a) d Hd) as (h & Eh & H1 & H2 & H3 & H4 & H5). rewrite Eh in Es. cbn [negb Z.eqb] in Es.
      injection Es as <-. cbn [set_key m_key m_type m_hmac m_key_len] in *. change (SSH_DIGEST =? SSH_DIGEST) with true. cbv iota.
      unfold ssh_hmac_bytes, ssh_digest_bytes in *. rewrite Hd in *. pose proof (digest_cases _ _ Hd) as Hdc.
      destruct (hmac_init_ok h (ma_alg a) d key (digest_len d)) as (h' & ->); try done; [lia|]. change (0 <? 0) with false. by eexists.
    - change (SSH_UMAC =? SSH_DIGEST) with false in Es. cbn [negb Z.eqb] in Es. injection Es as <-. by eexists.
    - change (SSH_UMAC128 =? SSH_DIGEST) with false in Es. cbn [negb Z.eqb] in Es. injection Es as <-. by eexists. }
  destruct Ei as (m2 & Ei). destruct (mac_setup_keyed _ _ _ _ _ _ _ _ Es Hl Ei) as (a & d & Ha & _ & Hk & He & Hen2).
  exists m2, (secret_of a d key). split; [done|]. split; [done|].
  split; [by apply mac_init_len in Ei|]. split; [|done]. rewrite He.
  unfold mac_setup in Es. rewrite Ha in Es. unfold mac_setup_by_alg in Es. destruct (ma_type a =? SSH_DIGEST).
  - destruct (ssh_hmac_start [] (ma_alg a)) as [[h|] w1]; [|done]. by injection Es as <- _.
  - by injection Es as <-.
Qed.

End keys.
