(* ===== verification/KexAgree.v ===== *)
(** Key exchange, end to end: a proposal that is written is read back, two ends
    that read each other's proposals choose the same algorithms, and the keys
    that they derive open the packets of each other. *)

From stdpp Require Import base list numbers tactics.
From Stdlib Require Import ZArith Lia ZifyBool.
From S2P Require Import Prelude Sshbuf SshbufGetput SshbufShare SshbufRead Match Chacha Chachapoly Rijndael AesCtr Cipher Digest Mac.
From S2P Require Import PacketState Packet PacketBuf PacketSend PacketFrame PacketMem PacketAuth PacketRecv PacketThms KexNames Kex KexThms KexKeys.

#[local] Open Scope ssh_scope.

(** ** Proposals on the wire *)

(** A buffer of one owner, to which anything up to the maximum can be added. *)
Definition owned (b : sshbuf) (v : list Z) : Prop := good b /\ sb_refcount b = 1 /\ contents b = v.

Lemma owned_reading b v : owned b v -> reading 1 b v.
Proof. intros ((? & _) & ? & ?). done. Qed.

Lemma fill_owned b u v :
  owned b u -> bytes_ok v -> Z.of_nat (length u) + Z.of_nat (length v) <= SSHBUF_SIZE_MAX ->
  exists b', reserve_fill [] b v = (0, b', []) /\ owned b' (u ++ v).
Proof.
  intros (Hg & Hr & Hc) Hv Hl. destruct (reserve_good b (Z.of_nat (length v)) Hg) as (b1 & dp & E & _ & _ & H); [lia|by rewrite Hc|].
  destruct (H v Hv eq_refl) as [Hg1 Hc1]. exists (mem_write b1 dp v).
  assert (Ef : reserve_fill [] b v = (0, mem_write b1 dp v, [])) by (unfold reserve_fill; by rewrite E). split; [done|].
  apply reserve_fill_spec in Ef as (_ & (_ & _ & Hr1 & _) & _); [|apply Hg|done].
  split_and!; [done|by rewrite Hr1|by rewrite Hc1, Hc].
Qed.

Lemma reset_owned b u : owned b u -> exists b', sshbuf_reset [] b = (b', []) /\ owned b' [].
Proof.
  intros (Hg & Hr & _). destruct (reset_good b Hg) as (b' & E & Hg' & Hc'). exists b'. split; [done|]. split_and!; try done.
  apply sshbuf_reset_spec in E as (_ & _ & (_ & _ & -> & _) & _); [done|apply Hg|].
  destruct Hg as (_ & _ & ->). unfold SSHBUF_SIZE_INIT, SSHBUF_SIZE_MAX. lia.
Qed.

Lemma bytes_ok_zero : bytes_ok [u8 0].
Proof. by repeat constructor. Qed.

Lemma put_zeros_owned n : forall b u,
  owned b u -> Z.of_nat (length u) + Z.of_nat n <= SSHBUF_SIZE_MAX ->
  exists b', put_zeros n [] b = (0, b', []) /\ owned b' (u ++ replicate n 0).
Proof.
  induction n as [|n IH]; intros b u Hb Hl; [exists b; by rewrite app_nil_r|].
  destruct (fill_owned b u [u8 0] Hb) as (b1 & E1 & H1); [apply bytes_ok_zero|cbn [length]; lia|].
  destruct (IH b1 _ H1) as (b2 & E2 & H2); [rewrite length_app; cbn [length]; lia|]. exists b2.
  cbn [put_zeros]. rewrite sshbuf_put_u8_fill, E1. split; [exact E2|]. by rewrite <- app_assoc in H2.
Qed.

Lemma put_cstrings_owned ps : forall b u,
  owned b u -> Forall (fun p => bytes_ok p) ps -> Z.of_nat (length u) + Z.of_nat (length (proposal_octets ps)) <= SSHBUF_SIZE_MAX ->
  exists b', put_cstrings [] b ps = (0, b', []) /\ owned b' (u ++ proposal_octets ps).
Proof.
  induction ps as [|p ps IH]; intros b u Hb Hp Hl; [exists b; by rewrite app_nil_r|].
  apply Forall_cons_1 in Hp as [Hp Hps]. unfold proposal_octets in Hl |- *. cbn [map concat] in Hl |- *.
  rewrite length_app, length_enc_string in Hl.
  destruct (fill_owned b u (enc_string p) Hb) as (b1 & E1 & H1); [auto with sshdb|rewrite length_enc_string; lia|].
  destruct (IH b1 _ H1 Hps) as (b2 & E2 & H2); [rewrite length_app, length_enc_string; unfold proposal_octets; lia|]. exists b2.
  cbn [put_cstrings]. unfold sshbuf_put_cstring. cbn [default from_option id].
  rewrite sshbuf_put_string_fill, E1 by (apply Hb || lia). split; [exact E2|]. by rewrite <- app_assoc in H2.
Qed.

Lemma prop2buf_owned b u ps :
  owned b u -> Forall (fun p => bytes_ok p) ps -> Z.of_nat (length (kexinit_octets (replicate 16 0) ps 0 0)) <= SSHBUF_SIZE_MAX ->
  exists b', kex_prop2buf [] b ps = (0, b', []) /\ owned b' (kexinit_octets (replicate 16 0) ps 0 0).
Proof.
  intros Hb Hp Hl. unfold kexinit_octets in Hl. rewrite !length_app, length_replicate in Hl. change (length (POKE_U32 0)) with 4%nat in Hl. cbn [length] in Hl.
  destruct (reset_owned b u Hb) as (b1 & E1 & H1). unfold kex_prop2buf. rewrite E1. change (Z.to_nat KEX_COOKIE_LEN) with 16%nat.
  destruct (put_zeros_owned 16 b1 [] H1) as (b2 & -> & H2); [cbn [length]; lia|]. change (negb (0 =? 0)) with false. cbv iota.
  destruct (put_cstrings_owned ps b2 _ H2 Hp) as (b3 & -> & H3); [cbn [app]; rewrite length_replicate; lia|].
  change (negb (0 =? 0)) with false. cbv iota. rewrite sshbuf_put_u8_fill.
  destruct (fill_owned b3 _ [u8 0] H3) as (b4 & -> & H4); [apply bytes_ok_zero|rewrite !length_app, length_replicate; cbn [length]; lia|].
  change (negb (0 =? 0)) with false. cbv iota. rewrite sshbuf_put_u32_fill.
  destruct (fill_owned b4 _ (POKE_U32 (u32 0)) H4) as (b5 & E5 & H5);
    [auto with sshdb|rewrite !length_app, length_replicate; change (length (POKE_U32 (u32 0))) with 4%nat; cbn [length]; lia|].
  exists b5. split; [done|]. by rewrite <- !app_assoc in H5.
Qed.

(** C23: with memory that lasts, [kex_prop2buf] writes any ten algorithm lists
    without NUL that fit, after dropping what the buffer held, and
    [kex_buf2prop] reads back the same ten lists and a clear
    first_kex_packet_follows; the buffer still holds the message afterwards, with
    one owner. *)
Theorem proposal_roundtrip b old ps :
  owned b old -> proposal_ok ps -> Forall (fun p => bytes_ok p) ps ->
  Z.of_nat (length (kexinit_octets (replicate 16 0) ps 0 0)) <= SSHBUF_SIZE_MAX ->
  exists b' b'', kex_prop2buf [] b ps = (0, b', []) /\ kex_buf2prop [] b' = (0, 0, ps, b'', []) /\
    reading 1 b'' (kexinit_octets (replicate 16 0) ps 0 0).
Proof.
  intros Hb Hp Hpb Hl. destruct (prop2buf_owned b old ps Hb Hpb Hl) as (b' & E & Hb').
  destruct (buf2prop_read b' (replicate 16 0) ps 0 0 (owned_reading _ _ Hb') eq_refl Hp ltac:(lia)) as (b'' & E2 & H2). by exists b', b''.
Qed.

(** ** Two ends *)

(** The octets of a KEXINIT with the lists [ps]. *)
Definition kexinit (ps : list (list Z)) (octets : list Z) : Prop :=
  exists cookie follows reserved, octets = kexinit_octets cookie ps follows reserved /\
    Z.of_nat (length cookie) = KEX_COOKIE_LEN /\ proposal_ok ps /\ 0 <= reserved < 2 ^ 32.

Section agree.
Context {md : MD} {um : Umac} {mdl : MDLaws} {uml : UmacLaws}.

(** An end that has sent [mine] and received [theirs]. *)
Definition offers (s : ssh) (server : bool) (mine theirs : list Z) : Prop :=
  exists k, kexp s = Some k /\ alloc s = [] /\ k_server (k_neg k) = server /\
    reading 1 (k_my k) mine /\ reading 1 (k_peer (k_neg k)) theirs.

Lemma offers_proposals k my peer mine theirs :
  reading 1 (k_my k) mine -> reading 1 (k_peer (k_neg k)) theirs -> kexinit my mine -> kexinit peer theirs ->
  exists follows, proposals_of k my peer follows.
Proof.
  intros Hm Hp (c1 & f1 & r1 & -> & Hc1 & Ho1 & Hr1) (c2 & f2 & r2 & -> & Hc2 & Ho2 & Hr2). exists f2.
  destruct (buf2prop_read _ _ _ _ _ Hm Hc1 Ho1 Hr1) as (b1 & E1 & _). destruct (buf2prop_read _ _ _ _ _ Hp Hc2 Ho2 Hr2) as (b2 & E2 & _).
  by exists f1, b1, b2.
Qed.

(** The result of one end. *)
Lemma end_chooses s server mine theirs my peer seq o s' :
  offers s server mine theirs -> kexinit my mine -> kexinit peer theirs ->
  kex_choose_conf seq s = (o, s') -> o <> Fatal ->
  match conf_of (if server then peer else my) (if server then my else peer) server with
  | Some c => o = Ok 0 /\ exists k k', kexp s = Some k /\ kexp s' = Some k' /\ chose k k' c /\
      set_dispatch_skip_packets (set_kexp s' None) 0 = set_dispatch_skip_packets (set_kexp s None) 0
  | None => o <> Ok 0
  end.
Proof.
  intros (k & Hk & Ha & <- & Hm & Hp) Hmy Hpe E Hf. destruct (offers_proposals _ _ _ _ _ Hm Hp Hmy Hpe) as [fo Hpo].
  apply (choose_conf_spec s k my peer fo) in E as [->|E]; try done.
  destruct (conf_of _ _ _) as [c|].
  - destruct E as (-> & k' & Hch & Hs). split; [done|]. exists k, k'. by destruct Hs as [-> | ->].
  - destruct E as (r & -> & Hr). by intros [= ->].
Qed.

(** The two ends see the same choice, from either side. *)
Lemma conf_of_mirror cprop sprop :
  conf_of cprop sprop true = option_map (fun '(name, a, hk, nin, nout) => (name, a, hk, nout, nin)) (conf_of cprop sprop false).
Proof.
  unfold conf_of. destruct (fst _) as [name|]; [|done]. destruct (kex_alg_by_name name) as [a|]; [|done].
  destruct (fst _) as [hk|]; [|done]. destruct (_ =? KEY_UNSPEC); [done|].
  change (is_ctos true MODE_IN) with true. change (is_ctos true MODE_OUT) with false.
  change (is_ctos false MODE_IN) with false. change (is_ctos false MODE_OUT) with true.
  destruct (chosen cprop sprop true), (chosen cprop sprop false); done.
Qed.

Lemma MAXIMUM_max a b : MAXIMUM a b = Z.max a b.
Proof. unfold MAXIMUM. destruct (Z.gtb_spec a b); lia. Qed.

Definition needs (nk : newkeys) : Z :=
  Z.max (Z.max (e_block_size (enc nk)) (e_iv_len (enc nk))) (m_key_len (nmac nk)).

Lemma more_need_max nk x y :
  more_need nk (x, y) = (Z.max x (Z.max (e_key_len (enc nk)) (needs nk)), Z.max y (Z.max (cipher_seclen (e_cipher (enc nk))) (needs nk))).
Proof. unfold more_need, needs. by rewrite !MAXIMUM_max, !Z.max_assoc. Qed.

Lemma more_need_comm a b nd : more_need a (more_need b nd) = more_need b (more_need a nd).
Proof. destruct nd as [x y]. rewrite !more_need_max. f_equal; lia. Qed.

(** What the ends of an exchange agree on. *)
Record agreed (cps sps : list (list Z)) (kc ks : kex) : Prop := {
  ag_method : k_name (k_neg kc) = fst (match_list (prop_at cps PROPOSAL_KEX_ALGS) (prop_at sps PROPOSAL_KEX_ALGS));
  ag_name : k_name (k_neg ks) = k_name (k_neg kc);
  ag_type : kex_type (k_neg ks) = kex_type (k_neg kc);
  ag_hash : hash_alg (k_neg ks) = hash_alg (k_neg kc);
  ag_nid : ec_nid (k_neg ks) = ec_nid (k_neg kc);
  ag_hostkey : hostkey_alg (k_neg ks) = hostkey_alg (k_neg kc);
  ag_need : we_need (k_neg ks) = we_need (k_neg kc);
  ag_dh_need : dh_need (k_neg ks) = dh_need (k_neg kc);
  ag_ctos : k_newkeys_in ks = k_newkeys_out kc;
  ag_stoc : k_newkeys_out ks = k_newkeys_in kc
}.


(** ** Keys that come into use *)

Definition out (mode : kex_mode) : bool := match mode with MODE_OUT => true | MODE_IN => false end.

Definition ctx_of (mode : kex_mode) (s : ssh) : option sshcipher_ctx :=
  match mode with MODE_IN => receive_context s | MODE_OUT => send_context s end.

(** Keys that give the direction [d], with the mac [m] once it is keyed. *)
Definition ready (nk : newkeys) (m : sshmac) (d : dir) : Prop :=
  let c := e_cipher (enc nk) in
  In c ciphers /\ e_block_size (enc nk) = block_size c /\ d_block d = block_size c /\ comp nk = mk_comp COMP_NONE false /\
  (forall e, exists cc, cipher_init [] c (e_key (enc nk)) (e_key_len (enc nk)) (Some (e_iv (enc nk))) (e_iv_len (enc nk)) e = (0, Some cc, []) /\
     has_state cc (d_state d) /\ cipher cc = c /\ encrypt cc = e) /\
  (if cipher_authlen c =? 0 then mac_init [] (nmac nk) = (0, m, []) else m = nmac nk) /\
  match d_mac d with
  | None => auth_len c <> 0
  | Some (sec, len, etm) => auth_len c = 0 /\ mac_keyed m sec /\ mac_len m = len /\ m_etm m = etm
  end.

(** The state after keys were taken. *)
Definition keyed_state (mode : kex_mode) (s : ssh) (k : kex) (nk : newkeys) (m : sshmac) (cc : sshcipher_ctx) (mb : Z) : ssh :=
  let s := set_newkeys mode s None in
  let s := set_ps mode s (mk_ps (seqnr (ps_of mode s)) 0 0 (bytes (ps_of mode s))) in
  let s := set_kexp (set_newkeys mode s (Some (mk_newkeys (enc nk) (set_enabled m) (comp nk)))) (Some (snd (take_kex_newkeys mode k))) in
  set_max_blocks mode (set_ctx mode s (Some cc)) mb.

Lemma set_newkeys_ready mode s k nk m d :
  kexp s = Some k -> kex_newkeys mode k = Some nk -> alloc s = [] -> ready nk m d ->
  exists cc mb, ssh_set_newkeys mode s = (Ok 0, keyed_state mode s k nk m cc mb) /\
    dir_ok (out mode) (Some (mk_newkeys (enc nk) (set_enabled m) (comp nk))) (Some cc) d.
Proof.
  intros Hk Hn Ha (Hin & Hbs & Hdb & Hco & Hcc & Hm & Hd). destruct (Hcc (out mode)) as (cc & Ec & Hst & Hci & Hen).
  exists cc. eexists. split.
  - apply func_ok. rewrite !bind_modify. unfold bind at 1. unfold the_kex.
    match goal with |- context [kexp ?t] => replace (kexp t) with (Some k) by (symmetry; by destruct mode) end. cbv iota beta.
    assert (Et : take_kex_newkeys mode k = (Some nk, snd (take_kex_newkeys mode k))) by (destruct mode; cbn in *; by rewrite Hn).
    rewrite Et. cbv iota. rewrite bind_modify.
    match goal with |- bind _ _ ?t = _ => set (s1 := t) end.
    assert (Ha1 : alloc s1 = []) by (by destruct mode).
    set (s2 := set_newkeys mode s1 (Some (mk_newkeys (enc nk) m (comp nk)))).
    assert (Es2 : forall B (f : unit -> M B), bind (when (cipher_authlen (e_cipher (enc nk)) =? 0)
        (fun s => let '(r, mac, w) := mac_init (alloc s) (nmac nk) in
                  bind (set_mac mode mac) (fun _ => if negb (r =? 0) then early r else ret tt) (set_alloc s w))) f s1 = f tt s2).
    { intros B f. unfold when, bind at 1. destruct (cipher_authlen (e_cipher (enc nk)) =? 0).
      - rewrite Ha1, Hm. rewrite set_alloc_same by done. unfold set_mac. rewrite bind_modify. unfold s2.
        f_equal. unfold s1. by destruct mode.
      - unfold ret. f_equal. unfold s2. rewrite Hm. unfold s1. destruct mode, nk; reflexivity. }
    rewrite Es2. rewrite bind_get. replace (newkeys_of mode s2) with (Some (mk_newkeys (enc nk) m (comp nk))) by (by destruct mode).
    cbv iota. unfold set_mac. rewrite bind_modify. cbn [enc nmac comp].
    unfold bind at 1. match goal with |- context [alloc ?t] => replace (alloc t) with (@nil bool) by (symmetry; by destruct mode) end.
    change (match mode with MODE_IN => false | MODE_OUT => true end) with (out mode). rewrite Ec. change (negb (0 =? 0)) with false. cbv iota.
    rewrite set_alloc_same by (by destruct mode). rewrite bind_get, Hco. cbn [comp_type comp_enabled].
    change (COMP_NONE =? COMP_ZLIB) with false. change (COMP_NONE =? COMP_DELAYED) with false. cbn [orb andb].
    rewrite bind_when_false, bind_get, bind_modify. unfold ret. unfold keyed_state, s2, s1. destruct mode; reflexivity.
  - exists cc. split; [done|]. split; [done|]. split; [done|]. rewrite Hci. cbn [enc nmac comp]. rewrite Hco.
    split_and!; done.
Qed.

Lemma cipher_init_lasts c key iv e :
  In c ciphers -> bytes_ok key -> Z.of_nat (length key) = key_len c -> bytes_ok iv -> Z.of_nat (length iv) = cipher_ivlen c ->
  exists cc, cipher_init [] c key (key_len c) (Some iv) (cipher_ivlen c) e = (0, Some cc, []) /\
    has_state cc (init_state c key iv) /\ cipher cc = c /\ encrypt cc = e.
Proof.
  intros Hc Hk Hkl Hi Hil. pose proof (cipher_init_spec [] c key iv e Hc Hk Hkl Hi Hil) as H. rewrite Hkl, Hil in H.
  assert (E : exists cc, cipher_init [] c key (key_len c) (Some iv) (cipher_ivlen c) e = (0, Some cc, [])).
  { unfold cipher_init. cbn [malloc negb]. rewrite !Z.ltb_irrefl. cbn [orb andb].
    destruct (cipher_cases c Hc) as [(Hf & _)|[(Hf & _ & Hkc & _)|(Hf & _)]]; flag_simp; try by eexists.
    rewrite Hkc. by eexists. }
  destruct E as [cc E]. rewrite E in H. exists cc. tauto.
Qed.

(** Keys long enough for the algorithms of [nk]. *)
Definition long_keys (nk : newkeys) (keys : list (list Z)) (n : nat) : Prop :=
  length keys = n /\ Forall (fun key => bytes_ok key /\ e_key_len (enc nk) <= Z.of_nat (length key) /\
    e_iv_len (enc nk) <= Z.of_nat (length key) /\ m_key_len (nmac nk) <= Z.of_nat (length key)) keys.

Lemma chosen_ready cprop sprop ctos nk keys :
  chosen cprop sprop ctos = Some nk -> long_keys nk keys 6 -> exists m d, ready (with_keys nk keys ctos) m d.
Proof.
  unfold chosen. destruct (choose_enc _ _) as [re e] eqn:Ee. intros Hch Hkeys. destruct re; [|done..].
  assert (He : In (e_cipher e) ciphers /\ e = mk_enc (e_cipher e) (key_len (e_cipher e)) (cipher_ivlen (e_cipher e)) (block_size (e_cipher e)) [] []).
  { unfold choose_enc in Ee. destruct (fst _) as [name|]; [|done]. destruct (cipher_by_name name) as [c|] eqn:Ec; [|done].
    injection Ee as <-. unfold cipher_by_name in Ec. by apply find_some in Ec as [? _]. }
  destruct He as [Hin He]. set (c := e_cipher e) in *. clearbody c. subst e.
  set (x := if cipher_authlen c =? 0 then choose_mac [] zero_mac _ _ else (0, zero_mac, [])) in Hch. destruct x as [[rm m] w] eqn:Em.
  destruct rm; [|done..]. destruct (choose_comp _ _) as [rc co] eqn:Eco. destruct rc; [|done..]. injection Hch as <-.
  assert (Hco : co = mk_comp COMP_NONE false).
  { unfold choose_comp in Eco. destruct (fst _); [|done]. destruct (bool_decide _); [by injection Eco as <-|done]. }
  destruct Hkeys as [Hlk Hkeys]. cbn [enc nmac e_key_len e_iv_len] in Hkeys.
  assert (Hkey : forall i, (i < 6)%nat -> let key := default [] (keys !! i) in
    bytes_ok key /\ key_len c <= Z.of_nat (length key) /\ cipher_ivlen c <= Z.of_nat (length key) /\ m_key_len m <= Z.of_nat (length key)).
  { intros i Hi. destruct (lookup_lt_is_Some_2 keys i) as [key Hk]; [lia|]. rewrite Hk. by apply (Forall_lookup_1 _ _ _ _ Hkeys Hk). }
  destruct (Hkey (if ctos then 2 else 3)%nat) as (Kb & Kl & _); [by destruct ctos; lia|].
  destruct (Hkey (if ctos then 0 else 1)%nat) as (Ib & _ & Il & _); [by destruct ctos; lia|].
  destruct (Hkey (if ctos then 4 else 5)%nat) as (_ & _ & _ & Ml); [by destruct ctos; lia|]. clear Hkey Hkeys Ee Eco.
  unfold ready, with_keys. cbn [enc nmac comp e_cipher e_key_len e_iv_len e_block_size e_key e_iv].
  set (key := default [] (keys !! (if ctos then 2 else 3)%nat)) in *. set (iv := default [] (keys !! (if ctos then 0 else 1)%nat)) in *.
  set (mkey := default [] (keys !! (if ctos then 4 else 5)%nat)) in *.
  assert (Hci : forall e0, exists cc, cipher_init [] c key (key_len c) (Some iv) (cipher_ivlen c) e0 = (0, Some cc, []) /\
    has_state cc (init_state c (take (Z.to_nat (key_len c)) key) (take (Z.to_nat (cipher_ivlen c)) iv)) /\ cipher cc = c /\ encrypt cc = e0).
  { intros e0. rewrite <- cipher_init_take by done. assert (0 <= key_len c /\ 0 <= cipher_ivlen c) as [? ?]
      by (destruct (cipher_cases c Hin) as [(_ & _ & H1 & H2 & _)|[(_ & _ & H1 & H2 & _)|(_ & _ & H1 & H2 & _)]]; lia).
    apply cipher_init_lasts; auto with sshdb; rewrite length_take; lia. }
  unfold x in Em. unfold cipher_authlen in *. destruct (Z.eqb_spec (auth_len c) 0) as [Hau|Hau].
  - destruct (chosen_mac_init _ _ _ mkey _ Em Ml) as (_ & m2 & sec & Ei & Hmk & Hml & Het & _).
    exists m2, (mk_dir (init_state c (take (Z.to_nat (key_len c)) key) (take (Z.to_nat (cipher_ivlen c)) iv))
                  (Some (sec, mac_len m, m_etm m)) (block_size c)).
    cbn [d_state d_mac d_block]. split_and!; done.
  - exists (set_key m mkey), (mk_dir (init_state c (take (Z.to_nat (key_len c)) key) (take (Z.to_nat (cipher_ivlen c)) iv)) None (block_size c)).
    cbn [d_state d_mac d_block]. split_and!; done.
Qed.

(** The keys of an exchange, by the method and the size that both ends know. *)
Definition exchange_keys (a : kexalg) (need : Z) (K H sid : list Z) : list (list Z) :=
  map (fun x => kdf (key_blocks need (ssh_digest_bytes (ka_hash_alg a))) (ka_hash_alg a) K H x sid) key_ids.

Lemma kexalg_digest name a : kex_alg_by_name name = Some a -> exists d, ssh_digest_by_alg (ka_hash_alg a) = Some d.
Proof.
  unfold kex_alg_by_name. intros H. apply find_some in H as [H _]. destruct H as [<-|[<-|[<-|[]]]]; by eexists.
Qed.

Definition need_of (nin nout : newkeys) : Z := fst (more_need nout (more_need nin (0, 0))).

Lemma need_covers nin nout nk :
  nk = nin \/ nk = nout ->
  e_key_len (enc nk) <= need_of nin nout /\ e_iv_len (enc nk) <= need_of nin nout /\ m_key_len (nmac nk) <= need_of nin nout /\
  e_block_size (enc nk) <= need_of nin nout.
Proof.
  intros H. unfold need_of. rewrite !more_need_max. cbn [fst].
  assert (Hn : e_block_size (enc nk) <= needs nk /\ e_iv_len (enc nk) <= needs nk /\ m_key_len (nmac nk) <= needs nk) by (unfold needs; lia).
  destruct H as [-> | ->]; lia.
Qed.

Lemma exchange_keys_long a d need K H sid nk :
  ssh_digest_by_alg (ka_hash_alg a) = Some d -> 0 < need ->
  e_key_len (enc nk) <= need -> e_iv_len (enc nk) <= need -> m_key_len (nmac nk) <= need ->
  long_keys nk (exchange_keys a need K H sid) 6.
Proof.
  intros Hd Hn H1 H2 H3. split; [done|]. unfold exchange_keys, ssh_digest_bytes. rewrite Hd. apply Forall_map, Forall_true. intros x.
  split; [apply bytes_ok_kdf|]. rewrite (length_kdf _ _ d) by done. pose proof (digest_cases _ _ Hd) as Hdc.
  assert (need <= Z.of_nat (key_blocks need (digest_len d) * Z.to_nat (digest_len d))); [|lia].
  unfold key_blocks. pose proof (Z.mul_succ_div_gt (need + (digest_len d - 1)) (digest_len d)).
  assert (0 <= (need + (digest_len d - 1)) / digest_len d) by (apply Z.div_pos; lia).
  set (q := (need + (digest_len d - 1)) / digest_len d) in *. nia.
Qed.

(** Deriving keys, and taking them into use in both directions, as sending and
    receiving NEWKEYS does. *)
Definition takes_keys (H : list Z) (secret : sshbuf) (s s' : ssh) : Prop :=
  exists s1 s2, kex_derive_keys H secret s = (Ok 0, s1) /\ ssh_set_newkeys MODE_OUT s1 = (Ok 0, s2) /\ ssh_set_newkeys MODE_IN s2 = (Ok 0, s').

(** Everything that [tx_ok] and [rx_ok] ask for but the keys. *)
Definition settled (s : ssh) : Prop :=
  alloc s = [] /\ stack_ok s /\ good (outgoing_packet s) /\ good (output s) /\ good (input s) /\ good (incoming_packet s) /\
  mux s = false /\ extra_pad s = 0.

Lemma ready_takes s k H secret d a nin nout server m1 d1 m2 d2 :
  kexp s = Some k -> settled s -> session_ok k -> ssh_digest_by_alg (ka_hash_alg a) = Some d -> good secret ->
  bytes_ok H -> Z.of_nat (length H) <= SSHBUF_SIZE_MAX -> 0 < need_of nin nout < 2 ^ 32 ->
  k_newkeys_in k = Some nin -> k_newkeys_out k = Some nout -> k_server (k_neg k) = server ->
  hash_alg (k_neg k) = ka_hash_alg a -> we_need (k_neg k) = need_of nin nout ->
  let keys := exchange_keys a (need_of nin nout) (contents secret) H (session_of k H) in
  ready (with_keys nin keys (is_ctos server MODE_IN)) m1 d1 -> ready (with_keys nout keys (is_ctos server MODE_OUT)) m2 d2 ->
  exists s', takes_keys H secret s s' /\ rx_ok s' d1 /\ tx_ok s' d2.
Proof.
  intros Hk (Ha & Hst & Hog & Ho & Hi & Hic & Hmx & Hep) Hses Hd Hg HH HHl Hn Hin Hout <- Hal Hwe keys R1 R2.
  destruct (derive_keys_spec s k d H secret nin nout) as (k' & E1 & Kin & Kout & _); try done; [by rewrite Hal|by rewrite Hwe|].
  assert (Ek : map (key_for (k_neg k) d (contents secret) H (session_of k H)) key_ids = keys).
  { unfold keys, exchange_keys, key_for, ssh_digest_bytes. by rewrite Hd, Hal, Hwe. }
  rewrite Ek in Kin, Kout.
  destruct (set_newkeys_ready MODE_OUT (set_kexp s (Some k')) k' _ m2 d2 eq_refl Kout Ha R2) as (c2 & mb2 & E2 & D2).
  set (s2 := keyed_state MODE_OUT _ _ _ _ _ _) in E2. set (k2 := snd (take_kex_newkeys MODE_OUT k')).
  destruct (set_newkeys_ready MODE_IN s2 k2 _ m1 d1 eq_refl Kin Ha R1) as (c1 & mb1 & E3 & D1).
  eexists. split; [eexists _, _; split; [exact E1|]; split; [exact E2|exact E3]|].
  split; (split; [first [exact D1|exact D2]|]); split_and!; done.
Qed.

(** The sizes of what can be chosen. *)
Lemma choose_mac_small c s m w : choose_mac [] zero_mac c s = (0, m, w) -> m_key_len m <= 64.
Proof.
  unfold choose_mac. destruct (fst (match_list c s)) as [name|]; [|done]. unfold mac_setup.
  destruct (mac_by_name name) as [a|] eqn:Ea; [|done]. unfold mac_by_name in Ea. apply find_some in Ea as [Hin _].
  unfold mac_setup_by_alg. destruct (ma_type a =? SSH_DIGEST).
  - destruct (ssh_hmac_start [] (ma_alg a)) as [[h|] w1]; [|done]. cbn. intros [= <- _]. cbn [m_key_len].
    unfold ssh_hmac_bytes, ssh_digest_bytes. destruct (ssh_digest_by_alg (ma_alg a)) eqn:Ed; [|lia].
    apply digest_cases in Ed. unfold SSH_DIGEST_MAX_LENGTH in Ed. lia.
  - cbn. intros [= <- _]. cbn [m_key_len]. repeat destruct Hin as [<-|Hin]; try destruct Hin; vm_compute; congruence.
Qed.

Definition small_keys (nk : newkeys) : Prop :=
  0 < e_block_size (enc nk) <= 64 /\ e_key_len (enc nk) <= 64 /\ e_iv_len (enc nk) <= 64 /\ m_key_len (nmac nk) <= 64.

Lemma chosen_small cprop sprop ctos nk : chosen cprop sprop ctos = Some nk -> small_keys nk.
Proof.
  unfold chosen. destruct (choose_enc _ _) as [re e] eqn:Ee. destruct re; [|done..].
  destruct (if _ =? 0 then _ else _) as [[rm m] w] eqn:Em. destruct rm; [|done..]. destruct (choose_comp _ _) as [rc co]. destruct rc; [|done..].
  intros [= <-]. unfold small_keys. cbn [enc nmac].
  assert (Hm : m_key_len m <= 64) by (destruct (_ =? 0); [by eapply choose_mac_small|by injection Em as <- _]).
  unfold choose_enc in Ee. destruct (fst _) as [name|]; [|done].
  destruct (cipher_by_name name) as [c|] eqn:Ec; [|done]. injection Ee as <-. cbn [e_block_size e_key_len e_iv_len].
  unfold cipher_by_name in Ec. apply find_some in Ec as [Hin _]. unfold cipher_blocksize, cipher_keylen.
  pose proof (cipher_cases c Hin). lia.
Qed.

Lemma need_small nin nout : small_keys nin -> small_keys nout -> 0 < need_of nin nout < 2 ^ 32.
Proof.
  intros (I1 & I2 & I3 & I4) (O1 & O2 & O3 & O4). unfold need_of. rewrite !more_need_max. cbn [fst].
  assert (needs nin <= 64 /\ needs nout <= 64 /\ 0 < needs nin) by (unfold needs; lia). lia.
Qed.

Lemma conf_of_parts cprop sprop server name a hk nin nout :
  conf_of cprop sprop server = Some (name, a, hk, nin, nout) ->
  kex_alg_by_name name = Some a /\ chosen cprop sprop (is_ctos server MODE_IN) = Some nin /\ chosen cprop sprop (is_ctos server MODE_OUT) = Some nout.
Proof.
  unfold conf_of. destruct (fst _) as [n|]; [|done]. destruct (kex_alg_by_name n) as [a'|] eqn:Ea; [|done]. destruct (fst _); [|done].
  destruct (_ =? KEY_UNSPEC); [done|]. destruct (chosen _ _ _) as [n1|]; [|done]. destruct (chosen _ _ _) as [n2|]; [|done].
  by intros [= <- <- <- <- <-].
Qed.

Lemma settled_after s s' :
  set_dispatch_skip_packets (set_kexp s' None) 0 = set_dispatch_skip_packets (set_kexp s None) 0 -> settled s -> settled s'.
Proof. intros E H. change (settled (set_dispatch_skip_packets (set_kexp s' None) 0)). rewrite E. exact H. Qed.

Lemma session_after k k' c H : chose k k' c -> session_ok k -> session_ok k' /\ session_of k' H = session_of k H.
Proof. intros [_ _ _ _ _ _ _ _ _ Hi Hs]. unfold session_ok, session_of. by rewrite Hi, Hs. Qed.

(** One end after the choice: its keys are those of the exchange. *)
Lemma end_takes s k k' name a hk nin nout server H secret m1 d1 m2 d2 d :
  chose k k' (name, a, hk, nin, nout) -> kexp s = Some k' -> k_server (k_neg k) = server -> settled s -> session_ok k ->
  ssh_digest_by_alg (ka_hash_alg a) = Some d -> good secret -> bytes_ok H -> Z.of_nat (length H) <= SSHBUF_SIZE_MAX -> 0 < need_of nin nout < 2 ^ 32 ->
  let keys := exchange_keys a (need_of nin nout) (contents secret) H (session_of k H) in
  ready (with_keys nin keys (is_ctos server MODE_IN)) m1 d1 -> ready (with_keys nout keys (is_ctos server MODE_OUT)) m2 d2 ->
  exists s', takes_keys H secret s s' /\ rx_ok s' d1 /\ tx_ok s' d2.
Proof.
  intros Hch Hk Hsv Hcalm Hso Hd Hg HH HHl Hn keys R1 R2. destruct (session_after _ _ _ H Hch Hso) as [Hso' Hsf].
  pose proof Hch as [_ _ Hh _ _ Hi Ho Hne Hs _ _]. cbn [fst snd] in *.
  apply (ready_takes s k' H secret d a nin nout server m1 d1 m2 d2); try done; [congruence|..].
  - unfold need_of. by rewrite <- Hne.
  - by rewrite Hsf.
  - by rewrite Hsf.
Qed.

(** C4: after a negotiation that succeeded, a client and a server with the same
    shared secret, exchange hash and session identifier derive keys and take them
    into use without error, and are then connected in both directions: the state
    of one for sending and of the other for receiving are the two ends of one
    direction (same cipher state, mac secret and block size), which is what
    delivery, authenticity and termination of the packet layer are proved from. *)
Theorem exchange_connects sc ss cmsg smsg cps sps cseq sseq sc' ss' H bc bs :
  offers sc false cmsg smsg -> offers ss true smsg cmsg -> kexinit cps cmsg -> kexinit sps smsg -> settled sc -> settled ss ->
  (forall kc ks, kexp sc = Some kc -> kexp ss = Some ks -> session_ok kc /\ session_ok ks /\ session_of kc H = session_of ks H) ->
  kex_choose_conf cseq sc = (Ok 0, sc') -> kex_choose_conf sseq ss = (Ok 0, ss') ->
  bytes_ok H -> Z.of_nat (length H) <= SSHBUF_SIZE_MAX -> good bc -> good bs -> contents bc = contents bs ->
  exists c s cs sc, takes_keys H bc sc' c /\ takes_keys H bs ss' s /\
    tx_ok c cs /\ rx_ok s cs /\ tx_ok s sc /\ rx_ok c sc.
Proof.
  intros Hc Hs Hcm Hsm Cc Cs Hses Ec Es HH HHl Hbc Hbs Hb.
  pose proof (end_chooses _ _ _ _ _ _ _ _ _ Hc Hcm Hsm Ec ltac:(done)) as Hc'. pose proof (end_chooses _ _ _ _ _ _ _ _ _ Hs Hsm Hcm Es ltac:(done)) as Hs'.
  cbv iota in Hc', Hs'. rewrite conf_of_mirror in Hs'.
  destruct (conf_of cps sps false) as [[[[[name a] hk] nin] nout]|] eqn:Ecf; cbn [option_map] in Hs'; [|done].
  destruct Hc' as (_ & kc & kc' & Hkc & Hkc' & Hchc & Fc). destruct Hs' as (_ & ks & ks' & Hks & Hks' & Hchs & Fs).
  apply (settled_after _ _ Fc) in Cc. apply (settled_after _ _ Fs) in Cs. destruct (Hses kc ks Hkc Hks) as (Sc & Ss & Se).
  destruct Hc as (kc0 & Hkc0 & _ & Hfc & _). rewrite Hkc in Hkc0. injection Hkc0 as <-.
  destruct Hs as (ks0 & Hks0 & _ & Hfs & _). rewrite Hks in Hks0. injection Hks0 as <-.
  destruct (conf_of_parts _ _ _ _ _ _ _ _ Ecf) as (Ha & Hin & Hout). destruct (kexalg_digest _ _ Ha) as [d Hd].
  destruct (need_covers nin nout nin (or_introl eq_refl)) as (I1 & I2 & I3 & I4). destruct (need_covers nin nout nout (or_intror eq_refl)) as (O1 & O2 & O3 & _).
  pose proof (need_small _ _ (chosen_small _ _ _ _ Hin) (chosen_small _ _ _ _ Hout)) as Hn.
  assert (Hne : need_of nout nin = need_of nin nout) by (unfold need_of; by rewrite more_need_comm).
  set (keys := exchange_keys a (need_of nin nout) (contents bc) H (session_of kc H)).
  destruct (chosen_ready _ _ _ _ keys Hin) as (m1 & d1 & R1); [by apply (exchange_keys_long a d); try lia|].
  destruct (chosen_ready _ _ _ _ keys Hout) as (m2 & d2 & R2); [by apply (exchange_keys_long a d); try lia|].
  destruct (end_takes sc' kc kc' name a hk nin nout false H bc m1 d1 m2 d2 d) as (c & Tc & Rc & Xc); try done.
  destruct (end_takes ss' ks ks' name a hk nout nin true H bs m2 d2 m1 d1 d) as (s & Ts & Rs & Xs); try done.
  { by rewrite Hne. }
  { by rewrite Hne, <- Hb, <- Se. }
  { by rewrite Hne, <- Hb, <- Se. }
  by exists c, s, d2, d1.
Qed.

(** C21: with memory that lasts, [kex_derive_keys] sets in both directions the keys
    of RFC 4253, section 7.2: the initial IV, encryption key and integrity key of
    the direction from client to server are made with the letters A, C and E, those
    from server to client with B, D and F, each at least as long as the algorithms
    need; the session identifier is the hash of the first exchange, and is not
    changed by later ones. *)
Theorem derive_keys_rfc4253 s k d H secret nin nout mode nk :
  kexp s = Some k -> alloc s = [] -> session_ok k -> ssh_digest_by_alg (hash_alg (k_neg k)) = Some d -> good secret ->
  bytes_ok H -> Z.of_nat (length H) <= SSHBUF_SIZE_MAX -> 0 < we_need (k_neg k) < 2 ^ 32 ->
  k_newkeys_in k = Some nin -> k_newkeys_out k = Some nout -> kex_newkeys mode k = Some nk ->
  let ctos := is_ctos (k_server (k_neg k)) mode in
  let key x := kdf (key_blocks (we_need (k_neg k)) (digest_len d)) (hash_alg (k_neg k)) (contents secret) H x (session_of k H) in
  exists k' nk', kex_derive_keys H secret s = (Ok 0, set_kexp s (Some k')) /\ kex_newkeys mode k' = Some nk' /\
    e_iv (enc nk') = key (if ctos then 65 else 66) /\ e_key (enc nk') = key (if ctos then 67 else 68) /\
    m_key (nmac nk') = Some (key (if ctos then 69 else 70)) /\
    we_need (k_neg k) <= Z.of_nat (length (key 65)) /\ contents (session_id (k_neg k')) = session_of k H.
Proof.
  intros Hk Ha Hs Hd Hg HH HHl Hn Hin Hout Hnk ctos key.
  destruct (derive_keys_spec s k d H secret nin nout Hk Ha Hs Hd Hg HH HHl Hn Hin Hout) as (k' & E & Ki & Ko & Hsid & _).
  exists k', (with_keys nk (map (key_for (k_neg k) d (contents secret) H (session_of k H)) key_ids) ctos). split; [exact E|].
  split. { unfold ctos. destruct mode; cbn [kex_newkeys] in Hnk |- *; congruence. }
  assert (Hlen : we_need (k_neg k) <= Z.of_nat (length (key 65))).
  { pose proof (exchange_keys_long (mk_kexalg [] 0 0 (hash_alg (k_neg k))) d (we_need (k_neg k)) (contents secret) H (session_of k H)
      (mk_newkeys (mk_enc null_cipher (we_need (k_neg k)) 0 0 [] []) zero_mac (mk_comp 0 false)) Hd (proj1 Hn)) as [_ Hl]; [cbn; lia..|].
    unfold exchange_keys, ssh_digest_bytes, key_ids in Hl. cbn [ka_hash_alg map] in Hl. rewrite Hd in Hl.
    apply Forall_cons_1 in Hl as [(_ & Hl & _) _]. exact Hl. }
  unfold ctos. destruct mode; cbn [kex_newkeys] in Hnk; rewrite ?Hin, ?Hout in Hnk; injection Hnk as <-;
    (split; [|split; [|split; [|by split]]]); destruct (k_server (k_neg k)); reflexivity.
Qed.

End agree.

(** ** Two new ends that exchange their KEXINIT *)

#[local] Existing Instances demo_md demo_md_laws demo_umac demo_umac_laws.

Definition demo_lists (server : bool) : list (list Z) :=
  let cipher := if server then chars "aes256-ctr,aes128-ctr" else chars "chacha20-poly1305@openssh.com,aes128-ctr" in
  [chars "curve25519-sha256"; chars "ssh-ed25519"; cipher; cipher; chars "hmac-sha2-256"; chars "hmac-sha2-256";
   chars "none"; chars "none"; []; []].

Definition demo_message (server : bool) : list Z := kexinit_octets (replicate 16 0) (demo_lists server) 0 0.

Definition demo_wire (b : sshbuf) (server : bool) : sshbuf := snd (fst (kex_prop2buf [] b (demo_lists server))).

Definition demo_end (server : bool) : option ssh :=
  match fresh [] (replicate 64 0) server, sshbuf_new [] with
  | Some s, (Some b, _) =>
      Some (set_kexp s (Some (mk_kex None None false KEX_INITIAL false (demo_wire b server)
        (mk_neg 0 0 server None None 0 0 0 false false (demo_wire b (negb server)) b 0 0 None))))
  | _, _ => None
  end.

Lemma demo_lists_ok server : proposal_ok (demo_lists server) /\ Forall (fun p => bytes_ok p) (demo_lists server).
Proof. destruct server; split; try split; try done; apply (bool_decide_unpack _); vm_compute; exact I. Qed.

Lemma demo_kexinit server : kexinit (demo_lists server) (demo_message server).
Proof. exists (replicate 16 0), 0, 0. split_and!; try done. apply demo_lists_ok. Qed.

Lemma demo_new : exists b, sshbuf_new [] = (Some b, []) /\ owned b [].
Proof.
  destruct (sshbuf_new []) as [[b|] w] eqn:Eb; [|done]. assert (w = []) as -> by (by injection Eb). exists b. split; [done|].
  destruct (sshbuf_new_spec _ _ _ Eb) as (Hw & Hc & Hwr & Hm). split_and!; try done. by injection Eb as <-.
Qed.

Lemma demo_wire_owned b server : owned b [] -> owned (demo_wire b server) (demo_message server).
Proof.
  intros Hb. destruct (prop2buf_owned b [] (demo_lists server) Hb) as (b' & E & Hb'); [apply demo_lists_ok|destruct server; vm_compute; congruence|].
  unfold demo_wire. by rewrite E.
Qed.

(** The ends are as the theorems ask, and their choice succeeds. *)
Lemma demo_end_ok server H :
  exists s s', demo_end server = Some s /\ offers s server (demo_message server) (demo_message (negb server)) /\ settled s /\
    (forall k, kexp s = Some k -> session_ok k /\ session_of k H = H) /\ kex_choose_conf 0 s = (Ok 0, s').
Proof.
  destruct (fresh_conn_ok [] (replicate 64 0) server (bytes_ok_zeros 64) eq_refl)
    as (s0 & Es & (_ & Ha & Hst & Hog & Ho & Hmx & Hep) & (_ & _ & _ & Hi & Hic) & _).
  destruct demo_new as (b & Eb & Hb).
  assert (Ee : exists s, demo_end server = Some s /\ offers s server (demo_message server) (demo_message (negb server)) /\ settled s /\
    (forall k, kexp s = Some k -> session_ok k /\ session_of k H = H)).
  { unfold demo_end. rewrite Es, Eb. eexists. split; [done|]. split.
    { eexists. split; [reflexivity|]. split; [exact Ha|]. split; [done|]. cbn [k_my k_neg k_peer].
      split; by apply owned_reading, demo_wire_owned. }
    split; [by split_and!|]. intros k [= <-]. split; [|done]. destruct Hb as (Hg & _ & Hc). split; [done|].
    cbn [k_neg session_id k_flags]. rewrite Hc. split; [done|by intros []]. }
  destruct Ee as (s & Ee & H1 & H2 & H3). destruct (kex_choose_conf 0 s) as [o s'] eqn:E. exists s, s'.
  assert (Eo : option_map (fun s => fst (kex_choose_conf 0 s)) (demo_end server) = Some (Ok 0)) by (destruct server; vm_compute; reflexivity).
  rewrite Ee in Eo. cbn [option_map] in Eo. rewrite E in Eo. injection Eo as ->. by split_and!.
Qed.

Lemma proposal_roundtrip_witness :
  exists b b' b'', sshbuf_new [] = (Some b, []) /\ kex_prop2buf [] b (demo_lists true) = (0, b', []) /\
    kex_buf2prop [] b' = (0, 0, demo_lists true, b'', []).
Proof.
  destruct demo_new as (b & Eb & Hb). destruct (demo_lists_ok true) as [H1 H2].
  destruct (proposal_roundtrip b [] (demo_lists true) Hb H1 H2) as (b' & b'' & E1 & E2 & _); [vm_compute; congruence|].
  by exists b, b', b''.
Defined.


Lemma exchange_connects_witness :
  exists b sc ss sc' ss' c s cs sd, sshbuf_new [] = (Some b, []) /\ demo_end false = Some sc /\ demo_end true = Some ss /\
    kex_choose_conf 0 sc = (Ok 0, sc') /\ kex_choose_conf 0 ss = (Ok 0, ss') /\
    takes_keys [7; 8; 9] b sc' c /\ takes_keys [7; 8; 9] b ss' s /\ tx_ok c cs /\ rx_ok s cs /\ tx_ok s sd /\ rx_ok c sd.
Proof.
  destruct demo_new as (b & Eb & Hb & _). pose (H := [7; 8; 9]).
  destruct (demo_end_ok false H) as (sc & sc' & Ec & Oc & Qc & Sc & Cc). destruct (demo_end_ok true H) as (ss & ss' & Es & Os & Qs & Ss & Cs).
  assert (HH : bytes_ok H) by (repeat (apply Forall_cons_2; [unfold is_byte; lia|]); apply Forall_nil_2).
  destruct (exchange_connects sc ss _ _ (demo_lists false) (demo_lists true) 0 0 sc' ss' H b b Oc Os) as (c & s & cs & sd & K);
    try done; [apply demo_kexinit|apply demo_kexinit| |].
  { intros kc ks Hkc Hks. destruct (Sc kc Hkc) as [? ->]. by destruct (Ss ks Hks) as [? ->]. }
  by exists b, sc, ss, sc', ss', c, s, cs, sd.
Defined.

Lemma derive_keys_rfc4253_witness :
  exists b s s' k k' nk', sshbuf_new [] = (Some b, []) /\ demo_end true = Some s /\ kex_choose_conf 0 s = (Ok 0, s') /\ kexp s' = Some k /\
    kex_derive_keys [7; 8; 9] b s' = (Ok 0, set_kexp s' (Some k')) /\ k_newkeys_out k' = Some nk' /\
    e_key (enc nk') = kdf 1 SSH_DIGEST_SHA256 [] [7; 8; 9] 68 [7; 8; 9].
Proof.
  destruct demo_new as (b & Eb & Hb & _ & Hcb). pose (H := [7; 8; 9]).
  destruct (demo_end_ok true H) as (s & s' & Es & Os & Qs & Ss & Cs).
  assert (HH : bytes_ok H) by (repeat (apply Forall_cons_2; [unfold is_byte; lia|]); apply Forall_nil_2).
  pose proof (end_chooses _ _ _ _ (demo_lists true) (demo_lists false) _ _ _ Os (demo_kexinit true) (demo_kexinit false) Cs ltac:(done)) as He.
  cbv iota in He. destruct (conf_of (demo_lists false) (demo_lists true) true) as [c|] eqn:Ec; [|done].
  destruct He as (_ & k0 & k & Hk0 & Hk & Hch & F). destruct (Ss k0 Hk0) as [So Sf]. destruct (session_after _ _ _ H Hch So) as [So' Sf'].
  pose proof (settled_after _ _ F Qs) as (Ha & _). pose proof Hch as [_ _ Hh _ _ Hi Ho Hn Hsv _ _].
  assert (Hc1 : option_map (fun c => ka_hash_alg c.1.1.1.2) (conf_of (demo_lists false) (demo_lists true) true) = Some SSH_DIGEST_SHA256)
    by (vm_compute; reflexivity).
  assert (Hc2 : option_map (fun c => more_need c.2 (more_need c.1.2 (0, 0))) (conf_of (demo_lists false) (demo_lists true) true) = Some (32, 32))
    by (vm_compute; reflexivity).
  rewrite Ec in Hc1, Hc2. cbn [option_map] in Hc1, Hc2. apply (inj Some) in Hc1, Hc2. rewrite Hc1 in Hh. rewrite Hc2 in Hn. injection Hn as Hn _.
  destruct Os as (k1 & Hk1 & _ & Hs1 & _). rewrite Hk0 in Hk1. injection Hk1 as <-. rewrite Hs1 in Hsv.
  destruct (derive_keys_rfc4253 s' k (mk_digest SSH_DIGEST_SHA256 (chars "SHA256") 64 32) H b c.1.2 c.2 MODE_OUT c.2 Hk Ha So')
    as (k' & nk' & E1 & E2 & _ & E3 & _); try done; [by rewrite Hh|by rewrite Hn|].
  exists b, s, s', k, k', nk'. split_and!; try done. rewrite E3, Hsv, Hn, Hh, Hcb, Sf', Sf. reflexivity.
Defined.
