(* ===== verification/HashBlocks.v ===== *)
(** Hash functions that take a message block by block: what a context with a
    partly filled buffer has taken in.  Shared by SHA-2, SHA-1 and MD5. *)

From stdpp Require Import base list numbers tactics.
From Stdlib Require Import ZArith Lia ZifyBool.
From S2P Require Import Prelude.

Section blocks.
Context {St : Type} (bs : nat) (F : St -> list Z -> St).

(** [n] blocks of [m]. *)
Fixpoint run (n : nat) (s : St) (m : list Z) : St :=
  match n with
  | O => s
  | S n => run n (F s (take bs m)) (drop bs m)
  end.

Lemma run_add a : forall b s m, run (a + b) s m = run b (run a s m) (drop (a * bs) m).
Proof.
  induction a as [|a IH]; intros b s m; [by rewrite drop_0|]. cbn [run Nat.add]. rewrite IH, drop_drop. f_equal.
Qed.

Lemma run_app a : forall s m d, (a * bs <= length m)%nat -> run a s (m ++ d) = run a s m.
Proof.
  induction a as [|a IH]; intros s m d H; [done|]. cbn [run]. rewrite take_app_le, drop_app_le by lia. apply IH.
  rewrite length_drop. lia.
Qed.

(** The state [s] and the buffer [buf] of a context that has taken in [m]:
    whole blocks went to the state, the rest is at the front of the buffer. *)
Definition taken (iv s : St) (buf m : list Z) : Prop :=
  s = run (length m / bs) iv m /\ take (length m mod bs) buf = drop (length m / bs * bs) m /\ (bs <= length buf)%nat.

Context (Hbs : (0 < bs)%nat).

Lemma taken_nil iv buf : (bs <= length buf)%nat -> taken iv iv buf [].
Proof. intros H. unfold taken. cbn [length]. rewrite Nat.Div0.div_0_l, Nat.Div0.mod_0_l. done. Qed.

Lemma used_rest (m : list Z) : (length m mod bs + length m / bs * bs = length m)%nat.
Proof. pose proof (Nat.div_mod_eq (length m) bs). lia. Qed.

Lemma div_mod_is n q r : (r < bs)%nat -> n = (q * bs + r)%nat -> (n / bs = q /\ n mod bs = r)%nat.
Proof. intros Hr Hn. split; symmetry; [apply (Nat.div_unique n bs q r)|apply (Nat.mod_unique n bs q r)]; lia. Qed.

(** Data that completes the block. *)
Lemma taken_block iv s buf m d buf' :
  taken iv s buf m -> (length m mod bs + length d = bs)%nat -> (bs <= length buf')%nat ->
  taken iv (F s (take (length m mod bs) buf ++ d)) buf' (m ++ d) /\ (length (m ++ d) mod bs = 0)%nat.
Proof.
  intros (-> & Hb & _) Hd Hb'. pose proof (used_rest m) as Hu.
  destruct (div_mod_is (length (m ++ d)) (S (length m / bs)) 0) as [Hq Hr]; [lia|rewrite length_app; cbn; lia|].
  split; [|done]. unfold taken. rewrite Hq, Hr. split_and!; [|by rewrite take_0, drop_ge by (rewrite length_app; cbn; lia)|done].
  rewrite <- Nat.add_1_r, run_add, run_app by lia. cbn [run]. f_equal. rewrite Hb, drop_app_le by lia.
  rewrite take_ge; [done|]. rewrite length_app, length_drop. lia.
Qed.

(** Data that does not. *)
Lemma taken_part iv s buf m d :
  taken iv s buf m -> (length m mod bs + length d < bs)%nat -> taken iv s (splice buf (length m mod bs) d) (m ++ d).
Proof.
  intros (-> & Hb & Hl) Hd. pose proof (used_rest m) as Hu.
  destruct (div_mod_is (length (m ++ d)) (length m / bs) (length m mod bs + length d)) as [Hq Hr]; [lia|rewrite length_app; lia|].
  unfold taken. rewrite Hq, Hr, run_app by lia. split_and!; [done| |by rewrite length_splice by lia].
  rewrite drop_app_le by lia. unfold splice. rewrite app_assoc, take_app_le by (rewrite length_app, length_take; lia).
  rewrite take_ge by (rewrite length_app, length_take; lia). by rewrite Hb.
Qed.

(** Whole blocks, one after the other. *)
Lemma taken_blocks n : forall iv s buf m d,
  taken iv s buf m -> (length m mod bs = 0)%nat -> length d = (n * bs)%nat ->
  taken iv (run n s d) buf (m ++ d) /\ (length (m ++ d) mod bs = 0)%nat.
Proof.
  induction n as [|n IH]; intros iv s buf m d Ht Hm Hd.
  - destruct d; [|done]. by rewrite app_nil_r.
  - destruct (taken_block iv s buf m (take bs d) buf Ht) as [Ht1 Hm1]; [rewrite length_take; lia|apply Ht|].
    rewrite Hm, take_0 in Ht1. cbn [app] in Ht1.
    destruct (IH iv _ buf _ (drop bs d) Ht1 Hm1) as [Ht2 Hm2]; [rewrite length_drop; lia|].
    rewrite <- app_assoc, take_drop in Ht2, Hm2. done.
Qed.

End blocks.

(** A count of bits in 64 bits gives the octets in the buffer. *)
Lemma used_of_count (n bs : nat) c :
  (0 < bs)%nat -> (Z.of_nat bs | 2 ^ 61) -> c = (8 * Z.of_nat n) mod 2 ^ 64 -> Z.to_nat (Z.shiftr c 3 mod Z.of_nat bs) = (n mod bs)%nat.
Proof.
  intros Hbs Hd ->. rewrite Z.shiftr_div_pow2 by lia. change (2 ^ 3) with 8.
  replace (2 ^ 64) with (8 * 2 ^ 61) by lia. rewrite Z.mul_mod_distr_l, Z.mul_comm, Z.div_mul by lia.
  rewrite Z.mod_mod_divide by done. by rewrite <- Nat2Z.inj_mod, Nat2Z.id.
Qed.

(** ** Padding *)

(** A one bit, zeros, and the length in [lw] octets, up to whole blocks. *)
Definition padding (bs lw n : nat) (len : list Z) : list Z :=
  [128] ++ replicate ((2 * bs - (n mod bs + 1 + lw)) mod bs) 0 ++ len.

(** The hash of a whole message by its blocks. *)
Definition padded_run {St} (bs : nat) (F : St -> list Z -> St) (iv : St) (m : list Z) : St := run bs F (length m / bs) iv m.

Lemma taken_padded {St} bs (F : St -> list Z -> St) iv s buf m :
  taken bs F iv s buf m -> s = padded_run bs F iv m.
Proof. by intros (-> & _). Qed.

Lemma padding_fits bs lw n : (1 + lw <= bs)%nat ->
  let k := ((2 * bs - (n mod bs + 1 + lw)) mod bs)%nat in
  if (n mod bs + 1 + lw <=? bs)%nat then (n mod bs + 1 + k + lw = bs)%nat else (n mod bs + 1 + k + lw = 2 * bs)%nat.
Proof.
  intros Hl k. pose proof (Nat.mod_upper_bound n bs). destruct (Nat.leb_spec (n mod bs + 1 + lw) bs).
  - assert (k = bs - (n mod bs + 1 + lw))%nat; [|lia]. unfold k.
    destruct (decide (n mod bs + 1 + lw = bs)%nat) as [E|E].
    + rewrite E. replace (2 * bs - bs)%nat with bs by lia. rewrite Nat.Div0.mod_same. lia.
    + symmetry. apply (Nat.mod_unique _ _ 1); lia.
  - assert (k = 2 * bs - (n mod bs + 1 + lw))%nat; [|lia]. unfold k. apply Nat.mod_small. lia.
Qed.

(** States that are lists of a fixed number of words. *)
Lemma length_run bs (F : list Z -> list Z -> list Z) k n : (forall s b, length (F s b) = k) ->
  forall s m, length s = k -> length (run bs F n s m) = k.
Proof. intros HF. induction n as [|n IH]; intros s m Hs; [done|]. cbn [run]. apply IH, HF. Qed.

(** ** Message schedules *)

Definition word_at (l : list Z) (i : nat) : Z := default 0 (l !! i).

(** A list of words, and [n] more, each made from those before it. *)
Fixpoint extend (next : list Z -> Z) (n : nat) (ws : list Z) : list Z :=
  match n with O => ws | S n => extend next n (ws ++ [next ws]) end.

Lemma length_extend next n : forall ws, length (extend next n ws) = (n + length ws)%nat.
Proof. induction n as [|n IH]; intros ws; [done|]. cbn [extend]. rewrite IH, length_app. cbn [length]. lia. Qed.

Lemma extend_prefix next n : forall ws, exists l, extend next n ws = ws ++ l.
Proof.
  induction n as [|n IH]; intros ws; [exists []; by rewrite app_nil_r|]. cbn [extend]. destruct (IH (ws ++ [next ws])) as [l ->].
  exists (next ws :: l). by rewrite <- app_assoc.
Qed.

Lemma extend_next next n : forall ws t, (length ws <= t < n + length ws)%nat ->
  word_at (extend next n ws) t = next (take t (extend next n ws)).
Proof.
  induction n as [|n IH]; intros ws t Ht; [lia|]. cbn [extend]. destruct (decide (t = length ws)) as [->|Hne].
  - destruct (extend_prefix next n (ws ++ [next ws])) as [l ->]. rewrite <- app_assoc, take_app_length. unfold word_at.
    by rewrite lookup_app_r, Nat.sub_diag by lia.
  - apply IH. rewrite length_app. cbn [length]. lia.
Qed.

Lemma extend_head next n ws i : (i < length ws)%nat -> word_at (extend next n ws) i = word_at ws i.
Proof. intros Hi. destruct (extend_prefix next n ws) as [l ->]. unfold word_at. by rewrite lookup_app_l. Qed.

Lemma word_at_take l t i : (i < t)%nat -> word_at (take t l) i = word_at l i.
Proof. intros H. unfold word_at. by rewrite lookup_take_lt. Qed.

(** The array [W] of sixteen words holds the last words of the schedule. *)
Definition holds_words (Ws W : list Z) (t : nat) : Prop :=
  length W = 16%nat /\ forall i, (i < t <= i + 16)%nat -> W !! (i mod 16)%nat = Some (word_at Ws i).

Lemma mod16_shift i j k : (i + 16 = j + k)%nat -> ((j + k) mod 16 = i mod 16)%nat.
Proof. intros <-. replace (i + 16)%nat with (i + 1 * 16)%nat by lia. apply Nat.Div0.mod_add. Qed.

Lemma holds_word Ws W j i k : holds_words Ws W j -> (i + 16 = j + k)%nat -> (k < 16)%nat -> word_at W ((j + k) mod 16) = word_at Ws i.
Proof. intros [_ H] E Hk. unfold word_at at 1. rewrite (mod16_shift i j k E), H by lia. done. Qed.

Lemma holds_next Ws W t : holds_words Ws W t -> holds_words Ws (<[(t mod 16)%nat := word_at Ws t]> W) (S t).
Proof.
  intros [Hl H]. split; [by rewrite length_insert|]. intros i Hi. destruct (decide (i = t)) as [->|Hne].
  - rewrite list_lookup_insert_eq; [done|]. rewrite Hl. apply Nat.mod_upper_bound. lia.
  - rewrite list_lookup_insert_ne; [apply H; lia|]. intros E.
    pose proof (Nat.div_mod_eq t 16). pose proof (Nat.div_mod_eq i 16). lia.
Qed.
