(* ===== verification/Sha2.v ===== *)
(** SHA-256, SHA-384 and SHA-512 (openbsd-compat/sha2.c) compute the hash
    functions of FIPS 180-4.

    The code for 32 and for 64 bits is the same text with other names; here the
    functions have a parameter [sha2] that holds what differs.  The transform is
    modelled both as it is compiled for amd64 (SHA2_UNROLL_TRANSFORM) and as the
    plain loop. *)

From stdpp Require Import base list numbers tactics.
From Stdlib Require Import ZArith Lia ZifyBool.
From S2P Require Import Prelude HashBlocks.

(** ** Words and octets *)

Definition BE_8_TO_32 (cp : list Z) : Z :=
  Z.lor (Z.lor (Z.lor (byte_at cp 3) (Z.shiftl (byte_at cp 2) 8)) (Z.shiftl (byte_at cp 1) 16)) (Z.shiftl (byte_at cp 0) 24).

Definition BE_8_TO_64 (cp : list Z) : Z :=
  Z.lor (Z.lor (Z.lor (Z.lor (Z.lor (Z.lor (Z.lor (byte_at cp 7) (Z.shiftl (byte_at cp 6) 8)) (Z.shiftl (byte_at cp 5) 16))
    (Z.shiftl (byte_at cp 4) 24)) (Z.shiftl (byte_at cp 3) 32)) (Z.shiftl (byte_at cp 2) 40)) (Z.shiftl (byte_at cp 1) 48))
    (Z.shiftl (byte_at cp 0) 56).

Definition BE_64_TO_8 (src : Z) : list Z :=
  [u8 (Z.shiftr src 56); u8 (Z.shiftr src 48); u8 (Z.shiftr src 40); u8 (Z.shiftr src 32);
   u8 (Z.shiftr src 24); u8 (Z.shiftr src 16); u8 (Z.shiftr src 8); u8 src].

Definition BE_32_TO_8 (src : Z) : list Z :=
  [u8 (Z.shiftr src 24); u8 (Z.shiftr src 16); u8 (Z.shiftr src 8); u8 src].

(** [w[0] += n; if (w[0] < n) w[1]++] *)
Definition ADDINC128 (w : Z * Z) (n : Z) : Z * Z :=
  let w0 := u64 (fst w + n) in (w0, if w0 <? n then u64 (snd w + 1) else snd w).

(** ** The six logical functions *)

Definition R (b x : Z) : Z := Z.shiftr x b.
Definition S32 (b x : Z) : Z := Z.lor (Z.shiftr x b) (u32 (Z.shiftl x (32 - b))).
Definition S64 (b x : Z) : Z := Z.lor (Z.shiftr x b) (u64 (Z.shiftl x (64 - b))).

(** [mask] is the word of ones, for the complement. *)
Definition Ch (mask x y z : Z) : Z := Z.lxor (Z.land x y) (Z.land (Z.lxor x mask) z).
Definition Maj (x y z : Z) : Z := Z.lxor (Z.lxor (Z.land x y) (Z.land x z)) (Z.land y z).

Definition Sigma0_256 (x : Z) : Z := Z.lxor (Z.lxor (S32 2 x) (S32 13 x)) (S32 22 x).
Definition Sigma1_256 (x : Z) : Z := Z.lxor (Z.lxor (S32 6 x) (S32 11 x)) (S32 25 x).
Definition sigma0_256 (x : Z) : Z := Z.lxor (Z.lxor (S32 7 x) (S32 18 x)) (R 3 x).
Definition sigma1_256 (x : Z) : Z := Z.lxor (Z.lxor (S32 17 x) (S32 19 x)) (R 10 x).

Definition Sigma0_512 (x : Z) : Z := Z.lxor (Z.lxor (S64 28 x) (S64 34 x)) (S64 39 x).
Definition Sigma1_512 (x : Z) : Z := Z.lxor (Z.lxor (S64 14 x) (S64 18 x)) (S64 41 x).
Definition sigma0_512 (x : Z) : Z := Z.lxor (Z.lxor (S64 1 x) (S64 8 x)) (R 7 x).
Definition sigma1_512 (x : Z) : Z := Z.lxor (Z.lxor (S64 19 x) (S64 61 x)) (R 6 x).

(** ** Initial hash values and constants *)

(** In the rows of the source. *)
Definition K256 : list Z := Eval cbv in concat [
  [0x428a2f98; 0x71374491; 0xb5c0fbcf; 0xe9b5dba5];
  [0x3956c25b; 0x59f111f1; 0x923f82a4; 0xab1c5ed5];
  [0xd807aa98; 0x12835b01; 0x243185be; 0x550c7dc3];
  [0x72be5d74; 0x80deb1fe; 0x9bdc06a7; 0xc19bf174];
  [0xe49b69c1; 0xefbe4786; 0x0fc19dc6; 0x240ca1cc];
  [0x2de92c6f; 0x4a7484aa; 0x5cb0a9dc; 0x76f988da];
  [0x983e5152; 0xa831c66d; 0xb00327c8; 0xbf597fc7];
  [0xc6e00bf3; 0xd5a79147; 0x06ca6351; 0x14292967];
  [0x27b70a85; 0x2e1b2138; 0x4d2c6dfc; 0x53380d13];
  [0x650a7354; 0x766a0abb; 0x81c2c92e; 0x92722c85];
  [0xa2bfe8a1; 0xa81a664b; 0xc24b8b70; 0xc76c51a3];
  [0xd192e819; 0xd6990624; 0xf40e3585; 0x106aa070];
  [0x19a4c116; 0x1e376c08; 0x2748774c; 0x34b0bcb5];
  [0x391c0cb3; 0x4ed8aa4a; 0x5b9cca4f; 0x682e6ff3];
  [0x748f82ee; 0x78a5636f; 0x84c87814; 0x8cc70208];
  [0x90befffa; 0xa4506ceb; 0xbef9a3f7; 0xc67178f2]].

Definition sha256_initial_hash_value : list Z := [
  0x6a09e667; 0xbb67ae85; 0x3c6ef372; 0xa54ff53a;
  0x510e527f; 0x9b05688c; 0x1f83d9ab; 0x5be0cd19].

Definition K512 : list Z := [
  0x428a2f98d728ae22; 0x7137449123ef65cd; 0xb5c0fbcfec4d3b2f; 0xe9b5dba58189dbbc;
  0x3956c25bf348b538; 0x59f111f1b605d019; 0x923f82a4af194f9b; 0xab1c5ed5da6d8118;
  0xd807aa98a3030242; 0x12835b0145706fbe; 0x243185be4ee4b28c; 0x550c7dc3d5ffb4e2;
  0x72be5d74f27b896f; 0x80deb1fe3b1696b1; 0x9bdc06a725c71235; 0xc19bf174cf692694;
  0xe49b69c19ef14ad2; 0xefbe4786384f25e3; 0x0fc19dc68b8cd5b5; 0x240ca1cc77ac9c65;
  0x2de92c6f592b0275; 0x4a7484aa6ea6e483; 0x5cb0a9dcbd41fbd4; 0x76f988da831153b5;
  0x983e5152ee66dfab; 0xa831c66d2db43210; 0xb00327c898fb213f; 0xbf597fc7beef0ee4;
  0xc6e00bf33da88fc2; 0xd5a79147930aa725; 0x06ca6351e003826f; 0x142929670a0e6e70;
  0x27b70a8546d22ffc; 0x2e1b21385c26c926; 0x4d2c6dfc5ac42aed; 0x53380d139d95b3df;
  0x650a73548baf63de; 0x766a0abb3c77b2a8; 0x81c2c92e47edaee6; 0x92722c851482353b;
  0xa2bfe8a14cf10364; 0xa81a664bbc423001; 0xc24b8b70d0f89791; 0xc76c51a30654be30;
  0xd192e819d6ef5218; 0xd69906245565a910; 0xf40e35855771202a; 0x106aa07032bbd1b8;
  0x19a4c116b8d2d0c8; 0x1e376c085141ab53; 0x2748774cdf8eeb99; 0x34b0bcb5e19b48a8;
  0x391c0cb3c5c95a63; 0x4ed8aa4ae3418acb; 0x5b9cca4f7763e373; 0x682e6ff3d6b2b8a3;
  0x748f82ee5defb2fc; 0x78a5636f43172f60; 0x84c87814a1f0ab72; 0x8cc702081a6439ec;
  0x90befffa23631e28; 0xa4506cebde82bde9; 0xbef9a3f7b2c67915; 0xc67178f2e372532b;
  0xca273eceea26619c; 0xd186b8c721c0c207; 0xeada7dd6cde0eb1e; 0xf57d4f7fee6ed178;
  0x06f067aa72176fba; 0x0a637dc5a2c898a6; 0x113f9804bef90dae; 0x1b710b35131c471b;
  0x28db77f523047d84; 0x32caab7b40c72493; 0x3c9ebe0a15c9bebc; 0x431d67c49c100d4c;
  0x4cc5d4becb3e42b6; 0x597f299cfc657e2a; 0x5fcb6fab3ad6faec; 0x6c44198c4a475817].

Definition sha512_initial_hash_value : list Z := [
  0x6a09e667f3bcc908; 0xbb67ae8584caa73b; 0x3c6ef372fe94f82b; 0xa54ff53a5f1d36f1;
  0x510e527fade682d1; 0x9b05688c2b3e6c1f; 0x1f83d9abfb41bd6b; 0x5be0cd19137e2179].

Definition sha384_initial_hash_value : list Z := [
  0xcbbb9d5dc1059ed8; 0x629a292a367cd507; 0x9159015a3070dd17; 0x152fecd8f70e5939;
  0x67332667ffc00b31; 0x8eb44a8768581511; 0xdb0c2e0d64f98fa7; 0x47b5481dbefa4fa4].

(** ** The code *)

(** What differs between SHA-256 and SHA-512. *)
Record sha2 := mk_sha2 {
  wlen : nat;                    (* octets in a word *)
  BLOCK_LENGTH : nat;
  SHORT_BLOCK_LENGTH : nat;
  nrounds : nat;
  uw : Z -> Z;                   (* conversion to a word *)
  ones : Z;
  load : list Z -> Z;
  KK : list Z;
  Sigma0 : Z -> Z;
  Sigma1 : Z -> Z;
  sigma0 : Z -> Z;
  sigma1 : Z -> Z;
  addinc : Z * Z -> Z -> Z * Z;  (* on [bitcount] *)
  put_count : Z * Z -> list Z    (* the length at the end of the last block *)
}.

Definition sha256 : sha2 :=
  mk_sha2 4 64 (64 - 8) 64 u32 (2 ^ 32 - 1) BE_8_TO_32 K256 Sigma0_256 Sigma1_256 sigma0_256 sigma1_256
    (fun w n => (u64 (fst w + n), snd w)) (fun w => BE_64_TO_8 (fst w)).

Definition sha512 : sha2 :=
  mk_sha2 8 128 (128 - 16) 80 u64 (2 ^ 64 - 1) BE_8_TO_64 K512 Sigma0_512 Sigma1_512 sigma0_512 sigma1_512
    ADDINC128 (fun w => BE_64_TO_8 (snd w) ++ BE_64_TO_8 (fst w)).

Section sha2.
Context (p : sha2).

(** The array [W], [j] and [data]. *)
Definition work : Type := list Z * nat * list Z.

(** Returns [d] and [h], the registers that change. *)
Definition ROUND_0_TO_15 (a b c d e f g h : Z) (x : work) : Z * Z * work :=
  let '(W, j, data) := x in
  let W := <[j := load p data]> W in
  let data := drop (wlen p) data in
  let T1 := uw p (h + Sigma1 p e + Ch (ones p) e f g + word_at (KK p) j + word_at W j) in
  (uw p (d + T1), uw p (T1 + Sigma0 p a + Maj a b c), (W, S j, data)).

(** [j & 0x0f] is [j] modulo 16. *)
Definition ROUND (a b c d e f g h : Z) (x : work) : Z * Z * work :=
  let '(W, j, data) := x in
  let s0 := sigma0 p (word_at W ((j + 1) mod 16)) in
  let s1 := sigma1 p (word_at W ((j + 14) mod 16)) in
  let Wj := uw p (word_at W (j mod 16) + (s1 + word_at W ((j + 9) mod 16) + s0)) in
  let W := <[(j mod 16)%nat := Wj]> W in
  let T1 := uw p (h + Sigma1 p e + Ch (ones p) e f g + word_at (KK p) j + Wj) in
  (uw p (d + T1), uw p (T1 + Sigma0 p a + Maj a b c), (W, S j, data)).

Definition regs : Type := Z * Z * Z * Z * Z * Z * Z * Z.

(** Eight rounds with the registers renamed. *)
Definition eight (rnd : Z -> Z -> Z -> Z -> Z -> Z -> Z -> Z -> work -> Z * Z * work) (x : regs * work) : regs * work :=
  let '((a, b, c, d, e, f, g, h), x) := x in
  let '(d, h, x) := rnd a b c d e f g h x in
  let '(c, g, x) := rnd h a b c d e f g x in
  let '(b, f, x) := rnd g h a b c d e f x in
  let '(a, e, x) := rnd f g h a b c d e x in
  let '(h, d, x) := rnd e f g h a b c d x in
  let '(g, c, x) := rnd d e f g h a b c x in
  let '(f, b, x) := rnd c d e f g h a b x in
  let '(e, a, x) := rnd b c d e f g h a x in
  ((a, b, c, d, e, f, g, h), x).

(** [do ... while (j < limit)] *)
Fixpoint do_while (fuel : nat) (body : regs * work -> regs * work) (limit : nat) (x : regs * work) : regs * work :=
  match fuel with
  | O => x
  | S fuel =>
      let x := body x in
      if (snd (fst (snd x)) <? limit)%nat then do_while fuel body limit x else x
  end.

(** The registers and the sum at the end; [loops] are the two loops. *)
Definition transform_with (loops : regs * work -> regs * work) (state data : list Z) : list Z :=
  let s := word_at state in
  let '((a, b, c, d, e, f, g, h), _) :=
    loops ((s 0, s 1, s 2, s 3, s 4, s 5, s 6, s 7)%nat, (replicate 16 0, 0%nat, data)) in
  [uw p (s 0%nat + a); uw p (s 1%nat + b); uw p (s 2%nat + c); uw p (s 3%nat + d);
   uw p (s 4%nat + e); uw p (s 5%nat + f); uw p (s 6%nat + g); uw p (s 7%nat + h)].

(** With SHA2_UNROLL_TRANSFORM. *)
Definition Transform (state data : list Z) : list Z :=
  transform_with (fun x => do_while (nrounds p) (eight ROUND) (nrounds p) (do_while (nrounds p) (eight ROUND_0_TO_15) 16 x))
    state data.

(** Without: one round of the first or of the second loop, in which all
    registers move. *)
Definition plain_round (expand : bool) (x : regs * work) : regs * work :=
  let '((a, b, c, d, e, f, g, h), (W, j, data)) := x in
  let W :=
    if expand then
      let s0 := sigma0 p (word_at W ((j + 1) mod 16)) in
      let s1 := sigma1 p (word_at W ((j + 14) mod 16)) in
      <[(j mod 16)%nat := uw p (word_at W (j mod 16) + (s1 + word_at W ((j + 9) mod 16) + s0))]> W
    else <[j := load p data]> W in
  let data := if expand then data else drop (wlen p) data in
  let T1 := uw p (h + Sigma1 p e + Ch (ones p) e f g + word_at (KK p) j + word_at W (if expand then j mod 16 else j)%nat) in
  let T2 := uw p (Sigma0 p a + Maj a b c) in
  ((uw p (T1 + T2), a, b, c, uw p (d + T1), e, f, g), (W, S j, data)).

Definition Transform_plain (state data : list Z) : list Z :=
  transform_with (fun x => do_while (nrounds p) (plain_round true) (nrounds p) (do_while (nrounds p) (plain_round false) 16 x))
    state data.

Record SHA2_CTX := mk_sha2ctx { st : list Z; bitcount : Z * Z; buffer : list Z }.

(** Complete blocks, as long as there are. *)
Fixpoint block_loop (fuel : nat) (ctx : SHA2_CTX) (data : list Z) : SHA2_CTX * list Z :=
  match fuel with
  | O => (ctx, data)
  | S fuel =>
      if (BLOCK_LENGTH p <=? length data)%nat
      then block_loop fuel (mk_sha2ctx (Transform (st ctx) (take (BLOCK_LENGTH p) data))
                              (addinc p (bitcount ctx) (Z.of_nat (BLOCK_LENGTH p) * 8)) (buffer ctx))
             (drop (BLOCK_LENGTH p) data)
      else (ctx, data)
  end.

Definition usedspace (ctx : SHA2_CTX) : nat := Z.to_nat (Z.shiftr (fst (bitcount ctx)) 3 mod Z.of_nat (BLOCK_LENGTH p)).

(** Complete blocks, and what is left over. *)
Definition update_blocks (ctx : SHA2_CTX) (data : list Z) : SHA2_CTX :=
  let '(ctx, data) := block_loop (length data) ctx data in
  if (0 <? length data)%nat
  then mk_sha2ctx (st ctx) (addinc p (bitcount ctx) (Z.of_nat (length data) * 8)) (splice (buffer ctx) 0 data)
  else ctx.

Definition Update (ctx : SHA2_CTX) (data : list Z) : SHA2_CTX :=
  if (length data =? 0)%nat then ctx
  else
    let used := usedspace ctx in
    if (0 <? used)%nat then
      let free := (BLOCK_LENGTH p - used)%nat in
      if (free <=? length data)%nat then
        (* Fill the buffer completely and process it *)
        let buf := splice (buffer ctx) used (take free data) in
        update_blocks (mk_sha2ctx (Transform (st ctx) (take (BLOCK_LENGTH p) buf)) (addinc p (bitcount ctx) (Z.of_nat free * 8)) buf)
          (drop free data)
      else (* The buffer is not yet full *)
        mk_sha2ctx (st ctx) (addinc p (bitcount ctx) (Z.of_nat (length data) * 8)) (splice (buffer ctx) used data)
    else update_blocks ctx data.

(** [memset(&buffer[i], 0, n)] *)
Definition zero_fill (buf : list Z) (i n : nat) : list Z := splice buf i (replicate n 0).

(** [second] is how many octets are cleared after a second-to-last transform. *)
Definition Pad (second : nat) (ctx : SHA2_CTX) : SHA2_CTX :=
  let used := usedspace ctx in
  let '(s, buf) :=
    if (0 <? used)%nat then
      let buf := splice (buffer ctx) used [0x80] in
      let used := S used in
      if (used <=? SHORT_BLOCK_LENGTH p)%nat then (st ctx, zero_fill buf used (SHORT_BLOCK_LENGTH p - used))
      else
        let buf := if (used <? BLOCK_LENGTH p)%nat then zero_fill buf used (BLOCK_LENGTH p - used) else buf in
        (Transform (st ctx) (take (BLOCK_LENGTH p) buf), zero_fill buf 0 second)
    else (st ctx, splice (zero_fill (buffer ctx) 0 (SHORT_BLOCK_LENGTH p)) 0 [0x80]) in
  let buf := splice buf (SHORT_BLOCK_LENGTH p) (put_count p (bitcount ctx)) in
  mk_sha2ctx (Transform s (take (BLOCK_LENGTH p) buf)) (bitcount ctx) buf.

Definition Init (initial : list Z) : SHA2_CTX := mk_sha2ctx initial (0, 0) (replicate 128 0).

(** The context after [explicit_bzero]. *)
Definition zero_sha2 : SHA2_CTX := mk_sha2ctx (replicate 8 0) (0, 0) (replicate 128 0).

End sha2.

Definition SHA256Init : SHA2_CTX := Init sha256_initial_hash_value.
Definition SHA256Transform : list Z -> list Z -> list Z := Transform sha256.
Definition SHA256Update : SHA2_CTX -> list Z -> SHA2_CTX := Update sha256.
Definition SHA256Pad : SHA2_CTX -> SHA2_CTX := Pad sha256 (64 - 8).
Definition SHA256Final (ctx : SHA2_CTX) : list Z * SHA2_CTX :=
  (concat (map BE_32_TO_8 (st (SHA256Pad ctx))), zero_sha2).

Definition SHA512Init : SHA2_CTX := Init sha512_initial_hash_value.
Definition SHA512Transform : list Z -> list Z -> list Z := Transform sha512.
(** Without SHA2_UNROLL_TRANSFORM. *)
Definition SHA512Transform_plain : list Z -> list Z -> list Z := Transform_plain sha512.
Definition SHA512Update : SHA2_CTX -> list Z -> SHA2_CTX := Update sha512.
Definition SHA512Pad : SHA2_CTX -> SHA2_CTX := Pad sha512 (128 - 2).
Definition SHA512Final (ctx : SHA2_CTX) : list Z * SHA2_CTX :=
  (concat (map BE_64_TO_8 (st (SHA512Pad ctx))), zero_sha2).

Definition SHA384Init : SHA2_CTX := Init sha384_initial_hash_value.
Definition SHA384Transform (state data : list Z) : list Z := SHA512Transform state data.
Definition SHA384Update (ctx : SHA2_CTX) (data : list Z) : SHA2_CTX := SHA512Update ctx data.
Definition SHA384Pad (ctx : SHA2_CTX) : SHA2_CTX := SHA512Pad ctx.
Definition SHA384Final (ctx : SHA2_CTX) : list Z * SHA2_CTX :=
  (concat (map BE_64_TO_8 (take 6 (st (SHA384Pad ctx)))), zero_sha2).
