(* ===== verification/Sha2Thms.v ===== *)
(** The transforms of sha2.c are the compression functions of FIPS 180-4, and
    updating and padding make of them the hash of the whole message. *)

From stdpp Require Import base list numbers tactics.
From Stdlib Require Import ZArith Lia ZifyBool.
From S2P Require Import Prelude HashBlocks Sha2.

Lemma take_splice_end l i v n : (i + length v = n)%nat -> (n <= length l)%nat -> take n (splice l i v) = take i l ++ v.
Proof.
  intros Hn Hl. unfold splice. rewrite app_assoc, take_app_le by (rewrite length_app, length_take; lia).
  apply take_ge. rewrite length_app, length_take. lia.
Qed.

Lemma take_over_head l x n : (0 < n)%nat -> take n (splice l 0 [x]) = x :: drop 1 (take n l).
Proof.
  intros Hn. unfold splice. rewrite take_0. cbn [app length Nat.add]. destruct n as [|n]; [lia|]. cbn [firstn].
  by rewrite skipn_firstn_comm, Nat.sub_succ, Nat.sub_0_r.
Qed.

(** ** FIPS 180-4 *)

Section fips.
Context (p : sha2).

(** The message schedule: sixteen words of the block, and then each word from
    four that come before it. *)
Definition next_word (ws : list Z) : Z :=
  let t := length ws in
  uw p (sigma1 p (word_at ws (t - 2)) + word_at ws (t - 7) + sigma0 p (word_at ws (t - 15)) + word_at ws (t - 16)).

Definition block_words (block : list Z) : list Z := map (fun i => load p (drop (i * wlen p) block)) (seq 0 16).

Definition message_schedule (block : list Z) : list Z := extend next_word (nrounds p - 16) (block_words block).

Definition fips_round (r : regs) (kw : Z * Z) : regs :=
  let '(a, b, c, d, e, f, g, h) := r in
  let T1 := uw p (h + Sigma1 p e + Ch (ones p) e f g + fst kw + snd kw) in
  let T2 := uw p (Sigma0 p a + Maj a b c) in
  (uw p (T1 + T2), a, b, c, uw p (d + T1), e, f, g).

Definition fips_compress (H block : list Z) : list Z :=
  let s := word_at H in
  let '(a, b, c, d, e, f, g, h) :=
    fold_left fips_round (combine (KK p) (message_schedule block)) (s 0, s 1, s 2, s 3, s 4, s 5, s 6, s 7)%nat in
  [uw p (s 0%nat + a); uw p (s 1%nat + b); uw p (s 2%nat + c); uw p (s 3%nat + d);
   uw p (s 4%nat + e); uw p (s 5%nat + f); uw p (s 6%nat + g); uw p (s 7%nat + h)].

(** What the proofs use of the parameters. *)
Record sha2_ok : Prop := {
  so_mod : exists M, 0 < M /\ forall x, uw p x = x mod M;
  so_rounds : exists k, nrounds p = (16 + 8 * S k)%nat;
  so_K : length (KK p) = nrounds p;
  so_wlen : (0 < wlen p)%nat;
  so_block : BLOCK_LENGTH p = (16 * wlen p)%nat
}.

Context (ok : sha2_ok).

Lemma uw_add x y : uw p (x + uw p y) = uw p (x + y).
Proof. destruct (so_mod ok) as (M & HM & E). rewrite !E. by rewrite Z.add_mod_idemp_r by lia. Qed.

(** ** The schedule *)

Lemma length_block_words block : length (block_words block) = 16%nat.
Proof. done. Qed.

Lemma length_message_schedule block : length (message_schedule block) = nrounds p.
Proof. unfold message_schedule. rewrite length_extend, length_block_words. destruct (so_rounds ok) as [k ->]. lia. Qed.

Lemma message_schedule_head block i : (i < 16)%nat -> word_at (message_schedule block) i = load p (drop (i * wlen p) block).
Proof.
  intros Hi. unfold message_schedule. rewrite extend_head by (by rewrite length_block_words). unfold word_at, block_words.
  by rewrite list_lookup_fmap, lookup_seq_lt by done.
Qed.

(** ** The loops *)

(** After [t] rounds. *)
Definition at_round (r0 : regs) (block : list Z) (t : nat) (x : regs * work) : Prop :=
  let Ws := message_schedule block in
  fst x = fold_left fips_round (take t (combine (KK p) Ws)) r0 /\
  exists W, snd x = (W, t, drop (t `min` 16 * wlen p) block) /\ holds_words Ws W t.

Lemma round_take r0 block t : (t < nrounds p)%nat ->
  fold_left fips_round (take (S t) (combine (KK p) (message_schedule block))) r0 =
  fips_round (fold_left fips_round (take t (combine (KK p) (message_schedule block))) r0)
    (word_at (KK p) t, word_at (message_schedule block) t).
Proof.
  intros Ht. pose proof (length_message_schedule block) as Hl. pose proof (so_K ok) as HK.
  destruct (lookup_lt_is_Some_2 (KK p) t) as [kt Hk]; [lia|]. destruct (lookup_lt_is_Some_2 (message_schedule block) t) as [wt Hw]; [lia|].
  assert (Hc : combine (KK p) (message_schedule block) !! t = Some (kt, wt)).
  { change (combine ?a ?b) with (zip a b). rewrite lookup_zip_with, Hk, Hw. done. }
  rewrite (take_S_r _ _ _ Hc), fold_left_app. cbn [fold_left]. unfold word_at. by rewrite Hk, Hw.
Qed.

(** A round, with the registers in the order of the standard. *)
Definition steps_round (rnd : Z -> Z -> Z -> Z -> Z -> Z -> Z -> Z -> work -> Z * Z * work) (r0 : regs) (block : list Z) (t : nat) : Prop :=
  forall a b c d e f g h x, at_round r0 block t ((a, b, c, d, e, f, g, h), x) ->
  exists d' h' x', rnd a b c d e f g h x = (d', h', x') /\ at_round r0 block (S t) ((h', a, b, c, d', e, f, g), x').

Lemma first_round r0 block t : (t < 16)%nat -> steps_round (ROUND_0_TO_15 p) r0 block t.
Proof.
  intros Ht a b c d e f g h x (Hr & W & Hx & HW). cbn [fst snd] in Hr, Hx. subst x.
  destruct (so_rounds ok) as [k Hk].
  assert (Hw : load p (drop (t `min` 16 * wlen p) block) = word_at (message_schedule block) t)
    by (rewrite message_schedule_head, Nat.min_l by lia; done).
  pose proof (holds_next _ _ _ HW) as HW1. rewrite Nat.mod_small in HW1 by done.
  eexists _, _, _. split; [reflexivity|]. split.
  - cbn [fst]. rewrite round_take, <- Hr by lia. unfold fips_round. cbn [fst snd].
    assert (E : word_at (<[t:=load p (drop (t `min` 16 * wlen p) block)]> W) t = word_at (message_schedule block) t).
    { unfold word_at at 1. rewrite list_lookup_insert_eq by (destruct HW; lia). done. }
    rewrite E, (uw_add _ (Sigma0 p a + Maj a b c)), Z.add_assoc. done.
  - exists (<[t := word_at (message_schedule block) t]> W). split; [|exact HW1]. cbn [snd]. rewrite Hw, drop_drop, !Nat.min_l by lia. do 2 f_equal. lia.
Qed.

Lemma later_round r0 block t : (16 <= t < nrounds p)%nat -> steps_round (ROUND p) r0 block t.
Proof.
  intros Ht a b c d e f g h x (Hr & W & Hx & HW). cbn [fst snd] in Hr, Hx. subst x.
  set (Ws := message_schedule block) in *.
  assert (Hw : uw p (word_at W (t mod 16) + (sigma1 p (word_at W ((t + 14) mod 16)) + word_at W ((t + 9) mod 16) + sigma0 p (word_at W ((t + 1) mod 16)))) =
               word_at Ws t).
  { rewrite (holds_word Ws W t (t - 2) 14), (holds_word Ws W t (t - 7) 9), (holds_word Ws W t (t - 15) 1) by (done || lia).
    pose proof (holds_word Ws W t (t - 16) 0 HW ltac:(lia) ltac:(lia)) as E0. rewrite Nat.add_0_r in E0. rewrite E0.
    unfold Ws, message_schedule. rewrite (extend_next _ _ _ t) by (rewrite length_block_words; lia).
    fold (message_schedule block). unfold next_word. rewrite length_take, length_message_schedule, Nat.min_l, !word_at_take by lia.
    f_equal. lia. }
  eexists _, _, _. split; [reflexivity|]. rewrite Hw. split.
  - cbn [fst]. rewrite round_take by lia. fold Ws. rewrite <- Hr. unfold fips_round. cbn [fst snd]. rewrite (uw_add _ (Sigma0 p a + Maj a b c)), Z.add_assoc. done.
  - exists (<[(t mod 16)%nat := word_at Ws t]> W). split; [|by apply holds_next]. cbn [snd]. by rewrite !Nat.min_r by lia.
Qed.

Lemma eight_rounds rnd r0 block t x :
  (forall i, (i < 8)%nat -> steps_round rnd r0 block (t + i)) -> at_round r0 block t x -> at_round r0 block (t + 8) (eight rnd x).
Proof.
  intros Hs Hx. destruct x as [[[[[[[[a b] c] d] e] f] g] h] x]. unfold eight.
  rewrite <- (Nat.add_0_r t) in Hx.
  destruct (Hs 0%nat ltac:(lia) _ _ _ _ _ _ _ _ _ Hx) as (d1 & h1 & x1 & -> & H1). rewrite <- Nat.add_succ_r in H1. clear Hx.
  destruct (Hs 1%nat ltac:(lia) _ _ _ _ _ _ _ _ _ H1) as (d2 & h2 & x2 & -> & H2). rewrite <- Nat.add_succ_r in H2. clear H1.
  destruct (Hs 2%nat ltac:(lia) _ _ _ _ _ _ _ _ _ H2) as (d3 & h3 & x3 & -> & H3). rewrite <- Nat.add_succ_r in H3. clear H2.
  destruct (Hs 3%nat ltac:(lia) _ _ _ _ _ _ _ _ _ H3) as (d4 & h4 & x4 & -> & H4). rewrite <- Nat.add_succ_r in H4. clear H3.
  destruct (Hs 4%nat ltac:(lia) _ _ _ _ _ _ _ _ _ H4) as (d5 & h5 & x5 & -> & H5). rewrite <- Nat.add_succ_r in H5. clear H4.
  destruct (Hs 5%nat ltac:(lia) _ _ _ _ _ _ _ _ _ H5) as (d6 & h6 & x6 & -> & H6). rewrite <- Nat.add_succ_r in H6. clear H5.
  destruct (Hs 6%nat ltac:(lia) _ _ _ _ _ _ _ _ _ H6) as (d7 & h7 & x7 & -> & H7). rewrite <- Nat.add_succ_r in H7. clear H6.
  destruct (Hs 7%nat ltac:(lia) _ _ _ _ _ _ _ _ _ H7) as (d8 & h8 & x8 & -> & H8). by rewrite <- Nat.add_succ_r in H8.
Qed.

(** A loop whose body does [n] rounds. *)
Lemma do_while_rounds body r0 block n lo limit : forall fuel k t x,
  (0 < n)%nat -> (forall t x, (lo <= t)%nat -> (t + n <= limit)%nat -> at_round r0 block t x -> at_round r0 block (t + n) (body x)) ->
  (lo <= t)%nat -> limit = (t + n * S k)%nat -> (k < fuel)%nat -> at_round r0 block t x ->
  at_round r0 block limit (do_while fuel body limit x).
Proof.
  intros fuel. induction fuel as [|fuel IH]; intros k t x Hn Hb Hlo Hl Hk Hx; [lia|]. cbn [do_while].
  assert (Hx1 : at_round r0 block (t + n) (body x)) by (apply Hb; [lia|nia|done]).
  assert (Ej : snd (fst (snd (body x))) = (t + n)%nat) by (destruct Hx1 as (_ & W & -> & _); done). rewrite Ej.
  destruct k as [|k].
  - replace limit with (t + n)%nat in * by lia. by rewrite Nat.ltb_irrefl.
  - rewrite (proj2 (Nat.ltb_lt _ _)) by nia. apply (IH k (t + n)%nat); (done || lia).
Qed.

Lemma start_round r0 block : at_round r0 block 0 (r0, (replicate 16 0, 0%nat, block)).
Proof. split; [done|]. exists (replicate 16 0). split; [done|]. split; [done|]. intros i Hi. lia. Qed.

(** Two loops that do the rounds end with the compression. *)
Lemma transform_rounds loops state block :
  (forall r0, at_round r0 block (nrounds p) (loops (r0, (replicate 16 0, 0%nat, block)))) ->
  transform_with p loops state block = fips_compress state block.
Proof.
  intros H. unfold transform_with, fips_compress. set (s := word_at state).
  set (r0 := (s 0, s 1, s 2, s 3, s 4, s 5, s 6, s 7)%nat). destruct (H r0) as [Hr _].
  rewrite take_ge in Hr by (rewrite length_combine, length_message_schedule, (so_K ok); lia).
  destruct (loops _) as [[[[[[[[a b] c] d] e] f] g] h] y]. cbn [fst] in Hr. by rewrite <- Hr.
Qed.

Lemma Transform_correct state block : Transform p state block = fips_compress state block.
Proof.
  apply transform_rounds. intros r0. destruct (so_rounds ok) as [k Hk].
  assert (H1 : at_round r0 block 16 (do_while (nrounds p) (eight (ROUND_0_TO_15 p)) 16 (r0, (replicate 16 0, 0%nat, block)))).
  { apply (do_while_rounds _ _ _ 8 0 16 _ 1 0); try lia; [|apply start_round].
    intros t x _ Ht. apply eight_rounds. intros i Hi. apply first_round. lia. }
  apply (do_while_rounds _ _ _ 8 16 (nrounds p) _ k 16); try lia; [|exact H1].
  intros t x Hlo Ht. apply eight_rounds. intros i Hi. apply later_round. lia.
Qed.

(** The plain loop moves the registers instead of renaming them. *)
Lemma plain_is_round (expand : bool) r0 block t x :
  steps_round (if expand then ROUND p else ROUND_0_TO_15 p) r0 block t -> at_round r0 block t x -> at_round r0 block (t + 1) (plain_round p expand x).
Proof.
  intros Hs Hx. destruct x as [[[[[[[[a b] c] d] e] f] g] h] x]. pose proof Hx as (_ & W & Ex & HW & _). cbn [snd] in Ex. subst x.
  destruct (Hs _ _ _ _ _ _ _ _ _ Hx) as (d' & h' & x' & E & H'). rewrite Nat.add_1_r.
  match goal with |- at_round _ _ _ ?y => assert (Ey : y = ((h', a, b, c, d', e, f, g), x')); [|by rewrite Ey] end.
  clear H' Hs. unfold plain_round. rewrite (uw_add _ (Sigma0 p a + Maj a b c)), Z.add_assoc.
  assert (Hin : forall v, word_at (<[(t mod 16)%nat := v]> W) (t mod 16) = v).
  { intros v. unfold word_at. rewrite list_lookup_insert_eq; [done|]. rewrite HW. apply Nat.mod_upper_bound. lia. }
  destruct expand; injection E as <- <- <-; [by rewrite Hin|done].
Qed.

Lemma Transform_plain_correct state block : Transform_plain p state block = fips_compress state block.
Proof.
  apply transform_rounds. intros r0. destruct (so_rounds ok) as [k Hk].
  assert (H1 : at_round r0 block 16 (do_while (nrounds p) (plain_round p false) 16 (r0, (replicate 16 0, 0%nat, block)))).
  { apply (do_while_rounds _ _ _ 1 0 16 _ 15 0); try lia; [|apply start_round].
    intros t x _ Ht. apply (plain_is_round false), first_round. lia. }
  apply (do_while_rounds _ _ _ 1 16 (nrounds p) _ (8 * k + 7) 16); try lia; [|exact H1].
  intros t x Hlo Ht. apply (plain_is_round true), later_round. lia.
Qed.

(** ** Messages *)

(** [bitcount] stands for a number of octets; [enc_len] is the length in the
    padding. *)
Record counting (count_is : Z * Z -> nat -> Prop) (enc_len : nat -> list Z) : Prop := {
  co_zero : count_is (0, 0) 0%nat;
  co_add bc n k : count_is bc n -> (k <= BLOCK_LENGTH p)%nat -> count_is (addinc p bc (Z.of_nat k * 8)) (n + k)%nat;
  co_used bc n : count_is bc n -> fst bc = (8 * Z.of_nat n) mod 2 ^ 64;
  co_put bc n : count_is bc n -> put_count p bc = enc_len n;
  co_len n : length (enc_len n) = (BLOCK_LENGTH p - SHORT_BLOCK_LENGTH p)%nat;
  co_short : (0 < SHORT_BLOCK_LENGTH p < BLOCK_LENGTH p)%nat;
  co_buffer : (BLOCK_LENGTH p <= 128)%nat;
  co_div : (Z.of_nat (BLOCK_LENGTH p) | 2 ^ 61)
}.

Context (count_is : Z * Z -> nat -> Prop) (enc_len : nat -> list Z) (co : counting count_is enc_len).

#[local] Abbreviation bs := (BLOCK_LENGTH p).

(** A context that has taken in [m]. *)
Definition has_taken (iv : list Z) (ctx : SHA2_CTX) (m : list Z) : Prop :=
  taken bs fips_compress iv (st ctx) (buffer ctx) m /\ count_is (bitcount ctx) (length m).

Lemma usedspace_taken iv ctx m : has_taken iv ctx m -> usedspace p ctx = (length m mod bs)%nat.
Proof.
  intros [_ Hc]. pose proof (co_short _ _ co). apply used_of_count; [lia|apply (co_div _ _ co)|by apply (co_used _ _ co)].
Qed.

(** Data up to the end of the block. *)
Lemma fill_taken iv ctx m d buf' :
  has_taken iv ctx m -> (length m mod bs + length d = bs)%nat -> (bs <= length buf')%nat ->
  has_taken iv (mk_sha2ctx (Transform p (st ctx) (take (length m mod bs) (buffer ctx) ++ d)) (addinc p (bitcount ctx) (Z.of_nat (length d) * 8)) buf') (m ++ d) /\
  (length (m ++ d) mod bs = 0)%nat.
Proof.
  intros [Ht Hc] Hd Hb. pose proof (co_short _ _ co). destruct (taken_block bs fips_compress ltac:(lia) iv (st ctx) (buffer ctx) m d buf' Ht Hd Hb) as [Ht' Hm].
  split; [|done]. split; cbn [st buffer bitcount]; [by rewrite Transform_correct|]. rewrite length_app. apply (co_add _ _ co); [done|lia].
Qed.

Lemma part_taken iv ctx m d :
  has_taken iv ctx m -> (length m mod bs + length d < bs)%nat ->
  has_taken iv (mk_sha2ctx (st ctx) (addinc p (bitcount ctx) (Z.of_nat (length d) * 8)) (splice (buffer ctx) (length m mod bs) d)) (m ++ d).
Proof.
  intros [Ht Hc] Hd. pose proof (co_short _ _ co). split; cbn [st buffer bitcount]; [by apply taken_part; [lia|..]|].
  rewrite length_app. apply (co_add _ _ co); [done|lia].
Qed.

Lemma block_loop_taken fuel : forall iv ctx m d,
  has_taken iv ctx m -> (length m mod bs = 0)%nat -> (length d <= fuel)%nat ->
  exists d1 d2, d = d1 ++ d2 /\ (length d2 < bs)%nat /\ snd (block_loop p fuel ctx d) = d2 /\
    has_taken iv (fst (block_loop p fuel ctx d)) (m ++ d1) /\ (length (m ++ d1) mod bs = 0)%nat.
Proof.
  pose proof (co_short _ _ co) as Hsh. induction fuel as [|fuel IH]; intros iv ctx m d Ht Hm Hf.
  - destruct d; [|cbn in Hf; lia]. exists [], []. rewrite !app_nil_r. split_and!; first [done|cbn [length]; lia].
  - cbn [block_loop]. destruct (Nat.leb_spec bs (length d)) as [Hl|Hl].
    + destruct (fill_taken iv ctx m (take bs d) (buffer ctx) Ht) as [Ht1 Hm1]; [rewrite length_take; lia|apply Ht|].
      rewrite Hm, take_0, length_take, Nat.min_l in Ht1 by lia. cbn [app] in Ht1.
      destruct (IH iv _ _ (drop bs d) Ht1 Hm1) as (d1 & d2 & Ed & Hd2 & E & Ht2 & Hm2); [rewrite length_drop; lia|].
      exists (take bs d ++ d1), d2. rewrite <- app_assoc, <- Ed, take_drop, app_assoc. done.
    + exists [], d. rewrite app_nil_r. done.
Qed.

Lemma update_blocks_taken iv ctx m d :
  has_taken iv ctx m -> (length m mod bs = 0)%nat -> has_taken iv (update_blocks p ctx d) (m ++ d).
Proof.
  intros Ht Hm. destruct (block_loop_taken (length d) iv ctx m d Ht Hm ltac:(lia)) as (d1 & d2 & Ed & Hd2 & E & Ht1 & Hm1).
  unfold update_blocks. destruct (block_loop p (length d) ctx d) as [c r]. cbn [fst snd] in E, Ht1. subst r.
  rewrite Ed, app_assoc. destruct (Nat.ltb_spec 0 (length d2)) as [Hl|Hl].
  - pose proof (part_taken iv c (m ++ d1) d2 Ht1) as Hp. rewrite Hm1 in Hp. apply Hp. lia.
  - destruct d2; [|cbn in Hl; lia]. by rewrite app_nil_r.
Qed.

Lemma Update_taken iv ctx m d : has_taken iv ctx m -> has_taken iv (Update p ctx d) (m ++ d).
Proof.
  intros Ht. pose proof (co_short _ _ co) as Hsh. unfold Update. destruct (Nat.eqb_spec (length d) 0) as [Hd|Hd].
  { destruct d; [|done]. by rewrite app_nil_r. }
  rewrite (usedspace_taken iv ctx m Ht). pose proof (Nat.mod_upper_bound (length m) bs ltac:(lia)) as Hu.
  destruct (Nat.ltb_spec 0 (length m mod bs)) as [Hz|Hz]; [|apply update_blocks_taken; [done|lia]].
  destruct (Nat.leb_spec (bs - length m mod bs) (length d)) as [Hl|Hl]; [|apply part_taken; [done|lia]].
  set (free := (bs - length m mod bs)%nat) in *. set (buf := splice (buffer ctx) (length m mod bs) (take free d)).
  pose proof (proj2 (proj2 (proj1 Ht))) as Hbl.
  assert (Hlb : length buf = length (buffer ctx)) by (apply length_splice; rewrite length_take; lia).
  assert (Eb : take bs buf = take (length m mod bs) (buffer ctx) ++ take free d).
  { unfold buf, splice. rewrite app_assoc, take_app_le by (rewrite length_app, !length_take; lia). apply take_ge.
    rewrite length_app, !length_take. lia. }
  destruct (fill_taken iv ctx m (take free d) buf Ht) as [Ht1 Hm1]; [rewrite length_take; lia|lia|].
  rewrite length_take, Nat.min_l in Ht1 by lia. rewrite <- Eb in Ht1.
  pose proof (update_blocks_taken iv _ _ (drop free d) Ht1 Hm1) as H. by rewrite <- app_assoc, take_drop in H.
Qed.

(** ** Padding *)

Lemma zero_fill_end l i n : (i + n <= length l)%nat -> take (i + n) (zero_fill l i n) = take i l ++ replicate n 0.
Proof. intros H. unfold zero_fill. by rewrite take_splice_end by (rewrite ?length_replicate; lia). Qed.

(** The length goes behind the first octets of a block. *)
Lemma put_length b q n : (bs <= length b)%nat -> take (SHORT_BLOCK_LENGTH p) b = q ->
  take bs (splice b (SHORT_BLOCK_LENGTH p) (enc_len n)) = q ++ enc_len n.
Proof. intros Hb <-. pose proof (co_short _ _ co). pose proof (co_len _ _ co n). apply take_splice_end; lia. Qed.

Lemma Transform_fills iv ctx m d :
  has_taken iv ctx m -> (length m mod bs + length d = bs)%nat ->
  Transform p (st ctx) (take (length m mod bs) (buffer ctx) ++ d) = padded_run bs fips_compress iv (m ++ d).
Proof.
  intros [Ht _] Hd. pose proof (co_short _ _ co). rewrite Transform_correct.
  destruct (taken_block bs fips_compress ltac:(lia) iv _ _ m d (buffer ctx) Ht Hd (proj2 (proj2 Ht))) as [H1 _]. by apply taken_padded in H1.
Qed.

Lemma Transform_fills_twice iv ctx m d1 d2 :
  has_taken iv ctx m -> (length m mod bs + length d1 = bs)%nat -> length d2 = bs ->
  Transform p (Transform p (st ctx) (take (length m mod bs) (buffer ctx) ++ d1)) d2 = padded_run bs fips_compress iv (m ++ d1 ++ d2).
Proof.
  intros Ht Hd1 Hd2. destruct (fill_taken iv ctx m d1 (buffer ctx) Ht Hd1 (proj2 (proj2 (proj1 Ht)))) as [Ht1 Hm1].
  pose proof (Transform_fills iv _ _ d2 Ht1 ltac:(lia)) as E. cbn [st buffer] in E. rewrite Hm1, take_0, <- app_assoc in E. exact E.
Qed.

(** The one bit behind the message. *)
Lemma put_one iv ctx m : has_taken iv ctx m ->
  take (S (length m mod bs)) (splice (buffer ctx) (length m mod bs) [128]) = take (length m mod bs) (buffer ctx) ++ [128] /\
  length (splice (buffer ctx) (length m mod bs) [128]) = length (buffer ctx) /\ (length m mod bs < bs <= length (buffer ctx))%nat.
Proof.
  intros [(_ & _ & Hbl) _]. pose proof (co_short _ _ co). pose proof (Nat.mod_upper_bound (length m) bs ltac:(lia)).
  split_and!; [apply take_splice_end; cbn [length]; lia|apply length_splice; cbn [length]; lia|lia|done].
Qed.

Lemma Pad_short second iv ctx m :
  has_taken iv ctx m -> (S (length m mod bs) <= SHORT_BLOCK_LENGTH p)%nat ->
  st (Pad p second ctx) = padded_run bs fips_compress iv
    (m ++ [128] ++ replicate (SHORT_BLOCK_LENGTH p - S (length m mod bs)) 0 ++ enc_len (length m)).
Proof.
  intros Ht Hs. pose proof (co_short _ _ co) as Hsh. pose proof (co_len _ _ co (length m)) as HL.
  destruct (put_one iv ctx m Ht) as (Hone & Hlone & Hu). unfold Pad. rewrite (usedspace_taken iv ctx m Ht), (co_put _ _ co _ _ (proj2 Ht)).
  set (u := (length m mod bs)%nat) in *. set (sh := SHORT_BLOCK_LENGTH p) in *.
  rewrite <- (Transform_fills iv ctx m _ Ht) by (cbn [length app]; rewrite length_app, length_replicate; fold u; lia). fold u.
  destruct (Nat.ltb_spec 0 u) as [Hz|Hz].
  - rewrite (proj2 (Nat.leb_le _ _)) by lia. cbn [st]. rewrite (put_length _ (take u (buffer ctx) ++ [128] ++ replicate (sh - S u) 0)).
    + by rewrite <- !app_assoc.
    + unfold zero_fill. rewrite length_splice by (rewrite length_replicate; lia). lia.
    + rewrite app_assoc, <- Hone, <- zero_fill_end by lia. f_equal. unfold sh. lia.
  - assert (u = 0)%nat as Hu0 by lia. rewrite Hu0, take_0. cbn [st]. rewrite (put_length _ ([128] ++ replicate (sh - 1) 0)).
    + by rewrite <- !app_assoc.
    + rewrite length_splice by (unfold zero_fill; rewrite length_splice; rewrite ?length_replicate; cbn [length]; lia).
      unfold zero_fill. rewrite length_splice by (rewrite length_replicate; lia). lia.
    + rewrite take_over_head by (unfold sh in *; lia). pose proof (zero_fill_end (buffer ctx) 0 sh ltac:(lia)) as Hz0. cbn [Nat.add] in Hz0.
      fold sh. rewrite Hz0, take_0. cbn [app]. by rewrite drop_replicate.
Qed.

Lemma Pad_long second iv ctx m :
  has_taken iv ctx m -> (SHORT_BLOCK_LENGTH p < S (length m mod bs))%nat -> (SHORT_BLOCK_LENGTH p <= second <= bs)%nat ->
  st (Pad p second ctx) = padded_run bs fips_compress iv
    (m ++ [128] ++ replicate (bs - S (length m mod bs) + SHORT_BLOCK_LENGTH p) 0 ++ enc_len (length m)).
Proof.
  intros Ht Hs Hse. pose proof (co_short _ _ co) as Hsh. pose proof (co_len _ _ co (length m)) as HL.
  destruct (put_one iv ctx m Ht) as (Hone & Hlone & Hu). unfold Pad. rewrite (usedspace_taken iv ctx m Ht), (co_put _ _ co _ _ (proj2 Ht)).
  rewrite replicate_add, <- app_assoc. rewrite (app_assoc [128] (replicate _ 0)).
  rewrite <- (Transform_fills_twice iv ctx m _ _ Ht) by (rewrite length_app, length_replicate; cbn [length]; lia).
  set (u := (length m mod bs)%nat) in *. set (sh := SHORT_BLOCK_LENGTH p) in *.
  rewrite (proj2 (Nat.ltb_lt 0 u)), (proj2 (Nat.leb_gt _ _)) by lia. cbn [st]. set (buf := if (S u <? bs)%nat then _ else _).
  assert (Hb : length buf = length (buffer ctx) /\ take bs buf = take u (buffer ctx) ++ [128] ++ replicate (bs - S u) 0).
  { unfold buf. destruct (Nat.ltb_spec (S u) bs) as [Hl|Hl].
    - split; [unfold zero_fill; rewrite length_splice; [done|rewrite length_replicate; lia]|].
      rewrite app_assoc, <- Hone, <- zero_fill_end by lia. f_equal. lia.
    - split; [done|]. replace bs with (S u) by lia. rewrite Hone, Nat.sub_diag. done. }
  destruct Hb as [Hlb ->]. f_equal. apply put_length.
  - unfold zero_fill. rewrite length_splice; rewrite ?length_replicate; lia.
  - unfold zero_fill, splice. rewrite take_0. cbn [app]. rewrite take_app_le by (rewrite length_replicate; unfold sh in *; lia).
    rewrite take_replicate. f_equal. unfold sh in *. lia.
Qed.

Lemma Pad_run second iv ctx m :
  has_taken iv ctx m -> (SHORT_BLOCK_LENGTH p <= second <= bs)%nat ->
  st (Pad p second ctx) =
    padded_run bs fips_compress iv (m ++ padding bs (bs - SHORT_BLOCK_LENGTH p) (length m) (enc_len (length m))).
Proof.
  intros Ht Hse. pose proof (co_short _ _ co) as Hsh. unfold padding.
  pose proof (padding_fits bs (bs - SHORT_BLOCK_LENGTH p) (length m) ltac:(lia)) as Hfit. cbv zeta in Hfit.
  set (k := ((2 * bs - (length m mod bs + 1 + (bs - SHORT_BLOCK_LENGTH p))) mod bs)%nat) in *.
  pose proof (Nat.mod_upper_bound (length m) bs ltac:(lia)) as Hu.
  destruct (Nat.leb_spec (length m mod bs + 1 + (bs - SHORT_BLOCK_LENGTH p)) bs) as [Hf|Hf].
  - rewrite (Pad_short second iv ctx m) by (done || lia). do 5 f_equal. lia.
  - rewrite (Pad_long second iv ctx m) by (done || lia). do 5 f_equal. lia.
Qed.

(** Taking in a message in pieces. *)
Lemma Updates_taken iv parts : forall ctx m, has_taken iv ctx m -> has_taken iv (fold_left (Update p) parts ctx) (m ++ concat parts).
Proof.
  induction parts as [|d parts IH]; intros ctx m Ht; [by rewrite app_nil_r|]. cbn [fold_left concat]. rewrite app_assoc.
  by apply IH, Update_taken.
Qed.

Lemma Init_taken iv : has_taken iv (Init iv) [].
Proof.
  pose proof (co_short _ _ co). split; [|apply (co_zero _ _ co)]. apply taken_nil. cbn [buffer Init]. rewrite length_replicate.
  apply (co_buffer _ _ co).
Qed.

(** Messages in any pieces: the state after padding is that of the whole. *)
Lemma digest_run second iv parts :
  (SHORT_BLOCK_LENGTH p <= second <= bs)%nat ->
  let m := concat parts in
  st (Pad p second (fold_left (Update p) parts (Init iv))) =
    padded_run bs fips_compress iv (m ++ padding bs (bs - SHORT_BLOCK_LENGTH p) (length m) (enc_len (length m))).
Proof. intros Hse m. apply (Pad_run second iv _ m); [|done]. apply (Updates_taken iv parts (Init iv) []), Init_taken. Qed.

End fips.

(** ** The hash functions *)

(** [v] in [k] octets, most significant first. *)
Definition big_endian (k : nat) (v : Z) : list Z := map (fun i => (v / 256 ^ Z.of_nat (k - 1 - i)) mod 256) (seq 0 k).

(** The words of the state as octets. *)
Definition words_out (k : nat) (ws : list Z) : list Z := concat (map (big_endian k) ws).

(** FIPS 180-4, section 6.2: SHA-256 of a message. *)
Definition fips_sha256 (m : list Z) : list Z :=
  words_out 4 (padded_run 64 (fips_compress sha256) sha256_initial_hash_value
    (m ++ padding 64 8 (length m) (big_endian 8 (8 * Z.of_nat (length m))))).

(** Sections 6.4 and 6.5: SHA-512, and SHA-384, which is cut off. *)
Definition fips_sha512_from (iv m : list Z) : list Z :=
  padded_run 128 (fips_compress sha512) iv (m ++ padding 128 16 (length m) (big_endian 16 (8 * Z.of_nat (length m)))).

Definition fips_sha512 (m : list Z) : list Z := words_out 8 (fips_sha512_from sha512_initial_hash_value m).
Definition fips_sha384 (m : list Z) : list Z := words_out 8 (take 6 (fips_sha512_from sha384_initial_hash_value m)).

Lemma sha256_ok : sha2_ok sha256.
Proof. split; try done; [by exists (2 ^ 32)|by exists 5%nat|cbn; lia]. Qed.

Lemma sha512_ok : sha2_ok sha512.
Proof. split; try done; [by exists (2 ^ 64)|by exists 7%nat|cbn; lia]. Qed.

(** ** Counts *)

Lemma octet_of_mod v a k : 0 <= k -> k + 8 <= a -> u8 (Z.shiftr (v mod 2 ^ a) k) = (v / 2 ^ k) mod 256.
Proof.
  intros Hk Ha. unfold u8. change 256 with (2 ^ 8). rewrite <- Z.shiftr_div_pow2, <- !Z.land_ones by lia.
  apply Z.bits_inj'. intros n Hn. rewrite !Z.land_spec, !Z.shiftr_spec by done. destruct (Z.ltb_spec n 8).
  - rewrite Z.land_spec, (Z.ones_spec_low a) by lia. by rewrite andb_true_r.
  - by rewrite (Z.ones_spec_high 8 n), !andb_false_r by lia.
Qed.

Lemma pow256 k : 0 <= k -> 256 ^ k = 2 ^ (8 * k).
Proof. intros H. change 256 with (2 ^ 8). by rewrite Z.pow_mul_r by lia. Qed.

Lemma put64 v : BE_64_TO_8 (v mod 2 ^ 64) = big_endian 8 v.
Proof.
  unfold BE_64_TO_8, big_endian. cbn [map seq]. rewrite !pow256 by lia. pose proof (octet_of_mod v 64 0 ltac:(lia) ltac:(lia)) as E.
  rewrite Z.shiftr_0_r in E. rewrite E, !octet_of_mod by lia. done.
Qed.

Lemma put_word32 v : BE_32_TO_8 v = big_endian 4 v.
Proof. unfold BE_32_TO_8, big_endian, u8. cbn [map seq]. rewrite !Z.shiftr_div_pow2 by lia. by rewrite Z.div_1_r. Qed.

Lemma put_word64 v : BE_64_TO_8 v = big_endian 8 v.
Proof. unfold BE_64_TO_8, big_endian, u8. cbn [map seq]. rewrite !Z.shiftr_div_pow2 by lia. by rewrite Z.div_1_r. Qed.

Lemma big_endian_join v : big_endian 16 v = big_endian 8 (v / 2 ^ 64) ++ big_endian 8 v.
Proof.
  unfold big_endian. cbn [map seq app]. rewrite !Z.div_div by lia. reflexivity.
Qed.

Lemma sha256_counting : counting sha256 (fun bc n => fst bc = (8 * Z.of_nat n) mod 2 ^ 64) (fun n => big_endian 8 (8 * Z.of_nat n)).
Proof.
  split; try done.
  - intros bc n k Hc _. cbn [addinc sha256 fst]. rewrite Hc. unfold u64. rewrite Z.add_mod_idemp_l by lia. f_equal. lia.
  - intros bc n Hc. cbn [put_count sha256]. by rewrite Hc, put64.
  - cbn. lia.
  - cbn. lia.
  - by exists (2 ^ 55).
Qed.

Lemma ADDINC128_spec w n x :
  0 <= fst w < 2 ^ 64 -> 0 <= snd w < 2 ^ 64 -> 0 <= n < 2 ^ 64 -> fst w + 2 ^ 64 * snd w = x mod 2 ^ 128 ->
  let w' := ADDINC128 w n in
  0 <= fst w' < 2 ^ 64 /\ 0 <= snd w' < 2 ^ 64 /\ fst w' + 2 ^ 64 * snd w' = (x + n) mod 2 ^ 128.
Proof.
  intros H0 H1 Hn Hx. rewrite <- Z.add_mod_idemp_l, <- Hx by lia. unfold ADDINC128. cbn [fst snd].
  destruct w as [w0 w1]. cbn [fst snd] in *. unfold u64.
  destruct (Z.ltb_spec ((w0 + n) mod 2 ^ 64) n) as [Hl|Hl].
  - assert (Hge : 2 ^ 64 <= w0 + n) by (destruct (Z.lt_ge_cases (w0 + n) (2 ^ 64)); [rewrite Z.mod_small in Hl; lia|done]).
    assert (E : (w0 + n) mod 2 ^ 64 = w0 + n - 2 ^ 64) by (symmetry; apply (Z.mod_unique _ _ 1); lia).
    rewrite E. split; [lia|]. split; [apply Z.mod_pos_bound; lia|]. destruct (Z.eq_dec w1 (2 ^ 64 - 1)) as [->|Hne].
    + replace (2 ^ 64 - 1 + 1) with (2 ^ 64) by lia. rewrite Z.mod_same by lia. apply (Z.mod_unique _ _ 1); lia.
    + rewrite (Z.mod_small (w1 + 1)), Z.mod_small by lia. lia.
  - assert (Hlt : w0 + n < 2 ^ 64).
    { destruct (Z.lt_ge_cases (w0 + n) (2 ^ 64)); [done|].
      assert ((w0 + n) mod 2 ^ 64 = w0 + n - 2 ^ 64) by (symmetry; apply (Z.mod_unique _ _ 1); lia). lia. }
    rewrite (Z.mod_small (w0 + n)) by lia. split; [lia|]. split; [lia|]. rewrite Z.mod_small; lia.
Qed.

Lemma sha512_counting :
  counting sha512 (fun bc n => 0 <= fst bc < 2 ^ 64 /\ 0 <= snd bc < 2 ^ 64 /\ fst bc + 2 ^ 64 * snd bc = (8 * Z.of_nat n) mod 2 ^ 128)
    (fun n => big_endian 16 (8 * Z.of_nat n)).
Proof.
  assert (Hf : forall bc n, 0 <= fst bc < 2 ^ 64 -> fst bc + 2 ^ 64 * snd bc = n mod 2 ^ 128 -> fst bc = n mod 2 ^ 64).
  { intros bc n Hb E. assert (E2 : (n mod 2 ^ 128) mod 2 ^ 64 = n mod 2 ^ 64) by (apply Z.mod_mod_divide; by exists (2 ^ 64)).
    rewrite <- E2, <- E, Z.mul_comm, Z.mod_add, Z.mod_small; lia. }
  split; try done.
  - intros bc n k (H0 & H1 & E) Hk. cbn [addinc sha512 BLOCK_LENGTH] in *.
    destruct (ADDINC128_spec bc (Z.of_nat k * 8) (8 * Z.of_nat n) H0 H1 ltac:(lia) E) as (A & B & C).
    split; [exact A|]. split; [exact B|]. etransitivity; [exact C|]. f_equal. lia.
  - intros bc n (H0 & _ & E). by apply Hf.
  - intros bc n (H0 & H1 & E). cbn [put_count sha512]. rewrite big_endian_join, <- !put64. f_equal; f_equal; [|by apply Hf].
    set (x := 8 * Z.of_nat n) in *. assert (E3 : x mod 2 ^ 128 = x mod 2 ^ 64 + 2 ^ 64 * ((x / 2 ^ 64) mod 2 ^ 64)).
    { change (2 ^ 128) with (2 ^ 64 * 2 ^ 64). apply Z.rem_mul_r; lia. }
    pose proof (Hf bc x H0 E). lia.
  - cbn. lia.
  - by exists (2 ^ 54).
Qed.

(** The two forms of the transform are the same function. *)
Lemma SHA512Transform_plain_eq state data : SHA512Transform_plain state data = SHA512Transform state data.
Proof. unfold SHA512Transform_plain, SHA512Transform. by rewrite (Transform_plain_correct sha512 sha512_ok), (Transform_correct sha512 sha512_ok). Qed.

(** ** The digests *)

Lemma sha256_digest parts : (SHA256Final (fold_left SHA256Update parts SHA256Init)).1 = fips_sha256 (concat parts).
Proof.
  unfold SHA256Final, fips_sha256, words_out. cbn [fst]. rewrite (map_ext _ _ put_word32). do 2 f_equal.
  apply (digest_run sha256 sha256_ok _ _ sha256_counting (64 - 8) sha256_initial_hash_value parts). cbn. lia.
Qed.

Lemma sha512_run iv parts :
  st (SHA512Pad (fold_left SHA512Update parts (Init iv))) = fips_sha512_from iv (concat parts).
Proof. apply (digest_run sha512 sha512_ok _ _ sha512_counting (128 - 2) iv parts). cbn. lia. Qed.

Lemma sha512_digest parts : (SHA512Final (fold_left SHA512Update parts SHA512Init)).1 = fips_sha512 (concat parts).
Proof. unfold SHA512Final, fips_sha512, words_out. cbn [fst]. rewrite (map_ext _ _ put_word64). unfold SHA512Init. by rewrite sha512_run. Qed.

Lemma sha384_digest parts : (SHA384Final (fold_left SHA384Update parts SHA384Init)).1 = fips_sha384 (concat parts).
Proof. unfold SHA384Final, SHA384Pad, SHA384Update, fips_sha384, words_out. cbn [fst]. rewrite (map_ext _ _ put_word64). unfold SHA384Init. by rewrite sha512_run. Qed.

(** ** The constants *)

(** The first [n] prime numbers, by trial division. *)
Definition is_prime (k : Z) : bool :=
  forallb (fun d => negb (k mod d =? 0)) (map Z.of_nat (seq 2 (Z.to_nat (Z.sqrt k) - 1))).
Definition first_primes (n : nat) : list Z := take n (List.filter is_prime (map Z.of_nat (seq 2 420))).

(** [c] is the first [w] bits of the fractional part of the [e]-th root of [q]. *)
Definition root_frac (e w q c : Z) : Prop := exists r, r ^ e <= q * 2 ^ (e * w) < (r + 1) ^ e /\ c = r mod 2 ^ w.

(** The root, found bit by bit, and a test. *)
Fixpoint root_from (bits : nat) (e n r : Z) : Z :=
  match bits with
  | O => r
  | S bits => let r' := r + 2 ^ Z.of_nat bits in root_from bits e n (if r' ^ e <=? n then r' else r)
  end.

Definition root_frac_b (e w q c : Z) : bool :=
  let n := q * 2 ^ (e * w) in
  let r := root_from (Z.to_nat w + 10) e n 0 in (r ^ e <=? n) && (n <? (r + 1) ^ e) && (c =? r mod 2 ^ w).

Lemma root_frac_test e w q c : root_frac_b e w q c = true -> root_frac e w q c.
Proof.
  unfold root_frac_b, root_frac. intros H. apply andb_prop in H as [H H3]. apply andb_prop in H as [H1 H2].
  exists (root_from (Z.to_nat w + 10) e (q * 2 ^ (e * w)) 0). apply Z.leb_le in H1. apply Z.ltb_lt in H2. apply Z.eqb_eq in H3. auto.
Qed.

Lemma root_fracs e w qs cs :
  length qs = length cs -> forallb (fun qc => root_frac_b e w (fst qc) (snd qc)) (combine qs cs) = true -> Forall2 (root_frac e w) qs cs.
Proof.
  revert cs. induction qs as [|q qs IH]; intros [|c cs] Hl H; try done. cbn in H. apply andb_prop in H as [H1 H2].
  constructor; [by apply root_frac_test|]. apply IH; [by injection Hl|done].
Qed.

(** The constants are those of FIPS 180-4, sections 4.2 and 5.3: of cube roots
    and square roots of the first prime numbers. *)
Lemma sha2_constants :
  Forall2 (root_frac 3 32) (first_primes 64) K256 /\ Forall2 (root_frac 2 32) (first_primes 8) sha256_initial_hash_value /\
  Forall2 (root_frac 3 64) (first_primes 80) K512 /\ Forall2 (root_frac 2 64) (first_primes 8) sha512_initial_hash_value /\
  Forall2 (root_frac 2 64) (drop 8 (first_primes 16)) sha384_initial_hash_value.
Proof. split_and!; apply root_fracs; vm_compute; reflexivity. Qed.
