(* ===== verification/Sha1.v ===== *)
(** SHA-1 (openbsd-compat/sha1.c) computes the hash function of FIPS 180-4. *)

From stdpp Require Import base list numbers tactics.
From Stdlib Require Import ZArith Lia ZifyBool.
From S2P Require Import Prelude HashBlocks Sha2 Sha2Thms.

(** ** The code *)

Definition rol (value bits : Z) : Z := Z.lor (u32 (Z.shiftl value bits)) (Z.shiftr value (32 - bits)).

(** A word of the block as it lies in memory; the machine is little-endian. *)
Definition memory_word (block : list Z) (i : nat) : Z :=
  let b k := u8 (byte_at block (4 * i + k)) in
  Z.lor (Z.lor (Z.lor (b 0%nat) (Z.shiftl (b 1%nat) 8)) (Z.shiftl (b 2%nat) 16)) (Z.shiftl (b 3%nat) 24).

(** [block->l[i] = ...]: the array and the word. *)
Definition blk0 (l : list Z) (i : nat) : list Z * Z :=
  let x := word_at l i in
  let v := Z.lor (Z.land (rol x 24) 0xFF00FF00) (Z.land (rol x 8) 0x00FF00FF) in (<[i := v]> l, v).

Definition blk (l : list Z) (i : nat) : list Z * Z :=
  let v := rol (Z.lxor (Z.lxor (Z.lxor (word_at l ((i + 13) mod 16)) (word_at l ((i + 8) mod 16))) (word_at l ((i + 2) mod 16)))
                  (word_at l (i mod 16))) 1 in
  (<[(i mod 16)%nat := v]> l, v).

(** The rounds R0 to R4, as a function of the index: returns [w] and [z]. *)
Definition R01234 (v w x y z : Z) (i : nat) (l : list Z) : Z * Z * list Z :=
  let '(l, b) := if (i <? 16)%nat then blk0 l i else blk l i in
  let fk :=
    if (i <? 20)%nat then Z.lxor (Z.land w (Z.lxor x y)) y + b + 0x5A827999           (* R0 and R1 *)
    else if (i <? 40)%nat then Z.lxor (Z.lxor w x) y + b + 0x6ED9EBA1                 (* R2 *)
    else if (i <? 60)%nat then Z.lor (Z.land (Z.lor w x) y) (Z.land w x) + b + 0x8F1BBCDC (* R3 *)
    else Z.lxor (Z.lxor w x) y + b + 0xCA62C1D6 in                                    (* R4 *)
  (rol w 30, u32 (z + (fk + rol v 5)), l).

Definition regs5 : Type := Z * Z * Z * Z * Z.

(** Five rounds, after which the registers have their names again. *)
Definition five (i : nat) (x : regs5 * list Z) : regs5 * list Z :=
  let '((a, b, c, d, e), l) := x in
  let '(b, e, l) := R01234 a b c d e i l in
  let '(a, d, l) := R01234 e a b c d (i + 1) l in
  let '(e, c, l) := R01234 d e a b c (i + 2) l in
  let '(d, b, l) := R01234 c d e a b (i + 3) l in
  let '(c, a, l) := R01234 b c d e a (i + 4) l in
  ((a, b, c, d, e), l).

(** [state[0] += a; ...] *)
Definition sum5 (state : list Z) (r : regs5) : list Z :=
  let s := word_at state in
  let '(a, b, c, d, e) := r in
  [u32 (s 0%nat + a); u32 (s 1%nat + b); u32 (s 2%nat + c); u32 (s 3%nat + d); u32 (s 4%nat + e)].

Definition regs_of (state : list Z) : regs5 :=
  let s := word_at state in (s 0, s 1, s 2, s 3, s 4)%nat.

Definition SHA1Transform (state buffer : list Z) : list Z :=
  let block := map (memory_word buffer) (seq 0 16) in
  sum5 state (fst (fold_left (fun x k => five (5 * k) x) (seq 0 16) (regs_of state, block))).

(** The context; MD5 has the same members. *)
Record hash_ctx := mk_hash { hstate : list Z; hcount : Z; hbuffer : list Z }.

Definition SHA1Init (context : hash_ctx) : hash_ctx :=
  mk_hash [0x67452301; 0xEFCDAB89; 0x98BADCFE; 0x10325476; 0xC3D2E1F0] 0 (hbuffer context).

(** [for ( ; i + 63 < len; i += 64) SHA1Transform(...)]: the state and [i]. *)
Fixpoint sha1_blocks (fuel : nat) (state data : list Z) (i : nat) : list Z * nat :=
  match fuel with
  | O => (state, i)
  | S fuel =>
      if (i + 63 <? length data)%nat then sha1_blocks fuel (SHA1Transform state (take 64 (drop i data))) data (i + 64) else (state, i)
  end.

(** [data] is as long as [len], which is far from [SIZE_MAX] for any object. *)
Definition SHA1Update (context : hash_ctx) (data : list Z) : hash_ctx :=
  let j := Z.to_nat (Z.land (Z.shiftr (hcount context) 3) 63) in
  let count := u64 (hcount context + u64 (Z.shiftl (Z.of_nat (length data)) 3)) in
  if (63 <? j + length data)%nat then
    let buf := splice (hbuffer context) j (take (64 - j) data) in
    let '(s, i) := sha1_blocks (length data) (SHA1Transform (hstate context) (take 64 buf)) data (64 - j) in
    mk_hash s count (splice buf 0 (drop i data))
  else mk_hash (hstate context) count (splice (hbuffer context) j data).

(** [while ((context->count & 504) != 448) SHA1Update(context, "\0", 1)] *)
Fixpoint pad_zeros (fuel : nat) (context : hash_ctx) : hash_ctx :=
  match fuel with
  | O => context
  | S fuel => if negb (Z.land (hcount context) 504 =? 448) then pad_zeros fuel (SHA1Update context [0]) else context
  end.

Definition SHA1Pad (context : hash_ctx) : hash_ctx :=
  let finalcount := map (fun i => Z.land (Z.shiftr (hcount context) ((7 - Z.of_nat i) * 8)) 255) (seq 0 8) in
  SHA1Update (pad_zeros 64 (SHA1Update context [128])) finalcount.

(** A context of zeros: what calloc returns, and what is left after the end. *)
Definition zero_hash (n : nat) : hash_ctx := mk_hash (replicate n 0) 0 (replicate 64 0).

Definition SHA1Final (context : hash_ctx) : list Z * hash_ctx :=
  let s := hstate (SHA1Pad context) in
  (map (fun i => Z.land (Z.shiftr (word_at s (i / 4)) ((3 - Z.of_nat (i mod 4)) * 8)) 255) (seq 0 20), zero_hash 5).
