(* ===== verification/Sha1Thms.v ===== *)
(** SHA-1 as FIPS 180-4 defines it, and that sha1.c computes it. *)

From stdpp Require Import base list numbers tactics.
From Stdlib Require Import ZArith Lia ZifyBool.
From S2P Require Import Prelude HashBlocks Sha2 Sha2Thms Sha1.

(** ** FIPS 180-4, section 6.1 *)

Definition sha1_f (t : nat) (x y z : Z) : Z :=
  if (t <? 20)%nat then Z.lxor (Z.land x y) (Z.ldiff z x)
  else if (t <? 40)%nat then Z.lxor (Z.lxor x y) z
  else if (t <? 60)%nat then Z.lxor (Z.lxor (Z.land x y) (Z.land x z)) (Z.land y z)
  else Z.lxor (Z.lxor x y) z.

Definition sha1_K (t : nat) : Z :=
  if (t <? 20)%nat then 0x5a827999 else if (t <? 40)%nat then 0x6ed9eba1 else if (t <? 60)%nat then 0x8f1bbcdc else 0xca62c1d6.

Definition sha1_next (ws : list Z) : Z :=
  let t := length ws in
  rol (Z.lxor (Z.lxor (Z.lxor (word_at ws (t - 3)) (word_at ws (t - 8))) (word_at ws (t - 14))) (word_at ws (t - 16))) 1.

Definition be_word (block : list Z) (i : nat) : Z :=
  let b k := u8 (byte_at block (4 * i + k)) in BE_8_TO_32 [b 0%nat; b 1%nat; b 2%nat; b 3%nat].

Definition sha1_schedule (block : list Z) : list Z := extend sha1_next 64 (map (be_word block) (seq 0 16)).

Definition sha1_round (Ws : list Z) (r : regs5) (t : nat) : regs5 :=
  let '(a, b, c, d, e) := r in
  (u32 (rol a 5 + sha1_f t b c d + e + sha1_K t + word_at Ws t), a, rol b 30, c, d).

Definition sha1_compress (H block : list Z) : list Z :=
  sum5 H (fold_left (sha1_round (sha1_schedule block)) (seq 0 80) (regs_of H)).

Definition sha1_iv : list Z := [0x67452301; 0xefcdab89; 0x98badcfe; 0x10325476; 0xc3d2e1f0].

Definition fips_sha1 (m : list Z) : list Z :=
  words_out 4 (padded_run 64 sha1_compress sha1_iv (m ++ padding 64 8 (length m) (big_endian 8 (8 * Z.of_nat (length m))))).

(** ** Words *)

(** Equal bit by bit. *)
Ltac bitwise :=
  apply Z.bits_inj'; intros n Hn; repeat (rewrite Z.lor_spec || rewrite Z.lxor_spec || rewrite Z.land_spec || rewrite Z.ldiff_spec);
  repeat match goal with |- context [Z.testbit ?x n] => destruct (Z.testbit x n) end; reflexivity.

Lemma ch_eq w x y : Z.lxor (Z.land w (Z.lxor x y)) y = Z.lxor (Z.land w x) (Z.ldiff y w).
Proof. bitwise. Qed.

Lemma maj_eq w x y : Z.lor (Z.land (Z.lor w x) y) (Z.land w x) = Z.lxor (Z.lxor (Z.land w x) (Z.land w y)) (Z.land x y).
Proof. bitwise. Qed.

Lemma octet_bit x k : 8 <= k -> Z.testbit (u8 x) k = false.
Proof. intros H. unfold u8. apply Z.mod_pow2_bits_high. lia. Qed.

(** A constant in the eight bits from [lo] on, and above its width. *)
Lemma mask_bits m lo v n :
  forallb (fun i => Bool.eqb (Z.testbit m (lo + i)) v) [0; 1; 2; 3; 4; 5; 6; 7] = true -> lo <= n < lo + 8 -> Z.testbit m n = v.
Proof.
  intros H Hn. rewrite forallb_forall in H. specialize (H (n - lo)). rewrite Zplus_minus in H. apply eqb_prop, H.
  assert (E : n - lo = 0 \/ n - lo = 1 \/ n - lo = 2 \/ n - lo = 3 \/ n - lo = 4 \/ n - lo = 5 \/ n - lo = 6 \/ n - lo = 7) by lia.
  cbn [In]. lia.
Qed.

Lemma mask_above m w n : 0 <= m < 2 ^ w -> w <= n -> Z.testbit m n = false.
Proof.
  intros Hm Hn. destruct (Z.eq_dec m 0) as [->|H0]; [apply Z.testbit_0_l|]. apply Z.bits_above_log2; [lia|].
  apply Z.log2_lt_pow2; [lia|]. assert (0 <= w) by (destruct (Z.lt_ge_cases w 0); [rewrite Z.pow_neg_r in Hm by lia; lia|done]).
  pose proof (Z.pow_le_mono_r 2 w n). lia.
Qed.

(** The bits of words made of octets, where the place of the bit is known. *)
Ltac octet_bits :=
  repeat match goal with
    | |- context [Z.testbit ?a ?k] => rewrite (Z.testbit_neg_r a k) by lia
    | |- context [Z.testbit (u8 ?x) ?k] => rewrite (octet_bit x k) by lia
    | |- context [Z.testbit (Z.lor ?x ?y) ?k] => rewrite (Z.lor_spec x y k)
    | |- context [Z.testbit (Z.shiftl ?x ?i) ?k] => rewrite (Z.shiftl_spec x i k) by lia
    | |- context [Z.testbit (Z.shiftr ?x ?i) ?k] => rewrite (Z.shiftr_spec x i k) by lia
    | |- context [Z.testbit (?x mod 2 ^ ?i) ?k] => rewrite (Z.mod_pow2_bits_low x i k) by lia
    | |- context [Z.testbit (?x mod 2 ^ ?i) ?k] => rewrite (Z.mod_pow2_bits_high x i k) by lia
    end;
  rewrite ?andb_false_r, ?andb_true_r, ?orb_false_r, ?orb_false_l.

(** The four octets of a word in the other order. *)
Lemma swap_octets x0 x1 x2 x3 :
  let x := Z.lor (Z.lor (Z.lor (u8 x0) (Z.shiftl (u8 x1) 8)) (Z.shiftl (u8 x2) 16)) (Z.shiftl (u8 x3) 24) in
  Z.lor (Z.land (rol x 24) 0xFF00FF00) (Z.land (rol x 8) 0x00FF00FF) = BE_8_TO_32 [u8 x0; u8 x1; u8 x2; u8 x3].
Proof.
  intros x. unfold x, rol, BE_8_TO_32. change (byte_at [u8 x0; u8 x1; u8 x2; u8 x3] 0) with (u8 x0).
  change (byte_at [u8 x0; u8 x1; u8 x2; u8 x3] 1) with (u8 x1). change (byte_at [u8 x0; u8 x1; u8 x2; u8 x3] 2) with (u8 x2).
  change (byte_at [u8 x0; u8 x1; u8 x2; u8 x3] 3) with (u8 x3). clear x.
  apply Z.bits_inj'. intros n Hn. unfold u32. rewrite Z.lor_spec, !Z.land_spec.
  assert (Hb : n < 8 \/ 8 <= n < 16 \/ 16 <= n < 24 \/ 24 <= n < 32 \/ 32 <= n) by lia. destruct Hb as [Hb|[Hb|[Hb|[Hb|Hb]]]].
  - rewrite (mask_bits 0xFF00FF00 0 false n), (mask_bits 0x00FF00FF 0 true n) by (reflexivity || lia).
    octet_bits. f_equal; lia.
  - rewrite (mask_bits 0xFF00FF00 8 true n), (mask_bits 0x00FF00FF 8 false n) by (reflexivity || lia).
    octet_bits. f_equal; lia.
  - rewrite (mask_bits 0xFF00FF00 16 false n), (mask_bits 0x00FF00FF 16 true n) by (reflexivity || lia).
    octet_bits. f_equal; lia.
  - rewrite (mask_bits 0xFF00FF00 24 true n), (mask_bits 0x00FF00FF 24 false n) by (reflexivity || lia).
    octet_bits. f_equal; lia.
  - rewrite (mask_above 0xFF00FF00 32 n), (mask_above 0x00FF00FF 32 n) by lia. octet_bits. done.
Qed.

(** ** The rounds *)

Lemma length_sha1_schedule block : length (sha1_schedule block) = 80%nat.
Proof. unfold sha1_schedule. by rewrite length_extend, length_map, length_seq. Qed.

Lemma sha1_schedule_head block i : (i < 16)%nat -> word_at (sha1_schedule block) i = be_word block i.
Proof.
  intros Hi. unfold sha1_schedule. rewrite extend_head by (by rewrite length_map, length_seq). unfold word_at.
  by rewrite list_lookup_fmap, lookup_seq_lt by done.
Qed.

(** The array: words of the schedule so far, and the rest as it lies in memory. *)
Definition block_at (block l : list Z) (t : nat) : Prop :=
  holds_words (sha1_schedule block) l t /\ forall i, (t <= i < 16)%nat -> l !! i = Some (memory_word block i).

Definition sha1_at (r0 : regs5) (block : list Z) (t : nat) (x : regs5 * list Z) : Prop :=
  fst x = fold_left (sha1_round (sha1_schedule block)) (seq 0 t) r0 /\ block_at block (snd x) t.

Lemma sha1_start r0 block : sha1_at r0 block 0 (r0, map (memory_word block) (seq 0 16)).
Proof.
  split; [done|]. cbn [snd]. split; [split; [done|intros i Hi; lia]|]. intros i Hi. by rewrite list_lookup_fmap, lookup_seq_lt by lia.
Qed.

(** The word that a round uses. *)
Lemma sha1_word block l t : (t < 80)%nat -> block_at block l t ->
  (if (t <? 16)%nat then blk0 l t else blk l t) = (<[(t mod 16)%nat := word_at (sha1_schedule block) t]> l, word_at (sha1_schedule block) t).
Proof.
  intros Ht [HW Hm]. destruct (Nat.ltb_spec t 16) as [Hl|Hl].
  - unfold blk0. assert (E : word_at l t = memory_word block t) by (unfold word_at; by rewrite Hm by lia).
    rewrite E, Nat.mod_small by done. unfold memory_word. rewrite swap_octets. by rewrite sha1_schedule_head by done.
  - assert (E : word_at (sha1_schedule block) t = sha1_next (take t (sha1_schedule block)))
      by (unfold sha1_schedule; apply (extend_next sha1_next 64 (map (be_word block) (seq 0 16)) t); rewrite length_map, length_seq; lia).
    pose proof (length_sha1_schedule block) as Hls. unfold blk. set (Ws := sha1_schedule block) in *. clearbody Ws.
    pose proof (holds_word Ws l t (t - 16) 0 HW ltac:(lia) ltac:(lia)) as E0. rewrite Nat.add_0_r in E0.
    rewrite (holds_word Ws l t (t - 3) 13), (holds_word Ws l t (t - 8) 8), (holds_word Ws l t (t - 14) 2), E0 by (assumption || lia).
    rewrite E. unfold sha1_next. rewrite length_take, Nat.min_l by lia. by rewrite !word_at_take by lia.
Qed.

Lemma block_next block l t : block_at block l t -> block_at block (<[(t mod 16)%nat := word_at (sha1_schedule block) t]> l) (S t).
Proof.
  intros [HW Hm]. split; [by apply holds_next|]. intros i Hi. rewrite list_lookup_insert_ne; [apply Hm; lia|].
  rewrite Nat.mod_small by lia. lia.
Qed.

Lemma sha1_step r0 block t a b c d e l : (t < 80)%nat -> sha1_at r0 block t ((a, b, c, d, e), l) ->
  exists b' e' l', R01234 a b c d e t l = (b', e', l') /\ sha1_at r0 block (S t) ((e', a, b', c, d), l').
Proof.
  intros Ht [Hr Hb]. cbn [fst snd] in Hr, Hb. unfold R01234. rewrite (sha1_word block l t Ht Hb).
  eexists _, _, _. split; [reflexivity|]. split; [|by apply block_next]. cbn [fst]. rewrite seq_S, fold_left_app, <- Hr. cbn [fold_left Nat.add].
  unfold sha1_round, sha1_f, sha1_K. rewrite ch_eq, maj_eq.
  destruct (t <? 20)%nat, (t <? 40)%nat, (t <? 60)%nat; do 4 f_equal; unfold u32; f_equal; lia.
Qed.

Lemma sha1_five r0 block t x : (t + 5 <= 80)%nat -> sha1_at r0 block t x -> sha1_at r0 block (t + 5) (five t x).
Proof.
  intros Ht Hx. destruct x as [[[[[a b] c] d] e] l]. unfold five. 
  destruct (sha1_step r0 block t _ _ _ _ _ _ ltac:(lia) Hx) as (b1 & e1 & l1 & -> & H1). rewrite <- Nat.add_1_r in H1.
  destruct (sha1_step r0 block (t + 1) _ _ _ _ _ _ ltac:(lia) H1) as (b2 & e2 & l2 & -> & H2). replace (S (t + 1)) with (t + 2)%nat in H2 by lia.
  destruct (sha1_step r0 block (t + 2) _ _ _ _ _ _ ltac:(lia) H2) as (b3 & e3 & l3 & -> & H3). replace (S (t + 2)) with (t + 3)%nat in H3 by lia.
  destruct (sha1_step r0 block (t + 3) _ _ _ _ _ _ ltac:(lia) H3) as (b4 & e4 & l4 & -> & H4). replace (S (t + 3)) with (t + 4)%nat in H4 by lia.
  destruct (sha1_step r0 block (t + 4) _ _ _ _ _ _ ltac:(lia) H4) as (b5 & e5 & l5 & -> & H5). by replace (S (t + 4)) with (t + 5)%nat in H5 by lia.
Qed.

Lemma sha1_fives r0 block n x : (n <= 16)%nat -> sha1_at r0 block 0 x ->
  sha1_at r0 block (5 * n) (fold_left (fun x k => five (5 * k) x) (seq 0 n) x).
Proof.
  intros Hn Hx. induction n as [|n IH]; [done|]. rewrite seq_S, fold_left_app. cbn [fold_left Nat.add].
  replace (5 * S n)%nat with (5 * n + 5)%nat by lia. apply sha1_five; [lia|]. apply IH. lia.
Qed.

Lemma SHA1Transform_correct state block : SHA1Transform state block = sha1_compress state block.
Proof.
  unfold SHA1Transform, sha1_compress. f_equal.
  destruct (sha1_fives (regs_of state) block 16 _ ltac:(lia) (sha1_start (regs_of state) block)) as [Hr _]. exact Hr.
Qed.

(** ** Contexts with a count of 64 bits (SHA-1 and MD5) *)

Section ctx.
Context (F : list Z -> list Z -> list Z) (iv : list Z).

Definition ctx_taken (ctx : hash_ctx) (m : list Z) : Prop :=
  taken 64 F iv (hstate ctx) (hbuffer ctx) m /\ hcount ctx = (8 * Z.of_nat (length m)) mod 2 ^ 64.

Lemma count_used ctx m : ctx_taken ctx m -> Z.to_nat (Z.land (Z.shiftr (hcount ctx) 3) 63) = (length m mod 64)%nat.
Proof.
  intros [_ Hc]. change 63 with (Z.ones 6). rewrite Z.land_ones by lia. apply (used_of_count (length m) 64); [lia|by exists (2 ^ 55)|done].
Qed.

Lemma count_add c (m d : list Z) : c = (8 * Z.of_nat (length m)) mod 2 ^ 64 ->
  u64 (c + u64 (Z.shiftl (Z.of_nat (length d)) 3)) = (8 * Z.of_nat (length (m ++ d))) mod 2 ^ 64.
Proof.
  intros ->. unfold u64. rewrite Z.shiftl_mul_pow2, Z.add_mod_idemp_r, Z.add_mod_idemp_l, length_app by lia. f_equal. lia.
Qed.

End ctx.

(** ** Messages *)

#[local] Abbreviation sha1_taken := (ctx_taken sha1_compress sha1_iv).

(** Blocks straight from the data. *)
Lemma sha1_blocks_run data : forall fuel state i, (length data - i <= fuel)%nat -> (i <= length data)%nat ->
  exists n, sha1_blocks fuel state data i = (run 64 sha1_compress n state (drop i data), (i + n * 64)%nat) /\
    (i + n * 64 <= length data < i + n * 64 + 64)%nat.
Proof.
  intros fuel. induction fuel as [|fuel IH]; intros state i Hf Hi; cbn [sha1_blocks].
  - exists 0%nat. cbn [run]. rewrite Nat.mul_0_l, Nat.add_0_r. split; [done|lia].
  - destruct (Nat.ltb_spec (i + 63) (length data)) as [Hl|Hl].
    + destruct (IH (SHA1Transform state (take 64 (drop i data))) (i + 64)%nat) as (n & -> & Hn); [lia|lia|].
      exists (S n). rewrite SHA1Transform_correct. cbn [run]. rewrite drop_drop. split; [f_equal; lia|lia].
    + exists 0%nat. cbn [run]. rewrite Nat.mul_0_l, Nat.add_0_r. split; [done|lia].
Qed.

Lemma SHA1Update_taken ctx m d : sha1_taken ctx m -> sha1_taken (SHA1Update ctx d) (m ++ d).
Proof.
  intros Ht. unfold SHA1Update. rewrite (count_used _ _ ctx m Ht). destruct Ht as [Ht Hc].
  pose proof (count_add _ m d Hc) as Hca. pose proof (Nat.mod_upper_bound (length m) 64 ltac:(lia)) as Hu. pose proof (proj2 (proj2 Ht)) as Hbl.
  set (j := (length m mod 64)%nat) in *. destruct (Nat.ltb_spec 63 (j + length d)) as [Hl|Hl].
  2:{ split; [|exact Hca]. apply taken_part; [lia|done|fold j; lia]. }
  set (free := (64 - j)%nat). set (buf := splice (hbuffer ctx) j (take free d)).
  assert (Hlb : length buf = length (hbuffer ctx)) by (apply length_splice; rewrite length_take; unfold free; lia).
  assert (Eb : take 64 buf = take j (hbuffer ctx) ++ take free d) by (apply take_splice_end; [rewrite length_take; unfold free; lia|done]).
  destruct (taken_block 64 sha1_compress ltac:(lia) sha1_iv _ _ m (take free d) buf Ht) as [Ht1 Hm1];
    [rewrite length_take; fold j; unfold free; lia|lia|]. fold j in Ht1.
  destruct (sha1_blocks_run d (length d) (SHA1Transform (hstate ctx) (take 64 buf)) free) as (n & -> & Hn); [lia|unfold free; lia|].
  rewrite SHA1Transform_correct, Eb. split; [|exact Hca]. cbn [hstate hbuffer].
  set (d1 := take (n * 64) (drop free d)). set (d2 := drop (free + n * 64) d).
  assert (Ed : drop free d = d1 ++ d2) by (unfold d1, d2; by rewrite <- drop_drop, take_drop).
  assert (Hd1 : length d1 = (n * 64)%nat) by (unfold d1; rewrite length_take, length_drop; lia).
  destruct (taken_blocks 64 sha1_compress ltac:(lia) n _ _ _ _ d1 Ht1 Hm1 Hd1) as [Ht2 Hm2].
  rewrite Ed, run_app by lia.
  assert (Em : m ++ d = ((m ++ take free d) ++ d1) ++ d2) by (rewrite <- !app_assoc, <- Ed; by rewrite take_drop). rewrite Em.
  pose proof (taken_part 64 sha1_compress ltac:(lia) _ _ _ _ d2 Ht2) as Hp. rewrite Hm2 in Hp. apply Hp.
  unfold d2. rewrite length_drop. lia.
Qed.

Lemma count_504 ctx m : sha1_taken ctx m -> Z.land (hcount ctx) 504 = 8 * Z.of_nat (length m mod 64).
Proof.
  intros [_ Hc]. rewrite Hc. replace (2 ^ 64) with (8 * 2 ^ 61) by lia. rewrite Z.mul_mod_distr_l by lia.
  rewrite (Z.mul_comm 8). change 8 with (2 ^ 3) at 1. rewrite <- Z.shiftl_mul_pow2 by lia. change 504 with (Z.shiftl (Z.ones 6) 3).
  rewrite <- Z.shiftl_land, Z.land_ones, Z.mod_mod_divide, Z.shiftl_mul_pow2 by (try lia; by exists (2 ^ 55)).
  rewrite Nat2Z.inj_mod. change (2 ^ 6) with 64. lia.
Qed.

(** Zeros up to eight octets before the end of the block. *)
Lemma pad_zeros_taken k : forall fuel ctx m, sha1_taken ctx m -> (k < fuel)%nat -> (k < 64)%nat -> ((length m + k) mod 64 = 56)%nat ->
  sha1_taken (pad_zeros fuel ctx) (m ++ replicate k 0).
Proof.
  induction k as [|k IH]; intros fuel ctx m Ht Hf Hk Hm; destruct fuel as [|fuel]; try lia; cbn [pad_zeros]; rewrite (count_504 ctx m Ht).
  - rewrite Nat.add_0_r in Hm. rewrite Hm. change (negb (8 * Z.of_nat 56 =? 448)) with false. by rewrite app_nil_r.
  - assert (Hne : (length m mod 64 <> 56)%nat).
    { intros E. pose proof (Nat.div_mod_eq (length m) 64). pose proof (Nat.div_mod_eq (length m + S k) 64). lia. }
    rewrite (proj2 (Z.eqb_neq _ _)) by lia. cbn [negb replicate].
    pose proof (IH fuel _ _ (SHA1Update_taken ctx m [0] Ht) ltac:(lia) ltac:(lia)) as H. rewrite <- app_assoc in H. apply H.
    rewrite length_app. cbn [length]. by rewrite <- Nat.add_assoc.
Qed.

Lemma octets_of_count c n : c = (8 * Z.of_nat n) mod 2 ^ 64 ->
  map (fun i => Z.land (Z.shiftr c ((7 - Z.of_nat i) * 8)) 255) (seq 0 8) = big_endian 8 (8 * Z.of_nat n).
Proof.
  intros ->. change 255 with (Z.ones 8). unfold big_endian. apply map_ext_in. intros i Hi. apply in_seq in Hi.
  rewrite Z.land_ones, pow256 by lia. rewrite <- octet_of_mod with (a := 64) by lia. unfold u8. do 2 f_equal. lia.
Qed.

Lemma SHA1Pad_run ctx m : sha1_taken ctx m ->
  hstate (SHA1Pad ctx) = padded_run 64 sha1_compress sha1_iv (m ++ padding 64 8 (length m) (big_endian 8 (8 * Z.of_nat (length m)))).
Proof.
  intros Ht. unfold SHA1Pad. rewrite (octets_of_count _ _ (proj2 Ht)). set (L := big_endian 8 _).
  pose proof (padding_fits 64 8 (length m) ltac:(lia)) as Hfit. cbv zeta in Hfit. unfold padding.
  set (k := ((2 * 64 - (length m mod 64 + 1 + 8)) mod 64)%nat) in *. pose proof (Nat.mod_upper_bound (2 * 64 - (length m mod 64 + 1 + 8)) 64 ltac:(lia)) as Hk.
  fold k in Hk. pose proof (SHA1Update_taken ctx m [128] Ht) as H1.
  pose proof (pad_zeros_taken k 64 _ _ H1 Hk Hk) as H2.
  assert (H56 : ((length (m ++ [128%Z]) + k) mod 64 = 56)%nat).
  { rewrite length_app. cbn [length]. symmetry. pose proof (Nat.div_mod_eq (length m) 64) as Hdm.
    destruct (length m mod 64 + 1 + 8 <=? 64)%nat; [apply (Nat.mod_unique _ 64 (length m / 64))|apply (Nat.mod_unique _ 64 (length m / 64 + 1))]; lia. }
  destruct (SHA1Update_taken _ _ L (H2 H56)) as [H3 _]. apply taken_padded in H3. by rewrite H3, <- !app_assoc.
Qed.

Lemma SHA1Init_taken ctx : length (hbuffer ctx) = 64%nat -> sha1_taken (SHA1Init ctx) [].
Proof. intros H. split; [|done]. apply taken_nil. cbn [hbuffer SHA1Init]. lia. Qed.

Lemma SHA1Updates_taken parts : forall ctx m, sha1_taken ctx m -> sha1_taken (fold_left SHA1Update parts ctx) (m ++ concat parts).
Proof.
  induction parts as [|d parts IH]; intros ctx m Ht; [by rewrite app_nil_r|]. cbn [fold_left concat]. rewrite app_assoc.
  by apply IH, SHA1Update_taken.
Qed.

(** The octets of the state. *)
Lemma sha1_out s : length s = 5%nat ->
  map (fun i => Z.land (Z.shiftr (word_at s (i / 4)) ((3 - Z.of_nat (i mod 4)) * 8)) 255) (seq 0 20) = words_out 4 s.
Proof.
  intros Hl. destruct s as [|a [|b [|c [|d [|e [|]]]]]]; try done. unfold words_out, big_endian. cbn [map concat app seq].
  assert (H : forall x k, 0 <= k -> Z.land (Z.shiftr x k) 255 = (x / 2 ^ k) mod 256).
  { intros x k Hk. change 255 with (Z.ones 8). rewrite Z.land_ones, Z.shiftr_div_pow2 by lia. done. }
  rewrite !H by (cbn; lia). reflexivity.
Qed.

Lemma length_sha1_compress s b : length (sha1_compress s b) = 5%nat.
Proof. unfold sha1_compress, sum5. by destruct (fold_left _ _ _) as [[[[? ?] ?] ?] ?]. Qed.

Lemma length_padded_sha1 m : length (padded_run 64 sha1_compress sha1_iv m) = 5%nat.
Proof. apply length_run; [apply length_sha1_compress|done]. Qed.

Lemma sha1_digest parts ctx : length (hbuffer ctx) = 64%nat ->
  (SHA1Final (fold_left SHA1Update parts (SHA1Init ctx))).1 = fips_sha1 (concat parts).
Proof.
  intros Hb. pose proof (SHA1Updates_taken parts _ [] (SHA1Init_taken ctx Hb)) as Ht. cbn [app] in Ht.
  unfold SHA1Final. cbn [fst]. rewrite (SHA1Pad_run _ _ Ht). apply sha1_out, length_padded_sha1.
Qed.

(** The constants are square roots (FIPS 180-4 takes them from the first
    version, where this is said). *)
Lemma sha1_constants : map sha1_K [0; 20; 40; 60]%nat = map (fun q => Z.sqrt (q * 2 ^ 60)) [2; 3; 5; 10].
Proof. reflexivity. Qed.
