(* ===== verification/Md5.v ===== *)
(** MD5 (openbsd-compat/md5.c): the code.  Its context has the members of the
    SHA-1 context. *)

From stdpp Require Import base list numbers tactics.
From Stdlib Require Import ZArith Lia ZifyBool.
From S2P Require Import Prelude HashBlocks Sha1.

Definition PUT_64BIT_LE (value : Z) : list Z :=
  [u8 value; u8 (Z.shiftr value 8); u8 (Z.shiftr value 16); u8 (Z.shiftr value 24);
   u8 (Z.shiftr value 32); u8 (Z.shiftr value 40); u8 (Z.shiftr value 48); u8 (Z.shiftr value 56)].

Definition PUT_32BIT_LE (value : Z) : list Z :=
  [u8 value; u8 (Z.shiftr value 8); u8 (Z.shiftr value 16); u8 (Z.shiftr value 24)].

Definition PADDING : list Z := 0x80 :: replicate 63 0.

Definition MD5Init (ctx : hash_ctx) : hash_ctx :=
  mk_hash [0x67452301; 0xefcdab89; 0x98badcfe; 0x10325476] 0 (hbuffer ctx).

Definition F1 (x y z : Z) : Z := Z.lxor z (Z.land x (Z.lxor y z)).
Definition F2 (x y z : Z) : Z := F1 z x y.
Definition F3 (x y z : Z) : Z := Z.lxor (Z.lxor x y) z.
(** The complement of a [u_int32_t]. *)
Definition F4 (x y z : Z) : Z := Z.lxor y (Z.lor x (Z.lxor z 0xffffffff)).

(** The new value of [w]. *)
Definition MD5STEP (f : Z -> Z -> Z -> Z) (w x y z data s : Z) : Z :=
  let w := u32 (w + (f x y z + data)) in
  let w := Z.lor (u32 (Z.shiftl w s)) (Z.shiftr w (32 - s)) in
  u32 (w + x).

Definition regs4 : Type := Z * Z * Z * Z.

(** A step: the index into [in], the constant and the shift. *)
Definition md5_arg : Type := nat * Z * Z.

(** Four steps, after which the registers have their names again. *)
Definition four (inp : list Z) (r : regs4) (row : (Z -> Z -> Z -> Z) * md5_arg * md5_arg * md5_arg * md5_arg) : regs4 :=
  let '(f, (i0, k0, s0), (i1, k1, s1), (i2, k2, s2), (i3, k3, s3)) := row in
  let '(a, b, c, d) := r in
  let a := MD5STEP f a b c d (word_at inp i0 + k0) s0 in
  let d := MD5STEP f d a b c (word_at inp i1 + k1) s1 in
  let c := MD5STEP f c d a b (word_at inp i2 + k2) s2 in
  let b := MD5STEP f b c d a (word_at inp i3 + k3) s3 in
  (a, b, c, d).

(** The 64 steps, in the order of the code. *)
Definition md5_rows : list ((Z -> Z -> Z -> Z) * md5_arg * md5_arg * md5_arg * md5_arg) := [
  (F1, (0%nat, 0xd76aa478, 7), (1%nat, 0xe8c7b756, 12), (2%nat, 0x242070db, 17), (3%nat, 0xc1bdceee, 22));
  (F1, (4%nat, 0xf57c0faf, 7), (5%nat, 0x4787c62a, 12), (6%nat, 0xa8304613, 17), (7%nat, 0xfd469501, 22));
  (F1, (8%nat, 0x698098d8, 7), (9%nat, 0x8b44f7af, 12), (10%nat, 0xffff5bb1, 17), (11%nat, 0x895cd7be, 22));
  (F1, (12%nat, 0x6b901122, 7), (13%nat, 0xfd987193, 12), (14%nat, 0xa679438e, 17), (15%nat, 0x49b40821, 22));
  (F2, (1%nat, 0xf61e2562, 5), (6%nat, 0xc040b340, 9), (11%nat, 0x265e5a51, 14), (0%nat, 0xe9b6c7aa, 20));
  (F2, (5%nat, 0xd62f105d, 5), (10%nat, 0x02441453, 9), (15%nat, 0xd8a1e681, 14), (4%nat, 0xe7d3fbc8, 20));
  (F2, (9%nat, 0x21e1cde6, 5), (14%nat, 0xc33707d6, 9), (3%nat, 0xf4d50d87, 14), (8%nat, 0x455a14ed, 20));
  (F2, (13%nat, 0xa9e3e905, 5), (2%nat, 0xfcefa3f8, 9), (7%nat, 0x676f02d9, 14), (12%nat, 0x8d2a4c8a, 20));
  (F3, (5%nat, 0xfffa3942, 4), (8%nat, 0x8771f681, 11), (11%nat, 0x6d9d6122, 16), (14%nat, 0xfde5380c, 23));
  (F3, (1%nat, 0xa4beea44, 4), (4%nat, 0x4bdecfa9, 11), (7%nat, 0xf6bb4b60, 16), (10%nat, 0xbebfbc70, 23));
  (F3, (13%nat, 0x289b7ec6, 4), (0%nat, 0xeaa127fa, 11), (3%nat, 0xd4ef3085, 16), (6%nat, 0x04881d05, 23));
  (F3, (9%nat, 0xd9d4d039, 4), (12%nat, 0xe6db99e5, 11), (15%nat, 0x1fa27cf8, 16), (2%nat, 0xc4ac5665, 23));
  (F4, (0%nat, 0xf4292244, 6), (7%nat, 0x432aff97, 10), (14%nat, 0xab9423a7, 15), (5%nat, 0xfc93a039, 21));
  (F4, (12%nat, 0x655b59c3, 6), (3%nat, 0x8f0ccc92, 10), (10%nat, 0xffeff47d, 15), (1%nat, 0x85845dd1, 21));
  (F4, (8%nat, 0x6fa87e4f, 6), (15%nat, 0xfe2ce6e0, 10), (6%nat, 0xa3014314, 15), (13%nat, 0x4e0811a1, 21));
  (F4, (4%nat, 0xf7537e82, 6), (11%nat, 0xbd3af235, 10), (2%nat, 0x2ad7d2bb, 15), (9%nat, 0xeb86d391, 21))].

(** [state[0] += a; ...] *)
Definition sum4 (state : list Z) (r : regs4) : list Z :=
  let s := word_at state in
  let '(a, b, c, d) := r in [u32 (s 0%nat + a); u32 (s 1%nat + b); u32 (s 2%nat + c); u32 (s 3%nat + d)].

Definition regs4_of (state : list Z) : regs4 :=
  let s := word_at state in (s 0, s 1, s 2, s 3)%nat.

(** [memcpy(in, block, sizeof(in))] on a little-endian machine. *)
Definition MD5Transform (state block : list Z) : list Z :=
  let inp := map (memory_word block) (seq 0 16) in
  sum4 state (fold_left (four inp) md5_rows (regs4_of state)).

(** [while (len >= MD5_BLOCK_LENGTH) ...]: the state and the rest of the input. *)
Fixpoint md5_blocks (fuel : nat) (state input : list Z) : list Z * list Z :=
  match fuel with
  | O => (state, input)
  | S fuel =>
      if (64 <=? length input)%nat then md5_blocks fuel (MD5Transform state (take 64 input)) (drop 64 input) else (state, input)
  end.

Definition MD5Update (ctx : hash_ctx) (input : list Z) : hash_ctx :=
  let have := Z.to_nat (Z.land (Z.shiftr (hcount ctx) 3) (64 - 1)) in
  let need := (64 - have)%nat in
  let count := u64 (hcount ctx + u64 (Z.shiftl (Z.of_nat (length input)) 3)) in
  let '(state, buffer, have, input) :=
    if (need <=? length input)%nat then
      let '(state, buffer, have, input) :=
        if negb (have =? 0)%nat then
          let buffer := splice (hbuffer ctx) have (take need input) in
          (MD5Transform (hstate ctx) (take 64 buffer), buffer, 0%nat, drop need input)
        else (hstate ctx, hbuffer ctx, have, input) in
      let '(state, input) := md5_blocks (length input) state input in
      (state, buffer, have, input)
    else (hstate ctx, hbuffer ctx, have, input) in
  mk_hash state count (if negb (length input =? 0)%nat then splice buffer have input else buffer).

Definition MD5Pad (ctx : hash_ctx) : hash_ctx :=
  let count := PUT_64BIT_LE (hcount ctx) in
  let padlen := 64 - Z.land (Z.shiftr (hcount ctx) 3) (64 - 1) in
  let padlen := if padlen <? 1 + 8 then padlen + 64 else padlen in
  let ctx := MD5Update ctx (take (Z.to_nat (padlen - 8)) PADDING) in
  MD5Update ctx count.

Definition MD5Final (ctx : hash_ctx) : list Z * hash_ctx :=
  let ctx := MD5Pad ctx in
  (concat (map (fun i => PUT_32BIT_LE (word_at (hstate ctx) i)) (seq 0 4)), zero_hash 4).
