(* ===== verification/Md5Thms.v ===== *)
(** MD5 as RFC 1321 defines it, and that md5.c computes it. *)

From stdpp Require Import base list numbers tactics.
From Stdlib Require Import ZArith Lia ZifyBool.
From S2P Require Import Prelude HashBlocks Sha2 Sha2Thms Sha1 Sha1Thms Md5.

(** ** RFC 1321 *)

Definition md5_f (t : nat) (x y z : Z) : Z :=
  if (t <? 16)%nat then Z.lor (Z.land x y) (Z.ldiff z x)
  else if (t <? 32)%nat then Z.lor (Z.land x z) (Z.ldiff y z)
  else if (t <? 48)%nat then Z.lxor (Z.lxor x y) z
  else Z.lxor y (Z.lor x (Z.lnot z)).

(** The word of the block that step [t] uses, and the shift. *)
Definition md5_index (t : nat) : nat :=
  (if t <? 16 then t else if t <? 32 then 5 * t + 1 else if t <? 48 then 3 * t + 5 else 7 * t)%nat mod 16.

Definition md5_shift (t : nat) : Z :=
  word_at [7; 12; 17; 22; 5; 9; 14; 20; 4; 11; 16; 23; 6; 10; 15; 21] (4 * (t / 16) + t mod 4).

(** The sine in fixed point with [b] bits after the point: [n] terms of its
    series.  [x] is a whole number of radians. *)
Fixpoint sine_terms (n : nat) (x k term acc : Z) : Z :=
  match n with
  | O => acc
  | S n => sine_terms n x (k + 2) (- (term * x * x) / ((k + 1) * (k + 2))) (acc + term)
  end.

Definition sine (b x : Z) : Z := sine_terms 160 x 1 (x * 2 ^ b) 0.

(** [T[i]], the whole part of [2^32 * abs(sin(i))]. *)
Definition md5_T (t : nat) : Z := Z.abs (sine 256 (Z.of_nat t + 1)) / 2 ^ (256 - 32).

Definition md5_table : list Z := Eval vm_compute in map md5_T (seq 0 64).

Definition md5_round (X : list Z) (r : regs4) (t : nat) : regs4 :=
  let '(a, b, c, d) := r in
  (d, u32 (b + rol (u32 (a + md5_f t b c d + word_at X (md5_index t) + word_at md5_table t)) (md5_shift t)), b, c).

Definition little_endian (k : nat) (v : Z) : list Z := map (fun i => (v / 256 ^ Z.of_nat i) mod 256) (seq 0 k).

Definition le_words (block : list Z) : list Z := map (memory_word block) (seq 0 16).

Definition md5_compress (H block : list Z) : list Z :=
  sum4 H (fold_left (md5_round (le_words block)) (seq 0 64) (regs4_of H)).

Definition md5_iv : list Z := [0x67452301; 0xefcdab89; 0x98badcfe; 0x10325476].

Definition rfc_md5 (m : list Z) : list Z :=
  concat (map (little_endian 4)
    (padded_run 64 md5_compress md5_iv (m ++ padding 64 8 (length m) (little_endian 8 (8 * Z.of_nat (length m)))))).

Lemma md5_table_sines : md5_table = map md5_T (seq 0 64).
Proof. vm_cast_no_check (eq_refl md5_table). Qed.

(** ** The rounds *)

Lemma F1_eq x y z : F1 x y z = Z.lor (Z.land x y) (Z.ldiff z x).
Proof. unfold F1. bitwise. Qed.

Lemma F2_eq x y z : F2 x y z = Z.lor (Z.land x z) (Z.ldiff y z).
Proof. unfold F2, F1. bitwise. Qed.

(** The complement of a word, where only its low bits matter. *)
Lemma F4_eq x y z : u32 (F4 x y z) = u32 (Z.lxor y (Z.lor x (Z.lnot z))).
Proof.
  unfold F4, u32. apply Z.bits_inj'. intros n Hn. destruct (Z.lt_ge_cases n 32) as [Hl|Hl].
  - rewrite !Z.mod_pow2_bits_low by lia. rewrite !Z.lxor_spec, !Z.lor_spec, Z.lxor_spec, Z.lnot_spec by lia.
    change 0xffffffff with (Z.ones 32). by rewrite Z.ones_spec_low, xorb_true_r by lia.
  - by rewrite !Z.mod_pow2_bits_high by lia.
Qed.

(** A function of the code agrees with that of step [t]. *)
Definition agrees (f : Z -> Z -> Z -> Z) (t : nat) : Prop := forall x y z, u32 (f x y z) = u32 (md5_f t x y z).

Lemma step_eq f t w x y z X i k s : agrees f t -> i = md5_index t -> k = word_at md5_table t -> s = md5_shift t ->
  MD5STEP f w x y z (word_at X i + k) s =
  u32 (x + rol (u32 (w + md5_f t x y z + word_at X (md5_index t) + word_at md5_table t)) (md5_shift t)).
Proof.
  intros Hf -> -> ->. unfold MD5STEP. assert (E : u32 (w + (f x y z + (word_at X (md5_index t) + word_at md5_table t))) =
    u32 (w + md5_f t x y z + word_at X (md5_index t) + word_at md5_table t)).
  { specialize (Hf x y z). unfold u32 in *. replace (w + (f x y z + (word_at X (md5_index t) + word_at md5_table t)))
      with (f x y z + (w + word_at X (md5_index t) + word_at md5_table t)) by lia.
    rewrite <- Z.add_mod_idemp_l, Hf, Z.add_mod_idemp_l by lia. f_equal. lia. }
  rewrite E. unfold rol. by rewrite Z.add_comm.
Qed.

(** Row [n] of the code. *)
Definition row_ok (n : nat) (row : (Z -> Z -> Z -> Z) * md5_arg * md5_arg * md5_arg * md5_arg) : Prop :=
  let '(f, a0, a1, a2, a3) := row in
  agrees f (4 * n) /\ agrees f (4 * n + 1) /\ agrees f (4 * n + 2) /\ agrees f (4 * n + 3) /\
  [a0; a1; a2; a3] = map (fun t => (md5_index t, word_at md5_table t, md5_shift t)) [4 * n; 4 * n + 1; 4 * n + 2; 4 * n + 3]%nat.

Lemma four_eq X n row r : row_ok n row ->
  four X r row = fold_left (md5_round X) [4 * n; 4 * n + 1; 4 * n + 2; 4 * n + 3]%nat r.
Proof.
  destruct row as [[[[f [[i0 k0] s0]] [[i1 k1] s1]] [[i2 k2] s2]] [[i3 k3] s3]], r as [[[a b] c] d].
  unfold row_ok. generalize (4 * n + 1)%nat as t1, (4 * n + 2)%nat as t2, (4 * n + 3)%nat as t3, (4 * n)%nat as t0.
  intros t1 t2 t3 t0 (H0 & H1 & H2 & H3 & E). unfold four.
  injection E as -> -> -> -> -> -> -> -> -> -> -> ->.
  rewrite (step_eq f _ a b c d X _ _ _ H0 eq_refl eq_refl eq_refl). cbv zeta.
  rewrite (step_eq f _ d _ b c X _ _ _ H1 eq_refl eq_refl eq_refl).
  rewrite (step_eq f _ c _ _ b X _ _ _ H2 eq_refl eq_refl eq_refl).
  rewrite (step_eq f _ b _ _ _ X _ _ _ H3 eq_refl eq_refl eq_refl). reflexivity.
Qed.

Lemma md5_rows_ok : Forall2 row_ok (seq 0 16) md5_rows.
Proof.
  unfold md5_rows. cbn [seq].
  repeat (apply Forall2_cons_2;
    [unfold row_ok; split_and!; try reflexivity; intros x y z; first [by rewrite F1_eq|by rewrite F2_eq|done|exact (F4_eq x y z)]|]).
  apply Forall2_nil_2.
Qed.

Lemma fours_eq X rows : forall ns r, Forall2 row_ok ns rows ->
  fold_left (four X) rows r = fold_left (md5_round X) (concat (map (fun n => [4 * n; 4 * n + 1; 4 * n + 2; 4 * n + 3]%nat) ns)) r.
Proof.
  induction rows as [|row rows IH]; intros ns r H; inversion H as [|n ? ns' ? Hn Hr]; subst; [done|].
  cbn [fold_left map concat]. rewrite fold_left_app, <- (four_eq X n row r Hn). by apply IH.
Qed.

Lemma MD5Transform_correct state block : MD5Transform state block = md5_compress state block.
Proof. unfold MD5Transform, md5_compress. f_equal. exact (fours_eq _ _ _ (regs4_of state) md5_rows_ok). Qed.

(** ** Messages *)

#[local] Abbreviation md5_taken := (ctx_taken md5_compress md5_iv).

Lemma md5_blocks_run : forall fuel state input, (length input <= fuel)%nat ->
  exists n, md5_blocks fuel state input = (run 64 md5_compress n state input, drop (n * 64) input) /\
    (n * 64 <= length input < n * 64 + 64)%nat.
Proof.
  intros fuel. induction fuel as [|fuel IH]; intros state input Hf; cbn [md5_blocks].
  - exists 0%nat. split; [done|lia].
  - destruct (Nat.leb_spec 64 (length input)) as [Hl|Hl]; [|exists 0%nat; split; [done|lia]].
    destruct (IH (MD5Transform state (take 64 input)) (drop 64 input)) as (n & -> & Hn); [rewrite length_drop; lia|].
    rewrite length_drop in Hn. exists (S n). rewrite MD5Transform_correct, drop_drop. split; [done|lia].
Qed.

(** Whole blocks from the input, and the rest in the buffer. *)
Lemma md5_rest_taken s buf m d fuel : taken 64 md5_compress md5_iv s buf m -> (length m mod 64 = 0)%nat -> (length d <= fuel)%nat ->
  taken 64 md5_compress md5_iv (md5_blocks fuel s d).1
    (if negb (length (md5_blocks fuel s d).2 =? 0)%nat then splice buf 0 (md5_blocks fuel s d).2 else buf) (m ++ d).
Proof.
  intros Ht Hm Hf. destruct (md5_blocks_run fuel s d Hf) as (n & -> & Hn). cbn [fst snd].
  set (d1 := take (n * 64) d). set (d2 := drop (n * 64) d).
  assert (Ed : d = d1 ++ d2) by (unfold d1, d2; by rewrite take_drop).
  assert (Hd1 : length d1 = (n * 64)%nat) by (unfold d1; rewrite length_take; lia).
  assert (Hd2 : (length d2 < 64)%nat) by (unfold d2; rewrite length_drop; lia).
  destruct (taken_blocks 64 md5_compress ltac:(lia) n _ _ _ _ d1 Ht Hm Hd1) as [Ht2 Hm2].
  assert (Er : run 64 md5_compress n s d = run 64 md5_compress n s d1) by (rewrite Ed; apply run_app; lia).
  rewrite Er, Ed, app_assoc. destruct (Nat.eqb_spec (length d2) 0) as [E0|E0]; cbn [negb].
  - apply nil_length_inv in E0. by rewrite E0, app_nil_r.
  - pose proof (taken_part 64 md5_compress ltac:(lia) _ _ _ _ d2 Ht2) as Hp. rewrite Hm2 in Hp. apply Hp. lia.
Qed.

Lemma MD5Update_taken ctx m d : md5_taken ctx m -> md5_taken (MD5Update ctx d) (m ++ d).
Proof.
  intros Ht. unfold MD5Update. change (64 - 1) with 63. rewrite (count_used _ _ ctx m Ht). destruct Ht as [Ht Hc].
  pose proof (count_add _ m d Hc) as Hca. pose proof (Nat.mod_upper_bound (length m) 64 ltac:(lia)) as Hu. pose proof (proj2 (proj2 Ht)) as Hbl.
  set (j := (length m mod 64)%nat) in *. destruct (Nat.leb_spec (64 - j) (length d)) as [Hl|Hl].
  2:{ split; [|exact Hca]. cbn [hstate hbuffer]. destruct (Nat.eqb_spec (length d) 0) as [E0|E0]; cbn [negb].
      - apply nil_length_inv in E0. by rewrite E0, app_nil_r.
      - apply taken_part; [lia|done|fold j; lia]. }
  destruct (Nat.eqb_spec j 0) as [Ej|Ej]; cbn [negb].
  - pose proof (md5_rest_taken _ _ m d (length d) Ht Ej (le_n _)) as H. rewrite Ej.
    destruct (md5_blocks (length d) (hstate ctx) d) as [s' d']. split; [exact H|exact Hca].
  - set (need := (64 - j)%nat) in *. set (buf := splice (hbuffer ctx) j (take need d)).
    assert (Hlb : length buf = length (hbuffer ctx)) by (apply length_splice; rewrite length_take; unfold need; lia).
    assert (Eb : take 64 buf = take j (hbuffer ctx) ++ take need d) by (apply take_splice_end; [rewrite length_take; unfold need; lia|done]).
    destruct (taken_block 64 md5_compress ltac:(lia) md5_iv _ _ m (take need d) buf Ht) as [Ht1 Hm1];
      [rewrite length_take; fold j; unfold need; lia|lia|]. fold j in Ht1. rewrite <- Eb, <- MD5Transform_correct in Ht1.
    pose proof (md5_rest_taken _ _ _ (drop need d) (length (drop need d)) Ht1 Hm1 (le_n _)) as H.
    rewrite <- app_assoc, take_drop in H.
    destruct (md5_blocks _ _ (drop need d)) as [s' d']. split; [exact H|exact Hca].
Qed.

Lemma put64_le n : PUT_64BIT_LE ((8 * Z.of_nat n) mod 2 ^ 64) = little_endian 8 (8 * Z.of_nat n).
Proof.
  unfold PUT_64BIT_LE, little_endian. cbn [map seq]. set (v := 8 * Z.of_nat n). rewrite !pow256 by lia.
  pose proof (octet_of_mod v 64 0 ltac:(lia) ltac:(lia)) as E. rewrite Z.shiftr_0_r in E. rewrite E, !octet_of_mod by lia. done.
Qed.

Lemma put32_le v : PUT_32BIT_LE v = little_endian 4 v.
Proof. unfold PUT_32BIT_LE, little_endian, u8. cbn [map seq]. rewrite !Z.shiftr_div_pow2 by lia. by rewrite Z.div_1_r. Qed.

Lemma MD5Pad_run ctx m : md5_taken ctx m ->
  hstate (MD5Pad ctx) = padded_run 64 md5_compress md5_iv (m ++ padding 64 8 (length m) (little_endian 8 (8 * Z.of_nat (length m)))).
Proof.
  intros Ht. unfold MD5Pad. rewrite (proj2 Ht), put64_le, <- (proj2 Ht). set (L := little_endian 8 _). change (64 - 1) with 63.
  assert (Hu : Z.land (Z.shiftr (hcount ctx) 3) 63 = Z.of_nat (length m mod 64)).
  { rewrite <- (count_used _ _ ctx m Ht). symmetry. apply Z2Nat.id. apply Z.land_nonneg. right. lia. }
  rewrite Hu. clear Hu. pose proof (Nat.mod_upper_bound (length m) 64 ltac:(lia)) as Hlt.
  pose proof (padding_fits 64 8 (length m) ltac:(lia)) as Hfit. cbv zeta in Hfit. unfold padding.
  set (k := ((2 * 64 - (length m mod 64 + 1 + 8)) mod 64)%nat) in *. set (u := (length m mod 64)%nat) in *.
  set (padlen := 64 - Z.of_nat u). assert (Ep : Z.to_nat ((if padlen <? 1 + 8 then padlen + 64 else padlen) - 8) = S k).
  { unfold padlen. destruct (Z.ltb_spec (64 - Z.of_nat u) (1 + 8)); destruct (Nat.leb_spec (u + 1 + 8) 64); lia. }
  rewrite Ep. assert (Ek : take (S k) PADDING = 128 :: replicate k 0).
  { unfold PADDING. cbn [take]. f_equal. rewrite take_replicate. f_equal. destruct (Nat.leb_spec (u + 1 + 8) 64); lia. }
  rewrite Ek. pose proof (MD5Update_taken _ _ L (MD5Update_taken ctx m (128 :: replicate k 0) Ht)) as [H3 _].
  apply taken_padded in H3. by rewrite H3, <- app_assoc.
Qed.

Lemma MD5Init_taken ctx : length (hbuffer ctx) = 64%nat -> md5_taken (MD5Init ctx) [].
Proof. intros H. split; [|done]. apply taken_nil. cbn [hbuffer MD5Init]. lia. Qed.

Lemma MD5Updates_taken parts : forall ctx m, md5_taken ctx m -> md5_taken (fold_left MD5Update parts ctx) (m ++ concat parts).
Proof.
  induction parts as [|d parts IH]; intros ctx m Ht; [by rewrite app_nil_r|]. cbn [fold_left concat]. rewrite app_assoc.
  by apply IH, MD5Update_taken.
Qed.

Lemma length_md5_compress s b : length (md5_compress s b) = 4%nat.
Proof. unfold md5_compress, sum4. by destruct (fold_left _ _ _) as [[[? ?] ?] ?]. Qed.

Lemma length_padded_md5 m : length (padded_run 64 md5_compress md5_iv m) = 4%nat.
Proof. apply length_run; [apply length_md5_compress|done]. Qed.

Lemma md5_digest parts ctx : length (hbuffer ctx) = 64%nat ->
  (MD5Final (fold_left MD5Update parts (MD5Init ctx))).1 = rfc_md5 (concat parts).
Proof.
  intros Hb. pose proof (MD5Updates_taken parts _ [] (MD5Init_taken ctx Hb)) as Ht. cbn [app] in Ht.
  unfold MD5Final, rfc_md5. cbv zeta. rewrite (MD5Pad_run _ _ Ht). cbn [fst]. rewrite (map_ext _ _ (fun i => put32_le _)).
  pose proof (length_padded_md5 (concat parts ++ padding 64 8 (length (concat parts)) (little_endian 8 (8 * Z.of_nat (length (concat parts)))))) as Hl.
  destruct (padded_run _ _ _ _) as [|a [|b [|c [|d [|]]]]]; done.
Qed.
