(* ===== verification/DigestImpl.v ===== *)
(** The hash functions behind digest-libc.c: md5.c, sha1.c and sha2.c are an
    implementation of the interface [MD] of the digests, and discharge its laws:
    the digest of a message is the one that RFC 1321 and FIPS 180-4 define, and
    every context keeps its type. *)

From stdpp Require Import base list numbers tactics.
From Stdlib Require Import ZArith Lia ZifyBool.
From S2P Require Import Prelude Sshbuf HashBlocks Sha2 Sha2Thms Sha1 Sha1Thms Md5 Md5Thms Digest.

(** ** The table of functions *)

(** The memory of a context, by the structure it holds. *)
Inductive md_context :=
  | Md_hash (ctx : hash_ctx)        (* MD5_CTX and SHA1_CTX *)
  | Md_sha2 (ctx : SHA2_CTX).

(** [digest->md_init(ret->mdctx)] on memory of calloc.  Other numbers than those
    of the table have no functions. *)
Definition libc_init (alg : Z) : md_context :=
  match alg with
  | 0 => Md_hash (MD5Init (zero_hash 4))
  | 1 => Md_hash (SHA1Init (zero_hash 5))
  | 2 => Md_sha2 SHA256Init
  | 3 => Md_sha2 SHA384Init
  | 4 => Md_sha2 SHA512Init
  | _ => Md_hash (zero_hash 0)
  end.

(** [digest->md_update(ctx->mdctx, m, mlen)] *)
Definition libc_update (alg : Z) (ctx : md_context) (m : list Z) : md_context :=
  match alg, ctx with
  | 0, Md_hash c => Md_hash (MD5Update c m)
  | 1, Md_hash c => Md_hash (SHA1Update c m)
  | 2, Md_sha2 c => Md_sha2 (SHA256Update c m)
  | 3, Md_sha2 c => Md_sha2 (SHA384Update c m)
  | 4, Md_sha2 c => Md_sha2 (SHA512Update c m)
  | _, _ => ctx
  end.

Definition md_pair {A} (wrap : A -> md_context) (x : list Z * A) : list Z * md_context := (x.1, wrap x.2).

(** [digest->md_final(d, ctx->mdctx)] *)
Definition libc_final (alg : Z) (ctx : md_context) : list Z * md_context :=
  match alg, ctx with
  | 0, Md_hash c => md_pair Md_hash (MD5Final c)
  | 1, Md_hash c => md_pair Md_hash (SHA1Final c)
  | 2, Md_sha2 c => md_pair Md_sha2 (SHA256Final c)
  | 3, Md_sha2 c => md_pair Md_sha2 (SHA384Final c)
  | 4, Md_sha2 c => md_pair Md_sha2 (SHA512Final c)
  | _, _ => ([], ctx)
  end.

#[export] Instance libc_md : MD := {|
  mdctx := md_context; md_init := libc_init; md_update := libc_update; md_final := libc_final
|}.

(** ** The standards *)

Definition standard_hash (alg : Z) (m : list Z) : list Z :=
  match alg with
  | 0 => rfc_md5 m
  | 1 => fips_sha1 m
  | 2 => fips_sha256 m
  | 3 => fips_sha384 m
  | 4 => fips_sha512 m
  | _ => []
  end.

Lemma length_concat_words k ws (f : nat -> Z -> list Z) : (forall v, length (f k v) = k) -> length (concat (map (f k) ws)) = (k * length ws)%nat.
Proof. intros H. induction ws as [|v ws IH]; cbn [map concat length]; [lia|]. rewrite length_app, IH, H. lia. Qed.

Lemma length_big_endian k v : length (big_endian k v) = k.
Proof. unfold big_endian. by rewrite length_map, length_seq. Qed.

Lemma length_little_endian k v : length (little_endian k v) = k.
Proof. unfold little_endian. by rewrite length_map, length_seq. Qed.

Lemma bytes_ok_concat_words (f : Z -> list Z) ws : (forall v, bytes_ok (f v)) -> bytes_ok (concat (map f ws)).
Proof. intros H. induction ws as [|v ws IH]; cbn [map concat]; [done|]. rewrite bytes_ok_app. done. Qed.

Lemma bytes_ok_big_endian k v : bytes_ok (big_endian k v).
Proof. unfold big_endian. apply Forall_map, Forall_true. intros i. apply Z.mod_pos_bound. lia. Qed.

Lemma bytes_ok_little_endian k v : bytes_ok (little_endian k v).
Proof. unfold little_endian. apply Forall_map, Forall_true. intros i. apply Z.mod_pos_bound. lia. Qed.

Lemma length_fips_compress p s b : length (fips_compress p s b) = 8%nat.
Proof. unfold fips_compress. by destruct (fold_left _ _ _) as [[[[[[[? ?] ?] ?] ?] ?] ?] ?]. Qed.

Lemma length_padded_fips p bs iv m : length iv = 8%nat -> length (padded_run bs (fips_compress p) iv m) = 8%nat.
Proof. intros H. apply length_run; [apply length_fips_compress|done]. Qed.

Lemma alg_cases alg d : ssh_digest_by_alg alg = Some d -> alg = 0 \/ alg = 1 \/ alg = 2 \/ alg = 3 \/ alg = 4.
Proof. unfold ssh_digest_by_alg, SSH_DIGEST_MAX. destruct (_ || _) eqn:E; [done|]. lia. Qed.

Lemma standard_length alg d m : ssh_digest_by_alg alg = Some d -> Z.of_nat (length (standard_hash alg m)) = digest_len d.
Proof.
  intros H. destruct (alg_cases alg d H) as [->|[->|[->|[->| ->]]]]; injection H as <-; cbn [standard_hash digest_len];
    unfold rfc_md5, fips_sha1, fips_sha256, fips_sha384, fips_sha512, fips_sha512_from, words_out;
    rewrite length_concat_words by (apply length_big_endian || apply length_little_endian);
    rewrite ?length_take, ?length_padded_md5, ?length_padded_sha1, ?length_padded_fips by done; done.
Qed.

Lemma standard_bytes alg m : bytes_ok (standard_hash alg m).
Proof.
  unfold standard_hash, rfc_md5, fips_sha1, fips_sha256, fips_sha384, fips_sha512, words_out.
  repeat case_match; try done; apply bytes_ok_concat_words; intros v; apply bytes_ok_big_endian || apply bytes_ok_little_endian.
Qed.

(** An update of the table is that of the function, on its contexts. *)
Lemma updates_hash alg (up : hash_ctx -> list Z -> hash_ctx) parts : (forall c m, libc_update alg (Md_hash c) m = Md_hash (up c m)) ->
  forall c, fold_left (libc_update alg) parts (Md_hash c) = Md_hash (fold_left up parts c).
Proof. intros H. induction parts as [|m parts IH]; intros c; [done|]. cbn [fold_left]. by rewrite H, IH. Qed.

Lemma updates_sha2 alg (up : SHA2_CTX -> list Z -> SHA2_CTX) parts : (forall c m, libc_update alg (Md_sha2 c) m = Md_sha2 (up c m)) ->
  forall c, fold_left (libc_update alg) parts (Md_sha2 c) = Md_sha2 (fold_left up parts c).
Proof. intros H. induction parts as [|m parts IH]; intros c; [done|]. cbn [fold_left]. by rewrite H, IH. Qed.

Lemma other_alg alg ctx m : ~ 0 <= alg <= 4 -> (libc_final alg ctx).1 = [] /\ standard_hash alg m = [].
Proof. intros H. destruct alg as [|p|p]; [lia| |by destruct ctx]. do 3 (destruct p; try lia; try by destruct ctx). Qed.

Lemma libc_hash alg parts : (libc_final alg (fold_left (libc_update alg) parts (libc_init alg))).1 = standard_hash alg (concat parts).
Proof.
  destruct (decide (0 <= alg <= 4)) as [H|H]; [|destruct (other_alg alg (fold_left (libc_update alg) parts (libc_init alg)) (concat parts) H); congruence].
  assert (alg = 0 \/ alg = 1 \/ alg = 2 \/ alg = 3 \/ alg = 4) as Ha by lia.
  destruct Ha as [->|[->|[->|[->| ->]]]]; cbn [libc_init standard_hash].
  - rewrite (updates_hash 0 MD5Update) by done. apply md5_digest. done.
  - rewrite (updates_hash 1 SHA1Update) by done. apply sha1_digest. done.
  - rewrite (updates_sha2 2 SHA256Update) by done. apply sha256_digest.
  - rewrite (updates_sha2 3 SHA384Update) by done. apply sha384_digest.
  - rewrite (updates_sha2 4 SHA512Update) by done. apply sha512_digest.
Qed.

#[export] Instance libc_laws : MDLaws := {|
  hash := standard_hash; md_hash := libc_hash; hash_length := standard_length; hash_bytes := standard_bytes
|}.

(** ** Digests *)

(** [ssh_digest_update] of one part after the other, until one fails. *)
Fixpoint digest_updates (ctx : ssh_digest_ctx) (parts : list (list Z)) : Z * ssh_digest_ctx :=
  match parts with
  | [] => (0, ctx)
  | m :: parts =>
      let '(r, ctx) := ssh_digest_update ctx m (Z.of_nat (length m)) in
      if negb (r =? 0) then (r, ctx) else digest_updates ctx parts
  end.

Lemma digest_updates_absorbed alg d parts : ssh_digest_by_alg alg = Some d -> forall ctx m, absorbed ctx alg m ->
  exists ctx', digest_updates ctx parts = (0, ctx') /\ absorbed ctx' alg (m ++ concat parts).
Proof.
  intros Hd. induction parts as [|x parts IH]; intros ctx m Ha; cbn [digest_updates concat].
  - exists ctx. by rewrite app_nil_r.
  - destruct (update_absorbed ctx alg d m x (Z.of_nat (length x)) Ha Hd) as (c & -> & Hc). cbn [negb Z.eqb].
    rewrite Nat2Z.id, firstn_all in Hc. rewrite app_assoc. by apply IH.
Qed.



(** RFC 4231, test case 2: HMAC-SHA-256 with the key Jefe. *)
Example hmac_sha256_rfc4231 :
  hmac 2 (mk_digest 2 (chars "SHA256") 64 32) (chars "Jefe") (chars "what do ya want for nothing?") =
  [0x5b; 0xdc; 0xc1; 0x46; 0xbf; 0x60; 0x75; 0x4e; 0x6a; 0x04; 0x24; 0x26; 0x08; 0x95; 0x75; 0xc7;
   0x5a; 0x00; 0x3f; 0x08; 0x9d; 0x27; 0x39; 0x83; 0x9d; 0xec; 0x58; 0xb9; 0x64; 0xec; 0x38; 0x43].
Proof. vm_compute. reflexivity. Qed.
