(* ===== verification/DigestTypes.v ===== *)
(** The types of the contexts of md5.c, sha1.c and sha2.c: words of 32 or 64
    bits, counts of 64 bits and buffers of octets of a fixed size, kept by every
    operation, and digests of the size in the table. *)

From stdpp Require Import base list numbers tactics.
From Stdlib Require Import ZArith Lia ZifyBool.
From S2P Require Import Prelude Sshbuf HashBlocks Sha2 Sha2Thms Sha1 Sha1Thms Md5 Md5Thms Digest DigestImpl.

Definition word_ok (w x : Z) : Prop := 0 <= x < 2 ^ w.

(** [k] words of [w] bits. *)
Definition words_ok (k : nat) (w : Z) (l : list Z) : Prop := length l = k /\ Forall (word_ok w) l.

(** [u_int8_t buffer[n]] *)
Definition buffer_ok (n : nat) (b : list Z) : Prop := length b = n /\ bytes_ok b.

Definition hash_ok (k : nat) (c : hash_ctx) : Prop := words_ok k 32 (hstate c) /\ word_ok 64 (hcount c) /\ buffer_ok 64 (hbuffer c).

Definition sha2_typed (w : Z) (c : SHA2_CTX) : Prop :=
  words_ok 8 w (st c) /\ word_ok 64 (bitcount c).1 /\ word_ok 64 (bitcount c).2 /\ buffer_ok 128 (buffer c).

Definition md_typed (alg : Z) (c : md_context) : Prop :=
  match alg, c with
  | 0, Md_hash c => hash_ok 4 c
  | 1, Md_hash c => hash_ok 5 c
  | 2, Md_sha2 c => sha2_typed 32 c
  | 3, Md_sha2 c => sha2_typed 64 c
  | 4, Md_sha2 c => sha2_typed 64 c
  | _, _ => False
  end.

Lemma word_ok_mod w x : 0 <= w -> word_ok w (x mod 2 ^ w).
Proof. intros H. apply Z.mod_pos_bound. lia. Qed.

Lemma u32_word x : word_ok 32 (u32 x).
Proof. apply (word_ok_mod 32). lia. Qed.

Lemma u64_word x : word_ok 64 (u64 x).
Proof. apply (word_ok_mod 64). lia. Qed.

#[local] Hint Resolve u32_word u64_word : core.

Lemma buffer_splice n b i v : buffer_ok n b -> bytes_ok v -> (i + length v <= n)%nat -> buffer_ok n (splice b i v).
Proof. intros [Hl Hb] Hv Hi. split; [rewrite length_splice; lia|auto with sshdb]. Qed.

Lemma buffer_zeros n : buffer_ok n (replicate n 0).
Proof. split; [apply length_replicate|apply bytes_ok_zeros]. Qed.

(** ** MD5 and SHA-1 *)

Lemma SHA1Transform_typed s b : words_ok 5 32 (SHA1Transform s b).
Proof. unfold SHA1Transform, sum5. destruct (fst _) as [[[[? ?] ?] ?] ?]. split; [done|]. repeat (apply Forall_cons_2; auto). Qed.

Lemma MD5Transform_typed s b : words_ok 4 32 (MD5Transform s b).
Proof. unfold MD5Transform, sum4. destruct (fold_left _ _ _) as [[[? ?] ?] ?]. split; [done|]. repeat (apply Forall_cons_2; auto). Qed.

Lemma sha1_blocks_typed data : forall fuel s i, words_ok 5 32 s -> words_ok 5 32 (sha1_blocks fuel s data i).1.
Proof.
  intros fuel. induction fuel as [|fuel IH]; intros s i Hs; cbn [sha1_blocks]; [done|]. case_match; [|done]. apply IH, SHA1Transform_typed.
Qed.

Lemma used_64 c : (Z.to_nat (Z.land (Z.shiftr c 3) 63) < 64)%nat.
Proof.
  change 63 with (Z.ones 6). rewrite Z.land_ones by lia. pose proof (Z.mod_pos_bound (Z.shiftr c 3) (2 ^ 6) ltac:(lia)). lia.
Qed.

Lemma SHA1Update_typed c d : hash_ok 5 c -> bytes_ok d -> hash_ok 5 (SHA1Update c d).
Proof.
  intros (Hs & Hc & Hb) Hd. pose proof (used_64 (hcount c)) as Hu. unfold SHA1Update.
  set (j := Z.to_nat (Z.land (Z.shiftr (hcount c) 3) 63)) in *. destruct (Nat.ltb_spec 63 (j + length d)) as [Hl|Hl].
  - set (buf := splice (hbuffer c) j (take (64 - j) d)).
    assert (Hbuf : buffer_ok 64 buf) by (apply buffer_splice; [done|by apply bytes_ok_take|rewrite length_take; lia]).
    pose proof (sha1_blocks_typed d (length d) (SHA1Transform (hstate c) (take 64 buf)) (64 - j) (SHA1Transform_typed _ _)) as Ht.
    destruct (sha1_blocks_run d (length d) (SHA1Transform (hstate c) (take 64 buf)) (64 - j)) as (n & E & Hn); [lia|lia|].
    rewrite E in *. split; [exact Ht|]. split; [apply u64_word|]. cbn [hbuffer].
    apply buffer_splice; [done|by apply bytes_ok_drop|rewrite length_drop; lia].
  - split; [done|]. split; [apply u64_word|]. apply buffer_splice; [done|done|lia].
Qed.

Lemma pad_zeros_typed : forall fuel c, hash_ok 5 c -> hash_ok 5 (pad_zeros fuel c).
Proof.
  intros fuel. induction fuel as [|fuel IH]; intros c Hc; cbn [pad_zeros]; [done|]. case_match; [|done]. apply IH, SHA1Update_typed; [done|].
  apply Forall_cons_2; [by unfold is_byte|done].
Qed.

Lemma md5_blocks_typed : forall fuel s d, words_ok 4 32 s -> words_ok 4 32 (md5_blocks fuel s d).1.
Proof.
  intros fuel. induction fuel as [|fuel IH]; intros s d Hs; cbn [md5_blocks]; [done|]. case_match; [|done]. apply IH, MD5Transform_typed.
Qed.

(** Blocks of the input and the rest in the buffer. *)
Lemma md5_rest_typed fuel s d buf : words_ok 4 32 s -> bytes_ok d -> buffer_ok 64 buf -> (length d <= fuel)%nat ->
  words_ok 4 32 (md5_blocks fuel s d).1 /\
  buffer_ok 64 (if negb (length (md5_blocks fuel s d).2 =? 0)%nat then splice buf 0 (md5_blocks fuel s d).2 else buf).
Proof.
  intros Hs Hd Hb Hf. split; [by apply md5_blocks_typed|]. destruct (md5_blocks_run fuel s d Hf) as (n & -> & Hn). cbn [snd].
  destruct (negb _); [|done]. apply buffer_splice; [done|by apply bytes_ok_drop|rewrite length_drop; lia].
Qed.

Lemma MD5Update_typed c d : hash_ok 4 c -> bytes_ok d -> hash_ok 4 (MD5Update c d).
Proof.
  intros (Hs & Hc & Hb) Hd. pose proof (used_64 (hcount c)) as Hu. unfold MD5Update. change (64 - 1) with 63.
  set (j := Z.to_nat (Z.land (Z.shiftr (hcount c) 3) 63)) in *. destruct (Nat.leb_spec (64 - j) (length d)) as [Hl|Hl].
  2:{ split; [done|]. split; [apply u64_word|]. cbn [hbuffer]. destruct (negb _); [|done]. apply buffer_splice; [done|done|lia]. }
  destruct (Nat.eqb_spec j 0) as [Ej|Ej]; cbn [negb].
  - pose proof (md5_rest_typed (length d) (hstate c) d (hbuffer c) Hs Hd Hb (le_n _)) as [H1 H2]. rewrite Ej.
    destruct (md5_blocks (length d) (hstate c) d) as [s' d']. split; [exact H1|]. split; [apply u64_word|exact H2].
  - set (buf := splice (hbuffer c) j (take (64 - j) d)).
    assert (Hbuf : buffer_ok 64 buf) by (apply buffer_splice; [done|by apply bytes_ok_take|rewrite length_take; lia]).
    pose proof (md5_rest_typed (length (drop (64 - j) d)) (MD5Transform (hstate c) (take 64 buf)) (drop (64 - j) d) buf
      (MD5Transform_typed _ _) (bytes_ok_drop _ _ Hd) Hbuf (le_n _)) as [H1 H2].
    destruct (md5_blocks _ _ (drop (64 - j) d)) as [s' d']. split; [exact H1|]. split; [apply u64_word|exact H2].
Qed.

(** ** SHA-2 *)

Section sha2.
Context (p : sha2) (w : Z) (ok : sha2_ok p).
Context (Huw : forall x, word_ok w (uw p x)) (HB : (0 < BLOCK_LENGTH p <= 128)%nat).
Context (Hadd : forall bc n, word_ok 64 bc.1 -> word_ok 64 bc.2 -> word_ok 64 (addinc p bc n).1 /\ word_ok 64 (addinc p bc n).2).

Lemma Transform_typed s b : words_ok 8 w (Transform p s b).
Proof.
  rewrite Transform_correct by done. split; [apply length_fips_compress|]. unfold fips_compress.
  destruct (fold_left _ _ _) as [[[[[[[? ?] ?] ?] ?] ?] ?] ?]. repeat (apply Forall_cons_2; auto).
Qed.

Lemma block_loop_typed : forall fuel c d, sha2_typed w c -> bytes_ok d -> (length d <= fuel)%nat ->
  sha2_typed w (block_loop p fuel c d).1 /\ bytes_ok (block_loop p fuel c d).2 /\ (length (block_loop p fuel c d).2 < BLOCK_LENGTH p)%nat.
Proof.
  intros fuel. induction fuel as [|fuel IH]; intros c d Hc Hd Hf; cbn [block_loop].
  - cbn [fst snd]. split_and!; [done|done|lia].
  - destruct (Nat.leb_spec (BLOCK_LENGTH p) (length d)) as [Hl|Hl]; [|cbn [fst snd]; split_and!; [done|done|lia]].
    destruct Hc as (Hs & H1 & H2 & Hb). apply IH; [|by apply bytes_ok_drop|rewrite length_drop; lia].
    destruct (Hadd (bitcount c) (Z.of_nat (BLOCK_LENGTH p) * 8) H1 H2). split; [apply Transform_typed|]. split_and!; done.
Qed.

Lemma update_blocks_typed c d : sha2_typed w c -> bytes_ok d -> sha2_typed w (update_blocks p c d).
Proof.
  intros Hc Hd. destruct (block_loop_typed (length d) c d Hc Hd (le_n _)) as (Ht & Hb & Hl). unfold update_blocks.
  destruct (block_loop p (length d) c d) as [c' d']. cbn [fst snd] in *. case_match; [|done].
  destruct Ht as (Hs & H1 & H2 & Hbuf). destruct (Hadd (bitcount c') (Z.of_nat (length d') * 8) H1 H2).
  split; [done|]. split_and!; [done|done|]. apply buffer_splice; [done|done|lia].
Qed.

Lemma usedspace_lt c : (usedspace p c < BLOCK_LENGTH p)%nat.
Proof. unfold usedspace. pose proof (Z.mod_pos_bound (Z.shiftr (fst (bitcount c)) 3) (Z.of_nat (BLOCK_LENGTH p)) ltac:(lia)). lia. Qed.

Lemma Update_typed c d : sha2_typed w c -> bytes_ok d -> sha2_typed w (Update p c d).
Proof.
  intros Hc Hd. pose proof (usedspace_lt c) as Hu. unfold Update. destruct (length d =? 0)%nat; [done|].
  set (u := usedspace p c) in *. destruct (0 <? u)%nat; [|by apply update_blocks_typed].
  destruct Hc as (Hs & H1 & H2 & Hb). destruct (Nat.leb_spec (BLOCK_LENGTH p - u) (length d)) as [Hl|Hl].
  - apply update_blocks_typed; [|by apply bytes_ok_drop].
    destruct (Hadd (bitcount c) (Z.of_nat (BLOCK_LENGTH p - u) * 8) H1 H2). split; [apply Transform_typed|]. split_and!; [done|done|].
    apply buffer_splice; [done|by apply bytes_ok_take|rewrite length_take; lia].
  - destruct (Hadd (bitcount c) (Z.of_nat (length d) * 8) H1 H2). split; [done|]. split_and!; [done|done|].
    apply buffer_splice; [done|done|lia].
Qed.

Lemma length_st_Pad second c : length (st (Pad p second c)) = 8%nat.
Proof. unfold Pad. destruct (if (0 <? usedspace p c)%nat then _ else _) as [s buf]. apply Transform_typed. Qed.

End sha2.

Lemma sha256_update_typed c d : sha2_typed 32 c -> bytes_ok d -> sha2_typed 32 (SHA256Update c d).
Proof. apply Update_typed; [apply sha256_ok|apply u32_word|cbn; lia|]. intros bc n H1 H2. split; [apply u64_word|done]. Qed.

Lemma sha512_add_typed bc n : word_ok 64 bc.1 -> word_ok 64 bc.2 -> word_ok 64 (addinc sha512 bc n).1 /\ word_ok 64 (addinc sha512 bc n).2.
Proof. intros H1 H2. cbn [addinc sha512]. unfold ADDINC128. cbn. case_match; split; cbn; auto. Qed.

Lemma sha512_update_typed c d : sha2_typed 64 c -> bytes_ok d -> sha2_typed 64 (SHA512Update c d).
Proof. apply Update_typed; [apply sha512_ok|apply u64_word|cbn; lia|exact sha512_add_typed]. Qed.

(** ** Digests *)

Lemma words_of_init k w l : length l = k -> forallb (fun x => (0 <=? x) && (x <? 2 ^ w)) l = true -> words_ok k w l.
Proof.
  intros Hl H. split; [done|]. apply Forall_forall. intros x Hx. rewrite forallb_forall in H.
  specialize (H x Hx). unfold word_ok. lia.
Qed.

Lemma hash_ok_zero k s : words_ok k 32 s -> hash_ok k (mk_hash s 0 (replicate 64 0)).
Proof. intros H. split; [done|]. split; [by unfold word_ok|apply buffer_zeros]. Qed.

Lemma sha2_typed_zero w s : words_ok 8 w s -> sha2_typed w (mk_sha2ctx s (0, 0) (replicate 128 0)).
Proof. intros H. split; [done|]. split_and!; [by unfold word_ok|by unfold word_ok|apply buffer_zeros]. Qed.

Lemma bytes_out k (f : Z -> list Z) ws : (forall v, length (f v) = k) -> (forall v, bytes_ok (f v)) ->
  buffer_ok (k * length ws) (concat (map f ws)).
Proof. intros Hl Hb. split; [by apply (length_concat_words k ws (fun _ => f))|by apply bytes_ok_concat_words]. Qed.

Lemma octets_typed n (f : nat -> Z) : (forall i, is_byte (f i)) -> buffer_ok n (map f (seq 0 n)).
Proof. intros H. split; [by rewrite length_map, length_seq|]. by apply Forall_map, Forall_true. Qed.

Lemma land_octet x : is_byte (Z.land x 255).
Proof. change 255 with (Z.ones 8). rewrite Z.land_ones by lia. apply Z.mod_pos_bound. lia. Qed.

Lemma init_typed alg d : ssh_digest_by_alg alg = Some d -> md_typed alg (libc_init alg).
Proof.
  intros H. destruct (alg_cases alg d H) as [->|[->|[->|[->| ->]]]]; cbn [libc_init md_typed];
    (apply hash_ok_zero || apply sha2_typed_zero); by apply words_of_init.
Qed.

Lemma update_typed alg c m : md_typed alg c -> bytes_ok m -> md_typed alg (libc_update alg c m).
Proof.
  intros Hc Hm. destruct c as [c|c], alg as [|q|q]; try done; cbn [libc_update md_typed] in *; repeat (case_match; try done);
    first [by apply MD5Update_typed|by apply SHA1Update_typed|by apply sha256_update_typed|by apply sha512_update_typed].
Qed.

Lemma final_digest_typed alg d c : ssh_digest_by_alg alg = Some d -> md_typed alg c ->
  md_typed alg (libc_final alg c).2 /\ buffer_ok (Z.to_nat (digest_len d)) (libc_final alg c).1.
Proof.
  intros H Hc. assert (Hz32 : sha2_typed 32 zero_sha2) by (apply sha2_typed_zero; by apply words_of_init).
  assert (Hz64 : sha2_typed 64 zero_sha2) by (apply sha2_typed_zero; by apply words_of_init).
  assert (H256 : forall n, length (st (Pad sha256 n (match c with Md_sha2 c => c | _ => zero_sha2 end))) = 8%nat)
    by (intros n; apply (length_st_Pad sha256 32 sha256_ok u32_word)).
  assert (H512 : forall n, length (st (Pad sha512 n (match c with Md_sha2 c => c | _ => zero_sha2 end))) = 8%nat)
    by (intros n; apply (length_st_Pad sha512 64 sha512_ok u64_word)).
  destruct (alg_cases alg d H) as [->|[->|[->|[->| ->]]]]; injection H as <-; destruct c as [c|c]; try done;
    (split; [first [exact Hz32|exact Hz64|apply hash_ok_zero; by apply words_of_init]|]); cbn [libc_final md_pair fst digest_len].
  - unfold MD5Final. cbn [fst]. rewrite (map_ext _ _ (fun i => put32_le _)), <- (map_map (word_at _) (little_endian 4)).
    apply (bytes_out 4); [apply length_little_endian|apply bytes_ok_little_endian].
  - apply octets_typed. intros i. apply land_octet.
  - unfold SHA256Final. cbn [fst]. rewrite (map_ext _ _ put_word32). unfold SHA256Pad. specialize (H256 (64 - 8)%nat).
    pose proof (bytes_out 4 (big_endian 4) (st (Pad sha256 (64 - 8) c)) (length_big_endian 4) (bytes_ok_big_endian 4)) as Hb.
    rewrite H256 in Hb. exact Hb.
  - unfold SHA384Final, SHA384Pad. cbn [fst]. rewrite (map_ext _ _ put_word64). unfold SHA512Pad. specialize (H512 (128 - 2)%nat).
    pose proof (bytes_out 8 (big_endian 8) (take 6 (st (Pad sha512 (128 - 2) c))) (length_big_endian 8) (bytes_ok_big_endian 8)) as Hb.
    rewrite length_take, H512 in Hb. exact Hb.
  - unfold SHA512Final. cbn [fst]. rewrite (map_ext _ _ put_word64). unfold SHA512Pad. specialize (H512 (128 - 2)%nat).
    pose proof (bytes_out 8 (big_endian 8) (st (Pad sha512 (128 - 2) c)) (length_big_endian 8) (bytes_ok_big_endian 8)) as Hb.
    rewrite H512 in Hb. exact Hb.
Qed.


