(* ===== verification/Umac.v ===== *)
(** UMAC (umac.c; umac128.c is the same file with longer tags): the code.

    [b] selects the variant: [false] is umac.c with UMAC_OUTPUT_LEN 8, [true] is
    umac128.c with 16.  Memory is octets; the machine is little-endian and has
    the AES of rijndael.c (the build without OpenSSL). *)

From stdpp Require Import base list numbers tactics.
From Stdlib Require Import ZArith Lia ZifyBool.
From S2P Require Import Prelude HashBlocks Rijndael.

(** ** misc.c *)

Definition get_u32 (p : list Z) : Z :=
  Z.lor (Z.lor (Z.lor (Z.shiftl (byte_at p 0) 24) (Z.shiftl (byte_at p 1) 16)) (Z.shiftl (byte_at p 2) 8)) (byte_at p 3).

Definition get_u32_le (p : list Z) : Z :=
  Z.lor (Z.lor (Z.lor (byte_at p 0) (Z.shiftl (byte_at p 1) 8)) (Z.shiftl (byte_at p 2) 16)) (Z.shiftl (byte_at p 3) 24).

Definition put_u32 (v : Z) : list Z := [u8 (Z.shiftr v 24); u8 (Z.shiftr v 16); u8 (Z.shiftr v 8); u8 v].
Definition put_u32_le (v : Z) : list Z := [u8 v; u8 (Z.shiftr v 8); u8 (Z.shiftr v 16); u8 (Z.shiftr v 24)].

(** Element [i] of the octets at [p] as an array of UINT32 and of UINT64. *)
Definition native32 (p : list Z) (i : nat) : Z := get_u32_le (drop (4 * i) p).
Definition native64 (p : list Z) (i : nat) : Z := Z.lor (native32 p (2 * i)) (Z.shiftl (native32 p (2 * i + 1)) 32).

(** ** Parameters *)

Definition UMAC_OUTPUT_LEN (b : bool) : nat := if b then 16 else 8.
Definition STREAMS (b : bool) : nat := UMAC_OUTPUT_LEN b / 4.
Definition UMAC_KEY_LEN : nat := 16.
Definition AES_BLOCK_LEN : nat := 16.
Definition L1_KEY_LEN : nat := 1024.
Definition L1_KEY_SHIFT : nat := 16.
Definition L1_PAD_BOUNDARY : nat := 32.
Definition HASH_BUF_BYTES : nat := 64.

Definition MUL64 (a b : Z) : Z := u64 (u32 a * u32 b).

Definition AES_ROUNDS : Z := 10.
Definition aes_encryption (inp int_key : list Z) : list Z := rijndaelEncrypt int_key AES_ROUNDS inp.
Definition aes_key_setup (key : list Z) : list Z := (rijndaelKeySetupEnc key (Z.of_nat UMAC_KEY_LEN * 8)).2.

(** ** Key derivation and the pad *)

(** [in_buf] *)
Definition kdf_input (ndx i : Z) : list Z := replicate 7 0 ++ [u8 ndx] ++ replicate 7 0 ++ [u8 i].

Fixpoint kdf_loop (fuel : nat) (key : list Z) (ndx i : Z) (nbytes : nat) : list Z :=
  match fuel with
  | O => []
  | S fuel =>
      if (AES_BLOCK_LEN <=? nbytes)%nat
      then aes_encryption (kdf_input ndx i) key ++ kdf_loop fuel key ndx (i + 1) (nbytes - AES_BLOCK_LEN)
      else if negb (nbytes =? 0)%nat then take nbytes (aes_encryption (kdf_input ndx i) key) else []
  end.

(** What is written to [bufp]. *)
Definition kdf (key : list Z) (ndx : Z) (nbytes : nat) : list Z := kdf_loop (S nbytes) key ndx 1 nbytes.

Record pdf_ctx := mk_pdf { cache : list Z; pnonce : list Z; prf_key : list Z }.

Definition pdf_init (key : list Z) : pdf_ctx :=
  let buf := kdf key 0 UMAC_KEY_LEN in
  let k := aes_key_setup buf in
  let nonce := replicate 16 0 in
  mk_pdf (aes_encryption nonce k) nonce k.

Definition LOW_BIT_MASK (b : bool) : Z := if b then 0 else 1.

(** Returns [*pc] and [buf]. *)
Definition pdf_gen_xor (b : bool) (pc : pdf_ctx) (nonce buf : list Z) : pdf_ctx * list Z :=
  let ndx := Z.to_nat (Z.land (byte_at nonce 7) (LOW_BIT_MASK b)) in
  let tmp_nonce_lo := take 3 (drop 4 nonce) ++ [Z.ldiff (byte_at nonce 7) (LOW_BIT_MASK b)] in
  let pc :=
    if negb (bool_decide (tmp_nonce_lo = take 4 (drop 4 (pnonce pc)))) || negb (bool_decide (take 4 nonce = take 4 (pnonce pc))) then
      let n := splice (splice (pnonce pc) 0 (take 4 nonce)) 4 tmp_nonce_lo in
      mk_pdf (aes_encryption n (prf_key pc)) n (prf_key pc)
    else pc in
  (pc, zip_with Z.lxor buf (if b then cache pc else take 8 (drop (8 * ndx) (cache pc)))).

(** ** NH *)

Record nh_ctx := mk_nh {
  nh_key : list Z;
  nh_data : list Z;
  next_data_empty : nat;
  bytes_hashed : nat;
  nh_state : list Z
}.

(** The loops of [nh_aux], [c] rounds.  [k] and [d] are the pointers. *)
Fixpoint nh_loop8 (c : nat) (k d : list Z) (r : Z * Z * Z * Z) (h1 h2 : Z) : list Z :=
  match c with
  | O => [h1; h2]
  | S c =>
      let '(k0, k1, k2, k3) := r in
      let D i := get_u32_le (drop (4 * i) d) in
      let K := native32 k in
      let h1 := u64 (h1 + MUL64 (k0 + D 0%nat) (K 4%nat + D 4%nat)) in
      let h2 := u64 (h2 + MUL64 (K 4%nat + D 0%nat) (K 8%nat + D 4%nat)) in
      let h1 := u64 (h1 + MUL64 (k1 + D 1%nat) (K 5%nat + D 5%nat)) in
      let h2 := u64 (h2 + MUL64 (K 5%nat + D 1%nat) (K 9%nat + D 5%nat)) in
      let h1 := u64 (h1 + MUL64 (k2 + D 2%nat) (K 6%nat + D 6%nat)) in
      let h2 := u64 (h2 + MUL64 (K 6%nat + D 2%nat) (K 10%nat + D 6%nat)) in
      let h1 := u64 (h1 + MUL64 (k3 + D 3%nat) (K 7%nat + D 7%nat)) in
      let h2 := u64 (h2 + MUL64 (K 7%nat + D 3%nat) (K 11%nat + D 7%nat)) in
      nh_loop8 c (drop 32 k) (drop 32 d) (K 8, K 9, K 10, K 11)%nat h1 h2
  end.

Fixpoint nh_loop16 (c : nat) (k d : list Z) (r : Z * Z * Z * Z * Z * Z * Z * Z) (h1 h2 h3 h4 : Z) : list Z :=
  match c with
  | O => [h1; h2; h3; h4]
  | S c =>
      let '(k0, k1, k2, k3, k4, k5, k6, k7) := r in
      let D i := get_u32_le (drop (4 * i) d) in
      let K := native32 k in
      let h1 := u64 (h1 + MUL64 (k0 + D 0%nat) (k4 + D 4%nat)) in
      let h2 := u64 (h2 + MUL64 (k4 + D 0%nat) (K 8%nat + D 4%nat)) in
      let h3 := u64 (h3 + MUL64 (K 8%nat + D 0%nat) (K 12%nat + D 4%nat)) in
      let h4 := u64 (h4 + MUL64 (K 12%nat + D 0%nat) (K 16%nat + D 4%nat)) in
      let h1 := u64 (h1 + MUL64 (k1 + D 1%nat) (k5 + D 5%nat)) in
      let h2 := u64 (h2 + MUL64 (k5 + D 1%nat) (K 9%nat + D 5%nat)) in
      let h3 := u64 (h3 + MUL64 (K 9%nat + D 1%nat) (K 13%nat + D 5%nat)) in
      let h4 := u64 (h4 + MUL64 (K 13%nat + D 1%nat) (K 17%nat + D 5%nat)) in
      let h1 := u64 (h1 + MUL64 (k2 + D 2%nat) (k6 + D 6%nat)) in
      let h2 := u64 (h2 + MUL64 (k6 + D 2%nat) (K 10%nat + D 6%nat)) in
      let h3 := u64 (h3 + MUL64 (K 10%nat + D 2%nat) (K 14%nat + D 6%nat)) in
      let h4 := u64 (h4 + MUL64 (K 14%nat + D 2%nat) (K 18%nat + D 6%nat)) in
      let h1 := u64 (h1 + MUL64 (k3 + D 3%nat) (k7 + D 7%nat)) in
      let h2 := u64 (h2 + MUL64 (k7 + D 3%nat) (K 11%nat + D 7%nat)) in
      let h3 := u64 (h3 + MUL64 (K 11%nat + D 3%nat) (K 15%nat + D 7%nat)) in
      let h4 := u64 (h4 + MUL64 (K 15%nat + D 3%nat) (K 19%nat + D 7%nat)) in
      nh_loop16 c (drop 32 k) (drop 32 d) (K 8, K 9, K 10, K 11, K 12, K 13, K 14, K 15)%nat h1 h2 h3 h4
  end.

(** The new contents of [hp].  [dlen] is at least 32 in every call, so that the
    loop [do ... while (--c)] runs [dlen / 32] times. *)
Definition nh_aux (b : bool) (kp dp hp : list Z) (dlen : nat) : list Z :=
  let c := (dlen / 32)%nat in
  let K := native32 kp in
  let h := word_at hp in
  if b then nh_loop16 c kp dp (K 0, K 1, K 2, K 3, K 4, K 5, K 6, K 7)%nat (h 0%nat) (h 1%nat) (h 2%nat) (h 3%nat)
  else nh_loop8 c kp dp (K 0, K 1, K 2, K 3)%nat (h 0%nat) (h 1%nat).

Definition nh_transform (b : bool) (hc : nh_ctx) (buf : list Z) (nbytes : nat) : nh_ctx :=
  mk_nh (nh_key hc) (nh_data hc) (next_data_empty hc) (bytes_hashed hc)
    (nh_aux b (drop (bytes_hashed hc) (nh_key hc)) buf (nh_state hc) nbytes).

(** [iters] words of [bpw] octets. *)
Fixpoint endian_loop (iters bpw : nat) (buf : list Z) : list Z :=
  match iters with
  | O => buf
  | S iters =>
      (if (bpw =? 4)%nat then put_u32_le (get_u32 buf)
       else put_u32_le (get_u32 (drop 4 buf)) ++ put_u32_le (get_u32 buf)) ++ endian_loop iters bpw (drop bpw buf)
  end.

Definition endian_convert (buf : list Z) (bpw num_bytes : nat) : list Z := endian_loop (num_bytes / bpw) bpw buf.

Definition nh_reset (b : bool) (hc : nh_ctx) : nh_ctx := mk_nh (nh_key hc) (nh_data hc) 0 0 (replicate (STREAMS b) 0).

Definition nh_key_len (b : bool) : nat := L1_KEY_LEN + L1_KEY_SHIFT * (STREAMS b - 1).

Definition nh_init (b : bool) (hc : nh_ctx) (prf_key : list Z) : nh_ctx :=
  let k := endian_convert (kdf prf_key 1 (nh_key_len b)) 4 (nh_key_len b) in
  nh_reset b (mk_nh k (nh_data hc) (next_data_empty hc) (bytes_hashed hc) (nh_state hc)).

Definition set_data (hc : nh_ctx) (data : list Z) (next : nat) : nh_ctx :=
  mk_nh (nh_key hc) data next (bytes_hashed hc) (nh_state hc).

Definition add_hashed (hc : nh_ctx) (n : nat) : nh_ctx :=
  mk_nh (nh_key hc) (nh_data hc) (next_data_empty hc) (bytes_hashed hc + n) (nh_state hc).

Definition nh_update (b : bool) (hc : nh_ctx) (buf : list Z) : nh_ctx :=
  let j := next_data_empty hc in
  let '(hc, buf, j) :=
    if (HASH_BUF_BYTES <=? j + length buf)%nat then
      let '(hc, buf) :=
        if negb (j =? 0)%nat then
          let i := (HASH_BUF_BYTES - j)%nat in
          let data := splice (nh_data hc) j (take i buf) in
          (add_hashed (nh_transform b (set_data hc data j) data HASH_BUF_BYTES) HASH_BUF_BYTES, drop i buf)
        else (hc, buf) in
      let '(hc, buf) :=
        if (HASH_BUF_BYTES <=? length buf)%nat then
          let i := Z.to_nat (Z.ldiff (Z.of_nat (length buf)) 63) in
          (add_hashed (nh_transform b hc buf i) i, drop i buf)
        else (hc, buf) in
      (hc, buf, 0%nat)
    else (hc, buf, j) in
  set_data hc (splice (nh_data hc) j buf) (j + length buf).

(** [zero_pad(p, nbytes)], where [p] is [data + i]. *)
Definition zero_pad (data : list Z) (i nbytes : nat) : list Z := splice data i (replicate nbytes 0).

(** The hash and the context. *)
Definition nh_final (b : bool) (hc : nh_ctx) : list Z * nh_ctx :=
  let n := next_data_empty hc in
  let hc :=
    if negb (n =? 0)%nat then
      let nh_len := Z.to_nat (Z.ldiff (Z.of_nat n + 31) 31) in
      let data := zero_pad (nh_data hc) n (nh_len - n) in
      add_hashed (nh_transform b (set_data hc data n) data nh_len) n
    else if (bytes_hashed hc =? 0)%nat then
      let data := zero_pad (nh_data hc) 0 L1_PAD_BOUNDARY in nh_transform b (set_data hc data n) data L1_PAD_BOUNDARY
    else hc in
  let nbits := Z.shiftl (Z.of_nat (bytes_hashed hc)) 3 in
  (map (fun s => u64 (s + nbits)) (nh_state hc), nh_reset b hc).

Definition nh (b : bool) (hc : nh_ctx) (buf : list Z) (padded_len unpadded_len : nat) : list Z :=
  let nbits := u32 (Z.shiftl (Z.of_nat unpadded_len) 3) in
  nh_aux b (nh_key hc) buf (replicate (STREAMS b) nbits) padded_len.

(** ** UHASH *)

Definition p36 : Z := 0x0000000FFFFFFFFB.
Definition p64 : Z := 0xFFFFFFFFFFFFFFC5.
Definition m36 : Z := 0x0000000FFFFFFFFF.

Record uhash_ctx := mk_uhash {
  hash : nh_ctx;
  poly_key_8 : list Z;
  poly_accum : list Z;
  ip_keys : list Z;
  ip_trans : list Z;
  msg_len : Z
}.

Definition poly64 (cur key data : Z) : Z :=
  let key_hi := u32 (Z.shiftr key 32) in
  let key_lo := u32 key in
  let cur_hi := u32 (Z.shiftr cur 32) in
  let cur_lo := u32 cur in
  let X := u64 (MUL64 key_hi cur_lo + MUL64 cur_hi key_lo) in
  let x_lo := u32 X in
  let x_hi := u32 (Z.shiftr X 32) in
  let res := u64 (u64 (u64 (MUL64 key_hi cur_hi + x_hi) * 59) + MUL64 key_lo cur_lo) in
  let T := u64 (Z.shiftl x_lo 32) in
  let res := u64 (res + T) in
  let res := if res <? T then u64 (res + 59) else res in
  let res := u64 (res + data) in
  if res <? data then u64 (res + 59) else res.

(** One stream of [poly_hash]. *)
Definition poly_step (accum key data : Z) : Z :=
  if u32 (Z.shiftr data 32) =? 0xffffffff
  then poly64 (poly64 accum key (p64 - 1)) key (u64 (data - 59))
  else poly64 accum key data.

Definition poly_hash (b : bool) (hc : uhash_ctx) (data_in : list Z) : uhash_ctx :=
  let accum := map (fun i => poly_step (word_at (poly_accum hc) i) (word_at (poly_key_8 hc) i) (word_at data_in i)) (seq 0 (STREAMS b)) in
  mk_uhash (hash hc) (poly_key_8 hc) accum (ip_keys hc) (ip_trans hc) (msg_len hc).

Definition ip_aux (t : Z) (ipkp : list Z) (data : Z) : Z :=
  let k := word_at ipkp in
  let t := u64 (t + u64 (k 0%nat * u16 (Z.shiftr data 48))) in
  let t := u64 (t + u64 (k 1%nat * u16 (Z.shiftr data 32))) in
  let t := u64 (t + u64 (k 2%nat * u16 (Z.shiftr data 16))) in
  u64 (t + u64 (k 3%nat * u16 data)).

Definition ip_reduce_p36 (t : Z) : Z :=
  let ret := u64 (Z.land t m36 + u64 (5 * Z.shiftr t 36)) in
  let ret := if ret >=? p36 then ret - p36 else ret in u32 ret.

(** Four octets of the result. *)
Definition ip_out (ahc : uhash_ctx) (i : nat) (data : Z) : list Z :=
  put_u32 (Z.lxor (ip_reduce_p36 (ip_aux 0 (drop (4 * i) (ip_keys ahc)) data)) (word_at (ip_trans ahc) i)).

Definition ip_short (b : bool) (ahc : uhash_ctx) (nh_res : list Z) : list Z :=
  concat (map (fun i => ip_out ahc i (word_at nh_res i)) (seq 0 (STREAMS b))).

(** Returns the result and [*ahc]. *)
Definition ip_long (b : bool) (ahc : uhash_ctx) : list Z * uhash_ctx :=
  let accum := map (fun i => let a := word_at (poly_accum ahc) i in if a >=? p64 then a - p64 else a) (seq 0 (STREAMS b)) in
  (concat (map (fun i => ip_out ahc i (word_at accum i)) (seq 0 (STREAMS b))),
   mk_uhash (hash ahc) (poly_key_8 ahc) accum (ip_keys ahc) (ip_trans ahc) (msg_len ahc)).

Definition uhash_reset (b : bool) (pc : uhash_ctx) : uhash_ctx :=
  mk_uhash (nh_reset b (hash pc)) (poly_key_8 pc) (replicate (STREAMS b) 1) (ip_keys pc) (ip_trans pc) 0.

Definition zero_nh (b : bool) : nh_ctx := mk_nh (replicate (nh_key_len b) 0) (replicate HASH_BUF_BYTES 0) 0 0 (replicate (STREAMS b) 0).

Definition uhash_init (b : bool) (prf_key : list Z) : uhash_ctx :=
  let hash := nh_init b (zero_nh b) prf_key in
  let blen := ((8 * STREAMS b + 4) * 8)%nat in
  let buf := kdf prf_key 2 blen in
  let poly := map (fun i => Z.land (native64 (endian_convert (take 8 (drop (24 * i) buf)) 8 8) 0) (Z.shiftl 0x01ffffff 32 + 0x01ffffff))
    (seq 0 (STREAMS b)) in
  let buf := kdf prf_key 3 blen in
  let mem := concat (map (fun i => take 32 (drop ((8 * i + 4) * 8) buf)) (seq 0 (STREAMS b))) in
  let mem := endian_convert mem 8 (STREAMS b * 4 * 8) in
  let keys := map (fun i => native64 mem i mod p36) (seq 0 (STREAMS b * 4)) in
  let mem := endian_convert (kdf prf_key 4 (STREAMS b * 4)) 4 (STREAMS b * 4) in
  mk_uhash hash poly (replicate (STREAMS b) 1) keys (map (native32 mem) (seq 0 (STREAMS b))) 0.

Definition set_hash (ctx : uhash_ctx) (h : nh_ctx) : uhash_ctx :=
  mk_uhash h (poly_key_8 ctx) (poly_accum ctx) (ip_keys ctx) (ip_trans ctx) (msg_len ctx).

Definition add_len (ctx : uhash_ctx) (n : nat) : uhash_ctx :=
  mk_uhash (hash ctx) (poly_key_8 ctx) (poly_accum ctx) (ip_keys ctx) (ip_trans ctx) (u32 (msg_len ctx + Z.of_nat n)).

(** [while (len >= L1_KEY_LEN) ...]: the context and what is left of the input. *)
Fixpoint uhash_blocks (b : bool) (fuel : nat) (ctx : uhash_ctx) (input : list Z) : uhash_ctx * list Z :=
  match fuel with
  | O => (ctx, input)
  | S fuel =>
      if (L1_KEY_LEN <=? length input)%nat then
        let nh_result := nh b (hash ctx) input L1_KEY_LEN L1_KEY_LEN in
        uhash_blocks b fuel (poly_hash b (add_len ctx L1_KEY_LEN) nh_result) (drop L1_KEY_LEN input)
      else (ctx, input)
  end.

Definition uhash_update (b : bool) (ctx : uhash_ctx) (input : list Z) : uhash_ctx :=
  if msg_len ctx + Z.of_nat (length input) <=? Z.of_nat L1_KEY_LEN then
    add_len (set_hash ctx (nh_update b (hash ctx) input)) (length input)
  else
    let bytes_hashed := Z.to_nat (msg_len ctx mod Z.of_nat L1_KEY_LEN) in
    let bytes_hashed := if msg_len ctx =? Z.of_nat L1_KEY_LEN then L1_KEY_LEN else bytes_hashed in
    let '(ctx, input) :=
      if (L1_KEY_LEN <=? bytes_hashed + length input)%nat then
        let '(ctx, input) :=
          if negb (bytes_hashed =? 0)%nat then
            let bytes_remaining := (L1_KEY_LEN - bytes_hashed)%nat in
            let '(nh_result, h) := nh_final b (nh_update b (hash ctx) (take bytes_remaining input)) in
            (poly_hash b (add_len (set_hash ctx h) bytes_remaining) nh_result, drop bytes_remaining input)
          else (ctx, input) in
        uhash_blocks b (length input) ctx input
      else (ctx, input) in
    if negb (length input =? 0)%nat then add_len (set_hash ctx (nh_update b (hash ctx) input)) (length input) else ctx.

(** Returns [res] and the context. *)
Definition uhash_final (b : bool) (ctx : uhash_ctx) : list Z * uhash_ctx :=
  let '(res, ctx) :=
    if msg_len ctx >? Z.of_nat L1_KEY_LEN then
      let ctx :=
        if negb (msg_len ctx mod Z.of_nat L1_KEY_LEN =? 0) then
          let '(nh_result, h) := nh_final b (hash ctx) in poly_hash b (set_hash ctx h) nh_result
        else ctx in
      ip_long b ctx
    else
      let '(nh_result, h) := nh_final b (hash ctx) in
      (ip_short b (set_hash ctx h) nh_result, set_hash ctx h) in
  (res, uhash_reset b ctx).

(** ** UMAC *)

Record umac_context := mk_umac { uhash : uhash_ctx; pdf : pdf_ctx }.

Definition umac_new (b : bool) (key : list Z) : umac_context :=
  let prf_key := aes_key_setup key in mk_umac (uhash_init b prf_key) (pdf_init prf_key).

Definition umac_update (b : bool) (ctx : umac_context) (input : list Z) : umac_context :=
  mk_umac (uhash_update b (uhash ctx) input) (pdf ctx).

(** Returns [tag] and the context. *)
Definition umac_final (b : bool) (ctx : umac_context) (nonce : list Z) : list Z * umac_context :=
  let '(tag, h) := uhash_final b (uhash ctx) in
  let '(p, tag) := pdf_gen_xor b (pdf ctx) nonce tag in
  (tag, mk_umac h p).
