(* ===== verification/UmacSpec.v ===== *)
(** UMAC as RFC 4418 defines it, and the layers of memory and keys of umac.c:
    octet order, key derivation. *)

From stdpp Require Import base list numbers tactics.
From Stdlib Require Import ZArith Lia ZifyBool.
From S2P Require Import Prelude HashBlocks Rijndael Umac.

(** ** RFC 4418 *)

(** [str2uint] of the [n] octets from [o] on. *)
Definition str2uint (s : list Z) (o n : nat) : Z := be_value 0 (take n (drop o s)).

Section rfc.
(** ENCIPHER of section 3.1. *)
Context (encipher : list Z -> list Z -> list Z).

(** 3.2.1 *)
Definition KDF (K : list Z) (index : Z) (numbytes : nat) : list Z :=
  take numbytes (concat (map (fun i => encipher K (be_bytes 8 index ++ be_bytes 8 (Z.of_nat i))) (seq 1 ((numbytes + 15) / 16)))).

(** 3.3.1, for nonces of 8 octets. *)
Definition PDF (K Nonce : list Z) (taglen : nat) : list Z :=
  let index := be_value 0 Nonce mod Z.of_nat (16 / taglen) in
  let Nonce := be_bytes 8 (Z.lxor (be_value 0 Nonce) index) ++ replicate 8 0 in
  take taglen (drop (Z.to_nat index * taglen) (encipher (KDF K 0 16) Nonce)).

(** 5.2.2: NH of [t] groups of 32 octets.  The words of the message are those
    after ENDIAN-SWAP. *)
Definition swapped (M : list Z) (i : nat) : Z := be_value 0 (rev (take 4 (drop (4 * i) M))).

Definition nh_word (K M : list Z) (i : nat) : Z := (swapped M i + str2uint K (4 * i) 4) mod 2 ^ 32.

Fixpoint NH (t : nat) (K M : list Z) (Y : Z) : Z :=
  match t with
  | O => Y
  | S t =>
      let p i := nh_word K M i * nh_word K M (i + 4) in
      NH t (drop 32 K) (drop 32 M) ((Y + (p 0%nat + p 1%nat + p 2%nat + p 3%nat)) mod 2 ^ 64)
  end.

(** Zeros up to a positive multiple of 32 octets. *)
Definition zeropad (M : list Z) : list Z :=
  M ++ replicate (Nat.max 1 ((length M + 31) / 32) * 32 - length M) 0.

(** 5.2: one block of at most 1024 octets, and all of them. *)
Definition L1_block (K M : list Z) : Z :=
  (NH (length (zeropad M) / 32) K (zeropad M) 0 + 8 * Z.of_nat (length M)) mod 2 ^ 64.

Definition L1_HASH (K M : list Z) : list Z :=
  map (fun i => L1_block K (take 1024 (drop (1024 * i) M))) (seq 0 (Nat.max 1 ((length M + 1023) / 1024))).

(** 5.3: POLY with the prime 2^64 - 59, for the words of at most 2^17 octets. *)
Definition POLY (k : Z) (words : list Z) : Z :=
  fold_left (fun y m =>
    if m >=? 2 ^ 64 - 2 ^ 32
    then (k * ((k * y + (2 ^ 64 - 60)) mod (2 ^ 64 - 59)) + (m - 59)) mod (2 ^ 64 - 59)
    else (k * y + m) mod (2 ^ 64 - 59)) words 1.

Definition L2_HASH (K words : list Z) : list Z :=
  be_bytes 16 (POLY (Z.land (str2uint K 0 8) 0x01ffffff01ffffff) words).

(** 5.4 *)
Definition L3_HASH (K1 K2 M : list Z) : list Z :=
  let y := fold_left (fun y i => y + str2uint M (2 * i) 2 * (str2uint K1 (8 * i) 8 mod (2 ^ 36 - 5))) (seq 0 8) 0 in
  zip_with Z.lxor (be_bytes 4 ((y mod (2 ^ 36 - 5)) mod 2 ^ 32)) K2.

(** 5.1, stream [i] of [iters]. *)
Definition UHASH_stream (K M : list Z) (iters i : nat) : list Z :=
  let L1Key := take 1024 (drop (16 * i) (KDF K 1 (1024 + 16 * (iters - 1)))) in
  let L2Key := take 24 (drop (24 * i) (KDF K 2 (24 * iters))) in
  let L3Key1 := take 64 (drop (64 * i) (KDF K 3 (64 * iters))) in
  let L3Key2 := take 4 (drop (4 * i) (KDF K 4 (4 * iters))) in
  let A := L1_HASH L1Key M in
  let B := if (length M <=? 1024)%nat then replicate 8 0 ++ be_bytes 8 (hd 0 A) else L2_HASH L2Key A in
  L3_HASH L3Key1 L3Key2 B.

Definition UHASH (K M : list Z) (taglen : nat) : list Z :=
  concat (map (UHASH_stream K M (taglen / 4)) (seq 0 (taglen / 4))).

(** 4.2 *)
Definition UMAC (K M Nonce : list Z) (taglen : nat) : list Z := zip_with Z.lxor (PDF K Nonce taglen) (UHASH K M taglen).

End rfc.

(** ** Words in memory *)

Lemma quad_value a b c d : is_byte a -> is_byte b -> is_byte c -> is_byte d ->
  Z.lor (Z.lor (Z.lor (Z.shiftl a 24) (Z.shiftl b 16)) (Z.shiftl c 8)) d = be_value 0 [a; b; c; d].
Proof.
  unfold is_byte. intros Ha Hb Hc Hd. cbn [be_value]. rewrite !Z.shiftl_mul_pow2 by lia.
  rewrite (lor_add (a * 2 ^ 24) (b * 2 ^ 16) 24) by dm_lia.
  rewrite (lor_add _ (c * 2 ^ 8) 16) by dm_lia. rewrite (lor_add _ d 8) by dm_lia. ring.
Qed.

Lemma rev_quad_value a b c d : is_byte a -> is_byte b -> is_byte c -> is_byte d ->
  Z.lor (Z.lor (Z.lor a (Z.shiftl b 8)) (Z.shiftl c 16)) (Z.shiftl d 24) = be_value 0 [d; c; b; a].
Proof.
  intros Ha Hb Hc Hd. rewrite <- quad_value by done. apply Z.bits_inj'. intros n Hn. rewrite !Z.lor_spec.
  by destruct (Z.testbit a n), (Z.testbit _ n), (Z.testbit _ n), (Z.testbit _ n).
Qed.

(** Lists of whole words of [k] octets. *)
Definition whole (k : nat) (p : list Z) : Prop := bytes_ok p /\ exists n, length p = (k * n)%nat.

Lemma whole_drop k p n : whole k p -> whole k (drop (k * n) p).
Proof. intros [Hb [m Hm]]. split; [by apply bytes_ok_drop|]. exists (m - n)%nat. rewrite length_drop, Hm. by rewrite Nat.mul_sub_distr_l. Qed.

Lemma whole4_cases p : whole 4 p -> p = [] \/ exists a b c d q, p = [a; b; c; d] ++ q /\ whole 4 q /\ is_byte a /\ is_byte b /\ is_byte c /\ is_byte d.
Proof.
  intros [Hb [n Hn]]. destruct p as [|a [|b [|c [|d q]]]]; [by left|cbn in Hn; lia..|]. right. exists a, b, c, d, q.
  do 4 (apply Forall_cons_1 in Hb as [? Hb]). split; [done|]. split_and!; try done. split; [done|]. exists (n - 1)%nat. cbn in Hn. lia.
Qed.

Lemma get_u32_value p : whole 4 p -> get_u32 p = be_value 0 (take 4 p).
Proof. intros H. destruct (whole4_cases p H) as [->|(a & b & c & d & q & -> & _ & Ha & Hb & Hc & Hd)]; [done|]. exact (quad_value a b c d Ha Hb Hc Hd). Qed.

Lemma get_u32_le_value p : whole 4 p -> get_u32_le p = be_value 0 (rev (take 4 p)).
Proof. intros H. destruct (whole4_cases p H) as [->|(a & b & c & d & q & -> & _ & Ha & Hb & Hc & Hd)]; [done|]. exact (rev_quad_value a b c d Ha Hb Hc Hd). Qed.

(** The words of a message. *)
Lemma native_swapped p i : whole 4 p -> native32 p i = swapped p i.
Proof. intros H. unfold native32, swapped. apply get_u32_le_value. by apply whole_drop. Qed.

Lemma native32_drop p n i : native32 (drop (4 * n) p) i = native32 p (n + i).
Proof. unfold native32. rewrite drop_drop. do 2 f_equal. lia. Qed.

Lemma store_load v rest : 0 <= v < 2 ^ 32 -> get_u32_le (put_u32_le v ++ rest) = v.
Proof.
  intros Hv. unfold put_u32_le.
  transitivity (be_value 0 [u8 (Z.shiftr v 24); u8 (Z.shiftr v 16); u8 (Z.shiftr v 8); u8 v]); [apply rev_quad_value; apply u8_byte|].
  cbn [be_value]. unfold u8. rewrite !Z.shiftr_div_pow2 by lia. dm_lia.
Qed.

Lemma u32_quad p : whole 4 p -> 0 <= get_u32 p < 2 ^ 32.
Proof.
  intros H. rewrite get_u32_value by done. pose proof (be_value_range (take 4 p) (bytes_ok_take 4 p (proj1 H))) as Hr.
  rewrite length_take in Hr. split; [apply Hr|]. eapply Z.lt_le_trans; [apply Hr|]. apply Z.pow_le_mono_r; lia.
Qed.

Lemma endian4_native iters : forall buf i, whole 4 buf -> length buf = (4 * iters)%nat ->
  native32 (endian_loop iters 4 buf) i = str2uint buf (4 * i) 4.
Proof.
  induction iters as [|n IH]; intros buf i Hw Hl.
  - destruct buf; [|cbn in Hl; lia]. unfold native32, str2uint. cbn [endian_loop]. by rewrite !drop_nil.
  - cbn [endian_loop Nat.eqb]. destruct i as [|i].
    + unfold native32. change (4 * 0)%nat with 0%nat. rewrite drop_0, store_load by (by apply u32_quad). unfold str2uint.
      rewrite drop_0. by apply get_u32_value.
    + assert (E : native32 (put_u32_le (get_u32 buf) ++ endian_loop n 4 (drop 4 buf)) (S i) = native32 (endian_loop n 4 (drop 4 buf)) i).
      { unfold native32. by replace (4 * S i)%nat with (4 + 4 * i)%nat by lia. }
      rewrite E, IH; [|apply (whole_drop 4 buf 1); done|rewrite length_drop; lia].
      unfold str2uint. rewrite drop_drop. do 3 f_equal. lia.
Qed.

Lemma whole8_4 p : whole 8 p -> whole 4 p.
Proof. intros [H [n Hn]]. split; [done|]. exists (2 * n)%nat. lia. Qed.

Lemma endian8_native iters : forall buf i, whole 8 buf -> length buf = (8 * iters)%nat ->
  native64 (endian_loop iters 8 buf) i = str2uint buf (8 * i) 8.
Proof.
  induction iters as [|n IH]; intros buf i Hw Hl.
  - destruct buf; [|cbn in Hl; lia]. unfold native64, native32, str2uint. cbn [endian_loop]. by rewrite !drop_nil.
  - cbn [endian_loop Nat.eqb]. rewrite <- app_assoc. set (rest := endian_loop n 8 (drop 8 buf)).
    pose proof (whole8_4 buf Hw) as H4. pose proof (whole_drop 4 buf 1 H4) as H44. change (4 * 1)%nat with 4%nat in H44.
    destruct i as [|i].
    + unfold native64, native32. change (4 * (2 * 0))%nat with 0%nat. change (4 * (2 * 0 + 1))%nat with 4%nat.
      rewrite drop_0, store_load by (by apply u32_quad).
      change (drop 4 (put_u32_le (get_u32 (drop 4 buf)) ++ put_u32_le (get_u32 buf) ++ rest)) with (put_u32_le (get_u32 buf) ++ rest).
      rewrite store_load by (by apply u32_quad). rewrite Z.lor_comm, lor_shiftl_add by (lia || by apply u32_quad).
      rewrite !get_u32_value by done. unfold str2uint. change (8 * 0)%nat with 0%nat. rewrite drop_0.
      replace (take 8 buf) with (take 4 buf ++ take 4 (drop 4 buf)) by (by rewrite take_take_drop).
      rewrite be_value_app, length_take, length_drop, Nat.min_l by lia. done.
    + assert (E : native64 (put_u32_le (get_u32 (drop 4 buf)) ++ put_u32_le (get_u32 buf) ++ rest) (S i) = native64 rest i).
      { unfold native64, native32. replace (4 * (2 * S i))%nat with (8 + 4 * (2 * i))%nat by lia.
        by replace (4 * (2 * S i + 1))%nat with (8 + 4 * (2 * i + 1))%nat by lia. }
      rewrite E. unfold rest. rewrite IH; [|apply (whole_drop 8 buf 1); done|rewrite length_drop; lia].
      unfold str2uint. rewrite drop_drop. do 3 f_equal. lia.
Qed.

(** ** Derived keys *)

(** ENCIPHER as the code has it. *)
Definition code_encipher (K block : list Z) : list Z := aes_encryption block (aes_key_setup K).

Lemma aes_block key inp : exists a b c d, aes_encryption inp key = PUTU32 a ++ PUTU32 b ++ PUTU32 c ++ PUTU32 d.
Proof. unfold aes_encryption, rijndaelEncrypt. destruct (round_loop _ _ _) as [[[[t0 t1] t2] t3] rk]. by eexists _, _, _, _. Qed.

Lemma length_aes key inp : length (aes_encryption inp key) = 16%nat.
Proof. by destruct (aes_block key inp) as (a & b & c & d & ->). Qed.

Lemma bytes_ok_aes key inp : bytes_ok (aes_encryption inp key).
Proof. destruct (aes_block key inp) as (a & b & c & d & ->). rewrite !bytes_ok_app. auto using bytes_ok_PUTU32. Qed.

Section blocks16.
Context (f : nat -> list Z) (Hf : forall i, length (f i) = 16%nat).

Lemma length_concat16 i n : length (concat (map f (seq i n))) = (16 * n)%nat.
Proof. revert i. induction n as [|n IH]; intros i; [done|]. cbn [seq map concat]. rewrite length_app, IH, Hf. lia. Qed.

Lemma take_concat16 m a c i : (m <= 16 * a)%nat -> (a <= c)%nat -> take m (concat (map f (seq i c))) = take m (concat (map f (seq i a))).
Proof.
  intros Hm Ha. replace c with (a + (c - a))%nat by lia. rewrite seq_app, map_app, concat_app, take_app_le; [done|].
  by rewrite length_concat16.
Qed.

End blocks16.

Lemma blocks_cover n : (n <= 16 * ((n + 15) / 16) < n + 16)%nat.
Proof. pose proof (Nat.div_mod_eq (n + 15) 16). pose proof (Nat.mod_upper_bound (n + 15) 16). lia. Qed.

Section kdf.
Context (E : list Z -> list Z -> list Z) (HE : forall K b, length (E K b) = 16%nat) (HB : forall K b, bytes_ok (E K b)).

Lemma length_KDF K index n : length (KDF E K index n) = n.
Proof. unfold KDF. rewrite length_take, length_concat16 by (intros; apply HE). pose proof (blocks_cover n). lia. Qed.

Lemma take_KDF K index m n : (m <= n)%nat -> take m (KDF E K index n) = KDF E K index m.
Proof.
  intros H. unfold KDF. rewrite take_take, Nat.min_l by lia. pose proof (blocks_cover m). pose proof (blocks_cover n).
  apply take_concat16; [intros; apply HE|lia|]. apply Nat.Div0.div_le_mono. lia.
Qed.

Lemma bytes_ok_KDF K index n : bytes_ok (KDF E K index n).
Proof.
  unfold KDF. apply bytes_ok_take. induction (seq 1 _) as [|i l IH]; [done|]. cbn [map concat]. by rewrite bytes_ok_app.
Qed.

End kdf.

Lemma be_bytes_small v : 0 <= v < 256 -> be_bytes 8 v = replicate 7 0 ++ [v].
Proof.
  intros Hv. change (be_bytes 8 v) with (map (fun n => (v / 2 ^ (8 * Z.of_nat n)) mod 256) [7; 6; 5; 4; 3; 2; 1; 0]%nat).
  cbn [map]. rewrite !Z.div_small by (cbn; lia). change (2 ^ (8 * Z.of_nat 0)) with 1. rewrite Z.div_1_r, (Z.mod_small v) by lia. done.
Qed.

Lemma kdf_input_spec ndx j : 0 <= ndx < 256 -> 0 <= j < 256 -> kdf_input ndx j = be_bytes 8 ndx ++ be_bytes 8 j.
Proof. intros Hn Hj. unfold kdf_input, u8. rewrite !be_bytes_small, !Z.mod_small by lia. by rewrite <- app_assoc. Qed.

Lemma kdf_loop_spec key ndx : forall fuel i n, (n < fuel)%nat ->
  kdf_loop fuel key ndx (Z.of_nat i) n =
  take n (concat (map (fun j => aes_encryption (kdf_input ndx (Z.of_nat j)) key) (seq i ((n + 15) / 16)))).
Proof.
  intros fuel. induction fuel as [|fuel IH]; intros i n Hn; [lia|]. cbn [kdf_loop]. unfold AES_BLOCK_LEN.
  destruct (Nat.leb_spec 16 n) as [Hl|Hl].
  - replace ((n + 15) / 16)%nat with (S ((n - 16 + 15) / 16)).
    2:{ replace (n + 15)%nat with (n - 16 + 15 + 1 * 16)%nat by lia. rewrite Nat.div_add by lia. lia. }
    cbn [seq map concat]. rewrite take_app_ge by (rewrite length_aes; lia). rewrite length_aes. f_equal.
    replace (Z.of_nat i + 1) with (Z.of_nat (S i)) by lia. apply IH. lia.
  - destruct (Nat.eqb_spec n 0) as [->|H0]; [done|]. cbn [negb].
    replace ((n + 15) / 16)%nat with 1%nat by (apply (Nat.div_unique _ 16 1 (n - 1)); lia). cbn [seq map concat]. by rewrite app_nil_r.
Qed.

Lemma kdf_spec K ndx n : 0 <= ndx < 256 -> (n <= 4080)%nat -> kdf (aes_key_setup K) ndx n = KDF code_encipher K ndx n.
Proof.
  intros Hx Hn. unfold kdf, KDF, code_encipher. change 1 with (Z.of_nat 1). rewrite kdf_loop_spec by lia. f_equal. f_equal.
  apply map_ext_in. intros j Hj. apply in_seq in Hj. f_equal. apply kdf_input_spec; [done|].
  assert ((n + 15) / 16 < 256)%nat by (apply Nat.Div0.div_lt_upper_bound; lia). lia.
Qed.
