(* ===== verification/UmacNh.v ===== *)
(** The first layer of UMAC: what an NH context has taken in, and that its hash
    is that of RFC 4418. *)

From stdpp Require Import base list numbers tactics.
From Stdlib Require Import ZArith Lia ZifyBool.
From S2P Require Import Prelude HashBlocks Rijndael Umac UmacSpec.

(** ** The primitive *)

(** A product of a group of 32 octets, of the stream whose key starts [o] words
    after that of the first. *)
Definition product (o : nat) (k d : list Z) (j : nat) : Z :=
  u32 (native32 k (o + j) + native32 d j) * u32 (native32 k (o + j + 4) + native32 d (j + 4)).

Definition group (o : nat) (k d : list Z) : Z :=
  product o k d 0 + product o k d 1 + product o k d 2 + product o k d 3.

(** [c] groups of one stream. *)
Fixpoint nh_acc (c o : nat) (k d : list Z) (h : Z) : Z :=
  match c with
  | O => h
  | S c => nh_acc c o (drop 32 k) (drop 32 d) (u64 (h + group o k d))
  end.

Lemma u64_add_r x y : u64 (x + u64 y) = u64 (x + y).
Proof. unfold u64. apply Z.add_mod_idemp_r. lia. Qed.

Lemma u64_add x y : u64 (u64 x + u64 y) = u64 (x + y).
Proof. rewrite u64_add_r. unfold u64. apply Z.add_mod_idemp_l. lia. Qed.

Lemma u64_sum4 h a b c d : u64 (u64 (u64 (u64 (h + u64 a) + u64 b) + u64 c) + u64 d) = u64 (h + (a + b + c + d)).
Proof. rewrite (u64_add_r h a), (u64_add (h + a) b), (u64_add (h + a + b) c), (u64_add (h + a + b + c) d). f_equal. lia. Qed.

Lemma native32_drop8 k i : native32 (drop 32 k) i = native32 k (8 + i).
Proof. apply (native32_drop k 8 i). Qed.

Lemma nh_loop8_acc c : forall k d h1 h2,
  nh_loop8 c k d (native32 k 0, native32 k 1, native32 k 2, native32 k 3) h1 h2 = [nh_acc c 0 k d h1; nh_acc c 4 k d h2].
Proof.
  induction c as [|c IH]; intros k d h1 h2; [done|]. cbn [nh_loop8 nh_acc]. unfold MUL64. rewrite !u64_sum4.
  specialize (IH (drop 32 k) (drop 32 d)). rewrite !native32_drop8 in IH. cbn [Nat.add] in IH. rewrite IH. unfold group, product, native32. cbn [Nat.add]. reflexivity.
Qed.

Lemma nh_loop16_acc c : forall k d h1 h2 h3 h4,
  nh_loop16 c k d (native32 k 0, native32 k 1, native32 k 2, native32 k 3, native32 k 4, native32 k 5, native32 k 6, native32 k 7) h1 h2 h3 h4 =
  [nh_acc c 0 k d h1; nh_acc c 4 k d h2; nh_acc c 8 k d h3; nh_acc c 12 k d h4].
Proof.
  induction c as [|c IH]; intros k d h1 h2 h3 h4; [done|]. cbn [nh_loop16 nh_acc]. unfold MUL64. rewrite !u64_sum4.
  specialize (IH (drop 32 k) (drop 32 d)). rewrite !native32_drop8 in IH. cbn [Nat.add] in IH. rewrite IH. unfold group, product, native32. cbn [Nat.add]. reflexivity.
Qed.

Lemma nh_aux_acc b kp dp hp dlen :
  nh_aux b kp dp hp dlen = map (fun s => nh_acc (dlen / 32) (4 * s) kp dp (word_at hp s)) (seq 0 (STREAMS b)).
Proof. unfold nh_aux. destruct b; [apply nh_loop16_acc|apply nh_loop8_acc]. Qed.

Lemma nh_acc_add a : forall c o k d h, nh_acc (a + c) o k d h = nh_acc c o (drop (32 * a) k) (drop (32 * a) d) (nh_acc a o k d h).
Proof.
  induction a as [|a IH]; intros c o k d h; [by rewrite !drop_0|]. cbn [nh_acc Nat.add]. rewrite IH, !drop_drop.
  by replace (32 + 32 * a)%nat with (32 * S a)%nat by lia.
Qed.

Lemma native32_app d e i : (4 * i + 4 <= length d)%nat -> native32 (d ++ e) i = native32 d i.
Proof.
  intros H. unfold native32. rewrite drop_app_le by lia. set (q := drop (4 * i) d).
  assert (Hq : (4 <= length q)%nat) by (unfold q; rewrite length_drop; lia). clearbody q.
  destruct q as [|x [|y [|z [|t q]]]]; try (cbn in Hq; lia). done.
Qed.

(** Only the groups matter. *)
Lemma nh_acc_app c : forall o k d e h, (32 * c <= length d)%nat -> nh_acc c o k (d ++ e) h = nh_acc c o k d h.
Proof.
  induction c as [|c IH]; intros o k d e h H; [done|]. cbn [nh_acc]. rewrite drop_app_le by lia.
  rewrite IH by (rewrite length_drop; lia). f_equal. do 2 f_equal. unfold group, product. by rewrite !native32_app by lia.
Qed.

Lemma u64_add_l x y : u64 (u64 x + y) = u64 (x + y).
Proof. unfold u64. apply Z.add_mod_idemp_l. lia. Qed.

(** The start value can be added at the end. *)
Lemma nh_acc_start c : forall o k d h, nh_acc (S c) o k d h = u64 (nh_acc (S c) o k d 0 + h).
Proof.
  induction c as [|c IH]; intros o k d h.
  - cbn [nh_acc]. rewrite u64_add_l. f_equal. lia.
  - change (nh_acc (S (S c)) o k d h) with (nh_acc (S c) o (drop 32 k) (drop 32 d) (u64 (h + group o k d))).
    change (nh_acc (S (S c)) o k d 0) with (nh_acc (S c) o (drop 32 k) (drop 32 d) (u64 (0 + group o k d))).
    rewrite IH, (IH o (drop 32 k) (drop 32 d) (u64 (0 + group o k d))). set (A := nh_acc _ _ _ _ 0).
    rewrite (u64_add_r A (h + group o k d)), (u64_add_r A (0 + group o k d)), u64_add_l. f_equal. lia.
Qed.

(** ** Contexts *)

Section nh.
Context (b : bool) (key : list Z).

(** One full buffer: the octets hashed so far and the state. *)
Definition nh_F (s : nat * list Z) (block : list Z) : nat * list Z :=
  ((s.1 + 64)%nat, nh_aux b (drop s.1 key) block s.2 64).

Definition nh_iv : nat * list Z := (0%nat, replicate (STREAMS b) 0).

Definition nh_taken (hc : nh_ctx) (c : list Z) : Prop :=
  nh_key hc = key /\ next_data_empty hc = (length c mod 64)%nat /\ length (nh_data hc) = 64%nat /\
  taken 64 nh_F nh_iv (bytes_hashed hc, nh_state hc) (nh_data hc) c.

Lemma length_nh_aux k d h n : length (nh_aux b k d h n) = STREAMS b.
Proof. by rewrite nh_aux_acc, length_map, length_seq. Qed.

Lemma nh_aux_none k d s : length s = STREAMS b -> nh_aux b k d s 0 = s.
Proof.
  intros Hs. rewrite nh_aux_acc. cbn [Nat.div Nat.divmod fst]. symmetry. apply list_eq_same_length with (STREAMS b);
    [by rewrite length_map, length_seq|done|]. intros i x y Hi Hx Hy. rewrite list_lookup_fmap, lookup_seq_lt in Hy by done.
  injection Hy as <-. unfold word_at. by rewrite Hx.
Qed.

(** Several buffers at once. *)
Lemma nh_aux_run n : forall o s d, length s = STREAMS b ->
  run 64 nh_F n (o, s) d = ((o + n * 64)%nat, nh_aux b (drop o key) d s (n * 64)).
Proof.
  induction n as [|n IH]; intros o s d Hs.
  - cbn [run]. rewrite Nat.mul_0_l, Nat.add_0_r. by rewrite nh_aux_none.
  - cbn [run]. unfold nh_F at 2. cbn [fst snd]. rewrite IH by apply length_nh_aux. f_equal; [lia|]. rewrite !nh_aux_acc.
    apply map_ext_in. intros i Hi. apply in_seq in Hi. unfold word_at at 1. rewrite list_lookup_fmap, lookup_seq_lt by lia. cbn [fmap option_fmap option_map default from_option id].
    replace (S n * 64 / 32)%nat with (2 + n * 64 / 32)%nat. 2:{ replace (S n * 64)%nat with (n * 64 + 2 * 32)%nat by lia. rewrite Nat.div_add by lia. lia. }
    rewrite nh_acc_add, !drop_drop. change (64 / 32)%nat with 2%nat.
    assert (E : forall h, nh_acc 2 (4 * i) (drop o key) (take 64 d) h = nh_acc 2 (4 * i) (drop o key) d h).
    { intros h. destruct (Nat.le_ge_cases 64 (length d)) as [Hd|Hd]; [|by rewrite take_ge by lia].
      rewrite <- (take_drop 64 d) at 2. symmetry. apply nh_acc_app. rewrite length_take. lia. }
    rewrite E. done.
Qed.

Lemma ldiff_mask (n : nat) k : Z.to_nat (Z.ldiff (Z.of_nat n) (Z.ones (Z.of_nat k))) = (n / 2 ^ k * 2 ^ k)%nat.
Proof.
  rewrite Z.ldiff_ones_r by lia. rewrite Z.shiftl_mul_pow2, Z.shiftr_div_pow2 by lia.
  apply Nat2Z.inj. rewrite Z2Nat.id by (apply Z.mul_nonneg_nonneg; [apply Z.div_pos|]; lia).
  by rewrite Nat2Z.inj_mul, Nat2Z.inj_div, Nat2Z.inj_pow.
Qed.

Lemma ldiff_63 (n : nat) : Z.to_nat (Z.ldiff (Z.of_nat n) 63) = (n / 64 * 64)%nat.
Proof. exact (ldiff_mask n 6). Qed.

Lemma taken_length_state hc c : nh_taken hc c -> length (nh_state hc) = STREAMS b.
Proof.
  intros (_ & _ & _ & Hs & _). unfold nh_iv in Hs. rewrite nh_aux_run in Hs by apply length_replicate. injection Hs as _ ->. apply length_nh_aux.
Qed.

(** The part of [nh_update] that hashes straight from the input, and the rest. *)
Lemma nh_rest_taken hc c d : nh_taken hc c -> (length c mod 64 = 0)%nat ->
  nh_taken (let '(hc, buf) := if (64 <=? length d)%nat then
              (add_hashed (nh_transform b hc d (Z.to_nat (Z.ldiff (Z.of_nat (length d)) 63))) (Z.to_nat (Z.ldiff (Z.of_nat (length d)) 63)),
               drop (Z.to_nat (Z.ldiff (Z.of_nat (length d)) 63)) d) else (hc, d) in
            set_data hc (splice (nh_data hc) 0 buf) (0 + length buf)) (c ++ d).
Proof.
  intros Ht Hm. pose proof (taken_length_state hc c Ht) as Hls. destruct Ht as (Hk & Hn & Hl & Ht). rewrite ldiff_63.
  set (n := (length d / 64)%nat). set (d1 := take (n * 64) d). set (d2 := drop (n * 64) d).
  pose proof (Nat.div_mod_eq (length d) 64) as Hdm. pose proof (Nat.mod_upper_bound (length d) 64 ltac:(lia)) as Hub. fold n in Hdm.
  assert (Ed : d = d1 ++ d2) by (unfold d1, d2; by rewrite take_drop).
  assert (Hd1 : length d1 = (n * 64)%nat) by (unfold d1; rewrite length_take; lia).
  assert (Hd2 : (length d2 < 64)%nat) by (unfold d2; rewrite length_drop; lia).
  destruct (taken_blocks 64 nh_F ltac:(lia) n _ _ _ _ d1 Ht Hm Hd1) as [Ht2 Hm2].
  assert (Er : run 64 nh_F n (bytes_hashed hc, nh_state hc) d1 = run 64 nh_F n (bytes_hashed hc, nh_state hc) d) by (rewrite Ed; symmetry; apply run_app; lia).
  rewrite Er, nh_aux_run in Ht2 by done.
  pose proof (taken_part 64 nh_F ltac:(lia) _ _ _ _ d2 Ht2) as Hp. rewrite Hm2 in Hp. specialize (Hp ltac:(lia)). rewrite <- app_assoc, <- Ed in Hp.
  assert (Hlen : length d2 = (length (c ++ d) mod 64)%nat).
  { rewrite length_app. apply (Nat.mod_unique _ 64 (length c / 64 + n)); [done|]. pose proof (Nat.div_mod_eq (length c) 64).
    unfold d2. rewrite length_drop. lia. }
  destruct (Nat.leb_spec 64 (length d)) as [Hle|Hle].
  - split_and!; [done|exact Hlen|cbn [nh_data set_data add_hashed nh_transform]; rewrite length_splice; lia|]. cbn [nh_data nh_state bytes_hashed set_data add_hashed nh_transform].
    rewrite Hk. exact Hp.
  - assert (En : n = 0%nat) by (apply Nat.div_small; lia). rewrite En in Hp. unfold d2 in *. rewrite En in *. rewrite drop_0 in *.
    split_and!; [done|exact Hlen|cbn [nh_data set_data add_hashed nh_transform]; rewrite length_splice; lia|]. cbn [nh_data nh_state bytes_hashed set_data].
    rewrite Nat.mul_0_l, Nat.add_0_r, nh_aux_none in Hp by done. exact Hp.
Qed.

Lemma nh_update_taken hc c d : nh_taken hc c -> nh_taken (nh_update b hc d) (c ++ d).
Proof.
  intros Ht. pose proof Ht as (Hk & Hn & Hl & Htk). unfold nh_update, HASH_BUF_BYTES. rewrite Hn.
  pose proof (Nat.mod_upper_bound (length c) 64 ltac:(lia)) as Hu. set (j := (length c mod 64)%nat) in *.
  destruct (Nat.leb_spec 64 (j + length d)) as [Hle|Hle].
  2:{ split_and!; [done| |cbn [nh_data set_data add_hashed nh_transform]; rewrite length_splice; lia|by apply taken_part; [lia|done|fold j; lia]].
      cbn [next_data_empty set_data]. rewrite length_app. apply (Nat.mod_unique _ 64 (length c / 64)); [lia|]. pose proof (Nat.div_mod_eq (length c) 64). fold j in H. lia. }
  destruct (Nat.eqb_spec j 0) as [Ej|Ej]; cbn [negb].
  - pose proof (nh_rest_taken hc c d Ht Ej) as H. destruct (64 <=? length d)%nat; exact H.
  - set (i := (64 - j)%nat). set (data := splice (nh_data hc) j (take i d)).
    assert (Hlb : length data = 64%nat) by (unfold data; rewrite length_splice; [lia|rewrite length_take; unfold i; lia]).
    assert (Eb : data = take j (nh_data hc) ++ take i d).
    { unfold data, splice. rewrite drop_ge by (rewrite length_take; unfold i; lia). by rewrite app_nil_r. }
    destruct (taken_block 64 nh_F ltac:(lia) _ _ _ c (take i d) data Htk) as [Ht1 Hm1];
      [rewrite length_take; fold j; unfold i; lia|lia|]. fold j in Ht1. rewrite <- Eb in Ht1.
    set (hc1 := add_hashed (nh_transform b (set_data hc data j) data 64) 64).
    assert (Hh : nh_taken (mk_nh (nh_key hc) data 0 (bytes_hashed hc1) (nh_state hc1)) (c ++ take i d)).
    { split_and!; [done|by rewrite Hm1|done|]. unfold hc1. cbn [nh_key nh_data nh_state bytes_hashed set_data add_hashed nh_transform]. rewrite Hk. exact Ht1. }
    pose proof (nh_rest_taken _ _ (drop i d) Hh Hm1) as H. rewrite <- app_assoc, take_drop in H.
    destruct (64 <=? length (drop i d))%nat; exact H.
Qed.

Lemma nh_taken_state hc c : nh_taken hc c ->
  bytes_hashed hc = (64 * (length c / 64))%nat /\
  nh_state hc = map (fun s => nh_acc (2 * (length c / 64)) (4 * s) key c 0) (seq 0 (STREAMS b)).
Proof.
  intros (_ & _ & _ & Hs & _). unfold nh_iv in Hs. rewrite nh_aux_run in Hs by apply length_replicate.
  pose proof (f_equal fst Hs) as H1. pose proof (f_equal snd Hs) as H2. cbn [fst snd] in H1, H2. split; [lia|].
  rewrite H2, nh_aux_acc. apply map_ext_in. intros i Hi. apply in_seq in Hi.
  replace (length c / 64 * 64 / 32)%nat with (2 * (length c / 64))%nat.
  2:{ replace (length c / 64 * 64)%nat with (2 * (length c / 64) * 32)%nat by lia. by rewrite Nat.div_mul by lia. }
  rewrite drop_0. f_equal. unfold word_at. by rewrite lookup_replicate_2 by lia.
Qed.

(** The hash of a stream, over the message and its zeros. *)
Definition nh_value (c : list Z) (s : nat) : Z :=
  u64 (nh_acc (length (zeropad c) / 32) (4 * s) key (zeropad c) 0 + 8 * Z.of_nat (length c)).

Lemma nh_reset_taken hc : nh_key hc = key -> length (nh_data hc) = 64%nat -> nh_taken (nh_reset b hc) [].
Proof. intros Hk Hl. split_and!; [done|done|done|]. apply taken_nil. cbn [nh_data nh_reset]. lia. Qed.

(** The last [r] groups, from the buffer with its zeros. *)
Lemma nh_last_groups c data q r s :
  (64 * q <= length c <= 64 * q + 32 * r)%nat -> (0 < r)%nat -> (32 * r <= 64)%nat ->
  take (length c - 64 * q) data = drop (64 * q) c -> length data = 64%nat ->
  nh_acc r (4 * s) (drop (64 * q) key) (zero_pad data (length c - 64 * q) (32 * r - (length c - 64 * q))) (nh_acc (2 * q) (4 * s) key c 0) =
  nh_acc (2 * q + r) (4 * s) key (c ++ replicate (64 * q + 32 * r - length c) 0) 0.
Proof.
  intros Hc Hr Hr2 Ht Hl. rewrite nh_acc_add, nh_acc_app by lia. replace (32 * (2 * q))%nat with (64 * q)%nat by lia.
  unfold zero_pad, splice. rewrite Ht, app_assoc, drop_app_le by lia.
  replace (32 * r - (length c - 64 * q))%nat with (64 * q + 32 * r - length c)%nat by lia.
  apply nh_acc_app. rewrite length_app, length_drop, length_replicate. lia.
Qed.

Lemma zeropad_is c q r : (0 < 2 * q + r)%nat -> (64 * q + 32 * r < length c + 32 \/ 2 * q + r = 1)%nat -> (length c <= 64 * q + 32 * r)%nat ->
  zeropad c = c ++ replicate (64 * q + 32 * r - length c) 0 /\ (length (zeropad c) / 32 = 2 * q + r)%nat.
Proof.
  intros H0 H1 H2. assert (E : Nat.max 1 ((length c + 31) / 32) = (2 * q + r)%nat).
  { destruct (Nat.eq_dec (2 * q + r) 1) as [E1|E1].
    - rewrite E1. assert ((length c + 31) / 32 <= 1)%nat by (apply Nat.lt_succ_r, Nat.Div0.div_lt_upper_bound; lia). lia.
    - assert (Eq : ((length c + 31) / 32 = 2 * q + r)%nat); [|lia].
      symmetry. apply (Nat.div_unique _ 32 _ (length c + 31 - 32 * (2 * q + r))); lia. }
  unfold zeropad. rewrite E. replace ((2 * q + r) * 32)%nat with (64 * q + 32 * r)%nat by lia. split; [done|].
  rewrite length_app, length_replicate. replace (length c + (64 * q + 32 * r - length c))%nat with ((2 * q + r) * 32)%nat by lia.
  apply Nat.div_mul. lia.
Qed.

Lemma ldiff_31 (n : nat) : Z.to_nat (Z.ldiff (Z.of_nat n + 31) 31) = (32 * ((n + 31) / 32))%nat.
Proof. replace (Z.of_nat n + 31) with (Z.of_nat (n + 31)) by lia. pose proof (ldiff_mask (n + 31) 5) as E. change (Z.ones (Z.of_nat 5)) with 31 in E. rewrite E. change (2 ^ 5)%nat with 32%nat. lia. Qed.

(** The new state when the last [r] groups come from the buffer. *)
Lemma nh_last_state hc c q r n : nh_taken hc c -> q = (length c / 64)%nat -> n = (length c - 64 * q)%nat ->
  (n <= 32 * r)%nat -> (0 < r)%nat -> (32 * r <= 64)%nat -> (32 * r < n + 32 \/ 2 * q + r = 1)%nat ->
  nh_state (nh_transform b (set_data hc (zero_pad (nh_data hc) n (32 * r - n)) n) (zero_pad (nh_data hc) n (32 * r - n)) (32 * r)) =
  map (fun s => nh_acc (length (zeropad c) / 32) (4 * s) key (zeropad c) 0) (seq 0 (STREAMS b)).
Proof.
  intros Ht Hq Hn H1 H2 H3 H4. destruct (nh_taken_state hc c Ht) as [Hb Hs]. destruct Ht as (Hk & Hne & Hl & _ & Htk & _).
  pose proof (Nat.div_mod_eq (length c) 64) as Hdm. rewrite <- Hq in Hdm.
  cbn [nh_state nh_transform set_data nh_key bytes_hashed]. rewrite nh_aux_acc, Hk, Hb, Hs, <- Hq.
  destruct (zeropad_is c q r) as [Ez El]; [lia|lia|lia|]. rewrite El, Ez. apply map_ext_in. intros s Hi. apply in_seq in Hi.
  unfold word_at. rewrite list_lookup_fmap, lookup_seq_lt by lia. cbn [fmap option_fmap option_map default from_option id Nat.add].
  replace (32 * r / 32)%nat with r by (rewrite Nat.mul_comm, Nat.div_mul; lia). subst n. apply nh_last_groups; [lia|done|done| |done].
  rewrite <- Hq in Htk. replace (length c - 64 * q)%nat with (length c mod 64)%nat by lia. rewrite Htk. f_equal. lia.
Qed.

Lemma nh_final_value hc c : nh_taken hc c ->
  (nh_final b hc).1 = map (nh_value c) (seq 0 (STREAMS b)) /\ nh_taken (nh_final b hc).2 [].
Proof.
  intros Ht. pose proof (nh_taken_state hc c Ht) as [Hb Hs]. pose proof Ht as (Hk & Hne & Hl & _).
  set (q := (length c / 64)%nat) in *. pose proof (Nat.div_mod_eq (length c) 64) as Hdm. fold q in Hdm.
  pose proof (Nat.mod_upper_bound (length c) 64 ltac:(lia)) as Hu. set (n := (length c mod 64)%nat) in *.
  assert (Hn : n = (length c - 64 * q)%nat) by lia.
  assert (HV : map (fun s => u64 (s + Z.shiftl (Z.of_nat (length c)) 3))
      (map (fun s => nh_acc (length (zeropad c) / 32) (4 * s) key (zeropad c) 0) (seq 0 (STREAMS b))) = map (nh_value c) (seq 0 (STREAMS b))).
  { rewrite map_map. apply map_ext. intros s. unfold nh_value. rewrite Z.shiftl_mul_pow2 by lia. f_equal. lia. }
  unfold nh_final. rewrite Hne. fold n. destruct (Nat.eqb_spec n 0) as [E0|E0]; cbn [negb].
  - destruct (Nat.eqb_spec (bytes_hashed hc) 0) as [Ez|Ez].
    + assert (Ec : length c = 0%nat) by lia. unfold L1_PAD_BOUNDARY.
      pose proof (nh_last_state hc c q 1 n Ht eq_refl Hn ltac:(lia) ltac:(lia) ltac:(lia) ltac:(lia)) as HS.
      rewrite E0 in *. change (32 * 1 - 0)%nat with 32%nat in HS. change (32 * 1)%nat with 32%nat in HS.
      set (hc1 := nh_transform b _ _ 32) in *. assert (Eb : bytes_hashed hc1 = length c) by (rewrite Ec; exact Ez).
      rewrite Eb, HS. split; [exact HV|]. apply (nh_reset_taken hc1); [done|]. cbn [hc1 nh_data nh_transform set_data]. unfold zero_pad.
      rewrite length_splice; [done|]. rewrite length_replicate. lia.
    + rewrite Hb. replace (64 * q)%nat with (length c) by lia. rewrite Hs. split; [|by apply nh_reset_taken].
      destruct (zeropad_is c q 0) as [Ep El]; [lia|lia|lia|]. rewrite Nat.add_0_r in El. rewrite <- HV. cbn [fst]. rewrite El, Ep.
      replace (64 * q + 32 * 0 - length c)%nat with 0%nat by lia. cbn [replicate]. by rewrite app_nil_r.
  - rewrite ldiff_31. set (r := ((n + 31) / 32)%nat). pose proof (Nat.div_mod_eq (n + 31) 32) as Hr. fold r in Hr.
    pose proof (Nat.mod_upper_bound (n + 31) 32 ltac:(lia)) as Hru.
    pose proof (nh_last_state hc c q r n Ht eq_refl Hn ltac:(lia) ltac:(lia) ltac:(lia) ltac:(lia)) as HS.
    set (hc1 := nh_transform b _ _ (32 * r)) in *. assert (Eb : bytes_hashed (add_hashed hc1 n) = length c)
      by (cbn [bytes_hashed add_hashed hc1 nh_transform set_data]; lia).
    rewrite Eb. cbn [nh_state add_hashed]. rewrite HS. split; [exact HV|]. apply nh_reset_taken; [done|].
    cbn [hc1 nh_data nh_transform set_data add_hashed]. unfold zero_pad. rewrite length_splice; [done|]. rewrite length_replicate. lia.
Qed.

(** The all-in-one hash of a full block agrees. *)
Lemma nh_full hc input : nh_key hc = key -> (1024 <= length input)%nat ->
  nh b hc input 1024 1024 = map (nh_value (take 1024 input)) (seq 0 (STREAMS b)).
Proof.
  intros Hk Hl. unfold nh. rewrite nh_aux_acc, Hk. apply map_ext_in. intros s Hs. apply in_seq in Hs.
  assert (Ht : length (take 1024 input) = 1024%nat) by (rewrite length_take; lia).
  destruct (zeropad_is (take 1024 input) 16 0) as [Ep El]; [lia|lia|lia|]. unfold nh_value. rewrite El, Ep, Ht.
  change (64 * 16 + 32 * 0 - 1024)%nat with 0%nat. cbn [replicate]. rewrite app_nil_r.
  unfold word_at. rewrite lookup_replicate_2 by lia. cbn [default from_option id].
  rewrite <- (take_drop 1024 input) at 1. change (1024 / 32)%nat with (2 * 16 + 0)%nat. rewrite nh_acc_app by lia.
  apply (nh_acc_start 31).
Qed.

End nh.

(** ** RFC 4418 *)

Lemma str2uint_drop K n o k : str2uint (drop n K) o k = str2uint K (n + o) k.
Proof. unfold str2uint. by rewrite drop_drop. Qed.

Lemma nh_acc_NH t : forall k d K o h, (forall i, (i < 8 * t)%nat -> native32 k (o + i) = str2uint K (4 * i) 4) -> whole 4 d ->
  nh_acc t o k d h = NH t K d h.
Proof.
  induction t as [|t IH]; intros k d K o h HK Hd; [done|]. cbn [nh_acc NH].
  rewrite (IH _ _ (drop 32 K)); [|intros i Hi|apply (whole_drop 4 d 8 Hd)].
  - f_equal. unfold u64. do 2 f_equal. unfold group, product, nh_word, u32.
    rewrite <- !Nat.add_assoc, !HK by lia. rewrite !native_swapped by done. by rewrite !(Z.add_comm (str2uint _ _ _)).
  - rewrite native32_drop8, str2uint_drop. replace (8 + (o + i))%nat with (o + (8 + i))%nat by lia. rewrite HK by lia. f_equal. lia.
Qed.

Lemma whole_zeropad c : bytes_ok c -> whole 4 (zeropad c) /\ length (zeropad c) = (32 * Nat.max 1 ((length c + 31) / 32))%nat.
Proof.
  intros Hc. assert (El : length (zeropad c) = (32 * Nat.max 1 ((length c + 31) / 32))%nat).
  { unfold zeropad. rewrite length_app, length_replicate. pose proof (Nat.div_mod_eq (length c + 31) 32).
    pose proof (Nat.mod_upper_bound (length c + 31) 32). lia. }
  split; [|done]. split; [unfold zeropad; rewrite bytes_ok_app; auto using bytes_ok_zeros|]. exists (8 * Nat.max 1 ((length c + 31) / 32))%nat. lia.
Qed.

(** A stream of the code is that of the standard, with the key of the stream. *)
Lemma nh_value_L1 raw n c s : whole 4 raw -> length raw = (4 * n)%nat -> bytes_ok c -> (length c <= 1024)%nat ->
  nh_value (endian_convert raw 4 (4 * n)) c s = L1_block (take 1024 (drop (16 * s) raw)) c.
Proof.
  intros Hw Hl Hc Hle. unfold nh_value, L1_block, u64. do 2 f_equal. destruct (whole_zeropad c Hc) as [Hz El].
  apply nh_acc_NH; [|done]. intros i Hi. unfold endian_convert. replace (4 * n / 4)%nat with n by (rewrite Nat.mul_comm, Nat.div_mul; lia).
  rewrite endian4_native by done. unfold str2uint.
  assert (Hi2 : (i < 256)%nat).
  { assert (E3 : (length (zeropad c) / 32 = Nat.max 1 ((length c + 31) / 32))%nat) by (rewrite El, Nat.mul_comm; apply Nat.div_mul; lia).
    rewrite E3 in Hi. assert ((length c + 31) / 32 <= 32)%nat by (apply Nat.lt_succ_r, Nat.Div0.div_lt_upper_bound; lia). lia. }
  rewrite skipn_firstn_comm, take_take, Nat.min_l, drop_drop by lia. do 3 f_equal. lia.
Qed.
