(* ===== verification/UmacPoly.v ===== *)
(** The second and third layers of UMAC: polynomial hashing modulo 2^64 - 59 in
    64-bit words, and the inner product modulo 2^36 - 5. *)

From stdpp Require Import base list numbers tactics.
From Stdlib Require Import ZArith Lia ZifyBool.
From S2P Require Import Prelude HashBlocks Rijndael Umac UmacSpec.

Lemma p64_eq : p64 = 2 ^ 64 - 59.
Proof. reflexivity. Qed.

(** An addition in 64 bits where a carry comes back as 59. *)
Definition add59 (res x : Z) : Z := let res := u64 (res + x) in if res <? x then u64 (res + 59) else res.

Lemma add59_spec res x : 0 <= res < 2 ^ 64 -> 0 <= x < 2 ^ 64 -> res + x < 2 ^ 65 - 59 ->
  0 <= add59 res x < 2 ^ 64 /\ exists k, res + x = add59 res x + k * p64.
Proof.
  intros Hr Hx Hs. unfold add59. rewrite p64_eq. destruct (Z.lt_ge_cases (res + x) (2 ^ 64)) as [Hl|Hl].
  - rewrite u64_id by lia. rewrite (proj2 (Z.ltb_ge _ _)) by lia. split; [lia|]. exists 0. lia.
  - assert (E : u64 (res + x) = res + x - 2 ^ 64).
    { unfold u64. rewrite <- (Z.mod_add _ (-1)), Z.mod_small by lia. lia. }
    rewrite E, (proj2 (Z.ltb_lt _ _)), u64_id by lia. split; [lia|]. exists 1. lia.
Qed.

(** The special domain of keys. *)
Definition poly_key_ok (key : Z) : Prop := exists hi lo, key = hi * 2 ^ 32 + lo /\ 0 <= hi < 2 ^ 25 /\ 0 <= lo < 2 ^ 25.

Lemma MUL64_small a b : 0 <= a < 2 ^ 32 -> 0 <= b < 2 ^ 32 -> MUL64 a b = a * b.
Proof. intros Ha Hb. unfold MUL64. rewrite !u32_id by done. apply u64_id. nia. Qed.

Lemma halves x : 0 <= x < 2 ^ 64 -> u32 (Z.shiftr x 32) = x / 2 ^ 32 /\ u32 x = x mod 2 ^ 32 /\ 0 <= x / 2 ^ 32 < 2 ^ 32.
Proof.
  intros Hx. assert (0 <= x / 2 ^ 32 < 2 ^ 32) by (split; [apply Z.div_pos; lia|apply Z.div_lt_upper_bound; lia]).
  rewrite Z.shiftr_div_pow2, u32_id by lia. done.
Qed.

(** No step of [poly64] but the two additions can overflow. *)
Lemma poly64_add59 cur hi lo data ch cl : 0 <= hi < 2 ^ 25 -> 0 <= lo < 2 ^ 25 -> cur = ch * 2 ^ 32 + cl -> 0 <= ch < 2 ^ 32 -> 0 <= cl < 2 ^ 32 ->
  let X := hi * cl + ch * lo in
  poly64 cur (hi * 2 ^ 32 + lo) data = add59 (add59 ((hi * ch + X / 2 ^ 32) * 59 + lo * cl) ((X mod 2 ^ 32) * 2 ^ 32)) data /\
  0 <= X < 2 ^ 58 /\ 0 <= hi * ch < 2 ^ 57 /\ 0 <= lo * cl < 2 ^ 57.
Proof.
  intros Hhi Hlo -> Hch Hcl X. assert (HX : 0 <= X < 2 ^ 58) by (unfold X; nia).
  assert (HA : 0 <= hi * ch < 2 ^ 57) by nia. assert (HB : 0 <= lo * cl < 2 ^ 57) by nia. split; [|done].
  assert (Hq : forall h l, 0 <= h < 2 ^ 32 -> 0 <= l < 2 ^ 32 -> u32 (Z.shiftr (h * 2 ^ 32 + l) 32) = h /\ u32 (h * 2 ^ 32 + l) = l).
  { intros h l Hh Hl. destruct (halves (h * 2 ^ 32 + l)) as (-> & -> & _); [lia|].
    split; [symmetry; apply (Z.div_unique _ _ h l); lia|symmetry; apply (Z.mod_unique _ _ h l); lia]. }
  unfold poly64. destruct (Hq ch cl Hch Hcl) as [-> ->]. destruct (Hq hi lo) as [-> ->]; [lia|lia|]. cbv zeta.
  rewrite !MUL64_small by lia. fold X. rewrite (u64_id X) by lia. destruct (halves X) as (-> & -> & HX2); [lia|].
  assert (HX3 : X / 2 ^ 32 < 2 ^ 26) by (apply Z.div_lt_upper_bound; lia).
  rewrite (u64_id (hi * ch + X / 2 ^ 32)) by lia. rewrite (u64_id ((hi * ch + X / 2 ^ 32) * 59)) by lia.
  rewrite (u64_id ((hi * ch + X / 2 ^ 32) * 59 + lo * cl)) by lia. rewrite Z.shiftl_mul_pow2 by lia.
  pose proof (Z.mod_pos_bound X (2 ^ 32) ltac:(lia)). rewrite (u64_id (X mod 2 ^ 32 * 2 ^ 32)) by lia. reflexivity.
Qed.

(** A step of the polynomial, on representatives that need not be reduced. *)
Lemma poly64_spec cur key data : 0 <= cur < 2 ^ 64 -> poly_key_ok key -> 0 <= data <= 2 ^ 64 - 60 ->
  0 <= poly64 cur key data < 2 ^ 64 /\ poly64 cur key data mod p64 = (key * cur + data) mod p64.
Proof.
  intros Hc (hi & lo & -> & Hhi & Hlo) Hd. destruct (halves cur Hc) as (_ & _ & Hch). set (ch := cur / 2 ^ 32) in *. set (cl := cur mod 2 ^ 32).
  assert (Hcl : 0 <= cl < 2 ^ 32) by (apply Z.mod_pos_bound; lia).
  assert (Ec : cur = ch * 2 ^ 32 + cl) by (unfold ch, cl; rewrite Z.mul_comm; apply Z.div_mod; lia).
  destruct (poly64_add59 cur hi lo data ch cl Hhi Hlo Ec Hch Hcl) as (E & HX & HA & HB). rewrite E. set (X := hi * cl + ch * lo) in *.
  pose proof (Z.div_mod X (2 ^ 32) ltac:(lia)) as HXd. pose proof (Z.mod_pos_bound X (2 ^ 32) ltac:(lia)) as HXm.
  assert (HX3 : 0 <= X / 2 ^ 32 < 2 ^ 26) by (split; [apply Z.div_pos; lia|apply Z.div_lt_upper_bound; lia]).
  destruct (add59_spec ((hi * ch + X / 2 ^ 32) * 59 + lo * cl) (X mod 2 ^ 32 * 2 ^ 32)) as [Hr1 [k1 E1]]; [lia|lia|lia|].
  set (r1 := add59 ((hi * ch + X / 2 ^ 32) * 59 + lo * cl) (X mod 2 ^ 32 * 2 ^ 32)) in *.
  destruct (add59_spec r1 data) as [Hr2 [k2 E2]]; [lia|lia|lia|]. split; [done|].
  rewrite <- (Z.mod_add (add59 r1 data) (k1 + k2 + (hi * ch + X / 2 ^ 32))) by (rewrite p64_eq; lia). f_equal.
  assert (EX : (hi * 2 ^ 32 + lo) * cur = hi * ch * 2 ^ 64 + X * 2 ^ 32 + lo * cl) by (rewrite Ec; unfold X; ring).
  rewrite EX. rewrite p64_eq in *. clearbody r1 X. nia.
Qed.

(** The step of POLY in RFC 4418. *)
Definition rfc_step (k y m : Z) : Z :=
  if m >=? 2 ^ 64 - 2 ^ 32
  then (k * ((k * y + (2 ^ 64 - 60)) mod (2 ^ 64 - 59)) + (m - 59)) mod (2 ^ 64 - 59)
  else (k * y + m) mod (2 ^ 64 - 59).

Lemma mul_add_mod k x y m : x mod p64 = y mod p64 -> (k * x + m) mod p64 = (k * y + m) mod p64.
Proof.
  intros H. assert (p64 <> 0) by (rewrite p64_eq; lia). rewrite <- (Z.add_mod_idemp_l (k * x)), <- (Z.mul_mod_idemp_r k x), H by done.
  by rewrite Z.mul_mod_idemp_r, Z.add_mod_idemp_l by done.
Qed.

Lemma top_word m : 0 <= m < 2 ^ 64 -> (u32 (Z.shiftr m 32) =? 0xffffffff) = (m >=? 2 ^ 64 - 2 ^ 32).
Proof.
  intros Hm. destruct (halves m Hm) as (-> & _ & Hh). pose proof (Z.div_mod m (2 ^ 32) ltac:(lia)) as Hd.
  pose proof (Z.mod_pos_bound m (2 ^ 32) ltac:(lia)) as Hb. set (q := m / 2 ^ 32) in *. clearbody q.
  destruct (Z.eqb_spec q 0xffffffff), (Z.geb_spec m (2 ^ 64 - 2 ^ 32)); try done; lia.
Qed.

Lemma poly_step_spec accum key y m : 0 <= accum < 2 ^ 64 -> poly_key_ok key -> 0 <= m < 2 ^ 64 -> accum mod p64 = y mod p64 ->
  0 <= poly_step accum key m < 2 ^ 64 /\ poly_step accum key m mod p64 = rfc_step key y m.
Proof.
  intros Ha Hk Hm Hy. unfold poly_step, rfc_step. rewrite top_word by done. rewrite <- p64_eq.
  destruct (Z.geb_spec m (2 ^ 64 - 2 ^ 32)) as [Hl|Hl].
  - destruct (poly64_spec accum key (p64 - 1) Ha Hk) as [H1 E1]; [rewrite p64_eq; lia|].
    rewrite u64_id by lia. destruct (poly64_spec _ key (m - 59) H1 Hk) as [H2 E2]; [lia|]. split; [done|]. rewrite E2.
    apply mul_add_mod. rewrite E1, Z.mod_mod by (rewrite p64_eq; lia).
    change (2 ^ 64 - 60) with (p64 - 1). by apply mul_add_mod.
  - destruct (poly64_spec accum key m Ha Hk) as [H1 E1]; [lia|]. split; [done|]. rewrite E1. by apply mul_add_mod.
Qed.

Lemma rfc_step_mod k y m : rfc_step k y m mod p64 = rfc_step k y m.
Proof. unfold rfc_step. rewrite <- p64_eq. destruct (_ >=? _); apply Z.mod_mod; rewrite p64_eq; lia. Qed.

(** All words of a stream. *)
Lemma poly_fold_spec key words : poly_key_ok key -> Forall (fun m => 0 <= m < 2 ^ 64) words -> forall accum y,
  0 <= accum < 2 ^ 64 -> accum mod p64 = y mod p64 ->
  let r := fold_left (fun a m => poly_step a key m) words accum in
  0 <= r < 2 ^ 64 /\ r mod p64 = fold_left (rfc_step key) words y mod p64.
Proof.
  intros Hk. induction words as [|m words IH]; intros Hw accum y Ha Hy; [done|]. apply Forall_cons_1 in Hw as [Hm Hw].
  destruct (poly_step_spec accum key y m Ha Hk Hm Hy) as [H1 E1]. cbn [fold_left]. apply IH; [done|done|]. by rewrite E1, rfc_step_mod.
Qed.

Lemma POLY_fold k words : POLY k words = fold_left (rfc_step k) words 1.
Proof. reflexivity. Qed.

(** The reduced accumulator is the value of the polynomial. *)
Lemma poly_reduced key words : poly_key_ok key -> Forall (fun m => 0 <= m < 2 ^ 64) words ->
  let a := fold_left (fun a m => poly_step a key m) words 1 in
  (if a >=? p64 then a - p64 else a) = POLY key words /\ 0 <= POLY key words < p64.
Proof.
  intros Hk Hw. destruct (poly_fold_spec key words Hk Hw 1 1 ltac:(lia) eq_refl) as [Hr E]. cbv zeta in *. set (a := fold_left _ words 1) in *.
  assert (Hp : POLY key words mod p64 = POLY key words).
  { rewrite POLY_fold. destruct words as [|m words _] using rev_ind; [done|]. rewrite fold_left_app. cbn [fold_left]. apply rfc_step_mod. }
  rewrite <- POLY_fold, Hp in E. split; [|rewrite <- Hp; apply Z.mod_pos_bound; rewrite p64_eq; lia].
  rewrite <- E. rewrite p64_eq in *. destruct (Z.geb_spec a (2 ^ 64 - 59)); [apply (Z.mod_unique a _ 1); lia|by rewrite Z.mod_small by lia].
Qed.

(** ** The inner product *)

Lemma ip_reduce_spec t : 0 <= t < 2 ^ 54 -> ip_reduce_p36 t = (t mod (2 ^ 36 - 5)) mod 2 ^ 32.
Proof.
  intros Ht. unfold ip_reduce_p36. change m36 with (Z.ones 36). change p36 with (2 ^ 36 - 5). rewrite Z.land_ones, Z.shiftr_div_pow2 by lia.
  pose proof (Z.div_mod t (2 ^ 36) ltac:(lia)) as Hd. pose proof (Z.mod_pos_bound t (2 ^ 36) ltac:(lia)) as Hm.
  assert (Hq : 0 <= t / 2 ^ 36 < 2 ^ 18) by (split; [apply Z.div_pos; lia|apply Z.div_lt_upper_bound; lia]).
  set (q := t / 2 ^ 36) in *. set (r := t mod 2 ^ 36) in *. rewrite (u64_id (5 * q)), u64_id by lia. unfold u32. f_equal.
  destruct (Z.geb_spec (r + 5 * q) (2 ^ 36 - 5)); [apply (Z.mod_unique _ _ (q + 1)); lia|apply (Z.mod_unique _ _ q); lia].
Qed.

Lemma ip_aux_spec ks data : Forall (fun k => 0 <= k < 2 ^ 36) ks -> 
  let m i := (data / 2 ^ (48 - 16 * i)) mod 2 ^ 16 in
  let k := word_at ks in
  ip_aux 0 ks data = k 0%nat * m 0 + k 1%nat * m 1 + k 2%nat * m 2 + k 3%nat * m 3 /\ 0 <= ip_aux 0 ks data < 2 ^ 54.
Proof.
  intros Hk m k. assert (HK : forall i, 0 <= k i < 2 ^ 36).
  { intros i. unfold k, word_at. destruct (ks !! i) as [x|] eqn:E; cbn; [|lia]. by apply (Forall_lookup_1 _ _ _ _ Hk E). }
  assert (HM : forall i, 0 <= m i < 2 ^ 16) by (intros i; apply Z.mod_pos_bound; lia).
  assert (HP : forall i j, 0 <= k i * m j < 2 ^ 52) by (intros i j; specialize (HK i); specialize (HM j); nia).
  assert (E : ip_aux 0 ks data = u64 (u64 (u64 (u64 (0 + u64 (k 0%nat * m 0)) + u64 (k 1%nat * m 1)) + u64 (k 2%nat * m 2)) + u64 (k 3%nat * m 3))).
  { unfold ip_aux, m, u16. rewrite !Z.shiftr_div_pow2 by lia. by rewrite Z.div_1_r. }
  pose proof (HP 0%nat 0). pose proof (HP 1%nat 1). pose proof (HP 2%nat 2). pose proof (HP 3%nat 3).
  rewrite E. set (a := k 0%nat * m 0) in *. set (b := k 1%nat * m 1) in *. set (c := k 2%nat * m 2) in *. set (d := k 3%nat * m 3) in *.
  clearbody a b c d.
  rewrite (u64_id a), (u64_id b), (u64_id c), (u64_id d) by lia. rewrite (u64_id (0 + a)) by lia. rewrite (u64_id (0 + a + b)) by lia.
  rewrite (u64_id (0 + a + b + c)) by lia. rewrite u64_id by lia. lia.
Qed.

Lemma two_octets x : 256 * (256 * 0 + (x / 256) mod 256) + x mod 256 = x mod 2 ^ 16.
Proof. change (2 ^ 16) with (256 * 256). rewrite Z.rem_mul_r by lia. lia. Qed.

Lemma be_bytes8_pieces v j : (j < 4)%nat -> str2uint (replicate 8 0 ++ be_bytes 8 v) (2 * (4 + j)) 2 = (v / 2 ^ (48 - 16 * Z.of_nat j)) mod 2 ^ 16.
Proof.
  intros Hj. rewrite <- two_octets, Z.div_div by lia. change 256 with (2 ^ 8) at 3. rewrite <- Z.pow_add_r by lia.
  destruct j as [|[|[|[|]]]]; try lia; reflexivity.
Qed.

Lemma be_bytes16_small v : 0 <= v < 2 ^ 64 -> be_bytes 16 v = replicate 8 0 ++ be_bytes 8 v.
Proof.
  intros Hv. change (be_bytes 16 v) with (map (fun n => (v / 2 ^ (8 * Z.of_nat n)) mod 256) [15; 14; 13; 12; 11; 10; 9; 8]%nat ++ be_bytes 8 v).
  cbn [map]. by rewrite !Z.div_small by (cbn; lia).
Qed.

Lemma L3_ip ks K1 K2 v t :
  (forall j, (j < 4)%nat -> word_at ks j = str2uint K1 (8 * (4 + j)) 8 mod (2 ^ 36 - 5)) -> Forall (fun k => 0 <= k < 2 ^ 36) ks ->
  length K2 = 4%nat -> bytes_ok K2 -> t = be_value 0 K2 ->
  put_u32 (Z.lxor (ip_reduce_p36 (ip_aux 0 ks v)) t) = L3_HASH K1 K2 (replicate 8 0 ++ be_bytes 8 v).
Proof.
  intros Hk Hr Hl Hb ->. destruct (ip_aux_spec ks v Hr) as [E H54]. rewrite ip_reduce_spec by done. rewrite E. unfold L3_HASH.
  set (B := replicate 8 0 ++ be_bytes 8 v). cbn [seq fold_left].
  assert (Hz : forall i, (i < 4)%nat -> str2uint B (2 * i) 2 = 0) by (intros i Hi; destruct i as [|[|[|[|]]]]; try lia; reflexivity).
  pose proof (Hz 0%nat ltac:(lia)) as Z0. pose proof (Hz 1%nat ltac:(lia)) as Z1. pose proof (Hz 2%nat ltac:(lia)) as Z2. pose proof (Hz 3%nat ltac:(lia)) as Z3.
  pose proof (be_bytes8_pieces v 0 ltac:(lia)) as P0. pose proof (be_bytes8_pieces v 1 ltac:(lia)) as P1.
  pose proof (be_bytes8_pieces v 2 ltac:(lia)) as P2. pose proof (be_bytes8_pieces v 3 ltac:(lia)) as P3. fold B in P0, P1, P2, P3.
  cbn [Nat.add] in P0, P1, P2, P3. rewrite Z0, Z1, Z2, Z3, P0, P1, P2, P3. rewrite !Hk by lia. cbn [Nat.add].
  set (y := (_ mod (2 ^ 36 - 5)) mod 2 ^ 32). set (y' := (_ mod (2 ^ 36 - 5)) mod 2 ^ 32).
  assert (Ey : y' = y) by (unfold y, y'; do 2 f_equal; cbn [Z.of_nat Pos.of_succ_nat Pos.succ]; lia). rewrite Ey.
  change (put_u32 (Z.lxor y (be_value 0 K2))) with (PUTU32 (Z.lxor y (be_value 0 K2))). rewrite PUTU32_lxor.
  assert (Ep : forall x, PUTU32 x = be_bytes 4 x).
  { intros x. unfold PUTU32, u8. cbn [be_bytes]. rewrite !Z.shiftr_div_pow2 by lia. change (2 ^ (8 * Z.of_nat 0)) with 1. by rewrite Z.div_1_r. }
  rewrite !Ep. f_equal. rewrite <- Hl. by apply be_bytes_be_value.
Qed.
