(* ===== verification/UmacUhash.v ===== *)
(** The hash of UMAC over messages in pieces: what a context has taken in, and
    what it hands to the last layer. *)

From stdpp Require Import base list numbers tactics.
From Stdlib Require Import ZArith Lia ZifyBool.
From S2P Require Import Prelude HashBlocks Rijndael Umac UmacSpec UmacNh UmacPoly.

Section uhash.
Context (b : bool) (key pkeys : list Z).

(** ** The streams *)

(** The accumulators after one block. *)
Definition acc_step (acc c : list Z) : list Z :=
  map (fun i => poly_step (word_at acc i) (word_at pkeys i) (nh_value key c i)) (seq 0 (STREAMS b)).

(** The accumulators after [q] full blocks of [m]. *)
Fixpoint accs (q : nat) (m : list Z) : list Z :=
  match q with
  | O => replicate (STREAMS b) 1
  | S q => acc_step (accs q m) (take 1024 (drop (1024 * q) m))
  end.

Lemma accs_app q m d : (1024 * q <= length m)%nat -> accs q (m ++ d) = accs q m.
Proof.
  induction q as [|q IH]; intros H; [done|]. cbn [accs]. rewrite IH by lia. rewrite drop_app_le, take_app_le; [done| |lia].
  rewrite length_drop. lia.
Qed.

(** Blocks that have left NH: the first 1024 octets stay there until more come. *)
Definition done_blocks (m : list Z) : nat := if (length m <=? 1024)%nat then 0 else (length m / 1024)%nat.

(** [q] blocks are in the accumulators and [c] is in NH. *)
Definition uh_parts (ctx : uhash_ctx) (q : nat) (m c : list Z) : Prop :=
  poly_key_8 ctx = pkeys /\ poly_accum ctx = accs q m /\ nh_taken b key (hash ctx) c.

Definition uh_taken (ctx : uhash_ctx) (m : list Z) : Prop := uh_parts ctx (done_blocks m) m (drop (1024 * done_blocks m) m).

Lemma poly_hash_parts ctx q m c0 c h : uh_parts ctx q m c0 -> nh_taken b key h [] -> (length m = 1024 * q)%nat -> length c = 1024%nat ->
  uh_parts (poly_hash b (set_hash ctx h) (map (nh_value key c) (seq 0 (STREAMS b)))) (S q) (m ++ c) [].
Proof.
  intros (Hp & Ha & _) Hh Hm Hc. split_and!; [done| |done]. cbn [poly_accum poly_hash set_hash]. cbn [accs].
  rewrite accs_app by lia. rewrite drop_app_le, drop_ge by lia. cbn [app]. rewrite take_ge by lia. rewrite Ha.
  unfold acc_step. apply map_ext_in. intros i Hi. apply in_seq in Hi. cbn [poly_key_8 poly_accum set_hash]. rewrite Hp. f_equal.
  unfold word_at at 1. by rewrite list_lookup_fmap, lookup_seq_lt by lia.
Qed.

(** [msg_len] does not matter to the parts. *)
Lemma uh_parts_len ctx n q m c : uh_parts ctx q m c -> uh_parts (add_len ctx n) q m c.
Proof. done. Qed.

Lemma u32_len x y n : u32 (u32 (x + y) + n) = u32 (x + (y + n)).
Proof. unfold u32. rewrite Z.add_mod_idemp_l by lia. f_equal. lia. Qed.

(** Full blocks straight from the input. *)
Lemma uhash_blocks_parts : forall fuel ctx q m d, uh_parts ctx q m [] -> (length m = 1024 * q)%nat -> (length d <= fuel)%nat -> 0 <= msg_len ctx < 2 ^ 32 ->
  exists n, let r := uhash_blocks b fuel ctx d in
    uh_parts r.1 (q + n) (m ++ take (1024 * n) d) [] /\ r.2 = drop (1024 * n) d /\ (1024 * n <= length d < 1024 * n + 1024)%nat /\
    msg_len r.1 = u32 (msg_len ctx + 1024 * Z.of_nat n).
Proof.
  intros fuel. induction fuel as [|fuel IH]; intros ctx q m d Hp Hm Hf Hl; cbn [uhash_blocks]; unfold L1_KEY_LEN.
  - exists 0%nat. cbv zeta. cbn [fst snd]. change (1024 * Z.of_nat 0) with 0. rewrite Nat.mul_0_r, Nat.add_0_r, take_0, app_nil_r, drop_0, Z.add_0_r, u32_id by done. split_and!; [done|done|lia|lia|done].
  - destruct (Nat.leb_spec 1024 (length d)) as [Hle|Hle].
    2:{ exists 0%nat. cbv zeta. cbn [fst snd]. change (1024 * Z.of_nat 0) with 0. rewrite Nat.mul_0_r, Nat.add_0_r, take_0, app_nil_r, drop_0, Z.add_0_r, u32_id by done. split_and!; [done|done|lia|lia|done]. }
    pose proof Hp as (Hpk & Hacc & Hh). rewrite (nh_full b key) by (done || apply Hh).
    assert (Hd1 : length (take 1024 d) = 1024%nat) by (rewrite length_take; lia).
    set (ctx1 := poly_hash b (add_len ctx 1024) _).
    assert (Hp1 : uh_parts ctx1 (S q) (m ++ take 1024 d) []) by (apply (poly_hash_parts (add_len ctx 1024) q m [] (take 1024 d) (hash ctx)); assumption).
    destruct (IH ctx1 (S q) (m ++ take 1024 d) (drop 1024 d) Hp1) as (n & Hr1 & Hr2 & Hr3 & Hr4);
      [rewrite length_app; lia|rewrite length_drop; lia|apply Z.mod_pos_bound; lia|].
    exists (S n). cbv zeta in *. rewrite length_drop in Hr3. replace (q + S n)%nat with (S q + n)%nat by lia.
    replace (1024 * S n)%nat with (1024 + 1024 * n)%nat by lia.
    split_and!; [|by rewrite Hr2, drop_drop|lia|lia|].
    + rewrite <- app_assoc in Hr1. rewrite take_take_drop in Hr1. exact Hr1.
    + rewrite Hr4. change (msg_len ctx1) with (u32 (msg_len ctx + Z.of_nat 1024)). rewrite u32_len. f_equal. lia.
Qed.

Lemma done_blocks_spec m : (1024 * done_blocks m <= length m)%nat /\ (length m <= 1024 * done_blocks m + 1024)%nat /\
  length (drop (1024 * done_blocks m) m) = (if (length m =? 1024)%nat then 1024 else length m mod 1024)%nat.
Proof.
  unfold done_blocks. rewrite length_drop. pose proof (Nat.div_mod_eq (length m) 1024) as Hd. pose proof (Nat.mod_upper_bound (length m) 1024 ltac:(lia)) as Hb.
  set (q := (length m / 1024)%nat) in *. set (r := (length m mod 1024)%nat) in *.
  destruct (Nat.leb_spec (length m) 1024), (Nat.eqb_spec (length m) 1024); lia.
Qed.

(** The rest of the input goes to NH. *)
Lemma uhash_tail ctx q m d c : uh_parts ctx q m c -> 
  let ctx' := if negb (length d =? 0)%nat then add_len (set_hash ctx (nh_update b (hash ctx) d)) (length d) else ctx in
  uh_parts ctx' q m (c ++ d) /\ (0 <= msg_len ctx < 2 ^ 32 -> msg_len ctx' = u32 (msg_len ctx + Z.of_nat (length d))).
Proof.
  intros (Hp & Ha & Hh). cbv zeta. destruct (Nat.eqb_spec (length d) 0) as [E|E]; cbn [negb].
  - apply nil_length_inv in E as ->. rewrite app_nil_r. split; [done|]. intros Hl. cbn [length]. by rewrite Z.add_0_r, u32_id.
  - split; [|done]. split_and!; [done|done|]. by apply nh_update_taken.
Qed.

(** The block that was begun is filled and leaves NH; then full blocks. *)
Lemma uhash_fill ctx m d : uh_taken ctx m -> msg_len ctx = Z.of_nat (length m) -> 0 <= msg_len ctx < 2 ^ 32 ->
  let bh := (if (length m =? 1024)%nat then 1024 else length m mod 1024)%nat in
  (1024 <= bh + length d)%nat ->
  let r :=
    (let '(ctx, input) :=
      if negb (bh =? 0)%nat then
        let '(nh_result, h) := nh_final b (nh_update b (hash ctx) (take (1024 - bh) d)) in
        (poly_hash b (add_len (set_hash ctx h) (1024 - bh)) nh_result, drop (1024 - bh) d)
      else (ctx, d) in
    uhash_blocks b (length input) ctx input) in
  exists q d1, d = d1 ++ r.2 /\ uh_parts r.1 q (m ++ d1) [] /\ length (m ++ d1) = (1024 * q)%nat /\ (length r.2 < 1024)%nat /\
    msg_len r.1 = u32 (Z.of_nat (length (m ++ d1))).
Proof.
  intros Ht El Hl bh Hd r. destruct (done_blocks_spec m) as (B1 & B2 & B3). fold bh in B3. unfold uh_taken in Ht.
  set (q0 := done_blocks m) in *. set (c := drop (1024 * q0) m) in *.
  assert (Hlc0 : length c = (length m - 1024 * q0)%nat) by (unfold c; by rewrite length_drop).
  destruct (Nat.eqb_spec bh 0) as [E0|E0]; cbn [negb] in r.
  - assert (Ec : c = []) by (apply nil_length_inv; lia). rewrite Ec in Ht.
    destruct (uhash_blocks_parts (length d) ctx q0 m d Ht) as (n & H1 & H2 & H3 & H4); [lia|lia|done|].
    exists (q0 + n)%nat, (take (1024 * n) d). fold r in H1, H2, H3, H4. rewrite H2, take_drop, length_drop, length_app, length_take.
    split_and!; [done|done|lia|lia|]. rewrite H4, El. f_equal. lia.
  - set (d0 := take (1024 - bh) d) in *. assert (Hd0 : length d0 = (1024 - bh)%nat).
    { unfold d0. rewrite length_take. assert (bh <= 1024)%nat; [|lia]. unfold bh. destruct (_ =? _)%nat; [lia|].
      pose proof (Nat.mod_upper_bound (length m) 1024 ltac:(lia)). lia. }
    destruct Ht as (Hp & Ha & Hh). pose proof (nh_update_taken b key (hash ctx) c d0 Hh) as Hu.
    destruct (nh_final_value b key _ _ Hu) as [Hv Hn]. destruct (nh_final b _) as [res h] eqn:Ef. cbn [fst snd] in Hv, Hn.
    assert (Em : m ++ d0 = take (1024 * q0) m ++ (c ++ d0)) by (unfold c; by rewrite app_assoc, take_drop).
    assert (Hlc : length (c ++ d0) = 1024%nat) by (rewrite length_app; lia).
    assert (Hacc : accs q0 (take (1024 * q0) m) = accs q0 m).
    { rewrite <- (take_drop (1024 * q0) m) at 2. symmetry. apply accs_app. rewrite length_take. lia. }
    set (ctx1 := poly_hash b (add_len (set_hash ctx h) (1024 - bh)) res) in r.
    assert (Hp1 : uh_parts ctx1 (S q0) (m ++ d0) []).
    { rewrite Em. unfold ctx1. rewrite Hv.
      apply (poly_hash_parts (add_len ctx (1024 - bh)) q0 (take (1024 * q0) m) c (c ++ d0) h); [|done|rewrite length_take; lia|done].
      split_and!; [done| |done]. by rewrite Hacc. }
    assert (Hlm : length (m ++ d0) = (1024 * S q0)%nat) by (rewrite Em, length_app, Hlc, length_take; lia).
    assert (Hl1 : msg_len ctx1 = u32 (Z.of_nat (length (m ++ d0)))).
    { change (msg_len ctx1) with (u32 (msg_len ctx + Z.of_nat (1024 - bh))). rewrite El, length_app, Hd0. f_equal. lia. }
    destruct (uhash_blocks_parts (length (drop (1024 - bh) d)) ctx1 (S q0) (m ++ d0) (drop (1024 - bh) d) Hp1 Hlm (le_n _)) as (n & H1 & H2 & H3 & H4);
      [rewrite Hl1; apply Z.mod_pos_bound; lia|].
    exists (S q0 + n)%nat, (d0 ++ take (1024 * n) (drop (1024 - bh) d)). fold r in H1, H2, H3, H4. rewrite H2, <- app_assoc, take_drop.
    rewrite <- app_assoc in H1. rewrite app_assoc. rewrite app_assoc in H1.
    split_and!; [by unfold d0; rewrite take_drop|done|rewrite length_app, Hlm, length_take; lia|rewrite length_drop; lia|].
    rewrite H4, Hl1. rewrite (length_app (m ++ d0)), length_take, Nat.min_l by lia. unfold u32. rewrite Z.add_mod_idemp_l by lia. f_equal. lia.
Qed.

Lemma uhash_update_taken ctx m d : uh_taken ctx m -> msg_len ctx = Z.of_nat (length m) -> 0 <= msg_len ctx < 2 ^ 32 ->
  uh_taken (uhash_update b ctx d) (m ++ d) /\ msg_len (uhash_update b ctx d) = u32 (Z.of_nat (length (m ++ d))).
Proof.
  intros Ht El Hl. unfold uhash_update, L1_KEY_LEN. rewrite El.
  destruct (Z.leb_spec (Z.of_nat (length m) + Z.of_nat (length d)) (Z.of_nat 1024)) as [Hs|Hs].
  - split; [|cbn [msg_len add_len set_hash]; rewrite El, length_app; f_equal; lia].
    assert (Hz : forall x, (length x <= 1024)%nat -> done_blocks x = 0%nat) by (intros x Hx; unfold done_blocks; by rewrite (proj2 (Nat.leb_le _ _))).
    unfold uh_taken in *. rewrite Hz in * by (rewrite ?length_app; lia). rewrite Nat.mul_0_r, drop_0 in *.
    destruct Ht as (Hp & Ha & Hh). split_and!; [exact Hp|exact Ha|]. by apply nh_update_taken.
  - set (bh := (if (length m =? 1024)%nat then 1024 else length m mod 1024)%nat).
    assert (Eb : (if Z.of_nat (length m) =? Z.of_nat 1024 then 1024%nat else Z.to_nat (Z.of_nat (length m) mod Z.of_nat 1024)) = bh).
    { unfold bh. rewrite <- Nat2Z.inj_mod, Nat2Z.id. destruct (Z.eqb_spec (Z.of_nat (length m)) (Z.of_nat 1024)), (Nat.eqb_spec (length m) 1024); lia. }
    rewrite Eb. assert (HD : forall q r, (r < 1024)%nat -> length (m ++ d) = (1024 * q + r)%nat -> done_blocks (m ++ d) = q).
    { intros q r Hr E. unfold done_blocks. rewrite (proj2 (Nat.leb_gt _ _)) by (rewrite length_app; lia).
      symmetry. apply (Nat.div_unique _ 1024 q r); lia. }
    destruct (Nat.leb_spec 1024 (bh + length d)) as [Hf|Hf].
    + destruct (uhash_fill ctx m d Ht El Hl Hf) as (q & d1 & Ed & Hp & Hlm & Hr & Hml). fold bh in Ed, Hp, Hr, Hml.
      set (x := let '(_, _) := _ in _) in Ed, Hp, Hr, Hml.
      match goal with |- context [let '(_, _) := ?y in if _ then _ else _] => change y with x end.
      destruct x as [ctx1 rest]. cbn [fst snd] in *.
      destruct (uhash_tail ctx1 q (m ++ d1) rest [] Hp) as [Hp2 Hl2]. specialize (Hl2 ltac:(rewrite Hml; apply Z.mod_pos_bound; lia)).
      cbv zeta in Hp2, Hl2. set (ctx2 := if negb (length rest =? 0)%nat then _ else _) in *. cbn [app] in Hp2.
      assert (Edd : m ++ d = (m ++ d1) ++ rest) by (by rewrite Ed at 1; rewrite app_assoc).
      assert (Hdb : done_blocks (m ++ d) = q) by (apply (HD q (length rest)); [done|rewrite Edd, length_app; lia]).
      split.
      * unfold uh_taken. rewrite Hdb, Edd, drop_app_le, drop_ge by lia. cbn [app]. destruct Hp2 as (Hp3 & Ha & Hh). split_and!; [done| |done].
        rewrite accs_app by lia. done.
      * rewrite Hl2, Hml, Edd, (length_app (m ++ d1)). unfold u32. rewrite Z.add_mod_idemp_l by lia. f_equal. lia.
    + destruct (done_blocks_spec m) as (B1 & B2 & B3). fold bh in B3. 
      assert (Hm : (1024 < length m)%nat) by (unfold bh in Hf; destruct (Nat.eqb_spec (length m) 1024); [lia|];
        destruct (Nat.lt_ge_cases (length m) 1024) as [Hlt|]; [rewrite Nat.mod_small in Hf by lia; lia|lia]).
      destruct (uhash_tail ctx (done_blocks m) m d _ Ht) as [Hp2 Hl2]. specialize (Hl2 Hl). cbv zeta in Hp2, Hl2.
      set (ctx2 := if negb (length d =? 0)%nat then _ else _) in *.
      assert (Hdb : done_blocks (m ++ d) = done_blocks m) by (apply (HD _ (bh + length d)%nat); [lia|rewrite length_app; rewrite length_drop in B3; lia]).
      split; [|rewrite Hl2, El, length_app; f_equal; lia]. unfold uh_taken. rewrite Hdb, drop_app_le by lia.
      destruct Hp2 as (Hp & Ha & Hh). split_and!; [done| |done]. rewrite accs_app by lia. done.
Qed.

(** ** The end of a message *)

(** All blocks, the last one perhaps shorter. *)
Definition accs_all (m : list Z) : list Z :=
  let q := (length m / 1024)%nat in
  if (length m mod 1024 =? 0)%nat then accs q m else acc_step (accs q m) (drop (1024 * q) m).

Definition reduced (a : Z) : Z := if a >=? p64 then a - p64 else a.

(** What goes to the last layer; the length is taken modulo 2^32. *)
Definition uh_value (m : list Z) (i : nat) : Z :=
  if u32 (Z.of_nat (length m)) >? 1024 then reduced (word_at (accs_all m) i) else nh_value key (drop (1024 * done_blocks m) m) i.

Lemma u32_mod_1024 n : (u32 (Z.of_nat n) mod Z.of_nat 1024 =? 0) = (n mod 1024 =? 0)%nat.
Proof.
  unfold u32. change (Z.of_nat 1024) with 1024. rewrite Z.mod_mod_divide by (by exists (2 ^ 22)).
  assert (E : Z.of_nat n mod 1024 = Z.of_nat (n mod 1024)) by (by rewrite Nat2Z.inj_mod). rewrite E.
  destruct (Z.eqb_spec (Z.of_nat (n mod 1024)) 0), (Nat.eqb_spec (n mod 1024) 0); lia.
Qed.

Lemma uhash_final_value ctx m : uh_taken ctx m -> msg_len ctx = u32 (Z.of_nat (length m)) ->
  (uhash_final b ctx).1 = concat (map (fun i => ip_out ctx i (uh_value m i)) (seq 0 (STREAMS b))) /\
  uh_taken (uhash_final b ctx).2 [] /\ msg_len (uhash_final b ctx).2 = 0 /\
  ip_keys (uhash_final b ctx).2 = ip_keys ctx /\ ip_trans (uhash_final b ctx).2 = ip_trans ctx.
Proof.
  intros Ht El. unfold uhash_final, L1_KEY_LEN. rewrite El, u32_mod_1024.
  pose proof Ht as (Hp & Ha & Hh). destruct (nh_final_value b key _ _ Hh) as [Hv Hn]. unfold uh_value.
  change (Z.of_nat 1024) with 1024. destruct (Z.gtb_spec (u32 (Z.of_nat (length m))) 1024) as [Hl|Hl].
  - assert (Hm : (1024 < length m)%nat) by (pose proof (Z.mod_le (Z.of_nat (length m)) (2 ^ 32) ltac:(lia) ltac:(lia)); unfold u32 in Hl; lia).
    assert (Hq : done_blocks m = (length m / 1024)%nat) by (unfold done_blocks; by rewrite (proj2 (Nat.leb_gt _ _))).
    rewrite Hq in *. set (q := (length m / 1024)%nat) in *.
    set (ctx1 := if negb _ then _ else _). assert (H1 : poly_accum ctx1 = accs_all m /\ (exists c, nh_taken b key (hash ctx1) c /\ poly_key_8 ctx1 = pkeys) /\ ip_keys ctx1 = ip_keys ctx /\ ip_trans ctx1 = ip_trans ctx).
    { unfold ctx1, accs_all. fold q. destruct (length m mod 1024 =? 0)%nat; cbn [negb]; [split_and!; [done|by eexists|done|done]|].
      destruct (nh_final b (hash ctx)) as [res h]. cbn [fst snd] in Hv, Hn. split_and!; [|by eexists|done|done].
      cbn [poly_accum poly_hash set_hash poly_key_8]. unfold acc_step. apply map_ext_in. intros i Hi. apply in_seq in Hi. rewrite Ha, Hp, Hv. f_equal.
      unfold word_at. by rewrite list_lookup_fmap, lookup_seq_lt by lia. }
    clearbody ctx1. destruct H1 as (Hacc & (c & Hc2) & Hik & Hit).
    unfold ip_long. cbn [fst snd]. split_and!; [|split_and!; [apply Hc2|done|apply nh_reset_taken; apply Hc2]|done|done|done].
    f_equal. apply map_ext_in. intros i Hi. apply in_seq in Hi. unfold ip_out. rewrite Hik, Hit. do 4 f_equal.
    unfold word_at at 1. rewrite list_lookup_fmap, lookup_seq_lt by lia. cbn. by rewrite Hacc.
  - destruct (nh_final b (hash ctx)) as [res h]. cbn [fst snd] in *. split_and!; [|split_and!; [done|done|apply nh_reset_taken; apply Hn]|done|done|done].
    unfold ip_short. f_equal. apply map_ext_in. intros i Hi. apply in_seq in Hi. unfold ip_out. cbn [ip_keys ip_trans set_hash]. do 4 f_equal.
    rewrite Hv. unfold word_at. by rewrite list_lookup_fmap, lookup_seq_lt by lia.
Qed.

End uhash.
