(* ===== verification/UmacThms.v ===== *)
(** UMAC: the keys of a context and its tags are those of RFC 4418, and umac.c
    discharges what mac.c relies on. *)

From stdpp Require Import base list numbers tactics.
From Stdlib Require Import ZArith Lia ZifyBool.
From S2P Require Import Prelude HashBlocks Rijndael Umac UmacSpec UmacNh UmacPoly UmacUhash.

(** ** Parts of derived keys *)

Lemma str2uint_take s n o k : (o + k <= n)%nat -> str2uint (take n s) o k = str2uint s o k.
Proof. intros H. unfold str2uint. rewrite skipn_firstn_comm, take_take, Nat.min_l by lia. done. Qed.

(** Pieces of the same length, one after the other. *)
Lemma drop_pieces (f : nat -> list Z) L n : (forall i, (i < n)%nat -> length (f i) = L) -> forall i o k, (i < n)%nat -> (o + k <= L)%nat ->
  take k (drop (L * i + o) (concat (map f (seq 0 n)))) = take k (drop o (f i)).
Proof.
  intros Hf i o k Hi Hok. assert (H : forall a, (a <= n)%nat -> length (concat (map f (seq 0 a))) = (L * a)%nat).
  { induction a as [|a IH]; intros Ha; [cbn; lia|]. rewrite seq_S, map_app, concat_app, length_app, IH by lia. cbn. rewrite app_nil_r, Hf by lia. lia. }
  replace n with (i + S (n - i - 1))%nat by lia. rewrite seq_app, map_app, concat_app. cbn [seq map concat Nat.add].
  rewrite drop_app_ge by (rewrite H; lia). rewrite H by lia. replace (L * i + o - L * i)%nat with o by lia.
  rewrite drop_app_le by (rewrite Hf; lia). rewrite take_app_le by (rewrite length_drop, Hf; lia). done.
Qed.

Lemma length_pieces (f : nat -> list Z) L n : (forall i, (i < n)%nat -> length (f i) = L) -> length (concat (map f (seq 0 n))) = (L * n)%nat.
Proof.
  induction n as [|n IH]; intros Hf; [cbn; lia|]. rewrite seq_S, map_app, concat_app, length_app, IH by (intros i Hi; apply Hf; lia).
  cbn. rewrite app_nil_r, Hf by lia. lia.
Qed.

(** The mask of polynomial keys. *)
Lemma poly_mask_ok x : 0 <= x -> poly_key_ok (Z.land x 0x01ffffff01ffffff).
Proof.
  intros Hx. exists (Z.land (Z.shiftr x 32) (Z.ones 25)), (Z.land x (Z.ones 25)).
  assert (HB : forall y, 0 <= Z.land y (Z.ones 25) < 2 ^ 25) by (intros y; rewrite Z.land_ones by lia; apply Z.mod_pos_bound; lia).
  split; [|split; apply HB]. rewrite <- lor_shiftl_add by (lia || (pose proof (HB x); lia)).
  change 0x01ffffff01ffffff with (Z.lor (Z.shiftl (Z.ones 25) 32) (Z.ones 25)). rewrite Z.land_lor_distr_r. f_equal.
  rewrite Z.shiftl_land. apply Z.bits_inj'. intros n Hn. rewrite !Z.land_spec. destruct (Z.lt_ge_cases n 32) as [Hl|Hl].
  - by rewrite !(Z.shiftl_spec_low _ 32 n), !andb_false_r by lia.
  - rewrite (Z.shiftl_spec (Z.shiftr x 32)), Z.shiftr_spec by lia. do 2 f_equal. lia.
Qed.

Section keys.
Context (b : bool) (K : list Z).

#[local] Abbreviation E := code_encipher.
#[local] Abbreviation NS := (STREAMS b).
#[local] Abbreviation ctx0 := (uhash_init b (aes_key_setup K)).

Lemma code_length K' x : length (E K' x) = 16%nat.
Proof. apply length_aes. Qed.

Lemma code_bytes K' x : bytes_ok (E K' x).
Proof. apply bytes_ok_aes. Qed.

Lemma streams_cases : NS = 2%nat \/ NS = 4%nat.
Proof. by destruct b; [right|left]. Qed.

Lemma KDF_part idx N M o n : (o + n <= M)%nat -> (M <= N)%nat -> take n (drop o (KDF E K idx N)) = take n (drop o (KDF E K idx M)).
Proof.
  intros H1 H2. rewrite <- (take_KDF E code_length K idx M N) by done. rewrite skipn_firstn_comm, take_take, Nat.min_l by lia. done.
Qed.

Lemma init_nh_key : nh_key (hash ctx0) = endian_convert (KDF E K 1 (nh_key_len b)) 4 (nh_key_len b).
Proof.
  cbn [hash uhash_init nh_init nh_reset nh_key]. rewrite kdf_spec; [done|lia|]. unfold nh_key_len, L1_KEY_LEN, L1_KEY_SHIFT. destruct streams_cases as [->| ->]; lia.
Qed.

Lemma init_poly_key i : (i < NS)%nat -> word_at (poly_key_8 ctx0) i = Z.land (str2uint (take 24 (drop (24 * i) (KDF E K 2 (24 * NS)))) 0 8) 0x01ffffff01ffffff.
Proof.
  intros Hi. cbn [poly_key_8 uhash_init]. unfold word_at. rewrite list_lookup_fmap, lookup_seq_lt by done. cbn [fmap option_fmap option_map default from_option id Nat.add].
  rewrite kdf_spec; [|lia|destruct streams_cases as [->| ->]; lia]. change (Z.shiftl 0x01ffffff 32 + 0x01ffffff) with 0x01ffffff01ffffff. f_equal.
  assert (Hl : length (take 8 (drop (24 * i) (KDF E K 2 ((8 * NS + 4) * 8)))) = 8%nat).
  { rewrite length_take, length_drop, length_KDF by apply code_length. lia. }
  unfold endian_convert. change (8 / 8)%nat with 1%nat. rewrite (endian8_native 1).
  2:{ split; [apply bytes_ok_take, bytes_ok_drop, bytes_ok_KDF, code_bytes|by exists 1%nat]. } 2:{ done. }
  unfold str2uint. rewrite Nat.mul_0_r, !drop_0, !take_take. change (8 `min` 24)%nat with 8%nat. change (8 `min` 8)%nat with 8%nat.
  f_equal. apply KDF_part; lia.
Qed.

Lemma init_ip_key i j : (i < NS)%nat -> (j < 4)%nat ->
  word_at (drop (4 * i) (ip_keys ctx0)) j = str2uint (take 64 (drop (64 * i) (KDF E K 3 (64 * NS)))) (8 * (4 + j)) 8 mod (2 ^ 36 - 5).
Proof.
  intros Hi Hj. cbn [ip_keys uhash_init]. unfold word_at. rewrite lookup_drop, list_lookup_fmap, lookup_seq_lt by lia.
  cbn [fmap option_fmap option_map default from_option id Nat.add]. change p36 with (2 ^ 36 - 5). f_equal.
  rewrite kdf_spec; [|lia|destruct streams_cases as [->| ->]; lia]. set (buf := KDF E K 3 ((8 * NS + 4) * 8)).
  set (f := fun i => take 32 (drop ((8 * i + 4) * 8) buf)).
  assert (Hbl : length buf = ((8 * NS + 4) * 8)%nat) by (apply length_KDF, code_length).
  assert (Hf : forall i, (i < NS)%nat -> length (f i) = 32%nat) by (intros k Hk; unfold f; rewrite length_take, length_drop; lia).
  pose proof (length_pieces f 32 NS Hf) as Hl. assert (Hb : bytes_ok (concat (map f (seq 0 NS)))).
  { assert (Hc : forall l, bytes_ok (concat (map f l))); [|apply Hc]. induction l as [|k l IH]; [done|]. cbn [map concat]. rewrite bytes_ok_app. split; [|done].
    apply bytes_ok_take, bytes_ok_drop, bytes_ok_KDF, code_bytes. }
  unfold endian_convert. replace (NS * 4 * 8 / 8)%nat with (NS * 4)%nat by (by rewrite Nat.div_mul). rewrite endian8_native.
  2:{ split; [done|]. exists (4 * NS)%nat. lia. } 2:{ lia. }
  unfold str2uint. replace (8 * (4 * i + j))%nat with (32 * i + 8 * j)%nat by lia. rewrite (drop_pieces f 32 NS Hf) by lia.
  unfold f. rewrite !skipn_firstn_comm, !take_take, !drop_drop, !Nat.min_l by lia. f_equal.
  replace ((8 * i + 4) * 8 + 8 * j)%nat with (64 * i + 8 * (4 + j))%nat by lia. apply KDF_part; lia.
Qed.

Lemma init_ip_trans i : (i < NS)%nat -> word_at (ip_trans ctx0) i = be_value 0 (take 4 (drop (4 * i) (KDF E K 4 (4 * NS)))).
Proof.
  intros Hi. cbn [ip_trans uhash_init]. unfold word_at. rewrite list_lookup_fmap, lookup_seq_lt by done. cbn [fmap option_fmap option_map default from_option id Nat.add].
  rewrite kdf_spec; [|lia|destruct streams_cases as [->| ->]; lia]. rewrite (Nat.mul_comm NS 4). unfold endian_convert.
  replace (4 * NS / 4)%nat with NS by (by rewrite Nat.mul_comm, Nat.div_mul). pose proof (length_KDF E code_length K 4 (4 * NS)) as Hl.
  rewrite endian4_native; [done| |done]. split; [apply bytes_ok_KDF, code_bytes|by exists NS].
Qed.

Lemma init_ip_range i : Forall (fun k => 0 <= k < 2 ^ 36) (drop i (ip_keys ctx0)).
Proof.
  apply Forall_drop. cbn [ip_keys uhash_init]. apply Forall_map, Forall_true. intros j. 
  pose proof (Z.mod_pos_bound (native64 (endian_convert (concat (map (fun i => take 32 (drop ((8 * i + 4) * 8) (kdf (aes_key_setup K) 3 ((8 * NS + 4) * 8)))) (seq 0 NS))) 8 (NS * 4 * 8)) j) p36 ltac:(done)).
  change p36 with (2 ^ 36 - 5) in *. lia.
Qed.

(** ** A stream *)

#[local] Abbreviation raw := (KDF E K 1 (1024 + 16 * (NS - 1))).
#[local] Abbreviation key := (nh_key (hash ctx0)).
#[local] Abbreviation pkeys := (poly_key_8 ctx0).

Lemma nh_value_stream c i : bytes_ok c -> (length c <= 1024)%nat -> nh_value key c i = L1_block (take 1024 (drop (16 * i) raw)) c.
Proof.
  intros Hb Hl. rewrite init_nh_key. unfold nh_key_len, L1_KEY_LEN, L1_KEY_SHIFT.
  replace (1024 + 16 * (NS - 1))%nat with (4 * (256 + 4 * (NS - 1)))%nat by lia. apply nh_value_L1; [|apply length_KDF, code_length|done|done].
  split; [apply bytes_ok_KDF, code_bytes|]. eexists. apply length_KDF, code_length.
Qed.

Lemma word_at_acc_step acc c i : (i < NS)%nat -> word_at (acc_step b key pkeys acc c) i = poly_step (word_at acc i) (word_at pkeys i) (nh_value key c i).
Proof. intros Hi. unfold acc_step. unfold word_at at 1. by rewrite list_lookup_fmap, lookup_seq_lt by done. Qed.

Lemma word_at_accs q m i : (i < NS)%nat -> word_at (accs b key pkeys q m) i =
  fold_left (fun a c => poly_step a (word_at pkeys i) (nh_value key c i)) (map (fun k => take 1024 (drop (1024 * k) m)) (seq 0 q)) 1.
Proof.
  intros Hi. induction q as [|q IH]; [cbn [accs seq map fold_left]; unfold word_at; by rewrite lookup_replicate_2 by done|].
  cbn [accs]. rewrite word_at_acc_step by done. rewrite seq_S, map_app, fold_left_app. cbn [map fold_left Nat.add]. by rewrite IH.
Qed.

Lemma blocks_of_length (m : list Z) q : q = (length m / 1024)%nat -> (0 < length m)%nat ->
  Nat.max 1 ((length m + 1023) / 1024) = (if (length m mod 1024 =? 0)%nat then q else q + 1)%nat.
Proof.
  intros -> Hm. pose proof (Nat.div_mod_eq (length m) 1024) as Hd. pose proof (Nat.mod_upper_bound (length m) 1024 ltac:(lia)) as Hb.
  set (q := (length m / 1024)%nat) in *. set (r := (length m mod 1024)%nat) in *. destruct (Nat.eqb_spec r 0) as [E0|E0].
  - assert (Eq : ((length m + 1023) / 1024 = q)%nat) by (symmetry; apply (Nat.div_unique _ 1024 q 1023); lia). lia.
  - assert (Eq : ((length m + 1023) / 1024 = q + 1)%nat) by (symmetry; apply (Nat.div_unique _ 1024 (q + 1) (r - 1)); lia). lia.
Qed.

Lemma accs_all_stream m i : (i < NS)%nat -> bytes_ok m -> (1024 < length m)%nat ->
  word_at (accs_all b key pkeys m) i =
  fold_left (fun a v => poly_step a (word_at pkeys i) v) (L1_HASH (take 1024 (drop (16 * i) raw)) m) 1.
Proof.
  intros Hi Hb Hm. unfold L1_HASH. rewrite (blocks_of_length m _ eq_refl) by lia. set (q := (length m / 1024)%nat).
  set (LK := take 1024 (drop (16 * i) raw)). pose proof (Nat.div_mod_eq (length m) 1024) as Hd.
  pose proof (Nat.mod_upper_bound (length m) 1024 ltac:(lia)) as Hbd. fold q in Hd.
  assert (HF : forall l a, Forall (fun c => bytes_ok c /\ (length c <= 1024)%nat) l ->
    fold_left (fun a c => poly_step a (word_at pkeys i) (nh_value key c i)) l a = fold_left (fun a v => poly_step a (word_at pkeys i) v) (map (L1_block LK) l) a).
  { induction l as [|c l IH]; intros a Hl; [done|]. apply Forall_cons_1 in Hl as [[H1 H2] Hl]. cbn [fold_left map]. rewrite nh_value_stream by done. by apply IH. }
  assert (HC : forall n, Forall (fun c => bytes_ok c /\ (length c <= 1024)%nat) (map (fun k => take 1024 (drop (1024 * k) m)) (seq 0 n))).
  { intros n. apply Forall_map, Forall_true. intros k. split; [by apply bytes_ok_take, bytes_ok_drop|]. rewrite length_take. lia. }
  rewrite <- (map_map (fun k => take 1024 (drop (1024 * k) m)) (L1_block LK)), <- HF by apply HC.
  unfold accs_all. fold q. destruct (length m mod 1024 =? 0)%nat; [by apply word_at_accs|].
  rewrite word_at_acc_step, word_at_accs by done. rewrite Nat.add_1_r, seq_S, map_app, fold_left_app. cbn [map fold_left Nat.add].
  do 2 f_equal. rewrite take_ge; [done|]. rewrite length_drop. lia.
Qed.

Lemma L1_range LK m : Forall (fun v => 0 <= v < 2 ^ 64) (L1_HASH LK m).
Proof. unfold L1_HASH. apply Forall_map, Forall_true. intros k. apply Z.mod_pos_bound. lia. Qed.

(** The last layer, on the value of a stream. *)
Lemma ip_out_L3 v i : (i < NS)%nat -> ip_out ctx0 i v =
  L3_HASH (take 64 (drop (64 * i) (KDF E K 3 (64 * NS)))) (take 4 (drop (4 * i) (KDF E K 4 (4 * NS)))) (replicate 8 0 ++ be_bytes 8 v).
Proof.
  intros Hi. unfold ip_out. apply L3_ip; [intros j Hj; by apply init_ip_key|apply init_ip_range| | |by apply init_ip_trans].
  - rewrite length_take, length_drop, length_KDF by apply code_length. lia.
  - apply bytes_ok_take, bytes_ok_drop, bytes_ok_KDF, code_bytes.
Qed.

Lemma stream_rfc m i : (i < NS)%nat -> bytes_ok m -> Z.of_nat (length m) < 2 ^ 32 ->
  ip_out ctx0 i (uh_value b key pkeys m i) = UHASH_stream E K m NS i.
Proof.
  intros Hi Hb Hl. rewrite ip_out_L3 by done. unfold UHASH_stream. cbv zeta. f_equal. unfold uh_value. rewrite u32_id by lia.
  destruct (Nat.leb_spec (length m) 1024) as [Hs|Hs].
  - destruct (Z.gtb_spec (Z.of_nat (length m)) 1024) as [|_]; [lia|]. do 2 f_equal.
    assert (Hz : done_blocks m = 0%nat) by (unfold done_blocks; by rewrite (proj2 (Nat.leb_le _ _))). rewrite Hz, Nat.mul_0_r, drop_0.
    rewrite nh_value_stream by done. unfold L1_HASH.
    assert (E1 : ((length m + 1023) / 1024 <= 1)%nat) by (apply Nat.lt_succ_r, Nat.Div0.div_lt_upper_bound; lia).
    replace (Nat.max 1 ((length m + 1023) / 1024)) with 1%nat by lia. cbn [seq map hd]. rewrite Nat.mul_0_r, drop_0, (take_ge m) by lia. done.
  - destruct (Z.gtb_spec (Z.of_nat (length m)) 1024) as [_|]; [|lia]. rewrite accs_all_stream by done. unfold L2_HASH.
    rewrite <- init_poly_key by done. set (LK := take 1024 (drop (16 * i) raw)).
    assert (Hk : poly_key_ok (word_at pkeys i)).
    { rewrite init_poly_key by done. apply poly_mask_ok. apply be_value_range. apply bytes_ok_take, bytes_ok_drop, bytes_ok_take, bytes_ok_drop, bytes_ok_KDF, code_bytes. }
    destruct (poly_reduced (word_at pkeys i) (L1_HASH LK m) Hk (L1_range LK m)) as [Er Hr]. cbv zeta in Er. unfold reduced. rewrite Er.
    symmetry. apply be_bytes16_small. rewrite p64_eq in Hr. lia.
Qed.

Lemma uhash_rfc m : bytes_ok m -> Z.of_nat (length m) < 2 ^ 32 ->
  concat (map (fun i => ip_out ctx0 i (uh_value b key pkeys m i)) (seq 0 NS)) = UHASH E K m (UMAC_OUTPUT_LEN b).
Proof.
  intros Hb Hl. unfold UHASH. change (UMAC_OUTPUT_LEN b / 4)%nat with NS. f_equal. apply map_ext_in. intros i Hi. apply in_seq in Hi.
  apply stream_rfc; [lia|done|done].
Qed.

End keys.
