(* ===== verification/UmacImpl.v ===== *)
(** Messages one after the other with the same UMAC context, and umac.c as an
    implementation of the interface [Umac] of mac.c. *)

From stdpp Require Import base list numbers tactics.
From Stdlib Require Import ZArith Lia ZifyBool.
From S2P Require Import Prelude HashBlocks Rijndael Umac UmacSpec UmacNh UmacPoly UmacUhash UmacThms.

(** ** The pad *)

Section umac.
Context (b : bool) (K : list Z).

Definition pad_key : list Z := aes_key_setup (kdf (aes_key_setup K) 0 UMAC_KEY_LEN).

Definition pad_nonce (nonce : list Z) : list Z :=
  take 4 nonce ++ (take 3 (drop 4 nonce) ++ [Z.ldiff (byte_at nonce 7) (LOW_BIT_MASK b)]) ++ replicate 8 0.

Definition pad (nonce : list Z) : list Z :=
  let c := aes_encryption (pad_nonce nonce) pad_key in
  if b then c else take 8 (drop (8 * Z.to_nat (Z.land (byte_at nonce 7) (LOW_BIT_MASK b))) c).

(** The block in the cache is that of the nonce. *)
Definition pdf_ok (pc : pdf_ctx) : Prop :=
  prf_key pc = pad_key /\ length (pnonce pc) = 16%nat /\ drop 8 (pnonce pc) = replicate 8 0 /\ cache pc = aes_encryption (pnonce pc) pad_key.

Lemma pdf_init_ok : pdf_ok (pdf_init (aes_key_setup K)).
Proof. done. Qed.

Lemma pdf_gen_pad pc nonce buf : pdf_ok pc -> length nonce = 8%nat ->
  (pdf_gen_xor b pc nonce buf).2 = zip_with Z.lxor buf (pad nonce) /\ pdf_ok (pdf_gen_xor b pc nonce buf).1.
Proof.
  intros (Hk & Hl & Hz & Hc) Hn. unfold pdf_gen_xor, pad. set (lo := take 3 (drop 4 nonce) ++ _).
  assert (Hlo : length lo = 4%nat) by (unfold lo; rewrite length_app, length_take, length_drop; cbn [length]; lia).
  assert (H4 : length (take 4 nonce) = 4%nat) by (rewrite length_take; lia).
  set (pc1 := if negb _ || negb _ then _ else _). assert (H1 : prf_key pc1 = pad_key /\ pnonce pc1 = pad_nonce nonce /\ cache pc1 = aes_encryption (pad_nonce nonce) pad_key).
  { unfold pc1, pad_nonce. fold lo. destruct (bool_decide_reflect (lo = take 4 (drop 4 (pnonce pc)))) as [E1|E1];
      [destruct (bool_decide_reflect (take 4 nonce = take 4 (pnonce pc))) as [E2|E2]|]; cbn [negb orb].
    1:{ assert (En : take 4 nonce ++ lo ++ replicate 8 0 = pnonce pc).
        { rewrite E1, E2, <- Hz. change (drop 8 (pnonce pc)) with (drop (4 + 4) (pnonce pc)). by rewrite <- drop_drop, !take_drop. }
        rewrite En. split; [exact Hk|]. split; [reflexivity|exact Hc]. }
    all: assert (En : splice (splice (pnonce pc) 0 (take 4 nonce)) 4 lo = take 4 nonce ++ lo ++ replicate 8 0)
      by (unfold splice; rewrite take_0, H4, Hlo; cbn [app Nat.add]; rewrite take_app_length', drop_app_ge, H4, drop_drop by lia; cbn [Nat.add Nat.sub]; by rewrite Hz).
    all: cbn [prf_key pnonce cache]; rewrite En, Hk; split; [reflexivity|split; reflexivity]. }
  clearbody pc1. destruct H1 as (E1 & E2 & E3). cbn [fst snd]. rewrite E3. split; [done|]. split_and!; [done| | |by rewrite E2, E3].
  - rewrite E2. unfold pad_nonce. fold lo. rewrite !length_app, H4, Hlo, length_replicate. done.
  - rewrite E2. unfold pad_nonce. fold lo. rewrite app_assoc, drop_app_ge by (rewrite length_app; lia). by rewrite length_app, H4, Hlo.
Qed.

(** ** Contexts *)

#[local] Abbreviation ctx0 := (uhash_init b (aes_key_setup K)).
#[local] Abbreviation key := (nh_key (hash ctx0)).
#[local] Abbreviation pkeys := (poly_key_8 ctx0).

Definition same_ip (c : uhash_ctx) : Prop := ip_keys c = ip_keys ctx0 /\ ip_trans c = ip_trans ctx0.

(** A context that has taken in [m] of the message. *)
Definition umac_taken (x : umac_context) (m : list Z) : Prop :=
  uh_taken b key pkeys (uhash x) m /\ same_ip (uhash x) /\ msg_len (uhash x) = u32 (Z.of_nat (length m)) /\ pdf_ok (pdf x).

Lemma umac_new_taken : umac_taken (umac_new b K) [].
Proof.
  split; [|split; [done|split; [done|apply pdf_init_ok]]]. unfold uh_taken. split_and!; [done|done|]. apply nh_reset_taken; [done|]. apply length_replicate.
Qed.

Lemma blocks_ip : forall fuel c d, same_ip c -> same_ip (uhash_blocks b fuel c d).1.
Proof. intros fuel. induction fuel as [|fuel IH]; intros c d H; cbn [uhash_blocks]; [done|]. case_match; [|done]. by apply IH. Qed.

Lemma update_ip c d : same_ip c -> same_ip (uhash_update b c d).
Proof.
  intros H. unfold uhash_update. destruct (_ <=? _); [done|]. set (bh := if msg_len c =? _ then _ else _). clearbody bh.
  set (y := if (L1_KEY_LEN <=? _)%nat then _ else _). assert (Hy : same_ip y.1).
  { unfold y. destruct (_ <=? _)%nat; [|done]. destruct (negb _); [|by apply blocks_ip]. destruct (nh_final b _) as [res h]. by apply blocks_ip. }
  clearbody y. destruct y as [c1 d1]. cbn [fst] in Hy. destruct (negb _); done.
Qed.

Lemma umac_update_taken x m d : umac_taken x m -> Z.of_nat (length m) < 2 ^ 32 -> umac_taken (umac_update b x d) (m ++ d).
Proof.
  intros (Ht & Hi & Hl & Hp) Hm. rewrite u32_id in Hl by lia. destruct (uhash_update_taken b key pkeys (uhash x) m d Ht Hl) as [Ht2 Hl2]; [lia|].
  split; [exact Ht2|]. split; [by apply update_ip|]. split; [exact Hl2|done].
Qed.

(** The tag of a message of any length. *)
Definition umac_fn (nonce m : list Z) : list Z :=
  zip_with Z.lxor (concat (map (fun i => ip_out ctx0 i (uh_value b key pkeys m i)) (seq 0 (STREAMS b)))) (pad nonce).

Lemma umac_final_taken x m nonce : umac_taken x m -> length nonce = 8%nat ->
  (umac_final b x nonce).1 = umac_fn nonce m /\ umac_taken (umac_final b x nonce).2 [].
Proof.
  intros (Ht & [Hi1 Hi2] & Hl & Hp) Hn. unfold umac_final.
  destruct (uhash_final_value b key pkeys (uhash x) m Ht Hl) as (E1 & E2 & E3 & E4 & E5). destruct (uhash_final b (uhash x)) as [tag h]. cbn [fst snd] in *.
  destruct (pdf_gen_pad (pdf x) nonce tag Hp Hn) as [F1 F2]. destruct (pdf_gen_xor b (pdf x) nonce tag) as [p t]. cbn [fst snd] in *.
  split.
  - rewrite F1, E1. unfold umac_fn. apply (f_equal (fun l => zip_with Z.lxor (concat l) (pad nonce))). apply map_ext. intros i. unfold ip_out. by rewrite Hi1, Hi2.
  - split; [exact E2|]. split; [split; [exact (eq_trans E4 Hi1)|exact (eq_trans E5 Hi2)]|]. split; [exact E3|exact F2].
Qed.

End umac.

(** ** RFC 4418 with AES *)

Lemma code_is_aes K block : length K = 16%nat -> bytes_ok K -> length block = 16%nat -> bytes_ok block -> code_encipher K block = AES K block.
Proof.
  intros Hl Hb Hl2 Hb2. unfold code_encipher, aes_encryption, aes_key_setup, AES_ROUNDS, UMAC_KEY_LEN.
  destruct (rijndaelKeySetupEnc_spec K Hb (or_introl Hl)) as [E W]. rewrite Hl in E, W. change (Z.of_nat 16 * 8) with (8 * Z.of_nat 16). rewrite E. cbn [snd].
  rewrite rijndaelEncrypt_spec by (done || lia). unfold AES. by rewrite Hl.
Qed.

Lemma be_block idx i : length (be_bytes 8 idx ++ be_bytes 8 i) = 16%nat /\ bytes_ok (be_bytes 8 idx ++ be_bytes 8 i).
Proof. split; [by rewrite length_app, !length_be_bytes|]. rewrite bytes_ok_app. auto using bytes_ok_be_bytes. Qed.

Lemma KDF_aes K idx n : length K = 16%nat -> bytes_ok K -> KDF code_encipher K idx n = KDF AES K idx n.
Proof. intros Hl Hb. unfold KDF. apply (f_equal (fun l => take n (concat l))). apply map_ext. intros i. by apply code_is_aes; [| |apply be_block..]. Qed.

Lemma UHASH_aes K m n : length K = 16%nat -> bytes_ok K -> UHASH code_encipher K m n = UHASH AES K m n.
Proof. intros Hl Hb. unfold UHASH. apply (f_equal (@concat Z)). apply map_ext. intros i. unfold UHASH_stream. by rewrite !KDF_aes. Qed.

Lemma clear_low y : Z.ldiff y 1 = y - y mod 2 /\ Z.lxor y (y mod 2) = y - y mod 2.
Proof.
  assert (E1 : y mod 2 = Z.land y 1) by (change 1 with (Z.ones 1); by rewrite Z.land_ones by lia). rewrite E1.
  assert (E2 : y - Z.land y 1 = Z.ldiff y (Z.land y 1)).
  { apply Z.sub_nocarry_ldiff. apply Z.bits_inj'. intros n Hn. rewrite Z.ldiff_spec, Z.land_spec, Z.bits_0. by destruct (Z.testbit y n), (Z.testbit 1 n). }
  rewrite E2. split; apply Z.bits_inj'; intros n Hn; rewrite ?Z.lxor_spec, ?Z.ldiff_spec, Z.land_spec; by destruct (Z.testbit y n), (Z.testbit 1 n).
Qed.

(** Clearing the low bit of a nonce of eight octets. *)
Lemma nonce_low nonce mask : length nonce = 8%nat -> bytes_ok nonce -> mask = 0 \/ mask = 1 ->
  Z.land (byte_at nonce 7) mask = be_value 0 nonce mod (mask + 1) /\
  take 4 nonce ++ take 3 (drop 4 nonce) ++ [Z.ldiff (byte_at nonce 7) mask] = be_bytes 8 (Z.lxor (be_value 0 nonce) (be_value 0 nonce mod (mask + 1))).
Proof.
  intros Hl Hb Hm. assert (Hs : exists p x, nonce = p ++ [x] /\ length p = 7%nat).
  { destruct nonce as [|x p _] using rev_ind; [done|]. exists p, x. split; [done|]. rewrite length_app in Hl. cbn in Hl. lia. }
  destruct Hs as (p & x & -> & Hp). apply bytes_ok_app in Hb as [Hbp Hbx]. apply Forall_cons_1 in Hbx as [Hx _].
  assert (E7 : byte_at (p ++ [x]) 7 = x) by (unfold byte_at; rewrite lookup_app_r by lia; by rewrite Hp). rewrite E7.
  assert (Et : take 4 (p ++ [x]) ++ take 3 (drop 4 (p ++ [x])) = p).
  { rewrite take_take_drop. change (4 + 3)%nat with 7%nat. rewrite take_app_le, take_ge by lia. done. }
  assert (Ev : be_value 0 (p ++ [x]) = be_value 0 p * 256 + x) by (rewrite be_value_app; cbn [be_value length]; change (2 ^ (8 * Z.of_nat 1)) with 256; lia).
  rewrite app_assoc, Et, Ev. set (v := be_value 0 p). unfold is_byte in Hx. destruct Hm as [-> | ->].
  - change (0 + 1) with 1. rewrite Z.mod_1_r, Z.land_0_r, Z.lxor_0_r, Z.ldiff_0_r. split; [done|].
    rewrite <- Hl. unfold v. rewrite <- Ev. symmetry. apply be_bytes_be_value. rewrite bytes_ok_app. split; [done|]. apply Forall_cons_2; [done|apply Forall_nil_2].
  - change (1 + 1) with 2. assert (E2 : (v * 256 + x) mod 2 = x mod 2) by (replace (v * 256 + x) with (x + v * 128 * 2) by lia; apply Z.mod_add; lia).
    destruct (clear_low x) as [E3 _]. destruct (clear_low (v * 256 + x)) as [_ E4]. rewrite E4, E2, E3.
    split; [change 1 with (Z.ones 1); by rewrite Z.land_ones by lia|]. pose proof (Z.mod_pos_bound x 2 ltac:(lia)) as Hm2.
    assert (Hx2 : x mod 2 <= x) by (apply Z.mod_le; lia).
    assert (Ew : v * 256 + x - x mod 2 = be_value 0 (p ++ [x - x mod 2])).
    { rewrite be_value_app. cbn [be_value length]. change (2 ^ (8 * Z.of_nat 1)) with 256. fold v. lia. }
    rewrite Ew. assert (Hl3 : length (p ++ [x - x mod 2]) = 8%nat) by (rewrite length_app; cbn [length]; lia). rewrite <- Hl3. symmetry.
    apply be_bytes_be_value. rewrite bytes_ok_app. split; [done|]. apply Forall_cons_2; [unfold is_byte; lia|apply Forall_nil_2].
Qed.

Lemma code_encipher_eq k x : aes_encryption x (aes_key_setup k) = code_encipher k x.
Proof. unfold code_encipher. reflexivity. Qed.

Lemma pad_PDF b K nonce : length K = 16%nat -> bytes_ok K -> length nonce = 8%nat -> bytes_ok nonce ->
  pad b K nonce = PDF AES K nonce (UMAC_OUTPUT_LEN b).
Proof.
  intros Hl Hb Hln Hbn. unfold pad, PDF, pad_nonce, pad_key, UMAC_KEY_LEN. rewrite kdf_spec, KDF_aes by (done || lia).
  destruct (nonce_low nonce (LOW_BIT_MASK b) Hln Hbn) as [E1 E2]; [destruct b; [by left|by right]|]. rewrite E1.
  assert (Em : Z.of_nat (16 / UMAC_OUTPUT_LEN b) = LOW_BIT_MASK b + 1) by (by destruct b). rewrite Em.
  assert (En : take 4 nonce ++ (take 3 (drop 4 nonce) ++ [Z.ldiff (byte_at nonce 7) (LOW_BIT_MASK b)]) ++ replicate 8 0 =
    be_bytes 8 (Z.lxor (be_value 0 nonce) (be_value 0 nonce mod (LOW_BIT_MASK b + 1))) ++ replicate 8 0) by (rewrite app_assoc; by f_equal).
  rewrite En. set (blk := be_bytes 8 _ ++ replicate 8 0). set (idx := be_value 0 nonce mod (LOW_BIT_MASK b + 1)).
  assert (Hblk : length blk = 16%nat /\ bytes_ok blk).
  { unfold blk. split; [by rewrite length_app, length_be_bytes|]. rewrite bytes_ok_app. auto using bytes_ok_be_bytes, bytes_ok_zeros. }
  rewrite code_encipher_eq.
  rewrite <- KDF_aes by done. rewrite code_is_aes; [|apply length_KDF, code_length|apply bytes_ok_KDF, code_bytes|apply Hblk..].
  assert (Hc : length (AES (KDF code_encipher K 0 16) blk) = 16%nat).
  { rewrite <- code_is_aes; [apply code_length|apply length_KDF, code_length|apply bytes_ok_KDF, code_bytes|apply Hblk..]. }
  destruct b; [|unfold UMAC_OUTPUT_LEN; do 2 f_equal; lia]. assert (Ei : idx = 0) by apply Z.mod_1_r. rewrite Ei. cbn [Z.to_nat Nat.mul UMAC_OUTPUT_LEN].
  by rewrite drop_0, take_ge by lia.
Qed.

Lemma zip_lxor_comm (l : list Z) : forall k, zip_with Z.lxor l k = zip_with Z.lxor k l.
Proof. induction l as [|x l IH]; intros [|y k]; try done. cbn [zip_with]. by rewrite IH, Z.lxor_comm. Qed.

(** Tags for messages of at most 2^32 - 1 octets. *)
Lemma umac_fn_rfc b K nonce m : length K = 16%nat -> bytes_ok K -> length nonce = 8%nat -> bytes_ok nonce -> bytes_ok m -> Z.of_nat (length m) < 2 ^ 32 ->
  umac_fn b K nonce m = UMAC AES K m nonce (UMAC_OUTPUT_LEN b).
Proof.
  intros Hl Hb Hln Hbn Hm Hlm. unfold umac_fn, UMAC. rewrite uhash_rfc by done. rewrite UHASH_aes, pad_PDF by done.
  apply zip_lxor_comm.
Qed.

(** ** Messages *)

(** The tags of messages, each in pieces and with its nonce, one after the other
    with the same context. *)
Fixpoint umac_tags (b : bool) (x : umac_context) (msgs : list (list (list Z) * list Z)) : list (list Z) :=
  match msgs with
  | [] => []
  | (parts, nonce) :: msgs =>
      let '(tag, x) := umac_final b (fold_left (umac_update b) parts x) nonce in
      tag :: umac_tags b x msgs
  end.

Lemma umac_updates_taken b K parts : forall x m, umac_taken b K x m -> Z.of_nat (length (m ++ concat parts)) < 2 ^ 32 ->
  umac_taken b K (fold_left (umac_update b) parts x) (m ++ concat parts).
Proof.
  induction parts as [|d parts IH]; intros x m Ht Hl; cbn [fold_left concat] in *; [by rewrite app_nil_r|].
  rewrite app_assoc in *. apply IH; [|done]. apply umac_update_taken; [done|]. rewrite !length_app in Hl. lia.
Qed.

(** What the caller gives: octets, a nonce of eight, and no more than 16 megabytes. *)
Definition umac_input_ok (msg : list (list Z) * list Z) : Prop :=
  Forall (fun p => bytes_ok p) msg.1 /\ length msg.2 = 8%nat /\ bytes_ok msg.2 /\ Z.of_nat (length (concat msg.1)) <= 2 ^ 24.

Lemma umac_tags_taken b K msgs : length K = 16%nat -> bytes_ok K -> Forall umac_input_ok msgs -> forall x, umac_taken b K x [] ->
  umac_tags b x msgs = map (fun msg => UMAC AES K (concat msg.1) msg.2 (UMAC_OUTPUT_LEN b)) msgs.
Proof.
  intros Hl Hb Hm. induction Hm as [|[parts nonce] msgs (H1 & H2 & H3 & H4) Hm IH]; intros x Hx; [done|]. cbn [fst snd] in *. cbn [umac_tags map fst snd].
  pose proof (umac_updates_taken b K parts x [] Hx ltac:(cbn [app]; lia)) as Ht. cbn [app] in Ht.
  destruct (umac_final_taken b K _ _ nonce Ht H2) as [E Hn]. destruct (umac_final b _ nonce) as [tag x']. cbn [fst snd] in E, Hn. rewrite E.
  assert (Hbm : bytes_ok (concat parts)) by (by apply Forall_concat). rewrite umac_fn_rfc by (done || lia). f_equal. by apply IH.
Qed.

(** C18: A context of [umac_new] computes UMAC as RFC 4418 defines it (with 8 octets
    in umac.c and 16 in umac128.c), for one message after the other, each in any
    pieces and with any nonce: the hash in 64-bit words without reduction, the
    blocks kept back at 1024 octets, the padding and the cached block of the pad
    make no difference, up to the 16 megabytes the code is made for. *)
Theorem umac_rfc4418 b K msgs : length K = 16%nat -> bytes_ok K -> Forall umac_input_ok msgs ->
  umac_tags b (umac_new b K) msgs = map (fun msg => UMAC AES K (concat msg.1) msg.2 (UMAC_OUTPUT_LEN b)) msgs.
Proof. intros Hl Hb Hm. apply umac_tags_taken; [done|done|done|]. apply umac_new_taken. Qed.

(** The empty message of the appendix of RFC 4418, and aaa in two pieces. *)
Lemma umac_rfc4418_witness :
  let K := chars "abcdefghijklmnop" in
  let nonce := chars "bcdefghi" in
  umac_tags false (umac_new false K) [([], nonce); ([[97]; [97; 97]], nonce)] =
    map (fun msg => UMAC AES K (concat msg.1) msg.2 8) [([], nonce); ([[97]; [97; 97]], nonce)] /\
  umac_tags false (umac_new false K) [([], nonce); ([[97]; [97; 97]], nonce)] =
    [[0x6e; 0x15; 0x5f; 0xad; 0x26; 0x90; 0x0b; 0xe1]; [0x44; 0xb5; 0xcb; 0x54; 0x2f; 0x22; 0x01; 0x04]].
Proof.
  intros K nonce. split; [|vm_compute; reflexivity].
  apply (umac_rfc4418 false K); [reflexivity|apply (bool_decide_unpack _); vm_compute; exact I|].
  apply Forall_cons_2; [|apply Forall_cons_2; [|apply Forall_nil_2]]; unfold umac_input_ok; cbn [fst snd];
    (split; [apply (bool_decide_unpack _); vm_compute; exact I|]; split; [reflexivity|];
     split; [apply (bool_decide_unpack _); vm_compute; exact I|cbn; lia]).
Defined.
