(* ===== verification/MacImpl.v ===== *)
(** Message authentication over the program's own hash functions and UMAC: the
    interfaces [MD] and [Umac] of mac.c with their implementations. *)

From stdpp Require Import base list numbers tactics.
From Stdlib Require Import ZArith Lia ZifyBool.
From S2P Require Import Prelude Sshbuf SshbufGetput Rijndael Umac UmacSpec UmacUhash UmacThms UmacImpl Digest DigestImpl Mac.

(** ** umac.c as an implementation of [Umac] *)

#[export] Instance umac_c : Mac.Umac := {|
  Mac.umac_ctx := umac_context; Mac.umac_new := Umac.umac_new; Mac.umac_update := Umac.umac_update; Mac.umac_final := Umac.umac_final
|}.

Lemma length_pad b K nonce : length (pad b K nonce) = UMAC_OUTPUT_LEN b.
Proof.
  unfold pad. pose proof (length_aes (pad_key K) (pad_nonce b nonce)) as Hl. destruct b; [done|]. cbv zeta. rewrite length_take, length_drop, Hl.
  change (LOW_BIT_MASK false) with (Z.ones 1). rewrite Z.land_ones by lia. pose proof (Z.mod_pos_bound (byte_at nonce 7) (2 ^ 1) ltac:(lia)).
  change (2 ^ 1) with 2 in *. cbn [UMAC_OUTPUT_LEN]. lia.
Qed.

Lemma bytes_ok_pad b K nonce : bytes_ok (pad b K nonce).
Proof. unfold pad. destruct b; [apply bytes_ok_aes|]. apply bytes_ok_take, bytes_ok_drop, bytes_ok_aes. Qed.

Lemma umac_hash_octets b K m :
  let h := concat (map (fun i => ip_out (uhash_init b (aes_key_setup K)) i
    (uh_value b (nh_key (Umac.hash (uhash_init b (aes_key_setup K)))) (poly_key_8 (uhash_init b (aes_key_setup K))) m i)) (seq 0 (STREAMS b))) in
  length h = UMAC_OUTPUT_LEN b /\ bytes_ok h.
Proof.
  cbv zeta. set (f := fun i => ip_out _ i _). assert (Hf : forall i, length (f i) = 4%nat /\ bytes_ok (f i)).
  { intros i. split; [done|]. unfold f, ip_out, put_u32. repeat (apply Forall_cons_2; [apply u8_byte|]). apply Forall_nil_2. }
  split.
  - rewrite (length_pieces f 4) by (intros i _; apply Hf). by destruct b.
  - generalize (seq 0 (STREAMS b)). intros l. induction l as [|i l IH]; [done|]. cbn [map concat]. rewrite bytes_ok_app. split; [apply Hf|done].
Qed.

Lemma bytes_ok_lxor l : forall k, bytes_ok l -> bytes_ok k -> bytes_ok (zip_with Z.lxor l k).
Proof.
  induction l as [|x l IH]; intros [|y k] Hl Hk; try apply Forall_nil_2. apply Forall_cons_1 in Hl as [Hx Hl]. apply Forall_cons_1 in Hk as [Hy Hk].
  cbn [zip_with]. apply Forall_cons_2; [|by apply IH]. unfold is_byte in *.
  assert (E : forall z, 0 <= z < 256 -> u8 z = z) by (intros z Hz; by apply Z.mod_small). rewrite <- (E x Hx), <- (E y Hy), <- u8_lxor. apply u8_byte.
Qed.

Lemma umac_fn_octets b K nonce m : length (umac_fn b K nonce m) = UMAC_OUTPUT_LEN b /\ bytes_ok (umac_fn b K nonce m).
Proof.
  destruct (umac_hash_octets b K m) as [Hl Hb]. cbv zeta in Hl, Hb. unfold umac_fn. split.
  - rewrite length_zip_with, Hl, length_pad. lia.
  - apply bytes_ok_lxor; [exact Hb|apply bytes_ok_pad].
Qed.

#[export] Instance umac_c_laws : UmacLaws.
Proof.
  refine {| umac_tag := umac_fn; umac_ready b K x := umac_taken b K x [] |}.
  - apply umac_new_taken.
  - intros b K x m nonce Hx Hn. pose proof (umac_update_taken b K x [] m Hx ltac:(done)) as Ht. by apply (umac_final_taken b K _ m nonce).
  - intros b K x m nonce Hx Hn. pose proof (umac_update_taken b K x [] m Hx ltac:(done)) as Ht. by apply (umac_final_taken b K _ m nonce).
  - intros b K nonce m. rewrite (proj1 (umac_fn_octets b K nonce m)). by destruct b.
  - intros b K nonce m. apply umac_fn_octets.
Defined.

(** ** The tags of packets *)

(** The tag that an algorithm of the table stands for: HMAC of RFC 2104 over MD5,
    SHA-1, SHA-256 or SHA-512, or UMAC of RFC 4418 with the sequence number as
    nonce. *)
Definition standard_tag (a : macalg) (key : list Z) (seqno : Z) (data : list Z) : list Z :=
  if ma_type a =? SSH_DIGEST then
    match ssh_digest_by_alg (ma_alg a) with
    | Some d => hmac (ma_alg a) d (take (Z.to_nat (digest_len d)) key) (POKE_U32 seqno ++ data)
    | None => []
    end
  else UMAC AES key data (POKE_U64 seqno) (if ma_type a =? SSH_UMAC128 then 16 else 8).

Lemma POKE_U64_octets v : length (POKE_U64 v) = 8%nat /\ bytes_ok (POKE_U64 v).
Proof.
  split; [done|]. unfold POKE_U64. change 0xff with (Z.ones 8). rewrite !Z.land_ones by lia.
  repeat (apply Forall_cons_2; [apply Z.mod_pos_bound; lia|]). apply Forall_nil_2.
Qed.


